(* ===== verification/_CoqProject ===== *)
-Q . S2P
Prelude.v
Store.v
HashTable.v
Reloc.v
Buckets.v
Expand.v
HashTableSpec.v
Cache.v
CacheSpec.v
Policies.v
CacheThms.v
Glib.v
Splay.v
LRUv0.v
LRUv0Thms.v
Md5.v
Md5Spec.v
ConsistentHash.v
ConsistentHashSpec.v
ConsistentHashThms.v
CacheServer.v
CacheServerSpec.v
CacheCluster.v
CacheClusterSpec.v
CacheClusterThms.v
ClusterRequestThms.v
ClusterGetThms.v
Dist.v
DistThms.v
Mattson.v
PQueue.v
PQueueSpec.v
LibCsv.v
LibCsvSpec.v
ReaderBase.v
BinReader.v
Reader.v
BinReaderSpec.v
Simulator.v
ClusterThread.v
ClusterMain.v
ClusterMapThms.v
ClusterMainThms.v
ClusterRunThms.v
ClusterReportThms.v
ClusterTraceThms.v
ClusterProgramThms.v
SlabCommon.v
SlabPolicies.v
SlabSpec.v
SlabRel.v
SlabThms.v
SlabObjSpec.v
SlabObjThms.v
SlabRunThms.v
SlabObjRunThms.v
HashTableThms.v
SplayThms.v
TextReaderSpec.v
CsvTraceSpec.v
SimulatorThms.v
