(* ===== verification/Prelude.v ===== *)
(** * A verification library for the C2DN simulator

    The repository simulates a cluster of CDN cache servers that keeps large objects as
    erasure-coded chunks (src/CDNSimulator/src), on top of a cache library, libCacheSim
    (src/CDNSimulator/libCacheSim): trace readers that turn a trace file into requests, a
    cache made of a hash table and of a list threaded through its objects, replacement
    policies, profilers that compute stack distances and miss-ratio curves, and a simulator
    that drives one cache with a trace.  This library models that code in Gallina and proves
    what makes it correct, and, where it is not, what it does instead.  Paths below are
    relative to libCacheSim, those of the cluster to CDNSimulator/src.

    ** Conventions

    C integers are [Z], with the conversions [u64], [u32], [u16], [u8], [i64], [i32] of this
    file written where the source computes or stores.  Where signed arithmetic could overflow,
    the conversion is written as well (two's complement, as compilers do it) and the theorems
    state the range in which it does not: keys of the splay tree, pieces of a message given to
    md5_append, vnodes of a ring.  A function that can fail returns
    [result]: an error is a NULL or dangling dereference, an access out of bounds, a failed
    assert, an abort, or the end of the fuel of a loop.  Memory that is shared is explicit:
    cache objects live in a store addressed by location, the nodes of the priority queue in
    a map, so that aliasing is modelled and not assumed away.  Loops that are not
    structural carry fuel; every theorem states that the given fuel is enough (the result is
    [Ok]), except where it shows that no fuel is.  The build is that of include/config.h:
    SUPPORT_TTL and TRACK_EVICTION_AGE undefined, HASHTABLE_VER 1.

    ** The parts

    - Store: cache_obj_t, request_t and the functions of cacheObj.h and request.h on them
      (include/libCacheSim/struct.h, cacheObj.h, request.h, enum.h), with the
      specification of the doubly linked list.
    - HashTable: dataStructure/hashtable/chainedHashtable.c, the whole file.  Its first
      objects are stored in the table itself, so insertion, deletion and growth move objects
      while they are linked in the cache's list.  Reloc (what moving an object preserves),
      Buckets (the chains), Expand (growth) and HashTableSpec (the outcome of every
      operation) carry the proof; HashTableThms shows the table to be a finite map.
    - Cache: cache/cache.c and the policies LRU, FIFO, MRU and Random of evictionAlgo.
      CacheSpec is the interface between the two: the class [Policy] says what a policy
      promises to cache_get, and the behaviour of cache_get is derived from the class
      alone; Policies discharges it for the four policies; CacheThms has the theorems on
      whole traces.
    - Glib: the interfaces of GHashTable and of GQueue, by its links and by its data, with
      their documented laws, each with an instance.  LRUv0 and LRUv0Thms:
      evictionAlgo/LRUv0.c against LRU.c.
    - SlabCommon (include/libCacheSim/evictionAlgo/slabCommon.h: slabs, slab classes, the
      search of a class, add_to_slabclass with the eviction function as its argument) and
      SlabPolicies (evictionAlgo/slabLRC.c, slabLRU.c, slabObjLRU.c): caches that keep their
      objects in slabs, on the containers of GLib.  What LRUv0 and the slab caches allocate at
    their creation is a list of blocks, from which destruction takes the ones it frees.  SlabSpec: the search of a class, and the
      abstract cache of slabLRC and slabLRU, a list of slabs; SlabRel: its relation to the
      memory, whatever the hash table holds, and the changes of state that the policies are
      made of; SlabThms and SlabRunThms: the operations of slabLRC and slabLRU, and whole
      runs.  SlabObjSpec, SlabObjThms and SlabObjRunThms: the same for slabObjLRU, whose
      abstract cache also has the list of its entries.
    - Splay (dataStructure/splay.c), SplayThms; Dist (profiler/dist.c,
      profiler/include/distInternal.h, profiler/profilerLRU.c), DistThms; Mattson, which
      relates the profiler to the cache it predicts.
    - PQueue, PQueueSpec: dataStructure/pqueue.c.
    - LibCsv, LibCsvSpec: traceReader/libcsv.c.  ReaderBase (line scanning, the reader's
      state), BinReader (binary.c, vscsi.c, customizedReader/twrBin.h), Reader (reader.c,
      csv.c, readerUtils.c); BinReaderSpec, TextReaderSpec and CsvTraceSpec.
    - Simulator, SimulatorThms: profiler/simulator.c and cache/include/cacheUtils.h, with
      the thread pool as a step relation.
    - Md5, Md5Spec: md5.c, against the definition of RFC 1321.  ConsistentHash,
      ConsistentHashSpec, ConsistentHashThms: consistentHash.cpp, the ring of virtual nodes.
    - CacheServer (cacheServer.cpp, include/cacheServer.hpp): a server is a cache of
      libCacheSim, possibly a second one, and its counters; the kind of an object and the
      number of a chunk live in the metadata of the cached object.  CacheServerSpec is what a
      server promises to the cluster.
    - CacheCluster (cacheCluster.cpp, include/cacheCluster.hpp, include/stat.hpp): get with
      its hits and misses, the mapping of buckets to servers, failure and recovery of
      servers.  CacheClusterSpec relates the cluster to the views of its servers;
      CacheClusterThms follows the chunks of one object, ClusterMapThms the mapping and what
      failures do to it, ClusterGetThms the whole of get and the invariant it keeps,
      ClusterRunThms sequences of requests; ClusterRequestThms shows what becomes of the
      request structure on its way through the cluster.
    - ClusterThread (cacheClusterThread.cpp, include/cacheClusterThread.hpp) and ClusterMain
      (simulator.cpp, include/utils.h): the run over a trace with its failure file and its
      report, and how a command line becomes a cluster and a run.  ClusterReportThms is
      about the report, ClusterTraceThms about the loop over a trace, ClusterMainThms about
      the configuration; ClusterProgramThms composes them all.

    The parts interact as in the code: the hash table updates the list pointers of the cache
    through the pointer variables registered with it; policies reach the cache through
    their table of functions; the profilers and the simulator call read_one_req, and the
    simulator clones readers and creates caches.  The cluster asks the ring for the servers
    of its buckets, calls its servers, and each server calls the policy of its cache; the
    theorems of each layer are proved from the specification of the layer below.

    ** The theorems

    - The policies: a run of LRU, FIFO or MRU from a fresh cache answers as the reference
      cache on lists of entries does, with the same content in the same order, without a
      memory error, for every hash function and table size (CacheThms); Random keeps its
      capacity and evicts only cached objects.  LRUv0 and LRU answer alike; of its memory LRUv0
      leaks only its LRUv0_params_t (LRUv0Thms).
    - The slab caches: slabLRC and slabLRU answer as lists of slabs from which the first is
      dropped, never hold more than the size of the cache; destruction frees every object and slab
      once, and leaks the cache_params and the slab_q queues (SlabRunThms); slabObjLRU, when it
      does not move slabs between classes, evicts the least recent object of the class that
      needs room (SlabObjRunThms); the search of a slab class is that of the first class
      that fits (SlabSpec).
    - The hash table refines a finite map (HashTableThms); the splay tree a sorted set, as long
      as its keys lie in a window of 2^63 values, and its two splaying
      routines build the same tree (SplayThms); the priority queue keeps the heap order and
      the positions of its nodes (PQueueSpec).
    - The stack distances are those of the definition, and the hit counts of get_lru_hit_cnt
      are those of the simulated LRU, less the hits lost to a timestamp 0 taken for NULL
      (DistThms, Mattson).
    - The CSV parser refines an abstract parser on unbounded strings, never writes out of its
      buffer, does not depend on how the input is cut, and inverts the writer (LibCsvSpec).
    - Round trips from the bytes of a trace to its requests for the five formats
      (BinReaderSpec, TextReaderSpec, CsvTraceSpec).
    - The simulator: from the bytes of a CSV trace to the miss-ratio curve of the
      reference LRU, in whatever order the threads run (SimulatorThms).
    - MD5 is that of RFC 1321 however the message is cut (Md5Spec).  The ring of equal
      weights is full and gives each server 160 vnodes; a lookup ends and returns the first
      distinct servers with capacity, and the failure of one server moves only the keys it
      had (ConsistentHashThms).
    - The cluster: a miss writes the chunks of an object to the servers of its bucket, a hit
      repairs whatever chunks are missing or doubled, k different chunks are a hit
      (CacheClusterThms); every bucket has the first n + 2 available servers of its ring
      order, whatever failed before (ClusterMapThms); a configuration becomes a cluster that
      satisfies all of this (ClusterMainThms).  The cluster theorems are about
      configurations without the options -b and --checkOneMore; [configured], [on_ring],
      [line_ok], [plain_config] and [prepared] list the conditions.
    - Requests to the cluster: under these conditions and for objects that fit the caches,
      get never fails, is a hit exactly when the caches have what it takes, and keeps every
      cached object of the kind its size says; an object that was let in is a hit at the
      next request, also after n - k servers have failed in between (ClusterGetThms,
      ClusterRunThms).
    - The program: from a configuration, the bytes of a trace and a failure file to the end
      of the run, with the servers down that the failure file names, and, without failures,
      to the report of the copies of every object (ClusterProgramThms).
    - What goes wrong, as theorems: evicting the only object, oversized FIFO hits, removal
      that never finds its object, printing a priority queue, the operation field of binary
      traces, lines of exactly MAX_LINE_LEN bytes, CRLF, a last CSV line without line end,
      removal from a slab cache, objects larger than every slab class,
      rings of unequal weights, sizes that are cut to 32 bits when they become weights.

    ** Bounds and fuel

    Traces are shorter than 2^31 requests and objects smaller than 2^32 bytes (obj_size is a
    uint32_t), so that occupied_size cannot wrap; files are smaller than 2^62 bytes, rings
    than 2^30 vnodes, calls of md5_append than 2^28 bytes.  The
    eviction loop is given one round per cached object and one for the last test, a chain
    walk one per object of the store, find_line_ending three rounds (one doubling happens
    at most once unless the loop never ends), a reader's loops one per byte of the file, and
    so the loop of the cluster's thread.  add_to_slabclass has a call for every slab and two
    more, the search of a slab class seven rounds for its 49 classes.  A run of the cluster is
    bounded by the lookups its hash tables count in 32 bits: [request_cost] for every
    request.

    ** Not modelled

    File and terminal I/O (open, mmap, logging, close_reader, save_dist, the progress
    display), the functions computed in floating point (logarithmic bins of dist.c and
    distHeatmap.c, reader_set_read_pos, the warm-up percentage), memory exhaustion (malloc
    succeeds, except for libcsv's realloc, of which every call may succeed or fail),
    the links of a data queue, which GLib frees with the queue, chainedHashTableV2.c (not the configured version
    of the hash table), the policies under evictionAlgo/toUpdate and unsupported (not built;
    written for an older interface), vendored containers and hash functions (the hash is a
    parameter), libketama (replaced by consistentHash.cpp), the texts of logs and the parsing of command-line
    options in the cluster simulator, and the Go prototype.  GLib, atof,
    g_quark_from_string, qsort, rand and the maximum-flow solver of OR-tools are parameters
    with documented laws.  Floating point, where the cluster and the ring use it, is that of
    the Standard Library's SpecFloat.  *)

From Stdlib Require Export ZArith Lia List.
From stdpp Require Export base functions gmap list list_numbers fin_maps.

#[global] Open Scope Z_scope.
#[global] Set Default Proof Using "Type".

(** ** Errors of the modelled C code *)

(** What can stop an execution of the modelled code: undefined behaviour the
    program would run into, an [assert] or [abort] of the source, or (for a loop
    written with a bound) the bound running out. *)
Inductive err :=
  | NullDeref      (* a NULL pointer is dereferenced *)
  | BadAccess      (* memory that is not allocated is accessed *)
  | OutOfBounds    (* an array is accessed out of its range *)
  | DivByZero      (* an integer division by zero *)
  | BadConversion  (* a float outside the range of an integer type is converted to it *)
  | Overflow       (* an operation on signed integers overflows *)
  | Thrown         (* a function of the C++ library throws an exception *)
  | AssertFail     (* an assert of the source fails *)
  | Aborted        (* the source calls abort or exit *)
  | OutOfFuel.     (* the bound of a loop of the model is exhausted *)

Inductive result (A : Type) :=
  | Ok (a : A)
  | Err (e : err).
Arguments Ok {A} a.
Arguments Err {A} e.

#[export] Instance err_eq_dec : EqDecision err.
Proof. solve_decision. Defined.

Definition rbind {A B} (c : result A) (k : A -> result B) : result B :=
  match c with Ok a => k a | Err e => Err e end.

Declare Scope c_scope.
Delimit Scope c_scope with C.
#[global] Open Scope c_scope.

Notation "'let!' x ':=' c 'in' k" := (rbind c (fun x => k))
  (at level 10, x name, c at level 100, k at level 200) : c_scope.
Notation "'let!' ' p ':=' c 'in' k" := (rbind c (fun x => match x with p => k end))
  (at level 10, p strict pattern, c at level 100, k at level 200) : c_scope.

Definition is_ok {A} (r : result A) : bool :=
  match r with Ok _ => true | Err _ => false end.

(** [assert(b)] of the C code. *)
Definition cassert (b : bool) : result unit := if b then Ok tt else Err AssertFail.

(** [free] of a block of memory, [bs] being the blocks that are allocated. *)
Definition free_block {B} `{EqDecision B} (b : B) (bs : list B) : result (list B) :=
  if decide (b ∈ bs) then Ok (filter (fun x => x <> b) bs) else Err BadAccess.

Lemma rbind_Ok {A B} (c : result A) (k : A -> result B) b :
  rbind c k = Ok b <-> exists a, c = Ok a /\ k a = Ok b.
Proof. destruct c; simpl; naive_solver. Qed.

Lemma rbind_assoc {A B C} (c : result A) (k : A -> result B) (k' : B -> result C) :
  rbind (rbind c k) k' = rbind c (fun a => rbind (k a) k').
Proof. by destruct c. Qed.

(** A fold over a list whose step can fail, left to right: the [for] loops. *)
Fixpoint rfold {A B} (f : B -> A -> result B) (l : list A) (b : B) : result B :=
  match l with
  | [] => Ok b
  | a :: l => let! b' := f b a in rfold f l b'
  end.

Lemma rfold_app {A B} (f : B -> A -> result B) l1 l2 b :
  rfold f (l1 ++ l2) b = rbind (rfold f l1 b) (rfold f l2).
Proof.
  revert b; induction l1 as [|a l1 IH]; intros b; simpl; [done|].
  destruct (f b a); simpl; auto.
Qed.

(** The rule for loops: an invariant indexed by the elements already treated
    carries a failing fold to its end. *)
Lemma rfold_inv {A B} (f : B -> A -> result B) (I : list A -> B -> Prop) l b :
  I [] b ->
  (forall done a b, (exists rest, l = done ++ a :: rest) -> I done b ->
     exists b', f b a = Ok b' /\ I (done ++ [a]) b') ->
  exists b', rfold f l b = Ok b' /\ I l b'.
Proof.
  intros H0 Hstep.
  enough (forall rest done b, l = done ++ rest -> I done b ->
            exists b', rfold f rest b = Ok b' /\ I l b') as Hgen by by eapply (Hgen l []).
  induction rest as [|a rest IH]; intros dn b' Hl HI; simpl.
  - rewrite app_nil_r in Hl. subst. eauto.
  - destruct (Hstep dn a b') as (b'' & -> & HI'); eauto. simpl.
    apply (IH (dn ++ [a])); [|done]. by rewrite <- app_assoc.
Qed.

(** A counting loop. *)
Lemma rfold_seqZ {B} (f : B -> Z -> result B) (I : Z -> B -> Prop) a n b :
  0 <= n -> I a b ->
  (forall i b, a <= i < a + n -> I i b -> exists b', f b i = Ok b' /\ I (i + 1) b') ->
  exists b', rfold f (seqZ a n) b = Ok b' /\ I (a + n) b'.
Proof.
  intros Hn H0 Hstep.
  destruct (rfold_inv f (fun dn b => I (a + Z.of_nat (length dn)) b) (seqZ a n) b) as (b' & E & HI).
  - simpl. by rewrite Z.add_0_r.
  - intros dn i b' [rest E] HI.
    assert (seqZ a n !! length dn = Some i) as Hi by (rewrite E; by apply list_lookup_middle).
    apply lookup_seqZ in Hi as [-> Hi]. rewrite length_app. simpl.
    destruct (Hstep (a + Z.of_nat (length dn)) b') as (b'' & E' & HI'); [lia|done|]. exists b''. split; [done|].
    by replace (a + Z.of_nat (length dn + 1)) with (a + Z.of_nat (length dn) + 1) by lia.
  - exists b'. split; [done|]. rewrite length_seqZ in HI. by rewrite Z2Nat.id in HI.
Qed.

(** ** Arrays *)

(** a[i], for an array of the length of the list *)
Definition arr_get {A} (l : list A) (i : Z) : result A :=
  if i <? 0 then Err OutOfBounds
  else match l !! Z.to_nat i with Some x => Ok x | None => Err OutOfBounds end.

(** a[i] = f(a[i]) *)
Definition arr_upd {A} (f : A -> A) (l : list A) (i : Z) : result (list A) :=
  let! x := arr_get l i in Ok (<[Z.to_nat i := f x]> l).

(** ** Machine integers

    Values of the C integer types are [Z]; these functions reduce a mathematical
    result to the type's range, as the C conversions and the unsigned operations do. *)

Definition wrap (w : Z) (x : Z) : Z := x mod 2 ^ w.
Definition u8 := wrap 8.
Definition u16 := wrap 16.
Definition u32 := wrap 32.
Definition u64 := wrap 64.
(** Two's-complement reinterpretation on [w] bits. *)
Definition swrap (w : Z) (x : Z) : Z := (x + 2 ^ (w - 1)) mod 2 ^ w - 2 ^ (w - 1).
Definition i8 := swrap 8.
Definition i16 := swrap 16.
Definition i32 := swrap 32.
Definition i64 := swrap 64.

Definition UINT32_MAX : Z := 4294967295.
Definition SIZE_MAX : Z := 18446744073709551615.

Lemma wrap_range w x : 0 <= w -> 0 <= wrap w x < 2 ^ w.
Proof. intros. unfold wrap. apply Z.mod_pos_bound. lia. Qed.

Lemma wrap_small w x : 0 <= x < 2 ^ w -> wrap w x = x.
Proof. apply Z.mod_small. Qed.

Lemma u64_small x : 0 <= x < 2 ^ 64 -> u64 x = x.
Proof. apply wrap_small. Qed.
Lemma u32_small x : 0 <= x < 2 ^ 32 -> u32 x = x.
Proof. apply wrap_small. Qed.
Lemma u16_small x : 0 <= x < 2 ^ 16 -> u16 x = x.
Proof. apply wrap_small. Qed.
Lemma u64_range x : 0 <= u64 x < 2 ^ 64.
Proof. by apply wrap_range. Qed.
Lemma u32_range x : 0 <= u32 x < 2 ^ 32.
Proof. by apply wrap_range. Qed.

Lemma swrap_small w x : 0 < w -> - 2 ^ (w - 1) <= x < 2 ^ (w - 1) -> swrap w x = x.
Proof.
  intros Hw Hx. unfold swrap. rewrite Z.mod_small; [lia|].
  replace (2 ^ w) with (2 * 2 ^ (w - 1)); [lia|].
  rewrite <- Z.pow_succ_r by lia. f_equal. lia.
Qed.

Lemma i64_small x : - 2 ^ 63 <= x < 2 ^ 63 -> i64 x = x.
Proof. apply (swrap_small 64). lia. Qed.

Lemma land_mask_range x p : 0 <= p -> 0 <= Z.land x (2 ^ p - 1) < 2 ^ p.
Proof.
  intros Hp. replace (2 ^ p - 1) with (Z.ones p) by (rewrite Z.ones_equiv; lia).
  rewrite Z.land_ones by done.
  apply Z.mod_pos_bound. lia.
Qed.

Create HintDb cint discriminated.
Create Rewrite HintDb cint.
#[export] Hint Resolve u64_range u32_range land_mask_range : cint.
#[export] Hint Rewrite u64_small u32_small u16_small i64_small using lia : cint.

(** The decimal digits of [v] as bytes, before [acc]: what the conversions %d and %u of
    printf write for a number that is not negative. *)
Fixpoint dec_loop (fuel : nat) (v : Z) (acc : list Z) : list Z :=
  match fuel with
  | O => acc
  | S fuel => if v <? 10 then 48 + v :: acc else dec_loop fuel (v / 10) (48 + v mod 10 :: acc)
  end.
Definition decimal (v : Z) : list Z := dec_loop 20 v [].

(** ** Tactics of the development *)

(** Reduce the monadic steps whose outcome is known. *)
Ltac rsimpl := cbn [rbind cassert is_ok] in *.
(** Rewrite with an equation [c = Ok _] of the context and take the step. *)
Ltac rstep :=
  match goal with
  | H : ?c = Ok _ |- context [rbind ?c _] => rewrite H; cbn [rbind]
  end.
(** Split a hypothesis [rbind c k = Ok _] into its steps. *)
Ltac rinv H :=
  let a := fresh "a" in let Ha := fresh "Ha" in
  apply rbind_Ok in H as (a & Ha & H).
(** Case analysis on the boolean tests of the goal, kept as propositions. *)
Ltac case_bool :=
  match goal with
  | |- context [?x =? ?y] => destruct (Z.eqb_spec x y)
  | |- context [?x <? ?y] => destruct (Z.ltb_spec x y)
  | |- context [?x <=? ?y] => destruct (Z.leb_spec x y)
  end.
