(* ===== verification/Store.v ===== *)
(** * Cache objects in memory: struct.h, enum.h, request.h and cacheObj.h

    The objects of the cache live in a shared store.  An address is either a slot of a
    table (the objects "baked into" the hash table of version 1) or an object that was
    allocated on its own; a pointer is [option loc], [None] being NULL.  The pointer
    variables the list functions and the hash table update through a
    [cache_obj_t **] (list_head, list_tail) are cells of the same store.  The link
    functions of cacheObj.h follow the source, with a NULL or dangling dereference as
    an error value. *)

From S2P Require Import Prelude.

(** ** Enumerations (enum.h) *)

Inductive req_op_e :=
  | OP_GET | OP_GETS | OP_SET | OP_ADD | OP_CAS | OP_REPLACE | OP_APPEND | OP_PREPEND
  | OP_DELETE | OP_INCR | OP_DECR | OP_READ | OP_WRITE | OP_UPDATE | OP_INVALID.

Inductive cache_ck_res_e :=
  | cache_ck_hit | cache_ck_miss | cache_ck_expired | cache_ck_invalid.

#[export] Instance req_op_e_eq_dec : EqDecision req_op_e.
Proof. solve_decision. Defined.
#[export] Instance cache_ck_res_e_eq_dec : EqDecision cache_ck_res_e.
Proof. solve_decision. Defined.

(** ** Addresses *)

Inductive loc :=
  | TabSlot (t : N) (i : Z)   (* &table[i] of the table allocated as t *)
  | HeapObj (n : N).          (* an object allocated by create_cache_obj_from_request *)

#[export] Instance loc_eq_dec : EqDecision loc.
Proof. solve_decision. Defined.
#[export] Instance loc_countable : Countable loc.
Proof.
  refine (inj_countable'
    (fun l => match l with TabSlot t i => inl (t, i) | HeapObj n => inr n end)
    (fun s => match s with inl (t, i) => TabSlot t i | inr n => HeapObj n end) _).
  by intros [].
Defined.
#[export] Instance loc_inhabited : Inhabited loc := populate (HeapObj 0).

(** ** Structures (struct.h)

    The model is of the build configured in config.h: SUPPORT_TTL and
    TRACK_EVICTION_AGE are not defined, so exp_time and create_time do not exist. *)

Record cache_obj := mk_cache_obj {
  hash_next : option loc;
  list_next : option loc;
  list_prev : option loc;
  extra_metadata_u64 : Z;
  obj_id_int : Z;          (* obj_id_t, uint64_t *)
  obj_size : Z             (* uint32_t *)
}.

Record request := mk_request {
  req_real_time : Z;       (* uint64_t *)
  req_obj_id_int : Z;      (* obj_id_t *)
  req_obj_size : Z;        (* uint64_t *)
  req_extra_field1 : Z;    (* int64_t *)
  req_extra_field2 : Z;    (* int64_t *)
  req_cache_obj : option loc;
  req_hv : Z;              (* uint64_t *)
  req_ttl : Z;             (* int32_t *)
  req_op : Z;              (* req_op_e, stored as the integer the readers write *)
  req_valid : bool
}.

(** memset(obj, 0, sizeof(cache_obj_t)) *)
Definition zero_obj : cache_obj := mk_cache_obj None None None 0 0 0.

#[export] Instance cache_obj_eq_dec : EqDecision cache_obj.
Proof. solve_decision. Defined.

Definition set_hash_next (v : option loc) (o : cache_obj) : cache_obj :=
  mk_cache_obj v (list_next o) (list_prev o) (extra_metadata_u64 o) (obj_id_int o) (obj_size o).
Definition set_list_next (v : option loc) (o : cache_obj) : cache_obj :=
  mk_cache_obj (hash_next o) v (list_prev o) (extra_metadata_u64 o) (obj_id_int o) (obj_size o).
Definition set_list_prev (v : option loc) (o : cache_obj) : cache_obj :=
  mk_cache_obj (hash_next o) (list_next o) v (extra_metadata_u64 o) (obj_id_int o) (obj_size o).
Definition set_obj_size (v : Z) (o : cache_obj) : cache_obj :=
  mk_cache_obj (hash_next o) (list_next o) (list_prev o) (extra_metadata_u64 o) (obj_id_int o) v.

(** *** Requests (request.h) *)

Definition OP_INVALID_int : Z := 14.

Definition new_request : request :=
  mk_request 0 0 1 0 0 None 0 0 OP_INVALID_int true.

(** memcpy(req_dest, req_src, sizeof(request_t)) *)
Definition copy_request (req_dest req_src : request) : request := req_src.

Definition clone_request (req : request) : request := copy_request new_request req.

Definition set_req_hv (hv : Z) (r : request) : request :=
  mk_request (req_real_time r) (req_obj_id_int r) (req_obj_size r) (req_extra_field1 r)
    (req_extra_field2 r) (req_cache_obj r) hv (req_ttl r) (req_op r) (req_valid r).

(** ** The store *)

Record store := mk_store {
  objs : gmap loc cache_obj;          (* the allocated objects *)
  cells : gmap N (option loc);        (* the external pointer variables *)
  fresh : N                           (* the next allocation *)
}.

(** no memory is allocated yet *)
Definition empty_store : store := mk_store ∅ ∅ 0.

Definition set_objs (m : gmap loc cache_obj) (s : store) : store :=
  mk_store m (cells s) (fresh s).

(** *p, for a pointer that may be NULL *)
Definition deref (s : store) (p : option loc) : result cache_obj :=
  match p with
  | None => Err NullDeref
  | Some l => match objs s !! l with Some o => Ok o | None => Err BadAccess end
  end.

(** p->field = v *)
Definition store_upd (f : cache_obj -> cache_obj) (s : store) (p : option loc) : result store :=
  match p with
  | None => Err NullDeref
  | Some l =>
      match objs s !! l with
      | Some o => Ok (set_objs (<[l := f o]> (objs s)) s)
      | None => Err BadAccess
      end
  end.

(** the value and the assignment of an external pointer variable *)
Definition cell_get (s : store) (c : N) : result (option loc) :=
  match cells s !! c with Some p => Ok p | None => Err BadAccess end.
Definition cell_set (s : store) (c : N) (p : option loc) : store :=
  mk_store (objs s) (<[c := p]> (cells s)) (fresh s).

(** ** cacheObj.h: allocation *)

(** copy_request_to_cache_obj: obj_size is a uint32_t, the request's a uint64_t *)
Definition copy_request_to_cache_obj (o : cache_obj) (req : request) : cache_obj :=
  mk_cache_obj (hash_next o) (list_next o) (list_prev o) (extra_metadata_u64 o)
    (req_obj_id_int req) (u32 (req_obj_size req)).

(** create_cache_obj_from_request; the argument is NULL when a table grows *)
Definition create_cache_obj_from_request (s : store) (req : option request) : loc * store :=
  let l := HeapObj (fresh s) in
  let o := match req with
           | Some r => copy_request_to_cache_obj zero_obj r
           | None => zero_obj
           end in
  (l, mk_store (<[l := o]> (objs s)) (cells s) (fresh s + 1)).

(** free_cache_obj *)
Definition free_cache_obj (s : store) (l : loc) : result store :=
  match objs s !! l with
  | Some _ => Ok (set_objs (delete l (objs s)) s)
  | None => Err BadAccess
  end.

(** ** cacheObj.h: the built-in doubly linked list *)

(** prev_obj_in_slist; [fuel] bounds the walk *)
Fixpoint prev_obj_in_slist_loop (fuel : nat) (s : store) (head : option loc) (obj : loc)
    : result (option loc) :=
  match fuel with
  | O => Err OutOfFuel
  | S fuel =>
      match head with
      | None => Ok None
      | Some _ =>
          let! o := deref s head in
          if decide (list_next o = Some obj) then Ok head
          else prev_obj_in_slist_loop fuel s (list_next o) obj
      end
  end.

Definition prev_obj_in_slist (s : store) (head : option loc) (obj : loc)
    : result (option loc) :=
  let! _ := cassert (bool_decide (head <> Some obj)) in
  prev_obj_in_slist_loop (S (size (objs s))) s head obj.

(** remove_obj_from_list: head and tail are the cells of the two pointer variables *)
Definition remove_obj_from_list (s : store) (head tail : N) (obj : loc) : result store :=
  let! h := cell_get s head in
  if decide (Some obj = h) then
    let! o := deref s (Some obj) in
    let s := cell_set s head (list_next o) in
    store_upd (set_list_prev None) s (list_next o)
  else
    let! t := cell_get s tail in
    if decide (Some obj = t) then
      let! o := deref s (Some obj) in
      let s := cell_set s tail (list_prev o) in
      store_upd (set_list_next None) s (list_prev o)
    else
      let! o := deref s (Some obj) in
      let! s := store_upd (set_list_next (list_next o)) s (list_prev o) in
      let! o := deref s (Some obj) in
      let! s := store_upd (set_list_prev (list_prev o)) s (list_next o) in
      let! s := store_upd (set_list_prev None) s (Some obj) in
      store_upd (set_list_next None) s (Some obj).

(** move_obj_to_tail *)
Definition move_obj_to_tail (s : store) (head tail : N) (obj : loc) : result store :=
  let! h := cell_get s head in
  let! t := cell_get s tail in
  if decide (h = t) then
    (* the list only has one element *)
    let! _ := cassert (bool_decide (Some obj = h)) in
    let! o := deref s (Some obj) in
    let! _ := cassert (bool_decide (list_next o = None)) in
    let! _ := cassert (bool_decide (list_prev o = None)) in
    Ok s
  else if decide (Some obj = h) then
    (* change head *)
    let! o := deref s (Some obj) in
    let s := cell_set s head (list_next o) in
    let! s := store_upd (set_list_prev None) s (list_next o) in
    (* move to tail *)
    let! s := store_upd (set_list_next (Some obj)) s t in
    let! s := store_upd (set_list_next None) s (Some obj) in
    let! s := store_upd (set_list_prev t) s (Some obj) in
    Ok (cell_set s tail (Some obj))
  else if decide (Some obj = t) then Ok s
  else
    (* bridge prev and next *)
    let! o := deref s (Some obj) in
    let! s := store_upd (set_list_next (list_next o)) s (list_prev o) in
    let! o := deref s (Some obj) in
    let! s := store_upd (set_list_prev (list_prev o)) s (list_next o) in
    (* handle current tail *)
    let! s := store_upd (set_list_next (Some obj)) s t in
    (* handle this moving object *)
    let! s := store_upd (set_list_next None) s (Some obj) in
    let! s := store_upd (set_list_prev t) s (Some obj) in
    (* handle tail *)
    Ok (cell_set s tail (Some obj)).

(** ** Specification of the list functions

    [dseg m p L n]: the objects at the addresses [L] are linked in that order, the first
    one's list_prev is [p] and the last one's list_next is [n].  [dll] is a whole list.
    [core] and [links] split an object into the part the list functions leave alone and
    the part the hash table's chains do not read. *)

Definition core (o : cache_obj) : option loc * Z * Z * Z :=
  (hash_next o, obj_id_int o, obj_size o, extra_metadata_u64 o).
Definition links (o : cache_obj) : option loc * option loc := (list_next o, list_prev o).
(** what the object stores, links and chain apart *)
Definition content (o : cache_obj) : Z * Z * Z := (obj_id_int o, obj_size o, extra_metadata_u64 o).

Definition hd_or (n : option loc) (L : list loc) : option loc :=
  match L with [] => n | l :: _ => Some l end.
Definition last_or (p : option loc) (L : list loc) : option loc :=
  match last L with Some l => Some l | None => p end.

Fixpoint dseg (m : gmap loc cache_obj) (p : option loc) (L : list loc) (n : option loc) : Prop :=
  match L with
  | [] => True
  | l :: L' => exists o, m !! l = Some o /\ links o = (hd_or n L', p) /\ dseg m (Some l) L' n
  end.

Definition dll (m : gmap loc cache_obj) (L : list loc) : Prop := dseg m None L None.

(** The list [L] is the one held by the pointer variables [hd] and [tl]. *)
Record list_repr (s : store) (hd tl : N) (L : list loc) : Prop := {
  lr_dll : dll (objs s) L;
  lr_nodup : NoDup L;
  lr_head : cells s !! hd = Some (head L);
  lr_tail : cells s !! tl = Some (last L);
  lr_ne : hd <> tl
}.

Lemma links_set_prev p o : links (set_list_prev p o) = ((links o).1, p).
Proof. done. Qed.
Lemma links_set_next n o : links (set_list_next n o) = (n, (links o).2).
Proof. done. Qed.

Create HintDb clist discriminated.

Section dseg.
  Implicit Types (m : gmap loc cache_obj) (L : list loc).

Lemma hd_or_app n L1 L2 : hd_or n (L1 ++ L2) = hd_or (hd_or n L2) L1.
Proof. by destruct L1. Qed.
Lemma hd_or_None L : hd_or None L = head L.
Proof. by destruct L. Qed.
Lemma last_or_None L : last_or None L = last L.
Proof. unfold last_or. by destruct (last L). Qed.
Lemma last_or_cons p l L : last_or p (l :: L) = last_or (Some l) L.
Proof.
  unfold last_or. destruct L as [|x L]; [done|].
  change (last (l :: x :: L)) with (last (x :: L)).
  destruct (last (x :: L)) eqn:E; [done|]. by apply last_None in E.
Qed.
Lemma last_or_app p L l : last_or p (L ++ [l]) = Some l.
Proof. unfold last_or. by rewrite last_snoc. Qed.

Lemma dseg_app m p L1 L2 n :
  dseg m p (L1 ++ L2) n <-> dseg m p L1 (hd_or n L2) /\ dseg m (last_or p L1) L2 n.
Proof.
  revert p; induction L1 as [|l L1 IH]; intros p; simpl.
  - unfold last_or; simpl. tauto.
  - rewrite last_or_cons. setoid_rewrite IH. rewrite hd_or_app. naive_solver.
Qed.

Lemma dseg_elem m p L n l : dseg m p L n -> l ∈ L -> is_Some (m !! l).
Proof.
  revert p; induction L as [|l' L IH]; intros p; simpl.
  - intros _ H. by apply not_elem_of_nil in H.
  - intros (o & Ho & _ & Hd) [->|H]%elem_of_cons; eauto.
Qed.

(** A segment only reads the links of its own objects. *)
Lemma dseg_ext m m' p L n :
  (forall l, l ∈ L -> links <$> m' !! l = links <$> m !! l) -> dseg m p L n -> dseg m' p L n.
Proof.
  revert p; induction L as [|l L IH]; intros p Heq; simpl; [done|].
  intros (o & Ho & Hl & Hd).
  assert (Hl' := Heq l ltac:(apply elem_of_cons; auto)). rewrite Ho in Hl'.
  destruct (m' !! l) as [o'|] eqn:Ho'; [|done]. apply (inj Some) in Hl'.
  exists o'. split_and!; [done|by rewrite Hl'|]. apply IH; [|done].
  intros. apply Heq. by apply elem_of_cons; right.
Qed.

Lemma dseg_insert_notin m p L n l o :
  l ∉ L -> dseg m p L n -> dseg (<[l := o]> m) p L n.
Proof.
  intros Hl. apply dseg_ext. intros l' Hl'. rewrite lookup_insert_ne; [done|]. congruence.
Qed.

Lemma dseg_set_first m p p' x L n o :
  NoDup (x :: L) -> dseg m p (x :: L) n -> m !! x = Some o ->
  dseg (<[x := set_list_prev p' o]> m) p' (x :: L) n.
Proof.
  intros [Hx _]%NoDup_cons (o' & Ho' & Hl & Hd) Ho; simplify_eq. simpl.
  exists (set_list_prev p' o'). rewrite lookup_insert_eq. split_and!; [done| |].
  - by rewrite links_set_prev, Hl.
  - by apply dseg_insert_notin.
Qed.

Lemma dseg_set_last m p L y n n' o :
  NoDup (L ++ [y]) -> dseg m p (L ++ [y]) n -> m !! y = Some o ->
  dseg (<[y := set_list_next n' o]> m) p (L ++ [y]) n'.
Proof.
  intros (_ & Hy & _)%NoDup_app [Hd1 (o' & Ho' & Hl & _)]%dseg_app Ho; simplify_eq.
  assert (y ∉ L) by (intros Hin; apply (Hy _ Hin); by apply list_elem_of_singleton).
  apply dseg_app. split; [by apply dseg_insert_notin|]. simpl.
  exists (set_list_next n' o'). rewrite lookup_insert_eq.
  split_and!; [done| |done]. by rewrite links_set_next, Hl.
Qed.

Lemma dseg_snoc_new m L y l o :
  dseg m None (L ++ [y]) (Some l) -> l ∉ L ++ [y] -> links o = (None, Some y) ->
  dll (<[l := o]> m) ((L ++ [y]) ++ [l]).
Proof.
  intros Hd Hl Ho. apply dseg_app. split.
  - by apply dseg_insert_notin.
  - rewrite last_or_app. simpl. exists o. by rewrite lookup_insert_eq.
Qed.

Lemma core_fmap_insert m l o o' :
  m !! l = Some o -> core o' = core o -> core <$> <[l := o']> m = core <$> m.
Proof.
  intros Hl Hc. rewrite fmap_insert, Hc. apply insert_id. by rewrite lookup_fmap, Hl.
Qed.

End dseg.

Lemma deref_Some s l o : objs s !! l = Some o -> deref s (Some l) = Ok o.
Proof. simpl. by intros ->. Qed.
Lemma store_upd_Some f s l o :
  objs s !! l = Some o -> store_upd f s (Some l) = Ok (set_objs (<[l := f o]> (objs s)) s).
Proof. simpl. by intros ->. Qed.
Lemma cell_get_Some s c p : cells s !! c = Some p -> cell_get s c = Ok p.
Proof. unfold cell_get. by intros ->. Qed.

(** The states a list function may lead to: the objects' contents and chains, the
    objects outside the list [D], the allocation counter and the other pointer variables
    are as before. *)
Record list_frame (hd tl : N) (D : list loc) (s s' : store) : Prop := {
  lf_core : core <$> objs s' = core <$> objs s;
  lf_out : forall l, l ∉ D -> objs s' !! l = objs s !! l;
  lf_fresh : fresh s' = fresh s;
  lf_cells : forall c, c <> hd -> c <> tl -> cells s' !! c = cells s !! c
}.

Lemma list_frame_refl hd tl D s : list_frame hd tl D s s.
Proof. by split. Qed.
Lemma list_frame_trans hd tl D s1 s2 s3 :
  list_frame hd tl D s1 s2 -> list_frame hd tl D s2 s3 -> list_frame hd tl D s1 s3.
Proof.
  intros [C1 O1 F1 P1] [C2 O2 F2 P2]. split; [congruence| |congruence|].
  - intros. rewrite <- O1 by done. auto.
  - intros. rewrite <- P1 by done. auto.
Qed.
Lemma list_frame_upd hd tl D s l o f :
  l ∈ D -> objs s !! l = Some o -> core (f o) = core o ->
  list_frame hd tl D s (set_objs (<[l := f o]> (objs s)) s).
Proof.
  intros HD **. split; [by eapply core_fmap_insert| |done..].
  intros l' Hl'. simpl. rewrite lookup_insert_ne; [done|]. by intros ->.
Qed.
Lemma list_frame_hd hd tl D s p : list_frame hd tl D s (cell_set s hd p).
Proof. split; [done..|]. intros. simpl. by rewrite lookup_insert_ne. Qed.
Lemma list_frame_tl hd tl D s p : list_frame hd tl D s (cell_set s tl p).
Proof. split; [done..|]. intros. simpl. by rewrite lookup_insert_ne. Qed.

#[export] Hint Resolve list_frame_refl list_frame_hd list_frame_tl : clist.

(** One update of a list field, as a step of a longer run. *)
Lemma upd_prev_step hd tl D s l p :
  l ∈ D -> is_Some (objs s !! l) ->
  exists s', store_upd (set_list_prev p) s (Some l) = Ok s' /\ list_frame hd tl D s s' /\
    cells s' = cells s /\
    exists o, objs s !! l = Some o /\ objs s' = <[l := set_list_prev p o]> (objs s).
Proof.
  intros HD [o Ho]. exists (set_objs (<[l := set_list_prev p o]> (objs s)) s).
  split_and!; [by apply (store_upd_Some _ s l o)|by apply (list_frame_upd hd tl D s l o (set_list_prev p))|done|eauto].
Qed.

Lemma upd_next_step hd tl D s l p :
  l ∈ D -> is_Some (objs s !! l) ->
  exists s', store_upd (set_list_next p) s (Some l) = Ok s' /\ list_frame hd tl D s s' /\
    cells s' = cells s /\
    exists o, objs s !! l = Some o /\ objs s' = <[l := set_list_next p o]> (objs s).
Proof.
  intros HD [o Ho]. exists (set_objs (<[l := set_list_next p o]> (objs s)) s).
  split_and!; [by apply (store_upd_Some _ s l o)|by apply (list_frame_upd hd tl D s l o (set_list_next p))|done|eauto].
Qed.

Lemma is_Some_insert (m : gmap loc cache_obj) l l' o :
  is_Some (m !! l) -> is_Some (<[l' := o]> m !! l).
Proof. intros. destruct (decide (l = l')) as [->|]; simplify_map_eq; eauto. Qed.
#[export] Hint Resolve is_Some_insert : clist.

(** Appending the object [l], outside the segment, behind its last object: the stores
    (1) last->list_next = l (2) l->list_next = NULL (3) l->list_prev = last. *)
Lemma append_steps hd tl D s L y l :
  (forall x, x ∈ (L ++ [y]) ++ [l] -> x ∈ D) ->
  dll (objs s) (L ++ [y]) -> NoDup (L ++ [y]) -> l ∉ L ++ [y] -> is_Some (objs s !! l) ->
  exists s1 s2 s3,
    store_upd (set_list_next (Some l)) s (Some y) = Ok s1 /\
    store_upd (set_list_next None) s1 (Some l) = Ok s2 /\
    store_upd (set_list_prev (Some y)) s2 (Some l) = Ok s3 /\
    list_frame hd tl D s s3 /\ cells s3 = cells s /\
    dll (objs s3) ((L ++ [y]) ++ [l]).
Proof.
  intros HD Hd Hnd Hl Hlo.
  assert (y <> l) as Hyl by (intros ->; apply Hl, elem_of_app; right; by apply list_elem_of_singleton).
  assert (Hy : is_Some (objs s !! y)).
  { eapply dseg_elem; [exact Hd|]. apply elem_of_app; right. by apply list_elem_of_singleton. }
  destruct (upd_next_step hd tl D s y (Some l) ltac:(set_solver) Hy) as (s1 & E1 & F1 & C1 & oy & Hoy & O1).
  destruct (upd_next_step hd tl D s1 l None) as (s2 & E2 & F2 & C2 & ol & Hol & O2);
    [set_solver|rewrite O1; auto with clist|].
  destruct (upd_prev_step hd tl D s2 l (Some y)) as (s3 & E3 & F3 & C3 & ol' & Hol' & O3);
    [set_solver|rewrite O2, O1; auto with clist|].
  exists s1, s2, s3. split_and!; try done.
  - eauto using list_frame_trans.
  - congruence.
  - rewrite O3. assert (ol' = set_list_next None ol) as ->.
    { rewrite O2, lookup_insert_eq in Hol'. congruence. }
    apply dseg_snoc_new; [|done|done].
    rewrite O2. apply dseg_insert_notin; [done|]. rewrite O1.
    by eapply dseg_set_last.
Qed.

(** Unlinking an object between two others: prev->list_next = next and
    next->list_prev = prev, as both list functions do it. *)
Lemma bridge_steps hd tl D s L1 a l x L2 :
  (forall y, y ∈ (L1 ++ [a]) ++ l :: x :: L2 -> y ∈ D) ->
  dll (objs s) ((L1 ++ [a]) ++ l :: x :: L2) -> NoDup ((L1 ++ [a]) ++ l :: x :: L2) ->
  exists o s1 s2,
    objs s !! l = Some o /\ list_next o = Some x /\ list_prev o = Some a /\
    store_upd (set_list_next (Some x)) s (Some a) = Ok s1 /\
    objs s1 !! l = Some o /\
    store_upd (set_list_prev (Some a)) s1 (Some x) = Ok s2 /\
    list_frame hd tl D s s2 /\ cells s2 = cells s /\
    objs s2 !! l = Some o /\ dll (objs s2) ((L1 ++ [a]) ++ x :: L2).
Proof.
  intros HD [Hd1 Hd2]%dseg_app Hnd.
  rewrite last_or_app in Hd2. destruct Hd2 as (o & Ho & Hl & Hd2). simpl in Hl, Hd1.
  apply NoDup_app in Hnd as (Hn1 & Hdis & [Hlx Hn2]%NoDup_cons).
  assert (a ∈ L1 ++ [a]) as Ha by (apply elem_of_app; right; by apply list_elem_of_singleton).
  assert (Hal : a <> l) by (intros ->; apply (Hdis l); [done|apply elem_of_cons; auto]).
  assert (Hax : a ∉ x :: L2) by (intros Hin; apply (Hdis a); [done|apply elem_of_cons; auto]).
  assert (Hxl : x <> l) by (intros ->; apply Hlx, elem_of_cons; auto).
  assert (Hx1 : x ∉ L1 ++ [a]) by (intros Hin; apply (Hdis x); [done|rewrite !elem_of_cons; auto]).
  destruct (upd_next_step hd tl D s a (Some x)) as (s1 & E1 & F1 & C1 & oa & Hoa & O1);
    [set_solver|exact (dseg_elem _ _ _ _ _ Hd1 Ha)|].
  destruct (upd_prev_step hd tl D s1 x (Some a)) as (s2 & E2 & F2 & C2 & ox & Hox & O2).
  { set_solver. } { rewrite O1. apply is_Some_insert. eapply dseg_elem; [exact Hd2|apply elem_of_cons; auto]. }
  assert (Hl1 : objs s1 !! l = Some o) by (by rewrite O1, lookup_insert_ne).
  unfold links in Hl. exists o, s1, s2.
  split_and!; try congruence; try done.
  - eauto using list_frame_trans.
  - by rewrite O2, lookup_insert_ne.
  - apply dseg_app. rewrite last_or_app. simpl hd_or. split.
    + rewrite O2. apply dseg_insert_notin; [done|]. rewrite O1. by eapply dseg_set_last.
    + rewrite O2. eapply dseg_set_first; [done| |done].
      rewrite O1. by apply dseg_insert_notin.
Qed.

(** Unlinking the first object: next->list_prev = NULL. *)
Lemma behead_step hd tl D s l x L2 :
  (forall y, y ∈ l :: x :: L2 -> y ∈ D) ->
  dll (objs s) (l :: x :: L2) -> NoDup (l :: x :: L2) ->
  exists o s1,
    objs s !! l = Some o /\ list_next o = Some x /\ list_prev o = None /\
    store_upd (set_list_prev None) s (Some x) = Ok s1 /\
    list_frame hd tl D s s1 /\ cells s1 = cells s /\
    objs s1 !! l = Some o /\ dll (objs s1) (x :: L2).
Proof.
  intros HD (o & Ho & Hl & Hd) [Hlx Hn]%NoDup_cons.
  assert (Hxl : x <> l) by (intros ->; apply Hlx, elem_of_cons; auto).
  destruct (upd_prev_step hd tl D s x None) as (s1 & E1 & F1 & C1 & ox & Hox & O1).
  { set_solver. } { eapply dseg_elem; [exact Hd|apply elem_of_cons; auto]. }
  unfold links in Hl. simpl in Hl. exists o, s1.
  split_and!; try congruence; try done.
  - by rewrite O1, lookup_insert_ne.
  - rewrite O1. by eapply dseg_set_first.
Qed.

Lemma list_repr_head s hd tl l L :
  list_repr s hd tl (l :: L) -> cell_get s hd = Ok (Some l).
Proof. intros []. by apply cell_get_Some. Qed.
Lemma list_repr_tail s hd tl L : list_repr s hd tl L -> cell_get s tl = Ok (last L).
Proof. intros []. by apply cell_get_Some. Qed.

Lemma head_last_ne (l x : loc) L :
  NoDup (l :: x :: L) -> Some l <> last (l :: x :: L).
Proof.
  intros [Hl _]%NoDup_cons. change (last (l :: x :: L)) with (last (x :: L)).
  intros H. symmetry in H. apply Hl. apply last_Some_elem_of in H. done.
Qed.

(** move_obj_to_tail moves its object behind all others, and changes nothing else. *)
Lemma move_obj_to_tail_spec s hd tl L1 l L2 :
  list_repr s hd tl (L1 ++ l :: L2) ->
  exists s', move_obj_to_tail s hd tl l = Ok s' /\
    list_repr s' hd tl (L1 ++ L2 ++ [l]) /\ list_frame hd tl (L1 ++ l :: L2) s s'.
Proof.
  intros [Hd Hn Hh Ht Hne]. unfold move_obj_to_tail.
  rewrite (cell_get_Some _ _ _ Hh), (cell_get_Some _ _ _ Ht). cbn [rbind].
  destruct L2 as [|x L2].
  { (* already the last one *)
    rewrite last_snoc. exists s. split_and!; [|by split|done].
    destruct L1 as [|y L1]; simpl.
    - destruct Hd as (o & Ho & Hl & _). unfold links in Hl; simpl in Hl.
      rewrite decide_True by done. simplify_eq. rewrite Ho.
      rewrite bool_decide_eq_true_2 by done. cbn [rbind cassert].
      by rewrite !bool_decide_eq_true_2 by done.
    - assert (y <> l).
      { intros ->. apply NoDup_cons in Hn as [Hn _]. apply Hn, elem_of_app; right.
        by apply list_elem_of_singleton. }
      rewrite decide_False, decide_False, decide_True by congruence. done. }
  destruct L1 as [|a L1 _] using rev_ind; simpl app in *.
  - (* the first of several *)
    pose proof (head_last_ne _ _ _ Hn) as Hhl. simpl head in *.
    rewrite decide_False, decide_True by done.
    destruct (behead_step hd tl (l :: x :: L2) s l x L2 ltac:(done) Hd Hn) as (o & s1 & Ho & En & Ep & E1 & F1 & C1 & Ho1 & Hd1).
    apply NoDup_cons in Hn as [Hlx Hn].
    set (sh := cell_set s hd (Some x)).
    assert (Hy : exists L y, x :: L2 = L ++ [y]).
    { destruct (exists_last (l := x :: L2)) as (L & y & ->); eauto. }
    destruct Hy as (L & y & Hy). rewrite Hy in *.
    assert (last (l :: L ++ [y]) = Some y) as Hlast.
    { change (l :: L ++ [y]) with ((l :: L) ++ [y]). by rewrite last_snoc. }
    rewrite Hlast in *.
    (* the head variable does not matter to the steps on objects *)
    destruct (behead_step hd tl (l :: x :: L2) sh l x L2) as (o' & s1' & Ho' & _ & _ & E1' & F1' & C1' & Ho1' & Hd1').
    { done. } { by rewrite Hy. } { rewrite Hy. by apply NoDup_cons. }
    destruct (append_steps hd tl (l :: x :: L2) s1' L y l) as (s2 & s3 & s4 & E2 & E3 & E4 & F4 & C4 & Hd4).
    { rewrite Hy. set_solver. } { by rewrite <- Hy. } { done. } { done. } { eauto. }
    exists (cell_set s4 tl (Some l)).
    rewrite (deref_Some _ _ _ Ho). cbn [rbind].
    rewrite En. cbv zeta. fold sh. rewrite E1'. cbn [rbind]. rewrite E2. cbn [rbind]. rewrite E3. cbn [rbind].
    rewrite E4. cbn [rbind]. split_and!; [done| |].
    + change (x :: L2 ++ [l]) with ((x :: L2) ++ [l]). rewrite Hy.
      split; [done| | | |done].
      * apply NoDup_app. split_and!; [done| |apply NoDup_singleton].
        intros z Hz ->%list_elem_of_singleton. done.
      * simpl. rewrite lookup_insert_ne, C4, C1' by done. simpl. rewrite lookup_insert_eq.
        by rewrite <- Hy.
      * simpl. rewrite lookup_insert_eq, last_snoc. done.
    + eapply list_frame_trans; [apply (list_frame_hd hd tl _ s (Some x))|]. rewrite <- Hy.
      eauto using list_frame_trans, list_frame_tl.
  - (* in the middle *)
    assert (Hlh : Some l <> head ((L1 ++ [a]) ++ l :: x :: L2)).
    { intros Heq. apply NoDup_app in Hn as (_ & Hdis & _).
      assert (l ∈ L1 ++ [a]) as Hin.
      { apply head_Some_elem_of. rewrite Heq. by destruct L1. }
      apply (Hdis l Hin), elem_of_cons; auto. }
    assert (Htl : last ((L1 ++ [a]) ++ l :: x :: L2) = last (x :: L2)) by (by rewrite last_app_cons).
    assert (Hlt : Some l <> last (x :: L2)).
    { apply NoDup_app in Hn as (_ & _ & Hn). by apply head_last_ne in Hn. }
    assert (Hht : head ((L1 ++ [a]) ++ l :: x :: L2) <> last (x :: L2)).
    { intros Heq. apply NoDup_app in Hn as (_ & Hdis & _).
      destruct (last (x :: L2)) as [y|] eqn:Hy; [|by apply last_None in Hy].
      apply last_Some_elem_of in Hy.
      apply (Hdis y); [|apply elem_of_cons; auto].
      apply head_Some_elem_of. rewrite <- Heq. by destruct L1. }
    rewrite Htl in *. rewrite !decide_False by done.
    destruct (bridge_steps hd tl ((L1 ++ [a]) ++ l :: x :: L2) s L1 a l x L2 ltac:(done) Hd Hn)
      as (o & s1 & s2 & Ho & En & Ep & E1 & Ho1 & E2 & F2 & C2 & Ho2 & Hd2).
    assert (Hy : exists L y, x :: L2 = L ++ [y]).
    { destruct (exists_last (l := x :: L2)) as (L & y & ->); eauto. }
    destruct Hy as (L & y & Hy).
    assert (Hn' : NoDup (((L1 ++ [a]) ++ L) ++ [y]) /\ l ∉ ((L1 ++ [a]) ++ L) ++ [y]).
    { rewrite <- app_assoc, <- Hy.
      rewrite <- Permutation_middle in Hn. by apply NoDup_cons in Hn as []. }
    destruct Hn' as [Hn' Hl'].
    destruct (append_steps hd tl ((L1 ++ [a]) ++ l :: x :: L2) s2 ((L1 ++ [a]) ++ L) y l) as (s3 & s4 & s5 & E3 & E4 & E5 & F5 & C5 & Hd5).
    { rewrite Hy. set_solver. } { by rewrite <- app_assoc, <- Hy. } { done. } { done. } { eauto. }
    exists (cell_set s5 tl (Some l)).
    rewrite (deref_Some _ _ _ Ho). cbn [rbind]. rewrite En, Ep, E1. cbn [rbind].
    rewrite (deref_Some _ _ _ Ho1). cbn [rbind]. rewrite En, Ep, E2. cbn [rbind].
    rewrite Hy, last_snoc. do 3 (rstep). split_and!; [done| |].
    + assert (Heq : (L1 ++ [a]) ++ (x :: L2) ++ [l] = (((L1 ++ [a]) ++ L) ++ [y]) ++ [l])
        by (rewrite Hy; by rewrite <- !app_assoc).
      change (x :: L2 ++ [l]) with ((x :: L2) ++ [l]). rewrite Heq.
      split; [done| | | |done].
      * apply NoDup_app. split_and!; [done| |apply NoDup_singleton].
        intros z Hz ->%list_elem_of_singleton. done.
      * simpl. rewrite lookup_insert_ne, C5, C2, Hh by done. by destruct L1.
      * simpl. by rewrite lookup_insert_eq, last_snoc.
    + rewrite <- Hy. eauto using list_frame_trans, list_frame_tl.
Qed.

(** remove_obj_from_list unlinks its object from a list that holds others. *)
Lemma remove_obj_from_list_spec s hd tl L1 l L2 :
  list_repr s hd tl (L1 ++ l :: L2) -> L1 ++ L2 <> [] ->
  exists s', remove_obj_from_list s hd tl l = Ok s' /\
    list_repr s' hd tl (L1 ++ L2) /\ list_frame hd tl (L1 ++ l :: L2) s s'.
Proof.
  intros [Hd Hn Hh Ht Hne] Hnil. unfold remove_obj_from_list.
  rewrite (cell_get_Some _ _ _ Hh). cbn [rbind].
  assert (Hn' : NoDup (L1 ++ L2) /\ l ∉ L1 ++ L2).
  { rewrite <- Permutation_middle in Hn. by apply NoDup_cons in Hn as []. }
  destruct Hn' as [Hn' Hl'].
  destruct L1 as [|a L1 _] using rev_ind.
  - (* the first object *)
    simpl app in *. destruct L2 as [|x L2]; [done|].
    rewrite decide_True by done.
    destruct (behead_step hd tl (l :: x :: L2) s l x L2 ltac:(done) Hd Hn) as (o & s1 & Ho & En & _).
    rewrite (deref_Some _ _ _ Ho). cbn [rbind]. rewrite En. cbv zeta.
    set (sh := cell_set s hd (Some x)).
    destruct (behead_step hd tl (l :: x :: L2) sh l x L2 ltac:(done) Hd Hn)
      as (o' & s1' & Ho' & _ & _ & E1 & F1 & C1 & Ho1 & Hd1).
    exists s1'. split_and!; [done| |].
    + split; [exact Hd1|exact Hn'| | |done]; rewrite C1; simpl.
      * by rewrite lookup_insert_eq.
      * rewrite lookup_insert_ne, Ht by done. done.
    + eapply list_frame_trans; [apply (list_frame_hd hd tl _ s (Some x))|done].
  - assert (Hlh : Some l <> head ((L1 ++ [a]) ++ l :: L2)).
    { intros Heq. apply Hl', elem_of_app; left. apply head_Some_elem_of. rewrite Heq. by destruct L1. }
    rewrite decide_False by done. rewrite (cell_get_Some _ _ _ Ht). cbn [rbind].
    destruct L2 as [|x L2].
    + (* the last one *)
      rewrite last_snoc, decide_True by done. rewrite app_nil_r in *.
      apply dseg_app in Hd as [Hd1 Hd2]. rewrite last_or_app in Hd2.
      destruct Hd2 as (o & Ho & Hl & _).
      rewrite (deref_Some _ _ _ Ho). cbn [rbind].
      assert (list_prev o = Some a) as -> by (unfold links in Hl; congruence). cbv zeta.
      set (st := cell_set s tl (Some a)).
      destruct (upd_next_step hd tl ((L1 ++ [a]) ++ [l]) st a None) as (s1 & E1 & F1 & C1 & oa & Hoa & O1).
      { set_solver. } { apply (dseg_elem _ _ _ _ a Hd1). apply elem_of_app; right. by apply list_elem_of_singleton. }
      exists s1. split_and!; [done| |].
      * split; [|done| | |done].
        -- rewrite O1. by eapply dseg_set_last.
        -- rewrite C1. simpl. rewrite lookup_insert_ne, Hh by done. by destruct L1.
        -- rewrite C1. simpl. by rewrite lookup_insert_eq, last_snoc.
      * eapply list_frame_trans; [apply (list_frame_tl hd tl _ s (Some a))|done].
    + (* in the middle *)
      assert (Hlt : Some l <> last ((L1 ++ [a]) ++ l :: x :: L2)).
      { rewrite last_app_cons. apply NoDup_app in Hn as (_ & _ & Hn).
        by apply head_last_ne. }
      rewrite decide_False by done.
      destruct (bridge_steps hd tl ((L1 ++ [a]) ++ l :: x :: L2) s L1 a l x L2 ltac:(done) Hd Hn)
        as (o & s1 & s2 & Ho & En & Ep & E1 & Ho1 & E2 & F2 & C2 & Ho2 & Hd2).
      rewrite (deref_Some _ _ _ Ho). cbn [rbind]. rewrite En, Ep, E1. cbn [rbind].
      rewrite (deref_Some _ _ _ Ho1). cbn [rbind]. rewrite En, Ep, E2. cbn [rbind].
      destruct (upd_prev_step hd tl ((L1 ++ [a]) ++ l :: x :: L2) s2 l None) as (s3 & E3 & F3 & C3 & o3 & Ho3 & O3); [set_solver|eauto|].
      destruct (upd_next_step hd tl ((L1 ++ [a]) ++ l :: x :: L2) s3 l None) as (s4 & E4 & F4 & C4 & o4 & Ho4 & O4).
      { set_solver. } { rewrite O3. apply is_Some_insert. eauto. }
      exists s4. rewrite E3. cbn [rbind]. split_and!; [done| |].
      * split; [|done| | |done].
        -- rewrite O4, O3. apply dseg_insert_notin, dseg_insert_notin; done.
        -- rewrite C4, C3, C2, Hh. by destruct L1.
        -- rewrite C4, C3, C2, Ht. by rewrite !last_app_cons.
      * eauto using list_frame_trans.
Qed.

(** On a list of one object it dereferences that object's list_next, which is NULL. *)
Lemma remove_obj_from_list_single s hd tl l :
  list_repr s hd tl [l] -> remove_obj_from_list s hd tl l = Err NullDeref.
Proof.
  intros [(o & Ho & Hl & _) _ Hh _ _]. unfold remove_obj_from_list.
  rewrite (cell_get_Some _ _ _ Hh). cbn [rbind]. rewrite decide_True by done.
  rewrite (deref_Some _ _ _ Ho). cbn [rbind].
  assert (list_next o = None) as -> by (unfold links in Hl; simpl in Hl; congruence). done.
Qed.
