(* ===== verification/HashTable.v ===== *)
(** * The chained hash table (dataStructure/hashtable/chainedHashtable.c)

    Version 1 of the table: the first object of a bucket is stored in the table itself,
    the others are allocated and chained by hash_next.  Growing the table and deleting
    the first object of a chain therefore move objects in memory; the table fixes the
    neighbours' list pointers and the pointer variables registered by
    chained_hashtable_add_ptr_to_monitoring.  The hash (hash.h selects one at compile
    time) is a parameter of the model. *)

From S2P Require Import Prelude.
From S2P Require Import Store.

(** ** hashtableStruct.h *)

Record hashtable := mk_hashtable {
  table : N;                      (* the address of table[0] *)
  n_cur_item : Z;                 (* uint64_t *)
  hash_power : Z;                 (* uint16_t *)
  n_lookup : Z;                   (* uint64_t *)
  n_chain_walk : Z;               (* uint64_t *)
  monitored_ptrs : list N;        (* the first n_monitored_ptrs entries of monitored_ptrs *)
  n_allocated_ptrs : Z            (* uint16_t *)
}.

Definition hashsize (n : Z) : Z := u64 (Z.shiftl 1 (u16 n)).
Definition hashmask (n : Z) : Z := u64 (hashsize n - 1).

Definition OBJ_EMPTY (o : cache_obj) : bool := obj_size o =? 0.

Definition set_n_cur_item (v : Z) (ht : hashtable) : hashtable :=
  mk_hashtable (table ht) v (hash_power ht) (n_lookup ht) (n_chain_walk ht)
    (monitored_ptrs ht) (n_allocated_ptrs ht).
Definition set_lookup_stats (lookups walk : Z) (ht : hashtable) : hashtable :=
  mk_hashtable (table ht) (n_cur_item ht) (hash_power ht) lookups walk
    (monitored_ptrs ht) (n_allocated_ptrs ht).
Definition set_table (t : N) (p : Z) (ht : hashtable) : hashtable :=
  mk_hashtable t (n_cur_item ht) p (n_lookup ht) (n_chain_walk ht)
    (monitored_ptrs ht) (n_allocated_ptrs ht).

(** the table and the indices of its slots *)
Definition slots (p : Z) : list Z := seqZ 0 (hashsize p).

(** my_malloc_n + memset: all slots of a new table are zero *)
Definition alloc_table (s : store) (p : Z) : N * store :=
  let t := fresh s in
  (t, mk_store (foldr (fun i m => <[TabSlot t i := zero_obj]> m) (objs s) (slots p))
        (cells s) (fresh s + 1)).

Definition free_table (s : store) (t : N) (p : Z) : store :=
  set_objs (foldr (fun i m => delete (TabSlot t i) m) (objs s) (slots p)) s.

(** ** Operations *)

Definition create_chained_hashtable (s : store) (p : Z) : hashtable * store :=
  let '(t, s) := alloc_table s p in
  (mk_hashtable t 0 (u16 p) 0 0 [] 0, s).

(** _last_obj_in_bucket, from an object of the chain; [fuel] bounds the walk *)
Fixpoint last_obj_in_chain (fuel : nat) (s : store) (cur : loc) : result loc :=
  match fuel with
  | O => Err OutOfFuel
  | S fuel =>
      let! o := deref s (Some cur) in
      match hash_next o with
      | None => Ok cur
      | Some nxt => last_obj_in_chain fuel s nxt
      end
  end.

(** enough for any acyclic chain *)
Definition chain_fuel (s : store) : nat := S (size (objs s)).

Definition last_obj_in_bucket (s : store) (ht : hashtable) (hv : Z) : result loc :=
  last_obj_in_chain (chain_fuel s) s (TabSlot (table ht) hv).

Definition update_monitored_ptr (s : store) (ht : hashtable) (new_obj : option loc) (old_obj : loc)
    : result store :=
  rfold (fun s c =>
           let! p := cell_get s c in
           if decide (p = Some old_obj) then Ok (cell_set s c new_obj) else Ok s)
    (monitored_ptrs ht) s.

(** if (p != NULL) p->field = v *)
Definition upd_if_not_null (f : cache_obj -> cache_obj) (s : store) (p : option loc) : result store :=
  match p with None => Ok s | Some _ => store_upd f s p end.

Definition move_obj_to_new_loc (s : store) (ht : hashtable) (new_obj old_obj : loc) : result store :=
  let! o := deref s (Some old_obj) in
  let! s := upd_if_not_null (set_list_next (Some new_obj)) s (list_prev o) in
  let! o := deref s (Some old_obj) in
  let! s := upd_if_not_null (set_list_prev (Some new_obj)) s (list_next o) in
  (* memcpy *)
  let! o := deref s (Some old_obj) in
  let! s := store_upd (fun _ => o) s (Some new_obj) in
  update_monitored_ptr s ht (Some new_obj) old_obj.

Definition delete_obj_in_table (s : store) (ht : hashtable) (obj : loc) : result store :=
  let! o := deref s (Some obj) in
  let! s := upd_if_not_null (set_list_next (list_next o)) s (list_prev o) in
  let! o := deref s (Some obj) in
  let! s := upd_if_not_null (set_list_prev (list_prev o)) s (list_next o) in
  update_monitored_ptr s ht None obj.

Section hashtable.
  Variable get_hash_value_int_64 : Z -> Z.

Definition bucket_of (ht : hashtable) (obj_id : Z) : Z :=
  Z.land (get_hash_value_int_64 obj_id) (hashmask (hash_power ht)).

Definition move_into_new_table (s : store) (ht : hashtable) (obj : loc) (part_of_old_table : bool)
    : result store :=
  let! o := deref s (Some obj) in
  let hv := bucket_of ht (obj_id_int o) in
  let slot := TabSlot (table ht) hv in
  let! b := deref s (Some slot) in
  if OBJ_EMPTY b then
    let! s := move_obj_to_new_loc s ht slot obj in
    let! s := store_upd (set_hash_next None) s (Some slot) in
    if part_of_old_table then Ok s else free_cache_obj s obj
  else
    let! '(obj, s) :=
      (if part_of_old_table then
         let '(new_obj, s) := create_cache_obj_from_request s None in
         let! s := move_obj_to_new_loc s ht new_obj obj in
         Ok (new_obj, s)
       else Ok (obj, s)) in
    let! last := last_obj_in_bucket s ht hv in
    let! s := store_upd (set_hash_next (Some obj)) s (Some last) in
    store_upd (set_hash_next None) s (Some obj).

(** the inner loop of _chained_hashtable_expand: [next_obj] was read before its
    predecessor was moved *)
Fixpoint expand_chain (fuel : nat) (s : store) (ht : hashtable) (next_obj : option loc)
    : result store :=
  match fuel with
  | O => Err OutOfFuel
  | S fuel =>
      match next_obj with
      | None => Ok s
      | Some cur =>
          let! o := deref s (Some cur) in
          let! s := move_into_new_table s ht cur false in
          expand_chain fuel s ht (hash_next o)
      end
  end.

Definition expand_bucket (old_table : N) (ht : hashtable) (s : store) (i : Z) : result store :=
  let! o := deref s (Some (TabSlot old_table i)) in
  if OBJ_EMPTY o then Ok s
  else
    let fuel := chain_fuel s in
    let! s := move_into_new_table s ht (TabSlot old_table i) true in
    expand_chain fuel s ht (hash_next o).

Definition chained_hashtable_expand (s : store) (ht : hashtable) : result (hashtable * store) :=
  let old_table := table ht in
  let p := u16 (hash_power ht + 1) in
  let '(t, s) := alloc_table s p in
  let ht := set_table t p ht in
  let! s := rfold (expand_bucket old_table ht) (slots (p - 1)) s in
  Ok (ht, free_table s old_table (p - 1)).

(** the walk along a chain of chained_hashtable_find and chained_hashtable_find_obj_id:
    the object found and the depth reached *)
Fixpoint find_in_chain (fuel : nat) (s : store) (obj_id : Z) (cur : option loc) (depth : Z)
    : result (option loc * Z) :=
  match fuel with
  | O => Err OutOfFuel
  | S fuel =>
      match cur with
      | None => Ok (None, depth)
      | Some _ =>
          let! o := deref s cur in
          if obj_id_int o =? obj_id then Ok (cur, depth + 1)
          else find_in_chain fuel s obj_id (hash_next o) (depth + 1)
      end
  end.

(** the statistics kept by the two find functions; n_lookup may wrap to 0 *)
Definition count_lookup (ht : hashtable) (depth : Z) : result hashtable :=
  let lookups := u64 (n_lookup ht + 1) in
  let walk := u64 (n_chain_walk ht + depth) in
  if lookups =? 0 then Err DivByZero
  else if walk / lookups >? 3 then Ok (set_lookup_stats 0 0 ht)
  else Ok (set_lookup_stats lookups walk ht).

Definition chained_hashtable_find_obj_id (s : store) (ht : hashtable) (obj_id : Z)
    : result (option loc * hashtable) :=
  let slot := TabSlot (table ht) (bucket_of ht obj_id) in
  let! b := deref s (Some slot) in
  if OBJ_EMPTY b then Ok (None, ht)
  else
    let! '(ret, depth) := find_in_chain (chain_fuel s) s obj_id (Some slot) 0 in
    let! ht := count_lookup ht depth in
    Ok (None, ht).       (* the source returns NULL here, not ret *)

(** also writes the hash into the request *)
Definition chained_hashtable_find (s : store) (ht : hashtable) (req : request)
    : result (option loc * hashtable * request) :=
  let '(hv, req) :=
    if req_hv req =? 0
    then let hv := get_hash_value_int_64 (req_obj_id_int req) in (hv, set_req_hv hv req)
    else (req_hv req, req) in
  let slot := TabSlot (table ht) (Z.land hv (hashmask (hash_power ht))) in
  let! b := deref s (Some slot) in
  if OBJ_EMPTY b then Ok (None, ht, req)
  else
    let! '(ret, depth) := find_in_chain (chain_fuel s) s (req_obj_id_int req) (Some slot) 0 in
    let! ht := count_lookup ht depth in
    Ok (ret, ht, req).

Definition chained_hashtable_find_obj (s : store) (ht : hashtable) (obj_to_find : loc)
    : result (option loc * hashtable) :=
  let! o := deref s (Some obj_to_find) in
  chained_hashtable_find_obj_id s ht (obj_id_int o).

(** (uint64_t) (hashsize(p) * CHAINED_HASHTABLE_EXPAND_THRESHOLD): 0.8 is the double
    3602879701896397 / 2^52, and the product with a power of two is exact *)
Definition expand_threshold (p : Z) : Z := hashsize p * 3602879701896397 / 2 ^ 52.

Definition chained_hashtable_insert (s : store) (ht : hashtable) (req : request)
    : result (loc * hashtable * store) :=
  let! '(ht, s) :=
    (if n_cur_item ht >? expand_threshold (hash_power ht)
     then chained_hashtable_expand s ht else Ok (ht, s)) in
  let hv := bucket_of ht (req_obj_id_int req) in
  let slot := TabSlot (table ht) hv in
  let! b := deref s (Some slot) in
  let! '(obj, s) :=
    (if OBJ_EMPTY b then
       let! s := store_upd (fun o => copy_request_to_cache_obj o req) s (Some slot) in
       Ok (slot, s)
     else
       let '(new_obj, s) := create_cache_obj_from_request s (Some req) in
       let! last := last_obj_in_chain (chain_fuel s) s slot in
       let! s := store_upd (set_hash_next (Some new_obj)) s (Some last) in
       Ok (new_obj, s)) in
  Ok (obj, set_n_cur_item (u64 (n_cur_item ht + 1)) ht, s).

(** the object of the chain whose hash_next is [obj] *)
Fixpoint find_prev_in_chain (fuel : nat) (s : store) (cur obj : loc) : result (option loc) :=
  match fuel with
  | O => Err OutOfFuel
  | S fuel =>
      let! o := deref s (Some cur) in
      if decide (hash_next o = Some obj) then Ok (Some cur)
      else match hash_next o with
           | None => Ok None
           | Some nxt => find_prev_in_chain fuel s nxt obj
           end
  end.

Definition chained_hashtable_delete (s : store) (ht : hashtable) (obj : loc)
    : result (hashtable * store) :=
  let ht := set_n_cur_item (u64 (n_cur_item ht - 1)) ht in
  let! o := deref s (Some obj) in
  let slot := TabSlot (table ht) (bucket_of ht (obj_id_int o)) in
  let! b := deref s (Some slot) in
  let! _ := cassert (negb (OBJ_EMPTY b)) in
  if decide (obj = slot) then
    match hash_next b with
    | Some old_obj =>
        let! s := move_obj_to_new_loc s ht slot old_obj in
        let! s := free_cache_obj s old_obj in
        Ok (ht, s)
    | None =>
        let! s := delete_obj_in_table s ht slot in
        let! s := store_upd (fun _ => zero_obj) s (Some slot) in
        Ok (ht, s)
    end
  else
    let! prev := find_prev_in_chain (chain_fuel s) s slot obj in
    let! _ := cassert (bool_decide (prev <> None)) in
    let! o := deref s (Some obj) in
    let! s := store_upd (set_hash_next (hash_next o)) s prev in
    let! s := delete_obj_in_table s ht obj in
    let! s := free_cache_obj s obj in
    Ok (ht, s).

(** mymath.h: next_rand, Knuth's MMIX generator *)
Definition next_rand (rand_seed : Z) : Z :=
  u64 (6364136223846793005 * rand_seed + 1442695040888963407).

(** the probing loop of chained_hashtable_rand_obj *)
Fixpoint rand_probe (fuel : nat) (s : store) (ht : hashtable) (pos : Z) : result loc :=
  match fuel with
  | O => Err OutOfFuel
  | S fuel =>
      let! o := deref s (Some (TabSlot (table ht) pos)) in
      if OBJ_EMPTY o
      then rand_probe fuel s ht (Z.land (u64 (pos + 1)) (hashmask (hash_power ht)))
      else Ok (TabSlot (table ht) pos)
  end.

(** also returns the new seed; the probing bound is the number of slots *)
Definition chained_hashtable_rand_obj (s : store) (ht : hashtable) (rand_seed : Z)
    : result (loc * Z) :=
  let rand_seed := next_rand rand_seed in
  let! obj := rand_probe (Z.to_nat (hashsize (hash_power ht))) s ht
                (Z.land rand_seed (hashmask (hash_power ht))) in
  Ok (obj, rand_seed).

(** the objects of a chain, in order *)
Fixpoint chain_objs (fuel : nat) (s : store) (cur : loc) : result (list loc) :=
  match fuel with
  | O => Err OutOfFuel
  | S fuel =>
      let! o := deref s (Some cur) in
      match hash_next o with
      | None => Ok [cur]
      | Some nxt => let! r := chain_objs fuel s nxt in Ok (cur :: r)
      end
  end.

(** chained_hashtable_foreach: the objects iter_func is called on, in order *)
Definition chained_hashtable_foreach (s : store) (ht : hashtable) : result (list loc) :=
  rfold (fun acc i =>
           let slot := TabSlot (table ht) i in
           let! o := deref s (Some slot) in
           if OBJ_EMPTY o then Ok acc
           else let! c := chain_objs (chain_fuel s) s slot in Ok (acc ++ c))
    (slots (hash_power ht)) [].

(** the loop of free_chained_hashtable over the allocated part of a chain *)
Fixpoint free_chain (fuel : nat) (s : store) (cur : option loc) : result store :=
  match fuel with
  | O => Err OutOfFuel
  | S fuel =>
      match cur with
      | None => Ok s
      | Some l =>
          let! o := deref s cur in
          let! s := free_cache_obj s l in
          free_chain fuel s (hash_next o)
      end
  end.

Definition free_chained_hashtable (s : store) (ht : hashtable) : result store :=
  let! s :=
    rfold (fun s i =>
             let! o := deref s (Some (TabSlot (table ht) i)) in
             if OBJ_EMPTY o then Ok s else free_chain (chain_fuel s) s (hash_next o))
      (slots (hash_power ht)) s in
  Ok (free_table s (table ht) (hash_power ht)).

Definition chained_hashtable_add_ptr_to_monitoring (ht : hashtable) (ptr : N) : hashtable :=
  let n_monitored := Z.of_nat (length (monitored_ptrs ht)) in
  let n_alloc :=
    if n_monitored =? n_allocated_ptrs ht
    then u16 (Z.max 8 (n_allocated_ptrs ht * 2)) else n_allocated_ptrs ht in
  mk_hashtable (table ht) (n_cur_item ht) (hash_power ht) (n_lookup ht) (n_chain_walk ht)
    (monitored_ptrs ht ++ [ptr]) n_alloc.

(** the walk of check_chained_hashtable_integrity along one bucket *)
Fixpoint check_chain (fuel : nat) (s : store) (ht : hashtable) (i : Z) (cur : option loc)
    : result unit :=
  match fuel with
  | O => Err OutOfFuel
  | S fuel =>
      match cur with
      | None => Ok tt
      | Some _ =>
          let! o := deref s cur in
          if OBJ_EMPTY o then Ok tt
          else
            let! _ := cassert (i =? bucket_of ht (obj_id_int o)) in
            check_chain fuel s ht i (hash_next o)
      end
  end.

Definition check_chained_hashtable_integrity (s : store) (ht : hashtable) : result unit :=
  rfold (fun _ i => check_chain (chain_fuel s) s ht i (Some (TabSlot (table ht) i)))
    (slots (hash_power ht)) tt.

End hashtable.
