(* ===== verification/Reloc.v ===== *)
(** * Objects that move: the relocation of linked objects

    The hash table moves objects in memory while they are linked in the cache's list.
    [linked] says that the list pointers of a set of objects are consistent, [relocated]
    that a run of the table has moved every object [l] of the set to [f l], redirecting
    the list pointers and the registered pointer variables accordingly.  The lemmas show
    that the moving functions of chainedHashtable.c do that, and that a doubly linked
    list survives a relocation. *)

From S2P Require Import Prelude.
From S2P Require Import Store.
From S2P Require Import HashTable.

Definition linked (m : gmap loc cache_obj) (L : list loc) : Prop :=
  forall l, l ∈ L -> exists o, m !! l = Some o /\
    (forall x, list_next o = Some x ->
       x ∈ L /\ x <> l /\ exists o', m !! x = Some o' /\ list_prev o' = Some l) /\
    (forall x, list_prev o = Some x ->
       x ∈ L /\ x <> l /\ exists o', m !! x = Some o' /\ list_next o' = Some l).

(** the monitored pointer variables exist *)
Definition mon_ok (ht : hashtable) (s : store) : Prop :=
  forall c, c ∈ monitored_ptrs ht -> is_Some (cells s !! c).

Record relocated (ht : hashtable) (f : loc -> loc) (s s' : store) (L : list loc) : Prop := {
  rl_inj : forall x y, x ∈ L -> y ∈ L -> f x = f y -> x = y;
  rl_obj : forall l o, l ∈ L -> objs s !! l = Some o ->
    exists o', objs s' !! f l = Some o' /\ content o' = content o /\
      list_next o' = f <$> list_next o /\ list_prev o' = f <$> list_prev o;
  rl_mon : forall c p, c ∈ monitored_ptrs ht -> cells s !! c = Some p ->
    cells s' !! c = Some (f <$> p);
  rl_other : forall c, c ∉ monitored_ptrs ht -> cells s' !! c = cells s !! c
}.

Definition rename (old new l : loc) : loc := if decide (l = old) then new else l.

Section reloc.
  Context (ht : hashtable).
  Implicit Types (L : list loc) (s : store) (f g : loc -> loc).

Lemma rename_eq old new : rename old new old = new.
Proof. unfold rename. by rewrite decide_True. Qed.
Lemma rename_ne old new l : l <> old -> rename old new l = l.
Proof. intros. unfold rename. by rewrite decide_False. Qed.
Lemma rename_id l x : rename l l x = x.
Proof. unfold rename. by destruct (decide (x = l)). Qed.
Lemma rename_inj old new L x y :
  new ∉ L -> x ∈ L -> y ∈ L -> rename old new x = rename old new y -> x = y.
Proof. unfold rename. intros. repeat case_decide; by simplify_eq. Qed.
Lemma rename_fmap_ne old new p : p <> Some old -> rename old new <$> p = p.
Proof. destruct p; [|done]. intros. simpl. by rewrite rename_ne by congruence. Qed.

(** *** Relocations compose *)

Lemma relocated_trans f g s1 s2 s3 L :
  relocated ht f s1 s2 L -> relocated ht g s2 s3 (f <$> L) ->
  relocated ht (g ∘ f) s1 s3 L.
Proof.
  intros [I1 O1 M1 C1] [I2 O2 M2 C2]. split.
  - intros x y Hx Hy H. apply I1; [done..|]. apply I2; [by apply list_elem_of_fmap_2..|done].
  - intros l o Hl Ho. destruct (O1 l o Hl Ho) as (o1 & Ho1 & Hc1 & Hn1 & Hp1).
    destruct (O2 (f l) o1) as (o2 & Ho2 & Hc2 & Hn2 & Hp2); [by apply list_elem_of_fmap_2|done|].
    exists o2. rewrite Hc2, Hn2, Hp2, Hn1, Hp1.
    split_and!; [done|done|by destruct (list_next o)|by destruct (list_prev o)].
  - intros c p Hc Hp. erewrite M2; [|done|by apply M1]. by destruct p.
  - intros. rewrite C2 by done. auto.
Qed.

(** a step that only changes what relocation does not look at *)
Lemma relocated_same s s' L :
  (forall l, l ∈ L -> content <$> objs s' !! l = content <$> objs s !! l /\
                      links <$> objs s' !! l = links <$> objs s !! l) ->
  cells s' = cells s -> relocated ht id s s' L.
Proof.
  intros HL Hc. split; [done| | |].
  - intros l o Hl Ho. destruct (HL l Hl) as [H1 H2]. rewrite Ho in H1, H2.
    simpl. destruct (objs s' !! l) as [o'|]; [|done].
    apply (inj Some) in H1, H2. unfold links in H2. exists o'.
    split_and!; [done|done| |]; rewrite option_fmap_id; congruence.
  - intros c p _ ->%(eq_trans (f_equal (lookup c) Hc)). by rewrite option_fmap_id.
  - intros. by rewrite Hc.
Qed.

Lemma relocated_refl s L : relocated ht id s s L.
Proof. by apply relocated_same. Qed.

Lemma relocated_ext f g s s' L :
  (forall l, l ∈ L -> g l = f l) -> linked (objs s) L ->
  (forall c l, c ∈ monitored_ptrs ht -> cells s !! c = Some (Some l) -> l ∈ L) ->
  relocated ht f s s' L -> relocated ht g s s' L.
Proof.
  intros Hfg Hlk Hcl [I O M C]. split; [| | |done].
  - intros x y Hx Hy. rewrite !Hfg by done. auto.
  - intros l o Hl Ho. destruct (O l o Hl Ho) as (o' & Ho' & Hc & Hn & Hp).
    destruct (Hlk l Hl) as (o1 & Ho1 & Hnx & Hpv).
    rewrite Ho in Ho1. apply (inj Some) in Ho1 as <-.
    exists o'. rewrite Hfg, Hn, Hp by done. split_and!; [done|done| |].
    + destruct (list_next o) as [x|] eqn:E; [|done]. simpl.
      rewrite Hfg; [done|]. by destruct (Hnx x eq_refl).
    + destruct (list_prev o) as [x|] eqn:E; [|done]. simpl.
      rewrite Hfg; [done|]. by destruct (Hpv x eq_refl).
  - intros c p Hc Hp. rewrite (M c p Hc Hp). destruct p as [x|]; [|done]. simpl.
    rewrite Hfg; [done|]. by eapply Hcl.
Qed.

Lemma linked_perm m L L' : (forall l, l ∈ L <-> l ∈ L') -> linked m L -> linked m L'.
Proof.
  intros HL Hlk l Hl. destruct (Hlk l) as (o & Ho & Hn & Hp); [by apply HL|].
  exists o. setoid_rewrite <- HL. done.
Qed.

Lemma linked_ext m m' L :
  (forall l, l ∈ L -> links <$> m' !! l = links <$> m !! l) -> linked m L -> linked m' L.
Proof.
  intros Heq Hlk l Hl. destruct (Hlk l Hl) as (o & Ho & Hn & Hp).
  assert (Hget : forall x ox, x ∈ L -> m !! x = Some ox -> exists o', m' !! x = Some o' /\ links o' = links ox).
  { intros x ox Hx Hox. specialize (Heq x Hx). rewrite Hox in Heq.
    destruct (m' !! x); [|done]. apply (inj Some) in Heq. eauto. }
  destruct (Hget l o Hl Ho) as (o' & Ho' & Hlo). unfold links in Hlo. exists o'.
  split_and!; [done| |].
  - intros x Hx. destruct (Hn x) as (HxL & Hne & ox & Hox & Hpx); [congruence|].
    destruct (Hget x ox HxL Hox) as (ox' & Hox' & Hlx). unfold links in Hlx.
    split_and!; [done|done|]. exists ox'. split; [done|congruence].
  - intros x Hx. destruct (Hp x) as (HxL & Hne & ox & Hox & Hpx); [congruence|].
    destruct (Hget x ox HxL Hox) as (ox' & Hox' & Hlx). unfold links in Hlx.
    split_and!; [done|done|]. exists ox'. split; [done|congruence].
Qed.

Lemma linked_cons_alone m L l o :
  linked m L -> l ∉ L -> m !! l = Some o -> links o = (None, None) -> linked m (l :: L).
Proof.
  intros Hlk Hl Ho Hlo x [->|Hx]%elem_of_cons.
  - unfold links in Hlo. exists o. split_and!; [done|intros; congruence..].
  - destruct (Hlk x Hx) as (ox & Hox & Hn & Hp). exists ox.
    split_and!; [done| |]; intros y Hy; [destruct (Hn y Hy)|destruct (Hp y Hy)];
      (split; [by apply elem_of_cons; right|done]).
Qed.

Lemma linked_relocated f s s' L :
  linked (objs s) L -> relocated ht f s s' L -> linked (objs s') (f <$> L).
Proof.
  intros Hlk [I O _ _] l' Hl'. apply list_elem_of_fmap in Hl' as (l & -> & Hl).
  destruct (Hlk l Hl) as (o & Ho & Hn & Hp).
  destruct (O l o Hl Ho) as (o' & Ho' & _ & Hn' & Hp').
  exists o'. split_and!; [done| |].
  - intros x'. rewrite Hn'. destruct (list_next o) as [x|] eqn:E; [|done].
    intros [= <-]. destruct (Hn x eq_refl) as (Hx & Hne & ox & Hox & Hpx).
    split_and!; [by apply list_elem_of_fmap_2|intros Heq; by apply Hne, I|].
    destruct (O x ox Hx Hox) as (ox' & Hox' & _ & _ & Hpx'). exists ox'. by rewrite Hpx', Hpx.
  - intros x'. rewrite Hp'. destruct (list_prev o) as [x|] eqn:E; [|done].
    intros [= <-]. destruct (Hp x eq_refl) as (Hx & Hne & ox & Hox & Hpx).
    split_and!; [by apply list_elem_of_fmap_2|intros Heq; by apply Hne, I|].
    destruct (O x ox Hx Hox) as (ox' & Hox' & _ & Hnx' & _). exists ox'. by rewrite Hnx', Hpx.
Qed.

(** *** Doubly linked lists are linked, and survive a relocation *)

Lemma dseg_relocated f s s' L p L1 n :
  relocated ht f s s' L -> (forall l, l ∈ L1 -> l ∈ L) ->
  dseg (objs s) p L1 n -> dseg (objs s') (f <$> p) (f <$> L1) (f <$> n).
Proof.
  intros HR. revert p. induction L1 as [|l L1 IH]; intros p HL; simpl; [done|].
  intros (o & Ho & Hlo & Hd).
  destruct (rl_obj _ _ _ _ _ HR l o) as (o' & Ho' & _ & Hn & Hp);
    [apply HL, elem_of_cons; auto|done|].
  exists o'. unfold links in *. split_and!; [done| |].
  - rewrite Hn, Hp. injection Hlo as -> ->. by destruct L1.
  - apply (IH (Some l)); [|done]. intros. by apply HL, elem_of_cons; right.
Qed.

Lemma fmap_head f L : head (f <$> L) = f <$> head L.
Proof. by destruct L. Qed.

Lemma list_repr_relocated f s s' hd tl L :
  relocated ht f s s' L -> hd ∈ monitored_ptrs ht -> tl ∈ monitored_ptrs ht ->
  list_repr s hd tl L -> list_repr s' hd tl (f <$> L).
Proof.
  intros HR Hhd Htl [Hd Hn Hh Ht Hne]. split; [| | | |done].
  - by apply (dseg_relocated f s s' L None L None).
  - apply NoDup_fmap_2_strong; [|done]. apply (rl_inj _ _ _ _ _ HR).
  - rewrite (rl_mon _ _ _ _ _ HR hd _ Hhd Hh). by rewrite fmap_head.
  - rewrite (rl_mon _ _ _ _ _ HR tl _ Htl Ht). by rewrite fmap_last.
Qed.

Lemma dseg_mid m p L1 l L2 n :
  dseg m p (L1 ++ l :: L2) n ->
  exists o, m !! l = Some o /\ links o = (hd_or n L2, last_or p L1).
Proof. intros [_ (o & Ho & Hl & _)]%dseg_app. eauto. Qed.

Lemma dll_linked m L : NoDup L -> dll m L -> linked m L.
Proof.
  intros Hnd Hd l Hl. apply list_elem_of_split in Hl as (L1 & L2 & ->).
  destruct (dseg_mid _ _ _ _ _ _ Hd) as (o & Ho & Hlo). unfold links in Hlo.
  injection Hlo as Hnx Hpv. exists o. split_and!; [done| |]; intros x; [rewrite Hnx|rewrite Hpv].
  - destruct L2 as [|y L2]; [done|]. intros [= ->].
    split_and!; [set_solver| |].
    + intros ->. apply NoDup_app in Hnd as (_ & _ & Hnd).
      apply NoDup_cons in Hnd as [Hnd _]. set_solver.
    + replace (L1 ++ l :: x :: L2) with ((L1 ++ [l]) ++ x :: L2) in Hd by (by rewrite <- app_assoc).
      destruct (dseg_mid _ _ _ _ _ _ Hd) as (o' & Ho' & Hlo'). exists o'. split; [done|].
      unfold links in Hlo'. rewrite last_or_app in Hlo'. congruence.
  - destruct L1 as [|y L1 _] using rev_ind; [done|]. rewrite last_or_app. intros [= ->].
    split_and!; [set_solver| |].
    + intros ->. apply NoDup_app in Hnd as (_ & Hnd & _). apply (Hnd l); set_solver.
    + rewrite <- app_assoc in Hd. simpl in Hd.
      destruct (dseg_mid _ _ _ _ _ _ Hd) as (o' & Ho' & Hlo'). exists o'. split; [done|].
      unfold links in Hlo'. simpl in Hlo'. congruence.
Qed.

End reloc.

(** ** The moving functions *)

Lemma upd_if_not_null_spec f s p :
  (forall x, p = Some x -> is_Some (objs s !! x)) ->
  exists s', upd_if_not_null f s p = Ok s' /\ cells s' = cells s /\ fresh s' = fresh s /\
    forall l, objs s' !! l = (if decide (p = Some l) then f <$> objs s !! l else objs s !! l).
Proof.
  destruct p as [x|]; intros Hx; [|by exists s].
  destruct (Hx x eq_refl) as [o Ho]. unfold upd_if_not_null.
  rewrite (store_upd_Some _ _ _ _ Ho). eexists; split_and!; [done..|]. intros l. simpl.
  destruct (decide (x = l)) as [->|Hne].
  - by rewrite lookup_insert_eq, decide_True, Ho.
  - by rewrite lookup_insert_ne, decide_False by congruence.
Qed.

Lemma update_monitored_ptr_spec s ht new old :
  new <> Some old -> mon_ok ht s ->
  exists s', update_monitored_ptr s ht new old = Ok s' /\ objs s' = objs s /\ fresh s' = fresh s /\
    forall c, cells s' !! c =
      (if decide (c ∈ monitored_ptrs ht)
       then (fun p => if decide (p = Some old) then new else p) <$> cells s !! c
       else cells s !! c).
Proof.
  intros Hne Hok. unfold update_monitored_ptr.
  pose (g := fun p : option loc => if decide (p = Some old) then new else p).
  assert (Hgg : forall p, g (g p) = g p) by (intros p; unfold g; by repeat case_decide).
  destruct (rfold_inv
    (fun s0 c => let! p := cell_get s0 c in
       if decide (p = Some old) then Ok (cell_set s0 c new) else Ok s0)
    (fun done s' => objs s' = objs s /\ fresh s' = fresh s /\ forall c, cells s' !! c =
      (if decide (c ∈ done) then g <$> cells s !! c else cells s !! c))
    (monitored_ptrs ht) s) as (s' & E & HI); [| |by exists s'].
  - split_and!; [done..|]. intros c. rewrite decide_False; [done|]. apply not_elem_of_nil.
  - intros dn c s1 [rest Hrest] (Ho & Hf & Hc).
    destruct (Hok c) as [p Hp]; [rewrite Hrest; set_solver|].
    assert (Hcur : exists q, cells s1 !! c = Some q /\ (q = p \/ q = g p)).
    { rewrite Hc, Hp. simpl. case_decide; eauto. }
    destruct Hcur as (q & Hq & Hqp). rewrite (cell_get_Some _ _ _ Hq). cbn [rbind].
    assert (Hgq : g q = g p) by (destruct Hqp as [->| ->]; by rewrite ?Hgg).
    assert (Hres : forall s2, cells s2 = <[c := g q]> (cells s1) ->
      forall c', cells s2 !! c' = if decide (c' ∈ dn ++ [c]) then g <$> cells s !! c' else cells s !! c').
    { intros s2 -> c'. destruct (decide (c' = c)) as [->|Hcc].
      - rewrite lookup_insert_eq, decide_True, Hp by set_solver. simpl. by rewrite Hgq.
      - rewrite lookup_insert_ne, Hc by done. apply decide_ext. set_solver. }
    destruct (decide (q = Some old)) as [Hqo|Hqo]; eexists; (split; [done|]).
    + split_and!; [done..|]. apply Hres. simpl. unfold g. by rewrite decide_True.
    + split_and!; [done..|]. apply Hres. unfold g. rewrite decide_False by done. by rewrite insert_id.
Qed.

(** Moving an object of a linked set to a place outside the set relocates the set. *)
Lemma move_obj_to_new_loc_spec s ht L old new o :
  linked (objs s) L -> mon_ok ht s -> old ∈ L -> new ∉ L ->
  objs s !! old = Some o -> is_Some (objs s !! new) ->
  exists s', move_obj_to_new_loc s ht new old = Ok s' /\
    relocated ht (rename old new) s s' L /\ mon_ok ht s' /\ fresh s' = fresh s /\
    core <$> objs s' = core <$> (<[new := o]> (objs s)) /\
    objs s' !! new = Some o /\
    (forall l, l ∉ L -> l <> new -> objs s' !! l = objs s !! l).
Proof.
  intros Hlk Hok Hold Hnew Ho Hnewdef. unfold move_obj_to_new_loc.
  destruct (Hlk old Hold) as (o0 & Ho0 & Hnx & Hpv).
  rewrite Ho in Ho0. apply (inj Some) in Ho0 as <-.
  assert (Hne : new <> old) by (by intros ->).
  rewrite (deref_Some _ _ _ Ho). cbn [rbind].
  destruct (upd_if_not_null_spec (set_list_next (Some new)) s (list_prev o)) as (s1 & E1 & C1 & F1 & O1).
  { intros x Hx. destruct (Hpv x Hx) as (_ & _ & ox & Hox & _). eauto. }
  rewrite E1. cbn [rbind].
  assert (Hpo : list_prev o <> Some old) by (intros E; by destruct (Hpv _ E) as (_ & ? & _)).
  assert (Hno : list_next o <> Some old) by (intros E; by destruct (Hnx _ E) as (_ & ? & _)).
  assert (Ho1 : objs s1 !! old = Some o) by (by rewrite O1, decide_False).
  rewrite (deref_Some _ _ _ Ho1). cbn [rbind].
  destruct (upd_if_not_null_spec (set_list_prev (Some new)) s1 (list_next o)) as (s2 & E2 & C2 & F2 & O2).
  { intros x Hx. rewrite O1. destruct (Hnx x Hx) as (_ & _ & ox & Hox & _). rewrite Hox.
    case_decide; simpl; eauto. }
  rewrite E2. cbn [rbind].
  assert (Ho2 : objs s2 !! old = Some o) by (by rewrite O2, decide_False).
  rewrite (deref_Some _ _ _ Ho2). cbn [rbind].
  assert (Hn2 : is_Some (objs s2 !! new)).
  { destruct Hnewdef as [on Hon]. rewrite O2, O1, Hon. repeat case_decide; simpl; eauto. }
  destruct Hn2 as [on2 Hon2]. rewrite (store_upd_Some _ _ _ _ Hon2). cbn [rbind].
  set (s3 := set_objs (<[new := o]> (objs s2)) s2).
  assert (Hok3 : mon_ok ht s3) by (intros c Hc; simpl; rewrite C2, C1; by apply Hok).
  destruct (update_monitored_ptr_spec s3 ht (Some new) old) as (s4 & E4 & O4 & F4 & C4);
    [congruence|done|].
  exists s4. split_and!; [done| | | | | |].
  - (* relocated *) split.
    + intros x y. by apply rename_inj.
    + intros l ol Hl Hol. destruct (decide (l = old)) as [->|Hlo].
      { rewrite rename_eq. exists o. rewrite O4. simpl. rewrite lookup_insert_eq.
        rewrite Ho in Hol. apply (inj Some) in Hol as <-.
        by rewrite !rename_fmap_ne. }
      rewrite rename_ne by done. rewrite O4. simpl.
      rewrite lookup_insert_ne by (by intros ->). rewrite O2, O1, Hol.
      destruct (Hlk l Hl) as (ol' & Hol' & Hlnx & Hlpv).
      rewrite Hol in Hol'. apply (inj Some) in Hol' as <-.
      assert (Hn_iff : list_next ol = Some old <-> list_prev o = Some l).
      { split; intros E.
        - destruct (Hlnx _ E) as (_ & _ & x & Hx & Hpx). congruence.
        - destruct (Hpv _ E) as (_ & _ & x & Hx & Hpx). congruence. }
      assert (Hp_iff : list_prev ol = Some old <-> list_next o = Some l).
      { split; intros E.
        - destruct (Hlpv _ E) as (_ & _ & x & Hx & Hpx). congruence.
        - destruct (Hnx _ E) as (_ & _ & x & Hx & Hpx). congruence. }
      destruct (decide (list_prev o = Some l)) as [Ep|Ep];
        destruct (decide (list_next o = Some l)) as [En|En]; simpl; eexists;
        (split_and!; [done|done| |]); simpl;
        rewrite ?(proj2 Hn_iff) by done; rewrite ?(proj2 Hp_iff) by done; simpl;
        rewrite ?rename_eq; try done; rewrite rename_fmap_ne; tauto.
    + intros c p Hc Hp. rewrite C4, decide_True by done. simpl. rewrite C2, C1, Hp. simpl.
      case_decide; subst; simpl; [by rewrite rename_eq|by rewrite rename_fmap_ne].
    + intros c Hc. rewrite C4, decide_False by done. simpl. by rewrite C2, C1.
  - intros c Hc. rewrite C4, decide_True by done. destruct (Hok3 c Hc) as [p ->]. simpl; eauto.
  - rewrite F4. simpl. congruence.
  - apply map_eq. intros l. rewrite !lookup_fmap, O4. simpl.
    destruct (decide (new = l)) as [->|]; [by rewrite !lookup_insert_eq|].
    rewrite !lookup_insert_ne by done. rewrite O2, O1.
    repeat case_decide; by destruct (objs s !! l).
  - rewrite O4. simpl. by rewrite lookup_insert_eq.
  - intros l Hl Hln. rewrite O4. simpl. rewrite lookup_insert_ne by done.
    rewrite O2, O1, !decide_False; [done|..].
    + intros E. by destruct (Hpv _ E).
    + intros E. by destruct (Hnx _ E).
Qed.

(** An object is detached when its neighbours, if it still names any, do not name it. *)
Record detached (ht : hashtable) (s : store) (d : loc) : Prop := {
  dt_prev : forall o a, objs s !! d = Some o -> list_prev o = Some a ->
    a <> d /\ exists oa, objs s !! a = Some oa /\ list_next oa = list_next o;
  dt_next : forall o b, objs s !! d = Some o -> list_next o = Some b ->
    b <> d /\ exists ob, objs s !! b = Some ob /\ list_prev ob = list_prev o;
  dt_mon : forall c, c ∈ monitored_ptrs ht -> exists p, cells s !! c = Some p /\ p <> Some d
}.

Lemma set_objs_id s : set_objs (objs s) s = s.
Proof. by destruct s. Qed.

Lemma store_upd_id f s l o :
  objs s !! l = Some o -> f o = o -> store_upd f s (Some l) = Ok s.
Proof.
  intros Ho Hf. rewrite (store_upd_Some _ _ _ _ Ho), Hf, insert_id by done.
  by rewrite set_objs_id.
Qed.

(** For a detached object delete_obj_in_table has nothing to change. *)
Lemma delete_obj_in_table_spec s ht d :
  is_Some (objs s !! d) -> detached ht s d -> delete_obj_in_table s ht d = Ok s.
Proof.
  intros [o Ho] [Hp Hn Hm]. unfold delete_obj_in_table. rewrite (deref_Some _ _ _ Ho). cbn [rbind].
  assert (upd_if_not_null (set_list_next (list_next o)) s (list_prev o) = Ok s) as ->.
  { destruct (list_prev o) as [a|] eqn:E; [|done].
    destruct (Hp o a Ho E) as (_ & oa & Hoa & <-).
    apply (store_upd_id _ _ _ _ Hoa). by destruct oa. }
  cbn [rbind]. rewrite (deref_Some _ _ _ Ho). cbn [rbind].
  assert (upd_if_not_null (set_list_prev (list_prev o)) s (list_next o) = Ok s) as ->.
  { destruct (list_next o) as [a|] eqn:E; [|done].
    destruct (Hn o a Ho E) as (_ & oa & Hoa & <-).
    apply (store_upd_id _ _ _ _ Hoa). by destruct oa. }
  cbn [rbind]. unfold update_monitored_ptr.
  induction (monitored_ptrs ht) as [|c cs IH]; simpl; [done|].
  destruct (Hm c) as (p & Hpc & Hpd); [set_solver|].
  rewrite (cell_get_Some _ _ _ Hpc). cbn [rbind]. rewrite decide_False by done. cbn [rbind].
  apply IH. intros; apply Hm; set_solver.
Qed.
