(* ===== verification/Buckets.v ===== *)
(** * The chains of the hash table: well-formedness and the walks along them

    [hseg] is a chain segment, [bucket] the representation of one bucket (an empty slot
    is all zero; otherwise the first object sits in the slot and the others, allocated,
    follow by hash_next), [tab_ok] that of a whole table with [B i] the objects of
    bucket [i].  The lemmas give the outcome of each walk of chainedHashtable.c. *)

From S2P Require Import Prelude.
From S2P Require Import Store.
From S2P Require Import HashTable.

Fixpoint hseg (P : cache_obj -> Prop) (m : gmap loc cache_obj) (L : list loc) (n : option loc)
    : Prop :=
  match L with
  | [] => True
  | l :: L' => exists o, m !! l = Some o /\ P o /\ hash_next o = hd_or n L' /\ hseg P m L' n
  end.

Definition is_heap (l : loc) : Prop := match l with HeapObj _ => True | TabSlot _ _ => False end.

Section chains.
  Context (P : cache_obj -> Prop) (P_core : forall o o', core o = core o' -> P o -> P o').
  Implicit Types (m : gmap loc cache_obj) (L : list loc) (s : store).

Lemma hseg_app m L1 L2 n :
  hseg P m (L1 ++ L2) n <-> hseg P m L1 (hd_or n L2) /\ hseg P m L2 n.
Proof.
  induction L1 as [|l L1 IH]; simpl; [tauto|]. setoid_rewrite IH. rewrite hd_or_app.
  naive_solver.
Qed.

Lemma hseg_elem m L n l : hseg P m L n -> l ∈ L -> exists o, m !! l = Some o /\ P o.
Proof.
  induction L as [|x L IH]; simpl; [by intros _ ?%not_elem_of_nil|].
  intros (o & Ho & HP & _ & Hs) [->|Hl]%elem_of_cons; eauto.
Qed.

Lemma hseg_ext m m' L n :
  (forall l, l ∈ L -> core <$> m' !! l = core <$> m !! l) -> hseg P m L n -> hseg P m' L n.
Proof using P_core.
  induction L as [|l L IH]; intros Heq; simpl; [done|].
  intros (o & Ho & HP & Hn & Hs).
  pose proof (Heq l ltac:(set_solver)) as Hl. rewrite Ho in Hl.
  destruct (m' !! l) as [o'|] eqn:Ho'; [|done]. apply (inj Some) in Hl.
  exists o'. split_and!; [done|by eapply P_core| |].
  - unfold core in Hl. congruence.
  - apply IH; [|done]. intros. apply Heq. set_solver.
Qed.

Lemma hseg_insert_notin m L n l o : l ∉ L -> hseg P m L n -> hseg P (<[l := o]> m) L n.
Proof using P_core.
  intros Hl. apply hseg_ext. intros l' Hl'. rewrite lookup_insert_ne; [done|congruence].
Qed.

Lemma hseg_set_last m L y n n' o :
  NoDup (L ++ [y]) -> hseg P m (L ++ [y]) n -> m !! y = Some o ->
  P (set_hash_next n' o) -> hseg P (<[y := set_hash_next n' o]> m) (L ++ [y]) n'.
Proof using P_core.
  intros (_ & Hy & _)%NoDup_app [Hd1 _]%hseg_app Ho HP.
  apply hseg_app. split.
  - apply hseg_insert_notin; [set_solver|done].
  - simpl. exists (set_hash_next n' o). by rewrite lookup_insert_eq.
Qed.

(** *** The walks *)

Lemma last_obj_in_chain_spec s L y fuel x :
  hseg P (objs s) (L ++ [y]) None -> (length (L ++ [y]) <= fuel)%nat ->
  hd_or None (L ++ [y]) = Some x -> last_obj_in_chain fuel s x = Ok y.
Proof.
  clear P_core.
  revert x fuel; induction L as [|l L IH]; intros x fuel; simpl.
  - intros (o & Ho & _ & Hn & _) Hf [= <-]. destruct fuel as [|fuel]; [lia|]. simpl.
    rewrite Ho. simpl. by rewrite Hn.
  - intros (o & Ho & _ & Hn & Hs) Hf [= <-]. destruct fuel as [|fuel]; [lia|]. simpl.
    rewrite Ho. simpl. rewrite Hn.
    destruct (hd_or None (L ++ [y])) as [z|] eqn:E; [|by destruct L].
    apply IH; [done|lia|done].
Qed.

Lemma find_in_chain_spec s L id fuel d :
  hseg P (objs s) L None -> (length L < fuel)%nat ->
  exists r d', find_in_chain fuel s id (hd_or None L) d = Ok (r, d') /\
    d <= d' <= d + Z.of_nat (length L) /\
    match r with
    | Some l => l ∈ L /\ exists o, objs s !! l = Some o /\ obj_id_int o = id
    | None => forall l o, l ∈ L -> objs s !! l = Some o -> obj_id_int o <> id
    end.
Proof.
  clear P_core.
  revert fuel d; induction L as [|l L IH]; intros fuel d.
  - intros _ Hf. destruct fuel as [|fuel]; [simpl in *; lia|]. exists None, d. simpl.
    split_and!; [done|lia|lia|]. by intros ? ? ?%not_elem_of_nil.
  - intros (o & Ho & _ & Hn & Hs) Hf. destruct fuel as [|fuel]; [simpl in *; lia|].
    simpl. rewrite Ho. cbn [rbind]. case_bool.
    + exists (Some l), (d + 1). split_and!; [done|lia|lia|set_solver|eauto].
    + rewrite Hn. destruct (IH fuel (d + 1) Hs) as (r & d' & -> & Hd & Hr); [simpl in *; lia|].
      exists r, d'. split_and!; [done|simpl; lia|simpl; lia|].
      destruct r as [l'|].
      * destruct Hr as [? ?]. split; [set_solver|done].
      * intros l' o' [->|Hl']%elem_of_cons Ho'; [congruence|eauto].
Qed.

Lemma find_prev_in_chain_spec s L1 a b L2 fuel x :
  NoDup (L1 ++ a :: b :: L2) -> hseg P (objs s) (L1 ++ a :: b :: L2) None ->
  (length L1 < fuel)%nat -> hd_or None (L1 ++ a :: b :: L2) = Some x ->
  find_prev_in_chain fuel s x b = Ok (Some a).
Proof.
  clear P_core.
  revert x fuel; induction L1 as [|l L1 IH]; intros x fuel; cbn [app hseg hd_or].
  - intros _ (o & Ho & _ & Hn & _) Hf [= <-]. destruct fuel as [|fuel]; [lia|]. simpl.
    rewrite Ho. simpl. simpl in Hn. by rewrite decide_True.
  - intros [Hl Hnd]%NoDup_cons (o & Ho & _ & Hn & Hs) Hf [= <-].
    destruct fuel as [|fuel]; [lia|]. simpl. rewrite Ho. cbn [rbind].
    rewrite Hn. destruct (hd_or None (L1 ++ a :: b :: L2)) as [z|] eqn:E; [|by destruct L1].
    rewrite decide_False.
    + eapply IH; [done|done|simpl in *; lia|done].
    + intros [= ->]. destruct L1 as [|w L1]; simpl in E; injection E as ->; simpl in Hnd;
        apply NoDup_cons in Hnd as [Hnd _]; apply Hnd; set_solver.
Qed.

Lemma chain_objs_spec s L x fuel :
  hseg P (objs s) L None -> (length L <= fuel)%nat -> head L = Some x ->
  chain_objs fuel s x = Ok L.
Proof.
  clear P_core.
  revert x fuel; induction L as [|l L IH]; intros x fuel; simpl; [done|].
  intros (o & Ho & _ & Hn & Hs) Hf [= <-]. destruct fuel as [|fuel]; [lia|]. simpl.
  rewrite Ho. cbn [rbind]. rewrite Hn. destruct L as [|y L]; [done|]. cbn [hd_or].
  rewrite (IH y fuel); [done|done|lia|done].
Qed.

Lemma free_chain_spec s L fuel :
  NoDup L -> hseg P (objs s) L None -> (length L < fuel)%nat ->
  exists s', free_chain fuel s (hd_or None L) = Ok s' /\ cells s' = cells s /\
    (forall l, l ∈ L -> objs s' !! l = None) /\
    (forall l, l ∉ L -> objs s' !! l = objs s !! l).
Proof using P_core.
  revert s fuel; induction L as [|l L IH]; intros s fuel.
  - intros _ _ Hf. destruct fuel as [|fuel]; [simpl in *; lia|]. exists s.
    split_and!; [done|done|by intros ? ?%not_elem_of_nil|done].
  - intros [Hl Hnd]%NoDup_cons (o & Ho & _ & Hn & Hs) Hf. destruct fuel as [|fuel]; [lia|].
    cbn [free_chain hd_or deref]. rewrite Ho. cbn [rbind]. unfold free_cache_obj. rewrite Ho.
    cbn [rbind]. rewrite Hn.
    destruct (IH (set_objs (delete l (objs s)) s) fuel) as (s' & E & C & D1 & D2).
    + done.
    + eapply hseg_ext; [|exact Hs]. intros x Hx. simpl. rewrite lookup_delete_ne; [done|congruence].
    + simpl in Hf. lia.
    + exists s'. split_and!; [done|done| |].
      * intros x [->|Hx]%elem_of_cons; [|auto]. rewrite D2 by done. simpl.
        by rewrite lookup_delete_eq.
      * intros x [Hx1 Hx2]%not_elem_of_cons. rewrite D2 by done. simpl.
        by rewrite lookup_delete_ne.
Qed.

End chains.

Lemma nodup_length_size (m : gmap loc cache_obj) (L : list loc) :
  NoDup L -> (forall l, l ∈ L -> is_Some (m !! l)) -> (length L <= size m)%nat.
Proof.
  intros Hnd Hin. rewrite <- (size_list_to_set (C := gset loc)) by done.
  rewrite <- (size_dom m). apply subseteq_size. intros l Hl.
  apply elem_of_dom, Hin. by apply elem_of_list_to_set in Hl.
Qed.

Lemma hseg_fuel P s L n :
  NoDup L -> hseg P (objs s) L n -> (length L <= size (objs s))%nat.
Proof.
  intros Hnd Hs. apply nodup_length_size; [done|]. intros l Hl.
  destruct (hseg_elem _ _ _ _ _ Hs Hl) as (o & Ho & _). eauto.
Qed.

(** ** Tables *)

Section tables.
  Variable get_hash_value_int_64 : Z -> Z.
  #[local] Abbreviation bucket_of := (bucket_of get_hash_value_int_64).
  Implicit Types (ht : hashtable) (m : gmap loc cache_obj) (B : Z -> list loc).

(** what an object of bucket [i] satisfies *)
Definition inb (ht : hashtable) (i : Z) (o : cache_obj) : Prop :=
  obj_size o <> 0 /\ bucket_of ht (obj_id_int o) = i.

Definition bucket (ht : hashtable) (m : gmap loc cache_obj) (i : Z) (L : list loc) : Prop :=
  match L with
  | [] => m !! TabSlot (table ht) i = Some zero_obj
  | l :: L' => l = TabSlot (table ht) i /\ hseg (inb ht i) m L None /\ Forall is_heap L' /\ NoDup L
  end.

Definition in_range (ht : hashtable) (i : Z) : Prop := 0 <= i < 2 ^ hash_power ht.

Record tab_ok (ht : hashtable) (m : gmap loc cache_obj) (B : Z -> list loc) : Prop := {
  tk_pow : 0 <= hash_power ht <= 62;
  tk_bucket : forall i, in_range ht i -> bucket ht m i (B i);
  tk_out : forall i, ~ in_range ht i -> B i = []
}.

Lemma inb_core ht i o o' : core o = core o' -> inb ht i o -> inb ht i o'.
Proof. unfold core, inb. intros [=]. congruence. Qed.

Lemma hashsize_pow p : 0 <= p <= 63 -> hashsize p = 2 ^ p.
Proof.
  intros Hp. unfold hashsize. rewrite u16_small by lia.
  rewrite Z.shiftl_1_l. apply u64_small. split; [lia|]. apply Z.pow_lt_mono_r; lia.
Qed.

Lemma hashmask_pow p : 0 <= p <= 63 -> hashmask p = 2 ^ p - 1.
Proof.
  intros Hp. unfold hashmask. rewrite hashsize_pow by done. apply u64_small.
  assert (2 ^ p < 2 ^ 64) by (apply Z.pow_lt_mono_r; lia). lia.
Qed.

Lemma bucket_of_range ht id : 0 <= hash_power ht <= 62 -> in_range ht (bucket_of ht id).
Proof.
  intros Hp. unfold in_range, HashTable.bucket_of. rewrite hashmask_pow by lia.
  apply land_mask_range. lia.
Qed.

Lemma elem_of_slots p i : 0 <= p <= 63 -> i ∈ slots p <-> 0 <= i < 2 ^ p.
Proof. intros Hp. unfold slots. rewrite elem_of_seqZ, hashsize_pow by done. lia. Qed.

Lemma bucket_elem ht m i L l : bucket ht m i L -> l ∈ L ->
  (l = TabSlot (table ht) i \/ is_heap l) /\ exists o, m !! l = Some o /\ inb ht i o.
Proof.
  destruct L as [|x L]; [by intros _ ?%not_elem_of_nil|].
  intros (-> & Hs & Hh & _) Hl. split; [|by eapply hseg_elem].
  apply elem_of_cons in Hl as [->|Hl]; [by left|]. right. by eapply Forall_forall in Hh.
Qed.

Lemma bucket_slot ht m i L : bucket ht m i L ->
  exists o, m !! TabSlot (table ht) i = Some o /\ OBJ_EMPTY o = bool_decide (L = []) /\
    (L = [] -> o = zero_obj) /\ (L <> [] -> hd_or None L = Some (TabSlot (table ht) i)).
Proof.
  destruct L as [|x L]; simpl.
  - intros ->. exists zero_obj. done.
  - intros (-> & (o & Ho & [Hsz _] & _) & _). exists o. split_and!; [done| |done|done].
    unfold OBJ_EMPTY. by case_bool.
Qed.

Lemma bucket_ext ht m m' i L :
  (forall l, l ∈ L -> core <$> m' !! l = core <$> m !! l) ->
  (L = [] -> m' !! TabSlot (table ht) i = m !! TabSlot (table ht) i) ->
  bucket ht m i L -> bucket ht m' i L.
Proof.
  destruct L as [|x L]; intros Hext Hnil; [intros H; simpl; by rewrite Hnil|].
  intros (-> & Hs & Hh & Hnd). split_and!; [done| |done|done].
  eapply hseg_ext; [apply inb_core|exact Hext|exact Hs].
Qed.

Lemma bucket_nodup ht m i L : bucket ht m i L -> NoDup L.
Proof. destruct L; [constructor|]. by intros (_ & _ & _ & ?). Qed.

Lemma bucket_hseg ht m i L : bucket ht m i L -> hseg (inb ht i) m L None.
Proof. destruct L; [done|]. by intros (_ & ? & _ & ?). Qed.

Lemma bucket_fuel ht s i L : bucket ht (objs s) i L -> (length L <= size (objs s))%nat.
Proof. intros H. eapply hseg_fuel; [by eapply bucket_nodup|by eapply bucket_hseg]. Qed.

Section tab.
  Context {ht m B} (T : tab_ok ht m B).

Lemma tab_elem i l : l ∈ B i ->
  in_range ht i /\ (l = TabSlot (table ht) i \/ is_heap l) /\ exists o, m !! l = Some o /\ inb ht i o.
Proof using T.
  intros Hl. destruct (decide (0 <= i < 2 ^ hash_power ht)) as [Hi|Hi].
  - split; [done|]. eapply bucket_elem; [by apply (tk_bucket _ _ _ T)|done].
  - rewrite (tk_out _ _ _ T i Hi) in Hl. by apply not_elem_of_nil in Hl.
Qed.

Lemma tab_disj i j l : l ∈ B i -> l ∈ B j -> i = j.
Proof using T.
  intros (_ & _ & o & Ho & _ & Hi)%tab_elem (_ & _ & o' & Ho' & _ & Hj)%tab_elem. congruence.
Qed.

Lemma tab_slot t i j : TabSlot t i ∈ B j -> t = table ht /\ i = j.
Proof using T. intros (_ & [[= -> ->]|[]] & _)%tab_elem. done. Qed.

Lemma tab_slot_in i : in_range ht i -> B i <> [] -> TabSlot (table ht) i ∈ B i.
Proof using T.
  intros Hi Hne. pose proof (tk_bucket _ _ _ T i Hi) as Hb.
  destruct (B i) as [|x L]; [done|]. destruct Hb as (-> & _). set_solver.
Qed.

End tab.

(** Replacing one bucket. *)
Lemma tab_insert ht m m' B i L :
  tab_ok ht m B -> in_range ht i -> bucket ht m' i L ->
  (forall j l, j <> i -> l ∈ B j -> core <$> m' !! l = core <$> m !! l) ->
  (forall j, j <> i -> in_range ht j -> B j = [] ->
     m' !! TabSlot (table ht) j = m !! TabSlot (table ht) j) ->
  tab_ok ht m' (<[i := L]> B).
Proof.
  intros T Hi Hb Hc He. split; [by destruct T| |].
  - intros j Hj. destruct (decide (i = j)) as [->|Hne]; [by rewrite fn_lookup_insert|].
    rewrite fn_lookup_insert_ne by done.
    apply (bucket_ext ht m); [by intros; eapply Hc| |by apply (tk_bucket _ _ _ T)].
    intros. by apply He.
  - intros j Hj. rewrite fn_lookup_insert_ne by (by intros <-). by apply (tk_out _ _ _ T).
Qed.

(** Appending an allocated object to a chain that is not empty. *)
Lemma attach_spec ht s i L n o :
  bucket ht (objs s) i L -> L <> [] -> HeapObj n ∉ L ->
  objs s !! HeapObj n = Some o -> inb ht i o ->
  exists last olast s1,
    last_obj_in_chain (chain_fuel s) s (TabSlot (table ht) i) = Ok last /\
    last ∈ L /\ objs s !! last = Some olast /\
    store_upd (set_hash_next (Some (HeapObj n))) s (Some last) = Ok s1 /\
    cells s1 = cells s /\ fresh s1 = fresh s /\
    objs s1 = <[last := set_hash_next (Some (HeapObj n)) olast]> (objs s) /\
    bucket ht (<[HeapObj n := set_hash_next None o]> (objs s1)) i (L ++ [HeapObj n]).
Proof.
  intros Hb Hne Hn Ho Hin. pose proof (bucket_fuel _ _ _ _ Hb) as Hfuel.
  pose proof (bucket_hseg _ _ _ _ Hb) as Hs. pose proof (bucket_nodup _ _ _ _ Hb) as Hnd.
  destruct (bucket_slot _ _ _ _ Hb) as (ob & Hob & _ & _ & Hhd). specialize (Hhd Hne).
  destruct (exists_last Hne) as (L' & y & ->).
  destruct (hseg_elem _ _ _ _ y Hs) as (oy & Hoy & Hiny); [set_solver|].
  exists y, oy, (set_objs (<[y := set_hash_next (Some (HeapObj n)) oy]> (objs s)) s).
  split_and!.
  - eapply last_obj_in_chain_spec; [exact Hs|unfold chain_fuel; lia|done].
  - set_solver.
  - done.
  - by apply store_upd_Some.
  - done.
  - done.
  - done.
  - simpl objs.
    assert (Hs' : hseg (inb ht i) (<[HeapObj n := set_hash_next None o]>
        (<[y := set_hash_next (Some (HeapObj n)) oy]> (objs s))) ((L' ++ [y]) ++ [HeapObj n]) None).
    { apply hseg_app. split.
      - apply hseg_insert_notin; [apply inb_core|done|]. simpl hd_or.
        eapply hseg_set_last; [apply inb_core|done|exact Hs|done|done].
      - simpl. exists (set_hash_next None o). by rewrite lookup_insert_eq. }
    assert (Hnd' : NoDup ((L' ++ [y]) ++ [HeapObj n])).
    { apply NoDup_app. split_and!; [done|set_solver|apply NoDup_singleton]. }
    destruct L' as [|x L']; simpl in Hb |- *.
    + destruct Hb as (-> & _). split_and!; [done|exact Hs'| |exact Hnd'].
      by repeat constructor.
    + destruct Hb as (-> & _ & Hh & _). split_and!; [done|exact Hs'| |exact Hnd'].
      apply Forall_app; split; [done|]. by repeat constructor.
Qed.

End tables.
