(* ===== verification/Expand.v ===== *)
(** * Growing the hash table

    The proof that _chained_hashtable_expand moves every object into the new table and
    relocates the list pointers and monitored pointers with it.  [ex_inv] is the state in
    the middle of it: the buckets [B] of the new table hold the objects already moved,
    [R] the objects still to be moved, in the order the loops visit them. *)

From S2P Require Import Prelude.
From S2P Require Import Store.
From S2P Require Import HashTable.
From S2P Require Import Reloc.
From S2P Require Import Buckets.

(** live objects have distinct ids *)
Definition ids_unique (m : gmap loc cache_obj) (L : list loc) : Prop :=
  forall l l' o o', l ∈ L -> l' ∈ L -> m !! l = Some o -> m !! l' = Some o' ->
    obj_id_int o = obj_id_int o' -> l = l'.

Definition heap_fresh (s : store) : Prop :=
  forall n, is_Some (objs s !! HeapObj n) -> (n < fresh s)%N.

Lemma ids_unique_relocated ht f s s' L :
  linked (objs s) L -> relocated ht f s s' L -> ids_unique (objs s) L ->
  ids_unique (objs s') (f <$> L).
Proof.
  intros Hlk HR Hid x x' o o' Hx Hx' Ho Ho' Heq.
  apply list_elem_of_fmap in Hx as (l & -> & Hl). apply list_elem_of_fmap in Hx' as (l' & -> & Hl').
  destruct (Hlk l Hl) as (o1 & Ho1 & _). destruct (Hlk l' Hl') as (o2 & Ho2 & _).
  destruct (rl_obj _ _ _ _ _ HR l o1 Hl Ho1) as (o1' & E1 & C1 & _).
  destruct (rl_obj _ _ _ _ _ HR l' o2 Hl' Ho2) as (o2' & E2 & C2 & _).
  f_equal. unfold content in *. apply (Hid l l' o1 o2); [done..|].
  rewrite E1 in Ho. rewrite E2 in Ho'. congruence.
Qed.

Lemma relocated_ext_all ht f g s s' L :
  (forall x, g x = f x) -> relocated ht f s s' L -> relocated ht g s s' L.
Proof.
  intros Hfg [I O M C].
  assert (Hp : forall p : option loc, g <$> p = f <$> p) by (intros [x|]; [simpl; by rewrite Hfg|done]).
  split; [| | |done].
  - intros x y. rewrite !Hfg. auto.
  - intros l o. rewrite Hfg. setoid_rewrite Hp. auto.
  - intros c p. rewrite Hp. auto.
Qed.

Section expand.
  Variable hash : Z -> Z.
  Variable ht : hashtable.        (* the table being filled *)
  Variable ot : N.                (* the old table *)
  Variable op : Z.                (* and its power *)
  Implicit Types (s : store) (B : Z -> list loc) (L R : list loc).

Definition old_slot (l : loc) : Prop := exists i, 0 <= i < 2 ^ op /\ l = TabSlot ot i.

Record ex_inv (s : store) (B : Z -> list loc) (L R : list loc) : Prop := {
  x_tab : tab_ok hash ht (objs s) B;
  x_live : forall l, l ∈ L <-> (exists i, l ∈ B i) \/ l ∈ R;
  x_disj : forall i l, l ∈ B i -> l ∉ R;
  x_nodup : NoDup L;
  x_nodupR : NoDup R;
  x_ids : ids_unique (objs s) L;
  x_dom : forall l, is_Some (objs s !! l) ->
    l ∈ L \/ old_slot l \/ exists i, in_range ht i /\ l = TabSlot (table ht) i;
  x_R : forall l, l ∈ R -> (old_slot l \/ is_heap l) /\
    exists o, objs s !! l = Some o /\ obj_size o <> 0;
  x_ne : ot <> table ht;
  x_fresh : heap_fresh s;
  x_freshT : (ot < fresh s)%N /\ (table ht < fresh s)%N;
  x_mon : mon_ok ht s;
  x_linked : linked (objs s) L
}.

(** The effect of moving the object [l] to [l'], at the end of bucket [i]. *)
Record moved (s s' : store) (B : Z -> list loc) (L : list loc) (i : Z) (l l' : loc) : Prop := {
  mv_reloc : relocated ht (rename l l') s s' L;
  mv_mon : mon_ok ht s';
  mv_bucket : bucket hash ht (objs s') i (B i ++ [l']);
  mv_core : forall x, x ∉ B i -> x <> l -> x <> l' -> core <$> objs s' !! x = core <$> objs s !! x;
  mv_empty : forall x, x ∉ L -> x <> l' -> objs s' !! x = objs s !! x;
  mv_new : l' ∉ L \/ l' = l;
  mv_old : is_Some (objs s' !! l) -> l = l' \/ old_slot l;
  mv_oldcore : old_slot l -> core <$> objs s' !! l = core <$> objs s !! l;
  mv_dom : forall x, is_Some (objs s' !! x) -> x = l' \/ is_Some (objs s !! x);
  mv_fresh : heap_fresh s';
  mv_freshT : (fresh s <= fresh s')%N
}.

Lemma rename_list_elem L l l' x :
  l ∈ L -> (l' ∉ L \/ l' = l) -> x ∈ rename l l' <$> L <-> x = l' \/ (x <> l /\ x ∈ L).
Proof.
  intros Hl Hnew. rewrite list_elem_of_fmap. split.
  - intros (y & -> & Hy). unfold rename. case_decide; auto.
  - intros [->|[Hne Hx]].
    + exists l. by rewrite rename_eq.
    + exists x. by rewrite rename_ne.
Qed.

Lemma ex_step s s' B L l R i l' :
  ex_inv s B L (l :: R) -> in_range ht i -> moved s s' B L i l l' ->
  ex_inv s' (<[i := B i ++ [l']]> B) (rename l l' <$> L) R.
Proof.
  intros [T Hlive Hdisj Hnd HndR Hids Hdom HR Hne Hfr HfrT Hmon Hlk] Hi
    [Mr Mm Mb Mc Me Mn Mo Moc Md Mf MfT].
  apply NoDup_cons in HndR as [HlR HndR].
  assert (HlL : l ∈ L) by (apply Hlive; right; set_solver).
  assert (Hmem := fun x => rename_list_elem L l l' x HlL Mn).
  assert (HBl : forall j, l ∉ B j) by (intros j Hj; apply (Hdisj j l Hj); set_solver).
  assert (Hl'B : forall j, l' ∉ B j).
  { intros j Hj. destruct Mn as [Mn| ->]; [|by apply (HBl j)]. apply Mn, Hlive. eauto. }
  assert (Hl'R : l' ∉ R).
  { destruct Mn as [Mn| ->]; [|done]. intros Hin. apply Mn, Hlive. right. set_solver. }
  assert (Hl'k : l' = TabSlot (table ht) i \/ is_heap l').
  { destruct (bucket_elem _ _ _ _ _ l' Mb) as [? _]; [set_solver|done]. }
  split; try done.
  - (* the table *) eapply tab_insert; [exact T|done|exact Mb| |].
    + intros j x Hji Hx. apply Mc.
      * intros Hxi. apply Hji. by eapply (tab_disj _ T).
      * intros ->. by apply (HBl j).
      * intros ->. by apply (Hl'B j).
    + intros j Hji Hj HBj. apply Me.
      * intros [[k Hk]|Hk]%Hlive.
        -- apply (tab_slot _ T) in Hk as Hk'. destruct Hk' as [_ <-].
           rewrite HBj in Hk. by apply not_elem_of_nil in Hk.
        -- destruct (HR _ Hk) as [[(k & _ & [=])|[]] _]. done.
      * intros <-. destruct Hl'k as [[= ]|[]]. done.
  - (* the live objects *) intros x. rewrite Hmem. split.
    + intros [->|[Hxl Hx]].
      * left. exists i. rewrite fn_lookup_insert. set_solver.
      * apply Hlive in Hx as [[j Hj]|Hx]; [|right; set_solver].
        left. exists j. destruct (decide (i = j)) as [->|Hij].
        -- rewrite fn_lookup_insert. set_solver.
        -- by rewrite fn_lookup_insert_ne.
    + intros [[j Hj]|Hx].
      * destruct (decide (i = j)) as [->|Hij].
        -- rewrite fn_lookup_insert in Hj. apply elem_of_app in Hj as [Hj|Hj].
           ++ right. split; [|apply Hlive; eauto]. intros ->. by apply (HBl j).
           ++ left. by apply list_elem_of_singleton in Hj.
        -- rewrite fn_lookup_insert_ne in Hj by done. right. split; [|apply Hlive; eauto].
           intros ->. by apply (HBl j).
      * right. split; [by intros ->|]. apply Hlive. right. set_solver.
  - (* disjoint *) intros j x Hx. destruct (decide (i = j)) as [->|Hij].
    + rewrite fn_lookup_insert in Hx. apply elem_of_app in Hx as [Hx|Hx].
      * intros HxR. apply (Hdisj j x Hx). set_solver.
      * apply list_elem_of_singleton in Hx as ->. done.
    + rewrite fn_lookup_insert_ne in Hx by done. intros HxR. apply (Hdisj j x Hx). set_solver.
  - apply NoDup_fmap_2_strong; [|done]. apply (rl_inj _ _ _ _ _ Mr).
  - by eapply ids_unique_relocated.
  - (* domain *) intros x Hx. rewrite Hmem. destruct (decide (x = l)) as [->|Hxl].
    { destruct (Mo Hx); auto. }
    destruct (Md x Hx) as [->|Hx']; [auto|].
    destruct (Hdom x Hx') as [?|[?|?]]; auto.
  - (* the rest *) intros x Hx. destruct (HR x) as (Hk & o & Ho & Hsz); [set_solver|].
    split; [done|].
    assert (Hc : core <$> objs s' !! x = core <$> objs s !! x).
    { apply Mc; [|by intros ->|by intros ->]. intros Hxi. apply (Hdisj i x Hxi). set_solver. }
    rewrite Ho in Hc. destruct (objs s' !! x) as [o'|]; [|done]. apply (inj Some) in Hc.
    exists o'. split; [done|]. unfold core in Hc. congruence.
  - lia.
  - by eapply linked_relocated.
Qed.

(** Attaching an allocated object behind the last of a chain, as the two branches of
    _move_into_new_table that keep the chain do. *)
Lemma attach_null_spec s i L0 n o :
  bucket hash ht (objs s) i L0 -> L0 <> [] -> HeapObj n ∉ L0 ->
  objs s !! HeapObj n = Some o -> inb hash ht i o ->
  exists s', (let! last := last_obj_in_bucket s ht i in
              let! s := store_upd (set_hash_next (Some (HeapObj n))) s (Some last) in
              store_upd (set_hash_next None) s (Some (HeapObj n))) = Ok s' /\
    bucket hash ht (objs s') i (L0 ++ [HeapObj n]) /\ cells s' = cells s /\ fresh s' = fresh s /\
    (forall x, content <$> objs s' !! x = content <$> objs s !! x /\
               links <$> objs s' !! x = links <$> objs s !! x) /\
    (forall x, x ∉ L0 -> x <> HeapObj n -> objs s' !! x = objs s !! x).
Proof.
  intros Hb Hne Hn Ho Hin.
  destruct (attach_spec hash ht s i L0 n o Hb Hne Hn Ho Hin)
    as (last & ol & s1 & E1 & Hlast & Hol & E2 & C & F & O & Hb').
  assert (Hln : last <> HeapObj n) by (by intros ->).
  unfold last_obj_in_bucket. rewrite E1. cbn [rbind]. rewrite E2. cbn [rbind].
  assert (Ho1 : objs s1 !! HeapObj n = Some o) by (by rewrite O, lookup_insert_ne).
  rewrite (store_upd_Some _ _ _ _ Ho1). eexists; split_and!; [done|exact Hb'|done|done| |].
  - intros x. simpl. rewrite O. destruct (decide (x = HeapObj n)) as [->|Hx1].
    { by rewrite lookup_insert_eq, Ho. }
    rewrite lookup_insert_ne by done. destruct (decide (x = last)) as [->|Hx2].
    { by rewrite lookup_insert_eq, Hol. }
    by rewrite lookup_insert_ne.
  - intros x Hx1 Hx2. simpl. rewrite O, !lookup_insert_ne; [done|congruence..].
Qed.


(** what [attach_null_spec] leaves is a relocation by the identity *)
Lemma same_relocated s s' L :
  (forall x, content <$> objs s' !! x = content <$> objs s !! x /\
             links <$> objs s' !! x = links <$> objs s !! x) ->
  cells s' = cells s -> relocated ht id s s' L.
Proof. intros H. apply relocated_same. intros. apply H. Qed.

Lemma same_is_Some s s' x :
  (forall x, content <$> objs s' !! x = content <$> objs s !! x /\
             links <$> objs s' !! x = links <$> objs s !! x) ->
  is_Some (objs s' !! x) -> is_Some (objs s !! x).
Proof.
  intros H [o Ho]. destruct (H x) as [Hc _]. rewrite Ho in Hc.
  destruct (objs s !! x); [eauto|done].
Qed.

(** the first object of an empty bucket of the new table *)
Lemma move_to_slot s B L l R o i :
  ex_inv s B L (l :: R) -> in_range ht i -> B i = [] -> objs s !! l = Some o -> inb hash ht i o ->
  let part := match l with TabSlot _ _ => true | HeapObj _ => false end in
  exists s', (let! s := move_obj_to_new_loc s ht (TabSlot (table ht) i) l in
              let! s := store_upd (set_hash_next None) s (Some (TabSlot (table ht) i)) in
              if part then Ok s else free_cache_obj s l) = Ok s' /\
    moved s s' B L i l (TabSlot (table ht) i).
Proof.
  intros [T Hlive Hdisj Hnd HndR Hids Hdom HR Hne Hfr HfrT Hmon Hlk] Hi HB Ho Hin part.
  set (new := TabSlot (table ht) i).
  assert (HlL : l ∈ L) by (apply Hlive; right; set_solver).
  destruct (HR l) as [Hk _]; [set_solver|].
  assert (Hnew : new ∉ L).
  { intros [[j Hj]|Hj]%Hlive.
    - apply (tab_slot _ T) in Hj as Hj'. destruct Hj' as [_ <-]. rewrite HB in Hj.
      by apply not_elem_of_nil in Hj.
    - destruct (HR _ Hj) as [[(k & _ & [=])|[]] _]. done. }
  pose proof (tk_bucket _ _ _ _ T i Hi) as Hb. rewrite HB in Hb. simpl in Hb.
  destruct (move_obj_to_new_loc_spec s ht L l new o) as (s1 & E1 & HR1 & Hm1 & F1 & C1 & O1 & Out1);
    [done..|by exists zero_obj|].
  rewrite E1. cbn [rbind]. rewrite (store_upd_Some _ _ _ _ O1). cbn [rbind].
  assert (Hnl : new <> l) by (by intros ->).
  set (s2 := set_objs (<[new := set_hash_next None o]> (objs s1)) s1).
  assert (Hcore1 : forall x, x <> new -> core <$> objs s1 !! x = core <$> objs s !! x).
  { intros x Hx. rewrite <- !lookup_fmap, C1, !lookup_fmap, lookup_insert_ne; [done|congruence]. }
  assert (Hfin : exists s3, (if part then Ok s2 else free_cache_obj s2 l) = Ok s3 /\
            cells s3 = cells s1 /\ fresh s3 = fresh s1 /\
            objs s3 !! new = Some (set_hash_next None o) /\
            (forall x, x <> l -> x <> new -> objs s3 !! x = objs s1 !! x) /\
            (is_Some (objs s3 !! l) -> old_slot l) /\ (old_slot l -> objs s3 !! l = objs s1 !! l)).
  { assert (Hl1 : is_Some (objs s1 !! l)).
    { specialize (Hcore1 l (not_eq_sym Hnl)). rewrite Ho in Hcore1. destruct (objs s1 !! l); [eauto|done]. }
    destruct l as [t j|n]; unfold part.
    - exists s2. split_and!; [done..| | | |]; simpl.
      + by rewrite lookup_insert_eq.
      + intros. by rewrite lookup_insert_ne.
      + by destruct Hk.
      + by rewrite lookup_insert_ne.
    - destruct Hl1 as [o1 Hl1]. unfold free_cache_obj. simpl objs.
      rewrite lookup_insert_ne, Hl1 by done.
      eexists; split_and!; [done..| | | |]; simpl.
      + rewrite lookup_delete_ne by done. by rewrite lookup_insert_eq.
      + intros. rewrite lookup_delete_ne by done. by rewrite lookup_insert_ne.
      + rewrite lookup_delete_eq. by intros [? ?].
      + intros (k & _ & [=]). }
  destruct Hfin as (s3 & -> & C3 & F3 & N3 & O3 & D3 & K3). exists s3. split; [done|].
  assert (Hdom3 : forall x, is_Some (objs s3 !! x) -> x = new \/ is_Some (objs s !! x)).
  { intros x Hx. destruct (decide (x = new)) as [|Hxn]; [auto|]. right.
    destruct (decide (x = l)) as [->|Hxl]; [eauto|]. rewrite O3 in Hx by done.
    specialize (Hcore1 x Hxn). destruct Hx as [ox Hx]. rewrite Hx in Hcore1.
    destruct (objs s !! x); [eauto|done]. }
  split; try done.
  - eapply (relocated_trans ht (rename l new) id); [exact HR1|].
    apply relocated_same; [|done]. intros x Hx.
    apply (rename_list_elem L l new x HlL) in Hx as [->|[Hxl Hx]]; [| |by left].
    + by rewrite N3, O1.
    + rewrite O3; [done|done|]. by intros ->.
  - intros c Hc. rewrite C3. by apply Hm1.
  - rewrite HB. simpl. split_and!; [done| |done|apply NoDup_singleton].
    exists (set_hash_next None o). split_and!; [done|by apply Hin|done..].
  - intros x _ Hxl Hxn. rewrite O3 by done. by apply Hcore1.
  - intros x Hx Hxn. rewrite O3; [by apply Out1| |done]. by intros ->.
  - by left.
  - auto.
  - intros Hold. rewrite K3 by done. by apply Hcore1.
  - intros n Hn. apply Hdom3 in Hn as [|Hn]; [done|]. rewrite F3, F1. by apply Hfr.
  - rewrite F3, F1. lia.
Qed.

(** an object that was allocated stays where it is and is chained *)
Lemma move_to_chain s B L R n o i :
  ex_inv s B L (HeapObj n :: R) -> in_range ht i -> B i <> [] ->
  objs s !! HeapObj n = Some o -> inb hash ht i o ->
  exists s', (let! last := last_obj_in_bucket s ht i in
              let! s := store_upd (set_hash_next (Some (HeapObj n))) s (Some last) in
              store_upd (set_hash_next None) s (Some (HeapObj n))) = Ok s' /\
    moved s s' B L i (HeapObj n) (HeapObj n).
Proof.
  intros [T Hlive Hdisj Hnd HndR Hids Hdom HR Hne Hfr HfrT Hmon Hlk] Hi HB Ho Hin.
  assert (HnB : HeapObj n ∉ B i) by (intros Hx; apply (Hdisj i _ Hx); set_solver).
  destruct (attach_null_spec s i (B i) n o) as (s' & E & Hb & C & F & Hsame & Hout);
    [by apply (tk_bucket _ _ _ _ T)|done..|].
  exists s'. split; [done|]. split; try done.
  - eapply relocated_ext_all; [apply rename_id|]. by apply same_relocated.
  - intros c Hc. rewrite C. by apply Hmon.
  - intros x Hx _ Hxn. by rewrite Hout.
  - intros x Hx Hxn. apply Hout; [|done]. intros HxB. apply Hx, Hlive. eauto.
  - by right.
  - by left.
  - intros (k & _ & [=]).
  - intros x Hx. right. by eapply same_is_Some.
  - intros k Hk. rewrite F. apply Hfr. by eapply same_is_Some.
  - rewrite F. lia.
Qed.

(** an object of the old table is copied to an allocated one and chained *)
Lemma move_to_new_obj s B L R j o i :
  let l := TabSlot ot j in
  ex_inv s B L (l :: R) -> in_range ht i -> B i <> [] -> objs s !! l = Some o -> inb hash ht i o ->
  exists s' l',
    (let! '(obj, s) :=
       (let '(new_obj, s) := create_cache_obj_from_request s None in
        let! s := move_obj_to_new_loc s ht new_obj l in Ok (new_obj, s)) in
     let! last := last_obj_in_bucket s ht i in
     let! s := store_upd (set_hash_next (Some obj)) s (Some last) in
     store_upd (set_hash_next None) s (Some obj)) = Ok s' /\
    moved s s' B L i l l'.
Proof.
  intros l [T Hlive Hdisj Hnd HndR Hids Hdom HR Hne Hfr HfrT Hmon Hlk] Hi HB Ho Hin.
  set (new := HeapObj (fresh s)).
  assert (Hnone : objs s !! new = None).
  { apply eq_None_not_Some. intros H. apply Hfr in H. lia. }
  assert (HlL : l ∈ L) by (apply Hlive; right; set_solver).
  assert (Hold : old_slot l) by (destruct (HR l) as [[?|[]] _]; [set_solver|done]).
  assert (Hnew : new ∉ L).
  { intros Hx. destruct (Hlk _ Hx) as (ox & Hox & _). congruence. }
  unfold create_cache_obj_from_request. cbv zeta. fold new.
  set (s1 := mk_store (<[new := zero_obj]> (objs s)) (cells s) (fresh s + 1)).
  assert (Hout1 : forall x, x <> new -> objs s1 !! x = objs s !! x).
  { intros x Hx. simpl. by rewrite lookup_insert_ne. }
  assert (HL1 : forall x, x ∈ L -> objs s1 !! x = objs s !! x).
  { intros x Hx. apply Hout1. by intros ->. }
  destruct (move_obj_to_new_loc_spec s1 ht L l new o)
    as (s2 & E2 & HR2 & Hm2 & F2 & C2 & O2 & Out2); try done.
  { eapply linked_ext; [|exact Hlk]. intros x Hx. by rewrite HL1. }
  { by rewrite HL1. }
  { simpl. rewrite lookup_insert_eq. eauto. }
  rewrite E2. cbn [rbind].
  assert (Hcore2 : forall x, x <> new -> core <$> objs s2 !! x = core <$> objs s !! x).
  { intros x Hx. rewrite <- (Hout1 x Hx).
    rewrite <- !lookup_fmap, C2, !lookup_fmap, lookup_insert_ne; [done|congruence]. }
  assert (HnB : forall k, new ∉ B k) by (intros k Hx; apply Hnew, Hlive; eauto).
  destruct (attach_null_spec s2 i (B i) (fresh s) o) as (s' & E & Hb & C & F & Hsame & Hout); try done.
  { apply (bucket_ext _ _ (objs s)); [| |by apply (tk_bucket _ _ _ _ T)]; [|done].
    intros x Hx. apply Hcore2. intros ->. by apply (HnB i). }
  exists s', new. split; [done|].
  assert (Hdom' : forall x, is_Some (objs s' !! x) -> x = new \/ is_Some (objs s !! x)).
  { intros x Hx. destruct (decide (x = new)) as [|Hxn]; [auto|]. right.
    apply (same_is_Some _ _ _ Hsame) in Hx. specialize (Hcore2 x Hxn).
    destruct Hx as [ox Hx]. rewrite Hx in Hcore2. destruct (objs s !! x); [eauto|done]. }
  split; try done.
  - eapply (relocated_trans ht (rename l new) id s s2 s'); [|by apply same_relocated].
    eapply (relocated_trans ht id (rename l new) s s1 s2);
      [|by rewrite list_fmap_id].
    apply relocated_same; [|done]. intros x Hx. by rewrite HL1.
  - intros c Hc. rewrite C. by apply Hm2.
  - intros x Hx _ Hxn. rewrite Hout by done. by apply Hcore2.
  - intros x Hx Hxn. rewrite Hout; [|intros HxB; apply Hx, Hlive; eauto|done].
    rewrite Out2 by done. by apply Hout1.
  - by left.
  - by right.
  - intros _. rewrite Hout; [by apply Hcore2| |done].
    intros HxB. apply (Hdisj i l HxB). set_solver.
  - intros n Hn. apply Hdom' in Hn as [[= ->]|Hn]; rewrite F, F2; simpl; [lia|].
    apply Hfr in Hn. lia.
  - rewrite F, F2. simpl. lia.
Qed.

(** _move_into_new_table *)
Lemma move_into_new_table_spec s B L l R part :
  ex_inv s B L (l :: R) ->
  part = match l with TabSlot _ _ => true | HeapObj _ => false end ->
  exists s' i l', in_range ht i /\ move_into_new_table hash s ht l part = Ok s' /\
    moved s s' B L i l l'.
Proof.
  intros X ->. pose proof X as [T _ _ _ _ _ _ HR _ _ _ _ _].
  destruct (HR l) as (Hk & o & Ho & Hsz); [set_solver|].
  unfold move_into_new_table. rewrite (deref_Some _ _ _ Ho). cbn [rbind].
  set (i := bucket_of hash ht (obj_id_int o)).
  assert (Hi : in_range ht i) by (apply bucket_of_range, (tk_pow _ _ _ _ T)).
  assert (Hin : inb hash ht i o) by done.
  destruct (bucket_slot _ _ _ _ _ (tk_bucket _ _ _ _ T i Hi)) as (b & Hb & He & _ & _).
  rewrite (deref_Some _ _ _ Hb). cbn [rbind]. rewrite He. case_bool_decide as HB.
  - destruct (move_to_slot s B L l R o i) as (s' & E & M); [done..|].
    exists s', i. eexists. split_and!; [done| |exact M].
    rewrite <- E. by destruct l.
  - destruct l as [t j|n].
    + assert (t = ot) as -> by (destruct Hk as [(? & _ & [=])|[]]; done).
      destruct (move_to_new_obj s B L R j o i) as (s' & l' & E & M); [done..|].
      exists s', i, l'. done.
    + destruct (move_to_chain s B L R n o i) as (s' & E & M); [done..|].
      exists s', i, (HeapObj n). done.
Qed.

(** *** The loops *)

(** chains and sizes of what is still to be read are as before *)
Definition preserved (s s' : store) (R : list loc) : Prop :=
  forall x, x ∈ R \/ old_slot x -> core <$> objs s' !! x = core <$> objs s !! x.

Lemma preserved_trans s1 s2 s3 R R' :
  (forall x, x ∈ R' -> x ∈ R) -> preserved s1 s2 R -> preserved s2 s3 R' -> preserved s1 s3 R'.
Proof. intros HR H1 H2 x Hx. rewrite H2 by done. apply H1. destruct Hx; auto. Qed.

Definition ex_run (s s' : store) (L R : list loc) : Prop :=
  exists B' f, relocated ht f s s' L /\ ex_inv s' B' (f <$> L) R /\ preserved s s' R.

Lemma ex_run_refl s B L R : ex_inv s B L R -> ex_run s s L R.
Proof.
  intros X. exists B, id. split_and!; [apply relocated_refl| |by intros ? ?].
  by rewrite list_fmap_id.
Qed.

Lemma ex_run_trans s1 s2 s3 L R R' f2 :
  (forall x, x ∈ R' -> x ∈ R) -> relocated ht f2 s1 s2 L -> preserved s1 s2 R ->
  ex_run s2 s3 (f2 <$> L) R' -> ex_run s1 s3 L R'.
Proof.
  intros HRR Hr2 Hp2 (B3 & f3 & Hr3 & X3 & Hp3).
  exists B3, (f3 ∘ f2). split_and!.
  - by eapply relocated_trans.
  - by rewrite list_fmap_compose.
  - by eapply preserved_trans.
Qed.

Lemma move_run s B L l R part :
  ex_inv s B L (l :: R) ->
  part = match l with TabSlot _ _ => true | HeapObj _ => false end ->
  exists s' f B', move_into_new_table hash s ht l part = Ok s' /\
    relocated ht f s s' L /\ ex_inv s' B' (f <$> L) R /\ preserved s s' R.
Proof.
  intros X Hpart. destruct (move_into_new_table_spec s B L l R part X Hpart)
    as (s' & i & l' & Hi & E & M).
  exists s', (rename l l'), (<[i := B i ++ [l']]> B).
  split_and!; [done|apply M|by eapply ex_step|].
  destruct X as [T Hlive Hdisj Hnd HndR Hids Hdom HR Hne Hfr HfrT Hmon Hlk].
  apply NoDup_cons in HndR as [HlR HndR].
  intros x Hx. destruct (decide (x = l)) as [->|Hxl].
  { apply (mv_oldcore _ _ _ _ _ _ _ M). destruct Hx as [Hx|Hx]; [done|done]. }
  apply (mv_core _ _ _ _ _ _ _ M); [|done|].
  - intros HxB. destruct Hx as [Hx|(k & _ & ->)].
    + apply (Hdisj i x HxB). set_solver.
    + apply (tab_slot _ T) in HxB as [? _]. done.
  - intros ->. destruct Hx as [Hx|(k & _ & ->)].
    + destruct (mv_new _ _ _ _ _ _ _ M) as [Hn|Hn]; [|by subst].
      apply Hn, Hlive. right. set_solver.
    + destruct (bucket_elem _ _ _ _ _ (TabSlot ot k) (mv_bucket _ _ _ _ _ _ _ M)) as [[[=]|[]] _];
        [set_solver|done].
Qed.

Definition nonempty (o : cache_obj) : Prop := obj_size o <> 0.

Lemma nonempty_core o o' : core o = core o' -> nonempty o -> nonempty o'.
Proof. unfold core, nonempty. intros [=]. congruence. Qed.

Lemma expand_chain_run C : forall s B L R fuel,
  ex_inv s B L (C ++ R) -> hseg nonempty (objs s) C None -> Forall is_heap C ->
  (length C < fuel)%nat ->
  exists s', expand_chain hash fuel s ht (hd_or None C) = Ok s' /\ ex_run s s' L R.
Proof.
  induction C as [|l C IH]; intros s B L R fuel X Hs Hh Hf; (destruct fuel as [|fuel]; [simpl in Hf; lia|]).
  - exists s. split; [done|]. by eapply ex_run_refl.
  - destruct Hs as (o & Ho & _ & Hn & Hs). apply Forall_cons in Hh as [Hl Hh].
    cbn [expand_chain hd_or deref]. rewrite Ho. cbn [rbind].
    destruct (move_run s B L l (C ++ R) false X) as (s1 & f & B1 & -> & Hr & X1 & Hp); [by destruct l|].
    cbn [rbind]. rewrite Hn.
    destruct (IH s1 B1 (f <$> L) R fuel) as (s2 & E2 & Hrun); [done| |done|simpl in Hf; lia|].
    { eapply hseg_ext; [apply nonempty_core| |exact Hs]. intros x Hx. apply Hp. left. set_solver. }
    exists s2. split; [done|]. eapply ex_run_trans; [|exact Hr|exact Hp|exact Hrun]. set_solver.
Qed.

(** a bucket of the old table that has not been treated yet *)
Definition old_bucket (m : gmap loc cache_obj) (j : Z) (C : list loc) : Prop :=
  match C with
  | [] => exists o, m !! TabSlot ot j = Some o /\ OBJ_EMPTY o = true
  | l :: C' => l = TabSlot ot j /\ hseg nonempty m C None /\ Forall is_heap C'
  end.

Lemma old_bucket_preserved s s' R j C :
  0 <= j < 2 ^ op -> (forall x, x ∈ C -> x ∈ R) -> preserved s s' R ->
  old_bucket (objs s) j C -> old_bucket (objs s') j C.
Proof.
  intros Hj HCR Hp. destruct C as [|l C]; simpl.
  - intros (o & Ho & He).
    assert (Hc : core <$> objs s' !! TabSlot ot j = core <$> objs s !! TabSlot ot j)
      by (apply Hp; right; by exists j).
    rewrite Ho in Hc. destruct (objs s' !! TabSlot ot j) as [o'|]; [|done].
    apply (inj Some) in Hc. exists o'. split; [done|]. unfold OBJ_EMPTY, core in *. congruence.
  - intros (-> & Hs & Hh). split_and!; [done| |done].
    eapply (hseg_ext _ nonempty_core _ _ (TabSlot ot j :: C)); [|exact Hs].
    intros x Hx. apply Hp. left. auto.
Qed.

Lemma expand_bucket_run s B L C R j :
  0 <= j < 2 ^ op -> ex_inv s B L (C ++ R) -> old_bucket (objs s) j C ->
  exists s', expand_bucket hash ot ht s j = Ok s' /\ ex_run s s' L R.
Proof.
  intros Hj X Hob. unfold expand_bucket. destruct C as [|l C].
  - destruct Hob as (o & Ho & He). rewrite (deref_Some _ _ _ Ho). cbn [rbind]. rewrite He.
    exists s. split; [done|]. by eapply ex_run_refl.
  - destruct Hob as (-> & Hs & Hh).
    assert (Hlen : (length (TabSlot ot j :: C) <= size (objs s))%nat).
    { eapply hseg_fuel; [|exact Hs]. pose proof (x_nodupR _ _ _ _ X) as Hnd.
      by apply NoDup_app in Hnd as (? & _). }
    destruct Hs as (o & Ho & Hsz & Hn & Hs). rewrite (deref_Some _ _ _ Ho). cbn [rbind].
    assert (OBJ_EMPTY o = false) as -> by (unfold OBJ_EMPTY; by case_bool).
    destruct (move_run s B L (TabSlot ot j) (C ++ R) true X) as (s1 & f & B1 & E1 & Hr & X1 & Hp); [done|].
    rewrite E1. cbn [rbind]. rewrite Hn.
    destruct (expand_chain_run C s1 B1 (f <$> L) R (chain_fuel s)) as (s2 & E2 & Hrun); [done| |done| |].
    { eapply hseg_ext; [apply nonempty_core| |exact Hs]. intros x Hx. apply Hp. left. set_solver. }
    { unfold chain_fuel. simpl in Hlen. lia. }
    exists s2. split; [done|]. eapply ex_run_trans; [|exact Hr|exact Hp|exact Hrun]. set_solver.
Qed.

Lemma expand_loop_run (B0 : Z -> list loc) js : forall s B L,
  (forall j, j ∈ js -> 0 <= j < 2 ^ op) ->
  ex_inv s B L (concat (B0 <$> js)) ->
  (forall j, j ∈ js -> old_bucket (objs s) j (B0 j)) ->
  exists s', rfold (expand_bucket hash ot ht) js s = Ok s' /\ ex_run s s' L [].
Proof.
  induction js as [|j js IH]; intros s B L Hjs X Hob.
  - exists s. split; [done|]. by eapply ex_run_refl.
  - destruct (expand_bucket_run s B L (B0 j) (concat (B0 <$> js)) j) as (s1 & E1 & B1 & f & Hr & X1 & Hp);
      [apply Hjs; set_solver|done|apply Hob; set_solver|].
    simpl. rewrite E1. simpl.
    destruct (IH s1 B1 (f <$> L)) as (s2 & E2 & Hrun).
    + intros k Hk. apply Hjs. set_solver.
    + done.
    + intros k Hk. eapply old_bucket_preserved; [apply Hjs; set_solver| |exact Hp|apply Hob; set_solver].
      intros x Hx. apply list_elem_of_In, in_concat. exists (B0 k).
      split; apply list_elem_of_In; [by apply list_elem_of_fmap_2|done].
    + exists s2. split; [done|]. eapply ex_run_trans; [|exact Hr|exact Hp|exact Hrun].
      by intros x ?%not_elem_of_nil.
Qed.
End expand.
