(* ===== verification/HashTableSpec.v ===== *)
(** * What the hash table promises

    [HT s ht L] says that in the store [s] the table [ht] holds exactly the objects at
    the addresses [L], with distinct ids, each reachable from its bucket, and that no
    other object is allocated (nothing leaks).  The theorems give the outcome of every
    operation of chainedHashtable.c from such a state: its result, that it runs without
    touching memory that is not allocated, and the state it leaves. *)

From S2P Require Import Prelude.
From S2P Require Import Store.
From S2P Require Import HashTable.
From S2P Require Import Reloc.
From S2P Require Import Buckets.
From S2P Require Import Expand.

(** *** Allocating and freeing a table *)

Lemma alloc_lookup (m : gmap loc cache_obj) t js l :
  foldr (fun i m => <[TabSlot t i := zero_obj]> m) m js !! l =
  (match l with
   | TabSlot t' i => if decide (t' = t /\ i ∈ js) then Some zero_obj else m !! l
   | HeapObj _ => m !! l
   end).
Proof.
  induction js as [|j js IH]; cbn [foldr].
  - destruct l; [|done]. rewrite decide_False; [done|]. by intros [_ ?%not_elem_of_nil].
  - destruct (decide (l = TabSlot t j)) as [->|Hne].
    + rewrite lookup_insert_eq, decide_True; [done|]. split; [done|set_solver].
    + rewrite lookup_insert_ne, IH by done. destruct l as [t' i|]; [|done].
      apply decide_ext. split; [intros [-> ?]; set_solver|].
      intros [-> [->|?]%elem_of_cons]; [done|done].
Qed.

Lemma free_lookup (m : gmap loc cache_obj) t js l :
  foldr (fun i m => delete (TabSlot t i) m) m js !! l =
  (match l with
   | TabSlot t' i => if decide (t' = t /\ i ∈ js) then None else m !! l
   | HeapObj _ => m !! l
   end).
Proof.
  induction js as [|j js IH]; cbn [foldr].
  - destruct l; [|done]. rewrite decide_False; [done|]. by intros [_ ?%not_elem_of_nil].
  - destruct (decide (l = TabSlot t j)) as [->|Hne].
    + rewrite lookup_delete_eq, decide_True; [done|]. split; [done|set_solver].
    + rewrite lookup_delete_ne, IH by done. destruct l as [t' i|]; [|done].
      apply decide_ext. split; [intros [-> ?]; set_solver|].
      intros [-> [->|?]%elem_of_cons]; [done|done].
Qed.

Lemma nodup_concat {A} (B : Z -> list A) js :
  NoDup js -> (forall j, j ∈ js -> NoDup (B j)) ->
  (forall i j x, x ∈ B i -> x ∈ B j -> i = j) -> NoDup (concat (B <$> js)).
Proof.
  induction js as [|j js IH]; intros Hjs Hnd Hd; simpl; [constructor|].
  apply NoDup_cons in Hjs as [Hj Hjs]. apply NoDup_app. split_and!.
  - apply Hnd. set_solver.
  - intros x Hx Hx'. apply list_elem_of_In, in_concat in Hx' as (C & HC & HxC).
    apply list_elem_of_In, list_elem_of_fmap in HC as (k & -> & Hk).
    apply list_elem_of_In in HxC. by rewrite (Hd j k x) in Hj.
  - apply IH; [done| |done]. intros. apply Hnd. set_solver.
Qed.

Lemma elem_of_concat_fmap {A} (B : Z -> list A) js x :
  x ∈ concat (B <$> js) <-> exists j, j ∈ js /\ x ∈ B j.
Proof.
  rewrite list_elem_of_In, in_concat. split.
  - intros (C & HC & Hx). apply list_elem_of_In, list_elem_of_fmap in HC as (k & -> & Hk).
    apply list_elem_of_In in Hx. eauto.
  - intros (j & Hj & Hx). exists (B j).
    split; apply list_elem_of_In; [by apply list_elem_of_fmap_2|done].
Qed.

Lemma slots_nodup p : NoDup (slots p).
Proof. apply NoDup_seqZ. Qed.


#[export] Instance old_slot_dec ot op l : Decision (old_slot ot op l).
Proof.
  refine (match l with
          | TabSlot t i => cast_if (decide (t = ot /\ 0 <= i < 2 ^ op))
          | HeapObj _ => right _
          end).
  - destruct a as [-> ?]. by exists i.
  - intros (j & ? & [= -> ->]). naive_solver.
  - by intros (j & ? & [=]).
Defined.

Section spec.
  Variable hash : Z -> Z.
  Implicit Types (ht : hashtable) (s : store) (L : list loc).

Definition tab_slot_of (ht : hashtable) (l : loc) : Prop :=
  exists i, in_range ht i /\ l = TabSlot (table ht) i.

Record ht_inv (s : store) (ht : hashtable) (B : Z -> list loc) (L : list loc) : Prop := {
  hi_tab : tab_ok hash ht (objs s) B;
  hi_live : forall l, l ∈ L <-> exists i, l ∈ B i;
  hi_nodup : NoDup L;
  hi_ids : ids_unique (objs s) L;
  hi_dom : forall l, is_Some (objs s !! l) -> l ∈ L \/ tab_slot_of ht l;
  hi_fresh : heap_fresh s;
  hi_freshT : (table ht < fresh s)%N;
  hi_count : n_cur_item ht = Z.of_nat (length L);
  hi_mon : mon_ok ht s
}.

Definition HT (s : store) (ht : hashtable) (L : list loc) : Prop := exists B, ht_inv s ht B L.

(** only the statistics of lookups differ *)
Record same_table (ht ht' : hashtable) : Prop := {
  st_table : table ht' = table ht;
  st_power : hash_power ht' = hash_power ht;
  st_count : n_cur_item ht' = n_cur_item ht;
  st_mon : monitored_ptrs ht' = monitored_ptrs ht
}.

Lemma relocated_mon ht ht' f s s' L :
  monitored_ptrs ht' = monitored_ptrs ht -> relocated ht f s s' L -> relocated ht' f s s' L.
Proof. intros E [I O M C]. split; [done|done| |]; rewrite E; done. Qed.

Lemma mon_ok_mon ht ht' s : monitored_ptrs ht' = monitored_ptrs ht -> mon_ok ht s -> mon_ok ht' s.
Proof. intros E H c. rewrite E. apply H. Qed.

Lemma HT_perm s ht L L' : L ≡ₚ L' -> HT s ht L -> HT s ht L'.
Proof.
  intros HL (B & [T Hlive Hnd Hids Hdom Hfr HfrT Hc Hm]). exists B. split; try done.
  - intros l. rewrite <- HL. apply Hlive.
  - by rewrite <- HL.
  - intros l l' o o' Hl Hl'. apply Hids; by rewrite HL.
  - intros l Hl. rewrite <- HL. auto.
  - by rewrite <- HL.
Qed.

Lemma tab_ok_same ht ht' m B :
  table ht' = table ht -> hash_power ht' = hash_power ht -> tab_ok hash ht m B -> tab_ok hash ht' m B.
Proof.
  intros Et Ep [Hp Hb Ho]. split.
  - by rewrite Ep.
  - intros i Hi. unfold in_range in Hi. rewrite Ep in Hi. specialize (Hb i Hi).
    unfold bucket, inb, bucket_of in *. by rewrite Et, Ep.
  - intros i Hi. unfold in_range in Hi. rewrite Ep in Hi. by apply Ho.
Qed.

Lemma HT_same s ht ht' L : same_table ht ht' -> HT s ht L -> HT s ht' L.
Proof.
  intros [Et Ep Ec Em] (B & [T Hlive Hnd Hids Hdom Hfr HfrT Hc Hm]). exists B. split; try done.
  - by eapply tab_ok_same.
  - intros l Hl. destruct (Hdom l Hl) as [?|(i & Hi & ->)]; [by left|]. right. exists i.
    unfold in_range. by rewrite Et, Ep.
  - by rewrite Et.
  - by rewrite Ec.
  - by eapply mon_ok_mon.
Qed.

(** the list functions do not disturb the table *)
Lemma HT_list_frame s s' ht hd tl D L :
  (forall l, l ∈ D -> l ∈ L) -> (forall c, is_Some (cells s !! c) -> is_Some (cells s' !! c)) ->
  list_frame hd tl D s s' -> HT s ht L -> HT s' ht L.
Proof.
  intros HD Hcells [Hcore Hout Hf _] (B & [T Hlive Hnd Hids Hdom Hfr HfrT Hc Hm]).
  assert (Hc' : forall l, core <$> objs s' !! l = core <$> objs s !! l).
  { intros l. by rewrite <- !lookup_fmap, Hcore. }
  assert (Hs : forall l o', objs s' !! l = Some o' -> exists o, objs s !! l = Some o /\ core o' = core o).
  { intros l o' Ho'. specialize (Hc' l). rewrite Ho' in Hc'.
    destruct (objs s !! l); [|done]. apply (inj Some) in Hc'. eauto. }
  exists B. split; try done.
  - split; [apply T| |apply T]. intros i Hi.
    apply (bucket_ext _ _ (objs s)); [by intros| |by apply (tk_bucket _ _ _ _ T)].
    intros HB. apply Hout. intros HsD.
    destruct (proj1 (Hlive _) (HD _ HsD)) as [j Hj].
    apply (tab_slot _ T) in Hj as Hj'. destruct Hj' as [_ <-].
    rewrite HB in Hj. by apply not_elem_of_nil in Hj.
  - intros l l' o o' Hl Hl' Ho Ho' Heq.
    destruct (Hs _ _ Ho) as (o1 & Ho1 & Hc1). destruct (Hs _ _ Ho') as (o2 & Ho2 & Hc2).
    unfold core in *. apply (Hids l l' o1 o2); [done..|congruence].
  - intros l [o Ho]. destruct (Hs _ _ Ho) as (o1 & Ho1 & _). eauto.
  - intros n [o Ho]. destruct (Hs _ _ Ho) as (o1 & Ho1 & _). rewrite Hf. eauto.
  - by rewrite Hf.
  - intros c Hcm. by apply Hcells, Hm.
Qed.

(** *** Growing *)

Lemma ex_inv_init s ht B L :
  ht_inv s ht B L -> linked (objs s) L -> hash_power ht <= 61 ->
  let ht1 := set_table (fresh s) (hash_power ht + 1) ht in
  let s1 := (alloc_table s (hash_power ht + 1)).2 in
  ex_inv hash ht1 (table ht) (hash_power ht) s1 (fun _ => []) L (concat (B <$> slots (hash_power ht)))
  /\ (forall l, l ∈ L \/ tab_slot_of ht l -> objs s1 !! l = objs s !! l)
  /\ cells s1 = cells s.
Proof.
  intros [T Hlive Hnd Hids Hdom Hfr HfrT Hc Hm] Hlk Hp ht1 s1.
  pose proof (tk_pow _ _ _ _ T) as Hpow.
  assert (Hlook : forall l, objs s1 !! l =
    (match l with
     | TabSlot t' i => if decide (t' = fresh s /\ i ∈ slots (hash_power ht + 1)) then Some zero_obj else objs s !! l
     | HeapObj _ => objs s !! l
     end)) by (intros l; apply alloc_lookup).
  assert (Hsame : forall l, l ∈ L \/ tab_slot_of ht l -> objs s1 !! l = objs s !! l).
  { intros l Hl. rewrite Hlook. destruct l as [t i|]; [|done].
    rewrite decide_False; [done|]. intros [-> _]. assert (fresh s = table ht); [|lia].
    destruct Hl as [[j Hj]%Hlive|(j & _ & [= E _])]; [|done].
    by apply (tab_slot _ T) in Hj as [? _]. }
  assert (HsameL : forall l, l ∈ L -> objs s1 !! l = objs s !! l) by auto.
  assert (HB : forall l, l ∈ L <-> l ∈ concat (B <$> slots (hash_power ht))).
  { intros l. rewrite Hlive, elem_of_concat_fmap. split; [|naive_solver].
    intros [j Hj]. exists j. split; [|done]. apply elem_of_slots; [lia|].
    by destruct (tab_elem _ T _ _ Hj). }
  assert (Hdom1 : forall l, is_Some (objs s1 !! l) ->
    is_Some (objs s !! l) \/ tab_slot_of ht1 l).
  { intros l. rewrite Hlook. destruct l as [t i|]; [|auto]. case_decide as Hd; [|auto].
    destruct Hd as [-> Hi]. right. exists i. split; [|done].
    apply elem_of_slots in Hi; [done|lia]. }
  split_and!; [|done|done]. split; try done.
  - (* the new table is empty *) split; [simpl; lia| |done].
    intros i Hi. simpl. rewrite Hlook, decide_True; [done|]. split; [done|].
    apply elem_of_slots; [lia|done].
  - intros l. rewrite HB. split; [by right|]. intros [[j Hj]|?]; [|done].
    by apply not_elem_of_nil in Hj.
  - by intros i l ?%not_elem_of_nil.
  - apply nodup_concat; [apply slots_nodup| |].
    + intros j Hj. apply elem_of_slots in Hj; [|lia].
      eapply bucket_nodup, (tk_bucket _ _ _ _ T j Hj).
    + intros i j x. apply (tab_disj _ T).
  - intros l l' o o' Hl Hl'. rewrite !HsameL by done. by apply Hids.
  - intros l Hl. destruct (Hdom1 l Hl) as [Hl'|?]; [|auto].
    destruct (Hdom l Hl') as [?|?]; auto.
  - intros l Hl%HB. rewrite HsameL by done. apply Hlive in Hl as [j Hj].
    destruct (tab_elem _ T _ _ Hj) as (Hj' & Hk & o & Ho & Hsz & _). split; [|eauto].
    destruct Hk as [->|?]; [left; by exists j|by right].
  - simpl. lia.
  - intros n Hn. apply Hdom1 in Hn as [Hn|(i & _ & [=])]. apply Hfr in Hn. simpl. lia.
  - simpl. lia.
  - eapply linked_ext; [|exact Hlk]. intros l Hl. by rewrite HsameL.
Qed.

(** _chained_hashtable_expand: the table has twice the slots, and every object is still
    in it, with its neighbours, at its new address. *)
Lemma chained_hashtable_expand_spec s ht L :
  HT s ht L -> linked (objs s) L -> hash_power ht <= 61 ->
  exists ht' s' f, chained_hashtable_expand hash s ht = Ok (ht', s') /\
    HT s' ht' (f <$> L) /\ relocated ht f s s' L /\
    hash_power ht' = hash_power ht + 1 /\ n_cur_item ht' = n_cur_item ht /\
    monitored_ptrs ht' = monitored_ptrs ht /\ n_lookup ht' = n_lookup ht.
Proof.
  intros (B & HI) Hlk Hp.
  destruct (ex_inv_init s ht B L HI Hlk Hp) as (X & Hsame & Hcells).
  pose proof HI as [T Hlive Hnd Hids Hdom Hfr HfrT Hc Hm].
  pose proof (tk_pow _ _ _ _ T) as Hpow.
  unfold chained_hashtable_expand.
  assert (u16 (hash_power ht + 1) = hash_power ht + 1) as -> by (apply u16_small; lia).
  replace (hash_power ht + 1 - 1) with (hash_power ht) by lia.
  destruct (alloc_table s (hash_power ht + 1)) as [t s1] eqn:Ea.
  assert (t = fresh s) as -> by (unfold alloc_table in Ea; congruence).
  cbn [snd] in *. set (ht1 := set_table (fresh s) (hash_power ht + 1) ht) in *.
  assert (Hrange : forall j, j ∈ slots (hash_power ht) -> in_range ht j)
    by (intros j Hj; apply elem_of_slots in Hj; [done|lia]).
  destruct (expand_loop_run hash ht1 (table ht) (hash_power ht) B (slots (hash_power ht))
              s1 (fun _ => []) L Hrange X) as (s2 & E2 & B2 & f & Hr & X2 & _).
  { intros j Hj. pose proof (tk_bucket _ _ _ _ T j (Hrange j Hj)) as Hb.
    destruct (B j) as [|l C] eqn:EB.
    - simpl in *. rewrite Hsame; [by exists zero_obj|]. right. exists j. auto.
    - destruct Hb as (-> & Hs & Hh & _). split_and!; [done| |done].
      assert (Hin : forall x, x ∈ TabSlot (table ht) j :: C -> x ∈ L).
      { intros x Hx. apply Hlive. exists j. by rewrite EB. }
      clear EB. revert Hs Hin. generalize (TabSlot (table ht) j :: C) as D.
      induction D as [|x D IH]; simpl; [done|]. intros (o & Ho & [Hsz _] & Hn & Hs) Hin.
      exists o. rewrite Hsame by (left; apply Hin; set_solver).
      split_and!; [done|done|done|]. apply IH; [done|]. intros. apply Hin. set_solver. }
  rewrite E2. cbn [rbind]. exists ht1, (free_table s2 (table ht) (hash_power ht)), f.
  pose proof X2 as [T2 Hlive2 _ Hnd2 _ Hids2 Hdom2 _ Hne2 Hfr2 HfrT2 Hm2 Hlk2].
  assert (Hlook : forall l, objs (free_table s2 (table ht) (hash_power ht)) !! l =
    if decide (old_slot (table ht) (hash_power ht) l) then None else objs s2 !! l).
  { intros l. unfold free_table. simpl. rewrite free_lookup. destruct l as [t' i|n].
    - apply decide_ext. rewrite elem_of_slots by lia. unfold old_slot. naive_solver.
    - rewrite decide_False; [done|]. by intros (? & _ & [=]). }
  assert (HliveN : forall l, l ∈ f <$> L -> ~ old_slot (table ht) (hash_power ht) l).
  { intros l [[j Hj]|Hj]%Hlive2 (k & _ & ->); [|by apply not_elem_of_nil in Hj].
    apply (tab_slot _ T2) in Hj as [? _]. done. }
  assert (HL2 : forall l, l ∈ f <$> L ->
    objs (free_table s2 (table ht) (hash_power ht)) !! l = objs s2 !! l).
  { intros l Hl. rewrite Hlook, decide_False; [done|]. by apply HliveN. }
  split_and!; try done.
  - exists B2. split; try done.
    + split; [apply T2| |apply T2]. intros i Hi.
      apply (bucket_ext _ _ (objs s2)); [| |by apply (tk_bucket _ _ _ _ T2)].
      * intros l Hl. rewrite HL2; [done|]. apply Hlive2. eauto.
      * intros _. rewrite Hlook, decide_False; [done|]. intros (k & _ & [= E _]). done.
    + intros l. rewrite Hlive2. split; [|by left].
      intros [?|Hl]; [done|by apply not_elem_of_nil in Hl].
    + intros l l' o o' Hl Hl'. rewrite !HL2 by done. by apply Hids2.
    + intros l Hl. rewrite Hlook in Hl. case_decide; [by destruct Hl|].
      destruct (Hdom2 l Hl) as [?|[?|?]]; [by left|done|by right].
    + intros n Hn. rewrite Hlook in Hn. case_decide; [by destruct Hn|]. by apply Hfr2.
    + apply HfrT2.
    + by rewrite length_fmap.
  - eapply relocated_mon; [|eapply (relocated_trans ht1 id f s s1)].
    + done.
    + apply relocated_same; [|done]. intros l Hl. by rewrite Hsame by auto.
    + rewrite list_fmap_id. eapply (relocated_trans ht1 f id); [exact Hr|].
      apply relocated_same; [|done]. intros l Hl. by rewrite HL2.
Qed.

(** *** Lookup *)

Lemma count_lookup_spec ht d :
  0 <= n_lookup ht < 2 ^ 64 - 1 ->
  exists ht', count_lookup ht d = Ok ht' /\ same_table ht ht' /\ 0 <= n_lookup ht' <= n_lookup ht + 1.
Proof.
  intros Hn. unfold count_lookup. rewrite (u64_small (n_lookup ht + 1)) by lia.
  case_bool; [lia|]. case_match; eexists; (split_and!; [done|done|simpl; lia..]).
Qed.

(** the bucket of an id holds the object with that id, if the table does *)
Lemma find_in_bucket s ht B L id :
  ht_inv s ht B L ->
  let i := bucket_of hash ht id in
  exists o, objs s !! TabSlot (table ht) i = Some o /\
  if OBJ_EMPTY o then (forall l o, l ∈ L -> objs s !! l = Some o -> obj_id_int o <> id)
  else exists r d, find_in_chain (chain_fuel s) s id (Some (TabSlot (table ht) i)) 0 = Ok (r, d) /\
    match r with
    | Some l => l ∈ L /\ exists o, objs s !! l = Some o /\ obj_id_int o = id
    | None => forall l o, l ∈ L -> objs s !! l = Some o -> obj_id_int o <> id
    end.
Proof.
  intros [T Hlive Hnd Hids Hdom Hfr HfrT Hc Hm] i.
  assert (Hi : in_range ht i) by (apply bucket_of_range, (tk_pow _ _ _ _ T)).
  pose proof (tk_bucket _ _ _ _ T i Hi) as Hb.
  assert (Hin : forall l o, l ∈ L -> objs s !! l = Some o -> obj_id_int o = id -> l ∈ B i).
  { intros l o [j Hj]%Hlive Ho Hid. destruct (tab_elem _ T _ _ Hj) as (_ & _ & o' & Ho' & _ & Hbk).
    rewrite Ho in Ho'. injection Ho' as <-. rewrite Hid in Hbk. fold i in Hbk. by rewrite Hbk. }
  destruct (bucket_slot _ _ _ _ _ Hb) as (o & Ho & He & _ & Hhd). exists o. split; [done|].
  rewrite He. case_bool_decide as HB.
  - intros l o' Hl Ho' Hid. pose proof (Hin l o' Hl Ho' Hid) as Hx. rewrite HB in Hx.
    by apply not_elem_of_nil in Hx.
  - pose proof (bucket_hseg _ _ _ _ _ Hb) as Hs. pose proof (bucket_fuel _ _ _ _ _ Hb) as Hf.
    destruct (find_in_chain_spec _ s (B i) id (chain_fuel s) 0 Hs) as (r & d & E & _ & Hr);
      [unfold chain_fuel; lia|].
    rewrite Hhd in E by done. exists r, d. split; [done|]. destruct r as [l|].
    + destruct Hr as [Hl Hr]. split; [apply Hlive; eauto|done].
    + intros l o' Hl Ho' Hid. by apply (Hr l o' (Hin l o' Hl Ho' Hid)).
Qed.

Lemma chained_hashtable_find_spec s ht L req :
  HT s ht L -> (req_hv req = 0 \/ req_hv req = hash (req_obj_id_int req)) ->
  0 <= n_lookup ht < 2 ^ 64 - 1 ->
  exists r ht' req', chained_hashtable_find hash s ht req = Ok (r, ht', req') /\
    same_table ht ht' /\ 0 <= n_lookup ht' <= n_lookup ht + 1 /\
    req' = set_req_hv (hash (req_obj_id_int req)) req /\
    match r with
    | Some l => l ∈ L /\ exists o, objs s !! l = Some o /\ obj_id_int o = req_obj_id_int req
    | None => forall l o, l ∈ L -> objs s !! l = Some o -> obj_id_int o <> req_obj_id_int req
    end.
Proof.
  intros (B & HI) Hhv Hn. unfold chained_hashtable_find.
  assert ((if req_hv req =? 0
           then (hash (req_obj_id_int req), set_req_hv (hash (req_obj_id_int req)) req)
           else (req_hv req, req)) =
          (hash (req_obj_id_int req), set_req_hv (hash (req_obj_id_int req)) req)) as ->.
  { case_bool; [done|]. destruct Hhv as [?|Hhv]; [done|]. rewrite <- Hhv. by destruct req. }
  destruct (find_in_bucket s ht B L (req_obj_id_int req) HI) as (o & Ho & Hf).
  unfold bucket_of in *. cbn [req_obj_id_int set_req_hv]. rewrite (deref_Some _ _ _ Ho). cbn [rbind].
  destruct (OBJ_EMPTY o).
  - exists None, ht. eexists. split_and!; [done|done|lia|lia|done|done].
  - destruct Hf as (r & d & -> & Hr). cbn [rbind].
    destruct (count_lookup_spec ht d Hn) as (ht' & -> & Hst & Hb).
    exists r, ht'. eexists. split_and!; [done|done|lia|lia|done|done].
Qed.

(** chained_hashtable_find_obj runs the same search but never returns its result. *)
Lemma chained_hashtable_find_obj_spec s ht L l o :
  HT s ht L -> objs s !! l = Some o -> 0 <= n_lookup ht < 2 ^ 64 - 1 ->
  exists ht', chained_hashtable_find_obj hash s ht l = Ok (None, ht') /\ same_table ht ht' /\
    0 <= n_lookup ht' <= n_lookup ht + 1.
Proof.
  intros (B & HI) Ho Hn. unfold chained_hashtable_find_obj. rewrite (deref_Some _ _ _ Ho). cbn [rbind].
  unfold chained_hashtable_find_obj_id.
  destruct (find_in_bucket s ht B L (obj_id_int o) HI) as (b & Hb & Hf).
  rewrite (deref_Some _ _ _ Hb). cbn [rbind]. destruct (OBJ_EMPTY b).
  - exists ht. split_and!; [done|done|lia|lia].
  - destruct Hf as (r & d & -> & _). cbn [rbind].
    destruct (count_lookup_spec ht d Hn) as (ht' & -> & Hst & Hbd). by exists ht'.
Qed.

(** *** Insertion *)

Definition new_obj_of (req : request) : cache_obj :=
  mk_cache_obj None None None 0 (req_obj_id_int req) (req_obj_size req).

Lemma copy_zero req : 0 <= req_obj_size req < 2 ^ 32 ->
  copy_request_to_cache_obj zero_obj req = new_obj_of req.
Proof. intros. unfold copy_request_to_cache_obj. by rewrite u32_small. Qed.

(** the state after an object has been put at the end of its bucket *)
Lemma ht_inv_insert s s' ht B L l o i :
  ht_inv s ht B L -> in_range ht i -> l ∉ L ->
  objs s' !! l = Some o -> bucket hash ht (objs s') i (B i ++ [l]) ->
  (forall l o', l ∈ L -> objs s !! l = Some o' -> obj_id_int o' <> obj_id_int o) ->
  (forall x, content <$> objs s' !! x = content <$> objs s !! x \/ x = l) ->
  (forall x, x ∉ B i -> x <> l -> objs s' !! x = objs s !! x) ->
  cells s' = cells s -> heap_fresh s' -> (fresh s <= fresh s')%N ->
  Z.of_nat (length L) < 2 ^ 60 ->
  HT s' (set_n_cur_item (u64 (n_cur_item ht + 1)) ht) (l :: L).
Proof.
  intros [T Hlive Hnd Hids Hdom Hfr HfrT Hc Hm] Hi Hl Ho Hb Hfresh_id Hcont Hout Hcells Hfr' HfrT' Hlen.
  assert (HlB : forall j, l ∉ B j) by (intros j Hj; apply Hl, Hlive; eauto).
  assert (Hback : forall x ox, x ∈ L -> objs s' !! x = Some ox ->
            exists ox', objs s !! x = Some ox' /\ obj_id_int ox' = obj_id_int ox).
  { intros x ox Hx Hox. destruct (Hcont x) as [Hcx|Hcx]; [|by subst].
    rewrite Hox in Hcx. destruct (objs s !! x) as [ox'|]; [|done].
    apply (inj Some) in Hcx. unfold content in Hcx. exists ox'. split; [done|congruence]. }
  exists (<[i := B i ++ [l]]> B). split; try done.
  - apply (tab_ok_same ht); [done|done|]. eapply tab_insert; [exact T|done|exact Hb| |].
    + intros j x Hji Hx. rewrite Hout; [done| |].
      * intros Hxi. apply Hji. by eapply (tab_disj _ T).
      * intros ->. by apply (HlB j).
    + intros j Hji Hj HBj. apply Hout.
      * intros Hx. apply (tab_slot _ T) in Hx as [_ ?]. done.
      * intros <-. destruct (bucket_elem _ _ _ _ _ (TabSlot (table ht) j) Hb) as [[[= ->]|[]] _]; [|done].
        set_solver.
  - intros x. rewrite elem_of_cons, Hlive. split.
    + intros [->|[j Hj]].
      * exists i. rewrite fn_lookup_insert. set_solver.
      * exists j. destruct (decide (i = j)) as [->|]; [rewrite fn_lookup_insert; set_solver|].
        by rewrite fn_lookup_insert_ne.
    + intros [j Hj]. destruct (decide (i = j)) as [->|].
      * rewrite fn_lookup_insert in Hj. set_solver.
      * rewrite fn_lookup_insert_ne in Hj by done. eauto.
  - by apply NoDup_cons.
  - intros x y ox oy [->|Hx]%elem_of_cons [->|Hy]%elem_of_cons Hox Hoy Heq; [done| | |].
    + destruct (Hback y oy Hy Hoy) as (oy' & Hoy' & Hidy). exfalso.
      apply (Hfresh_id y oy' Hy Hoy'). congruence.
    + destruct (Hback x ox Hx Hox) as (ox' & Hox' & Hidx). exfalso.
      apply (Hfresh_id x ox' Hx Hox'). congruence.
    + destruct (Hback x ox Hx Hox) as (ox' & Hox' & Hidx).
      destruct (Hback y oy Hy Hoy) as (oy' & Hoy' & Hidy).
      apply (Hids x y ox' oy'); [done..|congruence].
  - intros x [ox Hox]. rewrite elem_of_cons. destruct (decide (x = l)) as [->|Hxl]; [auto|].
    destruct (Hcont x) as [Hcx|]; [|done]. rewrite Hox in Hcx.
    destruct (objs s !! x) as [ox'|] eqn:E; [|done].
    destruct (Hdom x) as [?|?]; [eauto|auto|auto].
  - simpl. lia.
  - simpl. rewrite Hc, u64_small by lia. lia.
  - intros c Hcm. rewrite Hcells. by apply Hm.
Qed.

(** the part of chained_hashtable_insert after the table may have grown *)
Lemma insert_no_expand s ht L req :
  HT s ht L -> Z.of_nat (length L) < 2 ^ 60 ->
  0 < req_obj_size req < 2 ^ 32 ->
  (forall l o, l ∈ L -> objs s !! l = Some o -> obj_id_int o <> req_obj_id_int req) ->
  exists l s',
    (let slot := TabSlot (table ht) (bucket_of hash ht (req_obj_id_int req)) in
     let! b := deref s (Some slot) in
     if OBJ_EMPTY b then
       let! s := store_upd (fun o => copy_request_to_cache_obj o req) s (Some slot) in
       Ok (slot, s)
     else
       let '(new_obj, s) := create_cache_obj_from_request s (Some req) in
       let! last := last_obj_in_chain (chain_fuel s) s slot in
       let! s := store_upd (set_hash_next (Some new_obj)) s (Some last) in
       Ok (new_obj, s)) = Ok (l, s') /\
    HT s' (set_n_cur_item (u64 (n_cur_item ht + 1)) ht) (l :: L) /\ relocated ht id s s' L /\
    objs s' !! l = Some (new_obj_of req) /\ l ∉ L /\ cells s' = cells s.
Proof.
  intros (B & HI) Hlen Hsz Hnew. pose proof HI as [T Hlive Hnd Hids Hdom Hfr HfrT Hc Hm].
  set (i := bucket_of hash ht (req_obj_id_int req)). cbv zeta. set (slot := TabSlot (table ht) i).
  assert (Hi : in_range ht i) by (apply bucket_of_range, (tk_pow _ _ _ _ T)).
  assert (Hinb : inb hash ht i (new_obj_of req)) by (split; [simpl; lia|done]).
  pose proof (tk_bucket _ _ _ _ T i Hi) as Hb.
  destruct (bucket_slot _ _ _ _ _ Hb) as (b & Hbs & He & Hz & _).
  fold slot in Hbs. rewrite (deref_Some _ _ _ Hbs). cbn [rbind]. rewrite He. case_bool_decide as HB.
  - rewrite (store_upd_Some _ _ _ _ Hbs). cbn [rbind]. rewrite (Hz HB), copy_zero by lia.
    assert (Hsl : slot ∉ L).
    { intros [j Hj]%Hlive. apply (tab_slot _ T) in Hj as Hj'. destruct Hj' as [_ <-].
      rewrite HB in Hj. by apply not_elem_of_nil in Hj. }
    set (s' := set_objs (<[slot := new_obj_of req]> (objs s)) s).
    assert (Hout : forall x, x <> slot -> objs s' !! x = objs s !! x)
      by (intros; simpl; by rewrite lookup_insert_ne).
    exists slot, s'. split_and!; [done| | | |done|done].
    + eapply ht_inv_insert; [exact HI|exact Hi|done|simpl; by rewrite lookup_insert_eq| |done| | |done| |done|done].
      * rewrite HB. simpl. split_and!; [done| |done|apply NoDup_singleton].
        exists (new_obj_of req). by rewrite lookup_insert_eq.
      * intros x. destruct (decide (x = slot)); [by right|left]. by rewrite Hout.
      * intros x _ Hx. by apply Hout.
      * intros n Hn. rewrite Hout in Hn by done. by apply Hfr.
    + apply relocated_same; [|done]. intros x Hx. rewrite Hout; [done|]. by intros ->.
    + simpl. by rewrite lookup_insert_eq.
  - unfold create_cache_obj_from_request. cbv zeta. rewrite copy_zero by lia.
    set (l := HeapObj (fresh s)).
    set (s1 := mk_store (<[l := new_obj_of req]> (objs s)) (cells s) (fresh s + 1)).
    assert (Hln : objs s !! l = None).
    { apply eq_None_not_Some. intros H. apply Hfr in H. lia. }
    assert (HlL : l ∉ L).
    { intros [j Hj]%Hlive. destruct (tab_elem _ T _ _ Hj) as (_ & _ & o & Ho & _). congruence. }
    assert (Hout1 : forall x, x <> l -> objs s1 !! x = objs s !! x)
      by (intros; simpl; by rewrite lookup_insert_ne).
    assert (HlB : l ∉ B i) by (intros Hx; apply HlL, Hlive; eauto).
    assert (Hl1 : objs s1 !! l = Some (new_obj_of req)) by (simpl; by rewrite lookup_insert_eq).
    destruct (attach_spec hash ht s1 i (B i) (fresh s) (new_obj_of req))
      as (last & ol & s2 & E1 & Hlast & Hol & E2 & C2 & F2 & O2 & Hb2); [|done..|].
    { apply (bucket_ext _ _ (objs s)); [| |done].
      - intros x Hx. rewrite Hout1; [done|]. by intros ->.
      - intros. done. }
    assert (Hlne : last <> l) by (by intros ->).
    assert (Hl2 : objs s2 !! l = Some (new_obj_of req)) by (by rewrite O2, lookup_insert_ne).
    fold l in E1, E2, Hb2. change (TabSlot (table ht) i) with slot in E1.
    rewrite E1. cbn [rbind]. rewrite E2. cbn [rbind].
    change (set_hash_next None (new_obj_of req)) with (new_obj_of req) in Hb2.
    rewrite insert_id in Hb2 by done.
    assert (Hcont : forall x, x <> l -> content <$> objs s2 !! x = content <$> objs s !! x /\
                                       links <$> objs s2 !! x = links <$> objs s !! x).
    { intros x Hx. rewrite O2. destruct (decide (x = last)) as [->|Hxn].
      - rewrite lookup_insert_eq. rewrite Hout1 in Hol by done. by rewrite Hol.
      - rewrite lookup_insert_ne, Hout1 by done. done. }
    exists l, s2. split_and!; [done| | |done|done|done].
    + eapply ht_inv_insert; [exact HI|exact Hi|done|exact Hl2|done|done| | |done| | |done].
      * intros x. destruct (decide (x = l)); [by right|left]. by apply Hcont.
      * intros x Hx Hxl. rewrite O2, lookup_insert_ne, Hout1 by (done || congruence). done.
      * intros n Hn. rewrite F2. simpl. destruct (decide (HeapObj n = l)) as [[= ->]|Hnl]; [lia|].
        rewrite O2 in Hn. destruct (decide (HeapObj n = last)) as [E|E].
        -- rewrite E in *. rewrite Hout1 in Hol by done. assert (n < fresh s)%N; [|lia].
           apply Hfr. rewrite E. eauto.
        -- rewrite lookup_insert_ne, Hout1 in Hn by done. apply Hfr in Hn. lia.
      * rewrite F2. simpl. lia.
    + apply relocated_same; [|done]. intros x Hx. apply Hcont. by intros ->.
Qed.

Lemma linked_insert s s' ht f L l o :
  linked (objs s) L -> relocated ht f s s' L -> l ∉ f <$> L -> objs s' !! l = Some o ->
  links o = (None, None) -> linked (objs s') (l :: (f <$> L)).
Proof.
  intros Hlk Hr Hl Ho Hlo. eapply linked_cons_alone; [|done|done|done].
  by eapply linked_relocated.
Qed.

(** chained_hashtable_insert: the new object is in the table, unlinked, and the other
    objects are where they were or, if the table has grown, relocated. *)
Lemma chained_hashtable_insert_spec s ht L req :
  HT s ht L -> linked (objs s) L -> Z.of_nat (length L) < 2 ^ 60 ->
  0 < req_obj_size req < 2 ^ 32 ->
  (forall l o, l ∈ L -> objs s !! l = Some o -> obj_id_int o <> req_obj_id_int req) ->
  exists l ht' s' f, chained_hashtable_insert hash s ht req = Ok (l, ht', s') /\
    HT s' ht' (l :: (f <$> L)) /\ relocated ht f s s' L /\
    objs s' !! l = Some (new_obj_of req) /\ l ∉ f <$> L /\
    monitored_ptrs ht' = monitored_ptrs ht /\ n_lookup ht' = n_lookup ht.
Proof.
  intros HI Hlk Hlen Hsz Hnew. unfold chained_hashtable_insert.
  assert (Hex : exists ht1 s1 f,
    (if n_cur_item ht >? expand_threshold (hash_power ht)
     then chained_hashtable_expand hash s ht else Ok (ht, s)) = Ok (ht1, s1) /\
    HT s1 ht1 (f <$> L) /\ relocated ht f s s1 L /\ monitored_ptrs ht1 = monitored_ptrs ht /\
    n_lookup ht1 = n_lookup ht).
  { destruct (n_cur_item ht >? expand_threshold (hash_power ht)) eqn:Eth.
    - destruct (chained_hashtable_expand_spec s ht L HI Hlk) as (ht1 & s1 & f & E & H1 & Hr & _ & _ & Hm & Hn).
      { destruct HI as (B & [T _ _ _ _ _ _ Hc _]). pose proof (tk_pow _ _ _ _ T) as Hp.
        rewrite Z.gtb_lt, Hc in Eth.
        destruct (decide (hash_power ht = 62)) as [E62|]; [|lia]. rewrite E62 in Eth.
        change (expand_threshold 62) with (2 ^ 62 * 3602879701896397 / 2 ^ 52) in Eth.
        assert (2 ^ 60 < 2 ^ 62 * 3602879701896397 / 2 ^ 52) by (vm_compute; done). lia. }
      exists ht1, s1, f. done.
    - exists ht, s, id. split_and!; [done| |apply relocated_refl|done|done].
      by rewrite list_fmap_id. }
  destruct Hex as (ht1 & s1 & f & -> & H1 & Hr1 & Hm1 & Hn1). cbn [rbind].
  destruct (insert_no_expand s1 ht1 (f <$> L) req) as (l & s2 & E2 & H2 & Hr2 & Ho2 & Hl2 & _);
    [done|by rewrite length_fmap|done| |].
  { intros x ox Hx Hox. apply list_elem_of_fmap in Hx as (y & -> & Hy).
    destruct (Hlk y Hy) as (oy & Hoy & _).
    destruct (rl_obj _ _ _ _ _ Hr1 y oy Hy Hoy) as (ox' & Hox' & Hc & _).
    rewrite Hox in Hox'. injection Hox' as <-. unfold content in Hc.
    pose proof (Hnew y oy Hy Hoy). congruence. }
  cbv zeta in E2.
  destruct (deref s1 (Some (TabSlot (table ht1) (bucket_of hash ht1 (req_obj_id_int req))))); [|done].
  cbn [rbind] in E2 |- *. rewrite E2. cbn [rbind].
  exists l. eexists. exists s2, f. split_and!; [done|exact H2| |done|done|done|done].
  eapply (relocated_trans ht f id s s1 s2); [done|]. eapply relocated_mon; [|exact Hr2]. done.
Qed.

(** *** Deletion *)

(** Removing an object of a chain, the state and the bucket that result. *)
Lemma ht_inv_delete s s' ht B L L' f d i C :
  ht_inv s ht B (d :: L) -> linked (objs s) L -> relocated ht f s s' L -> mon_ok ht s' ->
  in_range ht i -> L' = f <$> L ->
  bucket hash ht (objs s') i C ->
  (forall x, x ∈ L' <-> x ∈ C \/ exists j, j <> i /\ x ∈ B j) ->
  (forall x j, j <> i -> x ∈ B j -> core <$> objs s' !! x = core <$> objs s !! x) ->
  (forall j, j <> i -> in_range ht j -> B j = [] ->
     objs s' !! TabSlot (table ht) j = objs s !! TabSlot (table ht) j) ->
  (forall x, is_Some (objs s' !! x) -> x ∈ L' \/ tab_slot_of ht x) ->
  heap_fresh s' -> fresh s' = fresh s -> Z.of_nat (length L) < 2 ^ 60 ->
  HT s' (set_n_cur_item (u64 (n_cur_item ht - 1)) ht) L'.
Proof.
  intros [T Hlive Hnd Hids Hdom Hfr HfrT Hc Hm] Hlk Hr Hm' Hi -> Hb Hmem Hcore Hempty Hdom' Hfr' HfrT' Hlen.
  apply NoDup_cons in Hnd as [Hd Hnd].
  exists (<[i := C]> B). split; try done.
  - apply (tab_ok_same ht); [done|done|]. eapply tab_insert; [exact T|done|exact Hb| |done].
    intros. by eapply Hcore.
  - intros x. rewrite Hmem. split.
    + intros [Hx|(j & Hji & Hj)]; [exists i; by rewrite fn_lookup_insert|].
      exists j. by rewrite fn_lookup_insert_ne.
    + intros [j Hj]. destruct (decide (i = j)) as [->|]; [left; by rewrite fn_lookup_insert in Hj|].
      rewrite fn_lookup_insert_ne in Hj by done. right. exists j. split; congruence.
  - apply NoDup_fmap_2_strong; [|done]. apply (rl_inj _ _ _ _ _ Hr).
  - eapply ids_unique_relocated; [exact Hlk|exact Hr|].
    intros l l' o o' Hl Hl'. apply Hids; set_solver.
  - by rewrite HfrT'.
  - simpl. rewrite Hc, length_fmap. simpl length. rewrite u64_small; lia.
Qed.

(** deleting the first object of a chain moves the second one into the slot *)
Lemma delete_first s ht B L i x C :
  let slot := TabSlot (table ht) i in
  ht_inv s ht B (slot :: L) -> linked (objs s) L -> in_range ht i -> B i = slot :: x :: C ->
  Z.of_nat (length L) < 2 ^ 60 ->
  exists s' f, (let! s := move_obj_to_new_loc s ht slot x in free_cache_obj s x) = Ok s' /\
    HT s' (set_n_cur_item (u64 (n_cur_item ht - 1)) ht) (f <$> L) /\ relocated ht f s s' L.
Proof.
  intros slot HI Hlk Hi HB Hlen. pose proof HI as [T Hlive Hnd Hids Hdom Hfr HfrT Hc Hm].
  pose proof (tk_bucket _ _ _ _ T i Hi) as Hb. rewrite HB in Hb.
  destruct Hb as (_ & (os & Hos & _ & Hns & ox & Hox & Hinx & Hnx & Hs) & Hh & HndB).
  apply Forall_cons in Hh as [Hhx Hh].
  apply NoDup_cons in HndB as [HsB HndB]. apply NoDup_cons in HndB as [HxC HndC].
  apply NoDup_cons in Hnd as [HsL Hnd].
  assert (HBi : forall y, y ∈ x :: C -> y ∈ L).
  { intros y Hy. assert (y ∈ slot :: L) as Hy' by (apply Hlive; exists i; rewrite HB; set_solver).
    apply elem_of_cons in Hy' as [->|]; [done|done]. }
  assert (Hxs : x <> slot) by (intros ->; apply HsB; set_solver).
  destruct (move_obj_to_new_loc_spec s ht L x slot ox) as (s1 & E1 & Hr1 & Hm1 & F1 & C1 & O1 & Out1);
    [done|done|apply HBi; set_solver|done|done|eauto|].
  rewrite E1. cbn [rbind].
  assert (Hcore1 : forall y, y <> slot -> core <$> objs s1 !! y = core <$> objs s !! y).
  { intros y Hy. rewrite <- !lookup_fmap, C1, !lookup_fmap, lookup_insert_ne; [done|congruence]. }
  assert (Hx1 : is_Some (objs s1 !! x)).
  { specialize (Hcore1 x Hxs). rewrite Hox in Hcore1. destruct (objs s1 !! x); [eauto|done]. }
  destruct Hx1 as [ox1 Hx1]. unfold free_cache_obj. rewrite Hx1.
  set (s2 := set_objs (delete x (objs s1)) s1).
  assert (Hout2 : forall y, y <> x -> objs s2 !! y = objs s1 !! y)
    by (intros; simpl; by rewrite lookup_delete_ne).
  assert (Hxn : objs s2 !! x = None) by (simpl; by rewrite lookup_delete_eq).
  assert (Hr2 : relocated ht (rename x slot) s s2 L).
  { eapply (relocated_trans ht (rename x slot) id s s1 s2); [done|].
    apply relocated_same; [|done]. intros y Hy.
    apply (rename_list_elem L x slot y) in Hy; [|apply HBi; set_solver|by left].
    rewrite Hout2; [done|]. destruct Hy as [->|[? _]]; done. }
  assert (HxB : forall j, x ∈ B j -> j = i).
  { intros j Hj. apply (tab_disj _ T _ _ x Hj). rewrite HB. set_solver. }
  assert (HslB : forall j, slot ∈ B j -> j = i) by (intros j Hj; by apply (tab_slot _ T) in Hj as [_ ->]).
  exists s2, (rename x slot). split_and!; [done| |done].
  assert (Hdom2 : forall y, is_Some (objs s2 !! y) -> y <> x /\ is_Some (objs s !! y)).
  { intros y Hy. destruct (decide (y = x)) as [->|Hyx]; [rewrite Hxn in Hy; by destruct Hy|].
    split; [done|]. rewrite Hout2 in Hy by done.
    destruct (decide (y = slot)) as [->|Hys]; [eauto|]. specialize (Hcore1 y Hys).
    destruct Hy as [oy Hy]. rewrite Hy in Hcore1. destruct (objs s !! y); [eauto|done]. }
  assert (Hmem : forall y, y ∈ rename x slot <$> L <-> y = slot \/ (y <> x /\ y ∈ L)).
  { intros y. apply rename_list_elem; [apply HBi; set_solver|by left]. }
  eapply (ht_inv_delete s s2 ht B L _ (rename x slot) slot i (slot :: C)); try done.
  - simpl. split_and!; [done| |done|].
    + exists ox. rewrite Hout2, O1 by done. split_and!; [done|done|done|].
      eapply hseg_ext; [apply inb_core| |exact Hs]. intros y Hy.
      rewrite Hout2 by (by intros ->). apply Hcore1. intros ->. apply HsB. set_solver.
    + apply NoDup_cons. split; [|done]. intros Hy. apply HsB. set_solver.
  - intros y. rewrite Hmem, elem_of_cons. split.
    + intros [->|[Hyx HyL]]; [auto|]. assert (y ∈ slot :: L) as [j Hj]%Hlive by set_solver.
      destruct (decide (j = i)) as [->|]; [|right; eauto]. rewrite HB in Hj. set_solver.
    + intros [[->|Hy]|(j & Hji & Hj)]; [auto| |].
      * right. split; [by intros ->|apply HBi; set_solver].
      * right. split; [intros ->; by apply Hji, HxB|].
        assert (y ∈ slot :: L) as Hy by (apply Hlive; eauto).
        apply elem_of_cons in Hy as [->|]; [|done]. by apply HslB in Hj.
  - intros y j Hji Hj. rewrite Hout2; [|intros ->; by apply Hji, HxB].
    apply Hcore1. intros ->. by apply Hji, HslB.
  - intros j Hji Hj HBj. rewrite Hout2 by (intros <-; done). rewrite Out1; [done| |unfold slot; congruence].
    intros Hy. assert (TabSlot (table ht) j ∈ slot :: L) as [k Hk]%Hlive by set_solver.
    apply (tab_slot _ T) in Hk as Hk'. destruct Hk' as [_ <-]. rewrite HBj in Hk.
    by apply not_elem_of_nil in Hk.
  - intros y [Hyx Hy]%Hdom2. rewrite Hmem. destruct (Hdom y Hy) as [Hy'|?]; [|by right].
    apply elem_of_cons in Hy' as [->|?]; auto.
  - intros n Hn. apply Hdom2 in Hn as [_ Hn]. simpl. rewrite F1. by apply Hfr.
Qed.

(** deleting the only object of a bucket empties the slot *)
Lemma delete_only s ht B L i :
  let slot := TabSlot (table ht) i in
  ht_inv s ht B (slot :: L) -> linked (objs s) L -> in_range ht i -> B i = [slot] ->
  Z.of_nat (length L) < 2 ^ 60 ->
  exists s', store_upd (fun _ => zero_obj) s (Some slot) = Ok s' /\
    HT s' (set_n_cur_item (u64 (n_cur_item ht - 1)) ht) L /\ relocated ht id s s' L.
Proof.
  intros slot HI Hlk Hi HB Hlen. pose proof HI as [T Hlive Hnd Hids Hdom Hfr HfrT Hc Hm].
  apply NoDup_cons in Hnd as [HsL Hnd].
  destruct (bucket_slot _ _ _ _ _ (tk_bucket _ _ _ _ T i Hi)) as (os & Hos & _).
  fold slot in Hos. rewrite (store_upd_Some _ _ _ _ Hos).
  set (s' := set_objs (<[slot := zero_obj]> (objs s)) s).
  assert (Hout : forall x, x <> slot -> objs s' !! x = objs s !! x)
    by (intros; simpl; by rewrite lookup_insert_ne).
  assert (Hr : relocated ht id s s' L).
  { apply relocated_same; [|done]. intros x Hx. rewrite Hout; [done|]. by intros ->. }
  assert (HslB : forall j, slot ∈ B j -> j = i) by (intros j Hj; by apply (tab_slot _ T) in Hj as [_ ->]).
  exists s'. split_and!; [done| |done].
  eapply (ht_inv_delete s s' ht B L L id slot i []); try done.
  - by rewrite list_fmap_id.
  - simpl. by rewrite lookup_insert_eq.
  - intros x. split.
    + intros Hx. right. assert (x ∈ slot :: L) as [j Hj]%Hlive by set_solver.
      exists j. split; [|done]. intros ->. rewrite HB in Hj. set_solver.
    + intros [Hx|(j & Hji & Hj)]; [by apply not_elem_of_nil in Hx|].
      assert (x ∈ slot :: L) as Hx by (apply Hlive; eauto).
      apply elem_of_cons in Hx as [->|]; [|done]. by apply HslB in Hj.
  - intros x j Hji Hj. rewrite Hout; [done|]. intros ->. by apply Hji, HslB.
  - intros j Hji _ _. apply Hout. unfold slot. congruence.
  - intros x Hx. destruct (decide (x = slot)) as [->|Hxs]; [right; by exists i|].
    rewrite Hout in Hx by done. destruct (Hdom x Hx) as [Hx'|?]; [|by right].
    apply elem_of_cons in Hx' as [->|?]; [done|by left].
  - intros n Hn. rewrite Hout in Hn by done. by apply Hfr.
Qed.

(** deleting any other object bridges the chain over it and frees it *)
Lemma delete_chained s ht B L i C1 a d C2 oa od :
  ht_inv s ht B (d :: L) -> linked (objs s) L -> in_range ht i -> B i = C1 ++ a :: d :: C2 ->
  objs s !! a = Some oa -> objs s !! d = Some od -> Z.of_nat (length L) < 2 ^ 60 ->
  let s1 := set_objs (<[a := set_hash_next (hash_next od) oa]> (objs s)) s in
  exists s', free_cache_obj s1 d = Ok s' /\
    HT s' (set_n_cur_item (u64 (n_cur_item ht - 1)) ht) L /\ relocated ht id s s' L.
Proof.
  intros HI Hlk Hi HB Hoa Hod Hlen s1. pose proof HI as [T Hlive Hnd Hids Hdom Hfr HfrT Hc Hm].
  apply NoDup_cons in Hnd as [HdL Hnd].
  pose proof (tk_bucket _ _ _ _ T i Hi) as Hb. rewrite HB in Hb.
  pose proof (bucket_nodup _ _ _ _ _ Hb) as HndB.
  pose proof (bucket_hseg _ _ _ _ _ Hb) as Hs.
  assert (Hda : d <> a).
  { intros ->. apply NoDup_app in HndB as (_ & _ & HndB). apply NoDup_cons in HndB as [HndB _].
    set_solver. }
  assert (HdC : d ∉ C1 ++ a :: C2 /\ NoDup (C1 ++ a :: C2)).
  { replace (C1 ++ a :: d :: C2) with ((C1 ++ [a]) ++ d :: C2) in HndB by (by rewrite <- app_assoc).
    rewrite <- Permutation_middle, <- app_assoc in HndB. by apply NoDup_cons in HndB. }
  destruct HdC as [HdC HndC].
  assert (HaC2 : a ∉ C2).
  { apply NoDup_app in HndC as (_ & _ & HndC). by apply NoDup_cons in HndC as []. }
  assert (HaC1 : a ∉ C1) by (intros Hin; apply NoDup_app in HndC as (_ & HndC & _); apply (HndC a Hin); set_solver).
  assert (Hod1 : objs s1 !! d = Some od) by (simpl; by rewrite lookup_insert_ne).
  unfold free_cache_obj. rewrite Hod1. set (s' := set_objs (delete d (objs s1)) s1).
  assert (Hout : forall x, x <> d -> x <> a -> objs s' !! x = objs s !! x).
  { intros. simpl. by rewrite lookup_delete_ne, lookup_insert_ne. }
  assert (Ha' : objs s' !! a = Some (set_hash_next (hash_next od) oa)).
  { simpl. by rewrite lookup_delete_ne, lookup_insert_eq. }
  assert (Hd' : objs s' !! d = None) by (simpl; by rewrite lookup_delete_eq).
  assert (Hr : relocated ht id s s' L).
  { apply relocated_same; [|done]. intros x Hx. assert (x <> d) by (by intros ->).
    destruct (decide (x = a)) as [->|]; [by rewrite Ha', Hoa|]. by rewrite Hout. }
  assert (HinB : forall x j, x ∈ C1 ++ a :: d :: C2 -> x ∈ B j -> j = i).
  { intros x j Hx Hj. apply (tab_disj _ T _ _ x Hj). by rewrite HB. }
  exists s'. split_and!; [done| |done].
  eapply (ht_inv_delete s s' ht B L L id d i (C1 ++ a :: C2)); try done.
  - by rewrite list_fmap_id.
  - assert (Hs' : hseg (inb hash ht i) (objs s') (C1 ++ a :: C2) None).
    { apply hseg_app in Hs as [Hs1 (oa' & Hoa' & Hina & Hna & od' & Hod' & _ & Hnd' & Hs2)].
      assert (od' = od) as -> by congruence. assert (oa' = oa) as -> by congruence.
      apply hseg_app. split.
      - eapply hseg_ext; [apply inb_core| |exact Hs1]. intros x Hx.
        rewrite Hout; [done|intros ->; apply HdC; set_solver|by intros ->].
      - exists (set_hash_next (hash_next od) oa). split_and!; [done|done|done|].
        eapply hseg_ext; [apply inb_core| |exact Hs2]. intros x Hx.
        rewrite Hout; [done|intros ->; apply HdC; set_solver|by intros ->]. }
    destruct C1 as [|x C1]; simpl in Hb |- *.
    + destruct Hb as (-> & _ & Hh & _). split_and!; [done|exact Hs'| |exact HndC].
      by apply Forall_cons in Hh as [_ ?].
    + destruct Hb as (-> & _ & Hh & _). split_and!; [done|exact Hs'| |exact HndC].
      rewrite Forall_app, !Forall_cons in Hh. rewrite Forall_app, Forall_cons. tauto.
  - intros x. split.
    + intros Hx. assert (x ∈ d :: L) as [j Hj]%Hlive by set_solver.
      destruct (decide (j = i)) as [->|]; [left|right; eauto]. rewrite HB in Hj.
      assert (x <> d) by (by intros ->). set_solver.
    + intros Hx. assert (x <> d) as Hxd.
      { intros ->. destruct Hx as [?|(j & Hji & Hj)]; [done|]. apply Hji, (HinB d j); set_solver. }
      assert (x ∈ d :: L) as Hx'; [|set_solver]. apply Hlive.
      destruct Hx as [Hx|(j & _ & Hj)]; [|eauto]. exists i. rewrite HB. set_solver.
  - intros x j Hji Hj. rewrite Hout; [done| |]; intros ->; apply Hji; (eapply HinB; [|exact Hj]); set_solver.
  - intros j Hji Hj HBj. destruct (bucket_slot _ _ _ _ _ (tk_bucket _ _ _ _ T j Hj)) as (oj & Hoj & _).
    assert (Hne : forall x, x ∈ B i -> x <> TabSlot (table ht) j).
    { intros x Hx ->. apply (tab_slot _ T) in Hx as [_ ?]. done. }
    rewrite Hout; [done| |]; intros Heq; (eapply Hne; [|symmetry; exact Heq]); rewrite HB; set_solver.
  - intros x Hx. destruct (decide (x = d)) as [->|Hxd]; [rewrite Hd' in Hx; by destruct Hx|].
    assert (is_Some (objs s !! x)) as Hx'.
    { destruct (decide (x = a)) as [->|]; [eauto|]. by rewrite Hout in Hx. }
    destruct (Hdom x Hx') as [Hx2|?]; [left; set_solver|by right].
  - intros n Hn. apply Hfr. destruct (decide (HeapObj n = d)) as [E|]; [rewrite E, Hd' in Hn; by destruct Hn|].
    destruct (decide (HeapObj n = a)) as [->|]; [eauto|]. by rewrite Hout in Hn.
Qed.

(** chained_hashtable_delete, for an object already unlinked: the other objects stay in
    the table, at most one of them at a new address. *)
Lemma chained_hashtable_delete_spec s ht L d :
  HT s ht (d :: L) -> linked (objs s) L -> detached ht s d -> Z.of_nat (length L) < 2 ^ 60 ->
  exists ht' s' f, chained_hashtable_delete hash s ht d = Ok (ht', s') /\
    HT s' ht' (f <$> L) /\ relocated ht f s s' L /\
    monitored_ptrs ht' = monitored_ptrs ht /\ n_lookup ht' = n_lookup ht.
Proof.
  intros (B & HI) Hlk Hdet Hlen. pose proof HI as [T Hlive Hnd Hids Hdom Hfr HfrT Hc Hm].
  assert (d ∈ d :: L) as [i HdB]%Hlive by set_solver.
  destruct (tab_elem _ T _ _ HdB) as (Hi & Hk & od & Hod & Hsz & Hbk).
  set (ht1 := set_n_cur_item (u64 (n_cur_item ht - 1)) ht).
  pose proof (tk_bucket _ _ _ _ T i Hi) as Hb.
  destruct (bucket_slot _ _ _ _ _ Hb) as (b & Hbs & He & _ & Hhd).
  unfold chained_hashtable_delete. fold ht1. rewrite (deref_Some _ _ _ Hod). cbn [rbind].
  assert (bucket_of hash ht1 (obj_id_int od) = i) as -> by done.
  change (table ht1) with (table ht). rewrite (deref_Some _ _ _ Hbs). cbn [rbind].
  assert (HBne : B i <> []) by (intros E; rewrite E in HdB; by apply not_elem_of_nil in HdB).
  rewrite He. rewrite bool_decide_eq_false_2 by done. cbn [negb cassert rbind].
  specialize (Hhd HBne). destruct (B i) as [|y C] eqn:EB; [done|]. injection Hhd as ->.
  destruct (decide (d = TabSlot (table ht) i)) as [->|Hds].
  - assert (b = od) as -> by congruence.
    destruct Hb as (_ & (o' & Ho' & _ & Hn & Hs) & _). assert (o' = od) as -> by congruence.
    rewrite Hn. destruct C as [|x C]; cbn [hd_or].
    + change (delete_obj_in_table s ht1) with (delete_obj_in_table s ht).
      rewrite delete_obj_in_table_spec by eauto. cbn [rbind].
      destruct (delete_only s ht B L i HI Hlk Hi EB Hlen) as (s' & -> & HH & Hr). cbn [rbind].
      exists ht1, s', id. split_and!; [done| |done|done|done]. by rewrite list_fmap_id.
    + change (move_obj_to_new_loc s ht1) with (move_obj_to_new_loc s ht).
      destruct (delete_first s ht B L i x C HI Hlk Hi EB Hlen) as (s' & f & E & HH & Hr).
      destruct (move_obj_to_new_loc s ht (TabSlot (table ht) i) x) as [s1|]; [|done].
      cbn [rbind] in E |- *. rewrite E. cbn [rbind].
      exists ht1, s', f. done.
  - apply elem_of_cons in HdB as [?|HdC]; [done|].
    apply list_elem_of_split in HdC as (C1 & C2 & ->).
    assert (Hdec : exists D a, TabSlot (table ht) i :: C1 = D ++ [a]).
    { destruct (exists_last (l := TabSlot (table ht) i :: C1)) as (D & a & ->); eauto. }
    destruct Hdec as (D & a & HD).
    assert (HBi : B i = D ++ a :: d :: C2).
    { rewrite EB. change (?x :: C1 ++ d :: C2) with ((x :: C1) ++ d :: C2). rewrite HD.
      by rewrite <- app_assoc. }
    rewrite <- EB in Hb. pose proof (bucket_fuel _ _ _ _ _ Hb) as Hfuel.
    pose proof (bucket_nodup _ _ _ _ _ Hb) as HndB. pose proof (bucket_hseg _ _ _ _ _ Hb) as Hs.
    rewrite HBi in Hfuel, HndB, Hs. rewrite length_app in Hfuel. simpl in Hfuel.
    rewrite (find_prev_in_chain_spec _ s D a d C2 (chain_fuel s) (TabSlot (table ht) i) HndB Hs);
      [|unfold chain_fuel; lia|by rewrite <- HBi, EB].
    cbn [rbind]. rewrite bool_decide_eq_true_2 by done. cbn [cassert rbind].
    destruct (hseg_elem _ _ _ _ a Hs) as (oa & Hoa & _); [set_solver|].
    rewrite (store_upd_Some _ _ _ _ Hoa). cbn [rbind].
    destruct (delete_chained s ht B L i D a d C2 oa od HI Hlk Hi HBi Hoa Hod Hlen)
      as (s' & Ef & HH & Hr).
    set (s1 := set_objs (<[a:=set_hash_next (hash_next od) oa]> (objs s)) s) in *.
    change (delete_obj_in_table s1 ht1) with (delete_obj_in_table s1 ht).
    rewrite delete_obj_in_table_spec.
    + cbn [rbind]. rewrite Ef. cbn [rbind]. exists ht1, s', id.
      split_and!; [done| |done|done|done]. by rewrite list_fmap_id.
    + simpl. destruct (decide (a = d)) as [->|]; [rewrite lookup_insert_eq; eauto|].
      rewrite lookup_insert_ne by done. eauto.
    + assert (Hl1 : forall x ox, objs s1 !! x = Some ox -> exists ox', objs s !! x = Some ox' /\
                 list_next ox' = list_next ox /\ list_prev ox' = list_prev ox).
      { intros x ox. simpl. destruct (decide (a = x)) as [->|].
        - rewrite lookup_insert_eq. intros [= <-]. eauto.
        - rewrite lookup_insert_ne by done. eauto. }
      assert (Hl2 : forall x ox, objs s !! x = Some ox -> exists ox', objs s1 !! x = Some ox' /\
                 list_next ox' = list_next ox /\ list_prev ox' = list_prev ox).
      { intros x ox Hox. simpl. destruct (decide (a = x)) as [->|].
        - rewrite lookup_insert_eq. assert (ox = oa) as -> by congruence. eauto.
        - rewrite lookup_insert_ne by done. eauto. }
      destruct Hdet as [Dp Dn Dm]. split; [| |exact Dm].
      * intros o x Ho Hx. destruct (Hl1 d o Ho) as (o' & Ho' & En & Ep).
        destruct (Dp o' x Ho') as (Hne & ox & Hox & Hxn); [congruence|].
        split; [done|]. destruct (Hl2 x ox Hox) as (ox' & ? & ? & ?). exists ox'. split; [done|congruence].
      * intros o x Ho Hx. destruct (Hl1 d o Ho) as (o' & Ho' & En & Ep).
        destruct (Dn o' x Ho') as (Hne & ox & Hox & Hxn); [congruence|].
        split; [done|]. destruct (Hl2 x ox Hox) as (ox' & ? & ? & ?). exists ox'. split; [done|congruence].
Qed.

(** *** Random choice, iteration, integrity and release *)

Lemma land_mask_mod x p : 0 <= p -> Z.land x (2 ^ p - 1) = x mod 2 ^ p.
Proof.
  intros. replace (2 ^ p - 1) with (Z.ones p) by (rewrite Z.ones_equiv; lia). by apply Z.land_ones.
Qed.

Lemma rand_probe_spec s ht B fuel pos j :
  tab_ok hash ht (objs s) B -> in_range ht pos -> in_range ht j -> B j <> [] ->
  (j - pos) mod 2 ^ hash_power ht < Z.of_nat fuel ->
  exists i, rand_probe fuel s ht pos = Ok (TabSlot (table ht) i) /\ TabSlot (table ht) i ∈ B i.
Proof.
  intros T. pose proof (tk_pow _ _ _ _ T) as Hpow.
  assert (Hpos : 0 < 2 ^ hash_power ht) by (apply Z.pow_pos_nonneg; lia).
  revert pos; induction fuel as [|fuel IH]; intros pos Hp Hj HB Hd.
  { pose proof (Z.mod_pos_bound (j - pos) _ Hpos). lia. }
  simpl. destruct (bucket_slot _ _ _ _ _ (tk_bucket _ _ _ _ T pos Hp)) as (o & Ho & He & _).
  rewrite Ho. cbn [rbind]. rewrite He. case_bool_decide as HBp.
  - unfold in_range in *. rewrite hashmask_pow, land_mask_mod by lia.
    assert (2 ^ hash_power ht <= 2 ^ 62) by (apply Z.pow_le_mono_r; lia).
    rewrite u64_small by lia.
    assert (Hne : pos <> j) by (by intros ->).
    apply IH; [by apply Z.mod_pos_bound|done|done|].
    rewrite Zminus_mod_idemp_r.
    assert ((j - pos) mod 2 ^ hash_power ht <> 0) as Hnz.
    { intros E. apply Hne. apply Z.mod_divide in E as [k Hk]; [|lia].
      assert (k = 0) by nia. lia. }
    replace ((j - (pos + 1)) mod 2 ^ hash_power ht) with ((j - pos) mod 2 ^ hash_power ht - 1); [lia|].
    pose proof (Z.mod_pos_bound (j - pos) _ Hpos).
    replace (j - (pos + 1)) with (j - pos - 1) by lia.
    apply (Z.mod_unique_pos _ _ ((j - pos) / 2 ^ hash_power ht)); [lia|].
    pose proof (Z.div_mod (j - pos) (2 ^ hash_power ht)). lia.
  - exists pos. split; [done|]. by apply (tab_slot_in _ T).
Qed.

(** chained_hashtable_rand_obj ends, and returns an object of the table. *)
Lemma chained_hashtable_rand_obj_spec s ht L seed :
  HT s ht L -> L <> [] ->
  exists l, chained_hashtable_rand_obj s ht seed = Ok (l, next_rand seed) /\ l ∈ L.
Proof.
  intros (B & [T Hlive _ _ _ _ _ _ _]) HL. pose proof (tk_pow _ _ _ _ T) as Hpow.
  destruct L as [|x L]; [done|]. assert (x ∈ x :: L) as [j Hj]%Hlive by set_solver.
  destruct (tab_elem _ T _ _ Hj) as (Hjr & _).
  unfold chained_hashtable_rand_obj.
  destruct (rand_probe_spec s ht B (Z.to_nat (hashsize (hash_power ht)))
    (Z.land (next_rand seed) (hashmask (hash_power ht))) j T) as (i & E & Hi).
  - unfold in_range. rewrite hashmask_pow by lia. apply land_mask_range. lia.
  - done.
  - intros E. rewrite E in Hj. by apply not_elem_of_nil in Hj.
  - rewrite hashsize_pow by lia. rewrite Z2Nat.id by (apply Z.pow_nonneg; lia).
    apply Z.mod_pos_bound, Z.pow_pos_nonneg; lia.
  - rewrite E. cbn [rbind]. exists (TabSlot (table ht) i). split; [done|]. apply Hlive. eauto.
Qed.

(** chained_hashtable_foreach calls its function once on every object of the table. *)
Lemma chained_hashtable_foreach_spec s ht L :
  HT s ht L -> exists L', chained_hashtable_foreach s ht = Ok L' /\ L' ≡ₚ L.
Proof.
  intros (B & [T Hlive Hnd _ _ _ _ _ _]). pose proof (tk_pow _ _ _ _ T) as Hpow.
  exists (concat (B <$> slots (hash_power ht))). split.
  - unfold chained_hashtable_foreach.
    destruct (rfold_inv (fun acc i =>
           let slot := TabSlot (table ht) i in
           let! o := deref s (Some slot) in
           if OBJ_EMPTY o then Ok acc
           else let! c := chain_objs (chain_fuel s) s slot in Ok (acc ++ c))
      (fun done acc => acc = concat (B <$> done)) (slots (hash_power ht)) [])
      as (acc & E & ->); [done| |done].
    intros dn j acc [rest Hrest] ->.
    assert (Hj : in_range ht j).
    { apply elem_of_slots; [lia|]. rewrite Hrest. set_solver. }
    pose proof (tk_bucket _ _ _ _ T j Hj) as Hb.
    destruct (bucket_slot _ _ _ _ _ Hb) as (o & Ho & He & _ & Hhd).
    cbv zeta. rewrite (deref_Some _ _ _ Ho). cbn [rbind]. rewrite He.
    rewrite fmap_app, concat_app. cbn [fmap list_fmap concat]. rewrite app_nil_r. case_bool_decide as HB.
    + rewrite HB, app_nil_r. eauto.
    + rewrite (chain_objs_spec (inb hash ht j) s (B j)); [cbn [rbind]; eauto|by eapply bucket_hseg| |].
      * pose proof (bucket_fuel _ _ _ _ _ Hb). unfold chain_fuel. lia.
      * specialize (Hhd HB). destruct (B j); [done|exact Hhd].
  - apply NoDup_Permutation; [|done|].
    + apply nodup_concat; [apply slots_nodup| |].
      * intros j Hj. apply elem_of_slots in Hj; [|lia].
        eapply bucket_nodup, (tk_bucket _ _ _ _ T j Hj).
      * intros i j x. apply (tab_disj _ T).
    + intros x. rewrite Hlive, elem_of_concat_fmap. split; [naive_solver|].
      intros [j Hj]. exists j. split; [|done]. apply elem_of_slots; [lia|].
      by destruct (tab_elem _ T _ _ Hj).
Qed.

Lemma check_chain_spec s ht i C fuel :
  hseg (inb hash ht i) (objs s) C None -> (length C < fuel)%nat ->
  check_chain hash fuel s ht i (hd_or None C) = Ok tt.
Proof.
  revert fuel; induction C as [|x C IH]; intros fuel; (destruct fuel as [|fuel]; [simpl; lia|]); [done|].
  intros (o & Ho & [Hsz Hbk] & Hn & Hs) Hf. cbn [check_chain hd_or deref]. rewrite Ho. cbn [rbind].
  assert (OBJ_EMPTY o = false) as -> by (unfold OBJ_EMPTY; by case_bool).
  rewrite Hbk, Z.eqb_refl. cbn [cassert rbind]. rewrite Hn. apply IH; [done|simpl in Hf; lia].
Qed.

(** No assertion of check_chained_hashtable_integrity fails. *)
Lemma check_chained_hashtable_integrity_spec s ht L :
  HT s ht L -> check_chained_hashtable_integrity hash s ht = Ok tt.
Proof.
  intros (B & [T _ _ _ _ _ _ _ _]). pose proof (tk_pow _ _ _ _ T) as Hpow.
  unfold check_chained_hashtable_integrity.
  destruct (rfold_inv (fun (_ : unit) i => check_chain hash (chain_fuel s) s ht i (Some (TabSlot (table ht) i)))
    (fun _ _ => True) (slots (hash_power ht)) tt) as ([] & E & _); [done| |done].
  intros dn j [] [rest Hrest] _. exists tt. split; [|done].
  assert (Hj : in_range ht j) by (apply elem_of_slots; [lia|]; rewrite Hrest; set_solver).
  pose proof (tk_bucket _ _ _ _ T j Hj) as Hb.
  destruct (bucket_slot _ _ _ _ _ Hb) as (o & Ho & He & _ & Hhd).
  destruct (decide (B j = [])) as [HB|HB].
  - unfold chain_fuel. simpl. rewrite Ho. cbn [rbind]. rewrite He, HB. done.
  - rewrite <- (Hhd HB). apply check_chain_spec; [by eapply bucket_hseg|].
    pose proof (bucket_fuel _ _ _ _ _ Hb). unfold chain_fuel. lia.
Qed.

(** free_chained_hashtable gives back every object, none of them twice. *)
Lemma free_chained_hashtable_spec s ht L :
  HT s ht L -> exists s', free_chained_hashtable s ht = Ok s' /\ objs s' = ∅.
Proof.
  intros (B & [T Hlive Hnd _ Hdom _ _ _ _]). pose proof (tk_pow _ _ _ _ T) as Hpow.
  unfold free_chained_hashtable.
  pose (I := fun (done : list Z) s' =>
    (forall l, is_heap l -> (exists j, j ∈ done /\ l ∈ B j) -> objs s' !! l = None) /\
    (forall l, (~ is_heap l \/ forall j, j ∈ done -> l ∉ B j) -> objs s' !! l = objs s !! l)).
  destruct (rfold_inv (fun s i =>
             let! o := deref s (Some (TabSlot (table ht) i)) in
             if OBJ_EMPTY o then Ok s else free_chain (chain_fuel s) s (hash_next o))
     I (slots (hash_power ht)) s) as (s1 & -> & I1 & I2).
  - split; [|done]. intros l _ (j & Hj & _). by apply not_elem_of_nil in Hj.
  - intros dn j s1 [rest Hrest] [I1 I2].
    assert (Hj : in_range ht j) by (apply elem_of_slots; [lia|]; rewrite Hrest; set_solver).
    assert (Hjn : j ∉ dn).
    { pose proof (slots_nodup (hash_power ht)) as Hn. rewrite Hrest in Hn.
      apply NoDup_app in Hn as (_ & Hn & _). intros Hin. apply (Hn j Hin). set_solver. }
    pose proof (tk_bucket _ _ _ _ T j Hj) as Hb.
    assert (Hsame : forall l, l ∈ B j \/ l = TabSlot (table ht) j -> objs s1 !! l = objs s !! l).
    { intros l [Hl| ->]; apply I2; [|left; by intros []].
      right. intros k Hk Hlk. apply Hjn. by rewrite (tab_disj _ T j k l). }
    destruct (bucket_slot _ _ _ _ _ Hb) as (o & Ho & He & _ & Hhd).
    rewrite <- Hsame in Ho by auto. rewrite (deref_Some _ _ _ Ho). cbn [rbind]. rewrite He.
    case_bool_decide as HB.
    + exists s1. split; [done|]. split.
      * intros l Hh (k & Hk & Hl). apply elem_of_app in Hk as [Hk|Hk]; [eauto|].
        apply list_elem_of_singleton in Hk as ->. rewrite HB in Hl. by apply not_elem_of_nil in Hl.
      * intros l [Hl|Hl]; apply I2; [by left|right; intros k Hk; apply Hl; set_solver].
    + destruct (B j) as [|y C] eqn:EB; [done|].
      assert (Hs1 : hseg (inb hash ht j) (objs s1) (y :: C) None).
      { eapply hseg_ext; [apply inb_core| |by eapply bucket_hseg]. intros x Hx. by rewrite Hsame by auto. }
      pose proof (bucket_nodup _ _ _ _ _ Hb) as HndB.
      destruct Hb as (-> & _ & Hh & _).
      assert (Hfuel : (length (TabSlot (table ht) j :: C) <= size (objs s1))%nat) by (by eapply hseg_fuel).
      destruct Hs1 as (o' & Ho' & _ & Hn & Hs1). assert (o' = o) as -> by congruence. rewrite Hn.
      apply NoDup_cons in HndB as [HyC HndC].
      destruct (free_chain_spec (inb hash ht j) (inb_core hash ht j) s1 C (chain_fuel s1)) as (s2 & E2 & _ & D1 & D2);
        [done|exact Hs1|unfold chain_fuel; simpl in Hfuel; lia|].
      exists s2. split; [done|]. split.
      * intros l Hhl (k & Hk & Hl). destruct (decide (l ∈ C)) as [HlC|HlC]; [by apply D1|].
        rewrite D2 by done. apply elem_of_app in Hk as [Hk|Hk]; [apply I1; eauto|].
        apply list_elem_of_singleton in Hk as ->. rewrite EB in Hl.
        apply elem_of_cons in Hl as [->|?]; done.
      * intros l Hl. rewrite D2.
        -- apply I2. destruct Hl as [Hl|Hl]; [by left|right; intros k Hk; apply Hl; set_solver].
        -- intros HlC. destruct Hl as [Hl|Hl]; [by eapply Forall_forall in Hh|].
           apply (Hl j); [set_solver|]. rewrite EB. set_solver.
  - cbn [rbind]. exists (free_table s1 (table ht) (hash_power ht)). split; [done|].
    apply map_eq. intros l. rewrite lookup_empty. unfold free_table. simpl. rewrite free_lookup.
    assert (Hsl : forall j, j ∈ slots (hash_power ht) <-> in_range ht j) by (intros; apply elem_of_slots; lia).
    destruct l as [t j|n].
    + case_decide as Hd; [done|]. rewrite I2 by (left; by intros []).
      apply eq_None_not_Some. intros [Hl|(k & Hk & [= -> ->])]%Hdom.
      * apply Hlive in Hl as [k Hk]. apply (tab_slot _ T) in Hk as Hk'. destruct Hk' as [-> ->].
        apply Hd. split; [done|]. apply Hsl. by destruct (tab_elem _ T _ _ Hk).
      * apply Hd. split; [done|]. by apply Hsl.
    + destruct (decide (HeapObj n ∈ L)) as [Hl|Hl].
      * apply Hlive in Hl as [k Hk]. apply I1; [done|]. exists k. split; [|done].
        apply Hsl. by destruct (tab_elem _ T _ _ Hk).
      * rewrite I2; [|right; intros k _ Hk; apply Hl, Hlive; eauto].
        apply eq_None_not_Some. intros [?|(k & _ & [=])]%Hdom. done.
Qed.
End spec.
