(* ===== verification/Cache.v ===== *)
(** * The cache and its replacement policies
      (cache/cache.c, evictionAlgo/LRU.c, FIFO.c, MRU.c, Random.c)

    A state is the object store, the cache structure and the seed of next_rand.  The
    list_head and list_tail fields are pointer variables of the store, because the hash
    table updates them through the addresses registered by cache_struct_init.  A policy is
    the table of functions cache_struct_init looks up by name; cache_get only calls
    through it. *)

From S2P Require Import Prelude.
From S2P Require Import Store.
From S2P Require Import HashTable.

Record cache_t := mk_cache {
  c_hashtable : hashtable;
  list_head : N;              (* &cache->list_head *)
  list_tail : N;              (* &cache->list_tail *)
  req_cnt : Z;                (* uint64_t, like the following *)
  cache_size : Z;
  occupied_size : Z;
  n_obj : Z;
  default_ttl : Z
}.

Record state := mk_state { st_store : store; st_cache : cache_t; st_seed : Z }.

Record common_cache_params_t := mk_params {
  p_cache_size : Z;           (* gint64 *)
  p_default_ttl : Z;          (* gint64 *)
  p_hash_power : Z            (* int *)
}.

(** the cache.get, check, insert, evict and remove_obj function pointers that cache_get
    and the simulators call *)
Record cache_ops := mk_ops {
  op_check : state -> request -> bool -> result (cache_ck_res_e * state * request);
  op_insert : state -> request -> result state;
  op_evict : state -> request -> result (cache_obj * state)
}.

Definition set_table_of (ht : hashtable) (c : cache_t) : cache_t :=
  mk_cache ht (list_head c) (list_tail c) (req_cnt c) (cache_size c) (occupied_size c)
    (n_obj c) (default_ttl c).
Definition set_occupied (v : Z) (c : cache_t) : cache_t :=
  mk_cache (c_hashtable c) (list_head c) (list_tail c) (req_cnt c) (cache_size c) v
    (n_obj c) (default_ttl c).
Definition set_n_obj (v : Z) (c : cache_t) : cache_t :=
  mk_cache (c_hashtable c) (list_head c) (list_tail c) (req_cnt c) (cache_size c)
    (occupied_size c) v (default_ttl c).
Definition set_req_cnt (v : Z) (c : cache_t) : cache_t :=
  mk_cache (c_hashtable c) (list_head c) (list_tail c) v (cache_size c)
    (occupied_size c) (n_obj c) (default_ttl c).

Definition with_occupied (v : Z) (c : state) : state :=
  mk_state (st_store c) (set_occupied v (st_cache c)) (st_seed c).
Definition with_store (s : store) (c : state) : state := mk_state s (st_cache c) (st_seed c).

Definition HASH_POWER_DEFAULT : Z := 24.

(** cache_struct_init, the function table apart: the two list pointers are new variables *)
Definition cache_struct_init (s : store) (params : common_cache_params_t) (seed : Z) : state :=
  let hash_power :=
    if (0 <? p_hash_power params) && (p_hash_power params <? 40)
    then p_hash_power params else HASH_POWER_DEFAULT in
  let hd := fresh s in
  let tl := (fresh s + 1)%N in
  let s := mk_store (objs s) (<[tl := None]> (<[hd := None]> (cells s))) (fresh s + 2) in
  let '(ht, s) := create_chained_hashtable s hash_power in
  let ht := chained_hashtable_add_ptr_to_monitoring ht hd in
  let ht := chained_hashtable_add_ptr_to_monitoring ht tl in
  mk_state s
    (mk_cache ht hd tl 0 (u64 (p_cache_size params)) 0 0 (u64 (p_default_ttl params))) seed.

Definition create_cache_with_new_size (s : store) (old_cache : cache_t) (new_size seed : Z) : state :=
  cache_struct_init s (mk_params new_size (i64 (default_ttl old_cache)) 0) seed.

Section cache.
  Variable get_hash_value_int_64 : Z -> Z.
  #[local] Abbreviation hash := get_hash_value_int_64.

(** cache_struct_free *)
Definition cache_struct_free (st : state) : result store :=
  free_chained_hashtable (st_store st) (c_hashtable (st_cache st)).

(** cache_check: the result, the object found (what *cache_obj_ret is set to), the new
    state and the request, whose hv is filled in *)
Definition cache_check (st : state) (req : request) (update_cache : bool)
    : result (cache_ck_res_e * option loc * state * request) :=
  let c := st_cache st in
  let s := st_store st in
  let! '(obj, ht, req) := chained_hashtable_find hash s (c_hashtable c) req in
  let c := set_table_of ht c in
  match obj with
  | None => Ok (cache_ck_miss, None, mk_state s c (st_seed st), req)
  | Some _ =>
      let! o := deref s obj in
      if update_cache && negb (obj_size o =? req_obj_size req) then
        let c := set_occupied (u64 (occupied_size c - obj_size o)) c in
        let c := set_occupied (u64 (occupied_size c + req_obj_size req)) c in
        let! s := store_upd (set_obj_size (u32 (req_obj_size req))) s obj in
        Ok (cache_ck_hit, obj, mk_state s c (st_seed st), req)
      else Ok (cache_ck_hit, obj, mk_state s c (st_seed st), req)
  end.

(** the while loop of cache_get *)
Fixpoint evict_loop (ops : cache_ops) (fuel : nat) (st : state) (req : request) : result state :=
  match fuel with
  | O => Err OutOfFuel
  | S fuel =>
      if occupied_size (st_cache st) >? cache_size (st_cache st) then
        let! '(_, st) := op_evict ops st req in
        evict_loop ops fuel st req
      else Ok st
  end.

(** one eviction per object in the table, and the last test *)
Definition evict_fuel (st : state) : nat := S (Z.to_nat (n_cur_item (c_hashtable (st_cache st)))).

Definition cache_get (ops : cache_ops) (st : state) (req : request)
    : result (cache_ck_res_e * state * request) :=
  let! '(check, st, req) := op_check ops st req true in
  let! st :=
    (if req_obj_size req <=? cache_size (st_cache st) then
       let! st := (match check with
                   | cache_ck_miss => op_insert ops st req
                   | _ => Ok st
                   end) in
       evict_loop ops (evict_fuel st) st req
     else Ok st) in
  let c := st_cache st in
  Ok (check, mk_state (st_store st) (set_req_cnt (u64 (req_cnt c + 1)) c) (st_seed st), req).

Definition cache_insert_LRU (st : state) (req : request) : result (loc * state) :=
  let c := st_cache st in
  let c := set_occupied (u64 (occupied_size c + req_obj_size req)) c in
  let! '(obj, ht, s) := chained_hashtable_insert hash (st_store st) (c_hashtable c) req in
  let c := set_n_obj (u64 (n_obj c + 1)) (set_table_of ht c) in
  let! head := cell_get s (list_head c) in
  let! s :=
    (match head with
     | None =>
         (* an empty list, this is the first insert *)
         Ok (cell_set (cell_set s (list_head c) (Some obj)) (list_tail c) (Some obj))
     | Some _ =>
         let! tail := cell_get s (list_tail c) in
         let! s := store_upd (set_list_next (Some obj)) s tail in
         store_upd (set_list_prev tail) s (Some obj)
     end) in
  Ok (obj, mk_state (cell_set s (list_tail c) (Some obj)) c (st_seed st)).

(** cache_evict; the object copied to *evicted_obj is returned *)
Definition cache_evict (st : state) (req : request) : result (cache_obj * state) :=
  let c := st_cache st in
  let s := st_store st in
  let! obj_to_evict := cell_get s (list_head c) in
  let c := set_n_obj (u64 (n_obj c - 1)) c in
  let! o := deref s obj_to_evict in
  let evicted_obj := o in
  let s := cell_set s (list_head c) (list_next o) in
  let! head := cell_get s (list_head c) in
  let! s := store_upd (set_list_prev None) s head in
  let! o := deref s obj_to_evict in
  let c := set_occupied (u64 (occupied_size c - obj_size o)) c in
  match obj_to_evict with
  | None => Err NullDeref
  | Some l =>
      let! '(ht, s) := chained_hashtable_delete hash s (c_hashtable c) l in
      Ok (evicted_obj, mk_state s (set_table_of ht c) (st_seed st))
  end.

Definition cache_get_obj (st : state) (req : request) : result (option loc * state * request) :=
  let c := st_cache st in
  let! '(obj, ht, req) := chained_hashtable_find hash (st_store st) (c_hashtable c) req in
  Ok (obj, mk_state (st_store st) (set_table_of ht c) (st_seed st), req).

(** *** LRU.c *)

(** LRU_check, and MRU_check which is the same *)
Definition LRU_check (st : state) (req : request) (update_cache : bool)
    : result (cache_ck_res_e * state * request) :=
  let! '(ret, obj, st, req) := cache_check st req update_cache in
  match obj with
  | Some l =>
      if update_cache then
        let c := st_cache st in
        let! s := move_obj_to_tail (st_store st) (list_head c) (list_tail c) l in
        Ok (ret, mk_state s c (st_seed st), req)
      else Ok (ret, st, req)
  | None => Ok (ret, st, req)
  end.

Definition LRU_insert (st : state) (req : request) : result state :=
  let! '(_, st) := cache_insert_LRU st req in Ok st.

Definition LRU_evict (st : state) (req : request) : result (cache_obj * state) :=
  cache_evict st req.

Definition LRU_ops : cache_ops := mk_ops LRU_check LRU_insert LRU_evict.

Definition LRU_get (st : state) (req : request) := cache_get LRU_ops st req.

(** LRU_remove_obj, and FIFO_remove_obj which is the same: the last two statements read
    the object after it has been deleted *)
Definition LRU_remove_obj (st : state) (obj_to_remove : loc) : result state :=
  let c := st_cache st in
  let! '(obj, ht) := chained_hashtable_find_obj hash (st_store st) (c_hashtable c) obj_to_remove in
  match obj with
  | None => Ok (mk_state (st_store st) (set_table_of ht c) (st_seed st))
  | Some l =>
      let! s := remove_obj_from_list (st_store st) (list_head c) (list_tail c) l in
      let! '(ht, s) := chained_hashtable_delete hash s ht l in
      let! o := deref s obj in
      let! _ := cassert (obj_size o <=? occupied_size c) in
      let c := set_occupied (u64 (occupied_size c - obj_size o)) (set_table_of ht c) in
      Ok (mk_state s c (st_seed st))
  end.

(** *** FIFO.c *)

Definition FIFO_check (st : state) (req : request) (update_cache : bool)
    : result (cache_ck_res_e * state * request) :=
  let! '(ret, _, st, req) := cache_check st req update_cache in Ok (ret, st, req).

Definition FIFO_insert (st : state) (req : request) : result state :=
  let! '(_, st) := cache_insert_LRU st req in Ok st.

Definition FIFO_evict (st : state) (req : request) : result (cache_obj * state) :=
  cache_evict st req.

Definition FIFO_ops : cache_ops := mk_ops FIFO_check FIFO_insert FIFO_evict.

Definition FIFO_get (st : state) (req : request) := cache_get FIFO_ops st req.

Definition FIFO_remove_obj (st : state) (obj_to_remove : loc) : result state :=
  LRU_remove_obj st obj_to_remove.

(** *** MRU.c *)

Definition MRU_check := LRU_check.

Definition MRU_insert (st : state) (req : request) : result state :=
  let! '(_, st) := cache_insert_LRU st req in Ok st.

(** MRU_evict; n_obj is not updated *)
Definition MRU_evict (st : state) (req : request) : result (cache_obj * state) :=
  let c := st_cache st in
  let s := st_store st in
  let! obj_to_evict := cell_get s (list_tail c) in
  let! o := deref s obj_to_evict in
  let evicted_obj := o in
  let s := cell_set s (list_tail c) (list_prev o) in
  let! tail := cell_get s (list_tail c) in
  let! s := store_upd (set_list_next None) s tail in
  let! o := deref s obj_to_evict in
  let c := set_occupied (u64 (occupied_size c - obj_size o)) c in
  match obj_to_evict with
  | None => Err NullDeref
  | Some l =>
      let! '(ht, s) := chained_hashtable_delete hash s (c_hashtable c) l in
      Ok (evicted_obj, mk_state s (set_table_of ht c) (st_seed st))
  end.

Definition MRU_ops : cache_ops := mk_ops MRU_check MRU_insert MRU_evict.

Definition MRU_get (st : state) (req : request) := cache_get MRU_ops st req.

(** *** Random.c *)

Definition Random_check := FIFO_check.

Definition Random_insert (st : state) (req : request) : result state :=
  let c := st_cache st in
  let c := set_occupied (u64 (occupied_size c + req_obj_size req)) c in
  let! '(_, ht, s) := chained_hashtable_insert hash (st_store st) (c_hashtable c) req in
  Ok (mk_state s (set_table_of ht c) (st_seed st)).

Definition Random_evict (st : state) (req : request) : result (cache_obj * state) :=
  let c := st_cache st in
  let s := st_store st in
  let! '(obj_to_evict, seed) := chained_hashtable_rand_obj s (c_hashtable c) (st_seed st) in
  let! o := deref s (Some obj_to_evict) in
  let evicted_obj := o in
  let c := set_occupied (u64 (occupied_size c - obj_size o)) c in
  let! '(ht, s) := chained_hashtable_delete hash s (c_hashtable c) obj_to_evict in
  Ok (evicted_obj, mk_state s (set_table_of ht c) seed).

Definition Random_ops : cache_ops := mk_ops Random_check Random_insert Random_evict.

Definition Random_get (st : state) (req : request) := cache_get Random_ops st req.

(** A sequence of requests, as the simulators issue them: each request is read afresh,
    so the hv of one is not seen by the next. *)
Fixpoint run_gets (get : state -> request -> result (cache_ck_res_e * state * request))
    (st : state) (reqs : list request) : result (list cache_ck_res_e * state) :=
  match reqs with
  | [] => Ok ([], st)
  | r :: reqs =>
      let! '(res, st, _) := get st r in
      let! '(ress, st) := run_gets get st reqs in
      Ok (res :: ress, st)
  end.

End cache.
