(* ===== verification/CacheSpec.v ===== *)
(** * Abstract caches, and what a policy must provide

    An abstract cache is the list of its entries (object id, size), oldest first.  The
    class [Policy] states, for the function table of a replacement policy, a relation
    between its concrete states and abstract caches and the effect of its check, insert
    and evict functions on the abstract cache.  From the class alone [cache_get_spec]
    derives what cache_get does: its answer, its effect, that it ends and that no pointer
    it follows is NULL or dangling. *)

From S2P Require Import Prelude.
From S2P Require Import Store.
From S2P Require Import HashTable.
From S2P Require Import Cache.

Abbreviation entry := (Z * Z)%type.

Definition total (a : list entry) : Z := foldr (fun e n => e.2 + n) 0 a.

Definition cached (id : Z) (a : list entry) : bool := existsb (fun e => e.1 =? id) a.

(** remove the entry of an id *)
Definition without (id : Z) (a : list entry) : list entry := filter (fun e => e.1 <> id) a.

(** the size of an entry is overwritten in place *)
Definition resize (id sz : Z) (a : list entry) : list entry :=
  (fun e => if e.1 =? id then (id, sz) else e) <$> a.

(** a request that cache_get is meant for *)
Definition req_ok (hash : Z -> Z) (r : request) : Prop :=
  (req_hv r = 0 \/ req_hv r = hash (req_obj_id_int r)) /\ 0 < req_obj_size r < 2 ^ 32.

Lemma total_app a b : total (a ++ b) = total a + total b.
Proof. induction a as [|e a IH]; simpl; lia. Qed.

Lemma total_nonneg a : Forall (fun e => 0 <= e.2) a -> 0 <= total a.
Proof. induction 1; simpl; lia. Qed.

Lemma total_perm a b : a ≡ₚ b -> total a = total b.
Proof. induction 1; simpl; lia. Qed.

Lemma cached_spec id a : cached id a = true <-> id ∈ a.*1.
Proof.
  unfold cached. rewrite existsb_exists, list_elem_of_fmap. split.
  - intros (e & He & Heq%Z.eqb_eq). exists e. by rewrite list_elem_of_In.
  - intros (e & -> & He). exists e. rewrite <- list_elem_of_In. split; [done|]. apply Z.eqb_refl.
Qed.

Lemma cached_false id a : cached id a = false <-> id ∉ a.*1.
Proof. rewrite <- cached_spec. by destruct (cached id a). Qed.

Lemma resize_ids id sz a : (resize id sz a).*1 = a.*1.
Proof.
  unfold resize. rewrite <- list_fmap_compose. apply list_fmap_ext. intros i [j s] _. simpl.
  by case_bool.
Qed.

Section policy.
  Variable hash : Z -> Z.

(** what is assumed of a state besides its abstraction, with room for [n] more requests *)
Record room (n : Z) (st : state) (a : list entry) : Prop := {
  rm_len : Z.of_nat (length a) + n < 2 ^ 31;
  rm_lookups : 0 <= n_lookup (c_hashtable (st_cache st)) < 2 ^ 64 - 1 - n
}.

(** [rel cap st a]: the state holds [a] in a cache of size [cap].
    [touch]: the effect of a hit; [victim a a']: an eviction may lead from [a] to [a'];
    [evictable a]: the evict function may be called on [a];
    [pre cap a]: what must hold before a request; [safe cap a] what holds while evicting;
    [accept cap sz]: the requests after which [pre] holds again *)
Class Policy (ops : cache_ops) (rel : Z -> state -> list entry -> Prop)
    (touch : Z -> Z -> list entry -> list entry)
    (victim : list entry -> list entry -> Prop)
    (evictable : list entry -> Prop)
    (pre safe : Z -> list entry -> Prop)
    (accept : Z -> Z -> Prop) := {
  pl_cap : forall cap st a, rel cap st a -> cache_size (st_cache st) = cap;
  pl_occupied : forall cap st a, rel cap st a -> occupied_size (st_cache st) = total a;
  pl_items : forall cap st a, rel cap st a ->
    n_cur_item (c_hashtable (st_cache st)) = Z.of_nat (length a);
  pl_req_cnt : forall cap st a v, rel cap st a ->
    rel cap (mk_state (st_store st) (set_req_cnt v (st_cache st)) (st_seed st)) a;
  pl_check : forall cap st a r n, rel cap st a -> room (n + 1) st a -> 0 <= n -> req_ok hash r ->
    exists st' r',
      op_check ops st r true =
        Ok (if cached (req_obj_id_int r) a then cache_ck_hit else cache_ck_miss, st', r') /\
      rel cap st' (if cached (req_obj_id_int r) a
                   then touch (req_obj_id_int r) (req_obj_size r) a else a) /\
      r' = set_req_hv (hash (req_obj_id_int r)) r /\ cache_size (st_cache st') = cap /\
      0 <= n_lookup (c_hashtable (st_cache st')) <= n_lookup (c_hashtable (st_cache st)) + 1;
  pl_insert : forall cap st a r, rel cap st a -> Z.of_nat (length a) < 2 ^ 31 -> req_ok hash r ->
    cached (req_obj_id_int r) a = false ->
    exists st', op_insert ops st r = Ok st' /\
      rel cap st' (a ++ [(req_obj_id_int r, req_obj_size r)]) /\
      n_lookup (c_hashtable (st_cache st')) = n_lookup (c_hashtable (st_cache st));
  pl_evict : forall cap st a r, rel cap st a -> Z.of_nat (length a) <= 2 ^ 31 -> evictable a ->
    exists o st' a', op_evict ops st r = Ok (o, st') /\ rel cap st' a' /\ victim a a' /\
      n_lookup (c_hashtable (st_cache st')) = n_lookup (c_hashtable (st_cache st));
  pl_touch_len : forall id sz a, cached id a = true -> (length (touch id sz a) <= length a)%nat;
  pl_victim_len : forall a a', victim a a' -> length a = S (length a');
  pl_safe_hit : forall cap id sz a, pre cap a -> 0 < sz <= cap -> cached id a = true ->
    safe cap (touch id sz a);
  pl_safe_miss : forall cap id sz a, pre cap a -> 0 < sz <= cap -> safe cap (a ++ [(id, sz)]);
  pl_safe_evictable : forall cap a, 0 <= cap -> safe cap a -> cap < total a -> evictable a;
  pl_safe_victim : forall cap a a', safe cap a -> evictable a -> victim a a' -> safe cap a';
  pl_safe_pre : forall cap a, safe cap a -> pre cap a;
  pl_big_hit : forall cap id sz a, accept cap sz -> cap < sz -> pre cap a -> pre cap (touch id sz a)
}.

(** The evictions of one request: victims leave until the rest fits. *)
Inductive evictions (victim : list entry -> list entry -> Prop) (cap : Z)
    : list entry -> list entry -> Prop :=
  | ev_done a : total a <= cap -> evictions victim cap a a
  | ev_step a a' a'' : cap < total a -> victim a a' -> evictions victim cap a' a'' ->
      evictions victim cap a a''.

(** one request on an abstract cache *)
Definition get_rel (touch : Z -> Z -> list entry -> list entry)
    (victim : list entry -> list entry -> Prop) (cap : Z) (id sz : Z) (a a' : list entry) : Prop :=
  let a1 := if cached id a then touch id sz a else a in
  if sz <=? cap
  then evictions victim cap (if cached id a then a1 else a1 ++ [(id, sz)]) a'
  else a' = a1.

(** the answers and the effect of a sequence of requests on an abstract cache *)
Inductive run_rel (touch : Z -> Z -> list entry -> list entry)
    (victim : list entry -> list entry -> Prop) (cap : Z) :
    list entry -> list entry -> list cache_ck_res_e -> list entry -> Prop :=
  | run_nil a : run_rel touch victim cap [] a [] a
  | run_cons id sz reqs a a1 a2 res :
      get_rel touch victim cap id sz a a1 ->
      run_rel touch victim cap reqs a1 res a2 ->
      run_rel touch victim cap ((id, sz) :: reqs) a
        ((if cached id a then cache_ck_hit else cache_ck_miss) :: res) a2.

Section get.
  Context {ops rel touch victim evictable pre safe}
    {accept} {P : Policy ops rel touch victim evictable pre safe accept}.

Lemma evict_loop_spec cap st a r fuel :
  0 <= cap -> rel cap st a -> safe cap a -> (length a < fuel)%nat ->
  Z.of_nat (length a) <= 2 ^ 31 ->
  exists st' a', evict_loop ops fuel st r = Ok st' /\ rel cap st' a' /\
    evictions victim cap a a' /\ (length a' <= length a)%nat /\
    n_lookup (c_hashtable (st_cache st')) = n_lookup (c_hashtable (st_cache st)).
Proof using P.
  intros Hcap. revert st a; induction fuel as [|fuel IH]; intros st a HR Hs Hf Hlen; [lia|].
  simpl. rewrite (pl_cap _ _ _ HR), (pl_occupied _ _ _ HR).
  destruct (Z.gtb_spec (total a) cap) as [Hgt|Hle].
  - pose proof (pl_safe_evictable _ _ Hcap Hs Hgt) as He.
    destruct (pl_evict _ _ _ r HR Hlen He) as (o & st1 & a1 & -> & HR1 & Hv & Hn1). cbn [rbind].
    pose proof (pl_victim_len _ _ Hv) as Hl.
    destruct (IH st1 a1) as (st2 & a2 & -> & HR2 & Hev & Hl2 & Hn2);
      [done|by eapply pl_safe_victim|lia|lia|].
    exists st2, a2. split_and!; [done|done|by eapply ev_step|lia|congruence].
  - exists st, a. split_and!; [done|done|by apply ev_done|lia|done].
Qed.

(** One call of cache_get. *)
Lemma cache_get_spec cap st a r n :
  0 <= cap -> 0 <= n -> rel cap st a -> pre cap a -> room (n + 1) st a -> req_ok hash r ->
  exists st' r' a',
    cache_get ops st r =
      Ok (if cached (req_obj_id_int r) a then cache_ck_hit else cache_ck_miss, st', r') /\
    get_rel touch victim cap (req_obj_id_int r) (req_obj_size r) a a' /\
    rel cap st' a' /\ room n st' a' /\ r' = set_req_hv (hash (req_obj_id_int r)) r.
Proof using P.
  intros Hcap Hn HR Hpre Hroom Hr. pose proof Hr as [_ Hsz].
  unfold cache_get. destruct (pl_check _ _ _ _ _ HR Hroom Hn Hr)
    as (st1 & r1 & -> & HR1 & -> & Hc1 & Hl1). cbn [rbind].
  destruct Hroom as [Hlen Hlk]. cbn [req_obj_size set_req_hv]. rewrite Hc1.
  unfold get_rel. destruct (Z.leb_spec (req_obj_size r) cap) as [Hle|Hgt].
  - set (hit := cached (req_obj_id_int r) a) in *.
    assert (Hins : exists st2,
      (match (if hit then cache_ck_hit else cache_ck_miss) with
       | cache_ck_miss => op_insert ops st1 (set_req_hv (hash (req_obj_id_int r)) r)
       | _ => Ok st1
       end) = Ok st2 /\
      rel cap st2 (if hit then touch (req_obj_id_int r) (req_obj_size r) a
                   else a ++ [(req_obj_id_int r, req_obj_size r)]) /\
      n_lookup (c_hashtable (st_cache st2)) = n_lookup (c_hashtable (st_cache st1))).
    { destruct hit eqn:Hhit; [by exists st1|].
      apply (pl_insert cap st1 a (set_req_hv (hash (req_obj_id_int r)) r)); [done|lia| |done].
      split; [by right|done]. }
    destruct Hins as (st2 & E2 & HR2 & Hl2).
    set (b := if hit then touch (req_obj_id_int r) (req_obj_size r) a
              else a ++ [(req_obj_id_int r, req_obj_size r)]) in *.
    assert (Hb : safe cap b /\ (length b <= length a + 1)%nat).
    { unfold b. destruct hit eqn:Hhit; split.
      - apply pl_safe_hit; [done|lia|done].
      - pose proof (pl_touch_len (req_obj_id_int r) (req_obj_size r) a Hhit). lia.
      - apply pl_safe_miss; [done|lia].
      - rewrite length_app. simpl. lia. }
    destruct Hb as [Hsafe Hblen].
    destruct (evict_loop_spec cap st2 b (set_req_hv (hash (req_obj_id_int r)) r) (evict_fuel st2))
      as (st3 & a3 & E3 & HR3 & Hev & Hl3 & Hn3); [done|done|done| |lia|].
    { unfold evict_fuel. rewrite (pl_items _ _ _ HR2). lia. }
    rewrite E2. cbn [rbind]. rewrite E3. cbn [rbind].
    do 2 eexists. exists a3. split_and!; [done| |by apply pl_req_cnt| |done].
    + subst b. by destruct hit.
    + split; simpl; lia.
  - cbn [rbind]. do 2 eexists. exists (if cached (req_obj_id_int r) a
      then touch (req_obj_id_int r) (req_obj_size r) a else a).
    split_and!; [done|done|by apply pl_req_cnt| |done]. split; simpl.
    + case_match eqn:Hhit; [|lia].
      pose proof (pl_touch_len (req_obj_id_int r) (req_obj_size r) a Hhit). lia.
    + lia.
Qed.


Lemma evictions_safe cap a a' :
  0 <= cap -> safe cap a -> evictions victim cap a a' -> safe cap a'.
Proof using P.
  intros Hcap Hs Hev. induction Hev as [|a a1 a2 Ht Hv Hev IH]; [done|].
  apply IH. eapply pl_safe_victim; [done| |done]. by eapply pl_safe_evictable.
Qed.

Lemma get_rel_pre cap id sz a a' :
  0 <= cap -> 0 < sz -> accept cap sz -> pre cap a -> get_rel touch victim cap id sz a a' -> pre cap a'.
Proof using P.
  intros Hcap Hsz Hacc Hpre. unfold get_rel. destruct (Z.leb_spec sz cap) as [Hle|Hgt].
  - intros Hev. apply (pl_safe_pre (Policy := P)). eapply evictions_safe; [done| |exact Hev].
    destruct (cached id a) eqn:Hc; [apply pl_safe_hit|apply pl_safe_miss]; (done || lia).
  - intros ->. destruct (cached id a); [|done]. by apply pl_big_hit.
Qed.

(** A run of requests, and the run of the abstract cache it implements. *)
Lemma run_gets_spec cap reqs : forall st a,
  0 <= cap -> rel cap st a -> pre cap a -> room (Z.of_nat (length reqs)) st a ->
  Forall (fun r => req_ok hash r /\ accept cap (req_obj_size r)) reqs ->
  exists res st' a', run_gets (cache_get ops) st reqs = Ok (res, st') /\
    run_rel touch victim cap ((fun r => (req_obj_id_int r, req_obj_size r)) <$> reqs) a res a' /\
    rel cap st' a' /\ pre cap a'.
Proof using P.
  induction reqs as [|r reqs IH]; intros st a Hcap HR Hpre Hroom Hreqs.
  - exists [], st, a. split_and!; [done|constructor|done|done].
  - apply Forall_cons in Hreqs as [[Hr Hacc] Hreqs].
    destruct (cache_get_spec cap st a r (Z.of_nat (length reqs)))
      as (st1 & r1 & a1 & E1 & Hg & HR1 & Hroom1 & _); [done|lia|done|done| |done|].
    { simpl length in Hroom. by replace (Z.of_nat (S (length reqs))) with (Z.of_nat (length reqs) + 1) in Hroom by lia. }
    cbn [run_gets]. rewrite E1. cbn [rbind].
    destruct (IH st1 a1) as (res & st2 & a2 & E2 & Hrun & HR2 & Hpre2); [done|done| |done|done|].
    { eapply get_rel_pre; [done| |exact Hacc|exact Hpre|exact Hg]. apply Hr. }
    rewrite E2. cbn [rbind]. do 2 eexists. exists a2.
    split_and!; [done| |done|done]. cbn [fmap list_fmap]. by eapply run_cons.
Qed.

End get.
End policy.
