(* ===== verification/Policies.v ===== *)
(** * LRU, FIFO, MRU and Random implement the policy interface

    [base] relates a state to the list of its objects and to an abstract cache; on top of
    it [list_rel] (LRU, FIFO, MRU) says that the objects are linked in that order from
    list_head to list_tail, and [rand_rel] (Random) that no object is linked.  The
    instances at the end discharge the class of CacheSpec for the four policies. *)

From S2P Require Import Prelude.
From S2P Require Import Store.
From S2P Require Import HashTable.
From S2P Require Import Reloc.
From S2P Require Import Buckets.
From S2P Require Import Expand.
From S2P Require Import HashTableSpec.
From S2P Require Import Cache.
From S2P Require Import CacheSpec.

Definition small_entry (e : entry) : Prop := 0 < e.2 < 2 ^ 32.

Lemma total_bound a : Forall small_entry a -> 0 <= total a <= Z.of_nat (length a) * 2 ^ 32.
Proof. induction 1 as [|e a He Ha IH]; [simpl; lia|]. unfold small_entry in He. simpl. lia. Qed.

Lemma resize_mid id sz sz0 a1 a2 :
  id ∉ a1.*1 -> id ∉ a2.*1 -> resize id sz (a1 ++ (id, sz0) :: a2) = a1 ++ (id, sz) :: a2.
Proof.
  intros H1 H2. unfold resize. rewrite fmap_app. cbn [fmap list_fmap fst]. rewrite Z.eqb_refl.
  assert (Hid : forall a, id ∉ a.*1 -> (fun e : entry => if e.1 =? id then (id, sz) else e) <$> a = a).
  { induction a as [|e a IH]; cbn [fmap list_fmap]; [done|]. intros [He Ha]%not_elem_of_cons.
    rewrite IH by done. case_bool; [congruence|done]. }
  by f_equal; [apply Hid|f_equal; apply Hid].
Qed.

Lemma without_mid id sz0 a1 a2 :
  id ∉ a1.*1 -> id ∉ a2.*1 -> without id (a1 ++ (id, sz0) :: a2) = a1 ++ a2.
Proof.
  intros H1 H2. unfold without. rewrite filter_app, filter_cons_False by (simpl; tauto).
  assert (Hid : forall a, id ∉ a.*1 -> filter (fun e : entry => e.1 <> id) a = a).
  { induction a as [|e a IH]; cbn [fmap list_fmap]; [done|]. intros [He Ha]%not_elem_of_cons.
    rewrite filter_cons_True by congruence. f_equal. by apply IH. }
  by f_equal; apply Hid.
Qed.

Section table.
  Variable hash : Z -> Z.

Lemma hseg_mono (P : cache_obj -> Prop) m m' L n :
  (forall l o, l ∈ L -> m !! l = Some o -> P o ->
     exists o', m' !! l = Some o' /\ P o' /\ hash_next o' = hash_next o) ->
  hseg P m L n -> hseg P m' L n.
Proof.
  induction L as [|l L IH]; intros Hm; simpl; [done|]. intros (o & Ho & HP & Hn & Hs).
  destruct (Hm l o ltac:(set_solver) Ho HP) as (o' & Ho' & HP' & Hn'). exists o'.
  split_and!; [done|done|congruence|]. apply IH; [|done]. intros. apply Hm; set_solver.
Qed.

(** the table does not depend on the other fields of an object *)
Lemma HT_upd s ht L l o o' :
  HT hash s ht L -> l ∈ L -> objs s !! l = Some o ->
  obj_id_int o' = obj_id_int o -> hash_next o' = hash_next o ->
  (obj_size o <> 0 -> obj_size o' <> 0) ->
  HT hash (set_objs (<[l := o']> (objs s)) s) ht L.
Proof.
  intros (B & [T Hlive Hnd Hids Hdom Hfr HfrT Hc Hm]) Hl Ho Hoid Hon Hsz.
  set (s' := set_objs _ _).
  assert (Hlook : forall x ox, objs s !! x = Some ox -> exists ox', objs s' !! x = Some ox' /\
            obj_id_int ox' = obj_id_int ox /\ hash_next ox' = hash_next ox /\
            (obj_size ox <> 0 -> obj_size ox' <> 0)).
  { intros x ox Hx. simpl. destruct (decide (x = l)) as [->|].
    - rewrite lookup_insert_eq. eexists. split; [done|].
      assert (ox = o) as -> by congruence. done.
    - rewrite lookup_insert_ne by done. eauto. }
  assert (Hdom' : forall x, is_Some (objs s' !! x) -> is_Some (objs s !! x)).
  { intros x. simpl. destruct (decide (x = l)) as [->|]; [eauto|]. by rewrite lookup_insert_ne. }
  assert (Hback : forall x ox', objs s' !! x = Some ox' ->
            exists ox, objs s !! x = Some ox /\ obj_id_int ox' = obj_id_int ox).
  { intros x ox' Hx. destruct (Hdom' x) as [ox Hox]; [eauto|].
    destruct (Hlook x ox Hox) as (? & ? & ? & _). exists ox. split; [done|congruence]. }
  exists B. split; try done.
  - split; [apply T| |apply T]. intros i Hi. pose proof (tk_bucket _ _ _ _ T i Hi) as Hb.
    destruct (B i) as [|y C] eqn:EB.
    + simpl in *. rewrite lookup_insert_ne; [done|]. intros ->.
      apply Hlive in Hl as [j Hj]. apply (tab_slot _ T) in Hj as Hj'. destruct Hj' as [_ <-].
      rewrite EB in Hj. by apply not_elem_of_nil in Hj.
    + destruct Hb as (-> & Hs & Hh & HndB). split_and!; [done| |done|done].
      eapply hseg_mono; [|exact Hs]. intros x ox _ Hox [Hsx Hbx].
      destruct (Hlook x ox Hox) as (ox' & Hox' & Hid & Hn & Hz). exists ox'.
      split_and!; [done| |done]. split; [auto|]. by rewrite Hid.
  - intros x y ox oy Hx Hy Hox Hoy Heq. destruct (Hback x ox Hox) as (ox0 & ? & ?).
    destruct (Hback y oy Hoy) as (oy0 & ? & ?). apply (Hids x y ox0 oy0); [done..|congruence].
  - intros x Hx. apply Hdom. auto.
  - intros n Hn. apply Hfr. auto.
Qed.

Lemma HT_nodup s ht L : HT hash s ht L -> NoDup L /\ ids_unique (objs s) L.
Proof. by intros (B & [? ? ? ? ? ? ? ? ?]). Qed.

Lemma HT_items s ht L : HT hash s ht L -> n_cur_item ht = Z.of_nat (length L).
Proof. by intros (B & [? ? ? ? ? ? ? ? ?]). Qed.

Lemma link_new_spec s hd tl L l o :
  list_repr s hd tl L -> l ∉ L -> objs s !! l = Some o -> links o = (None, None) ->
  exists s1,
    (let! head := cell_get s hd in
     match head with
     | None => Ok (cell_set (cell_set s hd (Some l)) tl (Some l))
     | Some _ =>
         let! tail := cell_get s tl in
         let! s := store_upd (set_list_next (Some l)) s tail in
         store_upd (set_list_prev tail) s (Some l)
     end) = Ok s1 /\
    list_repr (cell_set s1 tl (Some l)) hd tl (L ++ [l]) /\
    list_frame hd tl (L ++ [l]) s (cell_set s1 tl (Some l)).
Proof.
  intros [Hd Hn Hh Ht Hne] Hl Ho Hlo. rewrite (cell_get_Some _ _ _ Hh). cbn [rbind].
  destruct L as [|x L _] using rev_ind.
  - eexists. split_and!; [done| |].
    + split; [|apply NoDup_singleton| | |done]; simpl.
      * by exists o.
      * by rewrite !lookup_insert_ne, lookup_insert_eq by done.
      * by rewrite lookup_insert_eq.
    + eauto using list_frame_trans, list_frame_hd, list_frame_tl.
  - assert (Hhd : exists z, head (L ++ [x]) = Some z) by (destruct L; simpl; eauto).
    destruct Hhd as [z Hz]. rewrite Hz, (cell_get_Some _ _ _ Ht), last_snoc. cbn [rbind].
    destruct (upd_next_step hd tl ((L ++ [x]) ++ [l]) s x (Some l)) as (s1 & E1 & F1 & C1 & ox & Hox & O1);
      [set_solver|eapply dseg_elem; [exact Hd|set_solver]|].
    rewrite E1. cbn [rbind].
    assert (x <> l) by (intros ->; apply Hl; set_solver).
    destruct (upd_prev_step hd tl ((L ++ [x]) ++ [l]) s1 l (Some x)) as (s2 & E2 & F2 & C2 & ol & Hol & O2);
      [set_solver|rewrite O1, lookup_insert_ne by done; eauto|].
    exists s2. split_and!; [done| |eauto using list_frame_trans, list_frame_tl].
    assert (ol = o) as -> by (rewrite O1, lookup_insert_ne in Hol by done; congruence).
    split; [| | | |done].
    + simpl objs. rewrite O2, O1. apply dseg_snoc_new; [|done|].
      * by eapply dseg_set_last.
      * unfold links in *. simpl. congruence.
    + apply NoDup_app. split_and!; [done| |apply NoDup_singleton].
      intros y Hy ->%list_elem_of_singleton. done.
    + simpl. rewrite lookup_insert_ne, C2, C1, Hh by done. by destruct L.
    + simpl. by rewrite lookup_insert_eq, last_snoc.
Qed.

Lemma frame_cells s s' hd tl D c :
  list_frame hd tl D s s' -> is_Some (cells s' !! hd) -> is_Some (cells s' !! tl) ->
  is_Some (cells s !! c) -> is_Some (cells s' !! c).
Proof.
  intros [_ _ _ Hc] H1 H2 H. destruct (decide (c = hd)) as [->|]; [done|].
  destruct (decide (c = tl)) as [->|]; [done|]. by rewrite Hc.
Qed.

Lemma list_repr_cells s hd tl L :
  list_repr s hd tl L -> is_Some (cells s !! hd) /\ is_Some (cells s !! tl).
Proof. intros [_ _ -> -> _]. eauto. Qed.

(** a step on the list keeps the rest of the representation *)
Lemma HT_list_step s s' ht hd tl D L L' :
  (forall l, l ∈ D -> l ∈ L) -> list_frame hd tl D s s' -> list_repr s' hd tl L' ->
  HT hash s ht L -> HT hash s' ht L.
Proof.
  intros HD HF HL HHT. destruct (list_repr_cells _ _ _ _ HL) as [H1 H2].
  eapply HT_list_frame; [exact HD| |exact HF|done]. intros c. by eapply frame_cells.
Qed.

Lemma list_repr_links s s' hd tl L :
  (forall x, links <$> objs s' !! x = links <$> objs s !! x) -> cells s' = cells s ->
  list_repr s hd tl L -> list_repr s' hd tl L.
Proof.
  intros Hl Hc [Hd Hn Hh Ht Hne]. split; [|done|by rewrite Hc..|done].
  eapply dseg_ext; [|exact Hd]. intros; apply Hl.
Qed.

Lemma unlinked_linked m L :
  (forall l, l ∈ L -> exists o, m !! l = Some o /\ links o = (None, None)) -> linked m L.
Proof.
  intros H l Hl. destruct (H l Hl) as (o & Ho & Hlo). unfold links in Hlo. exists o.
  split_and!; [done|intros; congruence..].
Qed.

Lemma relocated_unlinked ht f s s' L :
  relocated ht f s s' L ->
  (forall l, l ∈ L -> exists o, objs s !! l = Some o /\ links o = (None, None)) ->
  forall l o, l ∈ f <$> L -> objs s' !! l = Some o -> links o = (None, None).
Proof.
  intros Hr Hun x ox Hx Hox. apply list_elem_of_fmap in Hx as (l & -> & Hl).
  destruct (Hun l Hl) as (o & Ho & Hlo). destruct (rl_obj _ _ _ _ _ Hr l o Hl Ho) as (o' & Ho' & _ & Hn & Hp).
  unfold links in *. injection Hlo as E1 E2. rewrite E1 in Hn. rewrite E2 in Hp. simpl in *. congruence.
Qed.

End table.

Section base.
  (** the extra metadata of the object of each id, which the policies carry along *)
  Variable M : Z -> Z.

Definition is_entry (m : gmap loc cache_obj) (l : loc) (e : entry) : Prop :=
  exists o, m !! l = Some o /\ obj_id_int o = e.1 /\ obj_size o = e.2 /\
    extra_metadata_u64 o = M e.1.

Definition entries (m : gmap loc cache_obj) (L : list loc) (a : list entry) : Prop :=
  Forall2 (is_entry m) L a.

Lemma entries_length m L a : entries m L a -> length L = length a.
Proof. apply Forall2_length. Qed.

Lemma entries_map (m m' : gmap loc cache_obj) (f : loc -> loc) L a :
  (forall l o, l ∈ L -> m !! l = Some o -> exists o', m' !! f l = Some o' /\
     obj_id_int o' = obj_id_int o /\ obj_size o' = obj_size o /\
     extra_metadata_u64 o' = extra_metadata_u64 o) ->
  entries m L a -> entries m' (f <$> L) a.
Proof.
  intros Hm He. induction He as [|l e L a (o & Ho & H1 & H2 & H3) He IH]; [constructor|].
  cbn [fmap list_fmap]. constructor; [|apply IH; intros; apply Hm; set_solver].
  destruct (Hm l o) as (o' & Ho' & E1 & E2 & E3); [set_solver|done|].
  exists o'. split; [done|]. split_and!; congruence.
Qed.

Lemma entries_relocated ht f s s' L a :
  relocated ht f s s' L -> entries (objs s) L a -> entries (objs s') (f <$> L) a.
Proof.
  intros Hr. apply entries_map. intros l o Hl Ho.
  destruct (rl_obj _ _ _ _ _ Hr l o Hl Ho) as (o' & Ho' & Hc & _). unfold content in Hc.
  exists o'. split; [done|]. split_and!; congruence.
Qed.

Lemma entries_core m m' L a :
  (forall l, l ∈ L -> core <$> m' !! l = core <$> m !! l) -> entries m L a -> entries m' L a.
Proof.
  intros Hc He. rewrite <- (list_fmap_id L). revert He. apply entries_map. intros l o Hl Ho.
  pose proof (Hc l Hl) as Hcl. rewrite Ho in Hcl.
  destruct (m' !! l) as [o'|] eqn:E; [|done]. apply (inj Some) in Hcl. unfold core in Hcl.
  exists o'. split; [done|]. split_and!; congruence.
Qed.

Lemma entries_insert_notin m L a l o : l ∉ L -> entries m L a -> entries (<[l := o]> m) L a.
Proof.
  intros Hl. apply entries_core. intros x Hx. rewrite lookup_insert_ne; [done|]. by intros ->.
Qed.

Lemma entries_cached m L a id :
  entries m L a -> id ∈ a.*1 <-> exists l o, l ∈ L /\ m !! l = Some o /\ obj_id_int o = id.
Proof.
  induction 1 as [|l e L a (o & Ho & H1 & H2 & _) He IH]; cbn [fmap list_fmap].
  - split; [by intros ?%not_elem_of_nil|]. by intros (l & o & ?%not_elem_of_nil & _).
  - rewrite elem_of_cons, IH. split.
    + intros [->|(x & ox & Hx & ?)]; [exists l, o|exists x, ox]; (split; [set_solver|done]).
    + intros (x & ox & [->|Hx]%elem_of_cons & Hox & Hid); [left|right; eauto]. congruence.
Qed.

Lemma entries_nodup m L a :
  NoDup L -> ids_unique m L -> entries m L a -> NoDup a.*1.
Proof.
  intros Hnd Hid He. induction He as [|l e L a (o & Ho & H1 & H2 & _) He IH]; [constructor|].
  apply NoDup_cons in Hnd as [Hl Hnd]. cbn [fmap list_fmap]. apply NoDup_cons. split.
  - intros Hin. apply (entries_cached _ _ _ _ He) in Hin as (x & ox & Hx & Hox & Hidx).
    apply Hl. rewrite (Hid l x o ox); [done|set_solver|set_solver|done|done|congruence].
  - apply IH; [done|]. intros x y ox oy Hx Hy. apply Hid; set_solver.
Qed.

(** the entry of a live object, and the entries around it *)
Lemma entries_split m L a l o :
  NoDup L -> ids_unique m L -> entries m L a -> l ∈ L -> m !! l = Some o ->
  exists L1 L2 a1 a2, L = L1 ++ l :: L2 /\ a = a1 ++ (obj_id_int o, obj_size o) :: a2 /\
    entries m L1 a1 /\ entries m L2 a2 /\ obj_id_int o ∉ a1.*1 /\ obj_id_int o ∉ a2.*1.
Proof.
  intros Hnd Hid He Hl Ho. pose proof (entries_nodup _ _ _ Hnd Hid He) as Hna.
  apply list_elem_of_split in Hl as (L1 & L2 & ->).
  apply Forall2_app_inv_l in He as (a1 & a' & He1 & He' & ->).
  apply Forall2_cons_inv_l in He' as ([i z] & a2 & (o' & Ho' & E1 & E2 & _) & He2 & ->).
  assert (o' = o) as -> by congruence. simpl in E1, E2. subst i z.
  exists L1, L2, a1, a2. split_and!; [done..| |];
    rewrite fmap_app in Hna; cbn [fmap list_fmap fst] in Hna;
    rewrite <- Permutation_middle in Hna; apply NoDup_cons in Hna as [Hna _]; set_solver.
Qed.

  Variable hash : Z -> Z.

Record base (cap : Z) (st : state) (L : list loc) (a : list entry) : Prop := {
  bs_ht : HT hash (st_store st) (c_hashtable (st_cache st)) L;
  bs_entries : entries (objs (st_store st)) L a;
  bs_small : Forall small_entry a;
  bs_mon : monitored_ptrs (c_hashtable (st_cache st)) = [list_head (st_cache st); list_tail (st_cache st)];
  bs_cap : cache_size (st_cache st) = cap;
  bs_occ : occupied_size (st_cache st) = total a
}.

(** *** Overwriting the size of an object *)

Lemma base_resize cap st L1 l L2 a1 id sz0 a2 o sz :
  base cap st (L1 ++ l :: L2) (a1 ++ (id, sz0) :: a2) -> length L1 = length a1 ->
  Z.of_nat (length (a1 ++ (id, sz0) :: a2)) < 2 ^ 31 -> 0 < sz < 2 ^ 32 ->
  objs (st_store st) !! l = Some o ->
  let c := st_cache st in
  base cap
    (mk_state (set_objs (<[l := set_obj_size sz o]> (objs (st_store st))) (st_store st))
       (set_occupied (u64 (u64 (occupied_size c - sz0) + sz)) c) (st_seed st))
    (L1 ++ l :: L2) (a1 ++ (id, sz) :: a2).
Proof.
  intros [HHT He Hsm Hmon Hcap Hocc] HL1 Hlen Hsz Ho c. subst c.
  destruct (HT_nodup _ _ _ _ HHT) as [HndL _].
  assert (Hl : l ∉ L1 ++ L2).
  { rewrite <- Permutation_middle in HndL. by apply NoDup_cons in HndL as []. }
  apply Forall2_app_inv in He as [He1 He2]; [|done].
  apply Forall2_cons in He2 as [(o' & Ho' & Hi & Hz & Hex) He2]. assert (o' = o) as -> by congruence.
  apply Forall_app in Hsm as [Hs1 Hs2]. apply Forall_cons in Hs2 as [Hs2 Hs3].
  unfold small_entry in Hs2. simpl in Hs2, Hi, Hz.
  split; cbn [st_store st_cache c_hashtable set_occupied]; try done.
  - eapply HT_upd; [done|set_solver|done|done|done|simpl; lia].
  - apply Forall2_app; [|constructor].
    + apply entries_insert_notin; [set_solver|done].
    + exists (set_obj_size sz o). simpl in Hex |- *. by rewrite lookup_insert_eq.
    + apply entries_insert_notin; [set_solver|done].
  - apply Forall_app. split; [done|]. by constructor.
  - cbn. rewrite Hocc, !total_app. simpl.
    pose proof (total_bound _ Hs1). pose proof (total_bound _ Hs3).
    rewrite length_app in Hlen. simpl in Hlen.
    rewrite (u64_small (_ - _)) by lia. rewrite u64_small by lia. lia.
Qed.

(** cache_check with update_cache: a hit overwrites the size, and nothing else changes *)
Lemma cache_check_spec cap st L a r :
  base cap st L a -> Z.of_nat (length a) < 2 ^ 31 -> req_ok hash r ->
  0 <= n_lookup (c_hashtable (st_cache st)) < 2 ^ 64 - 1 ->
  let id := req_obj_id_int r in let sz := req_obj_size r in
  exists obj st' a',
    cache_check hash st r true =
      Ok (if cached id a then cache_ck_hit else cache_ck_miss, obj, st', set_req_hv (hash id) r) /\
    base cap st' L a' /\
    (forall x, links <$> objs (st_store st') !! x = links <$> objs (st_store st) !! x) /\
    cells (st_store st') = cells (st_store st) /\ st_seed st' = st_seed st /\
    list_head (st_cache st') = list_head (st_cache st) /\
    list_tail (st_cache st') = list_tail (st_cache st) /\ n_obj (st_cache st') = n_obj (st_cache st) /\
    0 <= n_lookup (c_hashtable (st_cache st')) <= n_lookup (c_hashtable (st_cache st)) + 1 /\
    match obj with
    | Some l => cached id a = true /\ a' = resize id sz a /\
        exists L1 L2 a1 a2 sz0, L = L1 ++ l :: L2 /\ a = a1 ++ (id, sz0) :: a2 /\
          length L1 = length a1 /\ id ∉ a1.*1 /\ id ∉ a2.*1
    | None => cached id a = false /\ a' = a
    end.
Proof.
  intros [HHT He Hsm Hmon Hcap Hocc] Hlen [Hhv Hsz] Hlk id sz.
  destruct (chained_hashtable_find_spec _ _ _ _ r HHT Hhv Hlk)
    as (obj & ht' & r' & Ef & Hst & Hb & -> & Hobj).
  pose proof (HT_same _ _ _ _ _ Hst HHT) as HHT'.
  destruct (HT_nodup _ _ _ _ HHT) as [HndL HidL].
  unfold cache_check. cbv zeta. rewrite Ef. cbn [rbind]. destruct obj as [l|].
  - destruct Hobj as [Hl (o & Ho & Hid)]. fold id in Hid.
    destruct (entries_split _ _ _ _ _ HndL HidL He Hl Ho)
      as (L1 & L2 & a1 & a2 & HL & Ha & He1 & He2 & Hn1 & Hn2). rewrite Hid in *.
    assert (Hc : cached id a = true) by (apply cached_spec; rewrite Ha, fmap_app; set_solver).
    assert (Hres : resize id sz a = a1 ++ (id, sz) :: a2) by (rewrite Ha; by apply resize_mid).
    rewrite Hc, (deref_Some _ _ _ Ho). cbn [rbind andb].
    assert (Hwit : exists L1 L2 a1 a2 sz0, L = L1 ++ l :: L2 /\ a = a1 ++ (id, sz0) :: a2 /\
          length L1 = length a1 /\ id ∉ a1.*1 /\ id ∉ a2.*1).
    { exists L1, L2, a1, a2, (obj_size o). split_and!; try done. by apply entries_length in He1. }
    cbn [req_obj_size set_req_hv]. fold sz. destruct (Z.eqb_spec (obj_size o) sz) as [Esz|Esz]; cbn [negb].
    + exists (Some l). eexists. exists (resize id sz a). split_and!; try done; cbn [st_store st_cache c_hashtable set_table_of]; try lia.
      split; try done; cbn [st_store st_cache c_hashtable set_table_of].
      * by rewrite Hres, <- Esz, <- Ha.
      * by rewrite Hres, <- Esz, <- Ha.
      * rewrite (st_mon _ _ Hst). exact Hmon.
      * cbn. by rewrite Hres, <- Esz, <- Ha.
    + rewrite (store_upd_Some _ _ _ _ Ho). cbn [rbind]. exists (Some l). eexists. exists (resize id sz a).
      rewrite u32_small by lia.
      split_and!; try done; cbn [st_store st_cache c_hashtable set_table_of set_occupied]; try lia.
      * rewrite Hres, HL. cbn [occupied_size set_table_of].
        apply (base_resize cap (mk_state (st_store st) (set_table_of ht' (st_cache st)) (st_seed st))
                 L1 l L2 a1 id (obj_size o) a2 o sz); try done.
        -- rewrite <- HL, <- Ha. split; try done. cbn. by rewrite (st_mon _ _ Hst).
        -- by apply entries_length in He1.
        -- by rewrite <- Ha.
      * intros x. simpl. destruct (decide (x = l)) as [->|].
        -- by rewrite lookup_insert_eq, Ho.
        -- by rewrite lookup_insert_ne.
  - assert (Hc : cached id a = false).
    { apply cached_false. intros (x & ox & Hx & Hox & Hid)%(entries_cached _ _ _ _ He).
      by apply (Hobj x ox Hx Hox). }
    rewrite Hc. exists None. eexists. exists a.
    split_and!; try done; cbn [st_store st_cache c_hashtable set_table_of]; try lia.
    split; try done. cbn. by rewrite (st_mon _ _ Hst).
Qed.


(** *** Insertion at the tail *)

Lemma entries_frame hd tl D s s' L a :
  list_frame hd tl D s s' -> entries (objs s) L a -> entries (objs s') L a.
Proof.
  intros [Hc _ _ _]. apply entries_core. intros l _. by rewrite <- !lookup_fmap, Hc.
Qed.

Lemma cache_insert_LRU_spec cap st L a r :
  base cap st L a -> list_repr (st_store st) (list_head (st_cache st)) (list_tail (st_cache st)) L ->
  Z.of_nat (length a) < 2 ^ 31 -> req_ok hash r -> cached (req_obj_id_int r) a = false -> M (req_obj_id_int r) = 0 ->
  let hd := list_head (st_cache st) in let tl := list_tail (st_cache st) in
  exists l st' L', cache_insert_LRU hash st r = Ok (l, st') /\
    base cap st' L' (a ++ [(req_obj_id_int r, req_obj_size r)]) /\
    list_head (st_cache st') = hd /\ list_tail (st_cache st') = tl /\
    list_repr (st_store st') hd tl L' /\ st_seed st' = st_seed st /\
    n_obj (st_cache st') = u64 (n_obj (st_cache st) + 1) /\
    n_lookup (c_hashtable (st_cache st')) = n_lookup (c_hashtable (st_cache st)).
Proof.
  intros [HHT He Hsm Hmon Hcap Hocc] HL Hlen [_ Hsz] Hnc HM hd tl.
  assert (Hlk : linked (objs (st_store st)) L) by (apply dll_linked; apply HL).
  destruct (chained_hashtable_insert_spec hash (st_store st) (c_hashtable (st_cache st)) L r)
    as (l & ht' & s1 & f & E1 & HHT1 & Hr1 & Ho1 & Hl1 & Hm1 & Hn1); [done|done| |done| |].
  { rewrite (entries_length _ _ _ He). lia. }
  { intros x ox Hx Hox Hid. apply cached_false in Hnc. apply Hnc.
    apply (entries_cached _ _ _ _ He). eauto. }
  assert (HL1 : list_repr s1 hd tl (f <$> L)).
  { apply (list_repr_relocated (c_hashtable (st_cache st)) f (st_store st)); [done| | |done];
      rewrite Hmon; set_solver. }
  destruct (link_new_spec s1 hd tl (f <$> L) l (new_obj_of r)) as (s2 & E2 & HL2 & HF2); [done..|].
  unfold cache_insert_LRU. cbn [c_hashtable set_occupied]. rewrite E1. cbn [rbind].
  cbn [list_head list_tail set_n_obj set_table_of set_occupied]. fold hd tl.
  destruct (cell_get s1 hd) as [h|]; [|done]. cbn [rbind] in E2 |- *. rewrite E2. cbn [rbind].
  exists l. eexists. exists ((f <$> L) ++ [l]).
  split_and!; [done| |done|done|done|done|done|done].
  split; cbn [st_store st_cache c_hashtable set_n_obj set_table_of set_occupied].
  - eapply HT_list_step; [|exact HF2|exact HL2|]; [done|].
    eapply HT_perm; [|exact HHT1]. apply Permutation_cons_append.
  - eapply entries_frame; [exact HF2|]. apply Forall2_app.
    + by eapply entries_relocated.
    + constructor; [|constructor]. by exists (new_obj_of r).
  - apply Forall_app. split; [done|]. constructor; [exact Hsz|constructor].
  - by rewrite Hm1.
  - done.
  - cbn. rewrite Hocc, total_app. simpl. pose proof (total_bound _ Hsm). rewrite u64_small; lia.
Qed.

(** *** Eviction from one end of the list *)

(** After the list has been shortened by the detached object [d], the table forgets it. *)
Lemma drop_detached cap st s1 c1 d L e b ht' s2 hd tl f a :
  base cap st (d :: L) b -> b ≡ₚ e :: a -> entries (objs s1) L a ->
  hd = list_head (st_cache st) -> tl = list_tail (st_cache st) ->
  list_repr s1 hd tl L ->
  HT hash s2 ht' (f <$> L) -> relocated (c_hashtable (st_cache st)) f s1 s2 L ->
  monitored_ptrs ht' = monitored_ptrs (c_hashtable (st_cache st)) ->
  c1 = set_table_of ht' (set_occupied (u64 (occupied_size (st_cache st) - e.2)) (st_cache st)) ->
  Z.of_nat (length b) <= 2 ^ 31 ->
  base cap (mk_state s2 c1 (st_seed st)) (f <$> L) a /\ list_repr s2 hd tl (f <$> L).
Proof.
  intros [HHT He Hsm Hmon Hcap Hocc] Hb He1 -> -> HL HHT2 Hr Hm -> Hlen. split.
  - split; cbn [st_store st_cache c_hashtable set_table_of set_occupied]; try done.
    + by eapply entries_relocated.
    + rewrite Hb in Hsm. by apply Forall_cons in Hsm as [_ ?].
    + by rewrite Hm.
    + cbn. rewrite Hocc, (total_perm _ _ Hb). simpl.
      pose proof (total_bound _ Hsm) as Hbd. rewrite (total_perm _ _ Hb) in Hbd. simpl in Hbd.
      rewrite Hb in Hsm. apply Forall_cons in Hsm as [He2 Hsm]. pose proof (total_bound _ Hsm).
      unfold small_entry in He2. rewrite u64_small by lia. lia.
  - eapply list_repr_relocated; [exact Hr| | |done]; rewrite Hmon; set_solver.
Qed.

Lemma cache_evict_spec cap st L e a r :
  base cap st L (e :: a) ->
  list_repr (st_store st) (list_head (st_cache st)) (list_tail (st_cache st)) L ->
  a <> [] -> Z.of_nat (length (e :: a)) <= 2 ^ 31 ->
  let hd := list_head (st_cache st) in let tl := list_tail (st_cache st) in
  exists o st' L', cache_evict hash st r = Ok (o, st') /\ obj_id_int o = e.1 /\
    base cap st' L' a /\ list_head (st_cache st') = hd /\ list_tail (st_cache st') = tl /\
    list_repr (st_store st') hd tl L' /\
    n_obj (st_cache st') = u64 (n_obj (st_cache st) - 1) /\
    n_lookup (c_hashtable (st_cache st')) = n_lookup (c_hashtable (st_cache st)).
Proof.
  intros HB HL Ha Hlen hd tl. pose proof HB as [HHT He Hsm Hmon Hcap Hocc].
  destruct e as [i z]. apply Forall2_cons_inv_r in He as (l & L0 & (o & Ho & Hi & Hz & Hex) & He & ->).
  destruct L0 as [|x L2]; [by apply Forall2_nil_inv_l in He|].
  pose proof HL as [Hd Hn Hh Ht Hne].
  set (sh := cell_set (st_store st) hd (Some x)).
  destruct (behead_step hd tl (l :: x :: L2) sh l x L2 ltac:(done) Hd Hn)
    as (o1 & s1 & Ho1 & En & Ep & E1 & F1 & C1 & Hos1 & Hd1).
  assert (o1 = o) as -> by (simpl in Ho1; congruence).
  assert (HF : list_frame hd tl (l :: x :: L2) (st_store st) s1).
  { eapply list_frame_trans; [apply list_frame_hd|exact F1]. }
  apply NoDup_cons in Hn as [Hlx Hn].
  assert (HL1 : list_repr s1 hd tl (x :: L2)).
  { split; [done|done| | |done]; rewrite C1; simpl.
    - by rewrite lookup_insert_eq.
    - rewrite lookup_insert_ne by done. exact Ht. }
  destruct (chained_hashtable_delete_spec hash s1 (c_hashtable (st_cache st)) (x :: L2) l)
    as (ht' & s2 & f & E2 & HHT2 & Hr2 & Hm2 & Hn2).
  { eapply HT_list_step; [|exact HF|exact HL1|done]. done. }
  { by apply dll_linked. }
  { split.
    - intros o' y Ho' Hy. assert (o' = o) as -> by congruence. congruence.
    - intros o' y Ho' Hy. assert (o' = o) as -> by congruence.
      assert (y = x) as -> by congruence. split; [intros ->; apply Hlx; set_solver|].
      destruct Hd1 as (ox & Hox & Hlox & _). exists ox. split; [done|].
      unfold links in Hlox. congruence.
    - intros c Hc. rewrite Hmon in Hc.
      destruct HL1 as [_ _ Hh1 Ht1 _]. apply elem_of_cons in Hc as [->|Hc].
      + exists (head (x :: L2)). split; [done|]. simpl. intros [= ->]. apply Hlx. set_solver.
      + apply list_elem_of_singleton in Hc as ->. exists (last (x :: L2)). split; [done|].
        intros Hy. by apply last_Some_elem_of in Hy. }
  { apply entries_length in He. simpl in *. lia. }
  destruct (drop_detached cap st s1 (set_table_of ht' (set_occupied (u64 (occupied_size (st_cache st) - z)) (st_cache st)))
    l (x :: L2) (i, z) ((i, z) :: a) ht' s2 hd tl f a) as [HB2 HL2]; try done.
  { by eapply entries_frame. }
  assert (Hz' : obj_size o = z) by done.
  unfold cache_evict. cbv zeta. cbn [list_head list_tail set_n_obj set_occupied].
  fold hd tl. rewrite (cell_get_Some _ hd _ Hh). cbn [rbind head].
  rewrite (deref_Some _ _ _ Ho). cbn [rbind]. rewrite En.
  assert (cell_get (cell_set (st_store st) hd (Some x)) hd = Ok (Some x)) as ->.
  { unfold cell_get. simpl. by rewrite lookup_insert_eq. }
  cbn [rbind]. fold sh. rewrite E1. cbn [rbind]. rewrite (deref_Some _ _ _ Hos1). cbn [rbind].
  cbn [c_hashtable set_n_obj set_occupied]. rewrite E2. cbn [rbind].
  exists o. eexists. exists (f <$> x :: L2). split_and!; [done|done| |done|done|done|done|done].
  destruct HB2 as [B1 B2 B3 B4 B5 B6].
  split; cbn [st_store st_cache c_hashtable set_table_of set_occupied set_n_obj] in *; try done.
  by rewrite Hz'.
Qed.

Lemma MRU_evict_spec cap st L e a r :
  base cap st L (a ++ [e]) ->
  list_repr (st_store st) (list_head (st_cache st)) (list_tail (st_cache st)) L ->
  a <> [] -> Z.of_nat (length (a ++ [e])) <= 2 ^ 31 ->
  let hd := list_head (st_cache st) in let tl := list_tail (st_cache st) in
  exists o st' L', MRU_evict hash st r = Ok (o, st') /\ obj_id_int o = e.1 /\
    base cap st' L' a /\ list_head (st_cache st') = hd /\ list_tail (st_cache st') = tl /\
    list_repr (st_store st') hd tl L' /\
    n_obj (st_cache st') = n_obj (st_cache st) /\
    n_lookup (c_hashtable (st_cache st')) = n_lookup (c_hashtable (st_cache st)).
Proof.
  intros HB HL Ha Hlen hd tl. pose proof HB as [HHT He Hsm Hmon Hcap Hocc].
  destruct e as [i z].
  apply Forall2_app_inv_r in He as (L0 & l' & He & He' & ->).
  apply Forall2_cons_inv_r in He' as (l & Ln & (o & Ho & Hi & Hz & Hex) & Hnil & ->).
  apply Forall2_nil_inv_r in Hnil as ->.
  destruct L0 as [|y L2 _] using rev_ind; [by apply Forall2_nil_inv_l in He|].
  pose proof HL as [Hd Hn Hh Ht Hne]. rewrite last_snoc in Ht.
  apply dseg_app in Hd as [Hd1 Hd2]. rewrite last_or_app in Hd2. simpl in Hd1, Hd2.
  destruct Hd2 as (o' & Ho' & Hlo & _). assert (o' = o) as -> by congruence.
  unfold links in Hlo. injection Hlo as Hon Hop.
  apply NoDup_app in Hn as (Hn1 & Hdis & _).
  assert (Hl : l ∉ L2 ++ [y]) by (intros Hin; apply (Hdis l Hin); set_solver).
  set (st0 := cell_set (st_store st) tl (Some y)).
  destruct (upd_next_step hd tl ((L2 ++ [y]) ++ [l]) st0 y None) as (s1 & E1 & F1 & C1 & oy & Hoy & O1).
  { set_solver. } { apply (dseg_elem _ _ _ _ y Hd1). set_solver. }
  assert (Hyl : y <> l) by (intros ->; apply Hl; set_solver).
  assert (Hos1 : objs s1 !! l = Some o) by (by rewrite O1, lookup_insert_ne).
  assert (HF : list_frame hd tl ((L2 ++ [y]) ++ [l]) (st_store st) s1).
  { eapply list_frame_trans; [apply list_frame_tl|exact F1]. }
  assert (HL1 : list_repr s1 hd tl (L2 ++ [y])).
  { split; [|done| | |done].
    - rewrite O1. by eapply dseg_set_last.
    - rewrite C1. simpl. rewrite lookup_insert_ne by done.
      etransitivity; [exact Hh|]. by destruct L2.
    - rewrite C1. simpl. by rewrite lookup_insert_eq, last_snoc. }
  assert (Hperm : (L2 ++ [y]) ++ [l] ≡ₚ l :: (L2 ++ [y])) by (symmetry; apply Permutation_cons_append).
  destruct (chained_hashtable_delete_spec hash s1 (c_hashtable (st_cache st)) (L2 ++ [y]) l)
    as (ht' & s2 & f & E2 & HHT2 & Hr2 & Hm2 & Hn2).
  { eapply HT_list_step; [|exact HF|exact HL1|by eapply HT_perm]. set_solver. }
  { apply dll_linked; [done|apply HL1]. }
  { split.
    - intros o' x Hx Hpx. assert (o' = o) as -> by congruence.
      assert (x = y) as -> by congruence. split; [done|]. exists (set_list_next None oy).
      rewrite O1, lookup_insert_eq. by rewrite Hon.
    - intros o' x Hx Hpx. assert (o' = o) as -> by congruence. congruence.
    - intros c Hc. rewrite Hmon in Hc.
      destruct HL1 as [_ _ Hh1 Ht1 _]. apply elem_of_cons in Hc as [->|Hc].
      + exists (head (L2 ++ [y])). split; [done|]. intros Hy. by apply head_Some_elem_of in Hy.
      + apply list_elem_of_singleton in Hc as ->. exists (last (L2 ++ [y])). split; [done|].
        intros Hy. by apply last_Some_elem_of in Hy. }
  { apply entries_length in He. rewrite length_app in Hlen. simpl in *. lia. }
  destruct (drop_detached cap st s1 (set_table_of ht' (set_occupied (u64 (occupied_size (st_cache st) - z)) (st_cache st)))
    l (L2 ++ [y]) (i, z) ((i, z) :: a) ht' s2 hd tl f a) as [HB2 HL2]; try done.
  { split; try done.
    - by eapply HT_perm.
    - constructor; [by exists o|done].
    - by rewrite <- Permutation_cons_append in Hsm.
    - rewrite Hocc. apply total_perm. symmetry. apply Permutation_cons_append. }
  { by eapply entries_frame. }
  { rewrite length_app in Hlen. simpl in *. lia. }
  assert (Hz' : obj_size o = z) by done.
  unfold MRU_evict. cbv zeta. cbn [list_head list_tail set_n_obj set_occupied].
  fold hd tl. rewrite (cell_get_Some _ tl _ Ht). cbn [rbind].
  rewrite (deref_Some _ _ _ Ho). cbn [rbind]. rewrite Hop.
  assert (cell_get (cell_set (st_store st) tl (Some y)) tl = Ok (Some y)) as ->.
  { unfold cell_get. simpl. by rewrite lookup_insert_eq. }
  cbn [rbind]. fold st0. rewrite E1. cbn [rbind]. rewrite (deref_Some _ _ _ Hos1). cbn [rbind].
  cbn [c_hashtable set_n_obj set_occupied]. rewrite E2. cbn [rbind].
  exists o. eexists. exists (f <$> L2 ++ [y]). split_and!; [done|done| |done|done|done|done|done].
  by rewrite Hz'.
Qed.

(** *** The relation of the list policies *)

(** [n_obj_kept]: whether the policy keeps the n_obj field up to date *)
Definition list_rel_meta (n_obj_kept : bool) (cap : Z) (st : state) (a : list entry) : Prop :=
  exists L, base cap st L a /\
    list_repr (st_store st) (list_head (st_cache st)) (list_tail (st_cache st)) L /\
    (n_obj_kept = true -> n_obj (st_cache st) = Z.of_nat (length a)).

Lemma base_items cap st L a : base cap st L a ->
  n_cur_item (c_hashtable (st_cache st)) = Z.of_nat (length a).
Proof.
  intros [HHT He _ _ _ _]. rewrite (HT_items _ _ _ _ HHT). by rewrite (entries_length _ _ _ He).
Qed.

(** what a hit does to the abstract cache under LRU and MRU *)
Definition lru_touch (id sz : Z) (a : list entry) : list entry := without id a ++ [(id, sz)].

Lemma FIFO_check_spec b cap st a r n :
  list_rel_meta b cap st a -> room (n + 1) st a -> 0 <= n -> req_ok hash r ->
  let id := req_obj_id_int r in
  exists st' r', FIFO_check hash st r true =
      Ok (if cached id a then cache_ck_hit else cache_ck_miss, st', r') /\
    list_rel_meta b cap st' (if cached id a then resize id (req_obj_size r) a else a) /\
    r' = set_req_hv (hash id) r /\ cache_size (st_cache st') = cap /\
    0 <= n_lookup (c_hashtable (st_cache st')) <= n_lookup (c_hashtable (st_cache st)) + 1.
Proof.
  intros (L & HB & HL & Hno) [Hlen Hlk] Hn Hr id.
  destruct (cache_check_spec cap st L a r HB) as
    (obj & st' & a' & E & HB' & Hli & Hce & _ & Hhd & Htl & Hnn & Hlk' & Hobj); [lia|done|lia|].
  assert (Ha' : a' = if cached id a then resize id (req_obj_size r) a else a).
  { destruct obj; [destruct Hobj as (Hc & -> & _)|destruct Hobj as [Hc ->]]; fold id in Hc; by rewrite Hc. }
  unfold FIFO_check. rewrite E. cbn [rbind]. do 2 eexists. split_and!; [done| |done| |lia|lia].
  - rewrite <- Ha'. exists L. split_and!; [done| |].
    + rewrite Hhd, Htl. by eapply list_repr_links.
    + rewrite Hnn, Ha'. intros Hb. rewrite (Hno Hb). case_match; [|done].
      unfold resize. by rewrite length_fmap.
  - apply HB'.
Qed.

Lemma LRU_check_spec b cap st a r n :
  list_rel_meta b cap st a -> room (n + 1) st a -> 0 <= n -> req_ok hash r ->
  let id := req_obj_id_int r in
  exists st' r', LRU_check hash st r true =
      Ok (if cached id a then cache_ck_hit else cache_ck_miss, st', r') /\
    list_rel_meta b cap st' (if cached id a then lru_touch id (req_obj_size r) a else a) /\
    r' = set_req_hv (hash id) r /\ cache_size (st_cache st') = cap /\
    0 <= n_lookup (c_hashtable (st_cache st')) <= n_lookup (c_hashtable (st_cache st)) + 1.
Proof.
  intros (L & HB & HL & Hno) [Hlen Hlk] Hn Hr id.
  destruct (cache_check_spec cap st L a r HB) as
    (obj & st1 & b1 & E & HB1 & Hli & Hce & _ & Hhd & Htl & Hnn & Hlk1 & Hobj); [lia|done|lia|].
  assert (HL1 : list_repr (st_store st1) (list_head (st_cache st1)) (list_tail (st_cache st1)) L).
  { rewrite Hhd, Htl. by eapply list_repr_links. }
  unfold LRU_check. rewrite E. cbn [rbind]. destruct obj as [l|].
  - destruct Hobj as (Hc & -> & L1 & L2 & a1 & a2 & sz0 & -> & -> & Hl1 & Hn1 & Hn2).
    fold id in Hc, Hn1, Hn2, HB1 |- *. rewrite Hc. rewrite resize_mid in HB1 by done.
    destruct (move_obj_to_tail_spec _ _ _ _ _ _ HL1) as (s2 & E2 & HL2 & HF2).
    rewrite E2. cbn [rbind]. do 2 eexists. split_and!; [done| |done|apply HB1|cbn; lia|cbn; lia].
    assert (Htch : lru_touch id (req_obj_size r) (a1 ++ (id, sz0) :: a2) = a1 ++ a2 ++ [(id, req_obj_size r)]).
    { unfold lru_touch. rewrite without_mid by done. by rewrite <- app_assoc. }
    rewrite Htch. exists (L1 ++ L2 ++ [l]).
    assert (HpL : L1 ++ l :: L2 ≡ₚ L1 ++ L2 ++ [l]) by (by rewrite Permutation_cons_append).
    assert (Hpa : a1 ++ (id, req_obj_size r) :: a2 ≡ₚ a1 ++ a2 ++ [(id, req_obj_size r)])
      by (by rewrite Permutation_cons_append).
    destruct HB1 as [B1 B2 B3 B4 B5 B6]. split_and!; [|done|].
    + split; cbn [st_store st_cache]; try done.
      * eapply HT_perm; [exact HpL|]. eapply HT_list_step; [|exact HF2|exact HL2|exact B1]. done.
      * eapply entries_frame; [exact HF2|]. apply Forall2_app_inv in B2 as [B21 B22]; [|done].
        apply Forall2_cons in B22 as [B22 B23].
        apply Forall2_app; [done|]. apply Forall2_app; [done|]. by constructor.
      * by rewrite <- Hpa.
      * rewrite B6. by apply total_perm.
    + cbn. intros Hb. rewrite Hnn, (Hno Hb). rewrite !length_app. simpl. lia.
  - destruct Hobj as [Hc ->]. fold id in Hc |- *. rewrite Hc.
    do 2 eexists. split_and!; [done| |done|apply HB1|lia|lia].
    exists L. split_and!; [done|done|]. by rewrite Hnn.
Qed.

Lemma list_insert_spec b cap st a r :
  list_rel_meta b cap st a -> Z.of_nat (length a) < 2 ^ 31 -> req_ok hash r ->
  cached (req_obj_id_int r) a = false -> M (req_obj_id_int r) = 0 ->
  exists l st', cache_insert_LRU hash st r = Ok (l, st') /\
    list_rel_meta b cap st' (a ++ [(req_obj_id_int r, req_obj_size r)]) /\
    n_lookup (c_hashtable (st_cache st')) = n_lookup (c_hashtable (st_cache st)).
Proof.
  intros (L & HB & HL & Hno) Hlen Hr Hc HM.
  destruct (cache_insert_LRU_spec cap st L a r HB HL Hlen Hr Hc HM)
    as (l & st' & L' & E & HB' & Hhd & Htl & HL' & _ & Hnn & Hlk).
  exists l, st'. split_and!; [done| |done]. exists L'. split_and!; [done|by rewrite Hhd, Htl|].
  intros Hb. rewrite Hnn, (Hno Hb), length_app. simpl. rewrite u64_small; lia.
Qed.

(** *** The relation of Random *)

Definition rand_rel_meta (cap : Z) (st : state) (a : list entry) : Prop :=
  exists L, base cap st L a /\
    (forall l o, l ∈ L -> objs (st_store st) !! l = Some o -> links o = (None, None)) /\
    (forall c, c ∈ monitored_ptrs (c_hashtable (st_cache st)) -> cells (st_store st) !! c = Some None).

Lemma base_elem cap st L a l : base cap st L a -> l ∈ L -> exists o, objs (st_store st) !! l = Some o.
Proof.
  intros [_ He _ _ _ _] Hl. induction He as [|x e L a (o & Ho & _) He IH].
  - by apply not_elem_of_nil in Hl.
  - apply elem_of_cons in Hl as [->|]; eauto.
Qed.

Lemma Random_check_spec cap st a r n :
  rand_rel_meta cap st a -> room (n + 1) st a -> 0 <= n -> req_ok hash r ->
  let id := req_obj_id_int r in
  exists st' r', Random_check hash st r true =
      Ok (if cached id a then cache_ck_hit else cache_ck_miss, st', r') /\
    rand_rel_meta cap st' (if cached id a then resize id (req_obj_size r) a else a) /\
    r' = set_req_hv (hash id) r /\ cache_size (st_cache st') = cap /\
    0 <= n_lookup (c_hashtable (st_cache st')) <= n_lookup (c_hashtable (st_cache st)) + 1.
Proof.
  intros (L & HB & Hun & Hcl) [Hlen Hlk] Hn Hr id.
  destruct (cache_check_spec cap st L a r HB) as
    (obj & st' & a' & E & HB' & Hli & Hce & _ & Hhd & Htl & Hnn & Hlk' & Hobj); [lia|done|lia|].
  assert (Ha' : a' = if cached id a then resize id (req_obj_size r) a else a).
  { destruct obj; [destruct Hobj as (Hc & -> & _)|destruct Hobj as [Hc ->]]; fold id in Hc; by rewrite Hc. }
  unfold Random_check, FIFO_check. rewrite E. cbn [rbind]. do 2 eexists.
  split_and!; [done| |done|apply HB'|lia|lia].
  rewrite <- Ha'. exists L. split_and!; [done| |].
  - intros l o Hl Ho. destruct (base_elem _ _ _ _ _ HB Hl) as [o0 Ho0].
    pose proof (Hli l) as Hll. rewrite Ho, Ho0 in Hll. apply (inj Some) in Hll. rewrite Hll.
    by eapply Hun.
  - intros c Hc. rewrite (bs_mon _ _ _ _ HB'), Hhd, Htl, <- (bs_mon _ _ _ _ HB) in Hc.
    rewrite Hce. by apply Hcl.
Qed.

Lemma Random_insert_spec cap st a r :
  rand_rel_meta cap st a -> Z.of_nat (length a) < 2 ^ 31 -> req_ok hash r ->
  cached (req_obj_id_int r) a = false -> M (req_obj_id_int r) = 0 ->
  exists st', Random_insert hash st r = Ok st' /\
    rand_rel_meta cap st' (a ++ [(req_obj_id_int r, req_obj_size r)]) /\
    n_lookup (c_hashtable (st_cache st')) = n_lookup (c_hashtable (st_cache st)).
Proof.
  intros (L & HB & Hun & Hcl) Hlen [_ Hsz] Hnc HM. pose proof HB as [HHT He Hsm Hmon Hcap Hocc].
  assert (Hun' : forall l, l ∈ L -> exists o, objs (st_store st) !! l = Some o /\ links o = (None, None)).
  { intros l Hl. destruct (base_elem _ _ _ _ _ HB Hl) as [o Ho]. eauto. }
  destruct (chained_hashtable_insert_spec hash (st_store st) (c_hashtable (st_cache st)) L r)
    as (l & ht' & s1 & f & E1 & HHT1 & Hr1 & Ho1 & Hl1 & Hm1 & Hn1);
    [done|by apply unlinked_linked| |done| |].
  { rewrite (entries_length _ _ _ He). lia. }
  { intros x ox Hx Hox Hid. apply cached_false in Hnc. apply Hnc.
    apply (entries_cached _ _ _ _ He). eauto. }
  unfold Random_insert. cbn [c_hashtable set_occupied]. rewrite E1. cbn [rbind].
  eexists. split_and!; [done| |done]. exists ((f <$> L) ++ [l]). split_and!.
  - split; cbn [st_store st_cache c_hashtable set_table_of set_occupied]; try done.
    + eapply HT_perm; [apply Permutation_cons_append|done].
    + apply Forall2_app; [by eapply entries_relocated|]. constructor; [|constructor]. by exists (new_obj_of r).
    + apply Forall_app. split; [done|]. constructor; [exact Hsz|constructor].
    + by rewrite Hm1.
    + cbn. rewrite Hocc, total_app. simpl. pose proof (total_bound _ Hsm). rewrite u64_small; lia.
  - intros x ox [Hx|Hx]%elem_of_app Hox.
    + by eapply (relocated_unlinked _ f _ s1).
    + apply list_elem_of_singleton in Hx as ->. cbn in Hox.
      assert (ox = new_obj_of r) as -> by congruence. done.
  - cbn. intros c Hc. rewrite Hm1 in Hc.
    by rewrite (rl_mon _ _ _ _ _ Hr1 c None Hc (Hcl c Hc)).
Qed.

Lemma Random_evict_spec cap st a r :
  rand_rel_meta cap st a -> Z.of_nat (length a) <= 2 ^ 31 -> a <> [] ->
  exists o st' a', Random_evict hash st r = Ok (o, st') /\ rand_rel_meta cap st' a' /\
    (exists e, a ≡ₚ e :: a') /\
    n_lookup (c_hashtable (st_cache st')) = n_lookup (c_hashtable (st_cache st)).
Proof.
  intros (L & HB & Hun & Hcl) Hlen Hne. pose proof HB as [HHT He Hsm Hmon Hcap Hocc].
  assert (HL : L <> []) by (intros ->; by apply Forall2_nil_inv_l in He).
  destruct (chained_hashtable_rand_obj_spec hash (st_store st) (c_hashtable (st_cache st)) L (st_seed st) HHT HL)
    as (l & E1 & Hl).
  destruct (base_elem _ _ _ _ _ HB Hl) as [o Ho]. destruct (HT_nodup _ _ _ _ HHT) as [Hnd Hids].
  destruct (entries_split _ _ _ _ _ Hnd Hids He Hl Ho) as (L1 & L2 & a1 & a2 & HLe & Ha & He1 & He2 & _).
  assert (HpL : L ≡ₚ l :: (L1 ++ L2)) by (rewrite HLe; symmetry; apply Permutation_middle).
  assert (Hpa : a ≡ₚ (obj_id_int o, obj_size o) :: (a1 ++ a2)) by (rewrite Ha; symmetry; apply Permutation_middle).
  assert (Hun' : forall x, x ∈ L1 ++ L2 -> exists ox, objs (st_store st) !! x = Some ox /\ links ox = (None, None)).
  { intros x Hx. assert (x ∈ L) as HxL by (rewrite HpL; set_solver).
    destruct (base_elem _ _ _ _ _ HB HxL) as [ox Hox]. eauto. }
  pose proof (Hun l o Hl Ho) as Hlo. unfold links in Hlo.
  destruct (chained_hashtable_delete_spec hash (st_store st) (c_hashtable (st_cache st)) (L1 ++ L2) l)
    as (ht' & s2 & f & E2 & HHT2 & Hr2 & Hm2 & Hn2).
  { by eapply HT_perm. } { by apply unlinked_linked. }
  { split; [intros; congruence..|]. intros c Hc. exists None. split; [by apply Hcl|done]. }
  { apply Permutation_length in HpL. apply entries_length in He. simpl in HpL. lia. }
  unfold Random_evict. rewrite E1. cbn [rbind]. rewrite (deref_Some _ _ _ Ho). cbn [rbind].
  cbn [c_hashtable set_occupied]. rewrite E2. cbn [rbind].
  do 2 eexists. exists (a1 ++ a2). split_and!; [done| |eauto|done]. exists (f <$> (L1 ++ L2)). split_and!.
  - rewrite (total_perm _ _ Hpa) in Hocc. rewrite Hpa in Hsm.
    pose proof (total_bound _ Hsm) as Hbd. apply Forall_cons in Hsm as [Hs1 Hsm].
    pose proof (total_bound _ Hsm). apply Permutation_length in Hpa. simpl in *. unfold small_entry in Hs1. simpl in Hs1.
    split; cbn [st_store st_cache c_hashtable set_table_of set_occupied]; try done.
    + eapply entries_relocated; [exact Hr2|]. by apply Forall2_app.
    + by rewrite Hm2.
    + cbn. rewrite Hocc. rewrite u64_small by lia. lia.
  - cbn. by eapply relocated_unlinked.
  - cbn. intros c Hc. rewrite Hm2 in Hc. by rewrite (rl_mon _ _ _ _ _ Hr2 c None Hc (Hcl c Hc)).
Qed.

Lemma list_rel_req_cnt b cap st a v :
  list_rel_meta b cap st a ->
  list_rel_meta b cap (mk_state (st_store st) (set_req_cnt v (st_cache st)) (st_seed st)) a.
Proof. intros (L & [B1 B2 B3 B4 B5 B6] & HL & Hn). exists L. done. Qed.

End base.

(** the relations of the instances: some metadata *)
Definition list_rel (hash : Z -> Z) (n_obj_kept : bool) (cap : Z) (st : state) (a : list entry) : Prop :=
  exists M, list_rel_meta M hash n_obj_kept cap st a.
Definition rand_rel (hash : Z -> Z) (cap : Z) (st : state) (a : list entry) : Prop :=
  exists M, rand_rel_meta M hash cap st a.

Lemma list_rel_base hash b cap st a : list_rel hash b cap st a -> exists M L, base M hash cap st L a.
Proof. intros (M & L & HB & _). eauto. Qed.

(** Only the metadata of the cached objects matters. *)
Lemma base_meta M M' hash cap st L a :
  (forall id, id ∈ a.*1 -> M' id = M id) -> base M hash cap st L a -> base M' hash cap st L a.
Proof.
  intros HM [B1 B2 B3 B4 B5 B6]. split; try done. unfold entries in *. clear -HM B2.
  induction B2 as [|l e L a (o & Ho & H1 & H2 & H3) B2 IH]; constructor.
  - exists o. split_and!; [done..|]. rewrite H3. symmetry. apply HM. cbn. set_solver.
  - apply IH. intros id Hid. apply HM. cbn. set_solver.
Qed.

(** Metadata 0 for an id that is not cached. *)
Definition meta_zero (id : Z) (M : Z -> Z) : Z -> Z := fun j => if j =? id then 0 else M j.

Lemma base_meta_zero M hash cap st L a id :
  cached id a = false -> base M hash cap st L a -> base (meta_zero id M) hash cap st L a.
Proof.
  intros Hc. apply base_meta. intros j Hj. unfold meta_zero. destruct (Z.eqb_spec j id); [|done].
  subst. apply cached_false in Hc. done.
Qed.

Lemma list_rel_meta_zero M hash b cap st a id :
  cached id a = false -> list_rel_meta M hash b cap st a ->
  list_rel_meta (meta_zero id M) hash b cap st a.
Proof. intros Hc (L & HB & HL). exists L. split; [by apply base_meta_zero|done]. Qed.

Lemma meta_zero_eq id M : meta_zero id M id = 0.
Proof. unfold meta_zero. by rewrite Z.eqb_refl. Qed.

(** ** The instances *)

Definition any_size (cap sz : Z) : Prop := True.
Definition fits (cap sz : Z) : Prop := sz <= cap.
Definition all_fit (cap : Z) (a : list entry) : Prop := Forall (fun e => e.2 <= cap) a.
Definition no_condition (cap : Z) (a : list entry) : Prop := True.
Definition last_fits (cap : Z) (a : list entry) : Prop := exists b e, a = b ++ [e] /\ e.2 <= cap.
Definition drop_first (a a' : list entry) : Prop := exists e, a = e :: a'.
Definition drop_last (a a' : list entry) : Prop := exists e, a = a' ++ [e].
Definition drop_any (a a' : list entry) : Prop := exists e, a ≡ₚ e :: a'.
Definition several (a : list entry) : Prop := (2 <= length a)%nat.
Definition nonempty_list (a : list entry) : Prop := a <> [].

Lemma resize_len id sz a : length (resize id sz a) = length a.
Proof. unfold resize. by rewrite length_fmap. Qed.

Lemma without_le id a : (length (without id a) <= length a)%nat.
Proof. unfold without. apply length_filter. Qed.

Lemma lru_touch_len id sz a : cached id a = true -> (length (lru_touch id sz a) <= length a)%nat.
Proof.
  intros Hc. unfold lru_touch. rewrite length_app. simpl.
  apply cached_spec, list_elem_of_fmap in Hc as ([j z] & Hj & Hin). simpl in Hj. subst j.
  apply list_elem_of_split in Hin as (a1 & a2 & ->).
  unfold without. rewrite filter_app, filter_cons_False by (simpl; tauto). rewrite !length_app. simpl.
  pose proof (without_le id a1). pose proof (without_le id a2). unfold without in *. lia.
Qed.

Lemma all_fit_touch cap id sz a : all_fit cap a -> sz <= cap -> all_fit cap (lru_touch id sz a).
Proof.
  intros Ha Hsz. apply Forall_app. split; [|by repeat constructor].
  apply Forall_forall. intros e He. unfold without in He. apply list_elem_of_filter in He as [_ He].
  by eapply Forall_forall in Ha.
Qed.

Lemma all_fit_resize cap id sz a : all_fit cap a -> sz <= cap -> all_fit cap (resize id sz a).
Proof.
  intros Ha Hsz. apply Forall_fmap. eapply Forall_impl; [exact Ha|]. intros e He. simpl.
  by case_bool.
Qed.

Lemma all_fit_total cap a : 0 <= cap -> all_fit cap a -> cap < total a -> several a.
Proof.
  intros Hcap Ha Ht. unfold several. destruct a as [|e [|e' a]]; simpl in *; [lia| |lia].
  apply Forall_cons in Ha as [He _]. lia.
Qed.

Lemma last_fits_total cap a : 0 <= cap -> last_fits cap a -> cap < total a -> several a.
Proof.
  intros Hcap (b & e & -> & He) Ht. unfold several. rewrite length_app. simpl.
  destruct b; simpl in *; lia.
Qed.

(** ids of an abstract cache held by a state are distinct *)
Lemma base_nodup M hash cap st L a : base M hash cap st L a -> NoDup a.*1.
Proof.
  intros [HHT He _ _ _ _]. destruct (HT_nodup _ _ _ _ HHT) as [? ?]. by eapply entries_nodup.
Qed.

Lemma list_insert_any hash b cap st a r :
  list_rel hash b cap st a -> Z.of_nat (length a) < 2 ^ 31 -> req_ok hash r ->
  cached (req_obj_id_int r) a = false ->
  exists l st', cache_insert_LRU hash st r = Ok (l, st') /\
    list_rel hash b cap st' (a ++ [(req_obj_id_int r, req_obj_size r)]) /\
    n_lookup (c_hashtable (st_cache st')) = n_lookup (c_hashtable (st_cache st)).
Proof.
  intros [M HR] Hlen Hr Hc. pose proof (list_rel_meta_zero _ _ _ _ _ _ _ Hc HR) as HR0.
  destruct (list_insert_spec _ hash b cap st a r HR0 Hlen Hr Hc (meta_zero_eq _ _))
    as (l & st' & E & HR' & Hn).
  exists l, st'. split_and!; [done|by eexists|done].
Qed.

(** evicting from the head, under the policies that keep n_obj *)
Lemma list_evict_spec M hash cap st a r :
  list_rel_meta M hash true cap st a -> Z.of_nat (length a) <= 2 ^ 31 -> several a ->
  exists o st' a', cache_evict hash st r = Ok (o, st') /\ list_rel_meta M hash true cap st' a' /\
    drop_first a a' /\
    n_lookup (c_hashtable (st_cache st')) = n_lookup (c_hashtable (st_cache st)).
Proof.
  intros (L & HB & HL & Hno) Hlen Hev. destruct a as [|e a]; [unfold several in Hev; simpl in Hev; lia|].
  destruct (cache_evict_spec M hash cap st L e a r HB HL) as (o & st' & L' & E & _ & HB' & Hh & Ht & HL' & Hnn & Hlk);
    [by intros ->; unfold several in Hev; simpl in Hev; lia|done|].
  exists o, st', a. split_and!; [done| |by exists e|done]. exists L'. rewrite Hh, Ht.
  split_and!; [done|done|]. intros _. rewrite Hnn, Hno by done. simpl length in *. rewrite u64_small by lia. lia.
Qed.

Section instances.
  Variable hash : Z -> Z.
  #[local] Hint Resolve resize_len lru_touch_len : core.

#[export] Instance LRU_policy :
  Policy hash (LRU_ops hash) (list_rel hash true) lru_touch drop_first several no_condition last_fits any_size.
Proof.
  split.
  - intros cap st a (M & L & HB & _). apply HB.
  - intros cap st a (M & L & HB & _). apply HB.
  - intros cap st a (M & L & HB & _). by eapply base_items.
  - intros cap st a v [M HR]. exists M. by apply list_rel_req_cnt.
  - intros cap st a r n [M HR] Hroom Hn Hr.
    destruct (LRU_check_spec M hash _ cap st a r n HR Hroom Hn Hr) as (st' & r' & E & HR' & Hrest).
    exists st', r'. split; [exact E|]. split; [by exists M|done].
  - intros cap st a r HR Hlen Hr Hc.
    destruct (list_insert_any hash true cap st a r HR Hlen Hr Hc) as (l & st' & E & HR' & Hn).
    exists st'. unfold LRU_ops, LRU_insert; cbn [op_insert]. by rewrite E.
  - intros cap st a r [M HR] Hlen Hev.
    destruct (list_evict_spec M hash cap st a r HR Hlen Hev) as (o & st' & a' & E & HR' & Hd & Hn).
    exists o, st', a'. split_and!; [done|by exists M|done|done].
  - auto.
  - intros a a' [e ->]. done.
  - intros cap id sz a _ Hsz _. exists (without id a), (id, sz). split; [done|simpl; lia].
  - intros cap id sz a _ Hsz. exists a, (id, sz). split; [done|simpl; lia].
  - apply last_fits_total.
  - intros cap a a' (b & e & -> & He) Hs [x Hx]. unfold several in Hs.
    destruct b as [|y b]; [simpl in Hs; lia|]. simpl in Hx. injection Hx as -> <-. by exists b, e.
  - done.
  - done.
Qed.

#[export] Instance FIFO_policy :
  Policy hash (FIFO_ops hash) (list_rel hash true) resize drop_first several all_fit all_fit fits.
Proof.
  split.
  - intros cap st a (M & L & HB & _). apply HB.
  - intros cap st a (M & L & HB & _). apply HB.
  - intros cap st a (M & L & HB & _). by eapply base_items.
  - intros cap st a v [M HR]. exists M. by apply list_rel_req_cnt.
  - intros cap st a r n [M HR] Hroom Hn Hr.
    destruct (FIFO_check_spec M hash _ cap st a r n HR Hroom Hn Hr) as (st' & r' & E & HR' & Hrest).
    exists st', r'. split; [exact E|]. split; [by exists M|done].
  - intros cap st a r HR Hlen Hr Hc.
    destruct (list_insert_any hash true cap st a r HR Hlen Hr Hc) as (l & st' & E & HR' & Hn).
    exists st'. unfold FIFO_ops, FIFO_insert; cbn [op_insert]. by rewrite E.
  - intros cap st a r HR Hlen Hev. destruct (LRU_policy) as [_ _ _ _ _ _ Hevict _ _ _ _ _ _ _ _].
    by apply Hevict.
  - intros. by rewrite resize_len.
  - intros a a' [e ->]. done.
  - intros cap id sz a Ha Hsz _. apply all_fit_resize; [done|lia].
  - intros cap id sz a Ha Hsz. apply Forall_app. split; [done|]. repeat constructor. simpl. lia.
  - apply all_fit_total.
  - intros cap a a' Ha _ [x ->]. by apply Forall_cons in Ha as [_ ?].
  - done.
  - unfold fits. intros. lia.
Qed.

#[export] Instance MRU_policy :
  Policy hash (MRU_ops hash) (list_rel hash false) lru_touch drop_last several all_fit all_fit fits.
Proof.
  split.
  - intros cap st a (M & L & HB & _). apply HB.
  - intros cap st a (M & L & HB & _). apply HB.
  - intros cap st a (M & L & HB & _). by eapply base_items.
  - intros cap st a v [M HR]. exists M. by apply list_rel_req_cnt.
  - intros cap st a r n [M HR] Hroom Hn Hr.
    destruct (LRU_check_spec M hash _ cap st a r n HR Hroom Hn Hr) as (st' & r' & E & HR' & Hrest).
    exists st', r'. split; [exact E|]. split; [by exists M|done].
  - intros cap st a r HR Hlen Hr Hc.
    destruct (list_insert_any hash false cap st a r HR Hlen Hr Hc) as (l & st' & E & HR' & Hn).
    exists st'. unfold MRU_ops, MRU_insert; cbn [op_insert]. by rewrite E.
  - intros cap st a r (M & L & HB & HL & _) Hlen Hev.
    destruct a as [|e a _] using rev_ind; [unfold several in Hev; simpl in Hev; lia|].
    destruct (MRU_evict_spec M hash cap st L e a r HB HL) as (o & st' & L' & E & _ & HB' & Hh & Ht & HL' & _ & Hlk);
      [by intros ->; unfold several in Hev; simpl in Hev; lia|done|].
    exists o, st', a. split_and!; [done| |by exists e|done]. exists M, L'. rewrite Hh, Ht. done.
  - auto.
  - intros a a' [e ->]. rewrite length_app. simpl. lia.
  - intros cap id sz a Ha Hsz _. apply all_fit_touch; [done|lia].
  - intros cap id sz a Ha Hsz. apply Forall_app. split; [done|]. repeat constructor. simpl. lia.
  - apply all_fit_total.
  - intros cap a a' Ha _ [x ->]. by apply Forall_app in Ha as [? _].
  - done.
  - unfold fits. intros. lia.
Qed.

#[export] Instance Random_policy :
  Policy hash (Random_ops hash) (rand_rel hash) resize drop_any nonempty_list no_condition no_condition any_size.
Proof.
  split.
  - intros cap st a (M & L & HB & _). apply HB.
  - intros cap st a (M & L & HB & _). apply HB.
  - intros cap st a (M & L & HB & _). by eapply base_items.
  - intros cap st a v (M & L & [B1 B2 B3 B4 B5 B6] & Hun & Hcl). exists M, L. done.
  - intros cap st a r n [M HR] Hroom Hn Hr.
    destruct (Random_check_spec M hash cap st a r n HR Hroom Hn Hr) as (st' & r' & E & HR' & Hrest).
    exists st', r'. split; [exact E|]. split; [by exists M|done].
  - intros cap st a r (M & L & HB & HU) Hlen Hr Hc.
    assert (rand_rel_meta (meta_zero (req_obj_id_int r) M) hash cap st a) as HR
      by (exists L; split; [by apply base_meta_zero|done]).
    destruct (Random_insert_spec _ hash cap st a r HR Hlen Hr Hc (meta_zero_eq _ _)) as (st' & E & HR' & Hn).
    exists st'. split_and!; [done|by eexists|done].
  - intros cap st a r [M HR] Hlen Hev.
    destruct (Random_evict_spec M hash cap st a r HR Hlen Hev) as (o & st' & a' & E & HR' & Hd & Hn).
    exists o, st', a'. split_and!; [done|by exists M|done|done].
  - intros. by rewrite resize_len.
  - intros a a' [e He]. by apply Permutation_length in He.
  - done.
  - done.
  - intros cap a Hcap _ Ht ->. simpl in Ht. lia.
  - done.
  - done.
  - done.
Qed.

(** *** The state cache_struct_init leaves *)

Lemma new_table_HT s p :
  0 <= p <= 40 -> objs s = ∅ ->
  let '(ht, s') := create_chained_hashtable s p in
  HT hash s' ht [] /\ cells s' = cells s /\ monitored_ptrs ht = [] /\ n_lookup ht = 0.
Proof.
  intros Hp Hs. unfold create_chained_hashtable, alloc_table.
  set (s' := mk_store _ _ _). set (ht := mk_hashtable _ _ _ _ _ _ _).
  assert (Hpow : hash_power ht = p) by (apply u16_small; lia).
  assert (Hlook : forall l, objs s' !! l =
    match l with
    | TabSlot t i => if decide (t = fresh s /\ i ∈ slots p) then Some zero_obj else None
    | HeapObj _ => None
    end).
  { intros l. simpl. rewrite alloc_lookup. destruct l; by rewrite Hs, lookup_empty. }
  split_and!; [|done..]. exists (fun _ => []). split.
  - split; [lia| |done]. intros i Hi. simpl. rewrite alloc_lookup, decide_True; [done|].
    split; [done|]. apply elem_of_slots; [lia|]. unfold in_range in Hi. by rewrite Hpow in Hi.
  - intros l. split; [by intros ?%not_elem_of_nil|]. intros [i Hi]. by apply not_elem_of_nil in Hi.
  - constructor.
  - by intros l l' o o' ?%not_elem_of_nil.
  - intros l. rewrite Hlook. destruct l as [t i|]; [|by intros []].
    case_decide as Hd; [|by intros []]. intros _. destruct Hd as [-> Hi]. right. exists i.
    apply elem_of_slots in Hi; [|lia]. unfold in_range. by rewrite Hpow.
  - intros n. rewrite Hlook. by intros [].
  - simpl. lia.
  - done.
  - by intros c ?%not_elem_of_nil.
Qed.

Lemma cache_struct_init_spec params seed :
  0 <= p_cache_size params < 2 ^ 63 ->
  let st := cache_struct_init empty_store params seed in
  (forall M, base M hash (p_cache_size params) st [] []) /\
    list_repr (st_store st) (list_head (st_cache st)) (list_tail (st_cache st)) [] /\
    n_obj (st_cache st) = 0 /\ n_lookup (c_hashtable (st_cache st)) = 0.
Proof.
  intros Hcap. unfold cache_struct_init.
  set (p := if (0 <? p_hash_power params) && (p_hash_power params <? 40)
            then p_hash_power params else HASH_POWER_DEFAULT).
  assert (Hp : 0 <= p <= 40).
  { unfold p, HASH_POWER_DEFAULT. destruct (Z.ltb_spec 0 (p_hash_power params)); [|simpl; lia].
    simpl. case_bool; lia. }
  pose proof (new_table_HT (mk_store (objs empty_store)
    (<[(fresh empty_store + 1)%N := None]> (<[fresh empty_store := None]> (cells empty_store)))
    (fresh empty_store + 2)) p Hp eq_refl) as HT0.
  destruct (create_chained_hashtable _ p) as [ht s']. destruct HT0 as (HHT & Hc & Hm & Hn).
  simpl in Hc. cbv zeta. cbn [st_store st_cache list_head list_tail n_obj c_hashtable].
  assert (Hhd : cells s' !! 0%N = Some None) by (by rewrite Hc).
  assert (Htl : cells s' !! 1%N = Some None) by (by rewrite Hc).
  split_and!; [intros M| |done|done].
  - split; cbn [st_store st_cache c_hashtable list_head list_tail cache_size occupied_size]; try done.
    + destruct HHT as (B & [H1 H2 H3 H4 H5 H6 H7 H8 _]). exists B. split; try done.
      * by eapply tab_ok_same; [..|exact H1].
      * intros c Hcm. simpl in Hcm. rewrite Hm in Hcm. simpl in Hcm.
        apply elem_of_cons in Hcm as [->|Hcm]; [eauto|]. apply list_elem_of_singleton in Hcm as ->. eauto.
    + constructor.
    + simpl. by rewrite Hm.
    + apply u64_small. lia.
  - split; [done|constructor|done|done|done].
Qed.

End instances.
