(* ===== verification/CacheThms.v ===== *)
(** * The replacement policies, from cache_struct_init to whole traces

    The executable reference caches ([lru_run], [fifo_run], [mru_run]) work on the
    abstract list of entries only.  The theorems show that a run of the modelled C code
    from a freshly initialised cache ends without an error and answers exactly as the
    reference does, for every hash function and every hash table size; that the Random
    policy ends and respects its capacity; and what goes wrong outside the hypotheses. *)

From S2P Require Import Prelude.
From S2P Require Import Store.
From S2P Require Import HashTable.
From S2P Require Import Reloc.
From S2P Require Import HashTableSpec.
From S2P Require Import Cache.
From S2P Require Import CacheSpec.
From S2P Require Import Policies.

(** ** Reference caches *)

(** evict the oldest entries until the rest fits *)
Fixpoint evict_oldest (cap : Z) (a : list entry) : list entry :=
  if total a <=? cap then a
  else match a with [] => [] | _ :: a' => evict_oldest cap a' end.

(** evict the newest entries until the rest fits, on the reversed list *)
Fixpoint evict_newest_rev (cap : Z) (r : list entry) : list entry :=
  if total r <=? cap then r
  else match r with [] => [] | _ :: r' => evict_newest_rev cap r' end.
Definition evict_newest (cap : Z) (a : list entry) : list entry := rev (evict_newest_rev cap (rev a)).

Section reference.
  Variable touch : Z -> Z -> list entry -> list entry.
  Variable evict : Z -> list entry -> list entry.

Definition ref_get (cap : Z) (a : list entry) (id sz : Z) : cache_ck_res_e * list entry :=
  let hit := cached id a in
  let a1 := if hit then touch id sz a else a in
  (if hit then cache_ck_hit else cache_ck_miss,
   if sz <=? cap then evict cap (if hit then a1 else a1 ++ [(id, sz)]) else a1).

Fixpoint ref_run (cap : Z) (reqs : list entry) (a : list entry) : list cache_ck_res_e * list entry :=
  match reqs with
  | [] => ([], a)
  | (id, sz) :: reqs =>
      let '(r, a) := ref_get cap a id sz in
      let '(rs, a) := ref_run cap reqs a in
      (r :: rs, a)
  end.

End reference.

Definition lru_run := ref_run lru_touch evict_oldest.
Definition fifo_run := ref_run resize evict_oldest.
Definition mru_run := ref_run lru_touch evict_newest.

(** the (id, size) pairs of a trace *)
Definition trace_of (reqs : list request) : list entry :=
  (fun r => (req_obj_id_int r, req_obj_size r)) <$> reqs.

(** ** The relational runs of the deterministic policies are the reference runs *)

Lemma evictions_oldest cap a a' :
  evictions drop_first cap a a' -> a' = evict_oldest cap a.
Proof.
  induction 1 as [a Ht|a a1 a2 Ht [e ->] Hev IH].
  - destruct a; simpl in *; by case_bool; [|lia].
  - subst a2. cbn [evict_oldest]. by case_bool; [lia|].
Qed.

Lemma total_rev a : total (rev a) = total a.
Proof. apply total_perm. symmetry. apply Permutation_rev. Qed.

Lemma evictions_newest cap a a' :
  evictions drop_last cap a a' -> a' = evict_newest cap a.
Proof.
  unfold evict_newest. induction 1 as [a Ht|a a1 a2 Ht [e ->] Hev IH].
  - rewrite <- (rev_involutive a) at 1. f_equal. rewrite <- total_rev in Ht.
    destruct (rev a); simpl in *; by case_bool; [|lia].
  - rewrite IH, rev_app_distr. simpl rev. f_equal. cbn [app evict_newest_rev].
    rewrite <- total_rev, rev_app_distr in Ht. simpl in *.
    by case_bool; [lia|].
Qed.

Lemma run_rel_ref touch evict victim cap reqs a res a' :
  (forall b b', evictions victim cap b b' -> b' = evict cap b) ->
  run_rel touch victim cap reqs a res a' -> (res, a') = ref_run touch evict cap reqs a.
Proof.
  intros Hev Hrun. induction Hrun as [a|id sz reqs a a1 a2 res Hg Hrun IH]; [done|].
  cbn [ref_run]. unfold ref_get. unfold get_rel in Hg.
  destruct (sz <=? cap); [apply Hev in Hg as ->|subst a1]; by rewrite <- IH.
Qed.

(** ** Whole runs *)

Section runs.
  Variable hash : Z -> Z.

Definition good_trace (cap : Z) (reqs : list request) : Prop :=
  Forall (req_ok hash) reqs /\ Z.of_nat (length reqs) < 2 ^ 31 - 1.

Definition init (params : common_cache_params_t) (seed : Z) : state :=
  cache_struct_init empty_store params seed.

Lemma init_room params seed n :
  n < 2 ^ 31 - 1 -> 0 <= p_cache_size params < 2 ^ 63 -> room n (init params seed) [].
Proof.
  intros Hn Hc. destruct (cache_struct_init_spec (fun x => x) params seed Hc) as (_ & _ & _ & Hl).
  split; [simpl; lia|]. unfold init. rewrite Hl. lia.
Qed.

Lemma init_list_rel b params seed :
  0 <= p_cache_size params < 2 ^ 63 ->
  list_rel hash b (p_cache_size params) (init params seed) [].
Proof.
  intros Hc. destruct (cache_struct_init_spec hash params seed Hc) as (HB & HL & Hn & _).
  exists (fun _ => 0), []. split_and!; [apply HB|exact HL|]. intros _. exact Hn.
Qed.

Lemma init_rand_rel params seed :
  0 <= p_cache_size params < 2 ^ 63 -> rand_rel hash (p_cache_size params) (init params seed) [].
Proof.
  intros Hc. destruct (cache_struct_init_spec hash params seed Hc) as (HB & HL & _ & _).
  exists (fun _ => 0), []. split_and!; [apply HB|by intros ? ? ?%not_elem_of_nil|].
  pose proof (HB (fun _ => 0)) as [_ _ _ Hm _ _]. intros c Hcm. unfold init in Hcm. rewrite Hm in Hcm.
  destruct HL as [_ _ Hh Ht _]. apply elem_of_cons in Hcm as [->|Hcm]; [exact Hh|].
  apply list_elem_of_singleton in Hcm as ->. exact Ht.
Qed.

(** what a run from a fresh cache gives for any policy *)
Lemma run_from_init {ops rel touch victim evictable pre safe accept}
    {P : Policy hash ops rel touch victim evictable pre safe accept} params seed reqs :
  0 <= p_cache_size params < 2 ^ 63 ->
  rel (p_cache_size params) (init params seed) [] -> pre (p_cache_size params) [] ->
  good_trace (p_cache_size params) reqs ->
  Forall (fun r => accept (p_cache_size params) (req_obj_size r)) reqs ->
  exists res st a, run_gets (cache_get ops) (init params seed) reqs = Ok (res, st) /\
    run_rel touch victim (p_cache_size params) (trace_of reqs) [] res a /\
    rel (p_cache_size params) st a /\ pre (p_cache_size params) a.
Proof.
  intros Hc HR Hpre [Hreqs Hlen] Hacc.
  destruct (run_gets_spec hash (p_cache_size params) reqs (init params seed) [])
    as (res & st & a & E & Hrun & HR' & Hpre'); [lia|done|done|by apply init_room| |].
  - apply Forall_forall. intros r Hr. rewrite Forall_forall in Hreqs. rewrite Forall_forall in Hacc. auto.
  - by exists res, st, a.
Qed.

(** the run of LRU from a fresh cache *)
Lemma LRU_run_ref params seed reqs :
  0 <= p_cache_size params < 2 ^ 63 -> good_trace (p_cache_size params) reqs ->
  exists res st a,
    run_gets (LRU_get hash) (init params seed) reqs = Ok (res, st) /\
    lru_run (p_cache_size params) (trace_of reqs) [] = (res, a) /\
    list_rel hash true (p_cache_size params) st a /\
    occupied_size (st_cache st) = total a /\ n_obj (st_cache st) = Z.of_nat (length a).
Proof.
  intros Hc Hg.
  destruct (run_from_init (P := LRU_policy hash) params seed reqs Hc) as (res & st & a & E & Hrun & HR & _);
    [by apply init_list_rel|done|done|by apply Forall_forall|].
  exists res, st, a. split_and!; [exact E| |done| |].
  - symmetry. eapply run_rel_ref; [|exact Hrun]. apply evictions_oldest.
  - exact (pl_occupied hash _ _ _ HR).
  - destruct HR as (M & L & _ & _ & Hn). auto.
Qed.

(** C9.  LRU is LRU: from a fresh cache, a trace of requests (of any sizes below 2^32, also larger
    than the cache) runs without a memory error or an unbounded loop, and each answer and the final
    content, in recency order, are those of the reference LRU; occupied_size and n_obj count the
    content. The trace has fewer than 2^31 - 1 requests of sizes from 1 to 2^32 - 1, the cache fewer
    than 2^63 bytes. *)
Theorem LRU_run_refines params seed reqs :
  0 <= p_cache_size params < 2 ^ 63 -> good_trace (p_cache_size params) reqs ->
  exists res st a,
    run_gets (LRU_get hash) (init params seed) reqs = Ok (res, st) /\
    lru_run (p_cache_size params) (trace_of reqs) [] = (res, a) /\
    list_rel hash true (p_cache_size params) st a /\
    occupied_size (st_cache st) = total a /\ n_obj (st_cache st) = Z.of_nat (length a).
Proof. apply LRU_run_ref. Qed.

(** C12.  FIFO is FIFO, for requests that fit in the cache. From a fresh cache, each answer and the
    final content, in order of insertion, are those of the reference FIFO, and occupied_size and
    n_obj count the content. The trace has fewer than 2^31 - 1 requests of sizes from 1 to 2^32 - 1,
    the cache fewer than 2^63 bytes. *)
Theorem FIFO_run_refines params seed reqs :
  0 <= p_cache_size params < 2 ^ 63 -> good_trace (p_cache_size params) reqs ->
  Forall (fun r => req_obj_size r <= p_cache_size params) reqs ->
  exists res st a,
    run_gets (FIFO_get hash) (init params seed) reqs = Ok (res, st) /\
    fifo_run (p_cache_size params) (trace_of reqs) [] = (res, a) /\
    list_rel hash true (p_cache_size params) st a /\
    occupied_size (st_cache st) = total a /\ n_obj (st_cache st) = Z.of_nat (length a).
Proof.
  intros Hc Hg Hfit.
  destruct (run_from_init (P := FIFO_policy hash) params seed reqs Hc) as (res & st & a & E & Hrun & HR & _);
    [by apply init_list_rel|by constructor|done|done|].
  exists res, st, a. split_and!; [exact E| |done| |].
  - symmetry. eapply run_rel_ref; [|exact Hrun]. apply evictions_oldest.
  - exact (pl_occupied hash _ _ _ HR).
  - destruct HR as (M & L & _ & _ & Hn). auto.
Qed.

(** C13.  MRU evicts the most recently used objects, for requests that fit. The trace has fewer than
    2^31 - 1 requests of sizes from 1 to 2^32 - 1, the cache fewer than 2^63 bytes. *)
Theorem MRU_run_refines params seed reqs :
  0 <= p_cache_size params < 2 ^ 63 -> good_trace (p_cache_size params) reqs ->
  Forall (fun r => req_obj_size r <= p_cache_size params) reqs ->
  exists res st a,
    run_gets (MRU_get hash) (init params seed) reqs = Ok (res, st) /\
    mru_run (p_cache_size params) (trace_of reqs) [] = (res, a) /\
    list_rel hash false (p_cache_size params) st a /\
    occupied_size (st_cache st) = total a.
Proof.
  intros Hc Hg Hfit.
  destruct (run_from_init (P := MRU_policy hash) params seed reqs Hc) as (res & st & a & E & Hrun & HR & _);
    [by apply init_list_rel|by constructor|done|done|].
  exists res, st, a. split_and!; [exact E| |done|].
  - symmetry. eapply run_rel_ref; [|exact Hrun]. apply evictions_newest.
  - exact (pl_occupied hash _ _ _ HR).
Qed.

(** C14.  Random terminates and is safe on every trace, whatever its seed: each request is a hit
    exactly when its object is cached, each eviction removes one cached object, and evictions stop
    as soon as the content fits. The trace has fewer than 2^31 - 1 requests of sizes from 1 to 2^32
    - 1, the cache fewer than 2^63 bytes. *)
Theorem Random_run_spec params seed reqs :
  0 <= p_cache_size params < 2 ^ 63 -> good_trace (p_cache_size params) reqs ->
  exists res st a,
    run_gets (Random_get hash) (init params seed) reqs = Ok (res, st) /\
    run_rel resize drop_any (p_cache_size params) (trace_of reqs) [] res a /\
    rand_rel hash (p_cache_size params) st a /\ occupied_size (st_cache st) = total a.
Proof.
  intros Hc Hg.
  destruct (run_from_init (P := Random_policy hash) params seed reqs Hc) as (res & st & a & E & Hrun & HR & _);
    [by apply init_rand_rel|done|done|by apply Forall_forall|].
  exists res, st, a. split_and!; [exact E|done|done|]. exact (pl_occupied hash _ _ _ HR).
Qed.

(** Evicting from a cache of one object dereferences that object's NULL list_next
    (the store is the one any LRU or FIFO state may have). *)
Theorem cache_evict_single_crash cap st e r :
  list_rel hash true cap st [e] -> cache_evict hash st r = Err NullDeref.
Proof.
  intros (M & L & [_ He _ _ _ _] & [Hd _ Hh _ _] & _).
  apply Forall2_cons_inv_r in He as (l & L' & (o & Ho & _) & Hnil & ->).
  apply Forall2_nil_inv_r in Hnil as ->. destruct Hd as (o' & Ho' & Hlo & _).
  assert (o' = o) as -> by congruence. unfold links in Hlo. injection Hlo as Hon Hop.
  unfold cache_evict. cbv zeta. cbn [list_head set_n_obj].
  rewrite (cell_get_Some _ _ _ Hh). cbn [rbind head]. rewrite (deref_Some _ _ _ Ho). cbn [rbind].
  rewrite Hon. unfold cell_get. simpl. by rewrite lookup_insert_eq.
Qed.

(** LRU_remove_obj and FIFO_remove_obj never remove anything: the hash table search
    they rely on never reports the object it finds. *)
Theorem LRU_remove_obj_no_effect cap st a l o :
  list_rel hash true cap st a -> objs (st_store st) !! l = Some o ->
  0 <= n_lookup (c_hashtable (st_cache st)) < 2 ^ 64 - 1 ->
  exists st', LRU_remove_obj hash st l = Ok st' /\ st_store st' = st_store st /\
    list_rel hash true cap st' a.
Proof.
  intros (M & L & [HHT He Hsm Hmon Hcap Hocc] & HL & Hn) Ho Hlk.
  destruct (chained_hashtable_find_obj_spec hash _ _ _ l o HHT Ho Hlk) as (ht' & E & Hst & _).
  unfold LRU_remove_obj. rewrite E. cbn [rbind]. eexists. split_and!; [done|done|].
  exists M, L. split_and!; [|done|done].
  split; cbn [st_store st_cache c_hashtable set_table_of]; try done.
  - by eapply HT_same.
  - rewrite (st_mon _ _ Hst). exact Hmon.
Qed.

End runs.

(** ** Concrete runs *)

Definition id_hash (x : Z) : Z := x.
(** a hash that puts every object in the same bucket *)
Definition zero_hash (x : Z) : Z := 0.
Definition mk_req (id sz : Z) : request := mk_request 0 id sz 0 0 None 0 0 OP_INVALID_int true.
Definition small_params (cap : Z) : common_cache_params_t := mk_params cap 0 2.
Definition demo : list request :=
  [mk_req 1 4; mk_req 5 4; mk_req 1 5; mk_req 9 3; mk_req 2 2; mk_req 1 5; mk_req 5 1; mk_req 13 20; mk_req 2 3].
Definition demo_fit : list request :=
  [mk_req 1 4; mk_req 5 4; mk_req 1 5; mk_req 9 3; mk_req 2 2; mk_req 1 5; mk_req 5 1; mk_req 2 3].

(** solves [good_trace _ _] on a concrete trace *)
Ltac good_demo :=
  split; [repeat constructor; (left; reflexivity) || (split; vm_compute; reflexivity)
         |vm_compute; reflexivity].

Lemma LRU_run_refines_witness :
  exists res st a, run_gets (LRU_get id_hash) (init (small_params 10) 0) demo = Ok (res, st) /\
    lru_run 10 (trace_of demo) [] = (res, a) /\ list_rel id_hash true 10 st a /\
    occupied_size (st_cache st) = total a /\ n_obj (st_cache st) = Z.of_nat (length a).
Proof.
  apply (LRU_run_refines id_hash (small_params 10) 0 demo); [simpl; lia|good_demo].
Defined.

Lemma FIFO_run_refines_witness :
  exists res st a, run_gets (FIFO_get zero_hash) (init (small_params 10) 0) demo_fit = Ok (res, st) /\
    fifo_run 10 (trace_of demo_fit) [] = (res, a) /\ list_rel zero_hash true 10 st a /\
    occupied_size (st_cache st) = total a /\ n_obj (st_cache st) = Z.of_nat (length a).
Proof.
  apply (FIFO_run_refines zero_hash (small_params 10) 0 demo_fit); [simpl; lia|good_demo|].
  repeat constructor; vm_compute; discriminate.
Defined.

Lemma MRU_run_refines_witness :
  exists res st a, run_gets (MRU_get id_hash) (init (small_params 10) 0) demo_fit = Ok (res, st) /\
    mru_run 10 (trace_of demo_fit) [] = (res, a) /\ list_rel id_hash false 10 st a /\
    occupied_size (st_cache st) = total a.
Proof.
  apply (MRU_run_refines id_hash (small_params 10) 0 demo_fit); [simpl; lia|good_demo|].
  repeat constructor; vm_compute; discriminate.
Defined.

Lemma Random_run_spec_witness :
  exists res st a, run_gets (Random_get id_hash) (init (small_params 10) 7) demo = Ok (res, st) /\
    run_rel resize drop_any 10 (trace_of demo) [] res a /\
    rand_rel id_hash 10 st a /\ occupied_size (st_cache st) = total a.
Proof.
  apply (Random_run_spec id_hash (small_params 10) 7 demo); [simpl; lia|good_demo].
Defined.

(** the state after one request *)
Lemma one_object_state :
  exists st, run_gets (LRU_get id_hash) (init (small_params 10) 0) [mk_req 1 4] = Ok ([cache_ck_miss], st) /\
    list_rel id_hash true 10 st [(1, 4)] /\ n_lookup (c_hashtable (st_cache st)) = 0 /\
    is_Some (objs (st_store st) !! TabSlot 2 1).
Proof.
  destruct (run_from_init id_hash (P := LRU_policy id_hash) (small_params 10) 0 [mk_req 1 4])
    as (res & st & a & E & Hrun & HR & _);
    [simpl; lia|by apply init_list_rel|done|good_demo|by apply Forall_forall|].
  apply (run_rel_ref _ evict_oldest) in Hrun; [|apply evictions_oldest].
  vm_compute in Hrun. injection Hrun as -> ->.
  exists st. split_and!; [exact E|exact HR| |]; vm_compute in E; injection E as <-; [reflexivity|].
  by eexists.
Qed.

Lemma cache_evict_single_crash_witness :
  exists st, list_rel id_hash true 10 st [(1, 4)] /\ cache_evict id_hash st (mk_req 2 4) = Err NullDeref.
Proof.
  destruct one_object_state as (st & _ & HR & _). exists st. split; [exact HR|].
  exact (cache_evict_single_crash id_hash 10 st (1, 4) (mk_req 2 4) HR).
Defined.

Lemma LRU_remove_obj_no_effect_witness :
  exists st st', list_rel id_hash true 10 st [(1, 4)] /\
    LRU_remove_obj id_hash st (TabSlot 2 1) = Ok st' /\ list_rel id_hash true 10 st' [(1, 4)].
Proof.
  destruct one_object_state as (st & _ & HR & Hn & [o Ho]).
  destruct (LRU_remove_obj_no_effect id_hash 10 st [(1, 4)] (TabSlot 2 1) o HR Ho) as (st' & E & _ & HR').
  - rewrite Hn. lia.
  - exists st, st'. split_and!; [exact HR|exact E|exact HR'].
Defined.

(** The hypothesis of the FIFO theorem is needed: a hit that announces a size larger
    than the cache leaves the cache over its capacity, and the next accepted request
    evicts until it dereferences the list_next of the last object. *)
Theorem FIFO_oversized_hit_crash :
  run_gets (FIFO_get id_hash) (init (small_params 10) 0)
    [mk_req 1 5; mk_req 2 5; mk_req 2 20; mk_req 1 5] = Err NullDeref.
Proof. vm_compute. reflexivity. Qed.
