(* ===== verification/Glib.v ===== *)
(** * The GLib hash table and queue, as interfaces

    GLib is not part of the repository.  The classes list the functions of GHashTable and
    GQueue that the profilers, LRUv0 and the slab caches call, with keys and values stored as
    pointers (0 is NULL), and the laws their documentation gives.  The instances on finite
    maps and lists show that the laws can be met, and run the examples. *)

From S2P Require Import Prelude.

Class GHashTable (T : Type) := {
  g_hash_table_new : T;
  g_hash_table_lookup : T -> Z -> Z;
  g_hash_table_insert : T -> Z -> Z -> T;
  g_hash_table_remove : T -> Z -> T
}.

Class GHashTableLaws (T : Type) `{GHashTable T} := {
  g_lookup_new : forall k, g_hash_table_lookup g_hash_table_new k = 0;
  g_lookup_insert : forall t k v, g_hash_table_lookup (g_hash_table_insert t k v) k = v;
  g_lookup_insert_ne : forall t k k' v, k <> k' ->
    g_hash_table_lookup (g_hash_table_insert t k v) k' = g_hash_table_lookup t k';
  g_lookup_remove : forall t k, g_hash_table_lookup (g_hash_table_remove t k) k = 0;
  g_lookup_remove_ne : forall t k k', k <> k' ->
    g_hash_table_lookup (g_hash_table_remove t k) k' = g_hash_table_lookup t k'
}.

#[export] Instance gmap_GHashTable : GHashTable (gmap Z Z) := {
  g_hash_table_new := ∅;
  g_hash_table_lookup t k := default 0 (t !! k);
  g_hash_table_insert t k v := <[k := v]> t;
  g_hash_table_remove t k := delete k t
}.

#[export] Instance gmap_GHashTableLaws : GHashTableLaws (gmap Z Z).
Proof.
  split; intros; unfold g_hash_table_lookup, g_hash_table_insert, g_hash_table_remove, g_hash_table_new;
    simpl; by simplify_map_eq.
Qed.

(** The keys of the table, in the order in which g_hash_table_destroy visits them to free the
    values, for a table that holds no NULL. *)
Class GHashTableKeys (T : Type) := { g_hash_table_get_keys : T -> list Z }.

Class GHashTableKeysLaws (T : Type) `{GHashTable T, GHashTableKeys T} := {
  g_keys_nodup : forall t, NoDup (g_hash_table_get_keys t);
  g_keys_spec : forall t k, k ∈ g_hash_table_get_keys t <-> g_hash_table_lookup t k <> 0
}.

#[export] Instance gmap_GHashTableKeys : GHashTableKeys (gmap Z Z) := {
  g_hash_table_get_keys t := (map_to_list (filter (fun kv => kv.2 <> 0) t)).*1
}.

#[export] Instance gmap_GHashTableKeysLaws : GHashTableKeysLaws (gmap Z Z).
Proof.
  split; unfold g_hash_table_get_keys, g_hash_table_lookup; simpl.
  - intros t. apply NoDup_fst_map_to_list.
  - intros t k. rewrite list_elem_of_fmap. split.
    + intros ((k' & v) & -> & Hv%elem_of_map_to_list%map_lookup_filter_Some). destruct Hv as [E Hv].
      change (default 0 (t !! k') <> 0). by rewrite E.
    + intros Hk. destruct (t !! k) as [v|] eqn:E; [|done]. exists (k, v). split; [done|].
      by apply elem_of_map_to_list, map_lookup_filter_Some.
Qed.

(** The doubly linked queue GQueue, on the addresses of its GList links; the data of a link
    and its allocation belong to the model of the caller.  g_queue_pop_head is given the
    link it removes and frees, 0 for an empty queue; [queue_links] is the order in which
    g_queue_free_full visits the links. *)
Class GQueue (Q : Type) := {
  g_queue_new : Q;
  g_queue_push_tail_link : Q -> Z -> Q;
  g_queue_unlink : Q -> Z -> Q;
  g_queue_delete_link : Q -> Z -> Q;
  g_queue_pop_head : Q -> Z * Q;
  queue_links : Q -> list Z
}.

Class GQueueLaws (Q : Type) `{GQueue Q} := {
  g_new_links : queue_links g_queue_new = [];
  g_push_links : forall q n, queue_links (g_queue_push_tail_link q n) = queue_links q ++ [n];
  g_unlink_links : forall q l1 n l2, queue_links q = l1 ++ n :: l2 -> NoDup (l1 ++ n :: l2) ->
    queue_links (g_queue_unlink q n) = l1 ++ l2;
  g_delete_links : forall q l1 n l2, queue_links q = l1 ++ n :: l2 -> NoDup (l1 ++ n :: l2) ->
    queue_links (g_queue_delete_link q n) = l1 ++ l2;
  g_pop_empty : forall q, queue_links q = [] -> (g_queue_pop_head q).1 = 0;
  g_pop_links : forall q n l, queue_links q = n :: l ->
    (g_queue_pop_head q).1 = n /\ queue_links (g_queue_pop_head q).2 = l
}.

#[export] Instance list_GQueue : GQueue (list Z) := {
  g_queue_new := [];
  g_queue_push_tail_link q n := q ++ [n];
  g_queue_unlink q n := filter (fun m => m <> n) q;
  g_queue_delete_link q n := filter (fun m => m <> n) q;
  g_queue_pop_head q := match q with [] => (0, []) | n :: q => (n, q) end;
  queue_links q := q
}.

Lemma filter_others (n : Z) l1 l2 : NoDup (l1 ++ n :: l2) -> filter (fun m => m <> n) (l1 ++ n :: l2) = l1 ++ l2.
Proof.
  intros (_ & Hn1 & [Hn2 _]%NoDup_cons)%NoDup_app.
  assert (H : forall l : list Z, n ∉ l -> filter (fun m => m <> n) l = l).
  { induction l as [|m l IH]; [done|]. intros [Hm Hl]%not_elem_of_cons. rewrite filter_cons_True by congruence. f_equal. auto. }
  rewrite filter_app, filter_cons_False by tauto. rewrite !H; [done|done|].
  intros Hn. apply (Hn1 n Hn). by left.
Qed.

#[export] Instance list_GQueueLaws : GQueueLaws (list Z).
Proof.
  split; unfold queue_links, g_queue_new, g_queue_push_tail_link, g_queue_unlink, g_queue_delete_link, g_queue_pop_head; simpl.
  - done.
  - done.
  - intros q l1 n l2 ->. apply filter_others.
  - intros q l1 n l2 ->. apply filter_others.
  - by intros q ->.
  - by intros q n l ->.
Qed.

(** The same queue by its data: g_queue_push_tail, g_queue_peek_head, g_queue_pop_head and
    g_queue_remove on pointers that are not NULL; the queue allocates its links itself.
    Peeking and popping give 0, NULL, when the queue is empty. *)
Class GDataQueue (D : Type) := {
  gd_new : D;
  gd_push_tail : D -> Z -> D;
  gd_peek_head : D -> Z;
  gd_pop_head : D -> Z * D;
  gd_remove : D -> Z -> D;
  gd_length : D -> Z;
  gd_data : D -> list Z
}.

Class GDataQueueLaws (D : Type) `{GDataQueue D} := {
  gd_new_data : gd_data gd_new = [];
  gd_push_data : forall q x, gd_data (gd_push_tail q x) = gd_data q ++ [x];
  gd_peek_data : forall q, gd_peek_head q = match gd_data q with [] => 0 | x :: _ => x end;
  gd_pop_fst : forall q, (gd_pop_head q).1 = match gd_data q with [] => 0 | x :: _ => x end;
  gd_pop_snd : forall q, gd_data (gd_pop_head q).2 = tail (gd_data q);
  gd_remove_data : forall q l1 x l2, gd_data q = l1 ++ x :: l2 -> x ∉ l1 -> gd_data (gd_remove q x) = l1 ++ l2;
  gd_remove_other : forall q x, x ∉ gd_data q -> gd_data (gd_remove q x) = gd_data q;
  gd_length_data : forall q, gd_length q = Z.of_nat (length (gd_data q))
}.

Fixpoint remove_first (x : Z) (l : list Z) : list Z :=
  match l with
  | [] => []
  | y :: l => if y =? x then l else y :: remove_first x l
  end.

#[export] Instance list_GDataQueue : GDataQueue (list Z) := {
  gd_new := [];
  gd_push_tail q x := q ++ [x];
  gd_peek_head q := match q with [] => 0 | x :: _ => x end;
  gd_pop_head q := match q with [] => (0, []) | x :: q => (x, q) end;
  gd_remove q x := remove_first x q;
  gd_length q := Z.of_nat (length q);
  gd_data q := q
}.

#[export] Instance list_GDataQueueLaws : GDataQueueLaws (list Z).
Proof.
  split; unfold gd_data, gd_new, gd_push_tail, gd_peek_head, gd_pop_head, gd_remove, gd_length; cbn; try done.
  - by intros [|x q].
  - by intros [|x q].
  - intros q l1 x l2 ->. induction l1 as [|y l1 IH]; cbn [app remove_first]; intros Hx.
    + by rewrite Z.eqb_refl.
    + apply not_elem_of_cons in Hx as [Hne Hx]. destruct (Z.eqb_spec y x); [congruence|]. f_equal. auto.
  - induction q as [|y q IH]; intros x Hx; [done|]. apply not_elem_of_cons in Hx as [Hne Hx].
    cbn [remove_first]. destruct (Z.eqb_spec y x); [congruence|]. f_equal. auto.
Qed.
