(* ===== verification/Splay.v ===== *)
(** * The splay tree of the stack-distance profiler (dataStructure/splay.c)

    Top-down splaying.  The two trees the C code builds by following r->left and
    l->rg from the dummy node N are kept as the lists of the nodes linked so far, in
    linking order; [assemble_l] and [assemble_r] are the two loops that correct the sizes
    and the final assembly.  No node is shared, so the pointer updates are modelled by
    rebuilding trees.  key_cmp wraps as the difference of two long longs does, and the key
    of sedgewickized_splay is cut to an int. *)

From S2P Require Import Prelude.
From Stdlib Require Export Sorted.

Inductive sTree :=
  | Leaf                                                  (* NULL *)
  | Node (tleft : sTree) (key value : Z) (tright : sTree).

Definition node_value (t : sTree) : Z := match t with Leaf => 0 | Node _ _ v _ => v end.

(** key_cmp(i,j): a difference of two keys of type long long, itself a long long, which
    wraps around when the keys are 2^63 apart or more *)
Definition key_cmp (i j : Z) : Z := i64 (i - j).

Record splay_state := mk_sp {
  sp_l : list (sTree * Z);     (* nodes linked to the left tree: left child and key *)
  sp_r : list (Z * sTree);     (* nodes linked to the right tree: key and right child *)
  l_size : Z;
  r_size : Z
}.

(** the for(;;) loop: what is linked on both sides and the tree it breaks with *)
Fixpoint splay_loop (fuel : nat) (i : Z) (t : sTree) (st : splay_state)
    : result (splay_state * sTree) :=
  match fuel with
  | O => Err OutOfFuel
  | S fuel =>
    let link_right (t : sTree) : result (splay_state * sTree) :=
      match t with
      | Leaf => Err NullDeref
      | Node lf k v rg =>
          splay_loop fuel i lf
            (mk_sp (sp_l st) (sp_r st ++ [(k, rg)]) (l_size st) (r_size st + (1 + node_value rg)))
      end in
    let link_left (t : sTree) : result (splay_state * sTree) :=
      match t with
      | Leaf => Err NullDeref
      | Node lf k v rg =>
          splay_loop fuel i rg
            (mk_sp (sp_l st ++ [(lf, k)]) (sp_r st) (l_size st + (1 + node_value lf)) (r_size st))
      end in
    match t with
    | Leaf => Err NullDeref
    | Node lf k v rg =>
      if key_cmp i k <? 0 then
        match lf with
        | Leaf => Ok (st, t)
        | Node yl yk yv yr =>
            if key_cmp i yk <? 0 then
              (* rotate right *)
              let t' := Node yr k (node_value yr + node_value rg + 1) rg in
              let y := Node yl yk yv t' in
              match yl with
              | Leaf => Ok (st, y)
              | Node _ _ _ _ => link_right y
              end
            else link_right t
        end
      else if key_cmp i k >? 0 then
        match rg with
        | Leaf => Ok (st, t)
        | Node yl yk yv yr =>
            if key_cmp i yk >? 0 then
              (* rotate left *)
              let t' := Node lf k (node_value lf + node_value yl + 1) yl in
              let y := Node t' yk yv yr in
              match yr with
              | Leaf => Ok (st, y)
              | Node _ _ _ _ => link_left y
              end
            else link_left t
        end
      else Ok (st, t)
    end
  end.

(** the loop along N.right with l->right = t->left *)
Fixpoint assemble_l (l : list (sTree * Z)) (size : Z) (t_left : sTree) : sTree :=
  match l with
  | [] => t_left
  | (lf, k) :: l => Node lf k size (assemble_l l (size - (1 + node_value lf)) t_left)
  end.

(** the loop along N.left with r->left = t->right *)
Fixpoint assemble_r (r : list (Z * sTree)) (size : Z) (t_right : sTree) : sTree :=
  match r with
  | [] => t_right
  | (k, rg) :: r => Node (assemble_r r (size - (1 + node_value rg)) t_right) k size rg
  end.

(** the number of nodes, which bounds the splay loop *)
Fixpoint size (t : sTree) : nat :=
  match t with Leaf => O | Node l _ _ r => S (size l + size r) end.

Definition splay (i : Z) (t : sTree) : result sTree :=
  match t with
  | Leaf => Ok Leaf
  | Node _ _ _ _ =>
      let! '(st, t) := splay_loop (S (size t)) i t (mk_sp [] [] 0 0) in
      match t with
      | Leaf => Err NullDeref
      | Node lf k v rg =>
          let l_size := l_size st + node_value lf in
          let r_size := r_size st + node_value rg in
          Ok (Node (assemble_l (sp_l st) l_size lf) k (l_size + r_size + 1)
                (assemble_r (sp_r st) r_size rg))
      end
  end.

Definition insert (i : Z) (t : sTree) : result sTree :=
  match t with
  | Leaf => Ok (Node Leaf i 1 Leaf)
  | Node _ _ _ _ =>
      let! t := splay i t in
      match t with
      | Leaf => Err NullDeref
      | Node lf k v rg =>
          if key_cmp i k <? 0 then
            let t := Node Leaf k (1 + node_value rg) rg in
            Ok (Node lf i (1 + node_value lf + node_value t) t)
          else if key_cmp i k >? 0 then
            let t := Node lf k (1 + node_value lf) Leaf in
            Ok (Node t i (1 + node_value t + node_value rg) rg)
          else
            let! _ := cassert (v =? 1 + node_value lf + node_value rg) in
            Ok t
      end
  end.

Definition splay_delete (i : Z) (t : sTree) : result sTree :=
  match t with
  | Leaf => Ok Leaf
  | Node _ _ root_value _ =>
      let! t := splay i t in
      match t with
      | Leaf => Err NullDeref
      | Node lf k v rg =>
          if key_cmp i k =? 0 then
            match lf with
            | Leaf =>
                match rg with
                | Leaf => Ok Leaf
                | Node l k' _ r => Ok (Node l k' (root_value - 1) r)
                end
            | Node _ _ _ _ =>
                let! x := splay i lf in
                match x with
                | Leaf => Err NullDeref
                | Node xl xk _ _ => Ok (Node xl xk (root_value - 1) rg)
                end
            end
          else Ok t
      end
  end.

(** check_sTree: its assertion at every node *)
Fixpoint check_sTree (t : sTree) : bool :=
  match t with
  | Leaf => true
  | Node l _ v r => (v =? node_value l + node_value r + 1) && check_sTree l && check_sTree r
  end.

(** sedgewickized_splay, which keeps no sizes *)
Fixpoint sedgewick_loop (fuel : nat) (i : Z) (t : sTree) (ls : list (sTree * Z * Z))
    (rs : list (Z * Z * sTree)) : result (list (sTree * Z * Z) * list (Z * Z * sTree) * sTree) :=
  match fuel with
  | O => Err OutOfFuel
  | S fuel =>
    match t with
    | Leaf => Err NullDeref
    | Node lf k v rg =>
      if i <? k then
        let t' := match lf with
                  | Leaf => t
                  | Node yl yk yv yr => if i <? yk then Node yl yk yv (Node yr k v rg) else t
                  end in
        match t' with
        | Leaf => Err NullDeref
        | Node Leaf _ _ _ => Ok (ls, rs, t')
        | Node l' k' v' r' => sedgewick_loop fuel i l' ls (rs ++ [(k', v', r')])
        end
      else if i >? k then
        let t' := match rg with
                  | Leaf => t
                  | Node yl yk yv yr => if i >? yk then Node (Node lf k v yl) yk yv yr else t
                  end in
        match t' with
        | Leaf => Err NullDeref
        | Node _ _ _ Leaf => Ok (ls, rs, t')
        | Node l' k' v' r' => sedgewick_loop fuel i r' (ls ++ [(l', k', v')]) rs
        end
      else Ok (ls, rs, t)
    end
  end.

(** its key is an int: a key that does not fit is truncated by the call *)
Definition sedgewickized_splay (i : Z) (t : sTree) : result sTree :=
  let i := i32 i in
  match t with
  | Leaf => Ok Leaf
  | Node _ _ _ _ =>
      let! '(ls, rs, t) := sedgewick_loop (S (size t)) i t [] [] in
      match t with
      | Leaf => Err NullDeref
      | Node lf k v rg =>
          let lt := foldr (fun '(l, k, v) t => Node l k v t) lf ls in
          let rt := foldr (fun '(k, v, r) t => Node t k v r) rg rs in
          Ok (Node lt k v rt)
      end
  end.

(** ** Meaning of a tree: its keys in order, and sizes that count them *)

Fixpoint keys (t : sTree) : list Z :=
  match t with Leaf => [] | Node l k _ r => keys l ++ k :: keys r end.

Definition len (l : list Z) : Z := Z.of_nat (length l).

Fixpoint sized (t : sTree) : Prop :=
  match t with
  | Leaf => True
  | Node l k v r => v = len (keys l) + len (keys r) + 1 /\ sized l /\ sized r
  end.

(** both children are well sized; the size of the root itself may be stale *)
Definition sub_sized (t : sTree) : Prop :=
  match t with Leaf => True | Node l _ _ r => sized l /\ sized r end.

Definition keys_l (l : list (sTree * Z)) : list Z := flat_map (fun e => keys e.1 ++ [e.2]) l.
Definition keys_r (r : list (Z * sTree)) : list Z := flat_map (fun e => e.1 :: keys e.2) (rev r).

Lemma len_app a b : len (a ++ b) = len a + len b.
Proof. unfold len. rewrite length_app. lia. Qed.
Lemma len_cons x a : len (x :: a) = 1 + len a.
Proof. unfold len. simpl. lia. Qed.
Lemma len_nonneg a : 0 <= len a.
Proof. unfold len. lia. Qed.

Create Rewrite HintDb len.
#[export] Hint Rewrite len_app len_cons : len.

Lemma sized_value t : sized t -> node_value t = len (keys t).
Proof. destruct t as [|l k v r]; [done|]. intros (-> & _). simpl. autorewrite with len. lia. Qed.

Lemma sized_sub t : sized t -> sub_sized t.
Proof. destruct t; simpl; tauto. Qed.

Lemma check_sTree_spec t : check_sTree t = true <-> sized t.
Proof.
  induction t as [|l IHl k v r IHr]; simpl; [done|].
  rewrite !andb_true_iff, IHl, IHr, Z.eqb_eq. split.
  - intros [[-> Hl] Hr]. rewrite !sized_value by done. split_and!; [lia|done|done].
  - intros (-> & Hl & Hr). rewrite !sized_value by done. split_and!; [lia|done|done].
Qed.

Lemma keys_l_snoc l e : keys_l (l ++ [e]) = keys_l l ++ keys e.1 ++ [e.2].
Proof. unfold keys_l. rewrite flat_map_app. simpl. by rewrite app_nil_r. Qed.
Lemma keys_r_snoc r e : keys_r (r ++ [e]) = (e.1 :: keys e.2) ++ keys_r r.
Proof. unfold keys_r. by rewrite rev_app_distr. Qed.

Lemma assemble_l_spec l tl n :
  Forall (fun e => sized e.1) l -> sized tl -> n = len (keys_l l ++ keys tl) ->
  keys (assemble_l l n tl) = keys_l l ++ keys tl /\ sized (assemble_l l n tl).
Proof.
  intros Hl Ht. revert n; induction Hl as [|[lf k] l Hs Hl IH]; intros n ->; simpl; [done|].
  simpl in Hs. destruct (IH (len (keys_l l ++ keys tl)) eq_refl) as [IH1 IH2].
  rewrite sized_value by done.
  replace (len (((keys lf ++ [k]) ++ keys_l l) ++ keys tl) - (1 + len (keys lf)))
    with (len (keys_l l ++ keys tl)) by (autorewrite with len; change (len []) with 0; lia).
  rewrite IH1. split_and!; [by rewrite <- !app_assoc| |done|done].
  autorewrite with len. change (len []) with 0. lia.
Qed.

Lemma assemble_r_spec r tr n :
  Forall (fun e => sized e.2) r -> sized tr -> n = len (keys tr ++ keys_r r) ->
  keys (assemble_r r n tr) = keys tr ++ keys_r r /\ sized (assemble_r r n tr).
Proof.
  intros Hr Ht. revert n; induction Hr as [|[k rg] r Hs Hr IH]; intros n ->; simpl.
  - by rewrite app_nil_r.
  - assert (Hk : keys_r ((k, rg) :: r) = keys_r r ++ (k :: keys rg)).
    { unfold keys_r. simpl. rewrite flat_map_app. simpl. by rewrite app_nil_r. }
    rewrite Hk. simpl in Hs. destruct (IH (len (keys tr ++ keys_r r)) eq_refl) as [IH1 IH2].
    rewrite sized_value by done.
    replace (len (keys tr ++ keys_r r ++ k :: keys rg) - (1 + len (keys rg)))
      with (len (keys tr ++ keys_r r)) by (autorewrite with len; lia).
    rewrite IH1. split_and!; [by rewrite <- !app_assoc| |done|done].
    autorewrite with len. lia.
Qed.

(** The loop keeps the keys, and its size counters count what is linked. *)
Record sp_ok (st : splay_state) : Prop := {
  so_l : Forall (fun e => sized e.1) (sp_l st);
  so_r : Forall (fun e => sized e.2) (sp_r st);
  so_ls : l_size st = len (keys_l (sp_l st));
  so_rs : r_size st = len (keys_r (sp_r st))
}.

Lemma size_keys t : size t = length (keys t).
Proof. induction t; simpl; [done|]. rewrite length_app. simpl. lia. Qed.

Lemma link_right_ok st k rg :
  sp_ok st -> sized rg ->
  sp_ok (mk_sp (sp_l st) (sp_r st ++ [(k, rg)]) (l_size st) (r_size st + (1 + node_value rg))).
Proof.
  intros [H1 H2 H3 H4] Hr. split; simpl; try done.
  - apply Forall_app. split; [done|]. by repeat constructor.
  - rewrite keys_r_snoc, H4, sized_value by done. simpl. autorewrite with len. lia.
Qed.

Lemma link_left_ok st k lf :
  sp_ok st -> sized lf ->
  sp_ok (mk_sp (sp_l st ++ [(lf, k)]) (sp_r st) (l_size st + (1 + node_value lf)) (r_size st)).
Proof.
  intros [H1 H2 H3 H4] Hr. split; simpl; try done.
  - apply Forall_app. split; [done|]. by repeat constructor.
  - rewrite keys_l_snoc, H3, sized_value by done. simpl. autorewrite with len. change (len []) with 0. lia.
Qed.


(** *** Search order *)

Definition sorted (l : list Z) : Prop := StronglySorted Z.lt l.

Lemma sorted_app a b :
  sorted (a ++ b) <-> sorted a /\ sorted b /\ (forall x y, x ∈ a -> y ∈ b -> x < y).
Proof.
  unfold sorted. induction a as [|x a IH]; simpl.
  - split; [|tauto]. intros H. split_and!; [constructor|done|by intros ? ? ?%not_elem_of_nil].
  - split.
    + intros H. apply StronglySorted_inv in H as [H Hx]. apply IH in H as (H1 & H2 & H3).
      rewrite Forall_forall in Hx. split_and!; [constructor; [done|]|done|].
      * apply Forall_forall. intros y Hy. apply Hx. set_solver.
      * intros y z [->|Hy]%elem_of_cons Hz; [apply Hx; set_solver|auto].
    + intros (H1 & H2 & H3). apply StronglySorted_inv in H1 as [H1 Hx]. constructor.
      * apply IH. split_and!; [done|done|]. intros. apply H3; set_solver.
      * apply Forall_app. split; [done|]. apply Forall_forall. intros. apply H3; set_solver.
Qed.

Lemma sorted_mid a k b :
  sorted (a ++ k :: b) -> (forall x, x ∈ a -> x < k) /\ (forall x, x ∈ b -> k < x).
Proof.
  intros (_ & H2 & H3)%sorted_app. split; [intros; apply H3; set_solver|].
  apply StronglySorted_inv in H2 as [_ H2]. by rewrite Forall_forall in H2.
Qed.

(** in a splay for [i], what is linked left is below [i] and what is linked right above *)
Definition around (i : Z) (st : splay_state) : Prop :=
  (forall x, x ∈ keys_l (sp_l st) -> x < i) /\ (forall x, x ∈ keys_r (sp_r st) -> i < x).

Lemma around_right i st k rg n1 n2 : around i st -> i < k -> (forall x, x ∈ keys rg -> k < x) ->
  around i (mk_sp (sp_l st) (sp_r st ++ [(k, rg)]) n1 n2).
Proof.
  intros [H1 H2] Hk Hr. split; cbn [sp_l sp_r]; [done|]. rewrite keys_r_snoc. cbn [fst snd].
  intros x [[->|Hx]%elem_of_cons|Hx]%elem_of_app; [done| |auto]. specialize (Hr x Hx). lia.
Qed.

Lemma around_left i st k lf n1 n2 : around i st -> k < i -> (forall x, x ∈ keys lf -> x < k) ->
  around i (mk_sp (sp_l st ++ [(lf, k)]) (sp_r st) n1 n2).
Proof.
  intros [H1 H2] Hk Hr. split; cbn [sp_l sp_r]; [|done]. rewrite keys_l_snoc. cbn [fst snd].
  intros x [Hx|[Hx|Hx]%elem_of_app]%elem_of_app; [auto| |].
  - specialize (Hr x Hx). lia.
  - by apply list_elem_of_singleton in Hx as ->.
Qed.

(** where the loop stops: at [i], or with no neighbour left on the side of [i] *)
Definition stopped (i : Z) (t : sTree) : Prop :=
  match t with
  | Leaf => False
  | Node l k _ r => k = i \/ (i < k /\ l = Leaf) \/ (k < i /\ r = Leaf)
  end.

Record loop_post (i : Z) (t : sTree) (st : splay_state) (t' : sTree) (st' : splay_state) : Prop := {
  lp_ok : sp_ok st';
  lp_sized : sub_sized t';
  lp_stopped : stopped i t';
  lp_keys : keys_l (sp_l st') ++ keys t' ++ keys_r (sp_r st') =
            keys_l (sp_l st) ++ keys t ++ keys_r (sp_r st);
  lp_around : sorted (keys t) -> around i st -> around i st'
}.

(** The loop only moves keys between the linked parts and the current tree. *)
Lemma loop_post_link i t st t1 st1 t' st' :
  keys_l (sp_l st1) ++ keys t1 ++ keys_r (sp_r st1) = keys_l (sp_l st) ++ keys t ++ keys_r (sp_r st) ->
  (sorted (keys t) -> sorted (keys t1) /\ (around i st -> around i st1)) ->
  loop_post i t1 st1 t' st' -> loop_post i t st t' st'.
Proof.
  intros Hk Ha [H1 H2 H3 H4 H5]. split; [done|done|done|by rewrite H4|].
  intros Hs Har. destruct (Ha Hs) as [Hs1 Ha1]. by apply H5; [|apply Ha1].
Qed.

(** one turn of the loop that links the root [k] to the right and goes left *)
Lemma loop_right i lf k v rg st st' t' :
  i < k ->
  loop_post i lf (mk_sp (sp_l st) (sp_r st ++ [(k, rg)]) (l_size st) (r_size st + (1 + node_value rg))) t' st' ->
  loop_post i (Node lf k v rg) st t' st'.
Proof.
  intros Hik. apply loop_post_link.
  - cbn [sp_l sp_r]. rewrite keys_r_snoc. cbn [fst snd keys]. by rewrite <- !app_assoc.
  - cbn [keys]. intros Hs. split; [by apply sorted_app in Hs as [? _]|].
    intros Ha. apply around_right; [done|done|]. by apply sorted_mid in Hs as [_ ?].
Qed.

Lemma loop_left i lf k v rg st st' t' :
  k < i ->
  loop_post i rg (mk_sp (sp_l st ++ [(lf, k)]) (sp_r st) (l_size st + (1 + node_value lf)) (r_size st)) t' st' ->
  loop_post i (Node lf k v rg) st t' st'.
Proof.
  intros Hik. apply loop_post_link.
  - cbn [sp_l sp_r]. rewrite keys_l_snoc. cbn [fst snd keys]. rewrite <- !app_assoc. simpl. done.
  - cbn [keys]. intros Hs. split.
    + apply sorted_app in Hs as (_ & Hs & _). by apply StronglySorted_inv in Hs as [? _].
    + intros Ha. apply around_left; [done|done|]. by apply sorted_mid in Hs as [? _].
Qed.

Lemma loop_stop i t st : sp_ok st -> sub_sized t -> stopped i t -> loop_post i t st t st.
Proof. by split. Qed.

(** a rotation keeps the keys *)
Lemma loop_rotate i t t1 st t' st' : keys t1 = keys t -> loop_post i t1 st t' st' -> loop_post i t st t' st'.
Proof. intros Hk. apply loop_post_link; [by rewrite Hk|]. by rewrite Hk. Qed.

(** *** Keys that key_cmp compares *)

(** the difference of the two keys is a long long *)
Definition comparable (i k : Z) : Prop := - 2 ^ 63 <= i - k < 2 ^ 63.

#[export] Instance comparable_dec i k : Decision (comparable i k).
Proof. unfold comparable. apply _. Defined.

Lemma key_cmp_comparable i k : comparable i k -> key_cmp i k = i - k.
Proof. apply i64_small. Qed.

(** [i] can be compared with every key of the tree *)
Definition near (i : Z) (t : sTree) : Prop := Forall (comparable i) (keys t).

#[export] Instance near_dec i t : Decision (near i t).
Proof. unfold near. apply _. Defined.

Lemma near_node i l k v r : near i (Node l k v r) <-> comparable i k /\ near i l /\ near i r.
Proof. unfold near. cbn [keys]. rewrite Forall_app, Forall_cons. tauto. Qed.

Lemma near_incl i t t' : (forall x, x ∈ keys t' -> x ∈ keys t) -> near i t -> near i t'.
Proof. unfold near. rewrite !Forall_forall. auto. Qed.

Lemma near_keys i t t' : keys t' = keys t -> near i t -> near i t'.
Proof. unfold near. by intros ->. Qed.

(** keys of a window of 2^63 values are comparable *)
Definition in_window (lo x : Z) : Prop := lo <= x < lo + 2 ^ 63.

Lemma in_window_near lo i t : in_window lo i -> Forall (in_window lo) (keys t) -> near i t.
Proof.
  unfold near. rewrite !Forall_forall. unfold comparable, in_window. intros Hi Hl x Hx.
  specialize (Hl x Hx). lia.
Qed.

Lemma splay_loop_spec fuel : forall i t st,
  (size t < fuel)%nat -> t <> Leaf -> sub_sized t -> sp_ok st -> near i t ->
  exists st' t', splay_loop fuel i t st = Ok (st', t') /\ loop_post i t st t' st'.
Proof.
  induction fuel as [|fuel IH]; intros i t st Hf Hne Ht Hok Hn; [lia|].
  destruct t as [|lf k v rg]; [done|]. destruct Ht as [Hl Hr]. cbn [splay_loop].
  apply near_node in Hn as (Hnk & Hnl & Hnr). rewrite (key_cmp_comparable i k) by done.
  simpl in Hf. destruct (Z.ltb_spec (i - k) 0).
  - destruct lf as [|yl yk yv yr].
    { do 2 eexists. split; [done|]. apply loop_stop; [done..|]. right; left. split; [lia|done]. }
    destruct Hl as (Hyv & Hyl & Hyr). apply near_node in Hnl as (Hny & Hnyl & Hnyr).
    rewrite (key_cmp_comparable i yk) by done. simpl in Hf.
    destruct (Z.ltb_spec (i - yk) 0).
    + set (t' := Node yr k (node_value yr + node_value rg + 1) rg).
      assert (Ht' : sized t') by (simpl; rewrite !sized_value by done; split_and!; [lia|done|done]).
      assert (Hkeys : keys (Node yl yk yv t') = keys (Node (Node yl yk yv yr) k v rg))
        by (simpl; by rewrite <- app_assoc).
      destruct yl as [|a b c d].
      { do 2 eexists. split; [done|]. eapply loop_rotate; [exact Hkeys|].
        apply loop_stop; [done..|]. right; left. split; [lia|done]. }
      edestruct (IH i (Node a b c d)) as (st' & t1 & -> & HP);
        [simpl in *; lia|done|by apply sized_sub|by apply link_right_ok|done|].
      do 2 eexists. split; [done|]. eapply loop_rotate; [exact Hkeys|]. eapply loop_right; [lia|exact HP].
    + edestruct (IH i (Node yl yk yv yr)) as (st' & t1 & -> & HP);
        [simpl; lia|done|done|by apply link_right_ok|rewrite ?near_node; tauto|].
      do 2 eexists. split; [done|]. eapply loop_right; [lia|exact HP].
  - destruct (Z.gtb_spec (i - k) 0).
    + destruct rg as [|yl yk yv yr].
      { do 2 eexists. split; [done|]. apply loop_stop; [done..|]. right; right. split; [lia|done]. }
      destruct Hr as (Hyv & Hyl & Hyr). apply near_node in Hnr as (Hny & Hnyl & Hnyr).
      rewrite (key_cmp_comparable i yk) by done. simpl in Hf.
      destruct (Z.gtb_spec (i - yk) 0).
      * set (t' := Node lf k (node_value lf + node_value yl + 1) yl).
        assert (Ht' : sized t') by (simpl; rewrite !sized_value by done; split_and!; [lia|done|done]).
        assert (Hkeys : keys (Node t' yk yv yr) = keys (Node lf k v (Node yl yk yv yr)))
          by (simpl; by rewrite <- app_assoc).
        destruct yr as [|a b c d].
        { do 2 eexists. split; [done|]. eapply loop_rotate; [exact Hkeys|].
          apply loop_stop; [done..|]. right; right. split; [lia|done]. }
        edestruct (IH i (Node a b c d)) as (st' & t1 & -> & HP);
          [simpl in *; lia|done|by apply sized_sub|by apply link_left_ok|done|].
        do 2 eexists. split; [done|]. eapply loop_rotate; [exact Hkeys|]. eapply loop_left; [lia|exact HP].
      * edestruct (IH i (Node yl yk yv yr)) as (st' & t1 & -> & HP);
          [simpl; lia|done|done|by apply link_left_ok|rewrite ?near_node; tauto|].
        do 2 eexists. split; [done|]. eapply loop_left; [lia|exact HP].
    + do 2 eexists. split; [done|]. apply loop_stop; [done..|]. left. lia.
Qed.

(** Splaying keeps the keys and repairs all sizes.  In a search tree the root of the
    result separates the keys at [i]: its left subtree holds keys below [i], its right
    subtree keys above, and the root is [i] if the tree has it. *)
Lemma splay_spec i t :
  sized t -> t <> Leaf -> near i t ->
  exists l k v r, splay i t = Ok (Node l k v r) /\ keys l ++ k :: keys r = keys t /\
    sized (Node l k v r) /\
    (sorted (keys t) -> (i ∈ keys t -> k = i) /\
       (forall x, x ∈ keys l -> x < i) /\ (forall x, x ∈ keys r -> i < x)).
Proof.
  intros Ht Hne Hn. destruct t as [|lf k v rg]; [done|].
  destruct (splay_loop_spec (S (size (Node lf k v rg))) i (Node lf k v rg) (mk_sp [] [] 0 0))
    as (st & t' & E & [[H1 H2 H3 H4] Hs Hst Hk Har]); [lia|done|by apply sized_sub|by split|done|].
  unfold splay. rewrite E. cbn [rbind]. destruct t' as [|l' k' v' r']; [done|].
  destruct Hs as [Hl' Hr']. do 4 eexists. split; [done|].
  destruct (assemble_l_spec (sp_l st) l' (l_size st + node_value l') H1 Hl') as [A1 A2].
  { rewrite H3, sized_value by done. by autorewrite with len. }
  destruct (assemble_r_spec (sp_r st) r' (r_size st + node_value r') H2 Hr') as [B1 B2].
  { rewrite H4, sized_value by done. autorewrite with len. lia. }
  set (t0 := Node lf k v rg) in *. cbn [sp_l sp_r keys_l keys_r flat_map rev app] in Hk.
  rewrite app_nil_r in Hk.
  assert (Hkeys : (keys_l (sp_l st) ++ keys l') ++ k' :: keys r' ++ keys_r (sp_r st) = keys t0).
  { rewrite <- Hk. cbn [keys]. by rewrite <- !app_assoc. }
  cbn [sized]. rewrite A1, B1. split_and!; [done| |done|done|].
  - rewrite H3, H4, !sized_value by done. autorewrite with len. lia.
  - intros Hsort. destruct Har as [Ha1 Ha2]; [done|by split; intros x ?%not_elem_of_nil|].
    pose proof Hsort as Hs'. rewrite <- Hkeys in Hs'. apply sorted_mid in Hs' as [Hlt Hgt].
    assert (Hkk : (forall x, x ∈ keys l' -> x < i) /\ (forall x, x ∈ keys r' -> i < x)).
    { destruct Hst as [->|[[Hik ->]|[Hki ->]]].
      - split; intros x Hx; [apply Hlt|apply Hgt]; set_solver.
      - split; [by intros x ?%not_elem_of_nil|]. intros x Hx.
        assert (k' < x) by (apply Hgt; set_solver). lia.
      - split; [|by intros x ?%not_elem_of_nil]. intros x Hx.
        assert (x < k') by (apply Hlt; set_solver). lia. }
    destruct Hkk as [Hkl Hkr]. split_and!.
    + rewrite <- Hkeys. intros [[Hi|Hi]%elem_of_app|[->|[Hi|Hi]%elem_of_app]%elem_of_cons]%elem_of_app; [..|].
      * specialize (Ha1 i Hi). lia.
      * specialize (Hkl i Hi). lia.
      * done.
      * specialize (Hkr i Hi). lia.
      * specialize (Ha2 i Hi). lia.
    + intros x [Hx|Hx]%elem_of_app; auto.
    + intros x [Hx|Hx]%elem_of_app; auto.
Qed.

Lemma keys_nil t : keys t = [] -> t = Leaf.
Proof. destruct t as [|l k v r]; [done|]. simpl. by destruct (keys l). Qed.

(** Insertion adds the key at its place, or changes nothing when it is there. *)
Lemma insert_spec i t :
  sized t -> sorted (keys t) -> near i t ->
  exists t' a b, insert i t = Ok t' /\ sized t' /\ keys t' = a ++ i :: b /\
    (keys t = a ++ b \/ keys t = a ++ i :: b) /\ sorted (keys t').
Proof.
  intros Ht Hs Hn. destruct t as [|lf0 k0 v0 rg0] eqn:Et.
  { exists (Node Leaf i 1 Leaf), [], []. split_and!; [done|done|done|by left|by repeat constructor]. }
  rewrite <- Et in *.
  destruct (splay_spec i t Ht) as (l & k & v & r & E & Hk & Hsz & Hsp); [by rewrite Et|done|].
  apply (near_keys i t (Node l k v r)) in Hn; [|done]. apply near_node in Hn as (Hnk & _).
  destruct (Hsp Hs) as (Hi & Hl & Hr). destruct Hsz as (Hv & Hsl & Hsr).
  assert (Hins : insert i t = let! t := splay i t in
      match t with
      | Leaf => Err NullDeref
      | Node lf k v rg =>
          if key_cmp i k <? 0 then
            let t := Node Leaf k (1 + node_value rg) rg in
            Ok (Node lf i (1 + node_value lf + node_value t) t)
          else if key_cmp i k >? 0 then
            let t := Node lf k (1 + node_value lf) Leaf in
            Ok (Node t i (1 + node_value t + node_value rg) rg)
          else
            let! _ := cassert (v =? 1 + node_value lf + node_value rg) in
            Ok t
      end) by (by rewrite Et).
  rewrite Hins, E. cbn [rbind]. rewrite (key_cmp_comparable i k) by done.
  pose proof Hs as Hs'. rewrite <- Hk in Hs'. apply sorted_app in Hs' as (S1 & S2 & S3).
  destruct (Z.ltb_spec (i - k) 0).
  - do 1 eexists. exists (keys l), (k :: keys r). split_and!; [done| |done|left; by rewrite Hk|].
    + simpl. rewrite !sized_value by done. autorewrite with len. change (len []) with 0.
      split_and!; [lia|done|lia|done|done].
    + simpl. apply sorted_app. split_and!; [done| |].
      * constructor; [done|]. apply Forall_forall.
        intros x [->|Hx]%elem_of_cons; [lia|]. specialize (Hr x Hx). lia.
      * intros x y Hx [->|Hy]%elem_of_cons; [auto|]. by apply S3.
  - destruct (Z.gtb_spec (i - k) 0).
    + do 1 eexists. exists (keys l ++ [k]), (keys r).
      split_and!; [done| |simpl; done| |].
      * simpl. rewrite !sized_value by done. autorewrite with len. change (len []) with 0.
        split_and!; [lia|lia|done|done|done].
      * left. by rewrite <- Hk, <- app_assoc.
      * simpl. rewrite <- app_assoc. simpl. apply sorted_app. apply StronglySorted_inv in S2 as [S2 S2'].
        rewrite Forall_forall in S2'. split_and!; [done| |].
        -- constructor; [constructor; [done|]|]; apply Forall_forall.
           ++ auto.
           ++ intros x [->|Hx]%elem_of_cons; [lia|auto].
        -- intros x y Hx [->|[->|Hy]%elem_of_cons]%elem_of_cons; [apply S3; set_solver|auto|apply S3; set_solver].
    + assert (k = i) as -> by lia. rewrite !sized_value by done.
      destruct (Z.eqb_spec v (1 + len (keys l) + len (keys r))); [|lia]. cbn [cassert rbind].
      do 1 eexists. exists (keys l), (keys r).
      split_and!; [done|done|done|right; by rewrite Hk|]. cbn [keys]. by rewrite Hk.
Qed.

(** Deletion removes the key if it is there. *)
Lemma splay_delete_spec i t :
  sized t -> sorted (keys t) -> near i t ->
  exists t', splay_delete i t = Ok t' /\ sized t' /\
    (i ∉ keys t -> keys t' = keys t) /\
    (forall a b, keys t = a ++ i :: b -> keys t' = a ++ b).
Proof.
  intros Ht Hs Hn. destruct t as [|lf0 k0 v0 rg0] eqn:Et.
  { exists Leaf. split_and!; [done..|]. intros a b H. by destruct a. }
  rewrite <- Et in *. assert (Hv0 : v0 = len (keys t)).
  { rewrite <- (sized_value t) by done. by rewrite Et. }
  assert (Hne : t <> Leaf) by (by rewrite Et).
  destruct (splay_spec i t Ht Hne Hn) as (l & k & v & r & E & Hk & (Hv & Hsl & Hsr) & Hsp).
  destruct (Hsp Hs) as (Hi & Hl & Hr).
  apply (near_keys i t (Node l k v r)) in Hn; [|done]. apply near_node in Hn as (Hnk & Hnl & _).
  assert (Hmid : k = i -> forall a b, keys t = a ++ i :: b -> keys l = a /\ keys r = b).
  { intros -> a b Hab. rewrite <- Hk in Hab. clear - Hab Hl Hr.
    revert Hab Hl; generalize (keys l) as kl. induction a as [|x a IH]; intros [|y kl]; simpl; intros Hab Hl.
    - split; [done|congruence].
    - injection Hab as -> _. specialize (Hl i). exfalso. assert (i < i); [apply Hl; set_solver|lia].
    - injection Hab as <- Hab. assert (i < i); [|lia]. apply Hr. rewrite Hab. set_solver.
    - injection Hab as -> Hab. destruct (IH kl Hab) as [-> ->]; [intros; apply Hl; set_solver|done]. }
  assert (Hdel : splay_delete i t = let! t := splay i t in
      match t with
      | Leaf => Err NullDeref
      | Node lf k v rg =>
          if key_cmp i k =? 0 then
            match lf with
            | Leaf =>
                match rg with
                | Leaf => Ok Leaf
                | Node l k' _ r => Ok (Node l k' (v0 - 1) r)
                end
            | Node _ _ _ _ =>
                let! x := splay i lf in
                match x with
                | Leaf => Err NullDeref
                | Node xl xk _ _ => Ok (Node xl xk (v0 - 1) rg)
                end
            end
          else Ok t
      end) by (by rewrite Et).
  rewrite Hdel, E. cbn [rbind]. rewrite (key_cmp_comparable i k) by done. clear Hdel.
  destruct (Z.eqb_spec (i - k) 0) as [Heq|Hneq].
  - assert (k = i) as -> by lia. specialize (Hmid eq_refl).
    assert (Hlen : v0 - 1 = len (keys l) + len (keys r)).
    { rewrite Hv0, <- Hk. autorewrite with len. lia. }
    assert (Hin : i ∈ keys t) by (rewrite <- Hk; set_solver).
    assert (Hres : forall t', keys t' = keys l ++ keys r ->
      (i ∉ keys t -> keys t' = keys t) /\ (forall a b, keys t = a ++ i :: b -> keys t' = a ++ b)).
    { intros t' Ht'. split; [done|]. intros a b Hab. destruct (Hmid a b Hab) as [<- <-]. done. }
    destruct l as [|ll lk lv lr].
    + destruct r as [|rl rk rv rr].
      * exists Leaf. split_and!; [done|done| |]; by apply Hres.
      * destruct Hsr as (Hrv & ? & ?). eexists. split_and!; [done| | |]; [|by apply Hres..].
        simpl in *. change (len []) with 0 in Hlen. rewrite Hlen. autorewrite with len.
        split_and!; [lia|done|done].
    + destruct (splay_spec i (Node ll lk lv lr) Hsl) as (xl & xk & xv & xr & -> & Hxk & (Hxv & ? & ?) & Hxsp); [done|done|].
      cbn [rbind]. assert (Hsl' : sorted (keys (Node ll lk lv lr))).
      { rewrite <- Hk in Hs. by apply sorted_app in Hs as [? _]. }
      destruct (Hxsp Hsl') as (_ & _ & Hxr).
      assert (Hxr0 : keys xr = []).
      { destruct (keys xr) as [|y ys] eqn:Ey; [done|]. exfalso.
        assert (i < y) by (apply Hxr; set_solver).
        assert (y < i); [|lia]. apply Hl. rewrite <- Hxk, ?Ey. set_solver. }
      rewrite Hxr0 in Hxk.
      assert (Hkx : keys (Node xl xk (v0 - 1) r) = keys (Node ll lk lv lr) ++ keys r).
      { rewrite <- Hxk. cbn [keys]. by rewrite <- app_assoc. }
      eexists. split_and!; [done| | |]; [|by apply Hres..].
      cbn [sized]. rewrite Hlen, <- Hxk. autorewrite with len. change (len []) with 0.
      split_and!; [lia|done|done].
  - eexists. split_and!; [done|done|done|]. intros a b Hab. exfalso. apply Hneq.
    rewrite Hi; [lia|]. rewrite Hab. set_solver.
Qed.
