(* ===== verification/LRUv0.v ===== *)
(** * LRU on the containers of GLib (evictionAlgo/LRUv0.c)

    The first version of LRU keeps its objects in a GQueue and finds them through a
    GHashTable from object ids to the links of the queue.  A link (GList) is an address
    with its data, the address of a cache object; links are allocated from [v0_fresh] on.
    The chained hash table that cache_struct_init creates is not used.  The state of the
    shared cache_t is that of Cache.

    The memory LRUv0_init asks for in one piece each (the cache_t, the LRUv0_params_t, the
    GHashTable and the GQueue) is a list of blocks: LRUv0_free takes out the ones it frees,
    and freeing one that is not allocated is an error.  It returns what is still allocated:
    the objects, the links and the blocks. *)

From S2P Require Import Prelude.
From S2P Require Import Store.
From S2P Require Import HashTable.
From S2P Require Import Cache.
From S2P Require Import Glib.

(** what LRUv0_init allocates: cache_struct_init, g_new0, g_hash_table_new_full, g_queue_new *)
Inductive v0_block := V0_cache_t | V0_params_t | V0_hashtable | V0_queue.

#[export] Instance v0_block_eq_dec : EqDecision v0_block.
Proof. solve_decision. Defined.

Section lruv0.
  Context {T Q : Type} {GT : GHashTable T} {GQ : GQueue Q}.

(** the cache, cache->cache_params, the links and the other blocks that are allocated *)
Record LRUv0_state := mk_v0 {
  v0_cache : state;
  v0_hashtable : T;
  v0_list : Q;
  v0_nodes : gmap Z loc;
  v0_fresh : Z;
  v0_blocks : list v0_block
}.

Definition set_v0_cache (c : state) (st : LRUv0_state) : LRUv0_state :=
  mk_v0 c (v0_hashtable st) (v0_list st) (v0_nodes st) (v0_fresh st) (v0_blocks st).
Definition set_v0_list (q : Q) (st : LRUv0_state) : LRUv0_state :=
  mk_v0 (v0_cache st) (v0_hashtable st) q (v0_nodes st) (v0_fresh st) (v0_blocks st).
Definition set_v0_blocks (blocks : list v0_block) (st : LRUv0_state) : LRUv0_state :=
  mk_v0 (v0_cache st) (v0_hashtable st) (v0_list st) (v0_nodes st) (v0_fresh st) blocks.

(** node->data *)
Definition node_data (st : LRUv0_state) (node : Z) : result loc :=
  if node =? 0 then Err NullDeref
  else match v0_nodes st !! node with Some l => Ok l | None => Err BadAccess end.

Definition LRUv0_init (s : store) (ccache_params : common_cache_params_t) (seed : Z) : LRUv0_state :=
  mk_v0 (cache_struct_init s ccache_params seed) g_hash_table_new g_queue_new ∅ 1
    [V0_cache_t; V0_params_t; V0_hashtable; V0_queue].

(** g_queue_free_full(list, free_cache_obj): the data of every link, then the links and the
    queue *)
Definition free_list_full (st : LRUv0_state) : result LRUv0_state :=
  let! s := rfold (fun s node => let! l := node_data st node in free_cache_obj s l)
    (queue_links (v0_list st)) (st_store (v0_cache st)) in
  let! blocks := free_block V0_queue (v0_blocks st) in
  Ok (mk_v0 (with_store s (v0_cache st)) (v0_hashtable st) (v0_list st)
        (foldr delete (v0_nodes st) (queue_links (v0_list st))) (v0_fresh st) blocks).

(** The hash table is destroyed without freeing keys or values, the queue with its objects,
    and cache_struct_free frees the chained table and the cache_t.  What is left. *)
Definition LRUv0_free (st : LRUv0_state) : result (store * gmap Z loc * list v0_block) :=
  let! blocks := free_block V0_hashtable (v0_blocks st) in
  let! st := free_list_full (set_v0_blocks blocks st) in
  let! s := cache_struct_free (v0_cache st) in
  let! blocks := free_block V0_cache_t (v0_blocks st) in
  Ok (s, v0_nodes st, blocks).

Definition LRUv0_check (st : LRUv0_state) (req : request) (update_cache : bool)
    : result (cache_ck_res_e * LRUv0_state) :=
  let node := g_hash_table_lookup (v0_hashtable st) (req_obj_id_int req) in
  if node =? 0 then Ok (cache_ck_miss, st)
  else if negb update_cache then Ok (cache_ck_hit, st)
  else
    let! cache_obj := node_data st node in
    let c := v0_cache st in
    let! o := deref (st_store c) (Some cache_obj) in
    let! c :=
      (if negb (obj_size o =? req_obj_size req) then
         let c := with_occupied (u64 (occupied_size (st_cache c) - obj_size o)) c in
         let c := with_occupied (u64 (occupied_size (st_cache c) + req_obj_size req)) c in
         let! s := store_upd (set_obj_size (u32 (req_obj_size req))) (st_store c) (Some cache_obj) in
         Ok (with_store s c)
       else Ok c) in
    let list := g_queue_unlink (v0_list st) node in
    let list := g_queue_push_tail_link list node in
    Ok (cache_ck_hit, set_v0_list list (set_v0_cache c st)).

Definition LRUv0_insert (st : LRUv0_state) (req : request) : LRUv0_state :=
  let c := v0_cache st in
  let c := with_occupied (u64 (occupied_size (st_cache c) + req_obj_size req)) c in
  let '(cache_obj, s) := create_cache_obj_from_request (st_store c) (Some req) in
  let node := v0_fresh st in
  mk_v0 (with_store s c) (g_hash_table_insert (v0_hashtable st) (req_obj_id_int req) node)
    (g_queue_push_tail_link (v0_list st) node) (<[node := cache_obj]> (v0_nodes st)) (v0_fresh st + 1)
    (v0_blocks st).

Definition LRUv0_get_cached_obj (st : LRUv0_state) (req : request) : result loc :=
  node_data st (g_hash_table_lookup (v0_hashtable st) (req_obj_id_int req)).

(** evicted_obj is never set *)
Definition LRUv0_evict (st : LRUv0_state) (req : request) : result LRUv0_state :=
  let '(node, list) := g_queue_pop_head (v0_list st) in
  let! cache_obj := node_data st node in
  let c := v0_cache st in
  let! o := deref (st_store c) (Some cache_obj) in
  let! _ := cassert (occupied_size (st_cache c) >=? obj_size o) in
  let c := with_occupied (u64 (occupied_size (st_cache c) - obj_size o)) c in
  let hashtable := g_hash_table_remove (v0_hashtable st) (obj_id_int o) in
  let! s := free_cache_obj (st_store c) cache_obj in
  Ok (mk_v0 (with_store s c) hashtable list (delete node (v0_nodes st)) (v0_fresh st) (v0_blocks st)).

(** the while loop of LRUv0_get *)
Fixpoint v0_evict_loop (fuel : nat) (st : LRUv0_state) (req : request) : result LRUv0_state :=
  match fuel with
  | O => Err OutOfFuel
  | S fuel =>
      if occupied_size (st_cache (v0_cache st)) >? cache_size (st_cache (v0_cache st)) then
        let! st := LRUv0_evict st req in v0_evict_loop fuel st req
      else Ok st
  end.

(** one eviction per link and the last test *)
Definition LRUv0_get (st : LRUv0_state) (req : request) : result (cache_ck_res_e * LRUv0_state) :=
  let! '(check, st) := LRUv0_check st req true in
  let! st :=
    (if req_obj_size req <=? cache_size (st_cache (v0_cache st)) then
       let st := match check with cache_ck_miss => LRUv0_insert st req | _ => st end in
       v0_evict_loop (S (length (queue_links (v0_list st)))) st req
     else Ok st) in
  let c := v0_cache st in
  Ok (check, set_v0_cache (mk_state (st_store c) (set_req_cnt (u64 (req_cnt (st_cache c) + 1)) (st_cache c)) (st_seed c)) st).

(** the argument is the address of an object with the id to remove *)
Definition LRUv0_remove_obj (st : LRUv0_state) (obj_to_remove : loc) : result LRUv0_state :=
  let c := v0_cache st in
  let! r := deref (st_store c) (Some obj_to_remove) in
  let node := g_hash_table_lookup (v0_hashtable st) (obj_id_int r) in
  if node =? 0 then Err Aborted
  else
    let! cache_obj := node_data st node in
    let! o := deref (st_store c) (Some cache_obj) in
    let! _ := cassert (occupied_size (st_cache c) >=? obj_size o) in
    let c := with_occupied (u64 (occupied_size (st_cache c) - obj_size o)) c in
    let list := g_queue_delete_link (v0_list st) node in
    let hashtable := g_hash_table_remove (v0_hashtable st) (obj_id_int r) in
    let! s := free_cache_obj (st_store c) cache_obj in
    Ok (mk_v0 (with_store s c) hashtable list (delete node (v0_nodes st)) (v0_fresh st) (v0_blocks st)).

Fixpoint v0_run (st : LRUv0_state) (reqs : list request) : result (list cache_ck_res_e * LRUv0_state) :=
  match reqs with
  | [] => Ok ([], st)
  | r :: reqs =>
      let! '(res, st) := LRUv0_get st r in
      let! '(ress, st) := v0_run st reqs in
      Ok (res :: ress, st)
  end.

End lruv0.
