(* ===== verification/LRUv0Thms.v ===== *)
(** * LRUv0 is LRU

    [v0_rel] relates a state of LRUv0 to the links of its queue with their objects and to
    an abstract cache.  LRUv0 and the LRU of cache.c, which keeps its list inside the
    objects of its own hash table, are shown to answer alike on every trace. *)

From S2P Require Import Prelude.
From S2P Require Import Store.
From S2P Require Import HashTable.
From S2P Require Import Buckets.
From S2P Require Import HashTableSpec.
From S2P Require Import Cache.
From S2P Require Import CacheSpec.
From S2P Require Import Policies.
From S2P Require Import CacheThms.
From S2P Require Import Glib.
From S2P Require Import LRUv0.

Lemma nodup_mid {A B} (f : A -> B) L1 x L2 y : NoDup (f <$> L1 ++ x :: L2) -> y ∈ L1 ++ L2 -> f y <> f x.
Proof.
  rewrite fmap_app, fmap_cons. intros (_ & Hd & [Hn _]%NoDup_cons)%NoDup_app Hy E.
  apply elem_of_app in Hy as [Hy|Hy]; apply (list_elem_of_fmap_2 f) in Hy; rewrite E in Hy; [|done].
  apply (Hd _ Hy). by left.
Qed.

(** a table without objects holds no allocated object, whatever was allocated meanwhile *)
Lemma HT_no_heap s ht k : HT (fun x => x) s ht [] -> objs s !! HeapObj k = None.
Proof.
  intros (B & [_ _ _ _ Hdom _ _ _ _]). apply eq_None_not_Some. intros H.
  destruct (Hdom _ H) as [Hl|(i & _ & E)]; [by apply not_elem_of_nil in Hl|done].
Qed.

Lemma HT_fresh m cs n ht : HT (fun x => x) (mk_store m cs n) ht [] -> HT (fun x => x) (mk_store m cs (n + 1)) ht [].
Proof.
  intros (B & [T Hlive Hnd Hids Hdom Hfr HfrT Hc Hm]). exists B. split; try done.
  - intros k Hk. specialize (Hfr k Hk). cbn in *. lia.
  - cbn in *. lia.
Qed.

Section lruv0.
  Context {T Q : Type} {GT : GHashTable T} {GQ : GQueue Q} {GTL : GHashTableLaws T} {GQL : GQueueLaws Q}.
  #[local] Set Default Proof Using "Type*".
  #[local] Abbreviation v0_state := (LRUv0_state (T := T) (Q := Q)).

Definition v0_objs (st : v0_state) : gmap loc cache_obj := objs (st_store (v0_cache st)).

(** the link [x.1] with the object at [x.2] holds the entry [e] *)
Definition v0_holds (st : v0_state) (x : Z * loc) (e : entry) : Prop :=
  v0_nodes st !! x.1 = Some x.2 /\ g_hash_table_lookup (v0_hashtable st) e.1 = x.1 /\ 0 < x.1 < v0_fresh st /\
  exists o, v0_objs st !! x.2 = Some o /\ obj_id_int o = e.1 /\ obj_size o = e.2.

(** the links [L] of the queue hold [a]; all other objects are those of [m0], the table that
    cache_struct_init made *)
Record v0_rel (m0 : gmap loc cache_obj) (ht0 : hashtable) (cap : Z) (st : v0_state) (L : list (Z * loc))
    (a : list entry) : Prop := {
  vr_links : queue_links (v0_list st) = L.*1;
  vr_nodup : NoDup L.*1;
  vr_nodup_objs : NoDup L.*2;
  vr_entries : Forall2 (v0_holds st) L a;
  vr_ids : NoDup a.*1;
  vr_absent : forall id, id ∉ a.*1 -> g_hash_table_lookup (v0_hashtable st) id = 0;
  vr_pos : 0 < v0_fresh st;
  vr_heap : forall l, l ∈ L.*2 -> exists k, l = HeapObj k /\ (k < fresh (st_store (v0_cache st)))%N;
  vr_out : forall l, l ∉ L.*2 -> v0_objs st !! l = m0 !! l;
  vr_table : HT (fun x => x) (mk_store m0 (cells (st_store (v0_cache st))) (fresh (st_store (v0_cache st)))) ht0 [];
  vr_small : Forall small_entry a;
  vr_cap : cache_size (st_cache (v0_cache st)) = cap;
  vr_occupied : occupied_size (st_cache (v0_cache st)) = total a;
  vr_ht : c_hashtable (st_cache (v0_cache st)) = ht0;
  vr_nodes : forall n, n ∉ L.*1 -> v0_nodes st !! n = None;       (* no other link *)
  vr_blocks : v0_blocks st = [V0_cache_t; V0_params_t; V0_hashtable; V0_queue]
}.

Lemma holds_frame st st' x e :
  v0_holds st x e -> v0_nodes st' !! x.1 = v0_nodes st !! x.1 -> v0_objs st' !! x.2 = v0_objs st !! x.2 ->
  g_hash_table_lookup (v0_hashtable st') e.1 = g_hash_table_lookup (v0_hashtable st) e.1 ->
  v0_fresh st <= v0_fresh st' -> v0_holds st' x e.
Proof. intros (H1 & H2 & H3 & H4) En Eo El Hf. unfold v0_holds. rewrite En, Eo, El. split_and!; try done; lia. Qed.

Lemma holds_frames st st' L a :
  Forall2 (v0_holds st) L a ->
  (forall x e, x ∈ L -> e ∈ a -> v0_holds st x e -> v0_holds st' x e) -> Forall2 (v0_holds st') L a.
Proof.
  intros H. induction H as [|x e L a Hx H IH]; intros Hf; constructor.
  - apply Hf; [by left|by left|done].
  - apply IH. intros x' e' Hx' He'. apply Hf; by right.
Qed.

(** the link of an object that is cached *)
Lemma v0_find m0 ht0 cap st L a id :
  v0_rel m0 ht0 cap st L a -> cached id a = true ->
  exists L1 x L2 a1 sz a2, L = L1 ++ x :: L2 /\ a = a1 ++ (id, sz) :: a2 /\ v0_holds st x (id, sz) /\
    Forall2 (v0_holds st) L1 a1 /\ Forall2 (v0_holds st) L2 a2 /\ id ∉ a1.*1 /\ id ∉ a2.*1.
Proof.
  intros R Hc. apply cached_spec, list_elem_of_fmap in Hc as ([j sz] & -> & He). cbn [fst].
  apply list_elem_of_split in He as (a1 & a2 & ->). pose proof (vr_entries _ _ _ _ _ _ R) as H.
  apply Forall2_app_inv_r in H as (L1 & L2' & H1 & H2 & ->).
  apply Forall2_cons_inv_r in H2 as (x & L2 & Hx & H2 & ->).
  pose proof (vr_ids _ _ _ _ _ _ R) as Hnd. rewrite fmap_app, fmap_cons in Hnd.
  apply NoDup_app in Hnd as (_ & Hd & [Hn2 _]%NoDup_cons).
  exists L1, x, L2, a1, sz, a2. split_and!; try done. intros Hn1. apply (Hd j Hn1). by left.
Qed.

Lemma v0_missing m0 ht0 cap st L a id :
  v0_rel m0 ht0 cap st L a -> cached id a = false -> g_hash_table_lookup (v0_hashtable st) id = 0.
Proof. intros R Hc%cached_false. by apply (vr_absent _ _ _ _ _ _ R). Qed.

(** what separates the link in the middle of the queue from the others *)
Lemma v0_others m0 ht0 cap st L1 x L2 a :
  v0_rel m0 ht0 cap st (L1 ++ x :: L2) a -> forall y, y ∈ L1 ++ L2 -> y.1 <> x.1 /\ y.2 <> x.2.
Proof.
  intros R y Hy. split; [eapply (nodup_mid fst)|eapply (nodup_mid snd)]; [apply R|done|apply R|done].
Qed.

(** the object at [x.2] gets the size [sz] and its link moves to the tail *)
Lemma v0_move_rel m0 ht0 cap st L1 x L2 a1 id sz0 a2 o sz c' :
  v0_rel m0 ht0 cap st (L1 ++ x :: L2) (a1 ++ (id, sz0) :: a2) ->
  length L1 = length a1 -> 0 < sz < 2 ^ 32 -> v0_objs st !! x.2 = Some o ->
  objs (st_store c') = <[x.2 := set_obj_size sz o]> (v0_objs st) ->
  fresh (st_store c') = fresh (st_store (v0_cache st)) -> cells (st_store c') = cells (st_store (v0_cache st)) ->
  cache_size (st_cache c') = cap -> c_hashtable (st_cache c') = ht0 -> occupied_size (st_cache c') = total (a1 ++ a2 ++ [(id, sz)]) ->
  v0_rel m0 ht0 cap
    (set_v0_list (g_queue_push_tail_link (g_queue_unlink (v0_list st) x.1) x.1) (set_v0_cache c' st))
    (L1 ++ L2 ++ [x]) (a1 ++ a2 ++ [(id, sz)]).
Proof.
  intros R Hlen Hsz Ho Eobj Efr Ecell Ecap Eht Eocc. pose proof (v0_others _ _ _ _ _ _ _ _ R) as Hoth.
  assert (HP : L1 ++ L2 ++ [x] ≡ₚ L1 ++ x :: L2) by (by rewrite (Permutation_cons_append L2 x)).
  set (st' := set_v0_list _ _).
  assert (Hkeep : forall y e, y ∈ L1 ++ L2 -> v0_holds st y e -> v0_holds st' y e).
  { intros y e Hy Hh. destruct (Hoth y Hy) as [_ Hy2]. apply (holds_frame st); try done.
    unfold st', v0_objs. cbn. rewrite Eobj. by rewrite lookup_insert_ne by congruence. }
  destruct R as [R1 R2 R3 R4 R5 R6 R7 R8 R9 R10 R11 R12 R13 R14 R15 R16].
  apply Forall2_app_inv in R4 as [H1 H2]; [|done]. apply Forall2_cons in H2 as [Hx H2].
  apply Forall_app in R11 as [Hs1 [_ Hs2]%Forall_cons].
  split; try done.
  - unfold st'. cbn [v0_list set_v0_list]. rewrite g_push_links.
    rewrite (g_unlink_links _ (L1.*1) x.1 (L2.*1)); [by rewrite !fmap_app, <- app_assoc| |].
    + rewrite R1. by rewrite fmap_app, fmap_cons.
    + by rewrite fmap_app, fmap_cons in R2.
  - by rewrite HP.
  - by rewrite HP.
  - apply Forall2_app; [|apply Forall2_app]; [eapply holds_frames; [exact H1|]|eapply holds_frames; [exact H2|]|].
    + intros y e Hy _. apply Hkeep. by apply elem_of_app; left.
    + intros y e Hy _. apply Hkeep. by apply elem_of_app; right.
    + constructor; [|constructor]. destruct Hx as (N1 & N2 & [N3 N3'] & o' & Ho' & Hid & _). split_and!; try done.
      exists (set_obj_size sz o). assert (o' = o) as -> by congruence.
      unfold st', v0_objs. cbn. rewrite Eobj, lookup_insert_eq. done.
  - rewrite !fmap_app. rewrite fmap_app, fmap_cons in R5. cbn [fst fmap list_fmap] in *. by rewrite <- (Permutation_cons_append a2.*1 id).
  - intros j Hj. apply R6. intros Hj'. apply Hj. rewrite !fmap_app in *. rewrite fmap_cons in Hj'. cbn [fst fmap list_fmap] in *. set_solver.
  - intros l. rewrite HP. unfold st'. cbn. rewrite Efr. apply R8.
  - intros l. rewrite HP. intros Hl. unfold st', v0_objs. cbn. rewrite Eobj. rewrite lookup_insert_ne; [by apply R9|].
    intros <-. apply Hl. apply list_elem_of_fmap_2. rewrite elem_of_app. right. by left.
  - unfold st'. cbn. by rewrite Efr, Ecell.
  - rewrite !Forall_app. split_and!; [done|done|]. by constructor.
  - intros n. rewrite HP. apply R15.
Qed.

Lemma v0_check_hit m0 ht0 cap st L a r :
  v0_rel m0 ht0 cap st L a -> cached (req_obj_id_int r) a = true -> 0 < req_obj_size r < 2 ^ 32 ->
  Z.of_nat (length a) < 2 ^ 31 ->
  exists st' L', LRUv0_check st r true = Ok (cache_ck_hit, st') /\
    v0_rel m0 ht0 cap st' L' (lru_touch (req_obj_id_int r) (req_obj_size r) a).
Proof.
  intros R Hc Hr Hlen. set (id := req_obj_id_int r) in *. set (sz := req_obj_size r) in *.
  destruct (v0_find _ _ _ _ _ _ id R Hc) as (L1 & x & L2 & a1 & sz0 & a2 & -> & -> & Hx & H1 & H2 & Hn1 & Hn2).
  destruct Hx as (Hnode & Hlk & Hpos & o & Ho & Hoid & Hosz). cbn [fst snd] in *.
  unfold LRUv0_check. fold id. rewrite Hlk, (proj2 (Z.eqb_neq x.1 0)) by lia. cbn [negb].
  unfold node_data. rewrite (proj2 (Z.eqb_neq x.1 0)), Hnode by lia. cbn [rbind].
  pose proof Ho as Ho'. unfold v0_objs in Ho'. unfold deref. rewrite Ho'. cbn [rbind]. fold sz. rewrite Hosz.
  pose proof (total_bound _ (vr_small _ _ _ _ _ _ R)) as Hb. pose proof (vr_occupied _ _ _ _ _ _ R) as Hocc.
  assert (Htot : total (a1 ++ (id, sz0) :: a2) = total (a1 ++ a2) + sz0) by (rewrite !total_app; simpl; lia).
  assert (Htot' : total (a1 ++ a2 ++ [(id, sz)]) = total (a1 ++ a2) + sz) by (rewrite !total_app; simpl; lia).
  pose proof (vr_small _ _ _ _ _ _ R) as [Hs1 [Hse Hs2]%Forall_cons]%Forall_app. unfold small_entry in Hse. cbn [snd] in Hse.
  pose proof (total_bound (a1 ++ a2) ltac:(by apply Forall_app)) as Hb2.
  unfold lru_touch. rewrite without_mid, <- app_assoc by done. rewrite Htot in Hocc, Hb.
  match goal with |- context [rbind ?X _] => assert (Hres : exists c', X = Ok c' /\
    objs (st_store c') = <[x.2 := set_obj_size sz o]> (v0_objs st) /\ fresh (st_store c') = fresh (st_store (v0_cache st)) /\
    cells (st_store c') = cells (st_store (v0_cache st)) /\ cache_size (st_cache c') = cap /\ c_hashtable (st_cache c') = ht0 /\
    occupied_size (st_cache c') = total (a1 ++ a2) + sz) end.
  { pose proof (vr_cap _ _ _ _ _ _ R). pose proof (vr_ht _ _ _ _ _ _ R). destruct (Z.eqb_spec sz0 sz) as [E|E]; cbn [negb].
    - exists (v0_cache st). split_and!; try done; [|lia]. rewrite insert_id; [done|]. rewrite Ho. f_equal.
      destruct o; unfold set_obj_size; cbn in *. by rewrite <- E, Hosz.
    - cbn [with_occupied st_store st_cache set_occupied occupied_size]. unfold store_upd. rewrite Ho'. cbn [rbind].
      eexists. split; [reflexivity|]. rewrite (u32_small sz) by lia. cbn. rewrite Hocc.
      rewrite length_app in Hlen, Hb. cbn [length] in Hlen, Hb.
      rewrite (u64_small (_ - sz0)), u64_small by lia. split_and!; try done. lia. }
  destruct Hres as (c' & E & Eobj & Efr & Ecell & Ecap & Eht & Eocc). rewrite E. cbn [rbind].
  eexists. exists (L1 ++ L2 ++ [x]). split; [reflexivity|].
  eapply v0_move_rel; try done; [by eapply Forall2_length|lia].
Qed.

Lemma v0_insert_rel m0 ht0 cap st L a r :
  v0_rel m0 ht0 cap st L a -> cached (req_obj_id_int r) a = false -> 0 < req_obj_size r < 2 ^ 32 ->
  Z.of_nat (length a) < 2 ^ 31 ->
  v0_rel m0 ht0 cap (LRUv0_insert st r) (L ++ [(v0_fresh st, HeapObj (fresh (st_store (v0_cache st))))])
    (a ++ [(req_obj_id_int r, req_obj_size r)]).
Proof.
  intros R Hc%cached_false Hr Hlen. pose proof (total_bound _ (vr_small _ _ _ _ _ _ R)) as Hb.
  destruct R as [R1 R2 R3 R4 R5 R6 R7 R8 R9 R10 R11 R12 R13 R14 R15 R16].
  set (n := v0_fresh st) in *. set (l := HeapObj (fresh (st_store (v0_cache st)))).
  assert (Hl : l ∉ L.*2).
  { intros Hl. destruct (R8 l Hl) as (k & E & Hk). injection E as <-. lia. }
  assert (Hn : n ∉ L.*1).
  { intros (x & E & Hx)%list_elem_of_fmap. apply list_elem_of_lookup_1 in Hx as [i Hi].
    destruct (Forall2_lookup_l _ _ _ _ _ R4 Hi) as (e & _ & _ & _ & Hf & _). unfold n in E. lia. }
  split; unfold LRUv0_insert; cbn -[v0_objs]; try done.
  - rewrite g_push_links, R1. by rewrite fmap_app.
  - rewrite fmap_app. apply NoDup_app. split_and!; [done| |apply NoDup_singleton]. intros m Hm Hm'%list_elem_of_singleton. by subst.
  - rewrite fmap_app. apply NoDup_app. split_and!; [done| |apply NoDup_singleton]. intros m Hm Hm'%list_elem_of_singleton. by subst.
  - apply Forall2_app.
    + eapply holds_frames; [exact R4|]. intros x e Hx He Hh. apply (holds_frame st); try done; cbn.
      * rewrite lookup_insert_ne; [done|]. intros E. apply Hn. unfold n. rewrite E. by apply list_elem_of_fmap_2.
      * unfold v0_objs. cbn. rewrite lookup_insert_ne; [done|]. intros E. apply Hl. unfold l. rewrite E. by apply list_elem_of_fmap_2.
      * rewrite g_lookup_insert_ne; [done|]. intros E. apply Hc. rewrite E. by apply list_elem_of_fmap_2.
      * unfold n; lia.
    + constructor; [|constructor]. unfold v0_holds, v0_objs. cbn. rewrite !lookup_insert_eq, g_lookup_insert.
      split_and!; try done; [lia|]. eexists. split_and!; [done|done|]. cbn. by rewrite u32_small by lia.
  - rewrite fmap_app. apply NoDup_app. split_and!; [done| |apply NoDup_singleton]. intros m Hm Hm'%list_elem_of_singleton. by subst.
  - intros id. rewrite fmap_app, not_elem_of_app. intros [Hid Hid']. cbn in Hid'. rewrite g_lookup_insert_ne; [by apply R6|].
    intros E. apply Hid'. rewrite E. by left.
  - lia.
  - intros m. rewrite fmap_app, elem_of_app. intros [Hm|Hm%list_elem_of_singleton].
    + destruct (R8 m Hm) as (k & -> & Hk). exists k. split; [done|lia].
    + subst m. eexists. split; [done|]. lia.
  - intros m. rewrite fmap_app, not_elem_of_app. intros [Hm Hm']. unfold v0_objs. cbn. rewrite lookup_insert_ne; [by apply R9|].
    intros E. apply Hm'. change (m ∈ [l]). unfold l. rewrite E. by left.
  - by apply HT_fresh.
  - rewrite Forall_app. split; [done|]. constructor; [|done]. unfold small_entry. cbn. lia.
  - rewrite total_app, R13. cbn. rewrite u64_small; lia.
  - intros m. rewrite fmap_app, not_elem_of_app. intros [Hm Hm']. rewrite lookup_insert_ne; [by apply R15|].
    intros E. apply Hm'. change (m ∈ [n]). unfold n. rewrite E. by left.
Qed.

Lemma v0_evict_rel m0 ht0 cap st L e a r :
  v0_rel m0 ht0 cap st L (e :: a) -> Z.of_nat (length a) < 2 ^ 31 ->
  exists st' L', LRUv0_evict st r = Ok st' /\ v0_rel m0 ht0 cap st' L' a.
Proof.
  intros R Hlen. pose proof (vr_entries _ _ _ _ _ _ R) as H. apply Forall2_cons_inv_r in H as (x & L' & Hx & H & ->).
  pose proof (v0_others _ _ _ _ [] x L' _ R) as Hoth. pose proof (total_bound _ (vr_small _ _ _ _ _ _ R)) as Hb.
  destruct R as [R1 R2 R3 _ R5 R6 R7 R8 R9 R10 R11 R12 R13 R14 R15 R16]. cbn [fmap list_fmap] in *.
  destruct Hx as (N1 & N2 & N3 & o & Ho & Hid & Hsz). apply Forall_cons in R11 as [Hse Hs]. unfold small_entry in Hse.
  pose proof (total_bound a Hs) as Hba. cbn [total foldr] in R13, Hb. fold (total a) in R13, Hb. cbn [length] in Hb.
  apply NoDup_cons in R2 as [Hn1 R2]. apply NoDup_cons in R3 as [Hn2 R3]. apply NoDup_cons in R5 as [Hn3 R5].
  unfold LRUv0_evict. destruct (g_pop_links (v0_list st) x.1 L'.*1 R1) as [Epop Elinks].
  destruct (g_queue_pop_head (v0_list st)) as [node list]. cbn [fst snd] in *. subst node.
  unfold node_data. rewrite (proj2 (Z.eqb_neq x.1 0)), N1 by lia. cbn [rbind]. pose proof Ho as Ho'. unfold v0_objs in Ho'.
  unfold deref. rewrite Ho'. cbn [rbind]. rewrite R13, Hsz, Z.geb_leb, (proj2 (Z.leb_le _ _)) by lia. cbn [cassert rbind].
  unfold free_cache_obj. cbn [with_occupied st_store]. rewrite Ho'. cbn [rbind]. eexists. exists L'. split; [reflexivity|].
  split; cbn -[v0_objs]; try done.
  - eapply holds_frames; [exact H|]. intros y f Hy Hf Hh. destruct (Hoth y Hy) as [Hy1 Hy2]. apply (holds_frame st); try done; cbn.
    + by rewrite lookup_delete_ne by congruence.
    + unfold v0_objs. cbn. by rewrite lookup_delete_ne by congruence.
    + rewrite Hid, g_lookup_remove_ne; [done|]. intros E. apply Hn3. rewrite E. by apply list_elem_of_fmap_2.
  - intros id Hid'. rewrite Hid. destruct (decide (e.1 = id)) as [->|Hne]; [by rewrite g_lookup_remove|].
    rewrite g_lookup_remove_ne by done. apply R6. rewrite not_elem_of_cons. auto.
  - intros l Hl. apply R8. by right.
  - intros l Hl. unfold v0_objs. cbn. destruct (decide (x.2 = l)) as [<-|Hne].
    + rewrite lookup_delete_eq. destruct (R8 x.2 ltac:(by left)) as (k & -> & _). symmetry. exact (HT_no_heap _ _ k R10).
    + rewrite lookup_delete_ne by done. apply R9. rewrite not_elem_of_cons. auto.
  - rewrite u64_small; lia.
  - intros n Hn. destruct (decide (x.1 = n)) as [<-|Hne]; [by rewrite lookup_delete_eq|].
    rewrite lookup_delete_ne by done. apply R15. rewrite not_elem_of_cons. auto.
Qed.

Lemma v0_evict_loop_rel m0 ht0 cap r a : forall st L fuel,
  v0_rel m0 ht0 cap st L a -> 0 <= cap -> Z.of_nat (length a) < 2 ^ 31 -> (length a < fuel)%nat ->
  exists st' L' a', v0_evict_loop fuel st r = Ok st' /\ evictions drop_first cap a a' /\
    v0_rel m0 ht0 cap st' L' a' /\ (length a' <= length a)%nat.
Proof.
  induction a as [|e a IH]; intros st L fuel R Hcap Hlen Hf; (destruct fuel as [|fuel]; [simpl in Hf; lia|]);
    cbn [v0_evict_loop]; rewrite (vr_occupied _ _ _ _ _ _ R), (vr_cap _ _ _ _ _ _ R).
  - rewrite Z.gtb_ltb, (proj2 (Z.ltb_ge _ _)) by (simpl; lia). exists st, L, []. split_and!; [done|by constructor|done|done].
  - destruct (Z.gtb_spec (total (e :: a)) cap) as [Hgt|Hle].
    + simpl in Hlen, Hf. destruct (v0_evict_rel _ _ _ _ _ _ _ r R) as (st1 & L1 & -> & R1); [lia|]. cbn [rbind].
      destruct (IH st1 L1 fuel R1 Hcap) as (st2 & L2 & a2 & E & Hev & R2 & Hl); [lia|lia|].
      exists st2, L2, a2. split_and!; [done| |done|simpl; lia]. eapply ev_step; [done|by exists e|done].
    + exists st, (L), (e :: a). split_and!; [done|by constructor|done|done].
Qed.

Lemma v0_rel_req_cnt m0 ht0 cap st L a v :
  v0_rel m0 ht0 cap st L a ->
  let c := v0_cache st in
  v0_rel m0 ht0 cap (set_v0_cache (mk_state (st_store c) (set_req_cnt v (st_cache c)) (st_seed c)) st) L a.
Proof. by intros [R1 R2 R3 R4 R5 R6 R7 R8 R9 R10 R11 R12 R13 R14 R15 R16]. Qed.

Lemma v0_get_rel m0 ht0 cap st L a r :
  v0_rel m0 ht0 cap st L a -> 0 <= cap -> Z.of_nat (length a) + 1 < 2 ^ 31 -> 0 < req_obj_size r < 2 ^ 32 ->
  exists st' L' a', LRUv0_get st r = Ok (if cached (req_obj_id_int r) a then cache_ck_hit else cache_ck_miss, st') /\
    get_rel lru_touch drop_first cap (req_obj_id_int r) (req_obj_size r) a a' /\
    v0_rel m0 ht0 cap st' L' a' /\ (length a' <= length a + 1)%nat.
Proof.
  intros R Hcap Hlen Hr. unfold LRUv0_get, get_rel. set (id := req_obj_id_int r). set (sz := req_obj_size r) in *.
  assert (Hloop : forall st1 L1 a1, v0_rel m0 ht0 cap st1 L1 a1 -> Z.of_nat (length a1) < 2 ^ 31 ->
    exists st' L' a', v0_evict_loop (S (length (queue_links (v0_list st1)))) st1 r = Ok st' /\
      evictions drop_first cap a1 a' /\ v0_rel m0 ht0 cap st' L' a' /\ (length a' <= length a1)%nat).
  { intros st1 L1 a1 R1 Hl1. apply (v0_evict_loop_rel _ _ _ _ _ _ L1); [done|done|done|].
    rewrite (vr_links _ _ _ _ _ _ R1), length_fmap, (Forall2_length _ _ _ (vr_entries _ _ _ _ _ _ R1)). lia. }
  destruct (cached id a) eqn:Hc.
  - destruct (v0_check_hit _ _ _ _ _ _ r R Hc Hr ltac:(lia)) as (st1 & L1 & -> & R1). cbn [rbind]. fold id sz in R1.
    pose proof (lru_touch_len id sz a Hc) as Hl. rewrite (vr_cap _ _ _ _ _ _ R1). fold sz. destruct (sz <=? cap).
    + destruct (Hloop st1 L1 _ R1) as (st2 & L2 & a2 & -> & Hev & R2 & Hl2); [lia|]. cbn [rbind].
      eexists _, L2, a2. split_and!; [reflexivity|done|by apply v0_rel_req_cnt|lia].
    + cbn [rbind]. eexists _, L1, _. split_and!; [reflexivity|reflexivity|by apply v0_rel_req_cnt|lia].
  - unfold LRUv0_check. fold id. rewrite (v0_missing _ _ _ _ _ _ _ R Hc). change (0 =? 0) with true. cbv iota. cbn [rbind].
    rewrite (vr_cap _ _ _ _ _ _ R). fold sz. destruct (sz <=? cap).
    + pose proof (v0_insert_rel _ _ _ _ _ _ r R Hc Hr ltac:(lia)) as R1.
      destruct (Hloop _ _ _ R1) as (st2 & L2 & a2 & -> & Hev & R2 & Hl2); [rewrite length_app; simpl; lia|]. cbn [rbind].
      rewrite length_app in Hl2. eexists _, L2, a2. split_and!; [reflexivity|done|by apply v0_rel_req_cnt|simpl in Hl2; lia].
    + cbn [rbind]. eexists _, L, a. split_and!; [reflexivity|done|by apply v0_rel_req_cnt|lia].
Qed.

Lemma v0_run_rel m0 ht0 cap reqs : forall st L a,
  v0_rel m0 ht0 cap st L a -> 0 <= cap -> Z.of_nat (length a) + Z.of_nat (length reqs) < 2 ^ 31 ->
  Forall (fun r => 0 < req_obj_size r < 2 ^ 32) reqs ->
  exists res st' L' a', v0_run st reqs = Ok (res, st') /\
    run_rel lru_touch drop_first cap (trace_of reqs) a res a' /\ v0_rel m0 ht0 cap st' L' a'.
Proof.
  induction reqs as [|r reqs IH]; intros st L a R Hcap Hlen Hreqs.
  - exists [], st, L, a. split_and!; [done|constructor|done].
  - apply Forall_cons in Hreqs as [Hr Hreqs]. cbn [length] in Hlen.
    destruct (v0_get_rel _ _ _ _ _ _ r R Hcap) as (st1 & L1 & a1 & E & Hg & R1 & Hl); [lia|done|].
    destruct (IH st1 L1 a1 R1 Hcap) as (res & st2 & L2 & a2 & E2 & Hrun & R2); [lia|done|].
    cbn [v0_run]. rewrite E. cbn [rbind]. rewrite E2. cbn [rbind]. eexists _, st2, L2, a2. split_and!; [reflexivity| |done].
    cbn [trace_of fmap list_fmap]. by eapply run_cons.
Qed.

Lemma foldr_delete_all (nodes : gmap Z loc) (ns : list Z) :
  (forall n, n ∉ ns -> nodes !! n = None) -> foldr delete nodes ns = ∅.
Proof.
  intros H. apply map_eq. intros n. rewrite lookup_empty. destruct (decide (n ∈ ns)) as [Hn|Hn].
  - by apply lookup_foldr_delete.
  - rewrite lookup_foldr_delete_not_elem_of by done. by apply H.
Qed.

(** all the objects and the links are freed, and all the blocks but the LRUv0_params_t *)
Lemma v0_free_rel m0 ht0 cap st L a :
  v0_rel m0 ht0 cap st L a -> exists s, LRUv0_free st = Ok (s, ∅, [V0_params_t]) /\ objs s = ∅.
Proof.
  intros R. unfold LRUv0_free, free_list_full. rewrite (vr_blocks _ _ _ _ _ _ R).
  change (free_block V0_hashtable _) with (Ok [V0_cache_t; V0_params_t; V0_queue]).
  cbn [rbind set_v0_blocks v0_list v0_cache v0_nodes v0_blocks].
  fold (set_v0_blocks [V0_cache_t; V0_params_t; V0_queue] st). set (st1 := set_v0_blocks _ st).
  change (node_data st1) with (node_data st). subst st1.
  change (free_block V0_queue _) with (Ok [V0_cache_t; V0_params_t]).
  rewrite (vr_links _ _ _ _ _ _ R).
  pose proof (vr_table _ _ _ _ _ _ R) as HT0. pose proof (vr_heap _ _ _ _ _ _ R) as Hheap.
  assert (Hloop : forall (L2 : list (Z * loc)) a2 s, Forall2 (v0_holds st) L2 a2 -> NoDup L2.*2 ->
    (forall l, l ∈ L2.*2 -> objs s !! l = v0_objs st !! l) -> (forall l, l ∉ L2.*2 -> objs s !! l = m0 !! l) ->
    (forall l, l ∈ L2.*2 -> m0 !! l = None) ->
    exists s', rfold (fun s node => let! l := node_data st node in free_cache_obj s l) L2.*1 s = Ok s' /\
      objs s' = m0 /\ cells s' = cells s /\ fresh s' = fresh s).
  { clear -GT. induction L2 as [|x L2 IH]; intros a2 s H Hnd Hin Hout Hm0.
    - exists s. split_and!; try done. apply map_eq. intros l. apply Hout. by intros ?%not_elem_of_nil.
    - apply Forall2_cons_inv_l in H as (e & a3 & (N1 & N2 & N3 & o & Ho & _) & H & ->). cbn [fmap list_fmap rfold].
      apply NoDup_cons in Hnd as [Hx Hnd]. unfold node_data at 1. rewrite (proj2 (Z.eqb_neq x.1 0)), N1 by lia. cbn [rbind].
      unfold free_cache_obj at 1. rewrite (Hin x.2), Ho by (by left). cbn [rbind].
      destruct (IH a3 (set_objs (delete x.2 (objs s)) s) H Hnd) as (s' & E & Eo & Ec & Ef).
      + intros l Hl. cbn. rewrite lookup_delete_ne; [apply Hin; by right|]. intros <-. done.
      + intros l Hl. cbn. destruct (decide (x.2 = l)) as [<-|Hne].
        * rewrite lookup_delete_eq. symmetry. apply Hm0. by left.
        * rewrite lookup_delete_ne by done. apply Hout. apply not_elem_of_cons. auto.
      + intros l Hl. apply Hm0. by right.
      + exists s'. split_and!; done. }
  destruct (Hloop L a (st_store (v0_cache st))) as (s' & E & Eo & Ec & Ef); [apply R|apply R|done|apply R| |].
  { intros l Hl. destruct (Hheap l Hl) as (k & -> & _). exact (HT_no_heap _ _ k HT0). }
  rewrite E. cbn [rbind v0_cache v0_blocks v0_nodes v0_list]. rewrite foldr_delete_all by apply R.
  cut (exists s, cache_struct_free (with_store s' (v0_cache st)) = Ok s /\ objs s = ∅).
  { intros (s & -> & Hs). exists s. split; [|done]. by vm_compute free_block. }
  unfold cache_struct_free, with_store. cbn [st_store st_cache]. rewrite (vr_ht _ _ _ _ _ _ R).
  apply (free_chained_hashtable_spec (fun x => x) s' ht0 []). destruct s' as [m cs n]. cbn in Eo, Ec, Ef. by subst.
Qed.

Lemma LRUv0_init_rel params seed :
  0 <= p_cache_size params < 2 ^ 63 ->
  let st := LRUv0_init (T := T) (Q := Q) empty_store params seed in
  v0_rel (v0_objs st) (c_hashtable (st_cache (v0_cache st))) (p_cache_size params) st [] [].
Proof.
  intros Hc st. destruct (cache_struct_init_spec (fun x => x) params seed Hc) as (HB & _ & _ & _).
  destruct (HB (fun _ => 0)) as [B1 B2 B3 B4 B5 B6]. split; try done.
  - apply g_new_links.
  - constructor.
  - constructor.
  - constructor.
  - intros id _. exact (g_lookup_new (T := T) id).
  - intros l Hl. by apply not_elem_of_nil in Hl.
Qed.

(** C21.  LRUv0 answers like LRU: for every trace, every hash function of the chained table and
    every implementation of the containers of GLib, the two versions give the same results and end
    with the same number of bytes cached. LRUv0_free then frees all the objects, all the links, the
    hash table, the queue and the cache_t, but not the LRUv0_params_t that LRUv0_init allocated:
    that one block is left. The trace has fewer than 2^31 - 1 requests of sizes from 1 to 2^32 - 1,
    the cache fewer than 2^63 bytes. *)
Theorem LRUv0_equiv_LRU hash params seed reqs :
  0 <= p_cache_size params < 2 ^ 63 -> good_trace hash (p_cache_size params) reqs ->
  exists res st st' s, run_gets (LRU_get hash) (init params seed) reqs = Ok (res, st) /\
    v0_run (LRUv0_init (T := T) (Q := Q) empty_store params seed) reqs = Ok (res, st') /\
    occupied_size (st_cache (v0_cache st')) = occupied_size (st_cache st) /\
    LRUv0_free st' = Ok (s, ∅, [V0_params_t]) /\ objs s = ∅.
Proof.
  intros Hc Hg. destruct (LRU_run_ref hash params seed reqs Hc Hg) as (res & st & a & E & Href & _ & Hocc & _).
  destruct Hg as [Hreqs Hlen].
  destruct (v0_run_rel _ _ _ reqs _ _ _ (LRUv0_init_rel params seed Hc)) as (res' & st' & L' & a' & E' & Hrun & R').
  - lia.
  - simpl. lia.
  - eapply Forall_impl; [exact Hreqs|]. intros r Hr. apply Hr.
  - apply (run_rel_ref _ evict_oldest) in Hrun; [|apply evictions_oldest]. unfold lru_run in Href.
    rewrite Href in Hrun. injection Hrun as -> ->. destruct (v0_free_rel _ _ _ _ _ _ R') as (s & Ef & Hs).
    exists res, st, st', s. split_and!; try done. by rewrite (vr_occupied _ _ _ _ _ _ R').
Qed.

End lruv0.

Lemma LRUv0_equiv_LRU_witness :
  exists res st st' s, run_gets (LRU_get id_hash) (init (small_params 10) 0) demo = Ok (res, st) /\
    v0_run (LRUv0_init (T := gmap Z Z) (Q := list Z) empty_store (small_params 10) 0) demo = Ok (res, st') /\
    occupied_size (st_cache (v0_cache st')) = occupied_size (st_cache st) /\
    LRUv0_free st' = Ok (s, ∅, [V0_params_t]) /\ objs s = ∅.
Proof. apply (LRUv0_equiv_LRU (T := gmap Z Z) (Q := list Z) id_hash (small_params 10) 0 demo); [simpl; lia|good_demo]. Defined.
