(* ===== verification/Md5.v ===== *)
(** * MD5 (CDNSimulator/src/md5.c and md5.h)

    The digest routine the consistent-hashing ring is built on, as executable functions.
    A word is a [Z] of 32 bits, a byte a [Z] of 8 bits; the int arithmetic of md5_append
    wraps. *)

From S2P Require Import Prelude.

(** ** Words *)

Definition T_MASK : Z := 0xffffffff.

(** [~x] on a word. *)
Definition word_not (x : Z) : Z := Z.lxor x T_MASK.

(** The constants T1 to T64, as the source writes them. *)
Definition md5_T : list Z :=
  [Z.lxor T_MASK 0x28955b87; Z.lxor T_MASK 0x173848a9; 0x242070db; Z.lxor T_MASK 0x3e423111;
   Z.lxor T_MASK 0x0a83f050; 0x4787c62a; Z.lxor T_MASK 0x57cfb9ec; Z.lxor T_MASK 0x02b96afe;
   0x698098d8; Z.lxor T_MASK 0x74bb0850; Z.lxor T_MASK 0x0000a44e; Z.lxor T_MASK 0x76a32841;
   0x6b901122; Z.lxor T_MASK 0x02678e6c; Z.lxor T_MASK 0x5986bc71; 0x49b40821;
   Z.lxor T_MASK 0x09e1da9d; Z.lxor T_MASK 0x3fbf4cbf; 0x265e5a51; Z.lxor T_MASK 0x16493855;
   Z.lxor T_MASK 0x29d0efa2; 0x02441453; Z.lxor T_MASK 0x275e197e; Z.lxor T_MASK 0x182c0437;
   0x21e1cde6; Z.lxor T_MASK 0x3cc8f829; Z.lxor T_MASK 0x0b2af278; 0x455a14ed;
   Z.lxor T_MASK 0x561c16fa; Z.lxor T_MASK 0x03105c07; 0x676f02d9; Z.lxor T_MASK 0x72d5b375;
   Z.lxor T_MASK 0x0005c6bd; Z.lxor T_MASK 0x788e097e; 0x6d9d6122; Z.lxor T_MASK 0x021ac7f3;
   Z.lxor T_MASK 0x5b4115bb; 0x4bdecfa9; Z.lxor T_MASK 0x0944b49f; Z.lxor T_MASK 0x4140438f;
   0x289b7ec6; Z.lxor T_MASK 0x155ed805; Z.lxor T_MASK 0x2b10cf7a; 0x04881d05;
   Z.lxor T_MASK 0x262b2fc6; Z.lxor T_MASK 0x1924661a; 0x1fa27cf8; Z.lxor T_MASK 0x3b53a99a;
   Z.lxor T_MASK 0x0bd6ddbb; 0x432aff97; Z.lxor T_MASK 0x546bdc58; Z.lxor T_MASK 0x036c5fc6;
   0x655b59c3; Z.lxor T_MASK 0x70f3336d; Z.lxor T_MASK 0x00100b82; Z.lxor T_MASK 0x7a7ba22e;
   0x6fa87e4f; Z.lxor T_MASK 0x01d3191f; Z.lxor T_MASK 0x5cfebceb; 0x4e0811a1;
   Z.lxor T_MASK 0x08ac817d; Z.lxor T_MASK 0x42c50dca; 0x2ad7d2bb; Z.lxor T_MASK 0x14792c6e].

(** The constant T<i>, counted from 1. *)
Definition Tc (i : nat) : Z := nth (i - 1) md5_T 0.

Definition ROTATE_LEFT (x n : Z) : Z :=
  Z.lor (u32 (Z.shiftl x n)) (Z.shiftr x (32 - n)).

Definition F (x y z : Z) : Z := Z.lor (Z.land x y) (Z.land (word_not x) z).
Definition G (x y z : Z) : Z := Z.lor (Z.land x z) (Z.land y (word_not z)).
Definition H (x y z : Z) : Z := Z.lxor (Z.lxor x y) z.
Definition I (x y z : Z) : Z := Z.lxor y (Z.lor x (word_not z)).

(** The macro [SET]: the new value of its first argument. *)
Definition SET (f : Z -> Z -> Z -> Z) (X : list Z) (a b c d : Z) (k : nat) (s Ti : Z) : Z :=
  let t := u32 (a + f b c d + nth k X 0 + Ti) in
  u32 (ROTATE_LEFT t s + b).

(** ** The state *)

Definition regs : Type := Z * Z * Z * Z.

(** [md5_state_t]; [count] is the length of the message in bits, low word first. *)
Record md5_state := Md5State {
  count0 : Z; count1 : Z;
  abcd : regs;
  buf : list Z }.

(** The sixteen words of a block.  A little-endian machine reads the bytes in place (or
    from an aligned copy), a big-endian one assembles the words: the values are the same. *)
Fixpoint le_words (n : nat) (xp : list Z) : list Z :=
  match n, xp with
  | S n, b0 :: b1 :: b2 :: b3 :: xp =>
      (b0 + Z.shiftl b1 8 + Z.shiftl b2 16 + Z.shiftl b3 24) :: le_words n xp
  | _, _ => []
  end.

(** [SET (a, b, c, d, ...)], [SET (d, a, b, c, ...)], [SET (c, d, a, b, ...)] and
    [SET (b, c, d, a, ...)] on the four registers. *)
Definition SET_a f X k s Ti (r : regs) : regs :=
  let '(a, b, c, d) := r in (SET f X a b c d k s Ti, b, c, d).
Definition SET_d f X k s Ti (r : regs) : regs :=
  let '(a, b, c, d) := r in (a, b, c, SET f X d a b c k s Ti).
Definition SET_c f X k s Ti (r : regs) : regs :=
  let '(a, b, c, d) := r in (a, b, SET f X c d a b k s Ti, d).
Definition SET_b f X k s Ti (r : regs) : regs :=
  let '(a, b, c, d) := r in (a, SET f X b c d a k s Ti, c, d).

(** Round 1. *)
Definition md5_round1 (X : list Z) (r : regs) : regs :=
  let r := SET_a F X 0 7 (Tc 1) r in
  let r := SET_d F X 1 12 (Tc 2) r in
  let r := SET_c F X 2 17 (Tc 3) r in
  let r := SET_b F X 3 22 (Tc 4) r in
  let r := SET_a F X 4 7 (Tc 5) r in
  let r := SET_d F X 5 12 (Tc 6) r in
  let r := SET_c F X 6 17 (Tc 7) r in
  let r := SET_b F X 7 22 (Tc 8) r in
  let r := SET_a F X 8 7 (Tc 9) r in
  let r := SET_d F X 9 12 (Tc 10) r in
  let r := SET_c F X 10 17 (Tc 11) r in
  let r := SET_b F X 11 22 (Tc 12) r in
  let r := SET_a F X 12 7 (Tc 13) r in
  let r := SET_d F X 13 12 (Tc 14) r in
  let r := SET_c F X 14 17 (Tc 15) r in
  let r := SET_b F X 15 22 (Tc 16) r in
  r.

(** Round 2. *)
Definition md5_round2 (X : list Z) (r : regs) : regs :=
  let r := SET_a G X 1 5 (Tc 17) r in
  let r := SET_d G X 6 9 (Tc 18) r in
  let r := SET_c G X 11 14 (Tc 19) r in
  let r := SET_b G X 0 20 (Tc 20) r in
  let r := SET_a G X 5 5 (Tc 21) r in
  let r := SET_d G X 10 9 (Tc 22) r in
  let r := SET_c G X 15 14 (Tc 23) r in
  let r := SET_b G X 4 20 (Tc 24) r in
  let r := SET_a G X 9 5 (Tc 25) r in
  let r := SET_d G X 14 9 (Tc 26) r in
  let r := SET_c G X 3 14 (Tc 27) r in
  let r := SET_b G X 8 20 (Tc 28) r in
  let r := SET_a G X 13 5 (Tc 29) r in
  let r := SET_d G X 2 9 (Tc 30) r in
  let r := SET_c G X 7 14 (Tc 31) r in
  let r := SET_b G X 12 20 (Tc 32) r in
  r.

(** Round 3. *)
Definition md5_round3 (X : list Z) (r : regs) : regs :=
  let r := SET_a H X 5 4 (Tc 33) r in
  let r := SET_d H X 8 11 (Tc 34) r in
  let r := SET_c H X 11 16 (Tc 35) r in
  let r := SET_b H X 14 23 (Tc 36) r in
  let r := SET_a H X 1 4 (Tc 37) r in
  let r := SET_d H X 4 11 (Tc 38) r in
  let r := SET_c H X 7 16 (Tc 39) r in
  let r := SET_b H X 10 23 (Tc 40) r in
  let r := SET_a H X 13 4 (Tc 41) r in
  let r := SET_d H X 0 11 (Tc 42) r in
  let r := SET_c H X 3 16 (Tc 43) r in
  let r := SET_b H X 6 23 (Tc 44) r in
  let r := SET_a H X 9 4 (Tc 45) r in
  let r := SET_d H X 12 11 (Tc 46) r in
  let r := SET_c H X 15 16 (Tc 47) r in
  let r := SET_b H X 2 23 (Tc 48) r in
  r.

(** Round 4. *)
Definition md5_round4 (X : list Z) (r : regs) : regs :=
  let r := SET_a I X 0 6 (Tc 49) r in
  let r := SET_d I X 7 10 (Tc 50) r in
  let r := SET_c I X 14 15 (Tc 51) r in
  let r := SET_b I X 5 21 (Tc 52) r in
  let r := SET_a I X 12 6 (Tc 53) r in
  let r := SET_d I X 3 10 (Tc 54) r in
  let r := SET_c I X 10 15 (Tc 55) r in
  let r := SET_b I X 1 21 (Tc 56) r in
  let r := SET_a I X 8 6 (Tc 57) r in
  let r := SET_d I X 15 10 (Tc 58) r in
  let r := SET_c I X 6 15 (Tc 59) r in
  let r := SET_b I X 13 21 (Tc 60) r in
  let r := SET_a I X 4 6 (Tc 61) r in
  let r := SET_d I X 11 10 (Tc 62) r in
  let r := SET_c I X 2 15 (Tc 63) r in
  let r := SET_b I X 9 21 (Tc 64) r in
  r.

(** [md5_process] on the 64 bytes at [data]. *)
Definition md5_process (pms : md5_state) (data : list Z) : result md5_state :=
  if (length data <? 64)%nat then Err OutOfBounds
  else
    let X := le_words 16 data in
    let '(a0, b0, c0, d0) := abcd pms in
    let '(a, b, c, d) :=
      md5_round4 X (md5_round3 X (md5_round2 X (md5_round1 X (abcd pms)))) in
    Ok (Md5State (count0 pms) (count1 pms)
          (u32 (a0 + a), u32 (b0 + b), u32 (c0 + c), u32 (d0 + d)) (buf pms)).

(** [md5_init]: the buffer is left as it is. *)
Definition md5_init (pms : md5_state) : md5_state :=
  Md5State 0 0
    (0x67452301, Z.lxor T_MASK 0x10325476, Z.lxor T_MASK 0x67452301, 0x10325476) (buf pms).

(** [memcpy(dst + off, src, n)]. *)
Definition memcpy (dst : list Z) (off : Z) (src : list Z) (n : Z) : result (list Z) :=
  if (0 <=? n) && (n <=? Z.of_nat (length src)) && (0 <=? off) &&
     (off + n <=? Z.of_nat (length dst))
  then Ok (take (Z.to_nat off) dst ++ take (Z.to_nat n) src ++ drop (Z.to_nat (off + n)) dst)
  else Err OutOfBounds.

Definition set_buf (b : list Z) (pms : md5_state) : md5_state :=
  Md5State (count0 pms) (count1 pms) (abcd pms) b.

(** The loop over the full blocks: the state, what is left of the data and its length. *)
Fixpoint full_blocks (fuel : nat) (pms : md5_state) (p : list Z) (left : Z)
    : result (md5_state * list Z * Z) :=
  if left <? 64 then Ok (pms, p, left)
  else match fuel with
       | O => Err OutOfFuel
       | S fuel =>
           let! pms := md5_process pms p in
           full_blocks fuel pms (drop 64 p) (left - 64)
       end.

(** [md5_append]: [data] is the memory at the pointer, [nbytes] an int, and so are nbytes << 3
    and offset + nbytes. *)
Definition md5_append (pms : md5_state) (data : list Z) (nbytes : Z) : result md5_state :=
  let offset := Z.land (Z.shiftr (count0 pms) 3) 63 in
  let nbits := u32 (i32 (Z.shiftl nbytes 3)) in
  if nbytes <=? 0 then Ok pms
  else
    let c1 := u32 (count1 pms + Z.shiftr nbytes 29) in
    let c0 := u32 (count0 pms + nbits) in
    let c1 := if c0 <? nbits then u32 (c1 + 1) else c1 in
    let pms := Md5State c0 c1 (abcd pms) (buf pms) in
    let final pms p left :=
      let! '(pms, p, left) := full_blocks (length data) pms p left in
      if negb (left =? 0) then
        let! b := memcpy (buf pms) 0 p left in Ok (set_buf b pms)
      else Ok pms in
    if negb (offset =? 0) then
      let copy := if 64 <? i32 (offset + nbytes) then 64 - offset else nbytes in
      let! b := memcpy (buf pms) offset data copy in
      let pms := set_buf b pms in
      if offset + copy <? 64 then Ok pms
      else
        let! pms := md5_process pms (buf pms) in
        final pms (drop (Z.to_nat copy) data) (nbytes - copy)
    else final pms data nbytes.

(** The byte [i] of a list of words, as [md5_finish] takes them out. *)
Definition word_byte (ws : list Z) (i : nat) : Z :=
  u8 (Z.shiftr (nth (i / 4) ws 0) (8 * Z.of_nat (i mod 4))).

Definition pad : list Z := 0x80 :: replicate 63 0.

Definition regs_list (r : regs) : list Z := let '(a, b, c, d) := r in [a; b; c; d].

(** [md5_finish]: the state after it and the digest. *)
Definition md5_finish (pms : md5_state) : result (md5_state * list Z) :=
  let data := map (word_byte [count0 pms; count1 pms]) (seq 0 8) in
  let! pms := md5_append pms pad (Z.land (u32 (55 - Z.shiftr (count0 pms) 3)) 63 + 1) in
  let! pms := md5_append pms data 8 in
  Ok (pms, map (word_byte (regs_list (abcd pms))) (seq 0 16)).
