(* ===== verification/Md5Spec.v ===== *)
(** * MD5 against RFC 1321

    The reference is the algorithm of RFC 1321 on whole messages: padding, blocks of
    sixteen words, sixty-four steps with the schedule of the RFC, little-endian digest.
    The code's incremental routines compute it, however the message is cut. *)

From S2P Require Import Prelude Md5.

(** ** The reference *)

(** floor (2^32 * |sin (i + 1)|). *)
Definition sines : list Z :=
  [0xd76aa478; 0xe8c7b756; 0x242070db; 0xc1bdceee; 0xf57c0faf; 0x4787c62a;
   0xa8304613; 0xfd469501; 0x698098d8; 0x8b44f7af; 0xffff5bb1; 0x895cd7be;
   0x6b901122; 0xfd987193; 0xa679438e; 0x49b40821; 0xf61e2562; 0xc040b340;
   0x265e5a51; 0xe9b6c7aa; 0xd62f105d; 0x02441453; 0xd8a1e681; 0xe7d3fbc8;
   0x21e1cde6; 0xc33707d6; 0xf4d50d87; 0x455a14ed; 0xa9e3e905; 0xfcefa3f8;
   0x676f02d9; 0x8d2a4c8a; 0xfffa3942; 0x8771f681; 0x6d9d6122; 0xfde5380c;
   0xa4beea44; 0x4bdecfa9; 0xf6bb4b60; 0xbebfbc70; 0x289b7ec6; 0xeaa127fa;
   0xd4ef3085; 0x04881d05; 0xd9d4d039; 0xe6db99e5; 0x1fa27cf8; 0xc4ac5665;
   0xf4292244; 0x432aff97; 0xab9423a7; 0xfc93a039; 0x655b59c3; 0x8f0ccc92;
   0xffeff47d; 0x85845dd1; 0x6fa87e4f; 0xfe2ce6e0; 0xa3014314; 0x4e0811a1;
   0xf7537e82; 0xbd3af235; 0x2ad7d2bb; 0xeb86d391].

Definition step_fun (i : nat) : Z -> Z -> Z -> Z :=
  if (i <? 16)%nat then F else if (i <? 32)%nat then G
  else if (i <? 48)%nat then H else I.

Definition step_word (i : nat) : nat :=
  (if (i <? 16)%nat then i else if (i <? 32)%nat then (5 * i + 1) mod 16
   else if (i <? 48)%nat then (3 * i + 5) mod 16 else (7 * i) mod 16)%nat.

Definition step_shift (i : nat) : Z :=
  nth (i mod 4)%nat
    (if (i <? 16)%nat then [7; 12; 17; 22] else if (i <? 32)%nat then [5; 9; 14; 20]
     else if (i <? 48)%nat then [4; 11; 16; 23] else [6; 10; 15; 21]) 0.

(** The sixteen little-endian words of a block. *)
Definition block_words (block : list Z) : list Z :=
  map (fun j => let b i := nth (4 * j + i) block 0 in
                b 0%nat + 2 ^ 8 * b 1%nat + 2 ^ 16 * b 2%nat + 2 ^ 24 * b 3%nat) (seq 0 16).

(** One of the sixty-four steps, the registers rotated after it. *)
Definition rfc_step (X : list Z) (r : regs) (i : nat) : regs :=
  let '(a, b, c, d) := r in
  let t := u32 (a + step_fun i b c d + nth (step_word i) X 0 + nth i sines 0) in
  (d, u32 (ROTATE_LEFT t (step_shift i) + b), b, c).

Definition add_regs (r r' : regs) : regs :=
  let '(a, b, c, d) := r in let '(a', b', c', d') := r' in
  (u32 (a + a'), u32 (b + b'), u32 (c + c'), u32 (d + d')).

Definition rfc_block (r : regs) (block : list Z) : regs :=
  add_regs r (fold_left (rfc_step (block_words block)) (seq 0 64) r).

(** The registers after the full blocks of a message, and the bytes that are left. *)
Fixpoint run_blocks (fuel : nat) (r : regs) (msg : list Z) : regs * list Z :=
  match fuel with
  | O => (r, msg)
  | S fuel =>
      if (length msg <? 64)%nat then (r, msg)
      else run_blocks fuel (rfc_block r (take 64 msg)) (drop 64 msg)
  end.

Definition absorb (r : regs) (msg : list Z) : regs * list Z := run_blocks (length msg) r msg.

Definition rfc_init : regs := (0x67452301, 0xefcdab89, 0x98badcfe, 0x10325476).

(** [n] bytes of a number, the low byte first. *)
Definition le_bytes (n : nat) (x : Z) : list Z :=
  map (fun i => x / 2 ^ (8 * Z.of_nat i) mod 2 ^ 8) (seq 0 n).

(** A byte 0x80, zeros up to 56 modulo 64, and the length in bits modulo 2^64. *)
Definition padding (len : Z) : list Z :=
  0x80 :: replicate (Z.to_nat ((55 - len) mod 64)) 0 ++ le_bytes 8 (8 * len).

Definition rfc_md5 (msg : list Z) : list Z :=
  let '(a, b, c, d) := (absorb rfc_init (msg ++ padding (Z.of_nat (length msg)))).1 in
  le_bytes 4 a ++ le_bytes 4 b ++ le_bytes 4 c ++ le_bytes 4 d.

(** ** One block *)

Lemma le_words_spec n xp :
  (4 * n <= length xp)%nat ->
  le_words n xp =
  map (fun j => let b i := nth (4 * j + i) xp 0 in
                b 0%nat + 2 ^ 8 * b 1%nat + 2 ^ 16 * b 2%nat + 2 ^ 24 * b 3%nat) (seq 0 n).
Proof.
  revert xp. induction n as [|n IH]; intros xp Hl; [done|].
  destruct xp as [|b0 [|b1 [|b2 [|b3 xp]]]]; simpl in Hl; try lia.
  cbn [le_words seq map]. f_equal.
  - cbn [nth Nat.mul Nat.add]. rewrite !Z.shiftl_mul_pow2 by lia. lia.
  - rewrite IH by lia. rewrite <- seq_shift, map_map. apply map_ext. intros j.
    by replace (4 * S j)%nat with (S (S (S (S (4 * j))))) by lia.
Qed.

Lemma block_words_take data : block_words (take 64 data) = block_words data.
Proof.
  apply map_ext_in. intros j Hj%in_seq. cbv beta zeta.
  assert (forall i, (i < 4)%nat -> nth (4 * j + i) (take 64 data) 0 = nth (4 * j + i) data 0)
    as Hn by (intros i Hi; rewrite !nth_lookup, lookup_take_lt by lia; done).
  by rewrite !Hn by lia.
Qed.

Lemma sines_T i : nth i sines 0 = Tc (S i).
Proof. unfold Tc. rewrite Nat.sub_succ, Nat.sub_0_r. by change sines with md5_T. Qed.

(** Four assignments of the code, one for each register, are four steps of the reference. *)
Lemma four_steps X i r :
  let op S j := S (step_fun j) X (step_word j) (step_shift j) (Tc (Datatypes.S j)) in
  op SET_b (3 + i)%nat (op SET_c (2 + i)%nat (op SET_d (1 + i)%nat (op SET_a i r))) =
  fold_left (rfc_step X) [i; 1 + i; 2 + i; 3 + i]%nat r.
Proof.
  intros op. destruct r as [[[a b] c] d]. unfold rfc_step, op, fold_left. by rewrite !sines_T.
Qed.

Lemma sixteen_steps X i r :
  fold_left (rfc_step X) (seq i 16) r =
  let op S j := S (step_fun j) X (step_word j) (step_shift j) (Tc (Datatypes.S j)) in
  let four i r :=
    op SET_b (3 + i)%nat (op SET_c (2 + i)%nat (op SET_d (1 + i)%nat (op SET_a i r))) in
  four (12 + i)%nat (four (8 + i)%nat (four (4 + i)%nat (four i r))).
Proof. cbv beta zeta. by rewrite !four_steps, <- !fold_left_app. Qed.

Lemma round1_rfc X r : md5_round1 X r = fold_left (rfc_step X) (seq 0 16) r.
Proof. by rewrite sixteen_steps. Qed.
Lemma round2_rfc X r : md5_round2 X r = fold_left (rfc_step X) (seq 16 16) r.
Proof. by rewrite sixteen_steps. Qed.
Lemma round3_rfc X r : md5_round3 X r = fold_left (rfc_step X) (seq 32 16) r.
Proof. by rewrite sixteen_steps. Qed.
Lemma round4_rfc X r : md5_round4 X r = fold_left (rfc_step X) (seq 48 16) r.
Proof. by rewrite sixteen_steps. Qed.

(** The code's unrolled schedule is the one of the RFC. *)
Lemma rounds_rfc X r :
  md5_round4 X (md5_round3 X (md5_round2 X (md5_round1 X r))) =
  fold_left (rfc_step X) (seq 0 64) r.
Proof.
  rewrite round1_rfc, round2_rfc, round3_rfc, round4_rfc.
  by rewrite <- !fold_left_app, <- !seq_app.
Qed.

Lemma md5_process_rfc pms data :
  (64 <= length data)%nat ->
  md5_process pms data =
  Ok (Md5State (count0 pms) (count1 pms) (rfc_block (abcd pms) (take 64 data)) (buf pms)).
Proof.
  intros Hl. unfold md5_process, rfc_block.
  destruct (Nat.ltb_spec (length data) 64); [lia|]. cbv zeta.
  rewrite (le_words_spec 16) by lia. fold (block_words data).
  rewrite rounds_rfc, block_words_take.
  destruct (abcd pms) as [[[a b] c] d]. cbn [add_regs].
  by destruct (fold_left _ _ _) as [[[a' b'] c'] d'].
Qed.

(** ** Absorbing a message *)

Lemma run_blocks_fuel n m r msg :
  (length msg <= n)%nat -> (length msg <= m)%nat -> run_blocks n r msg = run_blocks m r msg.
Proof.
  revert m r msg. induction n as [|n IH]; intros [|m] r msg Hn Hm; try done; simpl.
  - destruct msg; [done|simpl in Hn; lia].
  - destruct msg; [done|simpl in Hm; lia].
  - destruct (Nat.ltb_spec (length msg) 64); [done|]. apply IH; rewrite length_drop; lia.
Qed.

Lemma absorb_short r msg : (length msg < 64)%nat -> absorb r msg = (r, msg).
Proof.
  intros Hl. unfold absorb. destruct msg as [|b msg]; [done|]. cbn [length run_blocks].
  simpl in Hl. destruct (Nat.ltb_spec (S (length msg)) 64); [done|lia].
Qed.

Lemma absorb_block r msg :
  (64 <= length msg)%nat -> absorb r msg = absorb (rfc_block r (take 64 msg)) (drop 64 msg).
Proof.
  intros Hl. unfold absorb at 1. destruct (length msg) as [|n] eqn:E; [lia|].
  cbn [run_blocks]. rewrite E. destruct (Nat.ltb_spec (S n) 64); [lia|].
  apply run_blocks_fuel; rewrite length_drop; lia.
Qed.

Lemma absorb_full r b msg :
  length b = 64%nat -> absorb r (b ++ msg) = absorb (rfc_block r b) msg.
Proof.
  intros Hb. rewrite absorb_block by (rewrite length_app; lia).
  by rewrite take_app_length', drop_app_length' by done.
Qed.

(** Induction on a message by its full blocks. *)
Lemma blocks_ind (P : list Z -> Prop) :
  (forall msg, (length msg < 64)%nat -> P msg) ->
  (forall b msg, length b = 64%nat -> P msg -> P (b ++ msg)) ->
  forall msg, P msg.
Proof.
  intros Hs Hb msg. induction msg as [msg IH] using (induction_ltof1 _ (@length Z)).
  unfold ltof in IH. destruct (decide (length msg < 64)%nat) as [|Hl]; [auto|].
  rewrite <- (take_drop 64 msg). apply Hb; [rewrite length_take; lia|].
  apply IH. rewrite length_drop. lia.
Qed.

Lemma absorb_app msg : forall r msg',
  absorb r (msg ++ msg') = absorb (absorb r msg).1 ((absorb r msg).2 ++ msg').
Proof.
  induction msg as [msg Hl|b msg Hb IH] using blocks_ind; intros r msg'.
  - by rewrite (absorb_short r msg).
  - by rewrite <- app_assoc, !(absorb_full _ b), IH by done.
Qed.

Lemma absorb_rest msg : forall r,
  Z.of_nat (length (absorb r msg).2) = Z.of_nat (length msg) mod 64.
Proof.
  induction msg as [msg Hl|b msg Hb IH] using blocks_ind; intros r.
  - rewrite absorb_short, Z.mod_small by lia. done.
  - rewrite absorb_full, IH, length_app, Hb by done.
    rewrite Nat2Z.inj_add. change (Z.of_nat 64) with (1 * 64).
    by rewrite Z.add_comm, Z_mod_plus_full.
Qed.

(** ** The loop over full blocks *)

Lemma full_blocks_absorb fuel : forall pms p left,
  0 <= left <= Z.of_nat (length p) -> (Z.to_nat left <= fuel)%nat ->
  exists r p' left',
    full_blocks fuel pms p left =
      Ok (Md5State (count0 pms) (count1 pms) r (buf pms), p', left') /\
    0 <= left' < 64 /\ left' <= Z.of_nat (length p') /\
    absorb (abcd pms) (take (Z.to_nat left) p) = (r, take (Z.to_nat left') p').
Proof.
  induction fuel as [|fuel IH]; intros pms p left Hp Hf; cbn [full_blocks];
    destruct (Z.ltb_spec left 64); try lia.
  1, 2: exists (abcd pms), p, left; split_and!; try lia; [by destruct pms|];
    rewrite absorb_short by (rewrite length_take; lia); done.
  rewrite md5_process_rfc by lia. cbn [rbind].
  edestruct (IH (Md5State (count0 pms) (count1 pms) (rfc_block (abcd pms) (take 64 p))
                   (buf pms)) (drop 64 p) (left - 64))
    as (r & p' & left' & E & Hl & Hl' & Ha); [rewrite length_drop; lia|lia|].
  exists r, p', left'. split_and!; try lia; [done|].
  rewrite <- Ha. cbn [abcd].
  replace (take (Z.to_nat left) p) with
    (take 64 p ++ take (Z.to_nat (left - 64)) (drop 64 p)).
  - rewrite absorb_full; [done|]. rewrite length_take. lia.
  - rewrite take_drop_commute. rewrite <- (take_drop 64 (take (Z.to_nat left) p)) at 1.
    rewrite take_take. f_equal; [f_equal; lia|do 2 f_equal; lia].
Qed.

(** ** The state after part of a message *)

Record md5_rep (msg : list Z) (pms : md5_state) : Prop := {
  rep_count0 : count0 pms = (8 * Z.of_nat (length msg)) mod 2 ^ 32;
  rep_count1 : count1 pms = (8 * Z.of_nat (length msg) / 2 ^ 32) mod 2 ^ 32;
  rep_buf : length (buf pms) = 64%nat;
  rep_absorb : absorb rfc_init msg =
                 (abcd pms, take (Z.to_nat (Z.of_nat (length msg) mod 64)) (buf pms)) }.

Lemma md5_init_rep pms : length (buf pms) = 64%nat -> md5_rep [] (md5_init pms).
Proof. by intros Hb; split. Qed.

(** The 64-bit length counter. *)
Lemma count_add (L N : Z) :
  0 <= L -> 0 <= N ->
  let c1 := u32 ((L / 2 ^ 32) mod 2 ^ 32 + N / 2 ^ 32) in
  let c0 := u32 (L mod 2 ^ 32 + u32 N) in
  c0 = (L + N) mod 2 ^ 32 /\
  (if c0 <? u32 N then u32 (c1 + 1) else c1) = ((L + N) / 2 ^ 32) mod 2 ^ 32.
Proof.
  intros HL HN c1 c0. subst c1 c0. unfold u32, wrap.
  rewrite <- (Z.add_mod L N) by lia. split; [done|].
  case_bool; Z.to_euclidean_division_equations; lia.
Qed.

Lemma memcpy_ok dst off src n :
  0 <= n <= Z.of_nat (length src) -> 0 <= off -> off + n <= Z.of_nat (length dst) ->
  exists b, memcpy dst off src n = Ok b /\ length b = length dst /\
    take (Z.to_nat (off + n)) b = take (Z.to_nat off) dst ++ take (Z.to_nat n) src.
Proof.
  intros Hn Ho Hl. unfold memcpy.
  destruct (Z.leb_spec 0 n), (Z.leb_spec n (Z.of_nat (length src))), (Z.leb_spec 0 off),
    (Z.leb_spec (off + n) (Z.of_nat (length dst))); try lia. cbn [andb].
  eexists. split; [done|]. split.
  - rewrite !length_app, !length_take, length_drop. lia.
  - rewrite app_assoc, take_app_length'; [done|]. rewrite length_app, !length_take. lia.
Qed.

(** The tail of [md5_append]: full blocks, then the rest into the buffer. *)
Lemma blocks_and_rest n pms p left :
  length (buf pms) = 64%nat -> 0 <= left <= Z.of_nat (length p) -> (Z.to_nat left <= n)%nat ->
  exists pms',
    (let! '(pms, p, left) := full_blocks n pms p left in
     if negb (left =? 0) then let! b := memcpy (buf pms) 0 p left in Ok (set_buf b pms)
     else Ok pms) = Ok pms' /\
    count0 pms' = count0 pms /\ count1 pms' = count1 pms /\ length (buf pms') = 64%nat /\
    forall k, k = length (absorb (abcd pms) (take (Z.to_nat left) p)).2 ->
    absorb (abcd pms) (take (Z.to_nat left) p) = (abcd pms', take k (buf pms')).
Proof.
  intros Hb Hl Hn.
  destruct (full_blocks_absorb n pms p left Hl Hn) as (r & p' & left' & -> & Hl' & Hp' & ->).
  cbn [rbind]. destruct (Z.eqb_spec left' 0) as [->|Hne]; cbn [negb].
  - eexists. split; [done|]. split_and!; try done. intros k ->. done.
  - cbn [buf]. destruct (memcpy_ok (buf pms) 0 p' left') as (b & -> & Hbl & Ht); [lia..|].
    cbn [rbind]. eexists. split; [done|]. split_and!; try done; [cbn; congruence|].
    intros k ->. cbn [fst snd set_buf abcd buf]. rewrite length_take.
    rewrite Z.add_0_l in Ht. rewrite take_0, app_nil_l in Ht.
    rewrite <- Ht. f_equal. f_equal. lia.
Qed.

Lemma md5_rep_extend msg pms add pms' :
  md5_rep msg pms ->
  count0 pms' = (8 * Z.of_nat (length (msg ++ add))) mod 2 ^ 32 ->
  count1 pms' = (8 * Z.of_nat (length (msg ++ add)) / 2 ^ 32) mod 2 ^ 32 ->
  length (buf pms') = 64%nat ->
  (let part := take (Z.to_nat (Z.of_nat (length msg) mod 64)) (buf pms) ++ add in
   absorb (abcd pms) part =
   (abcd pms', take (length (absorb (abcd pms) part).2) (buf pms'))) ->
  md5_rep (msg ++ add) pms'.
Proof.
  intros [_ _ _ Ha] H0 H1 Hb Hp. split; try done.
  pose proof (absorb_rest (msg ++ add) rfc_init) as Hr.
  rewrite absorb_app, Ha in Hr |- *. cbn [fst snd] in Hr |- *.
  by rewrite <- Hr, Nat2Z.id.
Qed.

(** The offset and the counters [md5_append] computes. *)
Lemma md5_append_counters msg pms n :
  md5_rep msg pms -> 0 <= n < 2 ^ 28 ->
  let L := 8 * (Z.of_nat (length msg) + n) in
  let nbits := u32 (i32 (Z.shiftl n 3)) in
  let c1 := u32 (count1 pms + Z.shiftr n 29) in
  let c0 := u32 (count0 pms + nbits) in
  Z.land (Z.shiftr (count0 pms) 3) 63 = Z.of_nat (length msg) mod 64 /\
  c0 = L mod 2 ^ 32 /\ (if c0 <? nbits then u32 (c1 + 1) else c1) = (L / 2 ^ 32) mod 2 ^ 32.
Proof.
  intros [H0 H1 _ _] Hn. cbv zeta. rewrite H0, H1. split.
  - change 63 with (Z.ones 6). rewrite Z.land_ones, Z.shiftr_div_pow2 by lia.
    Z.to_euclidean_division_equations; lia.
  - rewrite Z.shiftl_mul_pow2, Z.shiftr_div_pow2 by lia. unfold i32. rewrite swrap_small by lia.
    replace (n * 2 ^ 3) with (8 * n) by lia.
    replace (n / 2 ^ 29) with (8 * n / 2 ^ 32) by (Z.to_euclidean_division_equations; lia).
    rewrite Z.mul_add_distr_l. apply (count_add (8 * Z.of_nat (length msg)) (8 * n)); lia.
Qed.

(** [md5_append] extends the message. *)
Lemma md5_append_rep msg pms data n :
  md5_rep msg pms -> 0 <= n <= Z.of_nat (length data) -> n < 2 ^ 28 ->
  exists pms', md5_append pms data n = Ok pms' /\ md5_rep (msg ++ take (Z.to_nat n) data) pms'.
Proof.
  intros Hrep Hn Hint. unfold md5_append. cbv zeta.
  destruct (Z.leb_spec n 0) as [Hn0|Hn0].
  { replace n with 0 by lia. rewrite take_0, app_nil_r. by exists pms. }
  destruct (md5_append_counters msg pms n Hrep) as (-> & Hc0 & Hc1); [lia|].
  cbv zeta in Hc1. rewrite Hc1, Hc0. cbn [buf abcd count0 count1].
  replace (Z.of_nat (length msg) + n) with (Z.of_nat (length (msg ++ take (Z.to_nat n) data)))
    by (rewrite length_app, length_take; lia).
  pose proof (rep_buf _ _ Hrep) as Hb.
  assert (0 <= Z.of_nat (length msg) mod 64 < 64) as Hoff by (apply Z.mod_pos_bound; lia).
  pose proof (md5_rep_extend msg pms (take (Z.to_nat n) data)) as Hext.
  revert Hext. set (off := Z.of_nat (length msg) mod 64) in *. cbv zeta. intros Hext.
  match goal with |- context [set_buf _ ?q] => set (pms1 := q) end.
  destruct (Z.eqb_spec off 0) as [E|E]; cbn [negb].
  { destruct (blocks_and_rest (length data) pms1 data n) as (pms' & -> & E0 & E1 & Eb & Ha);
      [done|lia|lia|].
    exists pms'. split; [done|]. apply Hext; try done. rewrite E. by apply Ha. }
  unfold i32. rewrite swrap_small by lia. set (copy := if 64 <? off + n then 64 - off else n).
  assert (0 <= copy <= n /\ off + copy <= 64 /\ (off + copy < 64 -> copy = n)) as (Hcn & Hc & Hsm)
    by (subst copy; case_bool; lia).
  destruct (memcpy_ok (buf pms) off data copy) as (b & -> & Hbl & Ht); [lia..|].
  cbn [rbind]. destruct (Z.ltb_spec (off + copy) 64).
  - eexists. split; [done|]. apply Hext; try done; [cbn; congruence|].
    rewrite <- Hsm, <- Ht by done.
    rewrite absorb_short by (rewrite length_take; lia). cbn [fst snd set_buf abcd buf].
    rewrite length_take. do 2 f_equal. lia.
  - assert (off + copy = 64) as E64 by lia. rewrite E64 in Ht.
    rewrite md5_process_rfc by (cbn; lia). cbn [rbind set_buf abcd count0 count1 buf].
    match goal with |- context [full_blocks _ ?q] => set (pms2 := q) end.
    destruct (blocks_and_rest (length data) pms2 (drop (Z.to_nat copy) data) (n - copy))
      as (pms' & -> & E0 & E1 & Eb & Ha); [cbn; congruence|rewrite length_drop; lia|lia|].
    exists pms'. split; [done|]. apply Hext; try done.
    replace (take (Z.to_nat n) data) with
      (take (Z.to_nat copy) data ++ take (Z.to_nat (n - copy)) (drop (Z.to_nat copy) data))
      by (rewrite take_take_drop; f_equal; lia).
    rewrite app_assoc, absorb_full by (rewrite length_app, !length_take; lia).
    change (Z.to_nat 64) with 64%nat in Ht. rewrite <- Ht. by apply Ha.
Qed.

(** ** The digest *)

Lemma mod_byte x w i : 0 <= i -> i + 8 <= w -> (x mod 2 ^ w) / 2 ^ i mod 2 ^ 8 = x / 2 ^ i mod 2 ^ 8.
Proof.
  intros Hi Hw. apply Z.bits_inj'. intros k Hk.
  destruct (Z.ltb_spec k 8).
  - rewrite !Z.mod_pow2_bits_low, !Z.div_pow2_bits by lia.
    rewrite Z.mod_pow2_bits_low by lia. done.
  - by rewrite !Z.mod_pow2_bits_high by lia.
Qed.

Lemma word_bytes_le ws i :
  (i < 4 * length ws)%nat ->
  word_byte ws i = nth (i / 4) ws 0 / 2 ^ (8 * Z.of_nat (i mod 4)) mod 2 ^ 8.
Proof. intros. unfold word_byte, u8, wrap. by rewrite Z.shiftr_div_pow2 by lia. Qed.

Lemma length_bytes_le msg pms :
  md5_rep msg pms ->
  map (word_byte [count0 pms; count1 pms]) (seq 0 8) =
  le_bytes 8 (8 * Z.of_nat (length msg)).
Proof.
  intros [H0 H1 _ _]. rewrite H0, H1. unfold le_bytes. apply map_ext_in.
  intros i Hi%in_seq. rewrite word_bytes_le by (simpl; lia).
  destruct (decide (i < 4)%nat).
  - rewrite Nat.div_small, Nat.mod_small by lia. apply mod_byte; lia.
  - replace (i / 4)%nat with 1%nat by (apply (Nat.div_unique i 4 1 (i - 4)); lia).
    replace (i mod 4)%nat with (i - 4)%nat by (apply (Nat.mod_unique i 4 1 (i - 4)); lia).
    cbn [nth]. rewrite mod_byte by lia.
    rewrite Z.div_div, <- Z.pow_add_r by lia. do 3 f_equal. lia.
Qed.

Lemma regs_bytes_le r :
  map (word_byte (regs_list r)) (seq 0 16) =
  let '(a, b, c, d) := r in le_bytes 4 a ++ le_bytes 4 b ++ le_bytes 4 c ++ le_bytes 4 d.
Proof.
  destruct r as [[[a b] c] d]. unfold word_byte, le_bytes, u8, wrap.
  cbn -[Z.shiftr Z.pow Z.modulo Z.div Z.mul]. by rewrite !Z.shiftr_div_pow2 by lia.
Qed.

Lemma pad_count msg pms :
  md5_rep msg pms ->
  Z.land (u32 (55 - Z.shiftr (count0 pms) 3)) 63 = (55 - Z.of_nat (length msg)) mod 64.
Proof.
  intros [H0 _ _ _]. change 63 with (Z.ones 6). rewrite Z.land_ones, H0, Z.shiftr_div_pow2 by lia.
  unfold u32, wrap. Z.to_euclidean_division_equations; lia.
Qed.

Lemma take_pad k : 0 <= k < 64 -> take (Z.to_nat (k + 1)) pad = 0x80 :: replicate (Z.to_nat k) 0.
Proof.
  intros Hk. unfold pad. replace (Z.to_nat (k + 1)) with (S (Z.to_nat k)) by lia.
  cbn [take]. f_equal. rewrite take_replicate. f_equal. lia.
Qed.

(** [md5_finish] gives the digest of the message absorbed so far. *)
Lemma md5_finish_rep msg pms :
  md5_rep msg pms -> exists pms', md5_finish pms = Ok (pms', rfc_md5 msg).
Proof.
  intros Hrep. unfold md5_finish. cbv zeta.
  rewrite (pad_count msg pms Hrep), (length_bytes_le msg pms Hrep).
  set (k := (55 - Z.of_nat (length msg)) mod 64).
  assert (0 <= k < 64) as Hk by (apply Z.mod_pos_bound; lia).
  destruct (md5_append_rep msg pms pad (k + 1) Hrep) as (pms1 & -> & Hrep1).
  { split; [lia|]. change (Z.of_nat (length pad)) with 64. lia. }
  { lia. }
  cbn [rbind].
  destruct (md5_append_rep _ pms1 (le_bytes 8 (8 * Z.of_nat (length msg))) 8 Hrep1)
    as (pms2 & -> & Hrep2); [done|done|].
  cbn [rbind]. exists pms2. f_equal. f_equal. rewrite regs_bytes_le.
  unfold rfc_md5, padding. fold k.
  rewrite (take_pad k Hk) in Hrep2.
  rewrite take_ge in Hrep2 by done. rewrite <- app_assoc in Hrep2.
  change ((0x80 :: replicate (Z.to_nat k) 0) ++ ?x) with (0x80 :: replicate (Z.to_nat k) 0 ++ x)
    in Hrep2.
  by rewrite (rep_absorb _ _ Hrep2).
Qed.

(** the lengths that md5_append can shift by 3 as an int *)
Definition append_size (c : list Z) : Prop := Z.of_nat (length c) < 2 ^ 28.

Lemma md5_appends_rep chunks : forall msg pms,
  md5_rep msg pms -> Forall append_size chunks ->
  exists pms', rfold (fun p c => md5_append p c (Z.of_nat (length c))) chunks pms = Ok pms' /\
    md5_rep (msg ++ concat chunks) pms'.
Proof.
  induction chunks as [|c chunks IH]; intros msg pms Hrep Hc; cbn [rfold concat].
  - exists pms. by rewrite app_nil_r.
  - apply Forall_cons in Hc as [Hc Hcs].
    destruct (md5_append_rep msg pms c (Z.of_nat (length c)) Hrep) as (pms1 & -> & Hrep1); [lia|done|].
    rewrite Nat2Z.id, take_ge in Hrep1 by lia. cbn [rbind].
    destruct (IH _ _ Hrep1 Hcs) as (pms' & -> & Hrep'). exists pms'.
    by rewrite <- app_assoc in Hrep'.
Qed.

(** A call that overruns: when the buffer holds something and offset + nbytes exceeds INT_MAX,
    the sum wraps around, the whole data is copied to the 64 bytes of the buffer. *)
Lemma md5_append_overruns msg pms data n :
  md5_rep msg pms -> Z.of_nat (length msg) mod 64 <> 0 ->
  n < 2 ^ 31 <= Z.of_nat (length msg) mod 64 + n ->
  md5_append pms data n = Err OutOfBounds.
Proof.
  intros Hrep Hoff Hn. unfold md5_append. cbv zeta.
  destruct (md5_append_counters msg pms 0 Hrep) as (-> & _); [lia|].
  pose proof (rep_buf _ _ Hrep) as Hb.
  assert (0 <= Z.of_nat (length msg) mod 64 < 64) as Hr by (apply Z.mod_pos_bound; lia).
  set (off := Z.of_nat (length msg) mod 64) in *.
  destruct (Z.leb_spec n 0); [lia|]. destruct (Z.eqb_spec off 0); [done|]. cbn [negb].
  replace (i32 (off + n)) with (off + n - 2 ^ 32).
  2:{ unfold i32, swrap. change (32 - 1) with 31.
      rewrite <- (Z.mod_unique (off + n + 2 ^ 31) (2 ^ 32) 1 (off + n + 2 ^ 31 - 2 ^ 32)); lia. }
  destruct (Z.ltb_spec 64 (off + n - 2 ^ 32)); [lia|]. unfold memcpy. cbn [buf].
  rewrite (proj2 (Z.leb_gt (off + n) _)) by lia. by rewrite andb_false_r.
Qed.

(** C17.  MD5 as the code computes it, for every cutting of a message into calls of md5_append
    with fewer than 2^28 bytes each (so that no int of md5_append overflows: near INT_MAX
    bytes it overruns its buffer) and whatever the buffer held before: the calls never read
    or write out of bounds, and md5_finish returns the digest of RFC 1321 of the whole
    message, the length field being the number of bits modulo 2^64. *)
Theorem md5_digest_rfc pms chunks :
  length (buf pms) = 64%nat -> Forall append_size chunks ->
  exists pms' pms'',
    rfold (fun p c => md5_append p c (Z.of_nat (length c))) chunks (md5_init pms) = Ok pms' /\
    md5_finish pms' = Ok (pms'', rfc_md5 (concat chunks)).
Proof.
  intros Hb Hc. destruct (md5_appends_rep chunks [] _ (md5_init_rep pms Hb) Hc) as (pms' & E & Hrep).
  destruct (md5_finish_rep _ _ Hrep) as (pms'' & E'). eauto.
Qed.

(** The message abc, in two pieces. *)
Lemma md5_digest_rfc_witness :
  exists pms' pms'',
    rfold (fun p c => md5_append p c (Z.of_nat (length c))) [[97]; [98; 99]]
      (md5_init (Md5State 5 6 (1, 2, 3, 4) (replicate 64 7))) = Ok pms' /\
    md5_finish pms' = Ok (pms'', [0x90; 0x01; 0x50; 0x98; 0x3c; 0xd2; 0x4f; 0xb0;
                                  0xd6; 0x96; 0x3f; 0x7d; 0x28; 0xe1; 0x7f; 0x72]).
Proof.
  destruct (md5_digest_rfc (Md5State 5 6 (1, 2, 3, 4) (replicate 64 7)) [[97]; [98; 99]])
    as (pms' & pms'' & E & E'); [reflexivity|repeat constructor|].
  exists pms', pms''. split; [exact E|]. rewrite E'. vm_compute. reflexivity.
Defined.
