(* ===== verification/ConsistentHash.v ===== *)
(** * The consistent-hashing ring (CDNSimulator/src/consistentHash.cpp, consistentHash.hpp)

    A ring is an array of virtual nodes, a point of 32 bits and the server it belongs to,
    sorted by point.  Vnodes that ch_ring_create does not fill are memory malloc returned:
    reading one is an error.  Floating point is that of the Standard Library's SpecFloat,
    53 bits for double and 24 for float. *)

From Stdlib Require Import Floats.SpecFloat.
From S2P Require Import Prelude Md5.

Definition N_VNODE_PER_SERVER : Z := 160.

Record vnode_t := Vnode { point : Z; server_id : Z }.

Record ring_t := Ring {
  n_point : Z;                     (* unsigned int *)
  n_server : Z;                    (* unsigned int *)
  vnodes : list (option vnode_t)   (* None: not initialised *)
}.

(** ** Floating point *)

Definition double_of_Z (z : Z) : spec_float := binary_normalize 53 1024 z 0 false.
Definition dadd : spec_float -> spec_float -> spec_float := SFadd 53 1024.
Definition dmul : spec_float -> spec_float -> spec_float := SFmul 53 1024.
Definition ddiv : spec_float -> spec_float -> spec_float := SFdiv 53 1024.

(** (float) of a double. *)
Definition float_of_double (x : spec_float) : spec_float :=
  match x with
  | S754_finite s m e => binary_normalize 24 128 (cond_Zopp s (Zpos m)) e s
  | _ => x
  end.

(** The integer below a finite float: floorf, then the conversion to unsigned int, which
    is undefined for an infinity, a NaN or a value out of range. *)
Definition floor_uint (x : spec_float) : result Z :=
  let! z := (match x with
             | S754_zero _ => Ok 0
             | S754_finite s m e =>
                 let m := cond_Zopp s (Zpos m) in
                 Ok (if 0 <=? e then m * 2 ^ e else m / 2 ^ (- e))
             | _ => Err BadConversion
             end) in
  if (0 <=? z) && (z <? 2 ^ 32) then Ok z else Err BadConversion.

Section ring.
  (** the memory md5state occupies on the stack when md5_digest is called *)
  Variable stack_md5state : md5_state.
  (** the library's qsort, applied with ch_ring_compare *)
  Variable qsort : (vnode_t -> vnode_t -> Z) -> list vnode_t -> list vnode_t.
  Variable get_hash_value_int_64 : Z -> Z.

Definition ch_ring_compare (a b : vnode_t) : Z :=
  if point a <? point b then -1 else if point a >? point b then 1 else 0.

(** md5_digest; the string is given without its final NUL *)
Definition md5_digest (inString : list Z) : result (list Z) :=
  let md5state := md5_init stack_md5state in
  let! md5state := md5_append md5state inString (i32 (Z.of_nat (length inString))) in
  let! '(_, md5pword) := md5_finish md5state in
  Ok md5pword.

(** [(digest[3 + h*4] << 24) | ... | digest[h*4]], as an unsigned int *)
Definition digest_word (digest : list Z) (h : nat) : Z :=
  let d i := nth (i + h * 4)%nat digest 0 in
  u32 (Z.lor (Z.lor (Z.lor (Z.shiftl (d 3%nat) 24) (Z.shiftl (d 2%nat) 16))
                    (Z.shiftl (d 1%nat) 8)) (d 0%nat)).

Definition ketama_hash (inString : list Z) : result Z :=
  let! digest := md5_digest inString in Ok (digest_word digest 0).

(** The number of digests of server [i]: [ks] in ch_ring_create. *)
Definition server_ks (n_server i : Z) (weight : option (list Z)) (total_weight : spec_float)
    : result Z :=
  match weight with
  | None => Ok (N_VNODE_PER_SERVER / 4)
  | Some weight =>
      match weight !! Z.to_nat i with
      | None => Err OutOfBounds
      | Some w =>
          let x := ddiv (double_of_Z w) total_weight in
          let x := dmul (dmul x (double_of_Z n_server)) (double_of_Z (N_VNODE_PER_SERVER / 4)) in
          floor_uint (float_of_double x)
      end
  end.

(** sprintf (ss, "%u-%u", i, k) *)
Definition vnode_name (i k : Z) : list Z := decimal i ++ [45] ++ decimal k.

(** The four points of one digest, appended to the vnodes written so far; [size] is the
    length of the array. *)
Definition add_vnodes (size i : Z) (ws : list vnode_t) (k : Z) : result (list vnode_t) :=
  let! digest := md5_digest (vnode_name i k) in
  rfold (fun ws h =>
           if Z.of_nat (length ws) <? size then
             Ok (ws ++ [Vnode (digest_word digest h) i])
           else Err OutOfBounds) (seq 0 4) ws.

Definition add_server (n_server size : Z) (weight : option (list Z)) (total_weight : spec_float)
    (ws : list vnode_t) (i : Z) : result (list vnode_t) :=
  let! ks := server_ks n_server i weight total_weight in
  rfold (add_vnodes size i) (seqZ 0 ks) ws.

(** [total_weight += weight[i]], which is done before [weight] is compared with nullptr *)
Definition add_weight (weight : option (list Z)) (total : spec_float) (i : Z) : result spec_float :=
  match weight with
  | None => Err NullDeref
  | Some weight =>
      match weight !! Z.to_nat i with
      | None => Err OutOfBounds
      | Some w => Ok (dadd total (double_of_Z w))
      end
  end.

Definition ch_ring_create (n_server : Z) (weight : option (list Z)) : result ring_t :=
  let size := n_server * N_VNODE_PER_SERVER in
  let! total_weight := rfold (add_weight weight) (seqZ 0 n_server) (S754_zero false) in
  let! ws := rfold (add_server n_server size weight total_weight) (seqZ 0 n_server) [] in
  Ok (Ring (u32 (i32 size)) n_server
        ((Some <$> qsort ch_ring_compare ws) ++
         replicate (Z.to_nat size - length ws) None)).

(** ** Looking up a key *)

Definition get_vnode (ring : ring_t) (i : Z) : result vnode_t :=
  if i <? 0 then Err OutOfBounds
  else match vnodes ring !! Z.to_nat i with
       | Some (Some v) => Ok v
       | Some None => Err BadAccess
       | None => Err OutOfBounds
       end.

(** The loop of ch_ring_get_vnode_idx: lowp and highp are ints, and so is their sum; midp is an
    uint64_t, which a sum that wraps around makes huge. *)
Fixpoint search_loop (fuel : nat) (ring : ring_t) (h lowp highp : Z) : result Z :=
  match fuel with
  | O => Err OutOfFuel
  | S fuel =>
      let midp := u64 (Z.quot (i32 (lowp + highp)) 2) in
      if midp =? n_point ring then Ok 0
      else
        let! mid := get_vnode ring midp in
        let midval := point mid in
        let! midval_prev :=
          (if midp =? 0 then Ok 0 else let! v := get_vnode ring (midp - 1) in Ok (point v)) in
        if (h <=? midval) && (h >? midval_prev) then Ok (i32 midp)
        else
          let '(lowp, highp) := if h >? midval then (i32 (midp + 1), highp) else (lowp, i32 (midp - 1)) in
          if lowp >? highp then Ok 0
          else search_loop fuel ring h lowp highp
  end.

(** a round for every length the interval can have *)
Definition ch_ring_get_vnode_idx (key : Z) (ring : ring_t) : result Z :=
  let h := Z.land (get_hash_value_int_64 key) 0xffffffff in
  search_loop (Z.to_nat (n_point ring) + 2) ring h 0 (i32 (n_point ring)).

(** the vnode the returned pointer points to *)
Definition ch_ring_get_server (key : Z) (ring : ring_t) : result vnode_t :=
  let! idx := ch_ring_get_vnode_idx key ring in get_vnode ring idx.

(** The loop of ch_ring_get_servers.  [picked] holds ret_idxs[0 .. i-1], [checked] the
    servers with a 1 in checked_server, [capacity] is the caller's array or NULL. *)
Fixpoint pick_loop (fuel : nat) (ring : ring_t) (start : Z) (n : Z) (vnode_pos : Z)
    (picked : list Z) (checked : list bool) (capacity : option (list Z))
    : result (list Z * option (list Z)) :=
  if negb (Z.of_nat (length picked) <? n) then Ok (picked, capacity)
  else
    match fuel with
    | O => Err OutOfFuel
    | S fuel =>
        if n_point ring =? 0 then Err DivByZero
        else
          let! v := get_vnode ring (u32 (start + vnode_pos) mod n_point ring) in
          let id := server_id v in
          match (checked !! Z.to_nat id : option bool) with
          | None => Err OutOfBounds
          | Some seen =>
              let! '(picked, capacity) :=
                (if seen then Ok (picked, capacity)
                 else match capacity with
                      | None => Ok (picked ++ [id], None)
                      | Some cap =>
                          match cap !! Z.to_nat id with
                          | None => Err OutOfBounds
                          | Some c =>
                              if c >? 0 then Ok (picked ++ [id], Some (<[Z.to_nat id := c - 1]> cap))
                              else Ok (picked, capacity)
                          end
                      end) in
              let checked := <[Z.to_nat id := true]> checked in
              let vnode_pos := u32 (vnode_pos + 1) in
              if vnode_pos >? n_point ring then
                (* the error message prints the capacities, then abort *)
                match capacity with
                | None => if 0 <? n_server ring then Err NullDeref else Err Aborted
                | Some _ => Err Aborted
                end
              else pick_loop fuel ring start n vnode_pos picked checked capacity
          end
    end.

(** ret_idxs[0 .. n-1], *original_lead_server and the capacities afterwards *)
Definition ch_ring_get_servers (key : Z) (ring : ring_t) (n : Z) (capacity : option (list Z))
    : result (list Z * Z * option (list Z)) :=
  let! start_vnode_idx := ch_ring_get_vnode_idx key ring in
  if n_point ring =? 0 then Err DivByZero
  else
    let! lead := get_vnode ring (u32 start_vnode_idx mod n_point ring) in
    let! '(ret_idxs, capacity) :=
      pick_loop (Z.to_nat (n_point ring) + 2) ring start_vnode_idx n 0 []
        (replicate (Z.to_nat (n_server ring)) false) capacity in
    Ok (ret_idxs, server_id lead, capacity).

End ring.
