(* ===== verification/ConsistentHashSpec.v ===== *)
(** * The consistent-hashing ring: what it is and what a lookup returns

    The binary search finds the first point that is not below the hash of the key, wrapping
    to the first vnode; ch_ring_get_servers returns the first distinct available servers
    from there on; ch_ring_create with the default weights fills the ring. *)

From Stdlib Require Import Floats.SpecFloat.

From stdpp Require Import sorting.
From S2P Require Import Prelude Md5 Md5Spec ConsistentHash.

Definition point_le (a b : vnode_t) : Prop := point a <= point b.

Record ring_ok (ring : ring_t) (vs : list vnode_t) : Prop := {
  ro_vnodes : vnodes ring = Some <$> vs;
  ro_n_point : n_point ring = Z.of_nat (length vs);
  ro_bound : 0 < n_point ring < 2 ^ 31;
  ro_sorted : StronglySorted point_le vs;
  ro_points : Forall (fun v => 0 <= point v < 2 ^ 32) vs;
  ro_servers : Forall (fun v => 0 <= server_id v < n_server ring) vs
}.

(** ** The search *)

(** The position of the first vnode at or after [h]; 0 when there is none. *)
Definition successor (h : Z) (vs : list vnode_t) : nat :=
  match list_find (fun v => h <= point v) vs with Some (i, _) => i | None => 0%nat end.

(** the middle of two ints whose sum is beyond INT_MAX, as an uint64_t *)
Lemma overflowed_mid lowp highp :
  0 <= lowp < 2 ^ 31 -> 0 <= highp < 2 ^ 31 -> 2 ^ 31 <= lowp + highp ->
  let midp := u64 (Z.quot (i32 (lowp + highp)) 2) in 2 ^ 63 <= midp /\ midp <> 0.
Proof.
  intros Hl Hh Hs. cbv zeta.
  replace (i32 (lowp + highp)) with (lowp + highp - 2 ^ 32).
  2:{ unfold i32, swrap. change (32 - 1) with 31.
      rewrite <- (Z.mod_unique (lowp + highp + 2 ^ 31) (2 ^ 32) 1 (lowp + highp + 2 ^ 31 - 2 ^ 32)); lia. }
  assert (- 2 ^ 31 <= Z.quot (lowp + highp - 2 ^ 32) 2 <= -1) as Hq
    by (Z.to_euclidean_division_equations; lia).
  set (q := Z.quot _ _) in *. clearbody q. unfold u64, wrap.
  rewrite <- (Z.mod_unique q (2 ^ 64) (-1) (q + 2 ^ 64)); lia.
Qed.

Section search.
  Context {ring : ring_t} {vs : list vnode_t} (R : ring_ok ring vs).

Lemma get_vnode_ok (i : nat) v : vs !! i = Some v -> get_vnode ring (Z.of_nat i) = Ok v.
Proof using R.
  intros Hv. unfold get_vnode. destruct (Z.ltb_spec (Z.of_nat i) 0); [lia|].
  by rewrite Nat2Z.id, (ro_vnodes _ _ R), list_lookup_fmap, Hv.
Qed.

Lemma vnode_at (i : Z) :
  0 <= i < n_point ring ->
  exists v, vs !! Z.to_nat i = Some v /\ get_vnode ring i = Ok v /\ In v vs.
Proof using R.
  intros Hi. rewrite (ro_n_point _ _ R) in Hi.
  destruct (lookup_lt_is_Some_2 vs (Z.to_nat i)) as [v Hv]; [lia|].
  exists v. split; [done|]. split; [|by apply list_elem_of_In, (list_elem_of_lookup_2 _ _ _ Hv)].
  rewrite <- (get_vnode_ok _ _ Hv). f_equal. lia.
Qed.

Lemma points_mono (i j : nat) v w :
  (i <= j)%nat -> vs !! i = Some v -> vs !! j = Some w -> point v <= point w.
Proof using R.
  intros Hij Hv Hw. pose proof (ro_sorted _ _ R) as Hs. clear R. revert i j v w Hij Hv Hw.
  induction Hs as [|x l Hs IH Hx]; intros [|i] [|j] v w Hij Hv Hw; try done.
  - simplify_eq/=. lia.
  - simplify_eq/=. rewrite Forall_forall in Hx. apply Hx.
    by apply (list_elem_of_lookup_2 _ _ _ Hw).
  - lia.
  - apply (IH i j); [lia|done|done].
Qed.

Lemma get_vnode_beyond i : n_point ring <= i -> get_vnode ring i = Err OutOfBounds.
Proof using R.
  intros Hi. pose proof (ro_n_point _ _ R). pose proof (ro_bound _ _ R). unfold get_vnode.
  destruct (Z.ltb_spec i 0); [done|].
  by rewrite (ro_vnodes _ _ R), list_lookup_fmap, lookup_ge_None_2 by lia.
Qed.

(** [a] splits the ring: smaller points before it, the others after. *)
Definition splits (h : Z) (a : nat) : Prop :=
  forall i v, vs !! i = Some v -> (h <= point v <-> (a <= i)%nat).

Lemma successor_splits h :
  exists a, splits h a /\ (a <= length vs)%nat /\
    successor h vs = (if decide (a = length vs) then 0%nat else a).
Proof using R.
  unfold successor. destruct (list_find _ vs) as [[a v]|] eqn:E.
  - apply list_find_Some in E as (Ha & Hh & Hlt). exists a.
    pose proof (lookup_lt_Some _ _ _ Ha). split_and!; [|lia|by rewrite decide_False by lia].
    intros i w Hw. split.
    + intros Hle. destruct (decide (a <= i)%nat); [done|]. exfalso. eapply (Hlt i w); [done|lia|done].
    + intros Hai. etransitivity; [exact Hh|]. by eapply points_mono.
  - apply list_find_None in E. exists (length vs). rewrite decide_True by done.
    split_and!; [|lia|done]. intros i w Hw. pose proof (lookup_lt_Some _ _ _ Hw).
    rewrite Forall_forall in E. split; [|lia].
    intros Hle. exfalso. by eapply (E w), Hle; apply (list_elem_of_lookup_2 _ _ _ Hw).
Qed.

(** The search ends with the first vnode at or after [h], unless the sum of lowp and highp
    overflows, which takes a ring of 2^30 vnodes: it then reads outside the array. *)
Lemma search_loop_cases h a fuel : forall lowp highp,
  0 <= h -> splits h a -> 0 <= lowp -> lowp <= Z.of_nat a <= highp ->
  highp <= n_point ring -> (Z.to_nat (highp - lowp) < fuel)%nat ->
  search_loop fuel ring h lowp highp = Ok (if decide (a = length vs) then 0 else Z.of_nat a) \/
  2 ^ 30 <= n_point ring /\ search_loop fuel ring h lowp highp = Err OutOfBounds.
Proof using R.
  induction fuel as [|fuel IH]; intros lowp highp Hh Ha Hlo Hahi Hhi Hf; [lia|].
  pose proof (ro_n_point _ _ R) as Hn. pose proof (ro_bound _ _ R) as Hb. cbn [search_loop].
  destruct (decide (lowp + highp < 2 ^ 31)) as [Hsum|Hsum].
  2:{ right. split; [lia|]. destruct (overflowed_mid lowp highp) as [Hbig Hne]; [lia..|].
      set (midp := u64 _) in *. clearbody midp.
      destruct (Z.eqb_spec midp (n_point ring)); [lia|]. by rewrite get_vnode_beyond by lia. }
  replace (u64 (Z.quot (i32 (lowp + highp)) 2)) with ((lowp + highp) / 2)
    by (unfold i32; rewrite swrap_small, Z.quot_div_nonneg, u64_small by
          (Z.to_euclidean_division_equations; lia); done).
  set (midp := (lowp + highp) / 2).
  assert (lowp <= midp <= highp /\ (midp = n_point ring -> n_point ring <= lowp)) as [Hm Hend]
    by (subst midp; split; [|intros]; Z.to_euclidean_division_equations; lia).
  clearbody midp.
  destruct (Z.eqb_spec midp (n_point ring)) as [E|E].
  { left. rewrite decide_True by lia. done. }
  destruct (vnode_at midp) as (mid & Hmid & -> & _); [lia|]. cbn [rbind].
  pose proof (Ha _ _ Hmid) as Hsm.
  assert (exists prev, (if midp =? 0 then Ok 0 else let! v := get_vnode ring (midp - 1) in Ok (point v))
            = Ok prev /\ (midp = 0 -> prev = 0) /\ (0 < midp -> (h <= prev <-> Z.of_nat a <= midp - 1)))
    as (prev & -> & Hp0 & Hp1).
  { destruct (Z.eqb_spec midp 0); [by exists 0; split_and!; [done|done|lia]|].
    destruct (vnode_at (midp - 1)) as (v & Hv & -> & _); [lia|]. exists (point v).
    split_and!; [done|lia|]. intros _. rewrite (Ha _ _ Hv). lia. }
  cbn [rbind]. unfold i32. rewrite !swrap_small by lia.
  destruct (Z.leb_spec h (point mid)), (Z.gtb_spec h prev), (Z.gtb_spec h (point mid)); try lia; cbn [andb].
  - left. rewrite decide_False by lia. f_equal. lia.
  - destruct (Z.gtb_spec lowp (midp - 1)).
    + left. rewrite decide_False by lia. f_equal. lia.
    + apply IH; lia || done.
  - destruct (Z.gtb_spec (midp + 1) highp); [lia|]. apply IH; lia || done.
  - destruct (Z.gtb_spec (midp + 1) highp); [lia|]. apply IH; lia || done.
Qed.

Lemma get_vnode_idx_cases hash key :
  let idx := ch_ring_get_vnode_idx hash key ring in
  idx = Ok (Z.of_nat (successor (Z.land (hash key) 0xffffffff) vs)) \/
  2 ^ 30 <= n_point ring /\ idx = Err OutOfBounds.
Proof using R.
  cbv zeta. unfold ch_ring_get_vnode_idx. set (h := Z.land _ _).
  destruct (successor_splits h) as (a & Ha & Hle & ->).
  pose proof (ro_n_point _ _ R). pose proof (ro_bound _ _ R).
  unfold i32. rewrite swrap_small by lia.
  destruct (search_loop_cases h a (Z.to_nat (n_point ring) + 2) 0 (n_point ring)) as [->|?];
    [by apply Z.land_nonneg; right|done|lia..| |by right].
  left. by destruct (decide (a = length vs)).
Qed.

Lemma get_vnode_idx_spec hash key :
  n_point ring < 2 ^ 30 ->
  ch_ring_get_vnode_idx hash key ring =
  Ok (Z.of_nat (successor (Z.land (hash key) 0xffffffff) vs)).
Proof using R. intros Hs. destruct (get_vnode_idx_cases hash key) as [->|[? _]]; [done|lia]. Qed.

(** a lookup that succeeds has found its vnode *)
Lemma get_servers_idx hash key n capacity out :
  ch_ring_get_servers hash key ring n capacity = Ok out ->
  ch_ring_get_vnode_idx hash key ring = Ok (Z.of_nat (successor (Z.land (hash key) 0xffffffff) vs)).
Proof using R.
  unfold ch_ring_get_servers. by destruct (get_vnode_idx_cases hash key) as [->|[_ ->]].
Qed.

Lemma successor_lt h : (successor h vs < length vs)%nat.
Proof using R.
  destruct (successor_splits h) as (a & _ & Hle & ->).
  pose proof (ro_n_point _ _ R). pose proof (ro_bound _ _ R). case_decide; lia.
Qed.

End search.

(** ** The servers of a key *)

(** The servers of the vnodes in ring order from [start]. *)
Definition ring_ids (start : nat) (vs : list vnode_t) : list Z :=
  server_id <$> (drop start vs ++ take start vs).

(** The elements of a list that are not in [seen], each once, in the order of their
    first occurrence. *)
Fixpoint firsts (seen ids : list Z) : list Z :=
  match ids with
  | [] => []
  | x :: ids => if bool_decide (x ∈ seen) then firsts seen ids else x :: firsts (x :: seen) ids
  end.

Definition avail (capacity : option (list Z)) (s : Z) : bool :=
  match capacity with None => true | Some cap => 0 <? cap !!! Z.to_nat s end.

(** A unit of capacity of each of some servers is taken. *)
Definition use (capacity : option (list Z)) (ss : list Z) : option (list Z) :=
  fold_left (fun cap s => <[Z.to_nat s := cap !!! Z.to_nat s - 1]> cap) ss <$> capacity.

(** The available servers in ring order. *)
Definition candidates (capacity : option (list Z)) (start : nat) (vs : list vnode_t) : list Z :=
  filter (fun s => avail capacity s = true) (firsts [] (ring_ids start vs)).

Lemma firsts_elem ids : forall seen x, x ∈ firsts seen ids -> x ∈ ids /\ x ∉ seen.
Proof.
  induction ids as [|y ids IH]; intros seen x; cbn [firsts]; [by intros ?%not_elem_of_nil|].
  case_bool_decide as E.
  - intros [? ?]%IH. set_solver.
  - intros [->|[? ?]%IH]%elem_of_cons; set_solver.
Qed.

Lemma firsts_nodup ids : forall seen, NoDup (firsts seen ids).
Proof.
  induction ids as [|y ids IH]; intros seen; cbn [firsts]; [constructor|].
  case_bool_decide; [done|]. constructor; [|done]. intros [_ ?]%firsts_elem. set_solver.
Qed.

Lemma ring_ids_lookup start vs p :
  (start < length vs)%nat -> (p < length vs)%nat ->
  ring_ids start vs !! p = server_id <$> vs !! ((start + p) mod length vs)%nat.
Proof.
  intros Hs Hp. unfold ring_ids. rewrite list_lookup_fmap. f_equal.
  destruct (decide (start + p < length vs)%nat).
  - rewrite lookup_app_l by (rewrite length_drop; lia).
    by rewrite lookup_drop, Nat.mod_small by lia.
  - rewrite lookup_app_r by (rewrite length_drop; lia). rewrite length_drop.
    rewrite <- (Nat.mod_unique (start + p) (length vs) 1 (start + p - length vs)) by lia.
    rewrite lookup_take_lt by lia. f_equal. lia.
Qed.

Lemma ring_ids_length start vs : length (ring_ids start vs) = length vs.
Proof.
  unfold ring_ids. rewrite length_fmap, length_app, length_drop, length_take. lia.
Qed.

Lemma filter_agree (f g : Z -> bool) (l : list Z) :
  (forall x, x ∈ l -> f x = g x) -> filter (fun x => f x = true) l = filter (fun x => g x = true) l.
Proof.
  induction l as [|x l IH]; intros Hfg; [done|].
  rewrite !filter_cons, IH by (intros; apply Hfg; set_solver).
  by rewrite (Hfg x) by set_solver.
Qed.

(** Taking capacity from a seen server does not change which others are available. *)
Lemma avail_use seen s capacity ids :
  s ∈ seen -> 0 <= s -> (forall x, x ∈ ids -> 0 <= x) ->
  filter (fun x => avail (use capacity [s]) x = true) (firsts seen ids) =
  filter (fun x => avail capacity x = true) (firsts seen ids).
Proof.
  intros Hs H0 Hids. apply (filter_agree (avail _) (avail _)). intros x Hx.
  apply firsts_elem in Hx as [Hx Hns]. pose proof (Hids x Hx).
  destruct capacity as [cap|]; [|done]. cbn. rewrite list_lookup_total_insert_ne; [done|].
  intros E. assert (x = s) by lia. by subst.
Qed.

Section marks.
  Variable ring : ring_t.

(** What the loop has marked: the servers seen so far. *)
Definition marks (checked : list bool) (seen : list Z) : Prop :=
  forall s, 0 <= s < n_server ring -> checked !! Z.to_nat s = Some (bool_decide (s ∈ seen)).

Definition cap_ok (capacity : option (list Z)) : Prop :=
  match capacity with None => True | Some cap => Z.of_nat (length cap) = n_server ring end.

(** The outcome of the search for [m] more servers among [cand]. *)
Definition picked_or_abort (picked : list Z) (m : nat) (cand : list Z)
    (capacity : option (list Z)) : result (list Z * option (list Z)) :=
  if decide (m <= length cand)%nat then Ok (picked ++ take m cand, use capacity (take m cand))
  else Err (match capacity with None => NullDeref | Some _ => Aborted end).

Lemma marks_seen checked seen s :
  0 <= s < n_server ring -> marks checked seen -> marks (<[Z.to_nat s := true]> checked) (s :: seen).
Proof using Type.
  intros Hs Hm x Hx. pose proof (Hm x Hx) as Hcx. destruct (decide (x = s)) as [->|Hne].
  - rewrite list_lookup_insert_eq by (by apply lookup_lt_Some in Hcx).
    rewrite bool_decide_true by set_solver. done.
  - rewrite list_lookup_insert_ne by lia. rewrite Hcx. f_equal.
    apply bool_decide_ext. set_solver.
Qed.

Lemma marks_again checked seen s :
  0 <= s < n_server ring -> s ∈ seen -> marks checked seen ->
  <[Z.to_nat s := true]> checked = checked.
Proof using Type.
  intros Hs Hin Hm. apply list_insert_id. rewrite (Hm s Hs). by rewrite bool_decide_true.
Qed.

End marks.

Lemma pick_one picked m id cand capacity :
  (0 < m)%nat ->
  picked_or_abort (picked ++ [id]) (m - 1) cand (use capacity [id]) =
  picked_or_abort picked m (id :: cand) capacity.
Proof.
  intros Hm. unfold picked_or_abort. destruct m as [|m]; [lia|].
  rewrite Nat.sub_succ, Nat.sub_0_r. cbn [length].
  destruct (decide (m <= length cand)%nat); [rewrite decide_True by lia|rewrite decide_False by lia].
  - cbn [take]. rewrite <- app_assoc. by destruct capacity.
  - by destruct capacity.
Qed.

(** A server met for the first time is picked if it is available. *)
Lemma take_or_skip ring capacity id picked :
  cap_ok ring capacity -> 0 <= id < n_server ring ->
  match capacity with
  | None => Ok (picked ++ [id], None)
  | Some cap =>
      match cap !! Z.to_nat id with
      | None => Err OutOfBounds
      | Some c =>
          if c >? 0 then Ok (picked ++ [id], Some (<[Z.to_nat id := c - 1]> cap))
          else Ok (picked, capacity)
      end
  end = Ok (if avail capacity id then (picked ++ [id], use capacity [id]) else (picked, capacity)).
Proof.
  intros Hc Hr. destruct capacity as [cap|]; [|done]. simpl in Hc.
  destruct (lookup_lt_is_Some_2 cap (Z.to_nat id)) as [c Hcl]; [lia|].
  rewrite Hcl. unfold avail, use. cbn [fold_left fmap option_fmap option_map].
  rewrite (list_lookup_total_correct _ _ _ Hcl).
  destruct (Z.gtb_spec c 0), (Z.ltb_spec 0 c); lia || done.
Qed.

Lemma cap_ok_use ring capacity id : cap_ok ring capacity -> cap_ok ring (use capacity [id]).
Proof. destruct capacity as [cap|]; [|done]. cbn. by rewrite length_insert. Qed.

Section pick.
  Context {ring : ring_t} {vs : list vnode_t} (R : ring_ok ring vs).
  Variable start : nat.
  Hypothesis Hstart : (start < length vs)%nat.

Lemma ring_ids_range : Forall (fun s => 0 <= s < n_server ring) (ring_ids start vs).
Proof using R.
  apply Forall_fmap, Forall_app. pose proof (ro_servers _ _ R) as Hs.
  split; [by apply Forall_drop|by apply Forall_take].
Qed.

(** The vnode read when [p] have been passed. *)
Lemma vnode_read (p : nat) :
  (p < length vs)%nat ->
  exists v, get_vnode ring (u32 (Z.of_nat start + Z.of_nat p) mod n_point ring) = Ok v /\
    ring_ids start vs !! p = Some (server_id v).
Proof using R Hstart.
  intros Hp. pose proof (ro_n_point _ _ R) as Hn. pose proof (ro_bound _ _ R) as Hb.
  rewrite u32_small, Hn, <- Nat2Z.inj_add, <- Nat2Z.inj_mod by lia.
  destruct (lookup_lt_is_Some_2 vs ((start + p) mod length vs)) as [v Hv];
    [apply Nat.mod_upper_bound; lia|].
  exists v. rewrite ring_ids_lookup, Hv by done. split; [|done]. by apply (get_vnode_ok R).
Qed.

(** After all the vnodes the first one is read again. *)
Lemma vnode_again :
  exists v, get_vnode ring (u32 (Z.of_nat start + n_point ring) mod n_point ring) = Ok v /\
    ring_ids start vs !! 0%nat = Some (server_id v).
Proof using R Hstart.
  pose proof (ro_bound _ _ R) as Hb. pose proof (ro_n_point _ _ R) as Hn.
  destruct (vnode_read 0) as (v & Hv & Hid); [lia|]. exists v. split; [|done].
  rewrite <- Hv. f_equal. rewrite !u32_small by lia.
  rewrite Z.add_0_r. rewrite <- (Z.mul_1_l (n_point ring)) at 1. by rewrite Z_mod_plus_full.
Qed.

Lemma pick_loop_spec n fuel : forall (p : nat) picked checked seen capacity,
  (p <= length vs)%nat -> (length vs - p + 1 < fuel)%nat ->
  marks ring checked seen -> cap_ok ring capacity ->
  (forall s, s ∈ take p (ring_ids start vs) -> s ∈ seen) -> Z.of_nat (length picked) <= n ->
  pick_loop fuel ring (Z.of_nat start) n (Z.of_nat p) picked checked capacity =
  picked_or_abort picked (Z.to_nat n - length picked)
    (filter (fun s => avail capacity s = true) (firsts seen (drop p (ring_ids start vs)))) capacity.
Proof using R Hstart.
  pose proof (ro_bound _ _ R) as Hb. pose proof (ro_n_point _ _ R) as Hnp.
  pose proof ring_ids_range as Hrange. rewrite Forall_forall in Hrange.
  induction fuel as [|fuel IH]; intros p picked checked seen capacity Hp Hf Hm Hc Hseen Hn;
    [lia|]. cbn [pick_loop].
  destruct (Z.ltb_spec (Z.of_nat (length picked)) n) as [Hlt|Hge]; cbn [negb].
  2:{ unfold picked_or_abort. rewrite decide_True by lia.
      replace (Z.to_nat n - length picked)%nat with 0%nat by lia.
      rewrite take_0, app_nil_r. by destruct capacity. }
  destruct (Z.eqb_spec (n_point ring) 0); [lia|].
  destruct (decide (p < length vs)%nat) as [Hlt'|Hge'].
  - destruct (vnode_read p Hlt') as (v & -> & Hid). cbn [rbind].
    set (id := server_id v) in *.
    pose proof (Hrange id (list_elem_of_lookup_2 _ _ _ Hid)) as Hr. rewrite (Hm id Hr).
    rewrite (drop_S _ _ _ Hid). cbn [firsts].
    rewrite u32_small by lia. replace (Z.of_nat p + 1) with (Z.of_nat (S p)) by lia.
    destruct (Z.gtb_spec (Z.of_nat (S p)) (n_point ring)); [lia|].
    assert (Hseen' : forall s, s ∈ take (S p) (ring_ids start vs) -> s ∈ id :: seen).
    { intros s. rewrite (take_S_r _ _ _ Hid). set_solver. }
    case_bool_decide as Hin; cbn [rbind].
    + rewrite (marks_again ring checked seen) by done. apply IH; try done; [lia|lia..|].
      intros s Hs%Hseen'. set_solver.
    + rewrite (take_or_skip ring) by done. cbn [rbind].
      pose proof (marks_seen ring checked seen id Hr Hm) as Hm'.
      assert (forall x, x ∈ drop (S p) (ring_ids start vs) -> 0 <= x) as Hnn.
      { intros x Hx. apply Hrange. rewrite <- (take_drop (S p) (ring_ids start vs)). set_solver. }
      rewrite filter_cons. destruct (avail capacity id) eqn:Ea.
      * rewrite decide_True, <- pick_one by lia.
        rewrite (IH _ _ _ (id :: seen)); try done; try lia; [|by apply cap_ok_use|rewrite length_app; simpl; lia].
        rewrite length_app. cbn [length]. rewrite avail_use by (set_solver || lia || done).
        f_equal. lia.
      * rewrite decide_False by congruence. apply IH; lia || done.
  - destruct vnode_again as (v & Hv & Hid).
    replace (Z.of_nat p) with (n_point ring) by lia. rewrite Hv. cbn [rbind].
    set (id := server_id v) in *.
    assert (id ∈ seen) as Hin.
    { apply Hseen. apply list_elem_of_lookup_2 with 0%nat. rewrite lookup_take_lt by lia. done. }
    pose proof (Hrange id (list_elem_of_lookup_2 _ _ _ Hid)) as Hr. rewrite (Hm id Hr).
    rewrite bool_decide_true by done. cbn [rbind].
    rewrite u32_small by lia. destruct (Z.gtb_spec (n_point ring + 1) (n_point ring)); [|lia].
    rewrite drop_ge by (rewrite ring_ids_length; lia). cbn [firsts].
    unfold picked_or_abort. rewrite decide_False by (simpl; lia).
    destruct capacity; [done|]. destruct (Z.ltb_spec 0 (n_server ring)); [done|lia].
Qed.
End pick.

Lemma marks_init ring : marks ring (replicate (Z.to_nat (n_server ring)) false) [].
Proof.
  intros s Hs. rewrite lookup_replicate_2 by lia.
  by rewrite bool_decide_false by apply not_elem_of_nil.
Qed.

(** The servers of a key, without the run of the loop: the common form of the properties. *)
Lemma get_servers_candidates hash ring vs key n capacity :
  ring_ok ring vs -> 0 <= n -> cap_ok ring capacity ->
  let start := successor (Z.land (hash key) 0xffffffff) vs in
  ch_ring_get_vnode_idx hash key ring = Ok (Z.of_nat start) ->
  exists v, vs !! start = Some v /\
  ch_ring_get_servers hash key ring n capacity =
    let cand := candidates capacity start vs in
    if decide (n <= Z.of_nat (length cand))
    then Ok (take (Z.to_nat n) cand, server_id v, use capacity (take (Z.to_nat n) cand))
    else Err (match capacity with None => NullDeref | Some _ => Aborted end).
Proof.
  intros R Hn Hc start Hidx. pose proof (ro_bound _ _ R) as Hb. pose proof (ro_n_point _ _ R) as Hnp.
  assert (start < length vs)%nat as Hs by apply (successor_lt R).
  destruct (lookup_lt_is_Some_2 vs start Hs) as [v Hv]. exists v. split; [done|].
  unfold ch_ring_get_servers. rewrite Hidx. cbn [rbind].
  destruct (Z.eqb_spec (n_point ring) 0); [lia|].
  rewrite u32_small, Z.mod_small, (get_vnode_ok R _ _ Hv) by lia. cbn [rbind].
  rewrite (pick_loop_spec R start Hs n _ 0%nat [] _ [] capacity);
    [|lia|lia|apply marks_init|done|by intros s ?%not_elem_of_nil|simpl; lia].
  rewrite Nat.sub_0_r, drop_0. unfold picked_or_abort. fold (candidates capacity start vs).
  cbv zeta. destruct (decide (n <= _)); [rewrite decide_True by lia|rewrite decide_False by lia]; done.
Qed.

Lemma candidates_nodup capacity start vs : NoDup (candidates capacity start vs).
Proof. apply NoDup_filter, firsts_nodup. Qed.

(** Making one more server unavailable removes it from the candidates of every key and
    leaves the others in their order. *)
Lemma candidates_fail cap s start vs ring :
  ring_ok ring vs -> cap_ok ring (Some cap) -> 0 <= s < n_server ring ->
  candidates (Some (<[Z.to_nat s := 0]> cap)) start vs =
  filter (fun x => x <> s) (candidates (Some cap) start vs).
Proof.
  intros R Hc Hs. simpl in Hc. unfold candidates. rewrite list_filter_filter.
  set (l := firsts [] (ring_ids start vs)).
  assert (forall x, x ∈ l -> 0 <= x) as Hl.
  { intros x Hx. apply firsts_elem in Hx as [Hx _].
    pose proof (ring_ids_range R start) as Hr. rewrite Forall_forall in Hr. by apply Hr. }
  clearbody l. induction l as [|x l IH]; [done|].
  rewrite !filter_cons, IH by (intros; apply Hl; set_solver).
  assert (0 <= x) by (apply Hl; set_solver). unfold avail.
  destruct (decide (x = s)) as [->|Hne].
  - rewrite list_lookup_total_insert_eq by lia.
    rewrite decide_False by done. by rewrite decide_False by naive_solver.
  - rewrite list_lookup_total_insert_ne by lia.
    destruct (0 <? cap !!! Z.to_nat x) eqn:E.
    + rewrite decide_True by done. by rewrite decide_True by done.
    + rewrite decide_False by done. by rewrite decide_False by naive_solver.
Qed.

(** ** Building the ring *)

Lemma dec_loop_length fuel : forall v acc,
  (length (dec_loop fuel v acc) <= fuel + length acc)%nat.
Proof.
  induction fuel as [|fuel IH]; intros v acc; cbn [dec_loop]; [lia|].
  destruct (v <? 10); [simpl; lia|]. etransitivity; [apply IH|simpl; lia].
Qed.

(** The points of digest [k] of server [i], and all the points of [n] servers that have
    40 digests each. *)
Definition digest_points (i k : Z) : list vnode_t :=
  (fun h => Vnode (digest_word (rfc_md5 (vnode_name i k)) h) i) <$> seq 0 4.
Definition server_points (i : Z) : list vnode_t := mbind (digest_points i) (seqZ 0 40).
Definition ring_points (n : Z) : list vnode_t := mbind server_points (seqZ 0 n).

Lemma digest_points_length i k : length (digest_points i k) = 4%nat.
Proof. unfold digest_points. by rewrite length_fmap. Qed.

Lemma server_points_length i : length (server_points i) = 160%nat.
Proof.
  unfold server_points. change 160%nat with (length (seqZ 0 40) * 4)%nat.
  induction (seqZ 0 40) as [|k ks IH]; [done|].
  cbn [mbind list_bind length]. rewrite length_app, digest_points_length, IH. lia.
Qed.

Section create.
  Variable stack_md5state : md5_state.
  Hypothesis stack_buf : length (buf stack_md5state) = 64%nat.

Lemma md5_digest_rfc_md5 s :
  Z.of_nat (length s) < 2 ^ 28 -> md5_digest stack_md5state s = Ok (rfc_md5 s).
Proof using stack_buf.
  intros Hl. unfold md5_digest. unfold i32. rewrite swrap_small by lia.
  destruct (md5_append_rep [] _ s (Z.of_nat (length s)) (md5_init_rep _ stack_buf))
    as (pms & -> & Hrep); [lia|lia|]. cbn [rbind].
  rewrite Nat2Z.id, take_ge in Hrep by lia.
  by destruct (md5_finish_rep _ _ Hrep) as (pms' & ->).
Qed.

Lemma add_vnodes_ok size i ws k :
  Z.of_nat (length ws) + 4 <= size ->
  add_vnodes stack_md5state size i ws k = Ok (ws ++ digest_points i k).
Proof using stack_buf.
  intros Hsz. unfold add_vnodes. rewrite md5_digest_rfc_md5.
  - cbn [rbind]. unfold digest_points. cbn [seq rfold fmap list_fmap].
    repeat (rewrite (proj2 (Z.ltb_lt _ _)) by (rewrite ?length_app; simpl; lia);
            cbn [rbind]; rewrite <- ?app_assoc).
    done.
  - unfold vnode_name, decimal. rewrite !length_app.
    pose proof (dec_loop_length 20 i []). pose proof (dec_loop_length 20 k []).
    cbn [length] in *. lia.
Qed.

Lemma add_digests_ok size i ks : forall ws,
  Z.of_nat (length ws) + 4 * Z.of_nat (length ks) <= size ->
  rfold (add_vnodes stack_md5state size i) ks ws = Ok (ws ++ mbind (digest_points i) ks).
Proof using stack_buf.
  induction ks as [|k ks IH]; intros ws Hsz; cbn [rfold].
  - by rewrite app_nil_r.
  - simpl length in Hsz. rewrite add_vnodes_ok by lia. cbn [rbind].
    rewrite IH by (rewrite length_app, digest_points_length; lia).
    by rewrite <- app_assoc.
Qed.

Lemma add_servers_ok n size weight total servers : forall ws,
  (forall i, i ∈ servers -> server_ks n i weight total = Ok 40) ->
  Z.of_nat (length ws) + 160 * Z.of_nat (length servers) <= size ->
  rfold (add_server stack_md5state n size weight total) servers ws = Ok (ws ++ mbind server_points servers).
Proof using stack_buf.
  induction servers as [|i servers IH]; intros ws Hks Hsz; cbn [rfold].
  - by rewrite app_nil_r.
  - simpl length in Hsz. unfold add_server at 1. rewrite Hks by set_solver. cbn [rbind].
    rewrite add_digests_ok by (rewrite length_seqZ; lia). cbn [rbind].
    fold (server_points i).
    rewrite IH; [by rewrite <- app_assoc|set_solver|].
    rewrite length_app, server_points_length. lia.
Qed.

End create.

(** *** The default weights *)

Definition default_weights (n : Z) : option (list Z) := Some (replicate (Z.to_nat n) 1).

Definition default_ok (n : Z) : bool :=
  match rfold (add_weight (default_weights n)) (seqZ 0 n) (S754_zero false) with
  | Ok total =>
      forallb (fun i => match server_ks n i (default_weights n) total with
                        | Ok ks => ks =? 40
                        | Err _ => false
                        end) (seqZ 0 n)
  | Err _ => false
  end.

(** The quotient in floating point is rounded to exactly 40 for up to 128 servers. *)
Lemma default_ok_128 : forallb default_ok (seqZ 1 128) = true.
Proof. vm_compute. reflexivity. Qed.

Lemma default_weights_ks n :
  1 <= n <= 128 ->
  exists total, rfold (add_weight (default_weights n)) (seqZ 0 n) (S754_zero false) = Ok total /\
    forall i, i ∈ seqZ 0 n -> server_ks n i (default_weights n) total = Ok 40.
Proof.
  intros Hn. pose proof default_ok_128 as Hall. rewrite forallb_forall in Hall.
  specialize (Hall n). rewrite <- list_elem_of_In, elem_of_seqZ in Hall.
  specialize (Hall ltac:(lia)). unfold default_ok in Hall.
  destruct (rfold _ _ _) as [total|]; [|done]. exists total. split; [done|].
  rewrite forallb_forall in Hall. intros i Hi. specialize (Hall i).
  rewrite <- list_elem_of_In in Hall. specialize (Hall Hi).
  destruct (server_ks _ _ _ _) as [ks|]; [|done]. by apply Z.eqb_eq in Hall as ->.
Qed.

(** *** qsort *)

Definition cmp_le (cmp : vnode_t -> vnode_t -> Z) (a b : vnode_t) : Prop := cmp a b <= 0.

#[export] Instance cmp_le_dec cmp : RelDecision (cmp_le cmp).
Proof. intros a b. unfold cmp_le. apply _. Defined.

(** What the C standard says of qsort, for a comparison that is a total preorder. *)
Definition qsort_law (qsort : (vnode_t -> vnode_t -> Z) -> list vnode_t -> list vnode_t) : Prop :=
  forall cmp l,
    (forall a b, cmp a b <= 0 \/ cmp b a <= 0) ->
    (forall a b c, cmp a b <= 0 -> cmp b c <= 0 -> cmp a c <= 0) ->
    qsort cmp l ≡ₚ l /\ StronglySorted (cmp_le cmp) (qsort cmp l).

(** An instance: merge sort. *)
Definition msort (cmp : vnode_t -> vnode_t -> Z) : list vnode_t -> list vnode_t :=
  merge_sort (cmp_le cmp).

Lemma msort_law : qsort_law msort.
Proof.
  intros cmp l Htot Htr. split; [apply merge_sort_Permutation|].
  apply StronglySorted_merge_sort; [exact Htr|exact Htot].
Qed.

Lemma compare_le a b : ch_ring_compare a b <= 0 <-> point_le a b.
Proof.
  unfold ch_ring_compare, point_le.
  destruct (Z.ltb_spec (point a) (point b)), (Z.gtb_spec (point a) (point b)); lia.
Qed.

Lemma qsort_points qsort l :
  qsort_law qsort ->
  qsort ch_ring_compare l ≡ₚ l /\ StronglySorted point_le (qsort ch_ring_compare l).
Proof.
  intros Hq. destruct (Hq ch_ring_compare l) as [Hp Hs].
  - intros a b. rewrite !compare_le. unfold point_le. lia.
  - intros a b c. rewrite !compare_le. unfold point_le. lia.
  - split; [done|]. revert Hs. generalize (qsort ch_ring_compare l) as r. intros r Hs.
    induction Hs as [|x r Hs IH Hx]; constructor; [done|].
    eapply Forall_impl; [exact Hx|]. intros y. apply compare_le.
Qed.

(** *** The points *)

Lemma ring_points_spec n v :
  v ∈ ring_points n ->
  0 <= server_id v < n /\ 0 <= point v < 2 ^ 32.
Proof.
  unfold ring_points, server_points, digest_points. rewrite list_elem_of_bind.
  intros (i & Hv & Hi). apply list_elem_of_bind in Hv as (k & Hv & Hk).
  apply list_elem_of_fmap in Hv as (h & -> & _). apply elem_of_seqZ in Hi.
  split; [simpl; lia|apply u32_range].
Qed.

Lemma filter_server_points i j :
  length (filter (fun v => server_id v = i) (server_points j)) = (if decide (i = j) then 160 else 0)%nat.
Proof.
  rewrite <- (server_points_length j). unfold server_points. generalize (seqZ 0 40) as ks.
  induction ks as [|k ks IH]; [by case_decide|].
  cbn [mbind list_bind]. rewrite filter_app, !length_app, IH.
  unfold digest_points at 1 3. cbn [seq fmap list_fmap]. rewrite !filter_cons. cbn [server_id].
  case_decide as E; [rewrite !decide_True by done|rewrite !decide_False by naive_solver]; done.
Qed.

Lemma filter_ring_points n i :
  0 <= i < n -> length (filter (fun v => server_id v = i) (ring_points n)) = 160%nat.
Proof.
  intros Hi. unfold ring_points.
  assert (forall l, NoDup l -> length (filter (fun v => server_id v = i) (mbind server_points l)) =
                    if decide (i ∈ l) then 160%nat else 0%nat) as Hgen.
  { induction 1 as [|j l Hj Hl IH]; [done|].
    cbn [mbind list_bind]. rewrite filter_app, length_app, IH, filter_server_points.
    repeat case_decide; set_solver. }
  rewrite Hgen by apply NoDup_seqZ. by rewrite decide_True by (apply elem_of_seqZ; lia).
Qed.

Lemma ring_points_length n : 0 <= n -> Z.of_nat (length (ring_points n)) = 160 * n.
Proof.
  intros Hn. unfold ring_points.
  assert (forall l, length (mbind server_points l) = length l * 160)%nat as Hgen.
  { induction l as [|j l IH]; [done|]. cbn [mbind list_bind].
    rewrite length_app, server_points_length, IH. cbn [length]. lia. }
  rewrite Hgen, length_seqZ. lia.
Qed.

(** The ring with the default weights. *)
Lemma ch_ring_create_ok stack qsort n :
  length (buf stack) = 64%nat -> qsort_law qsort -> 1 <= n <= 128 ->
  exists ring vs,
    ch_ring_create stack qsort n (default_weights n) = Ok ring /\
    ring_ok ring vs /\ n_server ring = n /\ vs ≡ₚ ring_points n /\
    forall i, 0 <= i < n -> length (filter (fun v => server_id v = i) vs) = 160%nat.
Proof.
  intros Hst Hq Hn. destruct (default_weights_ks n Hn) as (total & Et & Hks).
  destruct (qsort_points qsort (ring_points n) Hq) as [Hp Hs].
  pose proof (ring_points_length n ltac:(lia)) as Hl.
  unfold ch_ring_create. rewrite Et. cbn [rbind].
  rewrite (add_servers_ok stack Hst); [|done|].
  2:{ rewrite length_seqZ. unfold N_VNODE_PER_SERVER. simpl. lia. }
  cbn [rbind app]. fold (ring_points n).
  unfold N_VNODE_PER_SERVER.
  replace (Z.to_nat (n * 160) - length (ring_points n))%nat with 0%nat by lia.
  cbn [replicate]. rewrite app_nil_r.
  set (vs := qsort ch_ring_compare (ring_points n)) in *.
  assert (forall v, v ∈ vs -> 0 <= server_id v < n /\ 0 <= point v < 2 ^ 32) as Hv.
  { intros v. rewrite Hp. apply ring_points_spec. }
  unfold i32. rewrite swrap_small, u32_small by lia.
  eexists _, vs. split; [done|]. split_and!; try done.
  - split; cbn [vnodes n_point n_server]; [done|rewrite Hp; lia|lia|done| |];
      apply Forall_forall; intros v [? ?]%Hv; done.
  - intros i Hi. rewrite (filter_Permutation _ _ _ Hp). by apply filter_ring_points.
Qed.
