(* ===== verification/ConsistentHashThms.v ===== *)
(** * Consistent hashing: the properties

    Lookups, what a failed server changes, the ring of the default weights, and the rings
    that are left with vnodes that were never written. *)

From stdpp Require Import sorting.
From S2P Require Import Prelude Md5 Md5Spec ConsistentHash ConsistentHashSpec.

Lemma filter_absent (s : Z) (l : list Z) : s ∉ l -> filter (fun x => x <> s) l = l.
Proof.
  induction l as [|x l IH]; intros Hs; [done|]. by rewrite filter_cons_True, IH by set_solver.
Qed.

Lemma take_filter_without (s : Z) (l : list Z) n :
  NoDup l ->
  take n (filter (fun x => x <> s) l) = take n (filter (fun x => x <> s) (take (S n) l)).
Proof.
  revert n. induction l as [|x l IH]; intros n Hnd; [by rewrite take_nil|].
  apply NoDup_cons in Hnd as [Hx Hnd]. rewrite firstn_cons.
  rewrite !filter_cons. case_decide as E.
  - destruct n as [|n]; [done|]. cbn [take]. f_equal. by apply IH.
  - assert (x = s) as -> by (by destruct (decide (x = s))).
    rewrite !filter_absent; [by rewrite take_take, Nat.min_id| |done].
    intros Hin. apply Hx. by apply (subseteq_take n l).
Qed.

Lemma take_without_absent (s : Z) (l : list Z) n :
  s ∉ take n l -> (n <= length l)%nat -> take n (filter (fun x => x <> s) l) = take n l.
Proof.
  revert n. induction l as [|x l IH]; intros [|n] Hs Hn; try done.
  cbn [take] in *. rewrite filter_cons_True by set_solver. cbn [take]. f_equal.
  apply IH; [set_solver|simpl in Hn; lia].
Qed.

(** C15.  The servers ch_ring_get_servers returns for a key: from the first vnode whose point is
    not below the hash of the key (the first vnode of all when there is none), in ring
    order, the first n distinct servers that have capacity, a unit of which is taken; the
    original lead server is the owner of the first vnode, available or not.  When there are
    fewer than n such servers the call aborts (after a NULL dereference when no capacities
    were given).  For a ring of fewer than 2^30 vnodes the search ends and stays in the array;
    in a larger one the sum of its two int bounds may overflow. *)
Theorem ch_ring_get_servers_spec hash ring vs key n capacity :
  ring_ok ring vs -> n_point ring < 2 ^ 30 -> 0 <= n -> cap_ok ring capacity ->
  let start := successor (Z.land (hash key) 0xffffffff) vs in
  let cand := candidates capacity start vs in
  let servers := take (Z.to_nat n) cand in
  NoDup servers /\
  Forall (fun s => avail capacity s = true /\ 0 <= s < n_server ring) servers /\
  exists lead, vs !! start = Some lead /\
    ch_ring_get_servers hash key ring n capacity =
      if decide (n <= Z.of_nat (length cand))
      then Ok (servers, server_id lead, use capacity servers)
      else Err (match capacity with None => NullDeref | Some _ => Aborted end).
Proof.
  intros R Hsmall Hn Hc start cand servers.
  assert (servers ⊆ cand) as Hsub by apply subseteq_take.
  split_and!.
  - apply (sublist_NoDup _ cand); [apply candidates_nodup|apply sublist_take].
  - rewrite Forall_forall. intros s Hs%Hsub. unfold cand, candidates in Hs.
    apply list_elem_of_filter in Hs as [Ha Hs]. split; [done|].
    apply firsts_elem in Hs as [Hs _].
    pose proof (ring_ids_range R start) as Hr. rewrite Forall_forall in Hr. by apply Hr.
  - apply get_servers_candidates; [done|done|done|by apply get_vnode_idx_spec].
Qed.

Definition small_ring : ring_t :=
  Ring 6 3 (Some <$> [Vnode 10 0; Vnode 20 0; Vnode 30 2; Vnode 40 1; Vnode 50 2; Vnode 60 1]).

Lemma small_ring_ok :
  ring_ok small_ring [Vnode 10 0; Vnode 20 0; Vnode 30 2; Vnode 40 1; Vnode 50 2; Vnode 60 1].
Proof.
  split; [done|done|simpl; lia| |repeat constructor; simpl; lia|repeat constructor; simpl; lia].
  repeat constructor; unfold point_le; simpl; lia.
Defined.

Lemma ch_ring_get_servers_spec_witness :
  ch_ring_get_servers (fun key => key) 15 small_ring 2 (Some [5; 0; 1]) =
    Ok ([0; 2], 0, Some [4; 0; 0]) /\
  ch_ring_get_servers (fun key => key) 61 small_ring 3 (Some [5; 0; 1]) = Err Aborted.
Proof.
  destruct (ch_ring_get_servers_spec (fun key => key) small_ring _ 15 2 (Some [5; 0; 1])
              small_ring_ok ltac:(simpl; lia) ltac:(lia) eq_refl) as (_ & _ & lead & Hl & ->).
  destruct (ch_ring_get_servers_spec (fun key => key) small_ring _ 61 3 (Some [5; 0; 1])
              small_ring_ok ltac:(simpl; lia) ltac:(lia) eq_refl) as (_ & _ & lead' & Hl' & ->).
  split; [|vm_compute; reflexivity].
  vm_compute in Hl. injection Hl as <-. vm_compute. reflexivity.
Defined.

(** C16.  What the failure of one server changes for a key: the n servers of the key become
    the remaining ones of its first n + 1 servers, in the same order; a key that was not
    on the failed server keeps its servers, and the original lead server never changes. *)
Theorem ch_ring_failover hash ring vs key n cap s servers lead cap' more lead' cap'' :
  ring_ok ring vs -> cap_ok ring (Some cap) -> 0 <= s < n_server ring -> 0 <= n ->
  ch_ring_get_servers hash key ring n (Some cap) = Ok (servers, lead, cap') ->
  ch_ring_get_servers hash key ring (n + 1) (Some cap) = Ok (more, lead', cap'') ->
  exists rest servers' caps,
    ch_ring_get_servers hash key ring n (Some (<[Z.to_nat s := 0]> cap)) =
      Ok (servers', lead, caps) /\
    servers' ++ rest = filter (fun x => x <> s) more /\
    (s ∉ servers -> servers' = servers).
Proof.
  intros R Hc Hs Hn E1 E2.
  set (start := successor (Z.land (hash key) 0xffffffff) vs).
  set (cand := candidates (Some cap) start vs).
  pose proof (get_servers_idx R _ _ _ _ _ E1) as Hidx.
  destruct (get_servers_candidates hash ring vs key n (Some cap)) as (v & Hv & E1'); [done|done|done|done|].
  destruct (get_servers_candidates hash ring vs key (n + 1) (Some cap)) as (v2 & Hv2 & E2'); [done|lia|done|done|].
  destruct (get_servers_candidates hash ring vs key n (Some (<[Z.to_nat s := 0]> cap)))
    as (v3 & Hv3 & E3); [done|done|simpl; rewrite length_insert; exact Hc|done|].
  cbv zeta in *. fold start in E1', E2', E3, Hv, Hv2, Hv3. fold cand in E1', E2'.
  rewrite E1 in E1'. rewrite E2 in E2'.
  destruct (decide (n <= Z.of_nat (length cand))); [|done].
  destruct (decide (n + 1 <= Z.of_nat (length cand))) as [Hlen|]; [|done].
  injection E1' as -> -> _. injection E2' as -> _ _.
  rewrite (candidates_fail cap s start vs ring) in E3 by done. fold cand in E3.
  pose proof (candidates_nodup (Some cap) start vs) as Hnd. fold cand in Hnd.
  assert (n <= Z.of_nat (length (filter (fun x => x <> s) cand))) as Hle.
  { assert (length cand <= S (length (filter (fun x => x <> s) cand)))%nat; [|lia].
    clear -Hnd. induction Hnd as [|x l Hx Hnd IH]; [simpl; lia|]. rewrite filter_cons. case_decide as E.
    - cbn [length]. lia.
    - assert (x = s) as -> by (by destruct (decide (x = s))).
      cbn [length]. by rewrite filter_absent by done. }
  rewrite decide_True in E3 by done. assert (v3 = v) as -> by congruence.
  do 3 eexists. split; [exact E3|]. split.
  - rewrite (take_filter_without s cand) by done.
    replace (S (Z.to_nat n)) with (Z.to_nat (n + 1)) by lia. apply take_drop.
  - intros Hns. apply take_without_absent; [done|lia].
Qed.

Lemma ch_ring_failover_witness :
  ch_ring_get_servers (fun key => key) 15 small_ring 2 (Some [9; 0; 9]) = Ok ([0; 2], 0, Some [8; 0; 8]).
Proof.
  destruct (ch_ring_failover (fun key => key) small_ring _ 15 2 [9; 9; 9] 1 [0; 2] 0 (Some [8; 9; 8])
              [0; 2; 1] 0 (Some [8; 8; 8]) small_ring_ok eq_refl ltac:(simpl; lia) ltac:(lia) eq_refl eq_refl)
    as (rest & servers' & caps & E & _ & Hsame).
  rewrite Hsame in E; [|set_solver].
  change (<[Z.to_nat 1 := 0]> [9; 9; 9]) with [9; 0; 9] in E. rewrite E.
  vm_compute in E. by injection E as <-.
Defined.

(** C18.  The ring of up to 128 servers with the default weights: the floating-point share of a
    server is exactly 40 digests, so that the array is filled to its end and each server
    owns 160 of its vnodes, at the points of the MD5 digests of its names; qsort leaves
    them in increasing order, and every lookup may use the ring. *)
Theorem ch_ring_create_spec stack qsort n :
  length (buf stack) = 64%nat -> qsort_law qsort -> 1 <= n <= 128 ->
  exists ring vs,
    ch_ring_create stack qsort n (default_weights n) = Ok ring /\
    ring_ok ring vs /\ n_server ring = n /\ vs ≡ₚ ring_points n /\
    forall i, 0 <= i < n -> length (filter (fun v => server_id v = i) vs) = 160%nat.
Proof. exact (ch_ring_create_ok stack qsort n). Qed.

Definition zero_stack : md5_state := Md5State 0 0 (0, 0, 0, 0) (replicate 64 0).

Lemma ch_ring_create_spec_witness :
  exists ring vs, ch_ring_create zero_stack msort 10 (default_weights 10) = Ok ring /\
    ring_ok ring vs /\ length (filter (fun v => server_id v = 7) vs) = 160%nat.
Proof.
  destruct (ch_ring_create_spec zero_stack msort 10 eq_refl msort_law ltac:(lia))
    as (ring & vs & E & R & _ & _ & Hcount).
  exists ring, vs. split; [exact E|]. split; [exact R|]. apply Hcount. lia.
Defined.

(** Weights that are not all equal leave the end of the array unwritten, because the number
    of digests of each server is rounded down while n_point is not: with two servers of
    weights 1 and 2 a key whose hash is above every point written runs into vnodes that
    malloc left as they were.  Without weights (the default the source provides for) the
    sum of the weights dereferences NULL. *)
Theorem ch_ring_create_partial :
  (exists ring, ch_ring_create zero_stack msort 2 (Some [1; 2]) = Ok ring /\
     n_point ring = 320 /\ vnodes ring !! 316%nat = Some None /\
     ch_ring_get_server (fun key => key) 0xffffffff ring = Err BadAccess) /\
  ch_ring_create zero_stack msort 2 None = Err NullDeref.
Proof.
  split; [|reflexivity].
  eexists. split; [vm_compute; reflexivity|]. split_and!; vm_compute; reflexivity.
Qed.
