(* ===== verification/CacheServer.v ===== *)
(** * One cache server of the cluster (CDNSimulator/src/cacheServer.cpp, cacheServer.hpp)

    A server owns a main cache and possibly a gutter cache, both caches of libCacheSim, and
    keeps the kind of a cached object (full object or chunk) and the chunk number in the
    object's extra metadata.  The asserts of the source are checked: no build defines
    NDEBUG. *)

From Stdlib Require Import Floats.SpecFloat.
From S2P Require Import Prelude Store HashTable Cache ConsistentHash.

(** ** constCDNSimulator.hpp *)

Definition full_obj : Z := 1.
Definition chunk_obj : Z := 2.
Definition unknown_obj_type : Z := 3.
Definition invalid_obj : Z := 4.

Inductive cache_type_e := main_cache | gutter_cache | unknown_cache | invalid_cache.

(** [extra_metadata_u8[i]], a byte of the union *)
Definition get_u8 (i : Z) (x : Z) : Z := u8 (Z.shiftr x (8 * i)).
Definition set_u8 (i v : Z) (x : Z) : Z :=
  x - Z.shiftl (get_u8 i x) (8 * i) + Z.shiftl (u8 v) (8 * i).

Definition set_extra (x : Z) (o : cache_obj) : cache_obj :=
  mk_cache_obj (hash_next o) (list_next o) (list_prev o) x (obj_id_int o) (obj_size o).

(** ** The union fields of a request (struct.h): two int32_t in extra_field1 and 2 *)

Definition low32 (x : Z) : Z := i32 x.
Definition high32 (x : Z) : Z := i32 (Z.shiftr x 32).
Definition with_low32 (v x : Z) : Z := i64 (Z.shiftl (high32 x) 32 + u32 v).
Definition with_high32 (v x : Z) : Z := i64 (Z.shiftl (i32 v) 32 + u32 x).

Definition set_extra_field1 (v : Z) (r : request) : request :=
  mk_request (req_real_time r) (req_obj_id_int r) (req_obj_size r) v (req_extra_field2 r)
    (req_cache_obj r) (req_hv r) (req_ttl r) (req_op r) (req_valid r).
Definition set_extra_field2 (v : Z) (r : request) : request :=
  mk_request (req_real_time r) (req_obj_id_int r) (req_obj_size r) (req_extra_field1 r) v
    (req_cache_obj r) (req_hv r) (req_ttl r) (req_op r) (req_valid r).
Definition set_req_obj_size (v : Z) (r : request) : request :=
  mk_request (req_real_time r) (req_obj_id_int r) v (req_extra_field1 r) (req_extra_field2 r)
    (req_cache_obj r) (req_hv r) (req_ttl r) (req_op r) (req_valid r).

Definition bucket_id (r : request) : Z := low32 (req_extra_field1 r).
Definition original_server (r : request) : Z := high32 (req_extra_field1 r).
Definition set_bucket_id (v : Z) (r : request) : request :=
  set_extra_field1 (with_low32 v (req_extra_field1 r)) r.
Definition set_original_server (v : Z) (r : request) : request :=
  set_extra_field1 (with_high32 v (req_extra_field1 r)) r.
Definition set_curr_host_id (v : Z) (r : request) : request :=
  set_extra_field2 (with_low32 v (req_extra_field2 r)) r.

(** ** The server *)

Inductive cache_alg_t := alg_lru | alg_fifo | alg_other.

Record server_params_t := ServerParams {
  sp_server_id : Z;              (* uint32_t *)
  sp_cache_size : Z;             (* uint64_t *)
  sp_cache_alg : cache_alg_t;    (* the string "lru", "fifo" or another *)
  sp_gutter_space : spec_float   (* double *)
}.

Record cacheServer := CacheServer {
  server_params : server_params_t;
  gutter_prob : Z;
  s_cache : state;
  s_gcache : option state;       (* None: nullptr *)
  s_available : bool;
  s_req_cnt : Z; s_hit_cnt : Z; s_gutter_hit_cnt : Z; s_gutter_req_cnt : Z   (* uint64_t *)
}.

Definition set_s_cache (c : state) (s : cacheServer) : cacheServer :=
  CacheServer (server_params s) (gutter_prob s) c (s_gcache s) (s_available s)
    (s_req_cnt s) (s_hit_cnt s) (s_gutter_hit_cnt s) (s_gutter_req_cnt s).
Definition set_s_gcache (g : option state) (s : cacheServer) : cacheServer :=
  CacheServer (server_params s) (gutter_prob s) (s_cache s) g (s_available s)
    (s_req_cnt s) (s_hit_cnt s) (s_gutter_hit_cnt s) (s_gutter_req_cnt s).
Definition set_s_available (b : bool) (s : cacheServer) : cacheServer :=
  CacheServer (server_params s) (gutter_prob s) (s_cache s) (s_gcache s) b
    (s_req_cnt s) (s_hit_cnt s) (s_gutter_hit_cnt s) (s_gutter_req_cnt s).
Definition set_s_counts (rq ht ghit greq : Z) (s : cacheServer) : cacheServer :=
  CacheServer (server_params s) (gutter_prob s) (s_cache s) (s_gcache s) (s_available s)
    rq ht ghit greq.

Section server.
  Variable get_hash_value_int_64 : Z -> Z.
  #[local] Abbreviation hash := get_hash_value_int_64.

(** (long long) of a double *)
Definition trunc_i64 (x : spec_float) : result Z :=
  let! z := (match x with
             | S754_zero _ => Ok 0
             | S754_finite s m e =>
                 let a := if 0 <=? e then Zpos m * 2 ^ e else Zpos m / 2 ^ (- e) in
                 Ok (if s then - a else a)
             | _ => Err BadConversion
             end) in
  if (- 2 ^ 63 <=? z) && (z <? 2 ^ 63) then Ok z else Err BadConversion.

Definition HASH_POWER : Z := 24.

(** 0.00001 *)
Definition gutter_epsilon : spec_float := S754_finite false 5902958103587057 (-69).

(** The constructor; the seeds of the caches' random numbers are not used by LRU and FIFO. *)
Definition cacheServer_init (params : server_params_t) : result cacheServer :=
  let g := sp_gutter_space params in
  let size := double_of_Z (sp_cache_size params) in
  let! gcache :=
    (if SFltb gutter_epsilon g then
       let! sz := trunc_i64 (dmul g size) in
       Ok (Some (cache_struct_init empty_store (mk_params sz 0 HASH_POWER) 0))
     else Ok None) in
  let! sz := trunc_i64 (dmul (SFsub 53 1024 (double_of_Z 1) g) size) in
  match sp_cache_alg params with
  | alg_other => Err Aborted
  | _ =>
      Ok (CacheServer params 100 (cache_struct_init empty_store (mk_params sz 0 HASH_POWER) 0)
            gcache true 0 0 0 0)
  end.

(** the get function of the main cache: LRU_get or FIFO_get *)
Definition main_get (s : cacheServer) : state -> request -> result (cache_ck_res_e * state * request) :=
  match sp_cache_alg (server_params s) with
  | alg_fifo => FIFO_get hash
  | _ => LRU_get hash
  end.

(** cache_get_obj on the main cache, and on the gutter cache if the first finds nothing
    and there is one; the object is returned with the cache it is in. *)
Definition find_main (s : cacheServer) (req : request) : result (option loc * cacheServer * request) :=
  let! '(obj, c, req) := cache_get_obj hash (s_cache s) req in
  Ok (obj, set_s_cache c s, req).

Definition find_gutter (s : cacheServer) (req : request) : result (option loc * cacheServer * request) :=
  match s_gcache s with
  | None => Ok (None, s, req)
  | Some g =>
      let! '(obj, g, req) := cache_get_obj hash g req in
      Ok (obj, set_s_gcache (Some g) s, req)
  end.

(** the store a found object is in *)
Definition obj_of (s : cacheServer) (gutter : bool) (l : loc) : result cache_obj :=
  match (if gutter then s_gcache s else Some (s_cache s)) with
  | None => Err NullDeref
  | Some c => deref (st_store c) (Some l)
  end.

(** cacheServer::check; *obj_type is written when the object is found, and not otherwise *)
Definition srv_check (s : cacheServer) (req : request)
    : result (bool * option Z * cacheServer * request) :=
  if negb (s_available s) then Ok (false, None, s, req)
  else
    let s := set_s_counts (u64 (s_req_cnt s + 1)) (s_hit_cnt s) (s_gutter_hit_cnt s)
               (s_gutter_req_cnt s) s in
    let! '(obj, s, req) := find_main s req in
    match obj with
    | Some l =>
        let s := set_s_counts (s_req_cnt s) (u64 (s_hit_cnt s + 1)) (s_gutter_hit_cnt s)
                   (s_gutter_req_cnt s) s in
        let! o := obj_of s false l in
        Ok (true, Some (get_u8 0 (extra_metadata_u64 o)), s, req)
    | None =>
        match s_gcache s with
        | None => Ok (false, None, s, req)
        | Some _ =>
            let! '(obj, s, req) := find_gutter s req in
            let s := set_s_counts (s_req_cnt s) (s_hit_cnt s) (s_gutter_hit_cnt s)
                       (u64 (s_gutter_req_cnt s + 1)) s in
            match obj with
            | Some l =>
                let s := set_s_counts (s_req_cnt s) (s_hit_cnt s) (u64 (s_gutter_hit_cnt s + 1))
                           (s_gutter_req_cnt s) s in
                let! o := obj_of s true l in
                Ok (true, Some (get_u8 0 (extra_metadata_u64 o)), s, req)
            | None => Ok (false, None, s, req)
            end
        end
    end.

Definition get_main (s : cacheServer) (req : request)
    : result (cache_ck_res_e * cacheServer * request) :=
  let! '(ck, c, req) := main_get s (s_cache s) req in
  Ok (ck, set_s_cache c s, req).

Definition get_gutter (s : cacheServer) (req : request)
    : result (cache_ck_res_e * cacheServer * request) :=
  match s_gcache s with
  | None => Err NullDeref
  | Some g =>
      let! '(ck, g, req) := LRU_get hash g req in
      Ok (ck, set_s_gcache (Some g) s, req)
  end.

(** cacheServer::get *)
Definition srv_get (s : cacheServer) (req : request) (cache_type : cache_type_e)
    : result (bool * cacheServer * request) :=
  if negb (s_available s) then Ok (false, s, req)
  else
    let req := set_curr_host_id (sp_server_id (server_params s)) req in
    let! '(ck, s, req) :=
      (match cache_type with
       | gutter_cache => get_gutter s req
       | main_cache => get_main s req
       | unknown_cache =>
           let! '(obj, s, req) := find_gutter s req in
           match obj with
           | Some _ => get_gutter s req
           | None => get_main s req
           end
       | invalid_cache => Err Aborted
       end) in
    let! '(found, _, s, req) := srv_check s req in
    let! _ := cassert found in
    Ok (bool_decide (ck = cache_ck_hit), s, req).

(** The object of a request, which must be cached: what get_obj_type, set_obj_type,
    get_chunk_id and set_chunk_id begin with. *)
Definition find_cached (s : cacheServer) (req : request)
    : result (bool * loc * cacheServer * request) :=
  let! '(obj, s, req) := find_main s req in
  match obj with
  | Some l => Ok (false, l, s, req)
  | None =>
      let! _ := cassert (match s_gcache s with Some _ => true | None => false end) in
      let! '(obj, s, req) := find_gutter s req in
      match obj with
      | Some l => Ok (true, l, s, req)
      | None => Err AssertFail
      end
  end.

(** cache_obj->extra_metadata_u64 = f (cache_obj->extra_metadata_u64) *)
Definition upd_extra (f : Z -> Z) (s : cacheServer) (gutter : bool) (l : loc) : result cacheServer :=
  let upd c :=
    let! st := store_upd (fun o => set_extra (f (extra_metadata_u64 o)) o) (st_store c) (Some l) in
    Ok (mk_state st (st_cache c) (st_seed c)) in
  if gutter then
    match s_gcache s with
    | None => Err NullDeref
    | Some g => let! g := upd g in Ok (set_s_gcache (Some g) s)
    end
  else let! c := upd (s_cache s) in Ok (set_s_cache c s).

Definition get_obj_type (s : cacheServer) (req : request) : result (Z * cacheServer * request) :=
  let! '(gutter, l, s, req) := find_cached s req in
  let! o := obj_of s gutter l in
  Ok (get_u8 0 (extra_metadata_u64 o), s, req).

Definition set_obj_type (s : cacheServer) (req : request) (obj_type : Z)
    : result (cacheServer * request) :=
  let! '(gutter, l, s, req) := find_cached s req in
  let! s := upd_extra (set_u8 0 (u8 obj_type)) s gutter l in
  Ok (s, req).

Definition get_chunk_id (s : cacheServer) (req : request) : result (Z * cacheServer * request) :=
  let! '(gutter, l, s, req) := find_cached s req in
  let! o := obj_of s gutter l in
  Ok (get_u8 1 (extra_metadata_u64 o), s, req).

Definition set_chunk_id (s : cacheServer) (req : request) (chunk_id : Z)
    : result (cacheServer * request) :=
  let! '(gutter, l, s, req) := find_cached s req in
  let! s := upd_extra (fun x => set_u8 1 chunk_id (set_u8 0 chunk_obj x)) s gutter l in
  Ok (s, req).

Definition set_unavailable (s : cacheServer) : bool * cacheServer := (false, set_s_available false s).
Definition set_available (s : cacheServer) : bool * cacheServer := (true, set_s_available true s).
Definition is_available (s : cacheServer) : bool := s_available s.

(** the destructor, which frees the main cache only *)
Definition cacheServer_free (s : cacheServer) : result unit :=
  let! _ := cache_struct_free (s_cache s) in Ok tt.

End server.
