(* ===== verification/CacheServerSpec.v ===== *)
(** * What a cache server promises to the cluster

    A server with an LRU cache and no gutter cache, related to the list of its entries and
    the metadata of each; the outcome of every operation the cluster calls. *)

From S2P Require Import Prelude Store HashTable HashTableSpec Cache CacheSpec Policies.
From S2P Require Import ConsistentHash CacheServer.

(** ** LRU with the metadata of its objects *)

Lemma list_rel_meta_ext M M' hash b cap st a :
  (forall id, id ∈ a.*1 -> M' id = M id) -> list_rel_meta M hash b cap st a ->
  list_rel_meta M' hash b cap st a.
Proof. intros HM (L & HB & HL). exists L. split; [by eapply base_meta|done]. Qed.

(** Evictions from the head keep the last entry when it fits. *)
Lemma evictions_suffix cap a a' :
  evictions drop_first cap a a' -> exists b, a = b ++ a'.
Proof.
  induction 1 as [a Ha|a a1 a2 Ht [e ->] Hev (b & ->)]; [by exists []|].
  by exists (e :: b).
Qed.

Lemma evictions_keep_last cap b e a' :
  0 <= cap -> e.2 <= cap -> evictions drop_first cap (b ++ [e]) a' -> e ∈ a'.
Proof.
  intros Hc He Hev. remember (b ++ [e]) as a eqn:Ea. revert b Ea.
  induction Hev as [a Ha|a a1 a2 Ht [x Hx] Hev IH]; intros b ->; [set_solver|].
  destruct b as [|y b].
  - simpl in Ht. lia.
  - simpl in Hx. injection Hx as -> <-. by eapply IH.
Qed.

Section meta.
  Variable hash : Z -> Z.

Lemma evict_loop_meta M cap r fuel : forall st a,
  0 <= cap -> list_rel_meta M hash true cap st a -> last_fits cap a -> (length a < fuel)%nat ->
  Z.of_nat (length a) <= 2 ^ 31 ->
  exists st' a', evict_loop (LRU_ops hash) fuel st r = Ok st' /\ list_rel_meta M hash true cap st' a' /\
    evictions drop_first cap a a' /\ (length a' <= length a)%nat /\
    n_lookup (c_hashtable (st_cache st')) = n_lookup (c_hashtable (st_cache st)).
Proof.
  induction fuel as [|fuel IH]; intros st a Hcap HR Hs Hf Hlen; [lia|]. cbn [evict_loop].
  assert (cache_size (st_cache st) = cap /\ occupied_size (st_cache st) = total a) as [-> ->]
    by (destruct HR as (L & HB & _); split; apply HB).
  destruct (Z.gtb_spec (total a) cap) as [Hgt|Hle].
  - pose proof (last_fits_total _ _ Hcap Hs Hgt) as Hev.
    destruct (list_evict_spec M hash cap st a r HR Hlen Hev) as (o & st1 & a1 & E & HR1 & [e ->] & Hn1).
    unfold LRU_ops at 1. cbn [op_evict]. unfold LRU_evict. rewrite E. cbn [rbind].
    destruct (IH st1 a1) as (st2 & a2 & -> & HR2 & Hev2 & Hl2 & Hn2); try done.
    + destruct Hs as (b & x & Hx & Hfit). destruct b as [|y b]; simpl in Hx.
      * injection Hx as -> ->. unfold several in Hev. simpl in Hev. lia.
      * injection Hx as -> ->. by exists b, x.
    + simpl in *. lia.
    + simpl in *. lia.
    + exists st2, a2. split_and!; [done|done| |simpl; lia|congruence].
      eapply ev_step; [lia|by exists e|done].
  - exists st, a. split_and!; [done|done|by apply ev_done|lia|done].
Qed.

(** One call of LRU_get, for a request that fits. *)
Lemma LRU_get_meta M cap st a r n :
  0 <= n -> list_rel_meta M hash true cap st a -> room (n + 1) st a -> req_ok hash r ->
  req_obj_size r <= cap ->
  let id := req_obj_id_int r in
  exists st' a',
    LRU_get hash st r = Ok (if cached id a then cache_ck_hit else cache_ck_miss, st',
                            set_req_hv (hash id) r) /\
    list_rel_meta (if cached id a then M else meta_zero id M) hash true cap st' a' /\
    room n st' a' /\ cached id a' = true /\
    forall j, j <> id -> cached j a' = true -> cached j a = true.
Proof.
  intros Hn HR Hroom Hr Hfit id. pose proof Hr as [_ Hsz].
  destruct (LRU_check_spec M hash true cap st a r n HR Hroom Hn Hr)
    as (st1 & r1 & E1 & HR1 & -> & Hc1 & Hl1). fold id in E1, HR1 |- *.
  destruct Hroom as [Hlen Hlk].
  unfold LRU_get, cache_get. cbn [op_check LRU_ops]. rewrite E1. cbn [rbind].
  cbn [req_obj_size set_req_hv]. rewrite Hc1. destruct (Z.leb_spec (req_obj_size r) cap); [|lia].
  set (e := (id, req_obj_size r)). set (M' := if cached id a then M else meta_zero id M).
  assert (exists b st2,
    (match (if cached id a then cache_ck_hit else cache_ck_miss) with
     | cache_ck_miss => op_insert (LRU_ops hash) st1 (set_req_hv (hash id) r)
     | _ => Ok st1
     end) = Ok st2 /\ list_rel_meta M' hash true cap st2 (b ++ [e]) /\
    (length (b ++ [e]) <= length a + 1)%nat /\ b ⊆ a /\
    n_lookup (c_hashtable (st_cache st2)) = n_lookup (c_hashtable (st_cache st1)))
    as (b & st2 & E2 & HR2 & Hlb & Hba & Hl2).
  { subst M'. destruct (cached id a) eqn:Hc.
    - exists (without id a), st1. split_and!; [done|exact HR1| |intros x Hx; by apply list_elem_of_filter in Hx as [_ Hx]|done].
      pose proof (lru_touch_len id (req_obj_size r) a Hc). unfold lru_touch in *. unfold e. lia.
    - destruct (list_insert_spec (meta_zero id M) hash true cap st1 a (set_req_hv (hash id) r))
        as (l & st2 & E2 & HR2 & Hn2);
        [by apply list_rel_meta_zero|lia|split; [by right|done]|done|apply meta_zero_eq|].
      exists a, st2. unfold LRU_ops, LRU_insert. cbn [op_insert]. rewrite E2. cbn [rbind].
      split_and!; [done|exact HR2|rewrite length_app; simpl; lia|done|done]. }
  rewrite E2. cbn [rbind].
  destruct (evict_loop_meta M' cap (set_req_hv (hash id) r) (evict_fuel st2) st2 (b ++ [e]))
    as (st3 & a3 & E3 & HR3 & Hev & Hl3 & Hn3); [lia|done|by exists b, e; split; [|simpl; lia]| |lia|].
  { unfold evict_fuel. destruct HR2 as (L & HB & _). rewrite (base_items _ _ _ _ _ _ HB). lia. }
  rewrite E3. cbn [rbind]. do 2 eexists. split_and!; [done| | | |].
  - by apply list_rel_req_cnt.
  - split; simpl; lia.
  - apply cached_spec. apply list_elem_of_fmap. exists e. split; [done|].
    eapply evictions_keep_last; [|exact Hfit|exact Hev]. lia.
  - intros j Hj. rewrite !cached_spec. intros ([j' z] & -> & Hin)%list_elem_of_fmap.
    destruct (evictions_suffix _ _ _ Hev) as (b' & Eb).
    assert ((j', z) ∈ b ++ [e]) as Hin' by (rewrite Eb; set_solver).
    apply list_elem_of_fmap. exists (j', z). split; [done|].
    apply elem_of_app in Hin' as [Hin'|Hin']; [by apply Hba|].
    apply list_elem_of_singleton in Hin'. injection Hin' as -> _. by destruct Hj.
Qed.

(** a state and one of the objects on its list *)
Definition list_rel_at (l : loc) (M : Z -> Z) (b : bool) (cap : Z) (st : state) (a : list entry) : Prop :=
  exists L, base M hash cap st L a /\
    list_repr (st_store st) (list_head (st_cache st)) (list_tail (st_cache st)) L /\
    (b = true -> n_obj (st_cache st) = Z.of_nat (length a)) /\ l ∈ L.

(** cache_get_obj, and the metadata of what it finds. *)
Lemma cache_get_obj_meta M cap st a r n :
  0 <= n -> list_rel_meta M hash true cap st a -> room (n + 1) st a ->
  req_hv r = 0 \/ req_hv r = hash (req_obj_id_int r) ->
  let id := req_obj_id_int r in
  exists obj st',
    cache_get_obj hash st r = Ok (obj, st', set_req_hv (hash id) r) /\
    list_rel_meta M hash true cap st' a /\ room n st' a /\
    if cached id a
    then exists l o, obj = Some l /\ objs (st_store st') !! l = Some o /\ obj_id_int o = id /\
           extra_metadata_u64 o = M id /\ list_rel_at l M true cap st' a
    else obj = None.
Proof.
  intros Hn (L & HB & HL & Hno) [Hlen Hlk] Hhv id. pose proof HB as [HHT He Hsm Hmon Hcap Hocc].
  destruct (chained_hashtable_find_spec _ _ _ _ r HHT Hhv ltac:(lia))
    as (obj & ht' & r' & Ef & Hst & Hb & -> & Hobj).
  unfold cache_get_obj. rewrite Ef. cbn [rbind]. do 2 eexists. split; [done|].
  assert (base M hash cap (mk_state (st_store st) (set_table_of ht' (st_cache st)) (st_seed st)) L a) as HB'.
  { split; cbn [st_store st_cache c_hashtable set_table_of]; try done.
    + by eapply HT_same.
    + by rewrite (st_mon _ _ Hst). }
  split_and!.
  - by exists L.
  - split; simpl; lia.
  - destruct (cached id a) eqn:Hc.
    + apply cached_spec in Hc. apply (entries_cached _ _ _ _ _ He) in Hc as (x & ox & Hx & Hox & Hid).
      destruct obj as [l|]; [|by destruct (Hobj x ox Hx Hox)].
      destruct Hobj as [Hl (o & Ho & Hio)]. exists l, o. split_and!; [done..| |by exists L].
      apply list_elem_of_lookup in Hl as [i Hi].
      destruct (Forall2_lookup_l _ _ _ _ _ He Hi) as (e & _ & o' & Ho' & Hie & _ & Hm).
      assert (o' = o) as -> by congruence. rewrite Hm, <- Hie, Hio. done.
    + destruct obj as [l|]; [|done]. destruct Hobj as [Hl (o & Ho & Hio)].
      apply cached_false in Hc. destruct Hc. apply (entries_cached _ _ _ _ _ He). eauto.
Qed.
End meta.

(** ** Writing metadata *)

Definition meta_set (id x : Z) (M : Z -> Z) : Z -> Z := fun j => if j =? id then x else M j.

Lemma meta_set_eq id x M : meta_set id x M id = x.
Proof. unfold meta_set. by rewrite Z.eqb_refl. Qed.
Lemma meta_set_ne id x M j : j <> id -> meta_set id x M j = M j.
Proof. unfold meta_set. intros. by destruct (Z.eqb_spec j id). Qed.

(** The object of an id: what cache_get_obj finds is one of the objects of the list. *)
Lemma list_rel_set_extra M hash b cap st L a l o x :
  base M hash cap st L a ->
  list_repr (st_store st) (list_head (st_cache st)) (list_tail (st_cache st)) L ->
  (b = true -> n_obj (st_cache st) = Z.of_nat (length a)) ->
  l ∈ L -> objs (st_store st) !! l = Some o ->
  list_rel_meta (meta_set (obj_id_int o) x M) hash b cap
    (mk_state (set_objs (<[l := set_extra x o]> (objs (st_store st))) (st_store st))
       (st_cache st) (st_seed st)) a.
Proof.
  intros [HHT He Hsm Hmon Hcap Hocc] HL Hno Hl Ho.
  destruct (HT_nodup _ _ _ _ HHT) as [HndL HidL].
  destruct (entries_split _ _ _ _ _ _ HndL HidL He Hl Ho)
    as (L1 & L2 & a1 & a2 & -> & -> & He1 & He2 & Hn1 & Hn2).
  assert (l ∉ L1 ++ L2) as HlL.
  { rewrite <- Permutation_middle in HndL. by apply NoDup_cons in HndL as []. }
  assert (forall K k, l ∉ K -> obj_id_int o ∉ k.*1 -> entries M (objs (st_store st)) K k ->
            entries (meta_set (obj_id_int o) x M) (<[l := set_extra x o]> (objs (st_store st))) K k)
    as Hside.
  { intros K k HK Hk HE. apply entries_insert_notin; [done|]. clear HK.
    induction HE as [|l' e K k (o' & Ho' & H1 & H2 & H3) HE IH]; [constructor|].
    cbn [fmap list_fmap] in Hk. constructor; [|apply IH; set_solver].
    exists o'. split_and!; [done..|]. rewrite meta_set_ne; [done|]. set_solver. }
  exists (L1 ++ l :: L2). split_and!; [|..|done].
  - split; cbn [st_store st_cache]; try done.
    + eapply HT_upd; [done|set_solver|done|done|done|done].
    + apply Forall2_app; [apply Hside; [set_solver|done|done]|].
      constructor; [|apply Hside; [set_solver|done|done]].
      exists (set_extra x o). cbn. rewrite lookup_insert_eq, meta_set_eq. done.
  - cbn [st_store st_cache]. eapply list_repr_links; [| |exact HL]; [|done].
    intros y. cbn. destruct (decide (y = l)) as [->|].
    + by rewrite lookup_insert_eq, Ho.
    + by rewrite lookup_insert_ne.
Qed.

(** ** The server *)

Record srv_rel (hash : Z -> Z) (n cap : Z) (a : list entry) (M : Z -> Z) (s : cacheServer) : Prop := {
  sv_cache : list_rel_meta M hash true cap (s_cache s) a;
  sv_room : room n (s_cache s) a;
  sv_gutter : s_gcache s = None;
  sv_alg : sp_cache_alg (server_params s) = alg_lru
}.

(** What the operations leave alone. *)
Definition srv_same (s s' : cacheServer) : Prop :=
  server_params s' = server_params s /\ gutter_prob s' = gutter_prob s /\
  s_available s' = s_available s.

Lemma srv_same_trans s s' s'' : srv_same s s' -> srv_same s' s'' -> srv_same s s''.
Proof. intros (? & ? & ?) (? & ? & ?). split_and!; congruence. Qed.

Definition hv_ok (hash : Z -> Z) (r : request) : Prop :=
  req_hv r = 0 \/ req_hv r = hash (req_obj_id_int r).

Section srv.
  Variable hash : Z -> Z.

Lemma room_le n m st a : m <= n -> room n st a -> room m st a.
Proof. intros ? [? ?]. split; lia. Qed.

Lemma srv_rel_le n m cap a M s : m <= n -> srv_rel hash n cap a M s -> srv_rel hash m cap a M s.
Proof. intros Hle [H1 H2 H3 H4]. split; try done. by eapply room_le. Qed.

Lemma srv_rel_counts n cap a M s rq ht gh gr :
  srv_rel hash n cap a M s -> srv_rel hash n cap a M (set_s_counts rq ht gh gr s).
Proof. by intros []. Qed.

Lemma find_main_spec n cap a M s r :
  0 <= n -> srv_rel hash (n + 1) cap a M s -> hv_ok hash r ->
  let id := req_obj_id_int r in
  exists obj s', find_main hash s r = Ok (obj, s', set_req_hv (hash id) r) /\
    srv_rel hash n cap a M s' /\ srv_same s s' /\
    if cached id a
    then exists l o, obj = Some l /\ objs (st_store (s_cache s')) !! l = Some o /\
           obj_id_int o = id /\ extra_metadata_u64 o = M id /\
           list_rel_at hash l M true cap (s_cache s') a
    else obj = None.
Proof.
  intros Hn [H1 H2 H3 H4] Hhv id.
  destruct (cache_get_obj_meta hash M cap (s_cache s) a r n Hn H1 H2 Hhv)
    as (obj & st' & E & HR & Hroom & Hobj). unfold find_main. rewrite E. cbn [rbind].
  do 2 eexists. split; [done|]. by split_and!.
Qed.

(** check finds the object exactly when it is cached, with its kind *)
Lemma srv_check_spec n cap a M s r :
  0 <= n -> srv_rel hash (n + 1) cap a M s -> s_available s = true -> hv_ok hash r ->
  let id := req_obj_id_int r in
  exists s', srv_check hash s r =
      Ok (cached id a, if cached id a then Some (get_u8 0 (M id)) else None, s',
          set_req_hv (hash id) r) /\
    srv_rel hash n cap a M s' /\ srv_same s s'.
Proof.
  intros Hn HR Hav Hhv id. unfold srv_check. rewrite Hav. cbn [negb].
  destruct (find_main_spec n cap a M _ r Hn (srv_rel_counts _ _ _ _ _ (u64 (s_req_cnt s + 1))
     (s_hit_cnt s) (s_gutter_hit_cnt s) (s_gutter_req_cnt s) HR) Hhv)
    as (obj & s' & E & HR' & Hsame & Hobj). fold id in E, Hobj. rewrite E. cbn [rbind].
  destruct (cached id a).
  - destruct Hobj as (l & o & -> & Ho & _ & Hm & _). unfold obj_of. cbn [set_s_counts s_cache].
    rewrite (deref_Some _ _ _ Ho). cbn [rbind]. rewrite Hm.
    eexists. split; [done|]. split; [by apply srv_rel_counts|exact Hsame].
  - subst obj. rewrite (sv_gutter _ _ _ _ _ _ HR'). eexists. split; [done|]. by split.
Qed.

(** get, for a request that fits in the cache *)
Lemma srv_get_spec n cap a M s r t :
  0 <= n -> srv_rel hash (n + 2) cap a M s -> s_available s = true -> hv_ok hash r -> 0 < req_obj_size r < 2 ^ 32 ->
  req_obj_size r <= cap -> t = main_cache \/ t = unknown_cache ->
  let id := req_obj_id_int r in
  exists s' a', srv_get hash s r t =
      Ok (cached id a, s',
          set_req_hv (hash id) (set_curr_host_id (sp_server_id (server_params s)) r)) /\
    srv_rel hash n cap a' (if cached id a then M else meta_zero id M) s' /\ srv_same s s' /\
    cached id a' = true /\ forall j, j <> id -> cached j a' = true -> cached j a = true.
Proof.
  intros Hn HR H5 Hhv Hsz Hfit Ht id. pose proof HR as [H1 H2 H3 H4].
  set (r1 := set_curr_host_id (sp_server_id (server_params s)) r).
  destruct (LRU_get_meta hash M cap (s_cache s) a r1 (n + 1)) as (st' & a' & E & HR' & Hroom & Hca & Hother);
    [lia|done|by replace (n + 1 + 1) with (n + 2) by lia|by split|done|].
  assert (get_main hash s r1 =
    Ok (if cached id a then cache_ck_hit else cache_ck_miss, set_s_cache st' s, set_req_hv (hash id) r1))
    as Eg by (unfold get_main, main_get; rewrite H4; unfold LRU_get in E |- *; rewrite E; done).
  unfold srv_get. rewrite H5. cbn [negb]. fold r1.
  assert ((match t with
       | gutter_cache => get_gutter hash s r1
       | main_cache => get_main hash s r1
       | unknown_cache =>
           let! '(obj, s, req) := find_gutter hash s r1 in
           match obj with
           | Some _ => get_gutter hash s req
           | None => get_main hash s req
           end
       | invalid_cache => Err Aborted
       end) = get_main hash s r1) as ->.
  { destruct Ht as [->| ->]; [done|]. unfold find_gutter. by rewrite H3. }
  rewrite Eg. cbn [rbind].
  destruct (srv_check_spec n cap a' (if cached id a then M else meta_zero id M) (set_s_cache st' s)
              (set_req_hv (hash id) r1)) as (s' & E' & HR2 & Hsame); [done|by split|done|by right|].
  rewrite E'. cbn [rbind]. cbn [req_obj_id_int set_req_hv].
  change (req_obj_id_int r1) with id in Hca |- *. rewrite Hca. cbn [cassert rbind].
  exists s', a'. split_and!; [|done|exact Hsame|done|done]. by destruct (cached id a).
Qed.

(** The metadata functions, on a cached object. *)
Lemma find_cached_spec n cap a M s r :
  0 <= n -> srv_rel hash (n + 1) cap a M s -> hv_ok hash r ->
  let id := req_obj_id_int r in
  cached id a = true ->
  exists l o s', find_cached hash s r = Ok (false, l, s', set_req_hv (hash id) r) /\
    srv_rel hash n cap a M s' /\ srv_same s s' /\
    objs (st_store (s_cache s')) !! l = Some o /\ obj_id_int o = id /\ extra_metadata_u64 o = M id /\
    list_rel_at hash l M true cap (s_cache s') a.
Proof.
  intros Hn HR Hhv id Hc.
  destruct (find_main_spec n cap a M s r Hn HR Hhv) as (obj & s' & E & HR' & Hsame & Hobj).
  fold id in E, Hobj. rewrite Hc in Hobj. destruct Hobj as (l & o & -> & Ho & Hid & Hm & Hat).
  unfold find_cached. rewrite E. cbn [rbind]. by exists l, o, s'.
Qed.

Lemma get_chunk_id_spec n cap a M s r :
  0 <= n -> srv_rel hash (n + 1) cap a M s -> hv_ok hash r ->
  let id := req_obj_id_int r in
  cached id a = true ->
  exists s', get_chunk_id hash s r = Ok (get_u8 1 (M id), s', set_req_hv (hash id) r) /\
    srv_rel hash n cap a M s' /\ srv_same s s'.
Proof.
  intros Hn HR Hhv id Hc.
  destruct (find_cached_spec n cap a M s r Hn HR Hhv Hc) as (l & o & s' & E & HR' & Hsame & Ho & _ & Hm & _).
  unfold get_chunk_id. rewrite E. cbn [rbind]. unfold obj_of. rewrite (deref_Some _ _ _ Ho).
  cbn [rbind]. rewrite Hm. by exists s'.
Qed.

Lemma upd_extra_spec n cap a M s l o f :
  srv_rel hash n cap a M s -> objs (st_store (s_cache s)) !! l = Some o ->
  list_rel_at hash l M true cap (s_cache s) a -> extra_metadata_u64 o = M (obj_id_int o) ->
  exists s', upd_extra f s false l = Ok s' /\
    srv_rel hash n cap a (meta_set (obj_id_int o) (f (M (obj_id_int o))) M) s' /\ srv_same s s'.
Proof.
  intros [H1 H2 H3 H4] Ho (L & HB & HL & Hno & Hl) Hm. unfold upd_extra.
  rewrite (store_upd_Some _ _ _ _ Ho). cbn [rbind]. eexists. split; [done|]. split; [|done].
  split; try done; cbn [s_cache set_s_cache].
  - rewrite Hm. by apply (list_rel_set_extra M hash true cap (s_cache s) L a l o).
  - by destruct H2.
Qed.

(** the metadata set_chunk_id and set_obj_type leave *)
Definition chunk_meta (k x : Z) : Z := set_u8 1 k (set_u8 0 chunk_obj x).

Lemma set_chunk_id_spec n cap a M s r k :
  0 <= n -> srv_rel hash (n + 1) cap a M s -> hv_ok hash r ->
  let id := req_obj_id_int r in
  cached id a = true ->
  exists s', set_chunk_id hash s r k = Ok (s', set_req_hv (hash id) r) /\
    srv_rel hash n cap a (meta_set id (chunk_meta k (M id)) M) s' /\ srv_same s s'.
Proof.
  intros Hn HR Hhv id Hc.
  destruct (find_cached_spec n cap a M s r Hn HR Hhv Hc)
    as (l & o & s' & E & HR' & Hsame & Ho & Hid & Hm & Hat).
  unfold set_chunk_id. rewrite E. cbn [rbind]. fold id in Hid, Hm.
  destruct (upd_extra_spec n cap a M s' l o (chunk_meta k) HR' Ho Hat) as (s2 & E2 & HR2 & Hsame2);
    [congruence|].
  unfold chunk_meta in E2 at 1. rewrite E2. cbn [rbind]. rewrite Hid in HR2.
  exists s2. split_and!; [done|done|]. by eapply srv_same_trans.
Qed.

Lemma set_obj_type_spec n cap a M s r k :
  0 <= n -> srv_rel hash (n + 1) cap a M s -> hv_ok hash r ->
  let id := req_obj_id_int r in
  cached id a = true ->
  exists s', set_obj_type hash s r k = Ok (s', set_req_hv (hash id) r) /\
    srv_rel hash n cap a (meta_set id (set_u8 0 (u8 k) (M id)) M) s' /\ srv_same s s'.
Proof.
  intros Hn HR Hhv id Hc.
  destruct (find_cached_spec n cap a M s r Hn HR Hhv Hc)
    as (l & o & s' & E & HR' & Hsame & Ho & Hid & Hm & Hat).
  unfold set_obj_type. rewrite E. cbn [rbind]. fold id in Hid, Hm.
  destruct (upd_extra_spec n cap a M s' l o (set_u8 0 (u8 k)) HR' Ho Hat) as (s2 & E2 & HR2 & Hsame2);
    [congruence|].
  rewrite E2. cbn [rbind]. rewrite Hid in HR2.
  exists s2. split_and!; [done|done|]. by eapply srv_same_trans.
Qed.

(** a server that is down answers nothing *)
Lemma srv_check_down s r :
  s_available s = false -> srv_check hash s r = Ok (false, None, s, r).
Proof. intros H. unfold srv_check. by rewrite H. Qed.

End srv.

(** *** The bytes of the metadata *)

Lemma get_u8_shift0 x : get_u8 0 x = x mod 256.
Proof. unfold get_u8, u8, wrap. by rewrite Z.shiftr_0_r. Qed.

Lemma get_u8_1 x : get_u8 1 x = x / 256 mod 256.
Proof. unfold get_u8, u8, wrap. by rewrite Z.shiftr_div_pow2 by lia. Qed.

Lemma set_u8_0 v x : set_u8 0 v x = x - x mod 256 + v mod 256.
Proof.
  unfold set_u8. rewrite !Z.shiftl_mul_pow2 by lia. rewrite get_u8_shift0. unfold u8, wrap.
  change (2 ^ (8 * 0)) with 1. change (2 ^ 8) with 256. lia.
Qed.

Lemma set_u8_1 v x : set_u8 1 v x = x - 256 * (x / 256 mod 256) + 256 * (v mod 256).
Proof.
  unfold set_u8. rewrite !Z.shiftl_mul_pow2 by lia. rewrite get_u8_1. unfold u8, wrap.
  change (2 ^ (8 * 1)) with 256. change (2 ^ 8) with 256. lia.
Qed.

Lemma chunk_meta_type k x : get_u8 0 (chunk_meta k x) = chunk_obj.
Proof.
  unfold chunk_meta, chunk_obj. rewrite get_u8_shift0, set_u8_1, set_u8_0.
  Z.to_euclidean_division_equations; lia.
Qed.

Lemma chunk_meta_id k x : 0 <= k < 256 -> get_u8 1 (chunk_meta k x) = k.
Proof.
  intros Hk. unfold chunk_meta, chunk_obj. rewrite get_u8_1, set_u8_1, set_u8_0.
  rewrite (Z.mod_small k) by lia. Z.to_euclidean_division_equations; lia.
Qed.

Lemma full_meta_type x : get_u8 0 (set_u8 0 (u8 full_obj) x) = full_obj.
Proof.
  rewrite set_u8_0, get_u8_shift0. unfold u8, wrap, full_obj. change (1 mod 2 ^ 8 mod 256) with 1.
  rewrite Z.add_comm, Z.add_mod by done. rewrite Zminus_mod_idemp_r, Z.sub_diag. done.
Qed.
