(* ===== verification/CacheCluster.v ===== *)
(** * The cluster of cache servers
      (CDNSimulator/src/cacheCluster.cpp, include/cacheCluster.hpp, stat.hpp)

    The program's own subject: requests are mapped to servers by bucket, an object is kept
    whole on some of them or, above a size, as n chunks of which k are enough.  The model
    is of C2DNconfig.h: USE_BUCKET_HASHING with 100 buckets, TRACK_SERVER_MISS_RATIO, no
    gutter space.  rand() and the maximum-flow solver of OR-tools are parameters. *)

From Stdlib Require Import Floats.SpecFloat.
From S2P Require Import Prelude Store HashTable Cache ConsistentHash CacheServer.

Definition N_BUCKET : Z := 100.
Definition MAX_EC_N : Z := 16.
Definition MAX_N_SERVER : Z := 128.
Definition MAX_N_UNAVAIL : Z := 2.

Inductive cluster_mode_e :=
  | no_replication | two_rep_popularity | two_rep_always | two_rep_always_gutter
  | C2DN | C2DN_add_n | three_rep_always | C2DN_add_n_three_rep | erft | invalid_mode.

Inductive trace_format_e := akamai1b | akamai1bWithHost | akamai1bWithBucket.

#[export] Instance cluster_mode_e_eq_dec : EqDecision cluster_mode_e.
Proof. solve_decision. Defined.
#[export] Instance trace_format_e_eq_dec : EqDecision trace_format_e.
Proof. solve_decision. Defined.

Record cluster_params_t := ClusterParams {
  cp_n_server : Z;
  cp_server_weight : option (list Z);
  cp_admission : Z;                  (* unsigned int *)
  cp_check_one_more : bool;
  cp_parity_rebalance : bool;
  cp_cluster_mode : cluster_mode_e;
  cp_trace_format : trace_format_e
}.

Record EC_params_t := ECParams { ec_n : Z; ec_k : Z; ec_size_threshold : Z }.  (* unsigned int *)

Inductive server_chunk_stat_e := correct_chunk | incorrect_chunk | no_chunk | has_not_checked.

#[export] Instance server_chunk_stat_e_eq_dec : EqDecision server_chunk_stat_e.
Proof. solve_decision. Defined.

Record cluster_hit_t := ClusterHit {
  ch_is_hit : bool; ch_is_ICP_hit : bool; ch_is_RAM_hit : bool;
  ch_n_chunk_hit : Z; ch_req_host : Z; ch_obj_type : Z
}.

(** stat.hpp *)
Record cacheClusterStat := ClusterStat {
  n_avail_server : Z;
  cluster_hit_cnt : Z; cluster_req_cnt : Z; cluster_hit_bytes : Z; cluster_req_bytes : Z;
  full_obj_hit_cnt : Z; full_obj_hit_bytes : Z; chunk_obj_hit_cnt : Z; chunk_obj_hit_bytes : Z;
  n_miss : list Z; midgress_bytes : Z; intra_cluster_bytes : Z
}.

Record bucketStat := BucketStat { b_req_cnt : Z; b_hit_cnt : Z; b_req_byte : Z; b_midgress : Z }.

Record cacheCluster := Cluster {
  cluster_params : cluster_params_t;
  ec_params : EC_params_t;
  ring : ring_t;
  cache_servers : list cacheServer;
  ch_mapping : gmap Z (list Z);
  prev_ch_mapping : gmap Z (list Z);
  ori_lead_mapping : gmap Z Z;
  n_bucket_per_server : list Z;
  obj_freq_map : gmap Z Z;
  cluster_check : cluster_hit_t;
  cluster_stat : cacheClusterStat;
  bucket_stat : list bucketStat;
  read_load_byte : list Z;
  write_load_byte : list Z;
  rand_calls : nat                   (* the calls of rand() so far *)
}.

Definition set_cache_servers v c := Cluster (cluster_params c) (ec_params c) (ring c) v
  (ch_mapping c) (prev_ch_mapping c) (ori_lead_mapping c) (n_bucket_per_server c) (obj_freq_map c)
  (cluster_check c) (cluster_stat c) (bucket_stat c) (read_load_byte c) (write_load_byte c) (rand_calls c).
Definition set_mappings m p o c := Cluster (cluster_params c) (ec_params c) (ring c) (cache_servers c)
  m p o (n_bucket_per_server c) (obj_freq_map c)
  (cluster_check c) (cluster_stat c) (bucket_stat c) (read_load_byte c) (write_load_byte c) (rand_calls c).
Definition set_n_bucket v c := Cluster (cluster_params c) (ec_params c) (ring c) (cache_servers c)
  (ch_mapping c) (prev_ch_mapping c) (ori_lead_mapping c) v (obj_freq_map c)
  (cluster_check c) (cluster_stat c) (bucket_stat c) (read_load_byte c) (write_load_byte c) (rand_calls c).
Definition set_obj_freq_map v c := Cluster (cluster_params c) (ec_params c) (ring c) (cache_servers c)
  (ch_mapping c) (prev_ch_mapping c) (ori_lead_mapping c) (n_bucket_per_server c) v
  (cluster_check c) (cluster_stat c) (bucket_stat c) (read_load_byte c) (write_load_byte c) (rand_calls c).
Definition set_cluster_check v c := Cluster (cluster_params c) (ec_params c) (ring c) (cache_servers c)
  (ch_mapping c) (prev_ch_mapping c) (ori_lead_mapping c) (n_bucket_per_server c) (obj_freq_map c)
  v (cluster_stat c) (bucket_stat c) (read_load_byte c) (write_load_byte c) (rand_calls c).
Definition set_cluster_stat v c := Cluster (cluster_params c) (ec_params c) (ring c) (cache_servers c)
  (ch_mapping c) (prev_ch_mapping c) (ori_lead_mapping c) (n_bucket_per_server c) (obj_freq_map c)
  (cluster_check c) v (bucket_stat c) (read_load_byte c) (write_load_byte c) (rand_calls c).
Definition set_bucket_stat v c := Cluster (cluster_params c) (ec_params c) (ring c) (cache_servers c)
  (ch_mapping c) (prev_ch_mapping c) (ori_lead_mapping c) (n_bucket_per_server c) (obj_freq_map c)
  (cluster_check c) (cluster_stat c) v (read_load_byte c) (write_load_byte c) (rand_calls c).
Definition set_loads r w c := Cluster (cluster_params c) (ec_params c) (ring c) (cache_servers c)
  (ch_mapping c) (prev_ch_mapping c) (ori_lead_mapping c) (n_bucket_per_server c) (obj_freq_map c)
  (cluster_check c) (cluster_stat c) (bucket_stat c) r w (rand_calls c).
Definition set_rand_calls v c := Cluster (cluster_params c) (ec_params c) (ring c) (cache_servers c)
  (ch_mapping c) (prev_ch_mapping c) (ori_lead_mapping c) (n_bucket_per_server c) (obj_freq_map c)
  (cluster_check c) (cluster_stat c) (bucket_stat c) (read_load_byte c) (write_load_byte c) v.

Definition read_load (i bytes : Z) (c : cacheCluster) : result cacheCluster :=
  let! r := arr_upd (fun x => u64 (x + bytes)) (read_load_byte c) i in
  Ok (set_loads r (write_load_byte c) c).
Definition write_load (i bytes : Z) (c : cacheCluster) : result cacheCluster :=
  let! w := arr_upd (fun x => u64 (x + bytes)) (write_load_byte c) i in
  Ok (set_loads (read_load_byte c) w c).

(** *** Statistics *)

Definition add_midgress (bytes : Z) (s : cacheClusterStat) : cacheClusterStat :=
  ClusterStat (n_avail_server s) (cluster_hit_cnt s) (cluster_req_cnt s) (cluster_hit_bytes s)
    (cluster_req_bytes s) (full_obj_hit_cnt s) (full_obj_hit_bytes s) (chunk_obj_hit_cnt s)
    (chunk_obj_hit_bytes s) (n_miss s) (u64 (midgress_bytes s + bytes)) (intra_cluster_bytes s).
Definition add_intra (bytes : Z) (s : cacheClusterStat) : cacheClusterStat :=
  ClusterStat (n_avail_server s) (cluster_hit_cnt s) (cluster_req_cnt s) (cluster_hit_bytes s)
    (cluster_req_bytes s) (full_obj_hit_cnt s) (full_obj_hit_bytes s) (chunk_obj_hit_cnt s)
    (chunk_obj_hit_bytes s) (n_miss s) (midgress_bytes s) (u64 (intra_cluster_bytes s + bytes)).
Definition add_req (bytes : Z) (s : cacheClusterStat) : cacheClusterStat :=
  ClusterStat (n_avail_server s) (cluster_hit_cnt s) (u64 (cluster_req_cnt s + 1))
    (cluster_hit_bytes s) (u64 (cluster_req_bytes s + bytes)) (full_obj_hit_cnt s)
    (full_obj_hit_bytes s) (chunk_obj_hit_cnt s) (chunk_obj_hit_bytes s) (n_miss s)
    (midgress_bytes s) (intra_cluster_bytes s).
Definition add_hit (bytes full_cnt full_bytes chunk_cnt chunk_bytes : Z) (s : cacheClusterStat)
    : cacheClusterStat :=
  ClusterStat (n_avail_server s) (u64 (cluster_hit_cnt s + 1)) (cluster_req_cnt s)
    (u64 (cluster_hit_bytes s + bytes)) (cluster_req_bytes s)
    (u64 (full_obj_hit_cnt s + full_cnt)) (u64 (full_obj_hit_bytes s + full_bytes))
    (u64 (chunk_obj_hit_cnt s + chunk_cnt)) (u64 (chunk_obj_hit_bytes s + chunk_bytes))
    (n_miss s) (midgress_bytes s) (intra_cluster_bytes s).
Definition set_n_miss (v : list Z) (s : cacheClusterStat) : cacheClusterStat :=
  ClusterStat (n_avail_server s) (cluster_hit_cnt s) (cluster_req_cnt s) (cluster_hit_bytes s)
    (cluster_req_bytes s) (full_obj_hit_cnt s) (full_obj_hit_bytes s) (chunk_obj_hit_cnt s)
    (chunk_obj_hit_bytes s) v (midgress_bytes s) (intra_cluster_bytes s).
Definition set_n_avail (v : Z) (s : cacheClusterStat) : cacheClusterStat :=
  ClusterStat v (cluster_hit_cnt s) (cluster_req_cnt s) (cluster_hit_bytes s)
    (cluster_req_bytes s) (full_obj_hit_cnt s) (full_obj_hit_bytes s) (chunk_obj_hit_cnt s)
    (chunk_obj_hit_bytes s) (n_miss s) (midgress_bytes s) (intra_cluster_bytes s).

(** [bucket_stat[req->original_server]], with TRACK_SERVER_MISS_RATIO *)
Definition upd_bucket (f : bucketStat -> bucketStat) (req : request) (c : cacheCluster)
    : result cacheCluster :=
  let! b := arr_upd f (bucket_stat c) (original_server req) in Ok (set_bucket_stat b c).

Definition b_request (bytes : Z) (b : bucketStat) : bucketStat :=
  BucketStat (u64 (b_req_cnt b + 1)) (b_hit_cnt b) (u64 (b_req_byte b + bytes)) (b_midgress b).
Definition b_hit (b : bucketStat) : bucketStat :=
  BucketStat (b_req_cnt b) (u64 (b_hit_cnt b + 1)) (b_req_byte b) (b_midgress b).
Definition b_miss (bytes : Z) (b : bucketStat) : bucketStat :=
  BucketStat (b_req_cnt b) (b_hit_cnt b) (b_req_byte b) (u64 (b_midgress b + bytes)).

Definition chk_hit (c : cacheCluster) : cacheCluster :=
  let k := cluster_check c in
  set_cluster_check (ClusterHit true (ch_is_ICP_hit k) (ch_is_RAM_hit k) (ch_n_chunk_hit k)
                       (ch_req_host k) (ch_obj_type k)) c.
Definition chk_n_chunk_hit (v : Z) (c : cacheCluster) : cacheCluster :=
  let k := cluster_check c in
  set_cluster_check (ClusterHit (ch_is_hit k) (ch_is_ICP_hit k) (ch_is_RAM_hit k) v
                       (ch_req_host k) (ch_obj_type k)) c.
Definition chk_req_host (v : Z) (c : cacheCluster) : cacheCluster :=
  let k := cluster_check c in
  set_cluster_check (ClusterHit (ch_is_hit k) (ch_is_ICP_hit k) (ch_is_RAM_hit k)
                       (ch_n_chunk_hit k) v (ch_obj_type k)) c.
Definition chk_obj_type (v : Z) (c : cacheCluster) : cacheCluster :=
  let k := cluster_check c in
  set_cluster_check (ClusterHit (ch_is_hit k) (ch_is_ICP_hit k) (ch_is_RAM_hit k)
                       (ch_n_chunk_hit k) (ch_req_host k) v) c.

(** (uint64_t) (ceil (double (size) / k)) *)
Definition ceil_u64 (x : spec_float) : result Z :=
  let! z := (match x with
             | S754_zero _ => Ok 0
             | S754_finite s m e =>
                 let m := cond_Zopp s (Zpos m) in
                 Ok (if 0 <=? e then m * 2 ^ e else - ((- m) / 2 ^ (- e)))
             | _ => Err BadConversion
             end) in
  if (0 <=? z) && (z <? 2 ^ 64) then Ok z else Err BadConversion.

Definition chunk_size (ec : EC_params_t) (full : Z) : result Z :=
  ceil_u64 (ddiv (double_of_Z full) (double_of_Z (ec_k ec))).

Section cluster.
  Variable get_hash_value_int_64 : Z -> Z.
  (** the results of rand(), from 0 to RAND_MAX *)
  Variable rand : nat -> Z.
  #[local] Abbreviation hash := get_hash_value_int_64.

Definition next_rand (c : cacheCluster) : Z * cacheCluster :=
  (rand (rand_calls c), set_rand_calls (S (rand_calls c)) c).

(** *** Calls of a server, through cache_servers.at(i) *)

Definition at_server {A} (c : cacheCluster) (i : Z)
    (f : cacheServer -> result (A * cacheServer * request)) : result (A * cacheCluster * request) :=
  let! s := arr_get (cache_servers c) i in
  let! '(a, s, req) := f s in
  Ok (a, set_cache_servers (<[Z.to_nat i := s]> (cache_servers c)) c, req).

Definition cl_check (c : cacheCluster) (i : Z) (req : request)
    : result ((bool * option Z) * cacheCluster * request) :=
  at_server c i (fun s => let! '(b, t, s, req) := srv_check hash s req in Ok ((b, t), s, req)).
Definition cl_get (c : cacheCluster) (i : Z) (req : request) (t : cache_type_e)
    : result (bool * cacheCluster * request) :=
  at_server c i (fun s => srv_get hash s req t).
Definition cl_get_chunk_id (c : cacheCluster) (i : Z) (req : request)
    : result (Z * cacheCluster * request) :=
  at_server c i (fun s => get_chunk_id hash s req).
Definition cl_set_chunk_id (c : cacheCluster) (i : Z) (req : request) (id : Z)
    : result (cacheCluster * request) :=
  let! '(_, c, req) :=
    at_server c i (fun s => let! '(s, req) := set_chunk_id hash s req id in Ok (tt, s, req)) in
  Ok (c, req).
Definition cl_set_obj_type (c : cacheCluster) (i : Z) (req : request) (t : Z)
    : result (cacheCluster * request) :=
  let! '(_, c, req) :=
    at_server c i (fun s => let! '(s, req) := set_obj_type hash s req t in Ok (tt, s, req)) in
  Ok (c, req).

(** get on a server, then set_obj_type or set_chunk_id *)
Definition store_full (t : cache_type_e) (c : cacheCluster) (i : Z) (req : request)
    : result (cacheCluster * request) :=
  let! '(_, c, req) := cl_get c i req t in cl_set_obj_type c i req full_obj.
Definition store_chunk (t : cache_type_e) (c : cacheCluster) (i : Z) (req : request) (id : Z)
    : result (cacheCluster * request) :=
  let! '(_, c, req) := cl_get c i req t in cl_set_chunk_id c i req id.

(** *** cacheCluster.hpp: admission and the coding policy *)

(** get_freq *)
Definition get_freq (c : cacheCluster) (req : request) (inc : bool) : Z * cacheCluster :=
  let key := u32 (req_obj_id_int req) in
  let freq := default 0 (obj_freq_map c !! key) in
  (freq, if inc then set_obj_freq_map (<[key := u32 (freq + 1)]> (obj_freq_map c)) c else c).

(** _should_admit *)
Definition should_admit (c : cacheCluster) (req : request) : bool * cacheCluster :=
  if cp_admission (cluster_params c) <=? 0 then (true, c)
  else
    let '(freq, c) := get_freq c req false in
    let enough := freq >=? cp_admission (cluster_params c) in
    let '(_, c) := get_freq c req true in
    (enough, c).

Definition check_coding_policy (c : cacheCluster) (req : request) : result bool :=
  match cp_cluster_mode (cluster_params c) with
  | no_replication | two_rep_popularity | two_rep_always | two_rep_always_gutter
  | three_rep_always => Ok false
  | C2DN | C2DN_add_n | C2DN_add_n_three_rep =>
      Ok (req_obj_size req >? ec_size_threshold (ec_params c))
  | _ => Err Aborted
  end.

(** *** The servers of a request *)

(** get_consistent_hash_mapping, which asserts that the bucket has been mapped *)
Definition get_consistent_hash_mapping (c : cacheCluster) (id : Z) : result (list Z * Z) :=
  match ch_mapping c !! u32 id with
  | None => Err AssertFail
  | Some server_idxs =>
      match ori_lead_mapping c !! u32 id with
      | None => Err BadAccess
      | Some lead => Ok (server_idxs, lead)
      end
  end.

(** _find_mapped_servers: server_idxs, *lead_server, *second_lead *)
Definition find_mapped_servers (c : cacheCluster) (req : request)
    : result (list Z * Z * Z * cacheCluster * request) :=
  let mode := cp_cluster_mode (cluster_params c) in
  let three := bool_decide (mode = three_rep_always) || bool_decide (mode = C2DN_add_n_three_rep) in
  let '(idx_selected, c) :=
    if (ec_n (ec_params c) =? 1) || bool_decide (mode = erft) ||
       bool_decide (mode = two_rep_always_gutter)
    then (0, c)
    else let '(r, c) := next_rand c in (if three then u32 r mod 3 else u32 r mod 2, c) in
  let! req :=
    (if decide (cp_trace_format (cluster_params c) = akamai1bWithBucket) then
       let! _ := cassert ((bucket_id req <=? N_BUCKET) && (0 <=? bucket_id req)) in Ok req
     else Ok (set_bucket_id (req_obj_id_int req mod N_BUCKET) req)) in
  let! '(server_idxs, ori_lead) := get_consistent_hash_mapping c (bucket_id req) in
  let req := set_original_server (i32 ori_lead) req in
  let! lead_server := arr_get server_idxs idx_selected in
  let! '(second_lead, c) :=
    (if three then
       let '(r, c) := next_rand c in
       let! x := arr_get server_idxs (u32 (idx_selected - Z.rem r 2 - 1) mod 3) in Ok (x, c)
     else let! x := arr_get server_idxs (u32 (1 - idx_selected)) in Ok (x, c)) in
  Ok (server_idxs, lead_server, second_lead, chk_req_host (i32 lead_server) c, req).

(** *** A hit on a full object *)

Definition cache_hit_full_obj (c : cacheCluster) (req : request) (lead_server : Z)
    (server_idxs : list Z) : result (cacheCluster * request) :=
  let c := chk_hit c in
  match cp_cluster_mode (cluster_params c) with
  | no_replication | two_rep_popularity => store_full main_cache c lead_server req
  | mode =>
      let! i0 := arr_get server_idxs 0 in
      let! '(c, req) := store_full main_cache c i0 req in
      match mode with
      | two_rep_always | C2DN | C2DN_add_n =>
          let! i1 := arr_get server_idxs 1 in store_full main_cache c i1 req
      | three_rep_always | C2DN_add_n_three_rep =>
          let! i1 := arr_get server_idxs 1 in
          let! '(c, req) := store_full main_cache c i1 req in
          let! i2 := arr_get server_idxs 2 in store_full main_cache c i2 req
      | two_rep_always_gutter =>
          let '(r, c) := next_rand c in
          let! s0 := arr_get (cache_servers c) i0 in
          if Z.rem r 100 <? gutter_prob s0 then
            let! i1 := arr_get server_idxs 1 in store_full gutter_cache c i1 req
          else Ok (c, req)
      | erft => let! i1 := arr_get server_idxs 1 in store_full gutter_cache c i1 req
      | _ => Err Aborted
      end
  end.

(** *** A hit on a chunk *)

(** the static arrays of _cache_hit_chunk_obj and its two counters *)
Record chunk_info := ChunkInfo {
  server_chunk_status : list server_chunk_stat_e;
  chunk_cnt : list Z;
  checked_servers : list bool;
  n_chunk_hit : Z;
  n_duplicate_chunks : Z
}.

(** One round of _get_chunk_info. *)
Definition chunk_info_step (server_idxs : list Z) (debug : bool)
    (st : cacheCluster * request * chunk_info) (i : Z)
    : result (cacheCluster * request * chunk_info) :=
  let '(c, req, ci) := st in
  let! server_idx := arr_get server_idxs i in
  let! c :=
    (if debug then Ok c
     else
       let! c := read_load server_idx (req_obj_size req) c in
       let! seen := arr_get (checked_servers ci) server_idx in
       let! _ := cassert (negb seen) in Ok c) in
  let! checked := arr_upd (fun _ => true) (checked_servers ci) server_idx in
  let! '((found, _), c, req) := cl_check c server_idx req in
  if found then
    let! '(chunk_id, c, req) := cl_get_chunk_id c server_idx req in
    let! cnt := arr_get (chunk_cnt ci) chunk_id in
    let! status := arr_upd (fun _ => if cnt =? 0 then correct_chunk else incorrect_chunk)
                     (server_chunk_status ci) i in
    let! chunk_cnt := arr_upd (fun x => x + 1) (chunk_cnt ci) chunk_id in
    Ok (c, req, ChunkInfo status chunk_cnt checked
                  (if cnt =? 0 then n_chunk_hit ci + 1 else n_chunk_hit ci)
                  (if cnt =? 0 then n_duplicate_chunks ci else n_duplicate_chunks ci + 1))
  else
    let! c := (if debug then Ok c else write_load server_idx (req_obj_size req) c) in
    let! status := arr_upd (fun _ => no_chunk) (server_chunk_status ci) i in
    Ok (c, req, ChunkInfo status (chunk_cnt ci) checked (n_chunk_hit ci) (n_duplicate_chunks ci)).

Definition get_chunk_info (c : cacheCluster) (req : request) (server_idxs : list Z)
    (ci : chunk_info) (debug : bool) : result (cacheCluster * request * chunk_info) :=
  rfold (chunk_info_step server_idxs debug) (seqZ 0 (ec_n (ec_params c))) (c, req, ci).

(** A server beyond the n of the mapping is asked, unless it has been already. *)
Definition ask_one_more (server_idx : Z) (st : cacheCluster * request * chunk_info)
    : result (cacheCluster * request * chunk_info) :=
  let '(c, req, ci) := st in
  let! seen := arr_get (checked_servers ci) server_idx in
  if (seen : bool) then Ok (c, req, ci)
  else
    let! checked := arr_upd (fun _ => true) (checked_servers ci) server_idx in
    let ci := ChunkInfo (server_chunk_status ci) (chunk_cnt ci) checked (n_chunk_hit ci)
                (n_duplicate_chunks ci) in
    let! '((found, obj_type), c, req) := cl_check c server_idx req in
    if found then
      let! c := read_load server_idx (req_obj_size req) c in
      let! _ := cassert (bool_decide (obj_type = Some chunk_obj)) in
      let! '(chunk_id, c, req) := cl_get_chunk_id c server_idx req in
      let! cnt := arr_get (chunk_cnt ci) chunk_id in
      Ok (c, req, ChunkInfo (server_chunk_status ci) (chunk_cnt ci) checked
                    (if cnt =? 0 then n_chunk_hit ci + 1 else n_chunk_hit ci)
                    (n_duplicate_chunks ci))
    else Ok (c, req, ci).

(** The servers asked when the n of the mapping have fewer than k chunks. *)
Definition ask_others (server_idxs : list Z) (st : cacheCluster * request * chunk_info)
    : result (cacheCluster * request * chunk_info) :=
  let '(c, _, ci) := st in
  let n := ec_n (ec_params c) in
  let k := ec_k (ec_params c) in
  let p := cluster_params c in
  if n_chunk_hit ci <? k then
    let! st :=
      (if cp_check_one_more p || cp_parity_rebalance p then
         rfold (fun st i => let! idx := arr_get server_idxs i in ask_one_more idx st)
           (seqZ n MAX_N_UNAVAIL) st
       else Ok st) in
    let '(c, req, ci) := st in
    match prev_ch_mapping c !! u32 (bucket_id req) with
    | Some prev_server_idxs =>
        if (n_chunk_hit ci <? k) && cp_parity_rebalance p then
          let! server_idx := arr_get prev_server_idxs (n - 1) in ask_one_more server_idx st
        else Ok st
    | None => Ok st
    end
  else Ok st.

(** The report on standard error about too many duplicates asks every server again. *)
Definition report_duplicates (st : cacheCluster * request * chunk_info)
    : result (cacheCluster * request * chunk_info) :=
  let '(c, req, ci) := st in
  let n := ec_n (ec_params c) in
  if (n_chunk_hit ci <? n) && (n_duplicate_chunks ci >? u32 (n - ec_k (ec_params c))) then
    let! '(c, req) :=
      rfold (fun '(c, req) i =>
               let! '((found, _), c, req) := cl_check c i req in
               if found then let! '(_, c, req) := cl_get_chunk_id c i req in Ok (c, req)
               else Ok (c, req))
        (seqZ 0 (Z.of_nat (length (cache_servers c)))) (c, req) in
    Ok (c, req, ci)
  else Ok st.

(** [while (server_chunk_status[i] == correct_chunk) i++] *)
Fixpoint skip_correct (fuel : nat) (status : list server_chunk_stat_e) (i : Z) : result Z :=
  match fuel with
  | O => Err OutOfFuel
  | S fuel =>
      let! s := arr_get status i in
      if decide (s = correct_chunk) then skip_correct fuel status (i + 1) else Ok i
  end.

(** A missing chunk [j] is put on the next server that does not hold a correct one. *)
Definition restore_step (server_idxs : list Z) (ci : chunk_info)
    (st : cacheCluster * request * Z) (j : Z) : result (cacheCluster * request * Z) :=
  let '(c, req, i) := st in
  let! cnt := arr_get (chunk_cnt ci) j in
  if cnt =? 0 then
    let! i := skip_correct (S (length (server_chunk_status ci))) (server_chunk_status ci) i in
    let! _ := cassert (i <? ec_n (ec_params c)) in
    let! idx := arr_get server_idxs i in
    let! '(c, req) := store_chunk unknown_cache c idx req j in
    Ok (c, req, i + 1)
  else Ok (c, req, i).

Definition restore_chunks (c : cacheCluster) (req : request) (server_idxs : list Z)
    (ci : chunk_info) : result (cacheCluster * request) :=
  let! '(c, req, _) :=
    rfold (restore_step server_idxs ci) (seqZ 0 (ec_n (ec_params c))) (c, req, 0) in
  Ok (c, req).

Definition cache_hit_chunk_obj (c : cacheCluster) (req : request) (server_idxs : list Z)
    : result (cacheCluster * request) :=
  let n := ec_n (ec_params c) in
  let k := ec_k (ec_params c) in
  let! _ := (if cp_n_server (cluster_params c) <=? MAX_N_SERVER then Ok tt else Err OutOfBounds) in
  let ci := ChunkInfo (replicate (Z.to_nat MAX_EC_N) has_not_checked)
              (replicate (Z.to_nat MAX_EC_N) 0) (replicate (Z.to_nat MAX_N_SERVER) false)
              (ch_n_chunk_hit (cluster_check c)) 0 in
  let full_obj_size := req_obj_size req in
  let! chunk_obj_size := chunk_size (ec_params c) full_obj_size in
  let req := set_req_obj_size chunk_obj_size req in
  let! st := get_chunk_info c req server_idxs ci false in
  let! st := ask_others server_idxs st in
  let! '(c, req, ci) := report_duplicates st in
  let c := chk_n_chunk_hit (n_chunk_hit ci) c in
  let! '(c, req) := restore_chunks c req server_idxs ci in
  let c := set_cluster_stat (add_intra (u64 (n_duplicate_chunks ci * chunk_obj_size))
                               (cluster_stat c)) c in
  let! c :=
    (if n_chunk_hit ci <? k then
       let missing := u64 ((k - n_chunk_hit ci) * chunk_obj_size) in
       let c := set_cluster_stat (add_midgress missing (cluster_stat c)) c in
       upd_bucket (b_miss missing) req c
     else Ok (chk_hit c)) in
  let c := set_cluster_stat (add_intra (u64 (chunk_obj_size * u32 (n - 1))) (cluster_stat c)) c in
  let! m := arr_upd (fun x => u64 (x + 1)) (n_miss (cluster_stat c)) (u32 (n - n_chunk_hit ci)) in
  let c := set_cluster_stat (set_n_miss m (cluster_stat c)) c in
  Ok (c, set_req_obj_size full_obj_size req).

(** *** Misses *)

(** chunk [i] is written to the i-th server *)
Definition miss_chunk_step (server_idxs : list Z) (st : cacheCluster * request) (i : Z)
    : result (cacheCluster * request) :=
  let '(c, req) := st in
  let! idx := arr_get server_idxs i in
  let! c := write_load idx (req_obj_size req) c in
  store_chunk main_cache c idx req i.

Definition cache_miss_chunk_obj (c : cacheCluster) (req : request) (server_idxs : list Z)
    : result (cacheCluster * request) :=
  let n := ec_n (ec_params c) in
  let k := ec_k (ec_params c) in
  let full_obj_size := req_obj_size req in
  let! chunk_obj_size := chunk_size (ec_params c) full_obj_size in
  let req := set_req_obj_size chunk_obj_size req in
  let c := set_cluster_stat (add_intra (u64 (chunk_obj_size * u32 (k - 1))) (cluster_stat c)) c in
  let! '(c, req) := rfold (miss_chunk_step server_idxs) (seqZ 0 k) (c, req) in
  let! '(c, req) :=
    (match cp_cluster_mode (cluster_params c) with
     | C2DN_add_n | C2DN_add_n_three_rep =>
         let c := set_cluster_stat (add_intra (u64 (chunk_obj_size * u32 (n - 1))) (cluster_stat c)) c in
         rfold (miss_chunk_step server_idxs) (seqZ k (n - k)) (c, req)
     | _ => Ok (c, req)
     end) in
  Ok (c, set_req_obj_size full_obj_size req).

Definition cache_miss_full_obj (c : cacheCluster) (req : request) (lead_server : Z)
    (server_idxs : list Z) : result (cacheCluster * request) :=
  let store idx '(c, req) :=
    let! c := write_load idx (req_obj_size req) c in store_full main_cache c idx req in
  let store_at '(c, req) i :=
    let! idx := arr_get server_idxs i in store idx (c, req) in
  match cp_cluster_mode (cluster_params c) with
  | no_replication | two_rep_popularity => store lead_server (c, req)
  | two_rep_always | C2DN | C2DN_add_n | two_rep_always_gutter =>
      rfold store_at (seqZ 0 2) (c, req)
  | three_rep_always | C2DN_add_n_three_rep => rfold store_at (seqZ 0 3) (c, req)
  | _ => Err Aborted
  end.

(** *** cacheCluster::get *)

(** what a hit on the lead server, or on the second, does *)
Definition get_hit (c : cacheCluster) (req : request) (server_to_read lead_server : Z)
    (server_idxs : list Z) : result (cacheCluster * request) :=
  let t := ch_obj_type (cluster_check c) in
  if t =? full_obj then
    let! c := read_load server_to_read (req_obj_size req) c in
    cache_hit_full_obj c req lead_server server_idxs
  else if t =? chunk_obj then cache_hit_chunk_obj c req server_idxs
  else if t =? unknown_obj_type then Err Aborted
  else Ok (c, req).

(** the object is fetched from the origin, and stored when it is let in *)
Definition get_miss (c : cacheCluster) (req : request) (admit_into_cache : bool) (lead_server : Z)
    (server_idxs : list Z) : result (cacheCluster * request) :=
  let c := set_cluster_stat (add_midgress (req_obj_size req) (cluster_stat c)) c in
  let! c := upd_bucket (b_miss (req_obj_size req)) req c in
  if admit_into_cache then
    let! c := read_load lead_server (req_obj_size req) c in
    let! coded := check_coding_policy c req in
    if (coded : bool) then cache_miss_chunk_obj c req server_idxs
    else cache_miss_full_obj c req lead_server server_idxs
  else Ok (c, req).

(** the statistics of a hit *)
Definition get_finish (c : cacheCluster) (req : request)
    : result (cluster_hit_t * cacheCluster * request) :=
  let k := cluster_check c in
  if ch_is_hit k then
    let! _ := cassert (ch_n_chunk_hit k <=? ec_n (ec_params c)) in
    let sz := req_obj_size req in
    let! c :=
      (if ch_obj_type k =? full_obj then
         Ok (set_cluster_stat (add_hit sz 1 sz 0 0 (cluster_stat c)) c)
       else if ch_obj_type k =? chunk_obj then
         Ok (set_cluster_stat (add_hit sz 0 0 1 sz (cluster_stat c)) c)
       else Err Aborted) in
    let! c := upd_bucket b_hit req c in
    Ok (cluster_check c, c, req)
  else Ok (k, c, req).

Definition cluster_get (c : cacheCluster) (req : request)
    : result (cluster_hit_t * cacheCluster * request) :=
  let c := set_cluster_check (ClusterHit false false false 0 unknown_obj_type 0) c in
  let! '(server_idxs, lead_server, second_lead, c, req) := find_mapped_servers c req in
  let c := set_cluster_stat (add_req (req_obj_size req) (cluster_stat c)) c in
  let! c := upd_bucket (b_request (req_obj_size req)) req c in
  let record t c := match t with Some t => chk_obj_type t c | None => c end in
  let! '((found_in_lead_server, t), c, req) := cl_check c lead_server req in
  let c := record t c in
  let '(admit_into_cache, c) := should_admit c req in
  let! '(found, server_to_read, c, req) :=
    (if (found_in_lead_server : bool) then Ok (true, lead_server, c, req)
     else if cp_check_one_more (cluster_params c) then
       let! '((found, t), c, req) := cl_check c second_lead req in
       Ok (found, second_lead, record t c, req)
     else Ok (false, second_lead, c, req)) in
  let! '(c, req) :=
    (if (found : bool) then get_hit c req server_to_read lead_server server_idxs
     else get_miss c req admit_into_cache lead_server server_idxs) in
  get_finish c req.

(** *** Mapping the buckets *)

(** An arc of the flow network: tail, head, capacity. *)
Abbreviation arc := (Z * Z * Z)%type.

(** the flows SimpleMaxFlow computes for a list of arcs, from node 0 to node 1 *)
Variable max_flow : list arc -> list Z.

(** buckets_on_server: does one of the first n - 1 servers of the bucket equal [server]? *)
Definition data_on_server (c : cacheCluster) (bucket server : Z) : result bool :=
  match ch_mapping c !! bucket with
  | None => Err NullDeref      (* operator[] makes a null pointer *)
  | Some m =>
      rfold (fun b j => let! s := arr_get m j in Ok (b || (s =? server)))
        (seqZ 0 (ec_n (ec_params c) - 1)) false
  end.

Definition buckets_on_server (c : cacheCluster) (server : Z) : result (list Z) :=
  rfold (fun l b => let! on := data_on_server c b server in
                    Ok (if (on : bool) then l ++ [b] else l)) (seqZ 0 N_BUCKET) [].

(** (int) ceil ((double) N_BUCKET * n / n_avail_server) *)
Definition server_cap (c : cacheCluster) : result Z :=
  let x := dmul (double_of_Z N_BUCKET) (double_of_Z (ec_n (ec_params c))) in
  ceil_u64 (ddiv x (double_of_Z (n_avail_server (cluster_stat c)))).

(** The arcs of one server: from the source, and to the buckets it has no data chunk of. *)
Definition server_arcs (c : cacheCluster) (n_server cap i : Z) : result (list arc) :=
  let! on := buckets_on_server c i in
  let cap := cap - Z.of_nat (length on) in
  let! cap :=
    (match on with
     | [] =>
         let! s := arr_get (cache_servers c) i in
         let! _ := cassert (negb (is_available s)) in Ok 0
     | _ => Ok cap
     end) in
  Ok ((0, 2 + i, if cap <? 0 then 0 else cap) ::
      ((fun b => (2 + i, 2 + n_server + b, 1)) <$> filter (fun b => b ∉ on) (seqZ 0 N_BUCKET))).

Definition flow_arcs (c : cacheCluster) : result (list arc) :=
  let n_server := Z.of_nat (length (n_bucket_per_server c)) in
  let! cap := server_cap c in
  let! arcs := rfold (fun l i => let! a := server_arcs c n_server cap i in Ok (l ++ a))
                 (seqZ 0 n_server) [] in
  Ok (arcs ++ ((fun b => (2 + n_server + b, 1, 1)) <$> seqZ 0 N_BUCKET)).

(** [m[j] = m[j - 1]] for j from last down to n, then [m[n - 1] = server] *)
Definition insert_parity (m : list Z) (n server : Z) : result (list Z) :=
  let last := n + MAX_N_UNAVAIL - 1 in
  let! m := rfold (fun m d =>
                     let j := last - d in
                     let! x := arr_get m (j - 1) in arr_upd (fun _ => x) m j)
              (seqZ 0 MAX_N_UNAVAIL) m in
  arr_upd (fun _ => server) m (n - 1).

(** One arc of the solution: a server that gives a bucket its parity chunk. *)
Definition apply_flow (n_server : Z) (c : cacheCluster) (a : arc * Z) : result cacheCluster :=
  let '((tail, head, _), flow) := a in
  if negb (tail =? 0) && negb (head =? 1) && (flow >? 0) then
    let server_id := tail - 2 in
    let bucket := head - 2 - n_server in
    match ch_mapping c !! bucket with
    | None => Err NullDeref
    | Some m =>
        let! m := insert_parity m (ec_n (ec_params c)) server_id in
        let c := set_mappings (<[bucket := m]> (ch_mapping c)) (prev_ch_mapping c)
                   (ori_lead_mapping c) c in
        let! nb := arr_upd (fun x => u32 (x + 1)) (n_bucket_per_server c) server_id in
        Ok (set_n_bucket nb c)
    end
  else Ok c.

Definition find_parity_mapping (c : cacheCluster) : result cacheCluster :=
  let n_server := Z.of_nat (length (n_bucket_per_server c)) in
  let! arcs := flow_arcs c in
  rfold (apply_flow n_server) (zip arcs (max_flow arcs)) c.

(** data_capacity: a server that is down has none *)
Definition initial_capacity (c : cacheCluster) : list Z :=
  (fun s => if is_available s then u32 (N_BUCKET * ec_n (ec_params c)) else 0) <$> cache_servers c.

(** One bucket of populate_hash_mapping; the capacities are used up along the way. *)
Definition populate_bucket (st : cacheCluster * option (list Z)) (bucket : Z)
    : result (cacheCluster * option (list Z)) :=
  let '(c, data_capacity) := st in
  let n := ec_n (ec_params c) in
  let! '(server_idxs, lead, data_capacity) :=
    ch_ring_get_servers hash bucket (ring c) (n + MAX_N_UNAVAIL) data_capacity in
  let c := set_mappings (<[bucket := server_idxs]> (ch_mapping c)) (prev_ch_mapping c)
             (<[bucket := lead]> (ori_lead_mapping c)) c in
  let last := if cp_parity_rebalance (cluster_params c) then n - 1 else n in
  let! nb :=
    rfold (fun nb j => let! s := arr_get server_idxs j in arr_upd (fun x => u32 (x + 1)) nb s)
      (seqZ 0 last) (n_bucket_per_server c) in
  Ok (set_n_bucket nb c, data_capacity).

Definition populate_hash_mapping (c : cacheCluster) : result cacheCluster :=
  let c := set_n_bucket (replicate (Z.to_nat (cp_n_server (cluster_params c))) 0) c in
  let! '(c, _) := rfold populate_bucket (seqZ 0 N_BUCKET) (c, Some (initial_capacity c)) in
  let! c := (if cp_parity_rebalance (cluster_params c) then find_parity_mapping c else Ok c) in
  (* the buckets are looked up once more *)
  let! _ := rfold (fun _ b => let! _ := get_consistent_hash_mapping c b in Ok tt)
              (seqZ 0 N_BUCKET) tt in
  Ok c.

(** reset_consistent_hash_mapping; the arrays it deletes are not reachable any more *)
Definition reset_consistent_hash_mapping (c : cacheCluster) : cacheCluster :=
  set_mappings ∅ (ch_mapping c) (ori_lead_mapping c) c.

Definition set_availability (b : bool) (c : cacheCluster) (i d : Z) : result cacheCluster :=
  let! s := arr_upd (set_s_available b) (cache_servers c) i in
  let c := set_cache_servers s c in
  Ok (set_cluster_stat (set_n_avail (u64 (n_avail_server (cluster_stat c) + d)) (cluster_stat c)) c).

(** fail_one_server and recover_one_server return is_available() *)
Definition fail_one_server (c : cacheCluster) (server_id : Z) : result (bool * cacheCluster) :=
  let c := reset_consistent_hash_mapping c in
  let! c := set_availability false c server_id (- 1) in Ok (false, c).

Definition recover_one_server (c : cacheCluster) (server_id : Z) : result (bool * cacheCluster) :=
  let! s := arr_get (cache_servers c) server_id in
  if is_available s then Ok (true, c)
  else
    let c := reset_consistent_hash_mapping c in
    let! c := set_availability true c server_id 1 in Ok (true, c).

Definition get_num_copy_in_cluster (c : cacheCluster) (req : request)
    : result (Z * cacheCluster * request) :=
  rfold (fun '(n_copy, c, req) i =>
           let! '((found, _), c, req) := cl_check c i req in
           Ok (if (found : bool) then n_copy + 1 else n_copy, c, req))
    (seqZ 0 (Z.of_nat (length (cache_servers c)))) (0, c, req).

(** The constructor, on servers and a ring that have been created. *)
Definition cacheCluster_init (p : cluster_params_t) (ec : EC_params_t) (ring : ring_t)
    (servers : list cacheServer) : result cacheCluster :=
  let zeros := replicate (Z.to_nat (cp_n_server p)) 0 in
  populate_hash_mapping
    (Cluster p ec ring servers ∅ ∅ ∅ [] ∅ (ClusterHit false false false 0 0 0)
       (ClusterStat (cp_n_server p) 0 0 0 0 0 0 0 0 (replicate (Z.to_nat (ec_n ec)) 0) 0 0)
       (replicate (Z.to_nat (cp_n_server p)) (BucketStat 0 0 0 0)) zeros zeros 0).

End cluster.
