(* ===== verification/CacheClusterSpec.v ===== *)
(** * The cluster: its state and the outcome of its calls of servers

    A view of a server is its capacity, the entries of its cache and their metadata; the
    cluster is related to the list of the views of its servers.  Every operation on one
    server changes the view of that server only. *)

From S2P Require Import Prelude Store Cache CacheSpec Policies.
From S2P Require Import ConsistentHash CacheServer CacheServerSpec CacheCluster.

Lemma arr_get_nat {A} (l : list A) (i : nat) x : l !! i = Some x -> arr_get l (Z.of_nat i) = Ok x.
Proof. intros H. unfold arr_get. destruct (Z.ltb_spec (Z.of_nat i) 0); [lia|]. by rewrite Nat2Z.id, H. Qed.

Lemma arr_get_lookup {A} (l : list A) (i : Z) x :
  0 <= i -> l !! Z.to_nat i = Some x -> arr_get l i = Ok x.
Proof. intros Hi Hx. rewrite <- (arr_get_nat l (Z.to_nat i) x Hx). f_equal. lia. Qed.

Lemma arr_get_Z {A} (l : list A) (i : Z) :
  0 <= i < Z.of_nat (length l) -> exists x, l !! Z.to_nat i = Some x /\ arr_get l i = Ok x.
Proof.
  intros Hi. destruct (lookup_lt_is_Some_2 l (Z.to_nat i)) as [x Hx]; [lia|].
  exists x. split; [done|]. rewrite <- (arr_get_nat l (Z.to_nat i) x Hx). f_equal. lia.
Qed.

Lemma arr_upd_Z {A} (f : A -> A) (l : list A) (i : Z) x :
  0 <= i -> l !! Z.to_nat i = Some x -> arr_upd f l i = Ok (<[Z.to_nat i := f x]> l).
Proof.
  intros Hi Hx. unfold arr_upd. pose proof (lookup_lt_Some _ _ _ Hx).
  destruct (arr_get_Z l i) as (y & Hy & ->); [lia|]. cbn [rbind]. congruence.
Qed.

Lemma arr_upd_ok {A} (f : A -> A) (l : list A) (i : Z) :
  0 <= i < Z.of_nat (length l) -> exists l', arr_upd f l i = Ok l' /\ length l' = length l.
Proof.
  intros Hi. destruct (arr_get_Z l i Hi) as (x & Hx & _).
  exists (<[Z.to_nat i := f x]> l). split; [apply arr_upd_Z; [lia|done]|apply length_insert].
Qed.

(** ** Views *)

Record view := View { v_cap : Z; v_entries : list entry; v_meta : Z -> Z }.

Definition has (id : Z) (v : view) : bool := cached id (v_entries v).

(** The chunk number a server holds for an object. *)
Definition held (id : Z) (v : view) : option Z :=
  if has id v then Some (get_u8 1 (v_meta v id)) else None.

Definition held_at (V : list view) (id : Z) (x : Z) : option Z := V !! Z.to_nat x ≫= held id.

(** What storing the object [id] may do to a server: make room by evicting others. *)
Record view_step (id : Z) (v v' : view) : Prop := {
  vs_cap : v_cap v' = v_cap v;
  vs_other j : j <> id -> has j v' = true -> has j v = true /\ v_meta v' j = v_meta v j
}.

#[export] Instance view_step_preorder id : PreOrder (view_step id).
Proof.
  split.
  - by split.
  - intros v1 v2 v3 [C1 H1] [C2 H2]. split; [congruence|]. intros j Hj Hh.
    destruct (H2 j Hj Hh) as [Hh2 ->]. by apply H1.
Qed.

Definition views_step (id : Z) : list view -> list view -> Prop := Forall2 (view_step id).

#[export] Instance views_step_preorder id : PreOrder (views_step id).
Proof.
  split.
  - intros V. induction V; by constructor.
  - intros V1 V2 V3 H. revert V3. induction H as [|x y l l' Hxy H IH]; intros V3 H2; [done|].
    apply Forall2_cons_inv_l in H2 as (z & l2 & Hyz & H2 & ->).
    constructor; [by etrans|by apply IH].
Qed.

Lemma views_step_caps id V V' : views_step id V V' -> v_cap <$> V' = v_cap <$> V.
Proof. induction 1 as [|v v' V V' [Hc _] _ IH]; [done|]. rewrite !fmap_cons. by f_equal. Qed.

Lemma views_step_insert id V x v v' :
  V !! x = Some v -> view_step id v v' -> views_step id V (<[x := v']> V).
Proof.
  intros Hv Hs. rewrite <- (list_insert_id V x v) at 1 by done. apply Forall2_insert; [|done].
  change (views_step id V V). reflexivity.
Qed.

(** Two requests for the same object with the same size and routing. *)
Record req_like (hash : Z -> Z) (r r' : request) : Prop := {
  rl_id : req_obj_id_int r' = req_obj_id_int r;
  rl_size : req_obj_size r' = req_obj_size r;
  rl_field1 : req_extra_field1 r' = req_extra_field1 r;
  rl_hv : hv_ok hash r'
}.

(** What the calls of servers leave alone: everything but the caches, the counters of the
    servers and the contents of the load arrays. *)
Record cl_same (c c' : cacheCluster) : Prop := {
  cs_servers : Forall2 srv_same (cache_servers c) (cache_servers c');
  cs_rload : length (read_load_byte c') = length (read_load_byte c);
  cs_wload : length (write_load_byte c') = length (write_load_byte c);
  cs_rest : c' = set_loads (read_load_byte c') (write_load_byte c')
                   (set_cache_servers (cache_servers c') c)
}.

Lemma srv_same_refl_list l : Forall2 srv_same l l.
Proof. induction l; by constructor. Qed.

Lemma forall2_srv_trans l1 l2 l3 :
  Forall2 srv_same l1 l2 -> Forall2 srv_same l2 l3 -> Forall2 srv_same l1 l3.
Proof.
  intros H. revert l3. induction H as [|x y l l' Hxy S1 IH]; intros l3 S2.
  - inversion S2. constructor.
  - apply Forall2_cons_inv_l in S2 as (z & l2 & Hyz & S2 & ->).
    constructor; [by eapply srv_same_trans|by apply IH].
Qed.

#[export] Instance cl_same_preorder : PreOrder cl_same.
Proof.
  split.
  - intros c. split; [apply srv_same_refl_list|done|done|by destruct c].
  - intros c1 c2 c3 [S1 R1 W1 E1] [S2 R2 W2 E2]. split; [|congruence|congruence|].
    + by eapply forall2_srv_trans.
    + rewrite E2 at 1. by rewrite E1.
Qed.

Lemma cl_same_params c c' : cl_same c c' ->
  cluster_params c' = cluster_params c /\ ec_params c' = ec_params c /\
  cluster_check c' = cluster_check c /\ cluster_stat c' = cluster_stat c /\
  bucket_stat c' = bucket_stat c /\ prev_ch_mapping c' = prev_ch_mapping c.
Proof. intros [_ _ _ ->]. done. Qed.

(** The counters of requests and hits. *)
Definition counts (s : cacheClusterStat) : Z * Z * Z * Z * Z * (Z * Z * Z * Z) :=
  (n_avail_server s, cluster_req_cnt s, cluster_req_bytes s, cluster_hit_cnt s, cluster_hit_bytes s,
   (full_obj_hit_cnt s, full_obj_hit_bytes s, chunk_obj_hit_cnt s, chunk_obj_hit_bytes s)).

(** What requests leave alone: the configuration, the mappings, the availability of the
    servers and the sizes of the arrays of counters. *)
Record cl_kept (c c' : cacheCluster) : Prop := {
  kp_servers : Forall2 srv_same (cache_servers c) (cache_servers c');
  kp_params : cluster_params c' = cluster_params c;
  kp_ec : ec_params c' = ec_params c;
  kp_ring : ring c' = ring c;
  kp_mapping : ch_mapping c' = ch_mapping c;
  kp_prev : prev_ch_mapping c' = prev_ch_mapping c;
  kp_lead : ori_lead_mapping c' = ori_lead_mapping c;
  kp_rload : length (read_load_byte c') = length (read_load_byte c);
  kp_wload : length (write_load_byte c') = length (write_load_byte c);
  kp_n_miss : length (n_miss (cluster_stat c')) = length (n_miss (cluster_stat c));
  kp_bucket : length (bucket_stat c') = length (bucket_stat c)
}.

#[export] Instance cl_kept_preorder : PreOrder cl_kept.
Proof.
  split.
  - intros c. split; try done. apply srv_same_refl_list.
  - intros c1 c2 c3 [] []. split; try congruence. by eapply forall2_srv_trans.
Qed.

Lemma cl_same_kept c c' : cl_same c c' -> cl_kept c c'.
Proof. intros [? ? ? ->]. by split. Qed.

Lemma cl_same_servers c s : Forall2 srv_same (cache_servers c) s -> cl_same c (set_cache_servers s c).
Proof. by split. Qed.

Lemma cl_same_insert c i s s' :
  cache_servers c !! i = Some s -> srv_same s s' ->
  cl_same c (set_cache_servers (<[i := s']> (cache_servers c)) c).
Proof.
  intros Hs Hss. apply cl_same_servers.
  rewrite <- (list_insert_id (cache_servers c) i s) at 1 by done.
  apply Forall2_insert; [apply srv_same_refl_list|done].
Qed.

Lemma read_load_same i b c :
  0 <= i < Z.of_nat (length (read_load_byte c)) ->
  exists c', read_load i b c = Ok c' /\ cl_same c c' /\ cache_servers c' = cache_servers c.
Proof.
  intros Hi. destruct (arr_upd_ok (fun x => u64 (x + b)) _ i Hi) as (l & E & Hl).
  unfold read_load. rewrite E. cbn [rbind]. eexists. split; [done|]. split; [|done].
  split; [apply srv_same_refl_list|done|done|done].
Qed.

Lemma write_load_same i b c :
  0 <= i < Z.of_nat (length (write_load_byte c)) ->
  exists c', write_load i b c = Ok c' /\ cl_same c c' /\ cache_servers c' = cache_servers c.
Proof.
  intros Hi. destruct (arr_upd_ok (fun x => u64 (x + b)) _ i Hi) as (l & E & Hl).
  unfold write_load. rewrite E. cbn [rbind]. eexists. split; [done|]. split; [|done].
  split; [apply srv_same_refl_list|done|done|done].
Qed.

Section cluster.
  Variable hash : Z -> Z.

(** [n]: the lookups each server still has room for *)
Definition cl_rel (n : Z) (c : cacheCluster) (V : list view) : Prop :=
  Forall2 (fun s v => srv_rel hash n (v_cap v) (v_entries v) (v_meta v) s) (cache_servers c) V.

Definition is_up (c : cacheCluster) (x : Z) : bool :=
  match cache_servers c !! Z.to_nat x with Some s => s_available s | None => false end.

Definition up (c : cacheCluster) (x : Z) : Prop := 0 <= x /\ is_up c x = true.

Lemma cl_rel_le n m c V : m <= n -> cl_rel n c V -> cl_rel m c V.
Proof. intros Hle H. eapply Forall2_impl; [exact H|]. intros s v. by apply srv_rel_le. Qed.

Lemma cl_rel_same n c c' V : cache_servers c' = cache_servers c -> cl_rel n c V -> cl_rel n c' V.
Proof. intros H. unfold cl_rel. by rewrite H. Qed.

Lemma is_up_servers c c' x :
  Forall2 srv_same (cache_servers c) (cache_servers c') -> is_up c' x = is_up c x.
Proof.
  intros HS. unfold is_up. destruct (cache_servers c !! Z.to_nat x) as [s|] eqn:Hs.
  - by destruct (Forall2_lookup_l _ _ _ _ _ HS Hs) as (s' & -> & _ & _ & E).
  - apply lookup_ge_None in Hs. rewrite (Forall2_length _ _ _ HS) in Hs.
    by rewrite (lookup_ge_None_2 _ _ Hs).
Qed.

Lemma is_up_same c c' x : cl_same c c' -> is_up c' x = is_up c x.
Proof. intros HS. apply is_up_servers, HS. Qed.

Lemma up_same c c' x : cl_same c c' -> up c x -> up c' x.
Proof. intros HS [Hx Ha]. split; [done|]. by rewrite (is_up_same c c'). Qed.

Lemma cl_rel_server n c V x v : cl_rel n c V -> V !! Z.to_nat x = Some v ->
  exists s, cache_servers c !! Z.to_nat x = Some s /\ s_available s = is_up c x /\
    srv_rel hash n (v_cap v) (v_entries v) (v_meta v) s.
Proof.
  intros HR Hv. destruct (Forall2_lookup_r _ _ _ _ _ HR Hv) as (s & Hs & Hsv).
  exists s. split_and!; [done| |done]. unfold is_up. by rewrite Hs.
Qed.

Lemma req_like_refl r : hv_ok hash r -> req_like hash r r.
Proof. by split. Qed.

Lemma req_like_trans r r' r'' : req_like hash r r' -> req_like hash r' r'' -> req_like hash r r''.
Proof. intros [] []. split; congruence || done. Qed.

Lemma req_like_hv r : req_like hash r (set_req_hv (hash (req_obj_id_int r)) r).
Proof. split; try done. by right. Qed.

Lemma req_like_host r i : req_like hash r (set_req_hv (hash (req_obj_id_int r)) (set_curr_host_id i r)).
Proof. split; try done. by right. Qed.

(** A call of one server. *)
Lemma at_server_spec {A} n m c V x v s (f : cacheServer -> result (A * cacheServer * request)) out s' r' v' :
  cl_rel n c V -> m <= n -> 0 <= x -> V !! Z.to_nat x = Some v -> cache_servers c !! Z.to_nat x = Some s ->
  f s = Ok (out, s', r') -> srv_same s s' ->
  srv_rel hash m (v_cap v') (v_entries v') (v_meta v') s' ->
  exists c', at_server c x f = Ok (out, c', r') /\
    cl_rel m c' (<[Z.to_nat x := v']> V) /\ cl_same c c'.
Proof.
  intros HR Hm Hx Hv Hs E Hsame HR'. unfold at_server.
  rewrite (arr_get_lookup _ _ _ Hx Hs). cbn [rbind]. rewrite E. cbn [rbind].
  eexists. split; [done|]. split.
  - apply Forall2_insert; [|done]. by eapply cl_rel_le in HR.
  - by eapply cl_same_insert.
Qed.

(** check finds the object on a server that is up and has it *)
Lemma cl_check_spec n c V x v r :
  0 <= n -> cl_rel (n + 1) c V -> 0 <= x -> V !! Z.to_nat x = Some v -> hv_ok hash r ->
  let id := req_obj_id_int r in
  let found := is_up c x && has id v in
  exists c' r', cl_check hash c x r =
      Ok ((found, if found then Some (get_u8 0 (v_meta v id)) else None), c', r') /\
    cl_rel n c' V /\ cl_same c c' /\ req_like hash r r'.
Proof.
  intros Hn HR Hx Hv Hhv id. destruct (cl_rel_server _ _ _ _ _ HR Hv) as (s & Hs & Ha & Hsv).
  unfold cl_check. rewrite <- Ha. destruct (s_available s) eqn:Hav.
  - destruct (srv_check_spec hash n _ _ _ s r Hn Hsv Hav Hhv) as (s' & E & Hs' & Hsame).
    destruct (at_server_spec (n + 1) n c V x v s
      (fun s => let! '(b, t, s, req) := srv_check hash s r in Ok ((b, t), s, req))
      (has id v, if has id v then Some (get_u8 0 (v_meta v id)) else None) s'
      (set_req_hv (hash id) r) v) as (c' & E' & HR' & Hsame'); try done; [lia|by rewrite E|].
    exists c'. eexists. split; [exact E'|].
    rewrite list_insert_id in HR' by done. split_and!; [done|done|apply req_like_hv].
  - destruct (at_server_spec (n + 1) n c V x v s
      (fun s => let! '(b, t, s, req) := srv_check hash s r in Ok ((b, t), s, req))
      (false, None) s r v) as (c' & E' & HR' & Hsame'); try done; [lia|by rewrite srv_check_down| |].
    { eapply srv_rel_le; [|done]. lia. }
    exists c'. eexists. split; [exact E'|].
    rewrite list_insert_id in HR' by done. split_and!; [done|done|by apply req_like_refl].
Qed.

Lemma cl_get_chunk_id_spec n c V x v r :
  0 <= n -> cl_rel (n + 1) c V -> 0 <= x -> V !! Z.to_nat x = Some v -> hv_ok hash r ->
  let id := req_obj_id_int r in
  has id v = true ->
  exists c' r', cl_get_chunk_id hash c x r = Ok (get_u8 1 (v_meta v id), c', r') /\
    cl_rel n c' V /\ cl_same c c' /\ req_like hash r r'.
Proof.
  intros Hn HR Hx Hv Hhv id Hh. destruct (cl_rel_server _ _ _ _ _ HR Hv) as (s & Hs & _ & Hsv).
  destruct (get_chunk_id_spec hash n _ _ _ s r Hn Hsv Hhv Hh) as (s' & E & Hs' & Hsame).
  destruct (at_server_spec (n + 1) n c V x v s (fun s => get_chunk_id hash s r)
    (get_u8 1 (v_meta v id)) s' (set_req_hv (hash id) r) v)
    as (c' & E' & HR' & Hsame'); try done; [lia|].
  exists c'. eexists. split; [exact E'|].
  rewrite list_insert_id in HR' by done. split_and!; [done|done|apply req_like_hv].
Qed.

Lemma cl_get_spec n c V x v r t :
  0 <= n -> cl_rel (n + 2) c V -> up c x -> V !! Z.to_nat x = Some v -> hv_ok hash r ->
  0 < req_obj_size r < 2 ^ 32 -> req_obj_size r <= v_cap v -> t = main_cache \/ t = unknown_cache ->
  let id := req_obj_id_int r in
  exists c' r' v', cl_get hash c x r t = Ok (has id v, c', r') /\
    cl_rel n c' (<[Z.to_nat x := v']> V) /\ cl_same c c' /\ req_like hash r r' /\
    has id v' = true /\ view_step id v v' /\ (has id v = true -> v_meta v' = v_meta v).
Proof.
  intros Hn HR [Hx Hav] Hv Hhv Hsz Hfit Ht id.
  destruct (cl_rel_server _ _ _ _ _ HR Hv) as (s & Hs & Ha & Hsv).
  destruct (srv_get_spec hash n _ _ _ s r t Hn Hsv ltac:(congruence) Hhv Hsz Hfit Ht)
    as (s1 & a1 & E1 & HR1 & Hsame1 & Hc1 & Ho1). fold id in E1, HR1, Hc1, Ho1.
  destruct (at_server_spec (n + 2) n c V x v s (fun s => srv_get hash s r t) (has id v) s1
    (set_req_hv (hash id) (set_curr_host_id (sp_server_id (server_params s)) r))
    (View (v_cap v) a1 (if cached id (v_entries v) then v_meta v else meta_zero id (v_meta v))))
    as (c' & E' & HR' & Hsame'); try done; [lia|].
  do 3 eexists. split; [exact E'|]. split; [exact HR'|]. split_and!; [done|apply req_like_host|done| |].
  - split; [done|]. intros j Hj Hh. split; [by apply Ho1|]. cbn [v_meta].
    destruct (cached id _); [done|]. unfold meta_zero. by destruct (Z.eqb_spec j id).
  - unfold has. cbn [v_meta]. by intros ->.
Qed.

Lemma cl_set_chunk_id_spec n c V x v r k :
  0 <= n -> cl_rel (n + 1) c V -> 0 <= x -> V !! Z.to_nat x = Some v -> hv_ok hash r ->
  let id := req_obj_id_int r in
  has id v = true ->
  exists c' r', cl_set_chunk_id hash c x r k = Ok (c', r') /\
    cl_rel n c' (<[Z.to_nat x := View (v_cap v) (v_entries v)
                     (meta_set id (chunk_meta k (v_meta v id)) (v_meta v))]> V) /\
    cl_same c c' /\ req_like hash r r'.
Proof.
  intros Hn HR Hx Hv Hhv id Hh. destruct (cl_rel_server _ _ _ _ _ HR Hv) as (s & Hs & _ & Hsv).
  destruct (set_chunk_id_spec hash n _ _ _ s r k Hn Hsv Hhv Hh) as (s' & E & Hs' & Hsame).
  destruct (at_server_spec (n + 1) n c V x v s
    (fun s => let! '(s, req) := set_chunk_id hash s r k in Ok (tt, s, req)) tt s'
    (set_req_hv (hash id) r)
    (View (v_cap v) (v_entries v) (meta_set id (chunk_meta k (v_meta v id)) (v_meta v))))
    as (c' & E' & HR' & Hsame'); try done; [lia|by rewrite E|].
  unfold cl_set_chunk_id. rewrite E'. cbn [rbind]. exists c'. eexists. split; [done|].
  split_and!; [done|done|apply req_like_hv].
Qed.

(** Writing the metadata of the object leaves the others alone. *)
Lemma view_step_meta id v v1 x :
  view_step id v v1 -> view_step id v (View (v_cap v1) (v_entries v1) (meta_set id x (v_meta v1))).
Proof.
  intros H. etrans; [exact H|]. split; [done|]. intros j Hj Hh. split; [done|].
  cbn [v_meta]. by apply meta_set_ne.
Qed.

(** get, then set_chunk_id: the server holds the chunk *)
Lemma store_chunk_spec n c V x v r t k :
  0 <= n -> cl_rel (n + 3) c V -> up c x -> V !! Z.to_nat x = Some v -> hv_ok hash r ->
  0 < req_obj_size r < 2 ^ 32 -> req_obj_size r <= v_cap v -> t = main_cache \/ t = unknown_cache ->
  0 <= k < 256 ->
  let id := req_obj_id_int r in
  exists c' r' v', store_chunk hash t c x r k = Ok (c', r') /\
    cl_rel n c' (<[Z.to_nat x := v']> V) /\ cl_same c c' /\ req_like hash r r' /\
    held id v' = Some k /\ get_u8 0 (v_meta v' id) = chunk_obj /\ view_step id v v'.
Proof.
  intros Hn HR Hup Hv Hhv Hsz Hfit Ht Hk id.
  destruct (cl_get_spec (n + 1) c V x v r t) as (c1 & r1 & v1 & E1 & HR1 & Hs1 & Hr1 & Hh1 & Hc1 & _);
    [lia|by replace (n + 1 + 2) with (n + 3) by lia|done..|].
  unfold store_chunk. rewrite E1. cbn [rbind].
  pose proof (lookup_lt_Some _ _ _ Hv).
  destruct (cl_set_chunk_id_spec n c1 (<[Z.to_nat x := v1]> V) x v1 r1 k)
    as (c2 & r2 & E2 & HR2 & Hs2 & Hr2); [done|done|apply Hup| |apply Hr1| |].
  { by rewrite list_lookup_insert_eq. }
  { by rewrite (rl_id _ _ _ Hr1). }
  rewrite E2. rewrite list_insert_insert_eq in HR2. rewrite (rl_id _ _ _ Hr1) in HR2. fold id in HR2.
  do 2 eexists. eexists. split; [done|]. split; [exact HR2|].
  split_and!; [by etrans|by eapply req_like_trans| | |].
  - unfold held. cbn [v_meta]. rewrite meta_set_eq, chunk_meta_id by done.
    unfold has in *. cbn [v_entries]. fold id in Hh1. by rewrite Hh1.
  - cbn [v_meta]. rewrite meta_set_eq. apply chunk_meta_type.
  - by apply view_step_meta.
Qed.

Lemma cl_set_obj_type_spec n c V x v r k :
  0 <= n -> cl_rel (n + 1) c V -> 0 <= x -> V !! Z.to_nat x = Some v -> hv_ok hash r ->
  let id := req_obj_id_int r in
  has id v = true ->
  exists c' r', cl_set_obj_type hash c x r k = Ok (c', r') /\
    cl_rel n c' (<[Z.to_nat x := View (v_cap v) (v_entries v)
                     (meta_set id (set_u8 0 (u8 k) (v_meta v id)) (v_meta v))]> V) /\
    cl_same c c' /\ req_like hash r r'.
Proof.
  intros Hn HR Hx Hv Hhv id Hh. destruct (cl_rel_server _ _ _ _ _ HR Hv) as (s & Hs & _ & Hsv).
  destruct (set_obj_type_spec hash n _ _ _ s r k Hn Hsv Hhv Hh) as (s' & E & Hs' & Hsame).
  destruct (at_server_spec (n + 1) n c V x v s
    (fun s => let! '(s, req) := set_obj_type hash s r k in Ok (tt, s, req)) tt s'
    (set_req_hv (hash id) r)
    (View (v_cap v) (v_entries v) (meta_set id (set_u8 0 (u8 k) (v_meta v id)) (v_meta v))))
    as (c' & E' & HR' & Hsame'); try done; [lia|by rewrite E|].
  unfold cl_set_obj_type. rewrite E'. cbn [rbind]. exists c'. eexists. split; [done|].
  split_and!; [done|done|apply req_like_hv].
Qed.

(** get, then set_obj_type: the server holds the whole object *)
Lemma store_full_spec n c V x v r t :
  0 <= n -> cl_rel (n + 3) c V -> up c x -> V !! Z.to_nat x = Some v -> hv_ok hash r ->
  0 < req_obj_size r < 2 ^ 32 -> req_obj_size r <= v_cap v -> t = main_cache \/ t = unknown_cache ->
  let id := req_obj_id_int r in
  exists c' r' v', store_full hash t c x r = Ok (c', r') /\
    cl_rel n c' (<[Z.to_nat x := v']> V) /\ cl_same c c' /\ req_like hash r r' /\
    has id v' = true /\ get_u8 0 (v_meta v' id) = full_obj /\ view_step id v v'.
Proof.
  intros Hn HR Hup Hv Hhv Hsz Hfit Ht id.
  destruct (cl_get_spec (n + 1) c V x v r t) as (c1 & r1 & v1 & E1 & HR1 & Hs1 & Hr1 & Hh1 & Hc1 & _);
    [lia|by replace (n + 1 + 2) with (n + 3) by lia|done..|].
  unfold store_full. rewrite E1. cbn [rbind].
  pose proof (lookup_lt_Some _ _ _ Hv).
  destruct (cl_set_obj_type_spec n c1 (<[Z.to_nat x := v1]> V) x v1 r1 full_obj)
    as (c2 & r2 & E2 & HR2 & Hs2 & Hr2); [done|done|apply Hup| |apply Hr1| |].
  { by rewrite list_lookup_insert_eq. }
  { by rewrite (rl_id _ _ _ Hr1). }
  rewrite E2. rewrite list_insert_insert_eq in HR2. rewrite (rl_id _ _ _ Hr1) in HR2. fold id in HR2.
  do 2 eexists. eexists. split; [done|]. split; [exact HR2|].
  split_and!; [by etrans|by eapply req_like_trans|done| |].
  - cbn [v_meta]. rewrite meta_set_eq. apply full_meta_type.
  - by apply view_step_meta.
Qed.
End cluster.
