(* ===== verification/CacheClusterThms.v ===== *)
(** * The cluster: the chunks of an object

    What a miss stores and what a hit restores: after either, the first n servers of the
    object's bucket hold its n different chunks. *)

From Stdlib Require Import Floats.SpecFloat.
From S2P Require Import Prelude Store HashTable HashTableSpec Cache CacheSpec Policies.
From S2P Require Import ConsistentHash CacheServer CacheServerSpec CacheCluster CacheClusterSpec.

(** ** Lists of positions *)

Lemma filter_add (P Q : Z -> Prop) `{!forall x, Decision (P x), !forall x, Decision (Q x)} (x : Z) l :
  NoDup l -> x ∈ l -> ~ P x -> (forall y, y ∈ l -> Q y <-> P y \/ y = x) ->
  filter Q l ≡ₚ x :: filter P l.
Proof.
  intros Hnd Hx HP HQ. apply NoDup_Permutation.
  - by apply NoDup_filter.
  - apply NoDup_cons. split; [|by apply NoDup_filter]. rewrite list_elem_of_filter. tauto.
  - intros y. rewrite elem_of_cons, !list_elem_of_filter. split.
    + intros [HQy Hy]. apply HQ in HQy; [|done]. tauto.
    + intros [->|[? ?]]; (split; [apply HQ; tauto|done]).
Qed.

Lemma filter_same (P Q : Z -> Prop) `{!forall x, Decision (P x), !forall x, Decision (Q x)} (l : list Z) :
  (forall y, y ∈ l -> Q y <-> P y) -> filter Q l = filter P l.
Proof.
  intros HQ. induction l as [|y l IH]; [done|]. rewrite !filter_cons.
  rewrite IH by (intros; apply HQ; by right). specialize (HQ y (list_elem_of_here _ _)).
  repeat case_decide; tauto.
Qed.

Lemma filter_every (P : Z -> Prop) `{!forall x, Decision (P x)} (l : list Z) :
  (forall x, x ∈ l -> P x) -> filter P l = l.
Proof.
  induction l as [|x l IH]; intros HP; [done|].
  rewrite filter_cons_True by (apply HP; by left). f_equal. apply IH. intros. apply HP. by right.
Qed.

Lemma filter_nothing (P : Z -> Prop) `{!forall x, Decision (P x)} (l : list Z) :
  (forall x, x ∈ l -> ~ P x) -> filter P l = [].
Proof.
  induction l as [|x l IH]; intros HP; [done|].
  rewrite filter_cons_False by (apply HP; by left). apply IH. intros. apply HP. by right.
Qed.

Lemma filter_full (P : Z -> Prop) `{!forall x, Decision (P x)} (l : list Z) :
  length (filter P l) = length l -> filter P l = l.
Proof.
  induction l as [|x l IH]; intros Hlen; [done|]. rewrite filter_cons in *.
  case_decide; simpl in Hlen; [f_equal; apply IH; lia|].
  pose proof (length_filter P l). lia.
Qed.

(** ** The servers of an object *)

(** the chunk number the p-th server of the bucket holds *)
Definition on (V : list view) (id : Z) (idxs : list Z) (p : Z) : option Z :=
  idxs !! Z.to_nat p ≫= held_at V id.

(** the different chunks among the first n servers *)
Definition distinct (n : Z) (V : list view) (id : Z) (idxs : list Z) : list Z :=
  filter (fun q => Some q ∈ on V id idxs <$> seqZ 0 n) (seqZ 0 n).

(** The first n servers are different and up, and every cache has room for a chunk. *)
Record placed (c : cacheCluster) (V : list view) (n sz : Z) (idxs : list Z) : Prop := {
  pl_n : 0 < n <= MAX_EC_N;
  pl_len : n <= Z.of_nat (length idxs);
  pl_nodup : NoDup (take (Z.to_nat n) idxs);
  pl_up : Forall (up c) (take (Z.to_nat n) idxs);
  pl_lt : Forall (fun x => x < Z.of_nat (length (cache_servers c))) (take (Z.to_nat n) idxs);
  pl_max : Z.of_nat (length (cache_servers c)) <= MAX_N_SERVER;
  pl_rload : length (read_load_byte c) = length (cache_servers c);
  pl_wload : length (write_load_byte c) = length (cache_servers c);
  pl_cap : Forall (fun v => sz <= v_cap v) V;
  pl_sz : 0 < sz < 2 ^ 32
}.

Section placed.
  Context {hash : Z -> Z} {c : cacheCluster} {V : list view} {n sz : Z} {idxs : list Z}.
  Hypothesis P : placed c V n sz idxs.

Lemma placed_slot m p : cl_rel hash m c V -> 0 <= p < n ->
  exists x v, idxs !! Z.to_nat p = Some x /\ arr_get idxs p = Ok x /\ up c x /\
    0 <= x < Z.of_nat (length (cache_servers c)) /\ V !! Z.to_nat x = Some v /\ sz <= v_cap v.
Proof using P.
  intros HR Hp. pose proof (pl_len _ _ _ _ _ P).
  destruct (lookup_lt_is_Some_2 idxs (Z.to_nat p)) as [x Hx]; [lia|].
  assert (take (Z.to_nat n) idxs !! Z.to_nat p = Some x) as Ht by (rewrite lookup_take_lt by lia; done).
  pose proof (Forall_lookup_1 _ _ _ _ (pl_up _ _ _ _ _ P) Ht) as Hup.
  pose proof (Forall_lookup_1 _ _ _ _ (pl_lt _ _ _ _ _ P) Ht) as Hlt. simpl in Hlt.
  destruct (lookup_lt_is_Some_2 V (Z.to_nat x)) as [v Hv].
  { rewrite <- (Forall2_length _ _ _ HR). destruct Hup. lia. }
  exists x, v. split_and!; [done|by apply arr_get_lookup; [lia|]|exact Hup|apply Hup|done|done|].
  by apply (Forall_lookup_1 _ _ _ _ (pl_cap _ _ _ _ _ P) Hv).
Qed.

Lemma placed_inj p p' x : 0 <= p < n -> 0 <= p' < n ->
  idxs !! Z.to_nat p = Some x -> idxs !! Z.to_nat p' = Some x -> p = p'.
Proof using P.
  intros Hp Hp' E E'.
  enough (Z.to_nat p = Z.to_nat p') by lia.
  apply (NoDup_lookup (take (Z.to_nat n) idxs) _ _ x (pl_nodup _ _ _ _ _ P));
    rewrite lookup_take_lt by lia; done.
Qed.

Lemma on_insert id m p x v p' : cl_rel hash m c V ->
  0 <= p < n -> 0 <= p' < n -> idxs !! Z.to_nat p = Some x ->
  on (<[Z.to_nat x := v]> V) id idxs p' = if p' =? p then held id v else on V id idxs p'.
Proof using P.
  intros HR Hp Hp' Hx. unfold on.
  destruct (placed_slot m p' HR Hp') as (y & w & Hy & _ & Hupy & _ & Hw & _). rewrite Hy. simpl.
  destruct (placed_slot m p HR Hp) as (x' & w' & Hx' & _ & Hup & _ & Hw' & _). simplify_eq.
  unfold held_at. destruct (Z.eqb_spec p' p) as [->|Hne].
  - simplify_eq. rewrite list_lookup_insert_eq by (by eapply lookup_lt_Some). done.
  - rewrite list_lookup_insert_ne; [done|]. intros E. apply Hne.
    eapply (placed_inj p' p x); try done. rewrite Hy. f_equal. destruct Hupy, Hup. lia.
Qed.

Lemma placed_same c' V' : cl_same c c' -> v_cap <$> V' = v_cap <$> V -> placed c' V' n sz idxs.
Proof using P.
  intros HS HV. destruct P. pose proof (Forall2_length _ _ _ (cs_servers _ _ HS)) as Hl.
  split; try done.
  - eapply Forall_impl; [exact pl_up0|]. intros x. by apply up_same.
  - by rewrite <- Hl.
  - by rewrite <- Hl.
  - by rewrite (cs_rload _ _ HS), <- Hl.
  - by rewrite (cs_wload _ _ HS), <- Hl.
  - apply Forall_fmap with (f := v_cap) (P := fun k => sz <= k). rewrite HV. by apply Forall_fmap.
Qed.
End placed.

Lemma filter_some_missing (P : Z -> Prop) `{!forall x, Decision (P x)} (l : list Z) :
  (length (filter P l) < length l)%nat -> exists x, x ∈ l /\ ~ P x.
Proof.
  induction l as [|x l IH]; intros Hlen; [simpl in Hlen; lia|]. rewrite filter_cons in Hlen.
  case_decide as HP; simpl in Hlen; [|exists x; split; [by left|done]].
  destruct IH as (y & Hy & HPy); [lia|]. exists y. split; [by right|done].
Qed.

(** Two lists of views that differ at the servers of the object only. *)
Definition agree_off (n : Z) (idxs : list Z) (V V' : list view) : Prop :=
  forall y : nat, Z.of_nat y ∉ take (Z.to_nat n) idxs -> V' !! y = V !! y.

Lemma agree_off_refl n idxs V : agree_off n idxs V V.
Proof. done. Qed.
Lemma agree_off_trans n idxs V V' V'' :
  agree_off n idxs V V' -> agree_off n idxs V' V'' -> agree_off n idxs V V''.
Proof. intros H H' y Hy. by rewrite H', H. Qed.

(** Whatever is cached of the object is a chunk. *)
Definition chunks_only (id : Z) (V : list view) : Prop :=
  Forall (fun v => has id v = true -> get_u8 0 (v_meta v id) = chunk_obj) V.

(** What storing chunks of the object may do to the servers. *)
Record chunk_step (id : Z) (V V' : list view) : Prop := {
  ck_step : views_step id V V';
  ck_kind : chunks_only id V -> chunks_only id V'
}.

#[export] Instance chunk_step_preorder id : PreOrder (chunk_step id).
Proof.
  split; [by split|]. intros V1 V2 V3 [S1 K1] [S2 K2]. split; [by etrans|tauto].
Qed.

Lemma chunk_step_caps id V V' : chunk_step id V V' -> v_cap <$> V' = v_cap <$> V.
Proof. intros [HS _]. by eapply views_step_caps. Qed.

Lemma chunk_step_insert id V x v v' :
  V !! x = Some v -> view_step id v v' -> get_u8 0 (v_meta v' id) = chunk_obj ->
  chunk_step id V (<[x := v']> V).
Proof.
  intros Hv Hs Hk. split; [by eapply views_step_insert|]. intros HV. by apply Forall_insert.
Qed.

(** The state after some chunks have been stored. *)
Record stored hash (m : Z) (c : cacheCluster) (r : request) (V : list view) (n : Z) (idxs : list Z)
    (c' : cacheCluster) (r' : request) (V' : list view) : Prop := {
  st_rel : cl_rel hash m c' V';
  st_same_cl : cl_same c c';
  st_step : chunk_step (req_obj_id_int r) V V';
  st_req : req_like hash r r';
  st_off : agree_off n idxs V V'
}.

Lemma stored_init hash m c r V n idxs : cl_rel hash m c V -> hv_ok hash r ->
  stored hash m c r V n idxs c r V.
Proof.
  intros HR Hhv.
  split; [done|reflexivity|reflexivity|by apply req_like_refl|apply agree_off_refl].
Qed.

Lemma stored_le hash m m' c r V n idxs c' r' V' : m' <= m ->
  stored hash m c r V n idxs c' r' V' -> stored hash m' c r V n idxs c' r' V'.
Proof. intros Hm []. split; try done. by eapply cl_rel_le. Qed.

Lemma stored_trans hash m m' c r V n idxs c1 r1 V1 c2 r2 V2 :
  stored hash m c r V n idxs c1 r1 V1 -> stored hash m' c1 r1 V1 n idxs c2 r2 V2 ->
  stored hash m' c r V n idxs c2 r2 V2.
Proof.
  intros [] []. split; [done|by etrans| |by eapply req_like_trans|by eapply agree_off_trans].
  rewrite (rl_id _ _ _ st_req0) in st_step1. by etrans.
Qed.

Lemma stored_caps hash m c r V n idxs c' r' V' :
  stored hash m c r V n idxs c' r' V' -> v_cap <$> V' = v_cap <$> V.
Proof. intros H. eapply chunk_step_caps, st_step, H. Qed.

(** One chunk is stored on the p-th server. *)
Lemma store_slot_spec hash m c r V n idxs t p k :
  placed c V n (req_obj_size r) idxs -> cl_rel hash (m + 3) c V -> 0 <= m -> hv_ok hash r ->
  0 <= p < n -> 0 <= k < 256 -> t = main_cache \/ t = unknown_cache ->
  exists x c' r' V', arr_get idxs p = Ok x /\ 0 <= x < Z.of_nat (length (cache_servers c)) /\
    store_chunk hash t c x r k = Ok (c', r') /\
    stored hash m c r V n idxs c' r' V' /\
    forall p', 0 <= p' < n ->
      on V' (req_obj_id_int r) idxs p' = if p' =? p then Some k else on V (req_obj_id_int r) idxs p'.
Proof.
  intros P HR Hm Hhv Hp Hk Ht.
  destruct (placed_slot P _ p HR Hp) as (x & v & Hx & Hget & Hup & Hxr & Hv & Hcap).
  destruct (store_chunk_spec hash m c V x v r t k) as (c' & r' & v' & E & HR' & HS & Hr & Hh & Hkind & Hc);
    [done|done|done|done|done|apply (pl_sz _ _ _ _ _ P)|done|done|done|].
  exists x, c', r', (<[Z.to_nat x := v']> V). split; [done|]. split; [done|]. split; [done|]. split.
  - split; try done.
    + by eapply chunk_step_insert.
    + intros y Hy. apply list_lookup_insert_ne. intros <-. apply Hy.
      rewrite Z2Nat.id by lia. apply list_elem_of_lookup. exists (Z.to_nat p).
      by rewrite lookup_take_lt by lia.
  - intros p' Hp'. rewrite (on_insert P (req_obj_id_int r) _ p x v' p' HR Hp Hp' Hx). by rewrite Hh.
Qed.

(** ** Restoring the chunks *)

Lemma skip_correct_spec (status : list server_chunk_stat_e) n fuel : forall i,
  n <= Z.of_nat (length status) -> 0 <= i ->
  (exists p, i <= p < n /\ status !! Z.to_nat p <> Some correct_chunk) ->
  (Z.to_nat (n - i) <= fuel)%nat ->
  exists p, skip_correct fuel status i = Ok p /\ i <= p < n /\
    status !! Z.to_nat p <> Some correct_chunk /\
    forall y, i <= y < p -> status !! Z.to_nat y = Some correct_chunk.
Proof.
  induction fuel as [|fuel IH]; intros i Hn Hi (p & Hp & Hs) Hf; [lia|]. cbn [skip_correct].
  destruct (arr_get_Z status i) as (s & Hsi & ->); [lia|]. cbn [rbind].
  destruct (decide (s = correct_chunk)) as [->|Hne].
  - assert (p <> i) by congruence.
    destruct (IH (i + 1)) as (q & -> & Hq & Hsq & Hall); [done|lia|exists p; split; [lia|done]|lia|].
    exists q. split_and!; [done|lia|lia|done|]. intros y Hy.
    destruct (decide (y = i)) as [->|]; [done|apply Hall; lia].
  - exists i. split_and!; [done|lia|lia|congruence|]. intros. lia.
Qed.

Definition good (ci : chunk_info) (p : Z) : Prop :=
  server_chunk_status ci !! Z.to_nat p = Some correct_chunk.
Definition present (ci : chunk_info) (q : Z) : Prop := chunk_cnt ci !! Z.to_nat q <> Some 0.

#[export] Instance good_dec ci p : Decision (good ci p).
Proof. unfold good. apply _. Defined.
#[export] Instance present_dec ci q : Decision (present ci q).
Proof. unfold present. apply _. Defined.

Section restore.
  Context (id n : Z) (idxs : list Z) (ci : chunk_info).

(** [i]: the slots before it are filled; [j]: the chunks before it are stored *)
Definition restored (i j : Z) (V' : list view) : Prop :=
  on V' id idxs <$> filter (fun p => good ci p \/ p < i) (seqZ 0 n)
    ≡ₚ Some <$> filter (fun q => present ci q \/ q < j) (seqZ 0 n).

Lemma restored_free i j V' :
  restored i j V' -> 0 <= i -> 0 <= j < n -> ~ present ci j ->
  exists p, i <= p < n /\ ~ good ci p.
Proof.
  intros HP Hi Hj Hn. apply Permutation_length in HP. rewrite !length_fmap in HP.
  destruct (filter_some_missing (fun p => good ci p \/ p < i) (seqZ 0 n)) as (p & Hp & Hg).
  - rewrite HP. rewrite length_seqZ.
    assert (length (j :: filter (fun q => present ci q \/ (q < j)%Z) (seqZ 0 n)) <= length (seqZ 0 n))%nat as Hle.
    { apply submseteq_length, NoDup_submseteq.
      - apply NoDup_cons. split; [|apply NoDup_filter, NoDup_seqZ].
        rewrite list_elem_of_filter. intros [[?|?] _]; [done|lia].
      - intros y. rewrite elem_of_cons, list_elem_of_filter, elem_of_seqZ. intros [->|[_ Hy]]; lia. }
    simpl in Hle. rewrite length_seqZ in Hle. lia.
  - apply elem_of_seqZ in Hp. exists p. split; [|tauto].
    destruct (decide (i <= p)); [lia|]. destruct Hg. right. lia.
Qed.

Lemma restored_store i j p V' V'' :
  restored i j V' -> 0 <= i -> 0 <= j < n -> ~ present ci j -> i <= p < n -> ~ good ci p ->
  (forall y, i <= y < p -> good ci y) ->
  (forall p', 0 <= p' < n -> on V'' id idxs p' = if p' =? p then Some j else on V' id idxs p') ->
  restored (p + 1) (j + 1) V''.
Proof.
  intros HP Hi Hj Hnj Hp Hnp Hbetween Hon. unfold restored.
  rewrite (filter_add (fun p => good ci p \/ p < i) (fun p' => good ci p' \/ p' < p + 1) p);
    [|apply NoDup_seqZ|apply elem_of_seqZ; lia|intros [?|?]; [done|lia]|].
  2:{ intros y Hy. split; [|intros [[?|?]| ->]; [by left|right; lia|right; lia]].
      intros [?|Hlt]; [by left; left|]. destruct (decide (y < i)); [left; right; lia|].
      destruct (decide (y = p)); [by right|]. left. left. apply Hbetween. lia. }
  rewrite (filter_add (fun q => present ci q \/ q < j) (fun q => present ci q \/ q < j + 1) j);
    [|apply NoDup_seqZ|apply elem_of_seqZ; lia|intros [?|?]; [done|lia]|].
  2:{ intros y _. split; [intros [?|?]|intros [[?|?]| ->]]; [by left; left|
      destruct (decide (y = j)); [by right|left; right; lia]|by left|right; lia|right; lia]. }
  rewrite !fmap_cons. rewrite (Hon p), Z.eqb_refl by lia. f_equiv.
  rewrite <- HP. apply Permutation_refl'. apply list_fmap_ext. intros k y Hy.
  apply list_elem_of_lookup_2, list_elem_of_filter in Hy as [Hg Hy]. apply elem_of_seqZ in Hy.
  rewrite Hon by lia. destruct (Z.eqb_spec y p) as [->|]; [|done]. destruct Hg; [done|lia].
Qed.

Lemma restored_skip i j V' : restored i j V' -> present ci j -> restored i (j + 1) V'.
Proof.
  unfold restored. intros -> Hj. apply Permutation_refl'. f_equal. symmetry. apply filter_same.
  intros y _. split; [intros [?|?]|intros [?|?]]; [by left| |by left|right; lia].
  destruct (decide (y = j)) as [->|]; [by left|right; lia].
Qed.

Lemma restored_all i V' : restored i n V' -> 0 <= n ->
  on V' id idxs <$> seqZ 0 n ≡ₚ Some <$> seqZ 0 n.
Proof.
  unfold restored. intros HP Hn.
  assert (filter (fun q => present ci q \/ q < n) (seqZ 0 n) = seqZ 0 n) as Hf.
  { apply filter_every. intros y Hy%elem_of_seqZ. right. lia. }
  rewrite Hf in HP. rewrite <- HP. f_equiv. symmetry. apply Permutation_refl', filter_full.
  apply Permutation_length in HP. rewrite !length_fmap in HP. exact HP.
Qed.
End restore.

Lemma restore_step_spec hash m c r V n idxs ci c1 r1 V1 i j :
  placed c V n (req_obj_size r) idxs -> ec_n (ec_params c) = n ->
  n <= Z.of_nat (length (server_chunk_status ci)) -> n <= Z.of_nat (length (chunk_cnt ci)) ->
  0 <= m -> 0 <= i -> 0 <= j < n ->
  stored hash (m + 3) c r V n idxs c1 r1 V1 -> restored (req_obj_id_int r) n idxs ci i j V1 ->
  exists c2 r2 V2 i', restore_step hash idxs ci (c1, r1, i) j = Ok (c2, r2, i') /\ 0 <= i' /\
    stored hash m c r V n idxs c2 r2 V2 /\ restored (req_obj_id_int r) n idxs ci i' (j + 1) V2.
Proof.
  intros P Hen Hsl Hcl Hm Hi Hj HS HR. unfold restore_step.
  destruct (arr_get_Z (chunk_cnt ci) j) as (cnt & Hcnt & ->); [lia|]. cbn [rbind].
  destruct (Z.eqb_spec cnt 0) as [->|Hne].
  - assert (~ present ci j) as Hnp by (unfold present; by rewrite Hcnt; tauto).
    destruct (restored_free _ _ _ _ _ _ _ HR Hi Hj Hnp) as (p0 & Hp0 & Hg0).
    destruct (skip_correct_spec (server_chunk_status ci) n (S (length (server_chunk_status ci))) i)
      as (p & -> & Hp & Hg & Hbetween); [done|done|by exists p0|lia|]. cbn [rbind].
    destruct (cl_same_params _ _ (st_same_cl _ _ _ _ _ _ _ _ _ _ HS)) as (_ & Hec & _).
    rewrite Hec, Hen. rewrite (proj2 (Z.ltb_lt p n)) by lia. cbn [cassert rbind].
    pose proof (st_req _ _ _ _ _ _ _ _ _ _ HS) as Hr.
    destruct (store_slot_spec hash m c1 r1 V1 n idxs unknown_cache p j)
      as (x & c2 & r2 & V2 & -> & _ & E & HS2 & Hon).
    + rewrite (rl_size _ _ _ Hr). eapply (placed_same P); [apply HS|by eapply stored_caps].
    + apply HS.
    + done.
    + apply Hr.
    + lia.
    + pose proof (pl_n _ _ _ _ _ P). unfold MAX_EC_N in *. lia.
    + by right.
    + cbn [rbind]. rewrite E. cbn [rbind]. exists c2, r2, V2, (p + 1).
      split_and!; [done|lia|by eapply stored_trans|].
      rewrite (rl_id _ _ _ Hr) in Hon.
      by eapply (restored_store (req_obj_id_int r) n idxs ci i j p V1 V2).
  - exists c1, r1, V1, i. split_and!; [done|done| |].
    + eapply stored_le; [|done]. lia.
    + apply restored_skip; [done|]. unfold present. rewrite Hcnt. congruence.
Qed.

Lemma restore_chunks_spec hash m c r V n idxs ci :
  placed c V n (req_obj_size r) idxs -> ec_n (ec_params c) = n ->
  n <= Z.of_nat (length (server_chunk_status ci)) -> n <= Z.of_nat (length (chunk_cnt ci)) ->
  0 <= m -> cl_rel hash (m + 3 * n) c V -> hv_ok hash r ->
  restored (req_obj_id_int r) n idxs ci 0 0 V ->
  exists c' r' V', restore_chunks hash c r idxs ci = Ok (c', r') /\
    stored hash m c r V n idxs c' r' V' /\
    on V' (req_obj_id_int r) idxs <$> seqZ 0 n ≡ₚ Some <$> seqZ 0 n.
Proof.
  intros P Hen Hsl Hcl Hm HR Hhv H0. unfold restore_chunks. rewrite Hen.
  pose proof (pl_n _ _ _ _ _ P) as Hn.
  destruct (rfold_seqZ (restore_step hash idxs ci)
    (fun j '(c1, r1, i) => 0 <= i /\ exists V1, stored hash (m + 3 * (n - j)) c r V n idxs c1 r1 V1 /\
       restored (req_obj_id_int r) n idxs ci i j V1) 0 n (c, r, 0))
    as ([[c' r'] i] & E & Hi & V' & HS & HF); [lia| | |].
  - split; [lia|]. exists V. split; [|done]. apply stored_init; [|done].
    by replace (m + 3 * (n - 0)) with (m + 3 * n) by lia.
  - intros j [[c1 r1] i] Hj (Hi & V1 & HS & HF).
    destruct (restore_step_spec hash (m + 3 * (n - (j + 1))) c r V n idxs ci c1 r1 V1 i j)
      as (c2 & r2 & V2 & i' & E & Hi' & HS2 & HF2); try done; [lia| |].
    + by replace (m + 3 * (n - (j + 1)) + 3) with (m + 3 * (n - j)) by lia.
    + exists (c2, r2, i'). split; [done|]. split; [done|]. by exists V2.
  - rewrite E. cbn [rbind]. exists c', r', V'. split; [done|]. split.
    + eapply stored_le; [|exact HS]. lia.
    + eapply restored_all; [exact HF|lia].
Qed.

(** ** Which chunks there are *)

(** What the scan knows after [i] servers. *)
Record scanned (V : list view) (id n : Z) (idxs : list Z) (i : Z) (ci : chunk_info) : Prop := {
  sc_status : Z.of_nat (length (server_chunk_status ci)) = MAX_EC_N;
  sc_cnt : Z.of_nat (length (chunk_cnt ci)) = MAX_EC_N;
  sc_checked : Z.of_nat (length (checked_servers ci)) = MAX_N_SERVER;
  sc_nonneg : Forall (fun z => 0 <= z) (chunk_cnt ci);
  sc_present : forall q, 0 <= q < n ->
    present ci q <-> exists p, 0 <= p < i /\ on V id idxs p = Some q;
  sc_good : forall p, i <= p -> ~ good ci p;
  sc_perm : on V id idxs <$> filter (good ci) (seqZ 0 n) ≡ₚ Some <$> filter (present ci) (seqZ 0 n);
  sc_hit : n_chunk_hit ci = Z.of_nat (length (filter (present ci) (seqZ 0 n)));
  sc_seen : forall x, checked_servers ci !! x = Some true ->
    exists p, 0 <= p < i /\ idxs !! Z.to_nat p = Some (Z.of_nat x)
}.

Lemma scanned_init V id n idxs d : 0 <= n <= MAX_EC_N ->
  scanned V id n idxs 0 (ChunkInfo (replicate (Z.to_nat MAX_EC_N) has_not_checked)
    (replicate (Z.to_nat MAX_EC_N) 0) (replicate (Z.to_nat MAX_N_SERVER) false) 0 d).
Proof.
  unfold MAX_EC_N. intros Hn.
  assert (forall q, 0 <= q < n -> ~ present (ChunkInfo (replicate (Z.to_nat MAX_EC_N) has_not_checked)
    (replicate (Z.to_nat MAX_EC_N) 0) (replicate (Z.to_nat MAX_N_SERVER) false) 0 d) q) as Hp.
  { intros q Hq. unfold present. cbn [chunk_cnt]. rewrite lookup_replicate_2; [tauto|].
    unfold MAX_EC_N. lia. }
  assert (forall p, ~ good (ChunkInfo (replicate (Z.to_nat MAX_EC_N) has_not_checked)
    (replicate (Z.to_nat MAX_EC_N) 0) (replicate (Z.to_nat MAX_N_SERVER) false) 0 d) p) as Hg.
  { intros p. unfold good. cbn [server_chunk_status]. rewrite lookup_replicate. naive_solver. }
  split; try done.
  - apply Forall_replicate. lia.
  - intros q Hq. split; [intros H; by destruct (Hp q)|intros (p & ? & _); lia].
  - rewrite !filter_nothing; [done| |]; intros y Hy%elem_of_seqZ; [apply Hp; lia|apply Hg].
  - cbn [n_chunk_hit]. rewrite filter_nothing; [done|]. intros y Hy%elem_of_seqZ. apply Hp; lia.
  - intros x. cbn [checked_servers]. rewrite lookup_replicate. naive_solver.
Qed.

(** The i-th server has answered: the arrays of [ci] become those of [ci']. *)
Section answered.
  Context (V : list view) (id n : Z) (idxs : list Z) (i : Z) (ci ci' : chunk_info) (x : Z)
    (status : server_chunk_stat_e).
  Context (HS : scanned V id n idxs i ci) (Hi : 0 <= i < n) (Hn : n <= MAX_EC_N).
  Context (Hidx : idxs !! Z.to_nat i = Some x) (Hx : 0 <= x).
  Context (Hst : server_chunk_status ci' = <[Z.to_nat i := status]> (server_chunk_status ci)).
  Context (Hck : checked_servers ci' = <[Z.to_nat x := true]> (checked_servers ci)).

Lemma answered_good p : 0 <= p -> good ci' p <-> (p = i /\ status = correct_chunk) \/ good ci p.
Proof using HS Hi Hn Hst.
  intros Hp. pose proof (sc_status _ _ _ _ _ _ HS) as Hl. pose proof (sc_good _ _ _ _ _ _ HS i) as Hg.
  unfold good in *. rewrite Hst. destruct (decide (p = i)) as [->|Hne].
  - rewrite list_lookup_insert_eq by lia. split.
    + intros [= ->]. by left.
    + intros [[_ ->]|H]; [done|]. exfalso. apply Hg; [lia|done].
  - rewrite list_lookup_insert_ne by lia. tauto.
Qed.

Lemma answered_good_later p : i + 1 <= p -> ~ good ci' p.
Proof using HS Hi Hn Hst.
  intros Hp. rewrite answered_good by lia. intros [[-> _]|Hg]; [lia|].
  apply (sc_good _ _ _ _ _ _ HS p); [lia|done].
Qed.

Lemma answered_seen y : checked_servers ci' !! y = Some true ->
  exists p, 0 <= p < i + 1 /\ idxs !! Z.to_nat p = Some (Z.of_nat y).
Proof using HS Hi Hidx Hx Hck.
  rewrite Hck. intros [[<- _]|[Hne Hy]]%list_lookup_insert_Some.
  - exists i. split; [lia|]. rewrite Hidx. f_equal. lia.
  - destruct (sc_seen _ _ _ _ _ _ HS y Hy) as (p & Hp & E). exists p. split; [lia|done].
Qed.

Lemma answered_present_more q : on V id idxs i = None \/ (exists q', on V id idxs i = Some q' /\ q <> q') ->
  (exists p, 0 <= p < i + 1 /\ on V id idxs p = Some q) <-> (exists p, 0 <= p < i /\ on V id idxs p = Some q).
Proof using Hi.
  intros Ho. split; intros (p & Hp & E); [|exists p; split; [lia|done]].
  exists p. split; [|done]. destruct (decide (p = i)) as [->|]; [|lia].
  rewrite E in Ho. destruct Ho as [?|(q' & ? & ?)]; congruence.
Qed.

(** the server does not hold the object *)
Lemma scanned_none : on V id idxs i = None -> status = no_chunk ->
  chunk_cnt ci' = chunk_cnt ci -> n_chunk_hit ci' = n_chunk_hit ci ->
  scanned V id n idxs (i + 1) ci'.
Proof using HS Hi Hn Hidx Hx Hst Hck.
  intros Ho Hs Hc Hh.
  assert (forall q, present ci' q <-> present ci q) as Hp by (intros; unfold present; by rewrite Hc).
  split.
  - rewrite Hst, length_insert. apply HS.
  - rewrite Hc. apply HS.
  - rewrite Hck, length_insert. apply HS.
  - rewrite Hc. apply HS.
  - intros q Hq. rewrite answered_present_more by (by left). rewrite Hp. by apply HS.
  - apply answered_good_later.
  - rewrite (filter_same (good ci) (good ci')), (filter_same (present ci) (present ci'));
      [apply HS|by intros|].
    intros y Hy%elem_of_seqZ. rewrite answered_good by lia. naive_solver.
  - rewrite (filter_same (present ci) (present ci')), Hh by by intros. apply HS.
  - apply answered_seen.
Qed.

Context (q z : Z) (Ho : on V id idxs i = Some q) (Hq : 0 <= q < n).
Context (Hz : chunk_cnt ci !! Z.to_nat q = Some z).
Context (Hc : chunk_cnt ci' = <[Z.to_nat q := z + 1]> (chunk_cnt ci)).

Lemma answered_nonneg : 0 <= z.
Proof using HS Hz. by apply (Forall_lookup_1 _ _ _ _ (sc_nonneg _ _ _ _ _ _ HS) Hz). Qed.

Lemma answered_present y : 0 <= y -> present ci' y <-> present ci y \/ y = q.
Proof using All.
  intros Hy. pose proof answered_nonneg. unfold present. rewrite Hc.
  pose proof (lookup_lt_Some _ _ _ Hz). destruct (decide (y = q)) as [->|Hne].
  - rewrite list_lookup_insert_eq by done. split; [by right|]. intros _ [= E]. lia.
  - rewrite list_lookup_insert_ne by lia. tauto.
Qed.

Lemma answered_present_spec y : 0 <= y < n ->
  present ci' y <-> exists p, 0 <= p < i + 1 /\ on V id idxs p = Some y.
Proof using All.
  intros Hy. rewrite answered_present by lia. destruct (decide (y = q)) as [->|Hne].
  - split; [|by right]. intros _. exists i. split; [lia|done].
  - rewrite answered_present_more by (right; by exists q).
    rewrite <- (sc_present _ _ _ _ _ _ HS) by lia. tauto.
Qed.

Lemma scanned_found :
  status = (if z =? 0 then correct_chunk else incorrect_chunk) ->
  n_chunk_hit ci' = (if z =? 0 then n_chunk_hit ci + 1 else n_chunk_hit ci) ->
  scanned V id n idxs (i + 1) ci'.
Proof using All.
  intros Hs Hh. pose proof answered_nonneg as Hz0. split.
  - rewrite Hst, length_insert. apply HS.
  - rewrite Hc, length_insert. apply HS.
  - rewrite Hck, length_insert. apply HS.
  - rewrite Hc. apply Forall_insert; [apply HS|lia].
  - apply answered_present_spec.
  - apply answered_good_later.
  - destruct (Z.eqb_spec z 0) as [Hz1|Hne].
    + rewrite (filter_add (good ci) (good ci') i), (filter_add (present ci) (present ci') q);
        [|apply NoDup_seqZ|apply elem_of_seqZ; lia|unfold present; rewrite Hz, Hz1; tauto|
          intros y Hy%elem_of_seqZ; apply answered_present; lia|
          apply NoDup_seqZ|apply elem_of_seqZ; lia|by apply HS|
          intros y Hy%elem_of_seqZ; rewrite answered_good by lia; tauto].
      rewrite !fmap_cons, Ho. f_equiv. apply HS.
    + rewrite (filter_same (good ci) (good ci')), (filter_same (present ci) (present ci')); [apply HS| |].
      * intros y Hy%elem_of_seqZ. rewrite answered_present by lia. split; [|by left].
        intros [?| ->]; [done|]. unfold present. rewrite Hz. congruence.
      * intros y Hy%elem_of_seqZ. rewrite answered_good by lia. naive_solver.
  - rewrite Hh. destruct (Z.eqb_spec z 0) as [Hz1|Hne].
    + rewrite (filter_add (present ci) (present ci') q);
        [|apply NoDup_seqZ|apply elem_of_seqZ; lia|unfold present; rewrite Hz, Hz1; tauto|
          intros y Hy%elem_of_seqZ; apply answered_present; lia].
      rewrite (sc_hit _ _ _ _ _ _ HS). cbn [length]. lia.
    + rewrite (filter_same (present ci) (present ci')); [apply HS|].
      intros y Hy%elem_of_seqZ. rewrite answered_present by lia. split; [|by left].
      intros [?| ->]; [done|]. unfold present. rewrite Hz. congruence.
  - apply answered_seen.
Qed.
End answered.

(** The chunk numbers of an object are below n. *)
Definition chunks_ok (n : Z) (V : list view) (id : Z) (idxs : list Z) : Prop :=
  forall p q, 0 <= p < n -> on V id idxs p = Some q -> 0 <= q < n.

Lemma on_view V id idxs p x v : idxs !! Z.to_nat p = Some x -> V !! Z.to_nat x = Some v ->
  on V id idxs p = if has id v then Some (get_u8 1 (v_meta v id)) else None.
Proof. intros Hx Hv. unfold on, held_at. rewrite Hx. simpl. by rewrite Hv. Qed.

(** the first two actions of a round: the load is counted and the server is marked *)
Lemma chunk_info_enter c V n sz idxs id i ci x b :
  placed c V n sz idxs -> scanned V id n idxs i ci -> 0 <= i < n ->
  idxs !! Z.to_nat i = Some x -> 0 <= x < Z.of_nat (length (cache_servers c)) ->
  exists c', (let! c := read_load x b c in
              let! seen := arr_get (checked_servers ci) x in
              let! _ := cassert (negb seen) in Ok c) = Ok c' /\
    cl_same c c' /\ cache_servers c' = cache_servers c /\
    arr_upd (fun _ => true) (checked_servers ci) x = Ok (<[Z.to_nat x := true]> (checked_servers ci)).
Proof.
  intros P HS Hi Hidx Hx.
  destruct (read_load_same x b c) as (c' & -> & Hsame & Hsrv); [rewrite (pl_rload _ _ _ _ _ P); lia|].
  cbn [rbind]. pose proof (sc_checked _ _ _ _ _ _ HS) as Hl. pose proof (pl_max _ _ _ _ _ P).
  destruct (arr_get_Z (checked_servers ci) x) as (seen & Hseen & ->); [lia|]. cbn [rbind].
  destruct seen.
  - destruct (sc_seen _ _ _ _ _ _ HS _ Hseen) as (p & Hp & E). rewrite Z2Nat.id in E by lia.
    assert (p = i) by (by apply (placed_inj P p i x); [lia|..]). lia.
  - exists c'. split_and!; [done|done|done|]. apply (arr_upd_Z (fun _ => true) _ _ false); [lia|done].
Qed.

Lemma chunk_info_step_spec hash m c V n idxs r i ci :
  placed c V n (req_obj_size r) idxs -> 0 <= m -> cl_rel hash (m + 2) c V -> hv_ok hash r ->
  0 <= i < n -> chunks_ok n V (req_obj_id_int r) idxs ->
  scanned V (req_obj_id_int r) n idxs i ci ->
  exists c' r' ci', chunk_info_step hash idxs false (c, r, ci) i = Ok (c', r', ci') /\
    cl_rel hash m c' V /\ cl_same c c' /\ req_like hash r r' /\
    scanned V (req_obj_id_int r) n idxs (i + 1) ci'.
Proof.
  intros P Hm HR Hhv Hi Hids HS.
  destruct (placed_slot P _ i HR Hi) as (x & v & Hx & Hget & Hup & Hxr & Hv & _).
  pose proof (pl_n _ _ _ _ _ P) as Hn. unfold chunk_info_step. rewrite Hget. cbn [rbind].
  destruct (chunk_info_enter _ _ _ _ _ _ _ _ _ (req_obj_size r) P HS Hi Hx Hxr)
    as (c1 & -> & HS1 & Hsrv1 & ->). cbn [rbind].
  destruct (cl_check_spec hash (m + 1) c1 V x v r) as (c2 & r2 & E2 & HR2 & HS2 & Hr2);
    [lia| |lia|done|done|].
  { eapply cl_rel_same; [exact Hsrv1|]. by replace (m + 1 + 1) with (m + 2) by lia. }
  rewrite E2. cbn [rbind].
  replace (is_up c1 x) with true by (rewrite (is_up_same c c1) by done; symmetry; apply Hup).
  cbn [andb]. pose proof (on_view V (req_obj_id_int r) idxs i x v Hx Hv) as Hon.
  destruct (arr_get_Z (server_chunk_status ci) i) as (st & Hst & _);
    [rewrite (sc_status _ _ _ _ _ _ HS); lia|].
  destruct (has (req_obj_id_int r) v) eqn:Hh.
  - destruct (cl_get_chunk_id_spec hash m c2 V x v r2) as (c3 & r3 & -> & HR3 & HS3 & Hr3);
      [done|done|lia|done|apply Hr2|by rewrite (rl_id _ _ _ Hr2)|]. cbn [rbind].
    rewrite (rl_id _ _ _ Hr2). set (q := get_u8 1 _) in *.
    pose proof (Hids i q Hi Hon) as Hq.
    destruct (arr_get_Z (chunk_cnt ci) q) as (z & Hz & ->); [rewrite (sc_cnt _ _ _ _ _ _ HS); lia|].
    cbn [rbind]. rewrite (arr_upd_Z _ _ _ st) by (lia || done). cbn [rbind].
    rewrite (arr_upd_Z _ _ _ z) by (lia || done). cbn [rbind]. do 3 eexists. split; [done|].
    split_and!; [done|exact (transitivity HS1 (transitivity HS2 HS3))|by eapply req_like_trans|].
    by eapply (scanned_found V (req_obj_id_int r) n idxs i ci _ x _ HS Hi (proj2 Hn) Hx (proj1 Hxr)).
  - destruct (write_load_same x (req_obj_size r2) c2) as (c3 & -> & HS3 & Hsrv3).
    { rewrite (cs_wload _ _ HS2), (cs_wload _ _ HS1), (pl_wload _ _ _ _ _ P). lia. }
    cbn [rbind]. rewrite (arr_upd_Z _ _ _ st) by (lia || done). cbn [rbind]. do 3 eexists. split; [done|].
    split_and!; [|exact (transitivity HS1 (transitivity HS2 HS3))|done|].
    + eapply cl_rel_same; [exact Hsrv3|]. eapply cl_rel_le; [|exact HR2]. lia.
    + by eapply (scanned_none V (req_obj_id_int r) n idxs i ci _ x _ HS Hi (proj2 Hn) Hx (proj1 Hxr)).
Qed.

Lemma get_chunk_info_spec hash m c V n idxs r d :
  placed c V n (req_obj_size r) idxs -> ec_n (ec_params c) = n -> 0 <= m ->
  cl_rel hash (m + 2 * n) c V -> hv_ok hash r -> chunks_ok n V (req_obj_id_int r) idxs ->
  exists c' r' ci', get_chunk_info hash c r idxs
      (ChunkInfo (replicate (Z.to_nat MAX_EC_N) has_not_checked) (replicate (Z.to_nat MAX_EC_N) 0)
         (replicate (Z.to_nat MAX_N_SERVER) false) 0 d) false = Ok (c', r', ci') /\
    cl_rel hash m c' V /\ cl_same c c' /\ req_like hash r r' /\
    scanned V (req_obj_id_int r) n idxs n ci'.
Proof.
  intros P Hen Hm HR Hhv Hids. pose proof (pl_n _ _ _ _ _ P) as Hn. unfold get_chunk_info. rewrite Hen.
  destruct (rfold_seqZ (chunk_info_step hash idxs false) (fun i '(c1, r1, ci) =>
      cl_rel hash (m + 2 * (n - i)) c1 V /\ cl_same c c1 /\ req_like hash r r1 /\
      scanned V (req_obj_id_int r) n idxs i ci) 0 n
      (c, r, ChunkInfo (replicate (Z.to_nat MAX_EC_N) has_not_checked) (replicate (Z.to_nat MAX_EC_N) 0)
         (replicate (Z.to_nat MAX_N_SERVER) false) 0 d))
    as ([[c' r'] ci'] & -> & HR' & HS' & Hr' & Hsc); [lia| | |].
  - split_and!; [by replace (n - 0) with n by lia|reflexivity|by apply req_like_refl|].
    apply scanned_init. lia.
  - intros i [[c1 r1] ci] Hi (HR1 & HS1 & Hr1 & Hsc).
    destruct (chunk_info_step_spec hash (m + 2 * (n - (i + 1))) c1 V n idxs r1 i ci)
      as (c2 & r2 & ci2 & -> & HR2 & HS2 & Hr2 & Hsc2).
    + rewrite (rl_size _ _ _ Hr1). by eapply (placed_same P).
    + lia.
    + by replace (m + 2 * (n - (i + 1)) + 2) with (m + 2 * (n - i)) by lia.
    + apply Hr1.
    + lia.
    + by rewrite (rl_id _ _ _ Hr1).
    + by rewrite (rl_id _ _ _ Hr1).
    + eexists. split; [done|]. rewrite (rl_id _ _ _ Hr1) in Hsc2.
      split_and!; [done|by etrans|by eapply req_like_trans|done].
  - exists c', r', ci'. split_and!; [done| |done|done|done].
    eapply cl_rel_le; [|exact HR']. lia.
Qed.

(** ** A hit on a chunk, a miss *)

Lemma report_duplicates_spec hash m c V n sz idxs r ci :
  placed c V n sz idxs -> 0 <= m -> cl_rel hash (m + 2 * Z.of_nat (length (cache_servers c))) c V ->
  hv_ok hash r ->
  exists c' r', report_duplicates hash (c, r, ci) = Ok (c', r', ci) /\
    cl_rel hash m c' V /\ cl_same c c' /\ req_like hash r r'.
Proof.
  intros P Hm HR Hhv. unfold report_duplicates. set (len := Z.of_nat _) in *.
  destruct (_ && _).
  2:{ exists c, r. split_and!; [done| |reflexivity|by apply req_like_refl].
      eapply cl_rel_le; [|exact HR]. lia. }
  match goal with |- context [rfold ?g _ _] => set (f := g) end.
  destruct (rfold_seqZ f (fun i '(c1, r1) =>
      cl_rel hash (m + 2 * (len - i)) c1 V /\ cl_same c c1 /\ req_like hash r r1) 0 len (c, r))
    as ([c' r'] & -> & HR' & HS' & Hr'); [lia| | |].
  - split_and!; [by replace (len - 0) with len by lia|reflexivity|by apply req_like_refl].
  - intros i [c1 r1] Hi (HR1 & HS1 & Hr1).
    destruct (lookup_lt_is_Some_2 V (Z.to_nat i)) as [v Hv].
    { rewrite <- (Forall2_length _ _ _ HR). lia. }
    destruct (cl_check_spec hash (m + 2 * (len - (i + 1)) + 1) c1 V i v r1)
      as (c2 & r2 & E & HR2 & HS2 & Hr2); [lia| |lia|done|apply Hr1|].
    { by replace (m + 2 * (len - (i + 1)) + 1 + 1) with (m + 2 * (len - i)) by lia. }
    unfold f. rewrite E. cbn [rbind]. destruct (is_up c1 i && has (req_obj_id_int r1) v) eqn:Hh.
    + destruct (cl_get_chunk_id_spec hash (m + 2 * (len - (i + 1))) c2 V i v r2)
        as (c3 & r3 & -> & HR3 & HS3 & Hr3); [lia|done|lia|done|apply Hr2| |].
      { rewrite (rl_id _ _ _ Hr2). by apply andb_true_iff in Hh as [_ Hh]. }
      cbn [rbind]. eexists. split; [done|].
      split_and!; [done|exact (transitivity HS1 (transitivity HS2 HS3))|].
      do 2 (eapply req_like_trans; [done|]). done.
    + eexists. split; [done|]. split_and!; [|by etrans|by eapply req_like_trans].
      eapply cl_rel_le; [|exact HR2]. lia.
  - cbn [rbind]. exists c', r'. split_and!; [done| |done|done].
    eapply cl_rel_le; [|exact HR']. lia.
Qed.

(** A request for an object whose chunks have [sz] bytes; [m]: the lookups the servers
    still have room for. *)
Record chunk_request (hash : Z -> Z) (m : Z) (c : cacheCluster) (V : list view) (n k sz : Z)
    (idxs : list Z) (r : request) : Prop := {
  cr_placed : placed c V n sz idxs;
  cr_n : ec_n (ec_params c) = n;
  cr_k : ec_k (ec_params c) = k;
  cr_kn : 0 < k <= n;
  cr_size : chunk_size (ec_params c) (req_obj_size r) = Ok sz;
  cr_servers : cp_n_server (cluster_params c) <= MAX_N_SERVER;
  cr_rel : cl_rel hash m c V;
  cr_hv : hv_ok hash r;
  cr_n_miss : Z.of_nat (length (n_miss (cluster_stat c))) = n;
  cr_bucket : 0 <= original_server r < Z.of_nat (length (bucket_stat c))
}.

Lemma chunk_request_le hash m m' c V n k sz idxs r :
  m' <= m -> chunk_request hash m c V n k sz idxs r -> chunk_request hash m' c V n k sz idxs r.
Proof. intros Hm []. split; try done. by eapply cl_rel_le. Qed.

(** the configuration is that of the request still *)
Lemma placed_kept c V n sz idxs c' V' :
  placed c V n sz idxs -> cl_kept c c' -> v_cap <$> V' = v_cap <$> V -> placed c' V' n sz idxs.
Proof.
  intros [] [HS _ _ _ _ _ _ Hr Hw _ _] HV. pose proof (Forall2_length _ _ _ HS) as Hl.
  split; rewrite <- ?Hl, ?Hr, ?Hw; try done.
  - eapply Forall_impl; [exact pl_up0|]. intros x [Hx Hu]. split; [done|].
    rewrite <- Hu. by apply is_up_servers.
  - apply Forall_fmap with (f := v_cap) (P := fun k => sz <= k). rewrite HV. by apply Forall_fmap.
Qed.

Lemma chunk_request_kept hash m c V n k sz idxs r m' c' V' r' :
  chunk_request hash m c V n k sz idxs r -> cl_kept c c' -> cl_rel hash m' c' V' ->
  v_cap <$> V' = v_cap <$> V -> hv_ok hash r' -> req_obj_size r' = req_obj_size r ->
  req_extra_field1 r' = req_extra_field1 r -> chunk_request hash m' c' V' n k sz idxs r'.
Proof.
  intros [P] HK HR HV Hhv Hsz Hf. split; try done.
  - by apply (placed_kept c V).
  - by rewrite (kp_ec _ _ HK).
  - by rewrite (kp_ec _ _ HK).
  - by rewrite (kp_ec _ _ HK), Hsz.
  - by rewrite (kp_params _ _ HK).
  - by rewrite (kp_n_miss _ _ HK).
  - unfold original_server. by rewrite Hf, (kp_bucket _ _ HK).
Qed.

Lemma ask_others_nothing hash idxs c r ci :
  ec_k (ec_params c) <= n_chunk_hit ci \/
    (cp_check_one_more (cluster_params c) = false /\ cp_parity_rebalance (cluster_params c) = false) ->
  ask_others hash idxs (c, r, ci) = Ok (c, r, ci).
Proof.
  intros H. unfold ask_others. destruct (Z.ltb_spec (n_chunk_hit ci) (ec_k (ec_params c))); [|done].
  destruct H as [|[-> ->]]; [lia|]. cbn [orb rbind]. rewrite andb_false_r. by case_match.
Qed.

Lemma scanned_distinct V id n idxs ci : scanned V id n idxs n ci ->
  n_chunk_hit ci = Z.of_nat (length (distinct n V id idxs)).
Proof.
  intros HS. rewrite (sc_hit _ _ _ _ _ _ HS). unfold distinct. do 2 f_equal.
  symmetry. apply filter_same. intros q Hq%elem_of_seqZ.
  rewrite (sc_present _ _ _ _ _ _ HS) by lia. rewrite list_elem_of_fmap. split.
  - intros (p & E & Hp%elem_of_seqZ). exists p. split; [lia|done].
  - intros (p & Hp & E). exists p. split; [done|]. apply elem_of_seqZ. lia.
Qed.

Lemma scanned_restored V id n idxs ci : scanned V id n idxs n ci -> restored id n idxs ci 0 0 V.
Proof.
  intros HS. unfold restored.
  rewrite (filter_same (good ci) (fun p => good ci p \/ p < 0)),
    (filter_same (present ci) (fun q => present ci q \/ q < 0)); [apply HS| |];
    intros y Hy%elem_of_seqZ; (split; [intros [?|?]; [done|lia]|by left]).
Qed.

(** What is done after the chunks have been restored: the statistics. *)
Lemma hit_statistics c r r' n k sz d dup :
  0 < d <= n -> n <= MAX_EC_N ->
  Z.of_nat (length (n_miss (cluster_stat c))) = n ->
  0 <= original_server r < Z.of_nat (length (bucket_stat c)) ->
  exists c',
    (let c := set_cluster_stat (add_intra dup (cluster_stat c)) c in
     let! c :=
       (if d <? k then
          let missing := u64 ((k - d) * sz) in
          let c := set_cluster_stat (add_midgress missing (cluster_stat c)) c in
          upd_bucket (b_miss missing) r c
        else Ok (chk_hit c)) in
     let c := set_cluster_stat (add_intra (u64 (sz * u32 (n - 1))) (cluster_stat c)) c in
     let! m := arr_upd (fun x => u64 (x + 1)) (n_miss (cluster_stat c)) (u32 (n - d)) in
     let c := set_cluster_stat (set_n_miss m (cluster_stat c)) c in
     Ok (c, r')) = Ok (c', r' : request) /\
    cache_servers c' = cache_servers c /\ cl_kept c c' /\
    ch_n_chunk_hit (cluster_check c') = ch_n_chunk_hit (cluster_check c) /\
    ch_is_hit (cluster_check c') = ch_is_hit (cluster_check c) || (k <=? d) /\
    ch_obj_type (cluster_check c') = ch_obj_type (cluster_check c) /\
    counts (cluster_stat c') = counts (cluster_stat c) /\
    midgress_bytes (cluster_stat c') =
      (if k <=? d then midgress_bytes (cluster_stat c)
       else u64 (midgress_bytes (cluster_stat c) + u64 ((k - d) * sz))).
Proof.
  intros Hd Hn Hm Hb. unfold MAX_EC_N in Hn.
  assert (u32 (n - d) = n - d) as Hu by (unfold u32, wrap; apply Z.mod_small; lia).
  destruct (arr_upd_ok (fun x => u64 (x + 1)) (n_miss (cluster_stat c)) (n - d) ltac:(lia)) as (ms & Em & Hms).
  destruct (Z.leb_spec k d) as [Hk|Hk].
  - rewrite (proj2 (Z.ltb_ge d k)) by lia. cbn. rewrite Hu, Em. cbn.
    eexists. split; [done|]. split; [done|]. split; [|by rewrite orb_true_r].
    split; try done; apply srv_same_refl_list.
  - rewrite (proj2 (Z.ltb_lt d k)) by lia. unfold upd_bucket. cbn.
    destruct (arr_upd_ok (b_miss (u64 ((k - d) * sz))) (bucket_stat c) (original_server r) ltac:(lia))
      as (bs & -> & Hbs). cbn. rewrite Hu, Em. cbn.
    eexists. split; [done|]. split; [done|]. split; [|by rewrite orb_false_r].
    split; try done; apply srv_same_refl_list.
Qed.

(** The scan of the first n servers. *)
Lemma hit_scan hash m c V n k sz idxs r :
  let id := req_obj_id_int r in
  let d := Z.of_nat (length (distinct n V id idxs)) in
  0 <= m -> ch_n_chunk_hit (cluster_check c) = 0 ->
  chunk_request hash (m + 2 * n + 2 * Z.of_nat (length (cache_servers c))) c V n k sz idxs r ->
  chunks_ok n V id idxs ->
  k <= d \/
    (cp_check_one_more (cluster_params c) = false /\ cp_parity_rebalance (cluster_params c) = false) ->
  exists c1 r1 c' r' ci,
    get_chunk_info hash c (set_req_obj_size sz r) idxs
      (ChunkInfo (replicate (Z.to_nat MAX_EC_N) has_not_checked) (replicate (Z.to_nat MAX_EC_N) 0)
         (replicate (Z.to_nat MAX_N_SERVER) false) (ch_n_chunk_hit (cluster_check c)) 0) false =
      Ok (c1, r1, ci) /\
    ask_others hash idxs (c1, r1, ci) = Ok (c1, r1, ci) /\
    report_duplicates hash (c1, r1, ci) = Ok (c', r', ci) /\
    cl_rel hash m c' V /\ cl_same c c' /\ req_like hash (set_req_obj_size sz r) r' /\
    scanned V id n idxs n ci.
Proof.
  intros id d Hm H0 [P Hen Hek Hk Esz Hns HR Hhv Hnm Hb] Hids Hothers.
  pose proof (pl_n _ _ _ _ _ P) as Hn. rewrite H0.
  set (len := Z.of_nat (length (cache_servers c))) in *.
  destruct (get_chunk_info_spec hash (m + 2 * len) c V n idxs (set_req_obj_size sz r) 0)
    as (c1 & r1 & ci & E1 & HR1 & HS1 & Hr1 & Hsc); [done|done|lia| |done|done|].
  { by replace (m + 2 * len + 2 * n) with (m + 2 * n + 2 * len) by lia. }
  destruct (cl_same_params _ _ HS1) as (Hp1 & He1 & _).
  pose proof (scanned_distinct _ _ _ _ _ Hsc) as Hhit. change (req_obj_id_int _) with id in Hhit, Hsc.
  fold d in Hhit.
  assert (length (cache_servers c1) = length (cache_servers c)) as Hl1
    by (symmetry; apply (Forall2_length _ _ _ (cs_servers _ _ HS1))).
  destruct (report_duplicates_spec hash m c1 V n sz idxs r1 ci)
    as (c2 & r2 & E2 & HR2 & HS2 & Hr2); [by apply (placed_same P)|lia|by rewrite Hl1|apply Hr1|].
  exists c1, r1, c2, r2, ci. split_and!; [done| |done|done|by etrans|by eapply req_like_trans|done].
  apply ask_others_nothing. by rewrite He1, Hek, Hp1, Hhit.
Qed.

(** The outcome of a chunk hit. *)
Lemma cache_hit_chunk_obj_spec hash m c V n k sz idxs r :
  let id := req_obj_id_int r in
  let d := Z.of_nat (length (distinct n V id idxs)) in
  0 <= m ->
  chunk_request hash (m + 5 * n + 2 * Z.of_nat (length (cache_servers c))) c V n k sz idxs r ->
  chunks_ok n V id idxs -> 0 < d -> ch_n_chunk_hit (cluster_check c) = 0 ->
  k <= d \/
    (cp_check_one_more (cluster_params c) = false /\ cp_parity_rebalance (cluster_params c) = false) ->
  exists c' r' V', cache_hit_chunk_obj hash c r idxs = Ok (c', r') /\
    chunk_request hash m c' V' n k sz idxs r' /\ cl_kept c c' /\ agree_off n idxs V V' /\
    chunk_step id V V' /\
    on V' id idxs <$> seqZ 0 n ≡ₚ Some <$> seqZ 0 n /\
    req_obj_id_int r' = id /\ req_obj_size r' = req_obj_size r /\
    ch_n_chunk_hit (cluster_check c') = d /\
    ch_is_hit (cluster_check c') = ch_is_hit (cluster_check c) || (k <=? d) /\
    ch_obj_type (cluster_check c') = ch_obj_type (cluster_check c) /\
    counts (cluster_stat c') = counts (cluster_stat c) /\
    midgress_bytes (cluster_stat c') =
      (if k <=? d then midgress_bytes (cluster_stat c)
       else u64 (midgress_bytes (cluster_stat c) + u64 ((k - d) * sz))).
Proof.
  intros id d Hm Hreq Hids Hd H0 Hothers. pose proof Hreq as [P Hen Hek Hk Esz Hns HR Hhv Hnm Hb].
  pose proof (pl_n _ _ _ _ _ P) as Hn. assert (d <= n) as Hdn.
  { pose proof (length_filter (fun q => Some q ∈ on V id idxs <$> seqZ 0 n) (seqZ 0 n)) as Hl.
    rewrite length_seqZ in Hl. unfold d, distinct. lia. }
  unfold cache_hit_chunk_obj. rewrite (proj2 (Z.leb_le _ _) Hns). cbn [rbind]. rewrite Esz. cbn [rbind].
  destruct (hit_scan hash (m + 3 * n) c V n k sz idxs r)
    as (c1 & r1 & c2 & r2 & ci & -> & E1 & E2 & HR2 & HS2 & Hr2 & Hsc); [lia|done| |done|done|].
  { by replace (m + 3 * n + 2 * n) with (m + 5 * n) by lia. }
  cbn [rbind]. rewrite E1. cbn [rbind]. rewrite E2. cbn [rbind].
  pose proof (scanned_distinct _ _ _ _ _ Hsc) as Hhit. change (req_obj_id_int r) with id in Hhit, Hsc.
  fold d in Hhit. rewrite Hhit.
  pose proof (placed_same P c2 V HS2 eq_refl) as P2.
  destruct (cl_same_params _ _ HS2) as (_ & He2 & Hc2 & Hst2 & Hbs2 & _).
  destruct (restore_chunks_spec hash m (chk_n_chunk_hit d c2) r2 V n idxs ci)
    as (c3 & r3 & V' & E3 & HS3 & HF).
  { rewrite (rl_size _ _ _ Hr2). destruct P2. by split. }
  { by etrans; [exact (f_equal ec_n He2)|]. }
  { rewrite (sc_status _ _ _ _ _ _ Hsc). apply Hn. }
  { rewrite (sc_cnt _ _ _ _ _ _ Hsc). apply Hn. }
  { done. }
  { exact HR2. }
  { apply Hr2. }
  { rewrite (rl_id _ _ _ Hr2). by apply scanned_restored. }
  rewrite E3. cbn [rbind]. rewrite Hen, Hek.
  pose proof HS3 as [HR3 HS3' Hcap3 Hr3 Hoff].
  assert (cl_kept c (chk_n_chunk_hit d c2)) as HK2 by (destruct (cl_same_kept _ _ HS2); by split).
  destruct (cl_same_params _ _ HS3') as (_ & _ & Hc3 & Hst3 & Hbs3 & _).
  assert (cluster_stat c3 = cluster_stat c) as Hst by (etrans; [exact Hst3|exact Hst2]).
  destruct (hit_statistics c3 r3 (set_req_obj_size (req_obj_size r) r3) n k sz d
    (u64 (n_duplicate_chunks ci * sz))) as (c' & E & Hsrv & HK & Hck & Hhit' & Htype & Hcounts & Hmid).
  { lia. }
  { apply Hn. }
  { by rewrite Hst. }
  { unfold original_server. rewrite (rl_field1 _ _ _ Hr3), (rl_field1 _ _ _ Hr2), Hbs3.
    cbn [bucket_stat chk_n_chunk_hit set_cluster_check]. by rewrite Hbs2. }
  cbv zeta in E. rewrite E. rewrite (rl_id _ _ _ Hr2) in HF.
  exists c', (set_req_obj_size (req_obj_size r) r3), V'.
  assert (cl_kept c c') as HK' by (etrans; [exact HK2|]; etrans; [apply cl_same_kept, HS3'|exact HK]).
  split_and!; try done.
  - eapply (chunk_request_kept hash _ c V); try done.
    + by eapply cl_rel_same.
    + by eapply chunk_step_caps.
    + apply Hr3.
    + etrans; [apply (rl_field1 _ _ _ Hr3)|]. apply (rl_field1 _ _ _ Hr2).
  - rewrite (rl_id _ _ _ Hr2) in Hcap3. exact Hcap3.
  - etrans; [apply (rl_id _ _ _ Hr3)|]. apply (rl_id _ _ _ Hr2).
  - by rewrite Hck, Hc3.
  - rewrite Hhit', Hc3. cbn. by rewrite Hc2.
  - rewrite Htype, Hc3. cbn. by rewrite Hc2.
  - by rewrite Hcounts, Hst.
  - by rewrite Hmid, Hst.
Qed.


(** The chunks a miss writes are those with the numbers of their servers. *)
Definition filled (V' V : list view) (id : Z) (idxs : list Z) (n a b : Z) : Prop :=
  forall p, 0 <= p < n ->
    on V' id idxs p = if (a <=? p) && (p <? b) then Some p else on V id idxs p.

Lemma miss_chunks_spec hash m c V n idxs r a b :
  placed c V n (req_obj_size r) idxs -> 0 <= m -> 0 <= a -> 0 <= b -> a + b <= n ->
  cl_rel hash (m + 3 * b) c V -> hv_ok hash r ->
  exists c' r' V', rfold (miss_chunk_step hash idxs) (seqZ a b) (c, r) = Ok (c', r') /\
    stored hash m c r V n idxs c' r' V' /\ filled V' V (req_obj_id_int r) idxs n a (a + b).
Proof.
  intros P Hm Ha Hb Hab HR Hhv. pose proof (pl_n _ _ _ _ _ P) as Hn. unfold MAX_EC_N in Hn.
  destruct (rfold_seqZ (miss_chunk_step hash idxs) (fun i '(c1, r1) => exists V1,
      stored hash (m + 3 * (a + b - i)) c r V n idxs c1 r1 V1 /\
      filled V1 V (req_obj_id_int r) idxs n a i) a b (c, r))
    as ([c' r'] & -> & V' & HS & HF); [lia| | |].
  - exists V. split.
    + apply stored_init; [|done]. by replace (m + 3 * (a + b - a)) with (m + 3 * b) by lia.
    + intros p Hp. destruct (Z.leb_spec a p), (Z.ltb_spec p a); done || lia.
  - intros i [c1 r1] Hi (V1 & HS & HF). pose proof (st_req _ _ _ _ _ _ _ _ _ _ HS) as Hr.
    assert (placed c1 V1 n (req_obj_size r1) idxs) as P1
      by (rewrite (rl_size _ _ _ Hr); eapply (placed_same P); [apply HS|by eapply stored_caps]).
    destruct (placed_slot P1 _ i (st_rel _ _ _ _ _ _ _ _ _ _ HS)) as (x & v & Hx & Hget & _ & Hxr & _); [lia|].
    unfold miss_chunk_step. rewrite Hget. cbn [rbind].
    destruct (write_load_same x (req_obj_size r1) c1) as (c2 & -> & HS2 & Hsrv2);
      [rewrite (pl_wload _ _ _ _ _ P1); lia|]. cbn [rbind].
    destruct (store_slot_spec hash (m + 3 * (a + b - (i + 1))) c2 r1 V1 n idxs main_cache i i)
      as (x' & c3 & r3 & V3 & Hget' & _ & E & HS3 & Hon); try lia.
    { by apply (placed_same P1). }
    { eapply cl_rel_same; [exact Hsrv2|].
      replace (m + 3 * (a + b - (i + 1)) + 3) with (m + 3 * (a + b - i)) by lia. apply HS. }
    { apply Hr. }
    { by left. }
    assert (x' = x) as -> by congruence. rewrite E. eexists. split; [done|].
    exists V3. split.
    + eapply stored_trans; [|exact HS3]. destruct HS. split; try done.
      * eapply cl_rel_same; [exact Hsrv2|done].
      * by etrans.
    + intros p Hp. rewrite (rl_id _ _ _ Hr) in Hon. rewrite Hon, HF by done.
      destruct (Z.eqb_spec p i) as [->|Hne].
      * by rewrite (proj2 (Z.leb_le a i)), (proj2 (Z.ltb_lt i (i + 1))) by lia.
      * by replace (p <? i + 1) with (p <? i) by (destruct (Z.ltb_spec p i), (Z.ltb_spec p (i + 1)); lia).
  - exists c', r', V'. split_and!; [done| |done]. eapply stored_le; [|exact HS]. lia.
Qed.

(** the modes that write all n chunks at once *)
Definition adds_n (c : cacheCluster) : bool :=
  match cp_cluster_mode (cluster_params c) with
  | C2DN_add_n | C2DN_add_n_three_rep => true
  | _ => false
  end.

(** the chunks a miss writes *)
Definition written (c : cacheCluster) : Z :=
  if adds_n c then ec_n (ec_params c) else ec_k (ec_params c).

Lemma adds_n_match {T} c (x y : T) :
  match cp_cluster_mode (cluster_params c) with
  | C2DN_add_n | C2DN_add_n_three_rep => x | _ => y end = if adds_n c then x else y.
Proof. unfold adds_n. by destruct (cp_cluster_mode _). Qed.

(** the parity chunks *)
Lemma miss_parity_spec hash m c V V0 n k sz idxs r :
  placed c V n (req_obj_size r) idxs -> 0 <= m -> 0 < k <= n ->
  cl_rel hash (m + 3 * (n - k)) c V -> hv_ok hash r ->
  filled V V0 (req_obj_id_int r) idxs n 0 k ->
  exists c' r' V',
    (if adds_n c then
       rfold (miss_chunk_step hash idxs) (seqZ k (n - k))
         (set_cluster_stat (add_intra sz (cluster_stat c)) c, r)
     else Ok (c, r)) = Ok (c', r') /\
    cl_rel hash m c' V' /\ cl_kept c c' /\ agree_off n idxs V V' /\ chunk_step (req_obj_id_int r) V V' /\
    req_like hash r r' /\
    cluster_check c' = cluster_check c /\
    counts (cluster_stat c') = counts (cluster_stat c) /\
    midgress_bytes (cluster_stat c') = midgress_bytes (cluster_stat c) /\
    filled V' V0 (req_obj_id_int r) idxs n 0 (if adds_n c then n else k).
Proof.
  intros P Hm Hk HR Hhv HF. destruct (adds_n c).
  - destruct (miss_chunks_spec hash m (set_cluster_stat (add_intra sz (cluster_stat c)) c) V n idxs r k (n - k))
      as (c' & r' & V' & -> & [HR' HS' Hcap' Hr' Hoff] & HF'); [by destruct P|lia..|done|done|].
    destruct (cl_same_params _ _ HS') as (_ & _ & Hc & Hst & _).
    exists c', r', V'. split_and!; [done|done| |done|done|done|done|by rewrite Hst|by rewrite Hst|].
    { by destruct (cl_same_kept _ _ HS'). }
    intros p Hp. rewrite HF', HF by done. replace (k + (n - k)) with n by lia.
    destruct (Z.leb_spec 0 p), (Z.leb_spec k p), (Z.ltb_spec p k), (Z.ltb_spec p n); done || lia.
  - exists c, r, V. split; [done|]. split; [|by split; [reflexivity|split_and!; try apply req_like_refl]].
    eapply cl_rel_le; [|exact HR]. lia.
Qed.

(** The outcome of a miss on a large object. *)
Lemma cache_miss_chunk_obj_spec hash m c V n k sz idxs r :
  let id := req_obj_id_int r in
  0 <= m -> chunk_request hash (m + 3 * n) c V n k sz idxs r ->
  exists c' r' V', cache_miss_chunk_obj hash c r idxs = Ok (c', r') /\
    chunk_request hash m c' V' n k sz idxs r' /\ cl_kept c c' /\ agree_off n idxs V V' /\
    chunk_step id V V' /\
    (forall p, 0 <= p < n ->
       on V' id idxs p = if p <? written c then Some p else on V id idxs p) /\
    req_obj_id_int r' = id /\ req_obj_size r' = req_obj_size r /\
    cluster_check c' = cluster_check c /\
    counts (cluster_stat c') = counts (cluster_stat c) /\
    midgress_bytes (cluster_stat c') = midgress_bytes (cluster_stat c).
Proof.
  intros id Hm Hreq. pose proof Hreq as [P Hen Hek Hk Esz Hns HR Hhv Hnm Hb].
  pose proof (pl_n _ _ _ _ _ P) as Hn. unfold cache_miss_chunk_obj, written. rewrite Esz. cbn [rbind]. rewrite Hen, Hek.
  match goal with |- context [rfold _ (seqZ 0 k) (?c0, ?r0)] =>
    destruct (miss_chunks_spec hash (m + 3 * (n - k)) c0 V n idxs r0 0 k)
      as (c1 & r1 & V1 & -> & HS1 & HF1) end; [by destruct P|lia|lia|lia|lia| |done|].
  { eapply cl_rel_same; [reflexivity|]. by replace (m + 3 * (n - k) + 3 * k) with (m + 3 * n) by lia. }
  cbn [rbind]. pose proof HS1 as [HR1 HS1' Hcap1 Hr1 Hoff1].
  destruct (cl_same_params _ _ HS1') as (Hp1 & _ & Hc1 & Hst1 & _).
  rewrite adds_n_match. assert (adds_n c1 = adds_n c) as Ha by (unfold adds_n; by rewrite Hp1).
  rewrite <- Ha.
  destruct (miss_parity_spec hash m c1 V1 V n k (u64 (sz * u32 (n - 1))) idxs r1)
    as (c2 & r2 & V2 & E & HR2 & HK2 & Hoff2 & Hcap2 & Hr2 & Hc2 & Hcounts & Hmid & HF2); [|done|done|done|apply Hr1| |].
  { rewrite (rl_size _ _ _ Hr1). eapply (placed_same (c := set_cluster_stat _ c)); [|done|by eapply chunk_step_caps].
    by destruct P. }
  { by rewrite (rl_id _ _ _ Hr1). }
  cbv zeta. rewrite E. cbn [rbind]. rewrite (rl_id _ _ _ Hr1) in HF2.
  exists c2, (set_req_obj_size (req_obj_size r) r2), V2.
  assert (cl_kept c c2) as HK by (etrans; [|exact HK2]; by destruct (cl_same_kept _ _ HS1')).
  split_and!; try done.
  - eapply (chunk_request_kept hash _ c V); try done.
    + etrans; by eapply chunk_step_caps.
    + apply Hr2.
    + etrans; [apply (rl_field1 _ _ _ Hr2)|]. apply (rl_field1 _ _ _ Hr1).
  - by eapply agree_off_trans.
  - rewrite (rl_id _ _ _ Hr1) in Hcap2. etrans; [exact Hcap1|exact Hcap2].
  - intros p Hp. etrans; [by apply HF2|]. by rewrite (proj2 (Z.leb_le 0 p)) by lia.
  - etrans; [apply (rl_id _ _ _ Hr2)|]. apply (rl_id _ _ _ Hr1).
  - by rewrite Hc2, Hc1.
  - by rewrite Hcounts, Hst1.
  - by rewrite Hmid, Hst1.
Qed.

(** A miss on a large object writes chunk i to the i-th server of its bucket: the n chunks
    in the modes with "add n", the first k otherwise, whatever the servers held before; the
    servers beyond them, and those of other buckets, do not change.  Only the traffic
    inside the cluster is counted here. *)
Theorem cache_miss_chunk_obj_stores hash m c V n k sz idxs r :
  let id := req_obj_id_int r in
  0 <= m -> chunk_request hash (m + 3 * n) c V n k sz idxs r ->
  exists c' r' V', cache_miss_chunk_obj hash c r idxs = Ok (c', r') /\
    chunk_request hash m c' V' n k sz idxs r' /\ cl_kept c c' /\ agree_off n idxs V V' /\
    chunk_step id V V' /\
    (forall p, 0 <= p < n ->
       on V' id idxs p = if p <? written c then Some p else on V id idxs p) /\
    req_obj_id_int r' = id /\ req_obj_size r' = req_obj_size r /\
    cluster_check c' = cluster_check c /\
    counts (cluster_stat c') = counts (cluster_stat c) /\
    midgress_bytes (cluster_stat c') = midgress_bytes (cluster_stat c).
Proof. exact (cache_miss_chunk_obj_spec hash m c V n k sz idxs r). Qed.

(** ** A cluster of six servers *)

(** A new server, as the constructor makes it. *)
Definition fresh_server (i : Z) (params : common_cache_params_t) : cacheServer :=
  CacheServer (ServerParams i (p_cache_size params) alg_lru (S754_zero false)) 100
    (cache_struct_init empty_store params 0) None true 0 0 0 0.

Lemma new_server_rel hash n s params :
  0 <= p_cache_size params < 2 ^ 63 -> n < 2 ^ 31 - 1 ->
  s_cache s = cache_struct_init empty_store params 0 -> s_gcache s = None ->
  sp_cache_alg (server_params s) = alg_lru ->
  srv_rel hash n (p_cache_size params) [] (fun _ => 0) s.
Proof.
  intros Hc Hn Hs Hg Ha. destruct (cache_struct_init_spec hash params 0 Hc) as (HB & HL & Hno & Hlk).
  split; [|split; [simpl; lia|]|exact Hg|exact Ha]; rewrite Hs.
  - exists []. split_and!; [apply HB|exact HL|]. intros _. exact Hno.
  - rewrite Hlk. lia.
Qed.

Definition demo_params : common_cache_params_t := mk_params 100000 0 2.
Definition demo_vnodes : list vnode_t := (fun i => Vnode (10 * i) i) <$> seqZ 0 6.

(** six servers with three chunks of which two are enough, in a mode of the program *)
Definition demo_cluster (mode : cluster_mode_e) : cacheCluster :=
  Cluster (ClusterParams 6 None 0 false false mode akamai1b) (ECParams 3 2 0)
    (Ring 6 6 (Some <$> demo_vnodes)) ((fun i => fresh_server i demo_params) <$> seqZ 0 6)
    ∅ ∅ ∅ [] ∅ (ClusterHit false false false 0 0 0)
    (ClusterStat 6 0 0 0 0 0 0 0 0 (replicate 3 0) 0 0)
    (replicate 6 (BucketStat 0 0 0 0)) (replicate 6 0) (replicate 6 0) 0.

Definition demo_views : list view := replicate 6 (View 100000 [] (fun _ => 0)).

Definition demo_request : request := mk_request 0 7 1000 0 0 None 0 0 OP_INVALID_int true.

Lemma demo_rel hash m mode : m < 2 ^ 31 - 1 -> cl_rel hash m (demo_cluster mode) demo_views.
Proof.
  intros Hm. assert (forall i, srv_rel hash m 100000 [] (fun _ => 0) (fresh_server i demo_params)) as H
    by (intros i; by apply (new_server_rel hash m _ demo_params)).
  unfold cl_rel, demo_cluster, demo_views. cbn. do 6 (constructor; [apply H|]). constructor.
Qed.

Lemma demo_chunk_request mode hash m : m < 2 ^ 31 - 1 ->
  chunk_request hash m (demo_cluster mode) demo_views 3 2 500 [4; 5; 0; 1; 2] demo_request.
Proof.
  intros Hm. split; try done; [|by apply demo_rel|by left]. split; try done.
  - repeat constructor; set_solver.
  - repeat constructor; done.
  - repeat constructor; done.
  - repeat constructor; done.
Qed.

Lemma cache_miss_chunk_obj_stores_witness :
  exists c' r' V', cache_miss_chunk_obj (fun x => x) (demo_cluster C2DN) demo_request [4; 5; 0; 1; 2] = Ok (c', r') /\
    on V' 7 [4; 5; 0; 1; 2] <$> seqZ 0 3 = [Some 0; Some 1; None] /\ req_obj_size r' = 1000.
Proof.
  destruct (cache_miss_chunk_obj_stores (fun x => x) 0 (demo_cluster C2DN) demo_views 3 2 500
    [4; 5; 0; 1; 2] demo_request) as (c' & r' & V' & E & _ & _ & _ & _ & Hon & _ & Hsz & _);
    [lia|by apply demo_chunk_request|].
  exists c', r', V'. split; [exact E|]. split; [|exact Hsz].
  change (seqZ 0 3) with [0; 1; 2]. cbn [fmap list_fmap].
  pose proof (Hon 0 ltac:(lia)) as H0. pose proof (Hon 1 ltac:(lia)) as H1.
  pose proof (Hon 2 ltac:(lia)) as H2. cbn in H0, H1, H2. by rewrite H0, H1, H2.
Defined.


(** the cluster after a miss: in mode C2DN the parity chunk is not there yet *)
Lemma demo_stored mode m : 0 <= m < 2 ^ 31 - 20 ->
  exists c r V, cache_miss_chunk_obj (fun x => x) (demo_cluster mode) demo_request [4; 5; 0; 1; 2] = Ok (c, r) /\
    chunk_request (fun x => x) m c V 3 2 500 [4; 5; 0; 1; 2] r /\ cl_kept (demo_cluster mode) c /\
    cluster_check c = ClusterHit false false false 0 0 0 /\ req_obj_id_int r = 7 /\
    agree_off 3 [4; 5; 0; 1; 2] demo_views V /\
    forall p, 0 <= p < 3 ->
      on V 7 [4; 5; 0; 1; 2] p = if p <? written (demo_cluster mode) then Some p else None.
Proof.
  intros Hm. destruct (cache_miss_chunk_obj_spec (fun x => x) m (demo_cluster mode) demo_views 3 2 500
    [4; 5; 0; 1; 2] demo_request) as (c' & r' & V' & E & HR & HK & Hoff & _ & Hon & Hid & _ & Hck & _);
    [lia|apply demo_chunk_request; lia|].
  exists c', r', V'. do 5 (split; [assumption|]). split; [exact Hoff|]. intros p Hp.
  etrans; [by apply Hon|]. destruct (p <? _); [done|].
  unfold on. destruct (_ !! Z.to_nat p) as [x|]; [|done]. simpl. unfold held_at, demo_views.
  destruct (replicate 6 _ !! _) as [v|] eqn:Hv; [|done].
  by apply lookup_replicate in Hv as [-> _].
Qed.

