(* ===== verification/ClusterRequestThms.v ===== *)
(** * What a request carries through the cluster

    The run over a trace hands one request structure to the cluster and then back to the
    reader, which only overwrites the fields of its format.  Whatever function of the
    cluster and of its servers gets the request, it comes back with the time of the trace
    and with its two union fields in the range of their C type. *)

From S2P Require Import Prelude Store HashTable Cache ConsistentHash CacheServer CacheCluster.

Definition fields_in_range (r : request) : Prop :=
  - 2 ^ 63 <= req_extra_field1 r < 2 ^ 63 /\ - 2 ^ 63 <= req_extra_field2 r < 2 ^ 63.

Record carried (r r' : request) : Prop := {
  ca_time : req_real_time r' = req_real_time r;
  ca_fields : fields_in_range r -> fields_in_range r'
}.

#[export] Instance carried_preorder : PreOrder carried.
Proof.
  split; [by split|]. intros r1 r2 r3 [] []. split; [congruence|auto].
Qed.

Lemma carried_hv h r : carried r (set_req_hv h r).
Proof. by split. Qed.

Lemma carried_size z r : carried r (set_req_obj_size z r).
Proof. by split. Qed.

Lemma i64_in_range v : - 2 ^ 63 <= i64 v < 2 ^ 63.
Proof. unfold i64, swrap. change (64 - 1) with 63. pose proof (Z.mod_pos_bound (v + 2 ^ 63) (2 ^ 64) eq_refl). lia. Qed.

Lemma carried_bucket v r : carried r (set_bucket_id v r).
Proof. split; [done|]. intros []. split; [apply i64_in_range|done]. Qed.

Lemma carried_original v r : carried r (set_original_server v r).
Proof. split; [done|]. intros []. split; [apply i64_in_range|done]. Qed.

Lemma carried_host v r : carried r (set_curr_host_id v r).
Proof. split; [done|]. intros []. split; [done|apply i64_in_range]. Qed.

Create HintDb carry.
#[local] Hint Resolve carried_hv carried_size carried_bucket carried_original carried_host : carry.

(** A call that is given the request [r] and returns it, [out], with its result. *)
Class Carries {A} (m : result A) (r : request) (out : A -> request) : Prop :=
  carries : forall a, m = Ok a -> carried r (out a).

#[local] Typeclasses Opaque rbind rfold
  chained_hashtable_find cache_get_obj cache_check LRU_check FIFO_check LRU_get FIFO_get
  find_main find_gutter srv_check get_main get_gutter srv_get find_cached get_chunk_id
  set_chunk_id set_obj_type cl_check cl_get cl_get_chunk_id cl_set_chunk_id cl_set_obj_type
  store_full store_chunk find_mapped_servers cache_hit_full_obj cache_hit_chunk_obj
  cache_miss_full_obj cache_miss_chunk_obj get_hit get_miss get_finish cluster_get.

Lemma carries_rfold {A B} (f : B -> A -> result B) (out : B -> request) l b b' :
  (forall b a, Carries (f b a) (out b) out) -> rfold f l b = Ok b' -> carried (out b) (out b').
Proof.
  intros Hf. revert b. induction l as [|a l IH]; intros b E; [by injection E as <-|].
  cbn [rfold] in E. rinv E. etrans; [by eapply Hf|by apply IH].
Qed.

(** Follow the steps of a call that has succeeded; each call on the way carries the
    request by its instance. *)
Ltac carry_one :=
  match goal with
  | H : Ok _ = Ok _ |- _ => injection H; clear H; intros; subst
  | H : (_, _) = (_, _) |- _ => injection H; clear H; intros; subst
  | H : Err _ = Ok _ |- _ => discriminate H
  | H : rbind _ _ = Ok _ |- _ => rinv H
  | H : ?m = Ok ?a |- _ =>
      let K := constr:(carries a H) in
      pose proof K; clear H; repeat (lazymatch type of a with (_ * _)%type => destruct a as [a ?] end); cbn [fst snd] in *
  | H : (let '(_, _) := ?p in _) = Ok _ |- _ => destruct p eqn:?
  | H : match ?x with _ => _ end = Ok _ |- _ => destruct x eqn:?
  | H : match ?x with _ => _ end = (_, _) |- _ => destruct x eqn:?
  end.

Ltac carry_chain :=
  match goal with
  | |- carried ?r ?r => reflexivity
  | H : carried _ ?r' |- carried _ ?r' => etrans; [clear H|exact H]; carry_chain
  | |- carried _ _ => first [by eauto with carry | etrans; [|by eauto with carry]; carry_chain]
  end.

Ltac carry := repeat carry_one; cbn [fst snd] in *; carry_chain.

(** ** The caches *)

Section requests.
  Context (hash : Z -> Z) (rand : nat -> Z).

#[export] Instance find_carries s ht r :
  Carries (chained_hashtable_find hash s ht r) r snd.
Proof. intros a E. unfold chained_hashtable_find in E. carry. Qed.

#[export] Instance cache_get_obj_carries st r : Carries (cache_get_obj hash st r) r snd.
Proof. intros a E. unfold cache_get_obj in E. carry. Qed.

#[export] Instance cache_check_carries st r b : Carries (cache_check hash st r b) r snd.
Proof. intros a E. unfold cache_check in E. carry. Qed.

#[export] Instance LRU_check_carries st r b : Carries (LRU_check hash st r b) r snd.
Proof. intros a E. unfold LRU_check in E. carry. Qed.

#[export] Instance FIFO_check_carries st r b : Carries (FIFO_check hash st r b) r snd.
Proof. intros a E. unfold FIFO_check in E. carry. Qed.

#[export] Instance LRU_get_carries st r : Carries (LRU_get hash st r) r snd.
Proof. intros a E. unfold LRU_get, cache_get in E. cbn [op_check LRU_ops] in E. carry. Qed.

#[export] Instance FIFO_get_carries st r : Carries (FIFO_get hash st r) r snd.
Proof. intros a E. unfold FIFO_get, cache_get in E. cbn [op_check FIFO_ops] in E. carry. Qed.

(** ** A server *)

#[export] Instance find_main_carries s r : Carries (find_main hash s r) r snd.
Proof. intros a E. unfold find_main in E. carry. Qed.

#[export] Instance find_gutter_carries s r : Carries (find_gutter hash s r) r snd.
Proof. intros a E. unfold find_gutter in E. carry. Qed.

#[export] Instance srv_check_carries s r : Carries (srv_check hash s r) r snd.
Proof. intros a E. unfold srv_check in E. carry. Qed.

#[export] Instance get_main_carries s r : Carries (get_main hash s r) r snd.
Proof. intros a E. unfold get_main, main_get in E. destruct (sp_cache_alg (server_params s)); carry. Qed.

#[export] Instance get_gutter_carries s r : Carries (get_gutter hash s r) r snd.
Proof. intros a E. unfold get_gutter in E. carry. Qed.

#[export] Instance srv_get_carries s r t : Carries (srv_get hash s r t) r snd.
Proof. intros a E. unfold srv_get in E. carry. Qed.

#[export] Instance find_cached_carries s r : Carries (find_cached hash s r) r snd.
Proof. intros a E. unfold find_cached in E. carry. Qed.

#[export] Instance get_chunk_id_carries s r : Carries (get_chunk_id hash s r) r snd.
Proof. intros a E. unfold get_chunk_id in E. carry. Qed.

#[export] Instance set_chunk_id_carries s r i : Carries (set_chunk_id hash s r i) r snd.
Proof. intros a E. unfold set_chunk_id in E. carry. Qed.

#[export] Instance set_obj_type_carries s r t : Carries (set_obj_type hash s r t) r snd.
Proof. intros a E. unfold set_obj_type in E. carry. Qed.

(** ** The calls of a server *)

#[export] Instance cl_check_carries c i r : Carries (cl_check hash c i r) r snd.
Proof. intros a E. unfold cl_check, at_server in E. carry. Qed.

#[export] Instance cl_get_carries c i r t : Carries (cl_get hash c i r t) r snd.
Proof. intros a E. unfold cl_get, at_server in E. carry. Qed.

#[export] Instance cl_get_chunk_id_carries c i r : Carries (cl_get_chunk_id hash c i r) r snd.
Proof. intros a E. unfold cl_get_chunk_id, at_server in E. carry. Qed.

#[export] Instance cl_set_chunk_id_carries c i r id : Carries (cl_set_chunk_id hash c i r id) r snd.
Proof. intros a E. unfold cl_set_chunk_id, at_server in E. carry. Qed.

#[export] Instance cl_set_obj_type_carries c i r t : Carries (cl_set_obj_type hash c i r t) r snd.
Proof. intros a E. unfold cl_set_obj_type, at_server in E. carry. Qed.

#[export] Instance store_full_carries t c i r : Carries (store_full hash t c i r) r snd.
Proof. intros a E. unfold store_full in E. carry. Qed.

#[export] Instance store_chunk_carries t c i r id : Carries (store_chunk hash t c i r id) r snd.
Proof. intros a E. unfold store_chunk in E. carry. Qed.

(** ** The cluster *)

#[export] Instance find_mapped_carries c r : Carries (find_mapped_servers rand c r) r snd.
Proof. intros a E. unfold find_mapped_servers in E. carry. Qed.

#[export] Instance hit_full_carries c r lead idxs : Carries (cache_hit_full_obj hash rand c r lead idxs) r snd.
Proof. intros a E. unfold cache_hit_full_obj in E. carry. Qed.

Definition mid {A B C} (x : A * B * C) : B := x.1.2.

#[export] Instance chunk_info_carries c r ci idxs d :
  Carries (get_chunk_info hash c r idxs ci d) r mid.
Proof.
  intros a E. unfold get_chunk_info in E. eapply (carries_rfold _ mid) in E; [exact E|].
  clear. intros [[c r] ci] i a E. unfold chunk_info_step in E. unfold mid. carry.
Qed.

#[export] Instance ask_one_more_carries i st : Carries (ask_one_more hash i st) (mid st) mid.
Proof. intros a E. destruct st as [[c r] ci]. unfold ask_one_more in E. unfold mid. carry. Qed.

#[export] Instance ask_others_carries idxs st : Carries (ask_others hash idxs st) (mid st) mid.
Proof.
  intros a E. destruct st as [[c r] ci]. unfold ask_others in E. cbn [mid fst snd].
  destruct (_ <? _); [|by injection E as <-]. rinv E.
  assert (carried r (mid a0)) as Ha0.
  { destruct (_ || _); [|by injection Ha as <-].
    eapply (carries_rfold _ mid) in Ha; [exact Ha|]. intros st i b Eb. rinv Eb.
    exact (carries _ Eb). }
  destruct a0 as [[c0 r0] ci0]. etrans; [exact Ha0|]. cbn [mid fst snd].
  destruct (prev_ch_mapping c0 !! _); [|by injection E as <-].
  destruct (_ && _); [|by injection E as <-]. rinv E. exact (carries (r := mid (c0, r0, ci0)) _ E).
Qed.

#[export] Instance report_carries st : Carries (report_duplicates hash st) (mid st) mid.
Proof.
  intros a E. destruct st as [[c r] ci]. unfold report_duplicates in E. unfold mid. cbn [fst snd].
  destruct (_ && _); [|by injection E as <-]. rinv E. destruct a0 as [c0 r0]. injection E as <-.
  eapply (carries_rfold _ snd) in Ha; [exact Ha|].
  clear. intros [c r] i a E. carry.
Qed.

#[export] Instance restore_carries c r idxs ci : Carries (restore_chunks hash c r idxs ci) r snd.
Proof.
  intros a E. unfold restore_chunks in E. rinv E. destruct a0 as [[c0 r0] i0]. injection E as <-.
  eapply (carries_rfold _ mid) in Ha; [exact Ha|]. clear. intros [[c r] i] j a E.
  unfold restore_step in E. unfold mid. carry.
Qed.

#[export] Instance hit_chunk_carries c r idxs : Carries (cache_hit_chunk_obj hash c r idxs) r snd.
Proof. intros a E. unfold cache_hit_chunk_obj in E. unfold mid in *. carry. Qed.

#[export] Instance miss_chunk_carries c r idxs : Carries (cache_miss_chunk_obj hash c r idxs) r snd.
Proof.
  assert (forall st i, Carries (miss_chunk_step hash idxs st i) (snd st) snd) as Hstep.
  { intros [c1 r1] i a E. unfold miss_chunk_step in E. carry. }
  intros a E. unfold cache_miss_chunk_obj in E. do 2 rinv E. destruct a1 as [c1 r1]. rinv E. destruct a1 as [c2 r2].
  injection E as <-. apply (carries_rfold _ snd _ _ _ Hstep) in Ha0.
  assert (carried r1 r2) as Hr.
  { destruct (cp_cluster_mode _); try (injection Ha1 as -> ->; reflexivity);
      exact (carries_rfold _ snd _ _ _ Hstep Ha1). }
  cbn [snd] in *. etrans; [|apply carried_size]. etrans; [|exact Hr]. etrans; [|exact Ha0]. apply carried_size.
Qed.

#[export] Instance miss_full_carries c r lead idxs : Carries (cache_miss_full_obj hash c r lead idxs) r snd.
Proof.
  intros a E. unfold cache_miss_full_obj in E. cbv zeta in E.
  destruct (cp_cluster_mode _); try discriminate E; cbv iota beta in E;
    lazymatch type of E with
    | rfold _ _ _ = _ =>
        eapply (carries_rfold _ snd) in E; [exact E|]; clear; intros [c r] i a E; carry
    | _ => carry
    end.
Qed.

#[export] Instance get_hit_carries c r s lead idxs : Carries (get_hit hash rand c r s lead idxs) r snd.
Proof. intros a E. unfold get_hit in E. carry. Qed.

#[export] Instance get_miss_carries c r b lead idxs : Carries (get_miss hash c r b lead idxs) r snd.
Proof. intros a E. unfold get_miss in E. carry. Qed.

#[export] Instance get_finish_carries c r : Carries (get_finish c r) r snd.
Proof. intros a E. unfold get_finish in E. carry. Qed.

Lemma cluster_get_carries c r hit c' r' :
  cluster_get hash rand c r = Ok (hit, c', r') -> carried r r'.
Proof. intros E. unfold cluster_get in E. carry. Qed.

End requests.
