(* ===== verification/ClusterGetThms.v ===== *)
(** * A request to the cluster

    cacheCluster::get as a whole: the routing of the request, the whole copies of small
    objects, and the invariant of the cluster that every request keeps. *)

From Stdlib Require Import Floats.SpecFloat.
From S2P Require Import Prelude Store HashTable HashTableSpec Cache CacheSpec Policies.
From S2P Require Import ConsistentHash CacheServer CacheServerSpec CacheCluster CacheClusterSpec.
From S2P Require Import CacheClusterThms.

(** ** The two halves_of_field of an extra field *)

Lemma swrap_add w x k : 0 < w -> swrap w (x + 2 ^ w * k) = swrap w x.
Proof.
  intros Hw. unfold swrap. f_equal.
  replace (x + 2 ^ w * k + 2 ^ (w - 1)) with (x + 2 ^ (w - 1) + k * 2 ^ w) by ring.
  apply Z_mod_plus_full.
Qed.

Lemma swrap_shift w x : 0 < w -> exists k, swrap w x = x + 2 ^ w * k.
Proof.
  intros Hw. exists (- ((x + 2 ^ (w - 1)) / 2 ^ w)). unfold swrap.
  pose proof (Z.div_mod (x + 2 ^ (w - 1)) (2 ^ w) ltac:(lia)). lia.
Qed.

Lemma i32_range x : - 2 ^ 31 <= i32 x < 2 ^ 31.
Proof.
  unfold i32, swrap. pose proof (Z.mod_pos_bound (x + 2 ^ (32 - 1)) (2 ^ 32) ltac:(lia)).
  change (2 ^ (32 - 1)) with (2 ^ 31) in *. lia.
Qed.

(** A pair of halves_of_field, [hi] and [lo], stored in an int64_t. *)
Lemma halves_of_field hi lo : - 2 ^ 31 <= hi < 2 ^ 31 -> 0 <= lo < 2 ^ 32 ->
  low32 (i64 (Z.shiftl hi 32 + lo)) = i32 lo /\ high32 (i64 (Z.shiftl hi 32 + lo)) = hi.
Proof.
  intros Hhi Hlo. rewrite Z.shiftl_mul_pow2 by done. unfold low32, high32, i64, i32.
  destruct (swrap_shift 64 (hi * 2 ^ 32 + lo)) as [k ->]; [done|]. split.
  - replace (hi * 2 ^ 32 + lo + 2 ^ 64 * k) with (lo + 2 ^ 32 * (hi + 2 ^ 32 * k)) by ring.
    by apply swrap_add.
  - rewrite Z.shiftr_div_pow2 by done.
    replace (hi * 2 ^ 32 + lo + 2 ^ 64 * k) with (lo + (hi + 2 ^ 32 * k) * 2 ^ 32) by ring.
    rewrite Z.div_add, Z.div_small by lia. rewrite Z.add_0_l.
    etrans; [by apply swrap_add|]. apply swrap_small; [done|]. exact Hhi.
Qed.

Lemma low32_u32 x : i32 (u32 x) = low32 x.
Proof.
  unfold low32, i32, u32, wrap, swrap. f_equal. rewrite Zplus_mod_idemp_l. done.
Qed.

Lemma bucket_id_set v r : 0 <= v < 2 ^ 31 -> bucket_id (set_bucket_id v r) = v.
Proof.
  intros Hv. unfold bucket_id, set_bucket_id, with_low32. cbn [req_extra_field1 set_extra_field1].
  destruct (halves_of_field (high32 (req_extra_field1 r)) (u32 v)) as [-> _];
    [apply i32_range|apply u32_range|].
  rewrite low32_u32. unfold low32. apply swrap_small; [done|]. lia.
Qed.

Lemma original_server_set v r : 0 <= v < 2 ^ 31 -> original_server (set_original_server v r) = v.
Proof.
  intros Hv. unfold original_server, set_original_server, with_high32.
  cbn [req_extra_field1 set_extra_field1].
  destruct (halves_of_field (i32 v) (u32 (req_extra_field1 r))) as [_ ->];
    [apply i32_range|apply u32_range|].
  apply swrap_small; [done|]. lia.
Qed.

Lemma bucket_id_original v r : bucket_id (set_original_server v r) = bucket_id r.
Proof.
  unfold bucket_id, set_original_server, with_high32. cbn [req_extra_field1 set_extra_field1].
  destruct (halves_of_field (i32 v) (u32 (req_extra_field1 r))) as [-> _];
    [apply i32_range|apply u32_range|].
  apply low32_u32.
Qed.

(** ** The cluster between two requests *)

(** the modes with replicas on three servers *)
Definition three_mode (m : cluster_mode_e) : bool :=
  match m with three_rep_always | C2DN_add_n_three_rep => true | _ => false end.

(** the modes of the program: those without gutter caches *)
Definition served (m : cluster_mode_e) : bool :=
  match m with two_rep_always_gutter | erft | invalid_mode => false | _ => true end.

Definition codes (m : cluster_mode_e) : bool :=
  match m with C2DN | C2DN_add_n | C2DN_add_n_three_rep => true | _ => false end.

(** The servers of a bucket: n + 2 different ones, all up, and the original lead. *)
Record bucket_ok (c : cacheCluster) (idxs : list Z) (lead : Z) : Prop := {
  bk_len : Z.of_nat (length idxs) = ec_n (ec_params c) + MAX_N_UNAVAIL;
  bk_nodup : NoDup idxs;
  bk_up : Forall (up c) idxs;
  bk_lt : Forall (fun x => x < Z.of_nat (length (cache_servers c))) idxs;
  bk_lead : 0 <= lead < Z.of_nat (length (bucket_stat c))
}.

(** The configuration: what the mapping and the caches do not change. *)
Record configured (c : cacheCluster) : Prop := {
  cf_n : 0 < ec_n (ec_params c) <= MAX_EC_N;
  cf_k : 0 < ec_k (ec_params c) <= ec_n (ec_params c);
  cf_mode : served (cp_cluster_mode (cluster_params c)) = true;
  cf_three : three_mode (cp_cluster_mode (cluster_params c)) = true -> 3 <= ec_n (ec_params c);
  cf_format : cp_trace_format (cluster_params c) = akamai1b;
  cf_one_more : cp_check_one_more (cluster_params c) = false;
  cf_parity : cp_parity_rebalance (cluster_params c) = false;
  cf_max : Z.of_nat (length (cache_servers c)) <= MAX_N_SERVER;
  cf_servers : cp_n_server (cluster_params c) = Z.of_nat (length (cache_servers c));
  cf_stats : length (bucket_stat c) = length (cache_servers c);
  cf_rload : length (read_load_byte c) = length (cache_servers c);
  cf_wload : length (write_load_byte c) = length (cache_servers c);
  cf_n_miss : Z.of_nat (length (n_miss (cluster_stat c))) = ec_n (ec_params c)
}.

(** The cluster without regard to what is cached. *)
Record routed (c : cacheCluster) : Prop := {
  rt_conf :> configured c;
  rt_buckets b : 0 <= b < N_BUCKET -> exists idxs lead,
    ch_mapping c !! b = Some idxs /\ ori_lead_mapping c !! b = Some lead /\ bucket_ok c idxs lead
}.

Lemma bucket_ok_kept c c' idxs lead : cl_kept c c' -> bucket_ok c idxs lead -> bucket_ok c' idxs lead.
Proof.
  intros HK [H1 H2 H3 H4 H5]. pose proof (Forall2_length _ _ _ (kp_servers _ _ HK)) as Hl.
  split; rewrite <- ?Hl, ?(kp_ec _ _ HK), ?(kp_bucket _ _ HK); try done.
  eapply Forall_impl; [exact H3|]. intros x [Hx Hu]. split; [done|].
  rewrite <- Hu. apply is_up_servers, HK.
Qed.

Lemma routed_kept c c' : cl_kept c c' -> routed c -> routed c'.
Proof.
  intros HK [[] HB]. pose proof (Forall2_length _ _ _ (kp_servers _ _ HK)) as Hl. split.
  - split; rewrite <- ?Hl, ?(kp_ec _ _ HK), ?(kp_params _ _ HK), ?(kp_bucket _ _ HK), ?(kp_rload _ _ HK),
      ?(kp_wload _ _ HK), ?(kp_n_miss _ _ HK); done.
  - intros b Hb. destruct (HB b Hb) as (idxs & lead & Hm & Hlm & Hok). exists idxs, lead.
    split_and!; [by rewrite (kp_mapping _ _ HK)|by rewrite (kp_lead _ _ HK)|by eapply bucket_ok_kept].
Qed.

(** Changes that touch neither the caches nor the statistics. *)
Record quiet (c c' : cacheCluster) : Prop := {
  qt_servers : cache_servers c' = cache_servers c;
  qt_kept : cl_kept c c';
  qt_stat : cluster_stat c' = cluster_stat c
}.

#[export] Instance quiet_preorder : PreOrder quiet.
Proof. split; [by split|]. intros c1 c2 c3 [] []. split; [congruence|by etrans|congruence]. Qed.

Lemma kept_by_fields c c' :
  cache_servers c' = cache_servers c -> cluster_params c' = cluster_params c ->
  ec_params c' = ec_params c -> ring c' = ring c -> ch_mapping c' = ch_mapping c ->
  prev_ch_mapping c' = prev_ch_mapping c -> ori_lead_mapping c' = ori_lead_mapping c ->
  read_load_byte c' = read_load_byte c -> write_load_byte c' = write_load_byte c ->
  length (n_miss (cluster_stat c')) = length (n_miss (cluster_stat c)) ->
  length (bucket_stat c') = length (bucket_stat c) -> cl_kept c c'.
Proof. intros Hs. intros. split; try congruence. rewrite Hs. apply srv_same_refl_list. Qed.

Lemma quiet_rand n c : quiet c (set_rand_calls n c).
Proof. split; [done|by apply kept_by_fields|done]. Qed.
Lemma quiet_check k c : quiet c (set_cluster_check k c).
Proof. split; [done|by apply kept_by_fields|done]. Qed.
Lemma quiet_freq f c : quiet c (set_obj_freq_map f c).
Proof. split; [done|by apply kept_by_fields|done]. Qed.

(** a miss is written when the object has been requested often enough before *)
Definition admits (c : cacheCluster) (id : Z) : bool :=
  (cp_admission (cluster_params c) <=? 0) ||
  (default 0 (obj_freq_map c !! u32 id) >=? cp_admission (cluster_params c)).

Lemma should_admit_spec c r : exists c',
  should_admit c r = (admits c (req_obj_id_int r), c') /\ quiet c c' /\ cluster_check c' = cluster_check c.
Proof.
  unfold should_admit, get_freq, admits. destruct (_ <=? 0); eexists; [done|].
  split; [done|]. split; [apply quiet_freq|done].
Qed.

(** The servers of a bucket that a request may be sent to: the first [leads]. *)
Definition leads (c : cacheCluster) : Z :=
  if ec_n (ec_params c) =? 1 then 1
  else if three_mode (cp_cluster_mode (cluster_params c)) then 3 else 2.

Lemma leads_n c : routed c -> 0 < leads c <= ec_n (ec_params c).
Proof.
  intros [[]]. unfold leads. destruct (Z.eqb_spec (ec_n (ec_params c)) 1); [lia|].
  destruct (three_mode _); [specialize (cf_three0 eq_refl)|]; lia.
Qed.

Lemma three_mode_decide m :
  bool_decide (m = three_rep_always) || bool_decide (m = C2DN_add_n_three_rep) = three_mode m.
Proof. by destruct m. Qed.

Lemma served_decide m : served m = true ->
  bool_decide (m = erft) = false /\ bool_decide (m = two_rep_always_gutter) = false.
Proof. by destruct m. Qed.

Section route.
  Variable rand : nat -> Z.

(** which of them: rand() chooses *)
Definition choose (c : cacheCluster) : Z * cacheCluster :=
  if ec_n (ec_params c) =? 1 then (0, c)
  else let '(r, c') := next_rand rand c in (u32 r mod leads c, c').

Lemma choose_spec c p c' : routed c -> choose c = (p, c') ->
  0 <= p < leads c /\ quiet c c' /\ cluster_check c' = cluster_check c /\
  obj_freq_map c' = obj_freq_map c.
Proof.
  intros RT. pose proof (leads_n c RT) as Hl. unfold choose, next_rand.
  destruct (Z.eqb_spec (ec_n (ec_params c)) 1); intros [= <- <-].
  - split_and!; [lia|lia|reflexivity|done|done].
  - pose proof (Z.mod_pos_bound (u32 (rand (rand_calls c))) (leads c) ltac:(lia)).
    split_and!; [lia|lia|apply quiet_rand|done|done].
Qed.

Lemma route_lookup c b : routed c -> 0 <= b < N_BUCKET ->
  exists idxs ori, get_consistent_hash_mapping c b = Ok (idxs, ori) /\
    ch_mapping c !! b = Some idxs /\ bucket_ok c idxs ori.
Proof.
  intros RT Hb. destruct (rt_buckets c RT b Hb) as (idxs & ori & Hm & Hl & Hok).
  exists idxs, ori. split_and!; [|done|done]. unfold get_consistent_hash_mapping, N_BUCKET in *.
  by rewrite u32_small, Hm, Hl by lia.
Qed.

(** Where a request goes. *)
Lemma find_mapped_servers_spec c r : routed c ->
  let b := req_obj_id_int r mod N_BUCKET in
  exists idxs ori p lead second c' r',
    find_mapped_servers rand c r = Ok (idxs, lead, second, c', r') /\
    ch_mapping c !! b = Some idxs /\ bucket_ok c idxs ori /\
    0 <= p < leads c /\ idxs !! Z.to_nat p = Some lead /\
    quiet c c' /\ cluster_check c' = cluster_check (chk_req_host (i32 lead) c) /\
    req_obj_id_int r' = req_obj_id_int r /\ req_obj_size r' = req_obj_size r /\
    req_hv r' = req_hv r /\ original_server r' = ori /\ obj_freq_map c' = obj_freq_map c.
Proof.
  intros RT b. assert (0 <= b < N_BUCKET) as Hb by (apply Z.mod_pos_bound; done).
  unfold find_mapped_servers. rewrite three_mode_decide.
  destruct (served_decide _ (cf_mode c RT)) as [-> ->]. rewrite !orb_false_r.
  set (three := three_mode (cp_cluster_mode (cluster_params c))).
  assert ((if ec_n (ec_params c) =? 1 then (0, c)
           else let '(r, c) := next_rand rand c in (if three then u32 r mod 3 else u32 r mod 2, c))
          = choose c) as ->.
  { unfold choose, next_rand, leads. fold three. destruct (_ =? 1); [done|]. by destruct three. }
  destruct (choose c) as [p c1] eqn:Ec. destruct (choose_spec c p c1 RT Ec) as (Hp & Q1 & Hc1 & Hf1).
  pose proof (routed_kept _ _ (qt_kept _ _ Q1) RT) as RT1.
  rewrite decide_False by (by rewrite (cf_format _ RT1)). cbn [rbind].
  rewrite bucket_id_set by (unfold N_BUCKET in *; fold b; lia). fold b.
  destruct (route_lookup c1 b RT1 Hb) as (idxs & ori & -> & Hm & Hok). cbn [rbind].
  pose proof (leads_n c RT) as Hl. pose proof (bk_len _ _ _ Hok) as Hlen.
  rewrite (kp_ec _ _ (qt_kept _ _ Q1)) in Hlen. unfold MAX_N_UNAVAIL in Hlen.
  destruct (arr_get_Z idxs p) as (lead & Hlead & ->); [lia|]. cbn [rbind].
  assert (exists second c2, (if three then
       let '(r, c) := next_rand rand c1 in
       let! x := arr_get idxs (u32 (p - Z.rem r 2 - 1) mod 3) in Ok (x, c)
     else let! x := arr_get idxs (u32 (1 - p)) in Ok (x, c1)) = Ok (second, c2) /\
     quiet c1 c2 /\ cluster_check c2 = cluster_check c1 /\ obj_freq_map c2 = obj_freq_map c1)
    as (second & c2 & -> & Q2 & Hc2 & Hf2).
  { pose proof (cf_n c RT). destruct three eqn:E3.
    - unfold next_rand.
      pose proof (Z.mod_pos_bound (u32 (p - Z.rem (rand (rand_calls c1)) 2 - 1)) 3 ltac:(lia)).
      destruct (arr_get_Z idxs (u32 (p - Z.rem (rand (rand_calls c1)) 2 - 1) mod 3)) as (x & _ & ->); [lia|].
      do 2 eexists. split; [done|]. split_and!; [apply quiet_rand|done|done].
    - assert (p = 0 \/ p = 1) as Hp01.
      { unfold leads in Hp. fold three in Hp. rewrite E3 in Hp. destruct (_ =? 1); lia. }
      rewrite u32_small by lia. destruct (arr_get_Z idxs (1 - p)) as (x & _ & ->); [lia|].
      exists x, c1. split_and!; [done|reflexivity|done|done]. }
  cbn [rbind]. pose proof (bk_lead _ _ _ Hok) as Hori.
  pose proof (cf_stats _ RT1). pose proof (cf_max _ RT1) as Hmax. unfold MAX_N_SERVER in Hmax.
  exists idxs, ori, p, lead, second. do 2 eexists. split; [done|].
  split_and!; [by rewrite <- (kp_mapping _ _ (qt_kept _ _ Q1))| |lia|lia|done| | |done|done|done| |].
  - destruct Hok. pose proof (Forall2_length _ _ _ (kp_servers _ _ (qt_kept _ _ Q1))) as Hl1.
    split; [by rewrite <- (kp_ec _ _ (qt_kept _ _ Q1))|done| |by rewrite Hl1|
      by rewrite <- (kp_bucket _ _ (qt_kept _ _ Q1))].
    eapply Forall_impl; [exact bk_up0|]. intros x [Hx Hu]. split; [done|].
    rewrite <- Hu. unfold is_up. by rewrite (qt_servers _ _ Q1).
  - etrans; [exact Q1|]. etrans; [exact Q2|]. apply quiet_check.
  - cbn. by rewrite Hc2, Hc1.
  - unfold i32. rewrite swrap_small by lia. apply original_server_set. lia.
  - cbn. by rewrite Hf2, Hf1.
Qed.
End route.

(** ** Whole copies *)

Definition whole_only (id : Z) (V : list view) : Prop :=
  Forall (fun v => has id v = true -> get_u8 0 (v_meta v id) = full_obj) V.

(** server [x] holds the object *)
Definition holds (id : Z) (V : list view) (x : Z) : Prop :=
  exists v, V !! Z.to_nat x = Some v /\ has id v = true.

Definition holds_b (V : list view) (id x : Z) : bool :=
  match V !! Z.to_nat x with Some v => has id v | None => false end.

Lemma holds_b_spec V id x : holds_b V id x = true <-> holds id V x.
Proof.
  unfold holds_b, holds. destruct (V !! Z.to_nat x) as [v|]; [|naive_solver]. split.
  - intros Hh. by exists v.
  - by intros (? & [= <-] & Hh).
Qed.

(** Only the servers [xs] have changed. *)
Definition only_on (xs : list Z) (V V' : list view) : Prop :=
  forall y : nat, Z.of_nat y ∉ xs -> V' !! y = V !! y.

(** What storing whole copies of the object on the servers [xs] leaves. *)
Record copied (hash : Z -> Z) (m : Z) (xs : list Z) (c : cacheCluster) (r : request) (V : list view)
    (c' : cacheCluster) (r' : request) (V' : list view) : Prop := {
  cp_rel : cl_rel hash m c' V';
  cp_same : cl_same c c';
  cp_req : req_like hash r r';
  cp_step : views_step (req_obj_id_int r) V V';
  cp_kind : whole_only (req_obj_id_int r) V -> whole_only (req_obj_id_int r) V';
  cp_still x : holds (req_obj_id_int r) V x -> holds (req_obj_id_int r) V' x;
  cp_there : Forall (holds (req_obj_id_int r) V') xs;
  cp_off : only_on xs V V'
}.

Section copies.
  Variable hash : Z -> Z.
  (** what is done before each copy: nothing or the count of the bytes *)
  Variable pre : Z -> Z -> cacheCluster -> result cacheCluster.
  Hypothesis pre_ok : forall x b c, 0 <= x < Z.of_nat (length (write_load_byte c)) ->
    exists c', pre x b c = Ok c' /\ cl_same c c' /\ cache_servers c' = cache_servers c.

Definition copy_step (st : cacheCluster * request) (x : Z) : result (cacheCluster * request) :=
  let '(c, r) := st in
  let! c := pre x (req_obj_size r) c in store_full hash main_cache c x r.

Lemma copy_step_spec m c V r x :
  0 <= m -> cl_rel hash (m + 3) c V -> hv_ok hash r -> 0 < req_obj_size r < 2 ^ 32 ->
  Forall (fun v => req_obj_size r <= v_cap v) V -> up c x -> x < Z.of_nat (length (cache_servers c)) ->
  length (write_load_byte c) = length (cache_servers c) ->
  exists c' r' V', copy_step (c, r) x = Ok (c', r') /\ copied hash m [x] c r V c' r' V'.
Proof using pre_ok.
  intros Hm HR Hhv Hsz Hcap Hup Hx Hwl. unfold copy_step.
  destruct (pre_ok x (req_obj_size r) c) as (c1 & -> & HS1 & Hsrv); [destruct Hup; lia|]. cbn [rbind].
  destruct (lookup_lt_is_Some_2 V (Z.to_nat x)) as [v Hv].
  { rewrite <- (Forall2_length _ _ _ HR). destruct Hup. lia. }
  destruct (store_full_spec hash m c1 V x v r main_cache) as (c' & r' & v' & E & HR' & HS & Hr & Hh & Hk & Hst);
    [done|by eapply cl_rel_same|by eapply up_same|done|done|done| |by left|].
  { by apply (Forall_lookup_1 _ _ _ _ Hcap Hv). }
  exists c', r', (<[Z.to_nat x := v']> V). split; [exact E|].
  pose proof (lookup_lt_Some _ _ _ Hv) as Hlt.
  split; [done|by etrans|done|by eapply views_step_insert| | | |].
  - intros HW. by apply Forall_insert.
  - intros y (w & Hw & Hhw). destruct (decide (Z.to_nat y = Z.to_nat x)) as [Exy|Hne].
    + exists v'. rewrite Exy. by rewrite list_lookup_insert_eq.
    + exists w. by rewrite list_lookup_insert_ne.
  - constructor; [|done]. exists v'. by rewrite list_lookup_insert_eq.
  - intros y Hy. apply list_lookup_insert_ne. intros <-. apply Hy. rewrite Z2Nat.id by apply Hup. by left.
Qed.

Lemma copies_spec m xs : forall c V r,
  0 <= m -> cl_rel hash (m + 3 * Z.of_nat (length xs)) c V -> hv_ok hash r ->
  0 < req_obj_size r < 2 ^ 32 -> Forall (fun v => req_obj_size r <= v_cap v) V ->
  Forall (up c) xs -> Forall (fun x => x < Z.of_nat (length (cache_servers c))) xs ->
  length (write_load_byte c) = length (cache_servers c) ->
  exists c' r' V', rfold copy_step xs (c, r) = Ok (c', r') /\ copied hash m xs c r V c' r' V'.
Proof using pre_ok.
  induction xs as [|x xs IH]; intros c V r Hm HR Hhv Hsz Hcap Hup Hlt Hwl.
  - exists c, r, V. split; [done|].
    split; [|reflexivity|by apply req_like_refl|reflexivity|done|done|done|done].
    eapply cl_rel_le; [|exact HR]. simpl. lia.
  - apply Forall_cons in Hup as [Hux Hup], Hlt as [Hlx Hlt].
    destruct (copy_step_spec (m + 3 * Z.of_nat (length xs)) c V r x)
      as (c1 & r1 & V1 & E1 & [HR1 HS1 Hr1 Hst1 Hk1 Hs1 Ht1 Ho1]); try done; [lia| |].
    { eapply cl_rel_le; [|exact HR]. cbn [length]. lia. }
    pose proof (Forall2_length _ _ _ (cs_servers _ _ HS1)) as Hl1.
    destruct (IH c1 V1 r1) as (c2 & r2 & V2 & E2 & [HR2 HS2 Hr2 Hst2 Hk2 Hs2 Ht2 Ho2]);
      rewrite ?(rl_size _ _ _ Hr1); try done.
    + apply Hr1.
    + pose proof (views_step_caps _ _ _ Hst1) as HV.
      apply Forall_fmap with (f := v_cap) (P := fun k => req_obj_size r <= k). rewrite HV. by apply Forall_fmap.
    + eapply Forall_impl; [exact Hup|]. intros y. by apply up_same.
    + by rewrite <- Hl1.
    + by rewrite (cs_wload _ _ HS1), <- Hl1.
    + rewrite (rl_id _ _ _ Hr1) in *. exists c2, r2, V2. cbn [rfold]. rewrite E1. cbn [rbind].
      split; [exact E2|]. split; [done|by etrans|by eapply req_like_trans|by etrans|by auto|by auto| |].
      * constructor; [|done]. apply Hs2. by apply Forall_cons in Ht1 as [].
      * intros y Hy. rewrite Ho2 by set_solver. apply Ho1. set_solver.
Qed.
End copies.

(** the servers that get a whole copy *)
Definition full_targets (m : cluster_mode_e) (lead : Z) (idxs : list Z) : list Z :=
  match m with
  | no_replication | two_rep_popularity => [lead]
  | three_rep_always | C2DN_add_n_three_rep => take 3 idxs
  | _ => take 2 idxs
  end.

Lemma full_targets_sub m lead idxs x : lead ∈ idxs -> x ∈ full_targets m lead idxs -> x ∈ idxs.
Proof.
  intros Hl. destruct m; cbn; try (rewrite list_elem_of_singleton; by intros ->);
    intros Hx; by eapply subseteq_take.
Qed.

Lemma full_targets_length m lead idxs : (length (full_targets m lead idxs) <= 3)%nat.
Proof. destruct m; cbn; try rewrite length_take; lia. Qed.

Lemma arr_get_012 (x0 x1 x2 : Z) l :
  arr_get (x0 :: x1 :: x2 :: l) 0 = Ok x0 /\ arr_get (x0 :: x1 :: x2 :: l) 1 = Ok x1 /\
  arr_get (x0 :: x1 :: x2 :: l) 2 = Ok x2.
Proof. done. Qed.

Lemma hit_full_fold hash rand c r lead x0 x1 x2 l :
  served (cp_cluster_mode (cluster_params c)) = true ->
  cache_hit_full_obj hash rand c r lead (x0 :: x1 :: x2 :: l) =
    rfold (copy_step hash (fun _ _ c => Ok c))
      (full_targets (cp_cluster_mode (cluster_params c)) lead (x0 :: x1 :: x2 :: l)) (chk_hit c, r).
Proof.
  unfold cache_hit_full_obj, copy_step. cbn [cluster_params chk_hit set_cluster_check].
  destruct (arr_get_012 x0 x1 x2 l) as (-> & -> & ->).
  intros Hs. destruct (cp_cluster_mode _); try done; cbn;
    repeat (destruct (store_full _ _ _ _ _) as [[? ?]|]; cbn; try done).
Qed.

Lemma miss_full_fold hash c r lead x0 x1 x2 l :
  served (cp_cluster_mode (cluster_params c)) = true ->
  cache_miss_full_obj hash c r lead (x0 :: x1 :: x2 :: l) =
    rfold (copy_step hash write_load)
      (full_targets (cp_cluster_mode (cluster_params c)) lead (x0 :: x1 :: x2 :: l)) (c, r).
Proof.
  unfold cache_miss_full_obj, copy_step. change (seqZ 0 2) with [0; 1]. change (seqZ 0 3) with [0; 1; 2].
  destruct (arr_get_012 x0 x1 x2 l) as (E0 & E1 & E2). intros Hs.
  destruct (cp_cluster_mode _); try done; cbn [rfold full_targets take];
    repeat (cbn [rbind]; rewrite ?E0, ?E1, ?E2; cbn [rbind]; try done;
            match goal with
            | |- context [write_load ?x ?y ?z] => destruct (write_load x y z)
            | |- context [store_full ?h ?t ?c ?x ?r] => destruct (store_full h t c x r) as [[? ?]|]
            end).
Qed.

(** ** What is cached *)

Section workload.
  Variable hash : Z -> Z.
  Variable rand : nat -> Z.
  (** every request for an object has the same size *)
  Variable size_of : Z -> Z.

(** the objects that are kept as chunks *)
Definition coded (c : cacheCluster) (id : Z) : bool :=
  codes (cp_cluster_mode (cluster_params c)) && (size_of id >? ec_size_threshold (ec_params c)).

(** Every cached object is what its size says: a chunk with a number below n, or whole. *)
Definition kind_ok (c : cacheCluster) (id : Z) (v : view) : Prop :=
  has id v = true ->
  if coded c id then get_u8 0 (v_meta v id) = chunk_obj /\ 0 <= get_u8 1 (v_meta v id) < ec_n (ec_params c)
  else get_u8 0 (v_meta v id) = full_obj.

Definition kinds_ok (c : cacheCluster) (V : list view) : Prop := Forall (fun v => forall id, kind_ok c id v) V.

(** The cluster between two requests; [m]: the lookups its servers have room for. *)
Record ready (m : Z) (c : cacheCluster) (V : list view) : Prop := {
  rd_routed : routed c;
  rd_rel : cl_rel hash m c V;
  rd_kinds : kinds_ok c V
}.

(** A request the cluster can serve; [sz]: the bytes of a piece of the object, which fits in
    every cache. *)
Record request_ok (c : cacheCluster) (V : list view) (sz : Z) (r : request) : Prop := {
  rq_size : req_obj_size r = size_of (req_obj_id_int r);
  rq_hv : hv_ok hash r;
  rq_piece : if coded c (req_obj_id_int r) then chunk_size (ec_params c) (req_obj_size r) = Ok sz
             else sz = req_obj_size r;
  rq_sz : 0 < sz < 2 ^ 32;
  rq_cap : Forall (fun v => sz <= v_cap v) V
}.

Lemma coded_kept c c' id : cl_kept c c' -> coded c' id = coded c id.
Proof. intros HK. unfold coded. by rewrite (kp_params _ _ HK), (kp_ec _ _ HK). Qed.

Lemma kinds_ok_kept c c' V : cl_kept c c' -> kinds_ok c V -> kinds_ok c' V.
Proof.
  intros HK HV. eapply Forall_impl; [exact HV|]. intros v Hv id Hh. specialize (Hv id Hh).
  by rewrite (coded_kept _ _ _ HK), (kp_ec _ _ HK).
Qed.

Lemma ready_kept m m' c c' V : cl_kept c c' -> cl_rel hash m' c' V -> ready m c V -> ready m' c' V.
Proof. intros HK HR []. split; [by eapply routed_kept|done|by eapply kinds_ok_kept]. Qed.

Lemma request_ok_like c c' V V' sz r r' :
  cl_kept c c' -> v_cap <$> V' = v_cap <$> V -> req_obj_id_int r' = req_obj_id_int r ->
  req_obj_size r' = req_obj_size r -> hv_ok hash r' -> request_ok c V sz r -> request_ok c' V' sz r'.
Proof.
  intros HK HV Hid Hsz Hhv []. split; rewrite ?Hid, ?Hsz, ?(coded_kept _ _ _ HK), ?(kp_ec _ _ HK); try done.
  apply Forall_fmap with (f := v_cap) (P := fun k => sz <= k). rewrite HV. by apply Forall_fmap.
Qed.

(** The other objects keep their kinds. *)
Lemma kinds_step c id V V' :
  views_step id V V' -> kinds_ok c V -> Forall (kind_ok c id) V' -> kinds_ok c V'.
Proof.
  intros HS HV Hid. induction HS as [|v v' V V' Hs HS IH]; [constructor|].
  apply Forall_cons in HV as [Hv HV], Hid as [Hi Hid]. constructor; [|by apply IH].
  intros j. destruct (decide (j = id)) as [->|Hj]; [done|]. intros Hh.
  destruct (vs_other _ _ _ Hs j Hj Hh) as [Hh0 ->]. by apply Hv.
Qed.

Lemma kinds_only c V id : kinds_ok c V ->
  if coded c id then chunks_only id V else whole_only id V.
Proof.
  intros HV. destruct (coded c id) eqn:E; (eapply Forall_impl; [exact HV|]); intros v Hv Hh;
    specialize (Hv id Hh); rewrite E in Hv; [by destruct Hv|done].
Qed.

Lemma kinds_after_chunks c n idxs id V V' : ec_n (ec_params c) = n ->
  n <= Z.of_nat (length idxs) -> Forall (fun x => 0 <= x) idxs ->
  kinds_ok c V -> chunk_step id V V' -> agree_off n idxs V V' -> coded c id = true ->
  (forall p q, 0 <= p < n -> on V' id idxs p = Some q -> 0 <= q < n) -> kinds_ok c V'.
Proof.
  intros Hn Hlen Hpos HV [HS HK] Hoff Hc Hnum. apply (kinds_step c id V V' HS HV).
  pose proof (kinds_only c V id HV) as Hk. rewrite Hc in Hk. specialize (HK Hk).
  apply Forall_lookup. intros y v' Hv' Hh. rewrite Hc.
  split; [by apply (Forall_lookup_1 _ _ _ _ HK Hv')|]. rewrite Hn.
  destruct (decide (Z.of_nat y ∈ take (Z.to_nat n) idxs)) as [Hin|Hout].
  - apply list_elem_of_lookup in Hin as (p & Hp).
    pose proof (lookup_lt_Some _ _ _ Hp) as Hpl. rewrite length_take in Hpl.
    rewrite lookup_take_lt in Hp by lia.
    apply (Hnum (Z.of_nat p)); [lia|]. rewrite (on_view V' id idxs _ (Z.of_nat y) v'); rewrite ?Nat2Z.id; try done.
    by rewrite Hh.
  - rewrite Hoff in Hv' by done. pose proof (Forall_lookup_1 _ _ _ _ HV Hv' id Hh) as Hko.
    rewrite Hc in Hko. lia.
Qed.

Lemma kinds_after_copies c id V V' :
  kinds_ok c V -> views_step id V V' -> (whole_only id V -> whole_only id V') ->
  coded c id = false -> kinds_ok c V'.
Proof.
  intros HV HS HK Hc. apply (kinds_step c id V V' HS HV).
  pose proof (kinds_only c V id HV) as Hk. rewrite Hc in Hk. specialize (HK Hk).
  eapply Forall_impl; [exact HK|]. intros v Hv Hh. rewrite Hc. by apply Hv.
Qed.

(** A request on its bucket. *)
Record at_bucket (m : Z) (c : cacheCluster) (V : list view) (sz : Z) (idxs : list Z) (p lead : Z)
    (r : request) : Prop := {
  ab_ready : ready m c V;
  ab_request : request_ok c V sz r;
  ab_bucket : bucket_ok c idxs (original_server r);
  ab_p : 0 <= p < leads c;
  ab_lead : idxs !! Z.to_nat p = Some lead
}.

Lemma at_bucket_chunk m c V sz idxs p lead r :
  at_bucket m c V sz idxs p lead r -> coded c (req_obj_id_int r) = true ->
  chunk_request hash m c V (ec_n (ec_params c)) (ec_k (ec_params c)) sz idxs r.
Proof.
  intros [[RT HR HK] [Hsize Hhv Hpiece Hsz Hcap] [Hlen Hnd Hup Hlt Hori] Hp Hlead] Hc.
  rewrite Hc in Hpiece. destruct RT as [[] _]. unfold MAX_N_UNAVAIL in *. split; try done; [|lia].
  split; try done; [lia| | |].
  - by eapply sublist_NoDup, sublist_take.
  - by apply Forall_take.
  - by apply Forall_take.
Qed.

Lemma at_bucket_kept m m' c c' V V' sz idxs p lead r r' :
  at_bucket m c V sz idxs p lead r -> cl_kept c c' -> cl_rel hash m' c' V' -> kinds_ok c' V' ->
  v_cap <$> V' = v_cap <$> V -> req_obj_id_int r' = req_obj_id_int r ->
  req_obj_size r' = req_obj_size r -> hv_ok hash r' -> original_server r' = original_server r ->
  at_bucket m' c' V' sz idxs p lead r'.
Proof.
  intros [[RT HR HK0] HQ HB Hp Hl] HK HR' HV' Hcap Hid Hsz Hhv Hori. split.
  - split; [by eapply routed_kept|done|done].
  - by eapply request_ok_like.
  - rewrite Hori. by eapply bucket_ok_kept.
  - unfold leads in *. by rewrite (kp_ec _ _ HK), (kp_params _ _ HK).
  - done.
Qed.

(** the different chunks a request finds *)
Definition found_chunks (c : cacheCluster) (V : list view) (id : Z) (idxs : list Z) : Z :=
  Z.of_nat (length (distinct (ec_n (ec_params c)) V id idxs)).

Lemma kinds_chunks_ok c V id idxs n : kinds_ok c V -> coded c id = true -> ec_n (ec_params c) = n ->
  chunks_ok n V id idxs.
Proof.
  intros HV Hc Hn p q Hp Hq. unfold on, held_at in Hq.
  destruct (idxs !! Z.to_nat p) as [x|]; [|done]. simpl in Hq.
  destruct (V !! Z.to_nat x) as [v|] eqn:Hv; [|done]. simpl in Hq. unfold held in Hq.
  destruct (has id v) eqn:Hh; [|done]. injection Hq as <-.
  pose proof (Forall_lookup_1 _ _ _ _ HV Hv id Hh) as Hk. rewrite Hc, Hn in Hk. lia.
Qed.

Lemma on_holds V id idxs p x : idxs !! Z.to_nat p = Some x -> holds id V x ->
  exists q, on V id idxs p = Some q.
Proof.
  intros Hx (v & Hv & Hh). rewrite (on_view V id idxs p x v Hx Hv), Hh. by eexists.
Qed.

Lemma found_chunks_pos c V id idxs p x : kinds_ok c V -> coded c id = true ->
  0 <= p < ec_n (ec_params c) -> idxs !! Z.to_nat p = Some x -> holds id V x ->
  0 < found_chunks c V id idxs.
Proof.
  intros HV Hc Hp Hx Hh. destruct (on_holds V id idxs p x Hx Hh) as [q Hq].
  pose proof (kinds_chunks_ok c V id idxs _ HV Hc eq_refl p q Hp Hq) as Hqn.
  assert (q ∈ distinct (ec_n (ec_params c)) V id idxs) as Hin.
  { apply list_elem_of_filter. split; [|by apply elem_of_seqZ; lia].
    rewrite <- Hq. apply list_elem_of_fmap_2, elem_of_seqZ. lia. }
  unfold found_chunks. destruct (distinct _ _ _ _); [by apply elem_of_nil in Hin|simpl; lia].
Qed.

(** What answering a request leaves. *)
Record answered (m : Z) (c : cacheCluster) (V : list view) (r : request)
    (c' : cacheCluster) (V' : list view) (r' : request) : Prop := {
  an_ready : ready m c' V';
  an_kept : cl_kept c c';
  an_step : views_step (req_obj_id_int r) V V';
  an_id : req_obj_id_int r' = req_obj_id_int r;
  an_size : req_obj_size r' = req_obj_size r;
  an_hv : hv_ok hash r';
  an_bucket : 0 <= original_server r' < Z.of_nat (length (bucket_stat c'))
}.

(** what a hit on the lead server leaves of the object, and what an admitted miss does *)
Definition hit_contents (c : cacheCluster) (V' : list view) (id lead : Z) (idxs : list Z) : Prop :=
  if coded c id then
    on V' id idxs <$> seqZ 0 (ec_n (ec_params c)) ≡ₚ Some <$> seqZ 0 (ec_n (ec_params c))
  else Forall (holds id V') (full_targets (cp_cluster_mode (cluster_params c)) lead idxs).

Definition miss_contents (c : cacheCluster) (V V' : list view) (id lead : Z) (idxs : list Z) : Prop :=
  if coded c id then
    forall p, 0 <= p < ec_n (ec_params c) ->
      on V' id idxs p = if p <? written c then Some p else on V id idxs p
  else Forall (holds id V') (full_targets (cp_cluster_mode (cluster_params c)) lead idxs).

(** the servers a request may store the object on *)
Definition touched (c : cacheCluster) (id lead : Z) (idxs : list Z) : list Z :=
  if coded c id then take (Z.to_nat (ec_n (ec_params c))) idxs
  else full_targets (cp_cluster_mode (cluster_params c)) lead idxs.

(** the lookups one request needs of a server *)
Definition cost (c : cacheCluster) : Z := 10 + 5 * ec_n (ec_params c) + 2 * Z.of_nat (length (cache_servers c)).

Lemma perm_in_range V id idxs n : on V id idxs <$> seqZ 0 n ≡ₚ Some <$> seqZ 0 n ->
  forall p q, 0 <= p < n -> on V id idxs p = Some q -> 0 <= q < n.
Proof.
  intros HF p q Hp Hq. assert (Some q ∈ on V id idxs <$> seqZ 0 n) as Hin.
  { rewrite <- Hq. apply list_elem_of_fmap_2, elem_of_seqZ. lia. }
  rewrite HF in Hin. apply list_elem_of_fmap in Hin as (y & [= ->] & Hy). apply elem_of_seqZ in Hy. lia.
Qed.

Lemma at_bucket_lead m c V sz idxs p lead r : at_bucket m c V sz idxs p lead r ->
  lead ∈ idxs /\ 0 <= p < ec_n (ec_params c) /\ 0 <= lead < Z.of_nat (length (cache_servers c)) /\
  up c lead.
Proof.
  intros [[RT _ _] _ HB Hp Hl]. pose proof (leads_n c RT).
  assert (lead ∈ idxs) as Hin by (by eapply list_elem_of_lookup_2).
  pose proof (bk_up _ _ _ HB) as Hup. pose proof (bk_lt _ _ _ HB) as Hlt.
  rewrite Forall_forall in Hup, Hlt. specialize (Hup lead Hin). specialize (Hlt lead Hin).
  simpl in Hlt. split_and!; [done|lia|lia|apply Hup|lia|done].
Qed.

(** *** A hit on the lead server *)

Lemma hit_chunk_branch m c V sz idxs p lead r :
  let id := req_obj_id_int r in
  let d := found_chunks c V id idxs in
  0 <= m -> at_bucket (m + cost c) c V sz idxs p lead r -> coded c id = true -> holds id V lead ->
  ch_n_chunk_hit (cluster_check c) = 0 -> ch_is_hit (cluster_check c) = false ->
  exists c' r' V', cache_hit_chunk_obj hash c r idxs = Ok (c', r') /\
    answered m c V r c' V' r' /\ hit_contents c V' id lead idxs /\
    ch_is_hit (cluster_check c') = (ec_k (ec_params c) <=? d) /\
    ch_n_chunk_hit (cluster_check c') <= ec_n (ec_params c) /\
    ch_obj_type (cluster_check c') = ch_obj_type (cluster_check c) /\
    counts (cluster_stat c') = counts (cluster_stat c) /\
    midgress_bytes (cluster_stat c') =
      (if ec_k (ec_params c) <=? d then midgress_bytes (cluster_stat c)
       else u64 (midgress_bytes (cluster_stat c) + u64 ((ec_k (ec_params c) - d) * sz))) /\
    only_on (touched c id lead idxs) V V'.
Proof.
  intros id d Hm AB Hc Hh H0 Hhit0. pose proof AB as [[RT HR HK] HQ HB Hp Hl].
  destruct (at_bucket_lead _ _ _ _ _ _ _ _ AB) as (_ & Hpn & _).
  assert (0 < d) as Hd by (by eapply found_chunks_pos).
  assert (d <= ec_n (ec_params c)) as Hdn.
  { unfold d, found_chunks, distinct.
    match goal with |- context [filter ?P ?l] => pose proof (length_filter P l) as Hlf end.
    rewrite length_seqZ in Hlf. pose proof (cf_n _ RT). lia. }
  pose proof (at_bucket_chunk _ _ _ _ _ _ _ _ AB Hc) as CR.
  destruct (cache_hit_chunk_obj_spec hash m c V (ec_n (ec_params c)) (ec_k (ec_params c)) sz idxs r)
    as (c' & r' & V' & E & CR' & HKc & Hoff & Hst & HF & Hid & Hsz & Hn & Hhit & Hty & Hcnt & Hmid);
    [done| |by eapply kinds_chunks_ok|done|done|right; split; apply RT|].
  { eapply chunk_request_le; [|exact CR]. unfold cost. lia. }
  fold id in Hst, HF, Hid, Hn, Hhit, Hmid. fold (found_chunks c V id idxs) in Hn, Hhit, Hmid. fold d in Hn, Hhit, Hmid.
  exists c', r', V'. split; [exact E|]. split_and!; [| |by rewrite Hhit, Hhit0|lia|done|done|done|unfold touched; by rewrite Hc].
  - split; try done; [|apply Hst|apply (cr_hv _ _ _ _ _ _ _ _ _ CR')|apply (cr_bucket _ _ _ _ _ _ _ _ _ CR')].
    split; [by eapply routed_kept|apply (cr_rel _ _ _ _ _ _ _ _ _ CR')|].
    apply (kinds_ok_kept _ _ _ HKc). pose proof (bk_len _ _ _ HB) as Hlen. unfold MAX_N_UNAVAIL in Hlen.
    eapply (kinds_after_chunks c _ idxs id V V'); try done; [lia| |by apply perm_in_range].
    eapply Forall_impl; [apply (bk_up _ _ _ HB)|]. intros x Hx. apply Hx.
  - unfold hit_contents. by rewrite Hc.
Qed.

(** the whole copies of a hit or of a miss *)
Lemma copies_branch pre m c c0 V sz idxs p lead r :
  (forall x b c, 0 <= x < Z.of_nat (length (write_load_byte c)) ->
    exists c', pre x b c = Ok c' /\ cl_same c c' /\ cache_servers c' = cache_servers c) ->
  let id := req_obj_id_int r in
  0 <= m -> at_bucket (m + 9) c V sz idxs p lead r -> coded c id = false ->
  cl_kept c c0 -> cache_servers c0 = cache_servers c ->
  exists c' r' V',
    rfold (copy_step hash pre) (full_targets (cp_cluster_mode (cluster_params c)) lead idxs) (c0, r)
      = Ok (c', r') /\
    answered m c V r c' V' r' /\
    Forall (holds id V') (full_targets (cp_cluster_mode (cluster_params c)) lead idxs) /\
    cluster_check c' = cluster_check c0 /\ cluster_stat c' = cluster_stat c0 /\
    only_on (touched c id lead idxs) V V'.
Proof.
  intros Hpre id Hm AB Hc HK0 Hs0. pose proof AB as [[RT HR HK] HQ HB Hp Hl].
  destruct (at_bucket_lead _ _ _ _ _ _ _ _ AB) as (Hin & _).
  set (xs := full_targets _ _ _).
  assert (forall x, x ∈ xs -> up c0 x /\ x < Z.of_nat (length (cache_servers c0))) as Hxs.
  { intros x Hx%full_targets_sub; [|done].
    pose proof (bk_up _ _ _ HB) as Hup. pose proof (bk_lt _ _ _ HB) as Hlt.
    rewrite Forall_forall in Hup, Hlt. rewrite Hs0. split; [|by apply Hlt].
    destruct (Hup x Hx) as [Hx0 Hu]. split; [done|]. unfold is_up in *. by rewrite Hs0. }
  pose proof (rq_piece _ _ _ _ HQ) as Hpc. fold id in Hpc. rewrite Hc in Hpc.
  destruct (copies_spec hash pre Hpre m xs c0 V r) as (c' & r' & V' & E & [HR' HS Hr Hst Hk Hsti Hth Hoff]).
  - done.
  - eapply cl_rel_same; [exact Hs0|]. eapply cl_rel_le; [|exact HR].
    pose proof (full_targets_length (cp_cluster_mode (cluster_params c)) lead idxs) as Htl. fold xs in Htl. lia.
  - apply HQ.
  - rewrite <- Hpc. apply HQ.
  - rewrite <- Hpc. apply HQ.
  - apply Forall_forall. intros x Hx. by apply Hxs.
  - apply Forall_forall. intros x Hx. by apply Hxs.
  - rewrite (kp_wload _ _ HK0), Hs0. apply RT.
  - exists c', r', V'. split; [exact E|].
    destruct (cl_same_params _ _ HS) as (_ & _ & Hck & Hstat & _).
    assert (cl_kept c c') as HKc by (etrans; [exact HK0|by apply cl_same_kept]).
    split_and!; [|done|done|done|unfold touched; by rewrite Hc]. split; try done; try apply Hr.
    + split; [by eapply routed_kept|done|]. apply (kinds_ok_kept _ _ _ HKc).
      by apply (kinds_after_copies c id V V').
    + unfold original_server. rewrite (rl_field1 _ _ _ Hr), (kp_bucket _ _ HKc). apply HB.
Qed.

Lemma bucket_servers_shape c idxs ori : routed c -> bucket_ok c idxs ori ->
  exists x0 x1 x2 l, idxs = x0 :: x1 :: x2 :: l.
Proof.
  intros RT HB. pose proof (bk_len _ _ _ HB) as Hlen. pose proof (cf_n _ RT). unfold MAX_N_UNAVAIL in Hlen.
  destruct idxs as [|x0 [|x1 [|x2 l]]]; simpl in Hlen; try lia. by exists x0, x1, x2, l.
Qed.

Lemma upd_bucket_spec f c r : 0 <= original_server r < Z.of_nat (length (bucket_stat c)) ->
  exists c', upd_bucket f r c = Ok c' /\ quiet c c' /\ cluster_check c' = cluster_check c /\
    obj_freq_map c' = obj_freq_map c.
Proof.
  intros Hr. unfold upd_bucket. destruct (arr_upd_ok f (bucket_stat c) _ Hr) as (b & -> & Hb).
  cbn [rbind]. eexists. split; [done|]. split_and!; [|done|done]. split; [done| |done].
  by apply kept_by_fields.
Qed.

Lemma stat_step s c : length (n_miss s) = length (n_miss (cluster_stat c)) ->
  cl_kept c (set_cluster_stat s c) /\ cache_servers (set_cluster_stat s c) = cache_servers c /\
  cluster_check (set_cluster_stat s c) = cluster_check c.
Proof. intros Hs. split; [by apply kept_by_fields|done]. Qed.

Lemma same_stat_kept c c' : cl_same c c' -> cache_servers c' = cache_servers c ->
  quiet c c' /\ cluster_check c' = cluster_check c.
Proof.
  intros HS Hsrv. destruct (cl_same_params _ _ HS) as (_ & _ & Hc & Hs & _).
  split; [|done]. split; [done|by apply cl_same_kept|done].
Qed.

Lemma policy_coded c r : routed c -> req_obj_size r = size_of (req_obj_id_int r) ->
  check_coding_policy c r = Ok (coded c (req_obj_id_int r)).
Proof.
  intros RT Hs. unfold check_coding_policy, coded. rewrite Hs. pose proof (cf_mode _ RT) as Hm.
  by destruct (cp_cluster_mode _).
Qed.

(** *** A miss *)

(** the object is written by a miss that is let in *)
Lemma store_branch m c V sz idxs p lead r :
  let id := req_obj_id_int r in
  0 <= m -> at_bucket (m + cost c) c V sz idxs p lead r ->
  exists c' r' V',
    (let! c := read_load lead (req_obj_size r) c in
     let! coded := check_coding_policy c r in
     if (coded : bool) then cache_miss_chunk_obj hash c r idxs
     else cache_miss_full_obj hash c r lead idxs) = Ok (c', r') /\
    answered m c V r c' V' r' /\ miss_contents c V V' id lead idxs /\
    cluster_check c' = cluster_check c /\ counts (cluster_stat c') = counts (cluster_stat c) /\
    midgress_bytes (cluster_stat c') = midgress_bytes (cluster_stat c) /\
    only_on (touched c id lead idxs) V V'.
Proof.
  intros id Hm AB. pose proof AB as [[RT HR HK] HQ HB Hp Hl].
  destruct (at_bucket_lead _ _ _ _ _ _ _ _ AB) as (_ & Hpn & Hlr & _).
  destruct (read_load_same lead (req_obj_size r) c) as (c1 & -> & HS1 & Hsrv1);
    [rewrite (cf_rload _ RT); lia|]. cbn [rbind].
  destruct (same_stat_kept _ _ HS1 Hsrv1) as [Q1 Hck1].
  pose proof (qt_kept _ _ Q1) as HK1. pose proof (routed_kept _ _ HK1 RT) as RT1.
  rewrite policy_coded by (done || apply HQ). cbn [rbind]. fold id. rewrite (coded_kept _ _ _ HK1).
  unfold miss_contents, touched. destruct (coded c id) eqn:Hc.
  - assert (at_bucket (m + cost c) c1 V sz idxs p lead r) as AB1.
    { eapply (at_bucket_kept _ _ c); try done; [|by apply (kinds_ok_kept _ _ _ HK1)|apply HQ].
      by eapply cl_rel_same. }
    pose proof (at_bucket_chunk _ _ _ _ _ _ _ _ AB1 ltac:(by rewrite (coded_kept _ _ _ HK1))) as CR.
    destruct (cache_miss_chunk_obj_spec hash m c1 V (ec_n (ec_params c1)) (ec_k (ec_params c1)) sz idxs r)
      as (c' & r' & V' & E & CR' & HKc & Hoff & Hst & HF & Hid & Hsz & Hck & Hcnt & Hmid); [done| |].
    { eapply chunk_request_le; [|exact CR]. rewrite (kp_ec _ _ HK1). unfold cost.
      pose proof (cf_n _ RT). lia. }
    rewrite (kp_ec _ _ HK1) in *. fold id in Hst, HF, Hid.
    assert (written c1 = written c) as Hw.
    { unfold written, adds_n. by rewrite (kp_params _ _ HK1), (kp_ec _ _ HK1). }
    rewrite Hw in HF. assert (cl_kept c c') as HKc' by (etrans; [exact HK1|exact HKc]).
    exists c', r', V'. split; [exact E|]. split_and!; [|exact HF|by rewrite Hck|by rewrite Hcnt, (qt_stat _ _ Q1)|
      by rewrite Hmid, (qt_stat _ _ Q1)|exact Hoff].
    split; try done; [|apply Hst|apply (cr_hv _ _ _ _ _ _ _ _ _ CR')|apply (cr_bucket _ _ _ _ _ _ _ _ _ CR')].
    split; [by eapply routed_kept|apply (cr_rel _ _ _ _ _ _ _ _ _ CR')|].
    apply (kinds_ok_kept _ _ _ HKc'). pose proof (bk_len _ _ _ HB) as Hlen. unfold MAX_N_UNAVAIL in Hlen.
    eapply (kinds_after_chunks c _ idxs id V V'); try done; [lia| |].
    { eapply Forall_impl; [apply (bk_up _ _ _ HB)|]. intros x Hx. apply Hx. }
    intros y q Hy. rewrite HF by done. case_bool; [by intros [= <-]|].
    by apply (kinds_chunks_ok c V id idxs _ HK Hc eq_refl).
  - destruct (bucket_servers_shape c idxs _ RT HB) as (x0 & x1 & x2 & l & Ei). rewrite Ei.
    rewrite miss_full_fold by apply RT1. rewrite <- Ei, (kp_params _ _ HK1).
    destruct (copies_branch write_load m c c1 V sz idxs p lead r) as (c' & r' & V' & E & HA & Hth & Hck & Hst & Hoff);
      try done.
    { intros x b c0 Hx. by apply write_load_same. }
    { eapply at_bucket_kept; [exact AB|reflexivity| |done|done|done|done|apply HQ|done].
      eapply cl_rel_le; [|exact HR]. unfold cost. pose proof (cf_n _ RT). lia. }
    exists c', r', V'. split; [exact E|]. split_and!; [done|done|by rewrite Hck|by rewrite Hst, (qt_stat _ _ Q1)|
      by rewrite Hst, (qt_stat _ _ Q1)|unfold touched in Hoff; fold id in Hoff; by rewrite Hc in Hoff].
Qed.

(** the kind of a cached object *)
Definition kind_of (c : cacheCluster) (id : Z) : Z := if coded c id then chunk_obj else full_obj.

(** what a request costs at the origin *)
Definition origin_bytes (c : cacheCluster) (V : list view) (sz : Z) (r : request) (idxs : list Z)
    (found : bool) : option Z :=
  let id := req_obj_id_int r in
  let d := found_chunks c V id idxs in
  if found then
    if coded c id && (d <? ec_k (ec_params c)) then Some (u64 ((ec_k (ec_params c) - d) * sz)) else None
  else Some (req_obj_size r).

Definition add_bytes (x : Z) (o : option Z) : Z :=
  match o with Some b => u64 (x + b) | None => x end.

Definition is_answer_hit (c : cacheCluster) (V : list view) (id : Z) (idxs : list Z) (found : bool) : bool :=
  found && (negb (coded c id) || (ec_k (ec_params c) <=? found_chunks c V id idxs)).

Lemma get_hit_spec m c V sz idxs p lead r x :
  let id := req_obj_id_int r in
  0 <= m -> at_bucket (m + cost c) c V sz idxs p lead r -> holds id V lead ->
  0 <= x < Z.of_nat (length (cache_servers c)) ->
  ch_n_chunk_hit (cluster_check c) = 0 -> ch_is_hit (cluster_check c) = false ->
  ch_obj_type (cluster_check c) = kind_of c id ->
  exists c' r' V', get_hit hash rand c r x lead idxs = Ok (c', r') /\
    answered m c V r c' V' r' /\ hit_contents c V' id lead idxs /\
    ch_is_hit (cluster_check c') = is_answer_hit c V id idxs true /\
    ch_n_chunk_hit (cluster_check c') <= ec_n (ec_params c) /\
    ch_obj_type (cluster_check c') = kind_of c id /\
    counts (cluster_stat c') = counts (cluster_stat c) /\
    midgress_bytes (cluster_stat c') =
      add_bytes (midgress_bytes (cluster_stat c)) (origin_bytes c V sz r idxs true) /\
    only_on (touched c id lead idxs) V V'.
Proof.
  intros id Hm AB Hh Hx H0 Hhit0 Hty. pose proof AB as [[RT HR HK] HQ HB Hp Hl].
  unfold get_hit, is_answer_hit, origin_bytes, hit_contents. fold id. rewrite Hty. unfold kind_of.
  destruct (coded c id) eqn:Hc; cbn [Z.eqb andb negb orb].
  - change (chunk_obj =? full_obj) with false. change (chunk_obj =? chunk_obj) with true. cbv iota.
    destruct (hit_chunk_branch m c V sz idxs p lead r Hm AB Hc Hh H0 Hhit0)
      as (c' & r' & V' & E & HA & Hcont & Hhit & Hn & Hty' & Hcnt & Hmid & Hoff).
    exists c', r', V'. split; [exact E|]. unfold hit_contents in Hcont. fold id in Hcont, Hhit, Hmid. rewrite Hc in Hcont.
    split_and!; try done.
    + rewrite Hty', Hty. unfold kind_of. by rewrite Hc.
    + rewrite Hmid. rewrite Z.ltb_antisym. by destruct (_ <=? _).
  - change (full_obj =? full_obj) with true. cbv iota.
    destruct (read_load_same x (req_obj_size r) c) as (c1 & -> & HS1 & Hsrv1);
      [by rewrite (cf_rload _ RT)|]. cbn [rbind].
    destruct (same_stat_kept _ _ HS1 Hsrv1) as [Q1 Hck1]. pose proof (qt_kept _ _ Q1) as HK1.
    destruct (bucket_servers_shape c idxs _ RT HB) as (x0 & x1 & x2 & l & Ei). rewrite Ei.
    rewrite hit_full_fold by (rewrite (kp_params _ _ HK1); apply RT). rewrite <- Ei, (kp_params _ _ HK1).
    destruct (copies_branch (fun _ _ c => Ok c) m c (chk_hit c1) V sz idxs p lead r)
      as (c' & r' & V' & E & HA & Hth & Hck & Hst & Hoff); try done.
    { intros y b c0 _. exists c0. by split_and!; [|reflexivity|]. }
    { eapply at_bucket_kept; [exact AB|reflexivity| |done|done|done|done|apply HQ|done].
      eapply cl_rel_le; [|exact HR]. unfold cost. pose proof (cf_n _ RT). lia. }
    { etrans; [exact HK1|]. by apply kept_by_fields. }
    exists c', r', V'. split; [exact E|]. pose proof (cf_n _ RT).
    split_and!; [done|done|by rewrite Hck| | | | |exact Hoff]; rewrite ?Hck, ?Hst; cbn; rewrite ?Hck1, ?(qt_stat _ _ Q1);
      [lia| |done|done]. rewrite Hty. unfold kind_of. by rewrite Hc.
Qed.

Lemma touched_kept c c' id lead idxs : cl_kept c c' -> touched c' id lead idxs = touched c id lead idxs.
Proof. intros HK. unfold touched. by rewrite (coded_kept _ _ _ HK), (kp_ec _ _ HK), (kp_params _ _ HK). Qed.

Lemma get_miss_spec m c V sz idxs p lead r b :
  let id := req_obj_id_int r in
  0 <= m -> at_bucket (m + cost c) c V sz idxs p lead r ->
  exists c' r' V', get_miss hash c r b lead idxs = Ok (c', r') /\
    answered m c V r c' V' r' /\
    (if b then miss_contents c V V' id lead idxs else V' = V) /\
    cluster_check c' = cluster_check c /\
    counts (cluster_stat c') = counts (cluster_stat c) /\
    midgress_bytes (cluster_stat c') =
      add_bytes (midgress_bytes (cluster_stat c)) (origin_bytes c V sz r idxs false) /\
    only_on (touched c id lead idxs) V V'.
Proof.
  intros id Hm AB. pose proof AB as [[RT HR HK] HQ HB Hp Hl]. unfold get_miss.
  set (c1 := set_cluster_stat _ c).
  assert (cl_kept c c1) as HK1 by (by apply kept_by_fields).
  destruct (upd_bucket_spec (b_miss (req_obj_size r)) c1 r (bk_lead _ _ _ HB)) as (c2 & -> & Q2 & Hck2 & _).
  cbn [rbind]. assert (cl_kept c c2) as HK2 by (etrans; [exact HK1|apply Q2]).
  assert (cache_servers c2 = cache_servers c) as Hs2 by apply (qt_servers _ _ Q2).
  assert (at_bucket (m + cost c2) c2 V sz idxs p lead r) as AB2.
  { eapply (at_bucket_kept (m + cost c)); try done; [|by apply (kinds_ok_kept _ _ _ HK2)|apply HQ].
    unfold cost. rewrite (kp_ec _ _ HK2), Hs2. by eapply cl_rel_same. }
  destruct b.
  - destruct (store_branch m c2 V sz idxs p lead r Hm AB2) as (c' & r' & V' & E & HA & Hcont & Hck & Hcnt & Hmid & Hoff).
    exists c', r', V'. split; [exact E|]. split_and!.
    + destruct HA. split; try done. by etrans.
    + unfold miss_contents in *. rewrite (coded_kept _ _ _ HK2), (kp_ec _ _ HK2), (kp_params _ _ HK2) in Hcont.
      destruct (coded c _); [|done]. intros y Hy. rewrite Hcont by done.
      unfold written, adds_n. by rewrite (kp_params _ _ HK2), (kp_ec _ _ HK2).
    + by rewrite Hck, Hck2.
    + by rewrite Hcnt, (qt_stat _ _ Q2).
    + by rewrite Hmid, (qt_stat _ _ Q2).
    + by rewrite (touched_kept c c2) in Hoff.
  - exists c2, r, V. split; [done|]. split_and!; [|done|done|by rewrite (qt_stat _ _ Q2)|by rewrite (qt_stat _ _ Q2)|done].
    split; try done; [|apply HQ|rewrite (kp_bucket _ _ HK2); apply HB].
    eapply ready_kept; [exact HK2| |by split]. eapply cl_rel_same; [exact Hs2|].
    eapply cl_rel_le; [|exact HR]. unfold cost. pose proof (cf_n _ RT). lia.
Qed.

Lemma answered_further m c0 V r c V' r' c' :
  answered m c0 V r c V' r' -> cl_kept c c' -> cache_servers c' = cache_servers c ->
  answered m c0 V r c' V' r'.
Proof.
  intros [HR HK HS Hid Hsz Hhv Hb] HK' Hs. split; try done.
  - eapply ready_kept; [exact HK'| |exact HR]. eapply cl_rel_same; [exact Hs|]. apply HR.
  - by etrans.
  - by rewrite (kp_bucket _ _ HK').
Qed.

Lemma answered_from m c0 c1 V r c V' r' r1 :
  answered m c1 V r1 c V' r' -> cl_kept c0 c1 -> req_obj_id_int r1 = req_obj_id_int r ->
  req_obj_size r1 = req_obj_size r -> answered m c0 V r c V' r'.
Proof.
  intros [HR HK HS Hid Hsz Hhv Hb] HK' Hid' Hsz'. rewrite Hid' in *. split; try done; [by etrans|congruence].
Qed.

Lemma get_finish_spec m c0 V r c V' r' id :
  answered m c0 V r c V' r' -> ch_n_chunk_hit (cluster_check c) <= ec_n (ec_params c0) ->
  (ch_is_hit (cluster_check c) = true -> ch_obj_type (cluster_check c) = kind_of c0 id) ->
  exists c', get_finish c r' = Ok (cluster_check c, c', r') /\ answered m c0 V r c' V' r' /\
    n_avail_server (cluster_stat c') = n_avail_server (cluster_stat c) /\
    cluster_req_cnt (cluster_stat c') = cluster_req_cnt (cluster_stat c) /\
    cluster_hit_cnt (cluster_stat c') =
      (if ch_is_hit (cluster_check c) then u64 (cluster_hit_cnt (cluster_stat c) + 1)
       else cluster_hit_cnt (cluster_stat c)) /\
    midgress_bytes (cluster_stat c') = midgress_bytes (cluster_stat c).
Proof.
  intros HA Hn Hty. unfold get_finish. destruct (ch_is_hit (cluster_check c)) eqn:Eh; [|by exists c].
  rewrite (kp_ec _ _ (an_kept _ _ _ _ _ _ _ HA)), (proj2 (Z.leb_le _ _) Hn). cbn [cassert rbind].
  rewrite Hty by done. set (sz := req_obj_size r').
  assert (exists s, (if kind_of c0 id =? full_obj then
         Ok (set_cluster_stat (add_hit sz 1 sz 0 0 (cluster_stat c)) c)
       else if kind_of c0 id =? chunk_obj then
         Ok (set_cluster_stat (add_hit sz 0 0 1 sz (cluster_stat c)) c)
       else Err Aborted) = Ok (set_cluster_stat s c) /\
     n_miss s = n_miss (cluster_stat c) /\ n_avail_server s = n_avail_server (cluster_stat c) /\
     cluster_req_cnt s = cluster_req_cnt (cluster_stat c) /\
     cluster_hit_cnt s = u64 (cluster_hit_cnt (cluster_stat c) + 1) /\
     midgress_bytes s = midgress_bytes (cluster_stat c))
    as (s & -> & Hnm & Ha & Hrq & Hh & Hmid).
  { unfold kind_of. destruct (coded c0 id); (eexists; split; [reflexivity|done]). }
  cbn [rbind]. assert (cl_kept c (set_cluster_stat s c)) as HK by (apply kept_by_fields; cbn; by rewrite ?Hnm).
  destruct (upd_bucket_spec b_hit (set_cluster_stat s c) r') as (c' & -> & Q & Hck & _).
  { apply (an_bucket _ _ _ _ _ _ _ HA). }
  cbn [rbind]. exists c'. rewrite Hck, (qt_stat _ _ Q).
  split_and!; try done. apply (answered_further m c0 V r c); [done| |apply (qt_servers _ _ Q)].
  etrans; [exact HK|apply Q].
Qed.

(** *** The whole of get *)

(** The answer to a request sent to [lead], which [found] the object. *)
Record got (m : Z) (c : cacheCluster) (V : list view) (sz : Z) (r : request) (idxs : list Z) (lead : Z)
    (hit : cluster_hit_t) (c' : cacheCluster) (V' : list view) (r' : request) : Prop := {
  gt_answered : answered m c V r c' V' r';
  gt_avail : n_avail_server (cluster_stat c') = n_avail_server (cluster_stat c);
  gt_hit : ch_is_hit hit = is_answer_hit c V (req_obj_id_int r) idxs (holds_b V (req_obj_id_int r) lead);
  gt_req_cnt : cluster_req_cnt (cluster_stat c') = u64 (cluster_req_cnt (cluster_stat c) + 1);
  gt_hit_cnt : cluster_hit_cnt (cluster_stat c') =
    if ch_is_hit hit then u64 (cluster_hit_cnt (cluster_stat c) + 1) else cluster_hit_cnt (cluster_stat c);
  gt_midgress : midgress_bytes (cluster_stat c') =
    add_bytes (midgress_bytes (cluster_stat c))
      (origin_bytes c V sz r idxs (holds_b V (req_obj_id_int r) lead));
  gt_contents :
    if holds_b V (req_obj_id_int r) lead then hit_contents c V' (req_obj_id_int r) lead idxs
    else if admits c (req_obj_id_int r) then miss_contents c V V' (req_obj_id_int r) lead idxs
    else V' = V;
  gt_off : only_on (touched c (req_obj_id_int r) lead idxs) V V'
}.

(** The request has reached its lead server and that has been asked for the object. *)
Record entered (m : Z) (c : cacheCluster) (V : list view) (sz : Z) (r : request) (idxs : list Z)
    (p lead : Z) (c1 : cacheCluster) (r1 : request) : Prop := {
  en_bucket : at_bucket (m + cost c) c1 V sz idxs p lead r1;
  en_servers : cost c1 = cost c;
  en_kept : cl_kept c c1;
  en_id : req_obj_id_int r1 = req_obj_id_int r;
  en_size : req_obj_size r1 = req_obj_size r;
  en_check : ch_n_chunk_hit (cluster_check c1) = 0 /\ ch_is_hit (cluster_check c1) = false /\
    (holds_b V (req_obj_id_int r) lead = true ->
     ch_obj_type (cluster_check c1) = kind_of c (req_obj_id_int r));
  en_avail : n_avail_server (cluster_stat c1) = n_avail_server (cluster_stat c);
  en_req_cnt : cluster_req_cnt (cluster_stat c1) = u64 (cluster_req_cnt (cluster_stat c) + 1);
  en_hit_cnt : cluster_hit_cnt (cluster_stat c1) = cluster_hit_cnt (cluster_stat c);
  en_midgress : midgress_bytes (cluster_stat c1) = midgress_bytes (cluster_stat c)
}.

Lemma cluster_get_enter m c V sz r :
  let id := req_obj_id_int r in
  0 <= m -> ready (m + cost c + 1) c V -> request_ok c V sz r ->
  exists idxs p lead c1 r1,
    ch_mapping c !! (id mod N_BUCKET) = Some idxs /\ entered m c V sz r idxs p lead c1 r1 /\
    cluster_get hash rand c r =
      let! '(c, r) :=
        (if holds_b V id lead then get_hit hash rand c1 r1 lead lead idxs
         else get_miss hash c1 r1 (admits c id) lead idxs) in
      get_finish c r.
Proof.
  intros id Hm [RT HR HK] HQ. unfold cluster_get.
  match goal with |- context [find_mapped_servers _ ?c _] => set (c0 := c) end.
  assert (quiet c c0) as Q0 by apply quiet_check.
  destruct (find_mapped_servers_spec rand c0 r (routed_kept _ _ (qt_kept _ _ Q0) RT))
    as (idxs & ori & p & lead & second & c1 & r1 & -> & Hmap & HB & Hp & Hl & Q1 & Hck1 & Hid & Hsz & Hhv & Hori & Hf1).
  cbn [rbind]. set (c2 := set_cluster_stat _ c1).
  assert (cl_kept c0 c2) as HK2 by (etrans; [apply Q1|by apply kept_by_fields]).
  destruct (upd_bucket_spec (b_request (req_obj_size r1)) c2 r1) as (c3 & -> & Q3 & Hck3 & Hf3).
  { rewrite Hori, (kp_bucket _ _ HK2). apply HB. }
  cbn [rbind]. assert (cl_kept c c3) as HK3 by (etrans; [apply Q0|]; etrans; [exact HK2|apply Q3]).
  assert (cache_servers c3 = cache_servers c) as Hs3
    by (rewrite (qt_servers _ _ Q3); cbn; by rewrite (qt_servers _ _ Q1)).
  assert (ready (m + cost c + 1) c3 V) as RD3.
  { eapply ready_kept; [exact HK3| |by split]. by eapply cl_rel_same. }
  assert (request_ok c3 V sz r1) as HQ1.
  { eapply request_ok_like; try done. destruct (rq_hv _ _ _ _ HQ) as [Hz|Hz]; [left|right]; congruence. }
  assert (at_bucket (m + cost c + 1) c3 V sz idxs p lead r1) as AB3.
  { split; try done.
    - rewrite Hori. eapply bucket_ok_kept; [|exact HB]. etrans; [exact HK2|apply Q3].
    - unfold leads in *. by rewrite (kp_ec _ _ HK3), (kp_params _ _ HK3). }
  destruct (at_bucket_lead _ _ _ _ _ _ _ _ AB3) as (_ & _ & Hlr & Hup).
  destruct (lookup_lt_is_Some_2 V (Z.to_nat lead)) as [v Hv].
  { rewrite <- (Forall2_length _ _ _ HR), <- Hs3. lia. }
  destruct (cl_check_spec hash (m + cost c) c3 V lead v r1) as (c4 & r2 & -> & HR4 & HS4 & Hr2);
    [unfold cost; pose proof (cf_n _ RT); lia|apply RD3|lia|done|apply HQ1|].
  cbn [rbind]. assert (is_up c3 lead && has (req_obj_id_int r1) v = holds_b V id lead) as Hfound.
  { unfold holds_b. rewrite Hv, Hid. destruct Hup as [_ ->]. done. }
  rewrite Hfound.
  assert (holds_b V id lead = true -> get_u8 0 (v_meta v (req_obj_id_int r1)) = kind_of c id) as Hty.
  { unfold holds_b. rewrite Hv, Hid. fold id. intros Hh. unfold kind_of.
    pose proof (Forall_lookup_1 _ _ _ _ HK Hv id Hh) as Hk. destruct (coded c id); [apply Hk|done]. }
  set (c5 := match (if holds_b V id lead then _ else None) with Some t => chk_obj_type t c4 | None => c4 end).
  assert (quiet c4 c5 /\ obj_freq_map c5 = obj_freq_map c /\ ch_n_chunk_hit (cluster_check c5) = 0 /\
          ch_is_hit (cluster_check c5) = false /\
          (holds_b V id lead = true -> ch_obj_type (cluster_check c5) = kind_of c id))
    as (Q5 & Hf5 & Hn5 & Hh5 & Ht5).
  { assert (obj_freq_map c4 = obj_freq_map c) as Hf4.
    { rewrite (cs_rest _ _ HS4). cbn. rewrite Hf3. cbn. by rewrite Hf1. }
    assert (cluster_check c4 = cluster_check c1) as Hc4.
    { destruct (cl_same_params _ _ HS4) as (_ & _ & -> & _). by rewrite Hck3. }
    unfold c5. destruct (holds_b V id lead).
    - split; [apply quiet_check|]. cbn. rewrite Hc4, Hck1. cbn. split_and!; try done.
    - split; [done|]. rewrite Hc4, Hck1. by split_and!. }
  destruct (should_admit_spec c5 r2) as (c6 & -> & Q6 & Hck6).
  assert (cl_kept c c6) as HK6.
  { etrans; [exact HK3|]. etrans; [apply cl_same_kept, HS4|]. etrans; [apply Q5|apply Q6]. }
  rewrite (kp_params _ _ HK6), (cf_one_more _ RT).
  assert (admits c5 (req_obj_id_int r2) = admits c id) as ->.
  { unfold admits. rewrite Hf5, (rl_id _ _ _ Hr2), Hid. fold id.
    assert (cluster_params c5 = cluster_params c) as ->; [|done].
    rewrite <- (kp_params _ _ (qt_kept _ _ Q6)). apply HK6. }
  assert (cluster_stat c6 = add_req (req_obj_size r1) (cluster_stat c)) as Hst6.
  { rewrite (qt_stat _ _ Q6), (qt_stat _ _ Q5). destruct (cl_same_params _ _ HS4) as (_ & _ & _ & -> & _).
    rewrite (qt_stat _ _ Q3). unfold c2. cbn [cluster_stat set_cluster_stat]. by rewrite (qt_stat _ _ Q1). }
  exists idxs, p, lead, c6, r2. split; [by rewrite <- (kp_mapping _ _ (qt_kept _ _ Q0))|]. split.
  - assert (cost c6 = cost c) as Hcost.
    { unfold cost. by rewrite (kp_ec _ _ HK6), <- (Forall2_length _ _ _ (kp_servers _ _ HK6)). }
    split; rewrite ?Hst6, ?Hck6; try done.
    + eapply (at_bucket_kept (m + cost c + 1) _ c3); try done; try apply Hr2.
      * etrans; [apply cl_same_kept, HS4|]. etrans; [apply Q5|apply Q6].
      * eapply cl_rel_same; [|exact HR4]. by rewrite (qt_servers _ _ Q6), (qt_servers _ _ Q5).
      * apply (kinds_ok_kept _ _ _ HK6), HK.
      * unfold original_server. by rewrite (rl_field1 _ _ _ Hr2).
    + rewrite (rl_id _ _ _ Hr2). done.
    + rewrite (rl_size _ _ _ Hr2). done.
  - by destruct (holds_b V id lead).
Qed.
(** the accounts depend on the configuration only *)
Lemma accounts_kept c c' V sz r r' idxs found : cl_kept c c' ->
  req_obj_id_int r' = req_obj_id_int r -> req_obj_size r' = req_obj_size r ->
  origin_bytes c' V sz r' idxs found = origin_bytes c V sz r idxs found /\
  is_answer_hit c' V (req_obj_id_int r) idxs found = is_answer_hit c V (req_obj_id_int r) idxs found.
Proof.
  intros HK Hid Hsz. unfold origin_bytes, is_answer_hit, found_chunks.
  by rewrite Hid, Hsz, (coded_kept _ _ _ HK), (kp_ec _ _ HK).
Qed.

Lemma contents_kept c c' V V' id lead idxs : cl_kept c c' ->
  (hit_contents c' V' id lead idxs -> hit_contents c V' id lead idxs) /\
  (miss_contents c' V V' id lead idxs -> miss_contents c V V' id lead idxs).
Proof.
  intros HK. unfold hit_contents, miss_contents, written, adds_n.
  by rewrite (coded_kept _ _ _ HK), (kp_ec _ _ HK), (kp_params _ _ HK).
Qed.

Lemma counts_eq s s' : counts s' = counts s ->
  n_avail_server s' = n_avail_server s /\ cluster_req_cnt s' = cluster_req_cnt s /\
  cluster_hit_cnt s' = cluster_hit_cnt s.
Proof. unfold counts. intros Hc. by simplify_eq. Qed.

Lemma cluster_get_ok m c V sz r :
  0 <= m -> ready (m + cost c + 1) c V -> request_ok c V sz r ->
  exists idxs p lead hit c' r' V',
    ch_mapping c !! (req_obj_id_int r mod N_BUCKET) = Some idxs /\
    0 <= p < leads c /\ idxs !! Z.to_nat p = Some lead /\
    cluster_get hash rand c r = Ok (hit, c', r') /\ got m c V sz r idxs lead hit c' V' r'.
Proof.
  intros Hm RD HQ. destruct (cluster_get_enter m c V sz r Hm RD HQ)
    as (idxs & p & lead & c1 & r1 & Hmap & [AB Hcost HK Hid Hsz (Hn & Hh & Hty) Hav Hrq Hht Hmid] & ->).
  set (id := req_obj_id_int r) in *. exists idxs, p, lead.
  assert (0 <= p < leads c) as Hp.
  { destruct AB as [_ _ _ Hp _]. unfold leads in *. by rewrite (kp_ec _ _ HK), (kp_params _ _ HK) in Hp. }
  destruct (at_bucket_lead _ _ _ _ _ _ _ _ AB) as (_ & _ & Hlr & _). rewrite <- Hcost in AB.
  destruct (accounts_kept c c1 V sz r r1 idxs (holds_b V id lead) HK Hid Hsz) as [Hob Hah]. fold id in Hah.
  destruct (holds_b V id lead) eqn:Hfound.
  - destruct (get_hit_spec m c1 V sz idxs p lead r1 lead Hm AB)
      as (c2 & r2 & V' & E & HA & Hcont & Hhit & Hnn & Hty2 & Hcnt & Hmid2 & Hoff);
      rewrite ?Hid; try done; [by apply holds_b_spec| |].
    { rewrite Hty by done. unfold kind_of. by rewrite (coded_kept _ _ _ HK). }
    rewrite Hid in *. rewrite E. cbn [rbind].
    destruct (get_finish_spec m c1 V r1 c2 V' r2 id HA Hnn) as (c3 & E3 & HA3 & Hav3 & Hrq3 & Hht3 & Hmid3); [done|].
    destruct (counts_eq _ _ Hcnt) as (Ha2 & Hr2 & Hh2). exists (cluster_check c2), c3, r2, V'.
    split_and!; [done|lia|lia|apply AB|done|]. split; fold id; rewrite ?Hfound.
    + by eapply answered_from.
    + congruence.
    + by rewrite Hhit, Hah.
    + congruence.
    + rewrite Hht3, Hh2, Hht. done.
    + by rewrite Hmid3, Hmid2, Hmid, Hob.
    + by apply (contents_kept c c1 V V' id lead idxs HK).
    + by rewrite (touched_kept c c1) in Hoff.
  - destruct (get_miss_spec m c1 V sz idxs p lead r1 (admits c id) Hm AB)
      as (c2 & r2 & V' & E & HA & Hcont & Hck & Hcnt & Hmid2 & Hoff).
    rewrite Hid in *. rewrite E. cbn [rbind].
    destruct (get_finish_spec m c1 V r1 c2 V' r2 id HA) as (c3 & E3 & HA3 & Hav3 & Hrq3 & Hht3 & Hmid3).
    { rewrite Hck, Hn. pose proof (cf_n _ (rd_routed _ _ _ (ab_ready _ _ _ _ _ _ _ _ AB))). lia. }
    { by rewrite Hck, Hh. }
    destruct (counts_eq _ _ Hcnt) as (Ha2 & Hr2 & Hh2). exists (cluster_check c2), c3, r2, V'.
    split_and!; [done|lia|lia|apply AB|done|]. split; fold id; rewrite ?Hfound.
    + by eapply answered_from.
    + congruence.
    + by rewrite Hck, Hh.
    + congruence.
    + rewrite Hht3, Hh2, Hht. done.
    + by rewrite Hmid3, Hmid2, Hmid, Hob.
    + destruct (admits c id); [|done]. by apply (contents_kept c c1 V V' id lead idxs HK).
    + by rewrite (touched_kept c c1) in Hoff.
Qed.
End workload.
