(* ===== verification/Dist.v ===== *)
(** * Stack distances and access distances
      (profiler/include/distInternal.h, profiler/dist.c, profiler/profilerLRU.c)

    The reader is modelled by the list of requests it returns, in order; reading
    backwards (read_one_req_above) goes through the reversed list.  Timestamps are
    positions in that list.  A pointer returned by the hash table is the integer stored in
    it, so that a stored timestamp 0 is NULL, as in the source. *)

From S2P Require Import Prelude.
From S2P Require Import Store.
From S2P Require Import Glib.
From S2P Require Import Splay.

Section dist.
  Context {T : Type} `{G : GHashTable T}.

(** _get_last_dist_add_req *)
Definition get_last_dist_add_req (req : request) (hash_table : T) (ts : Z) : Z * T :=
  let gp := g_hash_table_lookup hash_table (req_obj_id_int req) in
  let ret := if gp =? 0 then -1 else i64 (i64 ts - i64 gp - 1) in
  (ret, g_hash_table_insert hash_table (req_obj_id_int req) ts).

(** _get_first_dist_add_req *)
Definition get_first_dist_add_req (req : request) (hash_table : T) (ts : Z) : Z * T :=
  let gp := g_hash_table_lookup hash_table (req_obj_id_int req) in
  if gp =? 0 then (-1, g_hash_table_insert hash_table (req_obj_id_int req) ts)
  else (i64 (i64 ts - i64 gp - 1), hash_table).

Definition get_stack_dist_add_req (req : request) (splay_tree : sTree) (hash_table : T) (ts : Z)
    : result (Z * sTree * T) :=
  let gp := g_hash_table_lookup hash_table (req_obj_id_int req) in
  let! '(stack_dist, newtree) :=
    (if gp =? 0 then
       let! newtree := insert (i64 ts) splay_tree in Ok (-1, newtree)
     else
       let old_ts := i64 gp in
       let! newtree := splay old_ts splay_tree in
       match newtree with
       | Leaf => Err NullDeref
       | Node _ _ _ rg =>
           let stack_dist := node_value rg in
           let! newtree := splay_delete old_ts newtree in
           let! newtree := insert (i64 ts) newtree in
           Ok (stack_dist, newtree)
       end) in
  Ok (stack_dist, newtree, g_hash_table_insert hash_table (req_obj_id_int req) ts).

(** get_byte_stack_dist_add_req has the same statements *)
Definition get_byte_stack_dist_add_req (req : request) (splay_tree : sTree) (hash_table : T) (ts : Z)
    : result (Z * sTree * T) := get_stack_dist_add_req req splay_tree hash_table ts.

(** the while loop of _get_stack_dist_seq, from timestamp [ts] *)
Fixpoint stack_dist_loop (reqs : list request) (splay_tree : sTree) (hash_table : T) (ts : Z)
    : result (list Z) :=
  match reqs with
  | [] => Ok []
  | req :: reqs =>
      let! '(rd, splay_tree, hash_table) := get_stack_dist_add_req req splay_tree hash_table ts in
      let! rest := stack_dist_loop reqs splay_tree hash_table (u64 (ts + 1)) in
      Ok (rd :: rest)
  end.

Definition get_stack_dist (reqs : list request) : result (list Z) :=
  stack_dist_loop reqs Leaf g_hash_table_new 0.

(** get_future_stack_dist: the trace is read backwards and the array filled from its end *)
Definition get_future_stack_dist (reqs : list request) : result (list Z) :=
  let! d := stack_dist_loop (rev reqs) Leaf g_hash_table_new 0 in Ok (rev d).

Fixpoint last_dist_loop (reqs : list request) (hash_table : T) (ts : Z) : list Z :=
  match reqs with
  | [] => []
  | req :: reqs =>
      let '(dist, hash_table) := get_last_dist_add_req req hash_table ts in
      dist :: last_dist_loop reqs hash_table (ts + 1)
  end.

(** _get_last_access_dist; [above] for read_one_req_above *)
Definition get_last_access_dist_gen (above : bool) (reqs : list request) : list Z :=
  if above then rev (last_dist_loop (rev reqs) g_hash_table_new 0)
  else last_dist_loop reqs g_hash_table_new 0.

Definition get_last_access_dist (reqs : list request) : list Z := get_last_access_dist_gen false reqs.
Definition get_next_access_dist (reqs : list request) : list Z := get_last_access_dist_gen true reqs.

Fixpoint first_dist_loop (reqs : list request) (hash_table : T) (ts : Z) : list Z :=
  match reqs with
  | [] => []
  | req :: reqs =>
      let '(dist, hash_table) := get_first_dist_add_req req hash_table ts in
      dist :: first_dist_loop reqs hash_table (ts + 1)
  end.

Definition get_first_access_dist (reqs : list request) : list Z :=
  first_dist_loop reqs g_hash_table_new 0.

(** the while loop of get_reuse_time; rt is a gint64 *)
Fixpoint reuse_time_loop (reqs : list request) (hash_table : T) : list Z :=
  match reqs with
  | [] => []
  | req :: reqs =>
      let value := g_hash_table_lookup hash_table (req_obj_id_int req) in
      let rt := if value =? 0 then -1 else i64 (u64 (req_real_time req - value)) in
      rt :: reuse_time_loop reqs
              (g_hash_table_insert hash_table (req_obj_id_int req) (req_real_time req))
  end.

Definition get_reuse_time (reqs : list request) : result (list Z) :=
  match reqs with
  | r :: _ => if i64 (req_real_time r) =? -1 then Err Aborted
              else Ok (reuse_time_loop reqs g_hash_table_new)
  | [] => Ok []
  end.

(** *** profilerLRU.c *)

(** hit_count_array[stack_dist + 1] += 1, when in range *)
Definition count_hit (size : Z) (arr : list Z) (stack_dist : Z) : list Z :=
  if stack_dist =? -1 then arr
  else if stack_dist + 1 <=? size
  then alter (fun c => u64 (c + 1)) (Z.to_nat (stack_dist + 1)) arr
  else arr.

Fixpoint lru_hit_loop (size : Z) (reqs : list request) (splay_tree : sTree) (hash_table : T) (ts : Z)
    (arr : list Z) : result (list Z) :=
  match reqs with
  | [] => Ok arr
  | req :: reqs =>
      let! '(sd, splay_tree, hash_table) := get_stack_dist_add_req req splay_tree hash_table ts in
      lru_hit_loop size reqs splay_tree hash_table (u64 (ts + 1)) (count_hit size arr sd)
  end.

(** the loop that accumulates the counts: arr[i] = arr[i] + arr[i - 1] *)
Fixpoint accumulate (prev : Z) (arr : list Z) : list Z :=
  match arr with
  | [] => []
  | c :: arr => let c := u64 (c + prev) in c :: accumulate c arr
  end.

(** _get_lru_hit_cnt, for a size that is not negative *)
Definition get_lru_hit_cnt (reqs : list request) (size : Z) : result (list Z) :=
  let! arr := lru_hit_loop size reqs Leaf g_hash_table_new 0 (replicate (Z.to_nat (size + 1)) 0) in
  match arr with
  | [] => Ok []
  | c :: rest => Ok (c :: accumulate c rest)
  end.

(** _get_lru_miss_cnt *)
Definition get_lru_miss_cnt (reqs : list request) (size : Z) : result (list Z) :=
  let n_req := Z.of_nat (length reqs) in
  let! hits := get_lru_hit_cnt reqs size in
  Ok ((fun h => u64 (n_req - h)) <$> hits).

(** get_lru_obj_miss_ratio up to the division: each ratio is a quotient of two counts *)
Definition get_lru_obj_miss_ratio (reqs : list request) (size : Z) : result (list (Z * Z)) :=
  let n_req := Z.of_nat (length reqs) in
  let! miss := get_lru_miss_cnt reqs size in
  let! _ := cassert (match miss with m :: _ => m =? n_req | [] => false end) in
  Ok ((fun m => (m, n_req)) <$> miss).

End dist.

(** *** Reference definitions, by counting in the trace *)

(** what precedes the first occurrence of [x] in [prev], and what follows it *)
Fixpoint split_at (x : Z) (prev : list Z) : option (list Z * list Z) :=
  match prev with
  | [] => None
  | y :: prev =>
      if y =? x then Some ([], prev)
      else match split_at x prev with Some (q, r) => Some (y :: q, r) | None => None end
  end.

(** the number of distinct objects requested since the last request for [x], with the
    previous requests listed most recent first *)
Definition distinct_since (x : Z) (prev : list Z) : option Z :=
  match split_at x prev with
  | Some (q, _) => Some (Z.of_nat (length (remove_dups q)))
  | None => None
  end.

(** what the code computes: also -1 when the last request for [x] was the first of all *)
Definition code_stack_dist (x : Z) (prev : list Z) : Z :=
  match split_at x prev with
  | Some (q, _ :: _) => Z.of_nat (length (remove_dups q))
  | _ => -1
  end.

Definition code_last_dist (x : Z) (prev : list Z) : Z :=
  match split_at x prev with
  | Some (q, _ :: _) => Z.of_nat (length q)
  | _ => -1
  end.

(** apply a function of the request and the requests before it along a trace *)
Fixpoint along {A} (f : Z -> list Z -> A) (prev : list Z) (xs : list Z) : list A :=
  match xs with
  | [] => []
  | x :: xs => f x prev :: along f (x :: prev) xs
  end.

Definition ids_of (reqs : list request) : list Z := req_obj_id_int <$> reqs.

Example dist_example :
  get_stack_dist (T := gmap Z Z)
    ((fun x => mk_request 0 x 1 0 0 None 0 0 0 true) <$> [1; 2; 3; 2; 2; 1; 3; 2]) =
  Ok [-1; -1; -1; 1; 0; -1; 2; 2].
Proof. vm_compute. reflexivity. Qed.
