(* ===== verification/DistThms.v ===== *)
(** * Correctness of the distances, and Mattson's algorithm

    [lru_stack] is the stack of last accesses, most recent first.  The invariant of the
    profiler ties the splay tree and the hash table to it; the stack distance the code
    reads off the tree is the depth of the object in the stack, which is the number of
    distinct objects requested since its last access.  The hit counts of profilerLRU.c are
    then compared with the reference LRU cache of CacheThms on objects of size 1. *)

From S2P Require Import Prelude.
From S2P Require Import Store.
From S2P Require Import Cache.
From S2P Require Import CacheSpec.
From S2P Require Import Policies.
From S2P Require Import CacheThms.
From S2P Require Import Glib.
From S2P Require Import Splay.
From S2P Require Import Dist.

(** ** The stack of last accesses *)

Abbreviation access := (Z * Z)%type.      (* object, time of its last access *)

Definition forget (x : Z) (stk : list access) : list access := filter (fun e => e.1 <> x) stk.

Definition push_access (x ts : Z) (stk : list access) : list access := (x, ts) :: forget x stk.

Fixpoint lru_stack (prev : list Z) : list access :=
  match prev with
  | [] => []
  | x :: prev => push_access x (len prev) (lru_stack prev)
  end.

Lemma forget_notin x stk : x ∉ stk.*1 -> forget x stk = stk.
Proof.
  unfold forget. induction stk as [|e stk IH]; cbn [fmap list_fmap]; [done|].
  intros [He Hs]%not_elem_of_cons. rewrite filter_cons_True by congruence. f_equal. by apply IH.
Qed.

Lemma forget_mid x o s1 s2 : x ∉ s1.*1 -> x ∉ s2.*1 -> forget x (s1 ++ (x, o) :: s2) = s1 ++ s2.
Proof.
  intros H1 H2. unfold forget. rewrite filter_app, filter_cons_False by (simpl; tauto).
  f_equal; by apply forget_notin.
Qed.

(** times decrease along the stack and objects are distinct *)
Record stack_ok (n : Z) (stk : list access) : Prop := {
  sk_nodup : NoDup stk.*1;
  sk_sorted : sorted (rev stk.*2);
  sk_bound : Forall (fun e => 0 <= e.2 < n) stk
}.

Lemma stack_split n stk x :
  stack_ok n stk -> x ∈ stk.*1 ->
  exists s1 o s2, stk = s1 ++ (x, o) :: s2 /\ x ∉ s1.*1 /\ x ∉ s2.*1 /\ forget x stk = s1 ++ s2.
Proof.
  intros [Hnd _ _] Hx. apply list_elem_of_fmap in Hx as ([y o] & Hy & Hin). simpl in Hy. subst y.
  apply list_elem_of_split in Hin as (s1 & s2 & ->).
  rewrite fmap_app in Hnd. cbn [fmap list_fmap fst] in Hnd. rewrite <- Permutation_middle in Hnd.
  apply NoDup_cons in Hnd as [Hn _].
  assert (x ∉ s1.*1 /\ x ∉ s2.*1) as [H1 H2] by set_solver.
  exists s1, o, s2. split_and!; [done..|]. by apply forget_mid.
Qed.

Lemma stack_ok_push n stk x :
  0 <= n -> stack_ok n stk -> stack_ok (n + 1) (push_access x n stk).
Proof.
  intros Hn Hok. pose proof Hok as [Hnd Hso Hb].
  assert (Hsub : forall e, e ∈ forget x stk -> e ∈ stk /\ e.1 <> x).
  { intros e He. unfold forget in He. by apply list_elem_of_filter in He as [? ?]. }
  assert (Hf : NoDup (forget x stk).*1 /\ sorted (rev (forget x stk).*2)).
  { destruct (decide (x ∈ stk.*1)) as [Hx|Hx].
    - destruct (stack_split n stk x Hok Hx) as (s1 & o & s2 & -> & H1 & H2 & ->).
      rewrite !fmap_app in *. cbn [fmap list_fmap fst snd] in *.
      rewrite <- Permutation_middle in Hnd. apply NoDup_cons in Hnd as [_ Hnd]. split; [done|].
      rewrite rev_app_distr in Hso |- *. simpl in Hso. rewrite <- app_assoc in Hso.
      apply sorted_app in Hso as (S1 & S2 & S3). apply sorted_app in S2 as (_ & S2 & _).
      apply sorted_app. split_and!; [done|done|]. intros; apply S3; set_solver.
    - by rewrite forget_notin. }
  destruct Hf as [Hnd' Hso']. unfold push_access. split; cbn [fmap list_fmap fst snd].
  - apply NoDup_cons. split; [|done]. intros Hin.
    apply list_elem_of_fmap in Hin as (e & He & Hin). destruct (Hsub e Hin). congruence.
  - simpl. apply sorted_app. split_and!; [done|by repeat constructor|].
    intros t y Ht Hy. apply list_elem_of_singleton in Hy as ->.
    apply list_elem_of_In, in_rev, list_elem_of_In in Ht.
    apply list_elem_of_fmap in Ht as (e & -> & Hin). destruct (Hsub e Hin) as [Hin' _].
    rewrite Forall_forall in Hb. apply Hb in Hin'. lia.
  - apply Forall_cons. split; [simpl; lia|]. apply Forall_forall. intros e He.
    destruct (Hsub e He) as [Hin _]. rewrite Forall_forall in Hb. apply Hb in Hin. lia.
Qed.

Lemma lru_stack_ok prev : stack_ok (len prev) (lru_stack prev).
Proof.
  induction prev as [|x prev IH]; simpl.
  - split; [constructor|constructor|constructor].
  - rewrite len_cons. replace (1 + len prev) with (len prev + 1) by lia.
    apply stack_ok_push; [apply len_nonneg|done].
Qed.

(** The stack in terms of the trace. *)
Lemma lru_stack_ids prev x : x ∈ (lru_stack prev).*1 <-> x ∈ prev.
Proof.
  induction prev as [|y prev IH]; [done|]. cbn [lru_stack push_access fmap list_fmap fst].
  rewrite !elem_of_cons, <- IH. split; (intros [->|Hx]; [by left|]).
  - right. apply list_elem_of_fmap in Hx as (e & -> & He). unfold forget in He.
    apply list_elem_of_filter in He as [_ He]. by apply list_elem_of_fmap_2.
  - destruct (decide (x = y)) as [->|Hne]; [by left|]. right.
    apply list_elem_of_fmap in Hx as (e & -> & He). apply list_elem_of_fmap_2.
    unfold forget. apply list_elem_of_filter. done.
Qed.

Lemma split_at_spec x prev :
  match split_at x prev with
  | Some (q, r) => prev = q ++ x :: r /\ x ∉ q
  | None => x ∉ prev
  end.
Proof.
  induction prev as [|y prev IH]; simpl; [apply not_elem_of_nil|].
  destruct (Z.eqb_spec y x) as [->|Hne].
  - split; [done|apply not_elem_of_nil].
  - destruct (split_at x prev) as [[q r]|].
    + destruct IH as [-> Hq]. split; [done|]. set_solver.
    + set_solver.
Qed.

(** below the objects of [q], the stack of [q ++ r] is that of [r] without them *)
Lemma lru_stack_app q r :
  exists top, lru_stack (q ++ r) = top ++ filter (fun e => e.1 ∉ q) (lru_stack r) /\
    length top = length (remove_dups q) /\ (forall x, x ∈ top.*1 <-> x ∈ q).
Proof.
  induction q as [|x q (top & Heq & Hlen & Hmem)].
  - exists []. split_and!; [|done|done]. simpl.
    assert (H : forall l : list access, filter (fun e => e.1 ∉ []) l = l).
    { induction l as [|e l IH]; [done|]. rewrite filter_cons_True by apply not_elem_of_nil. by rewrite IH. }
    by rewrite H.
  - simpl. rewrite Heq. unfold push_access, forget. rewrite filter_app.
    exists ((x, len (q ++ r)) :: filter (fun e => e.1 <> x) top). split_and!.
    + simpl. f_equal. f_equal. rewrite list_filter_filter. apply list_filter_iff.
      intros e. rewrite not_elem_of_cons. tauto.
    + simpl. case_decide as Hx.
      * assert (Hnd : NoDup top.*1).
        { destruct (lru_stack_ok (q ++ r)) as [Hnd _ _]. rewrite Heq, fmap_app in Hnd.
          by apply NoDup_app in Hnd as [? _]. }
        apply Hmem in Hx. apply list_elem_of_fmap in Hx as ([y o] & Hy & Hin). simpl in Hy. subst y.
        apply list_elem_of_split in Hin as (s1 & s2 & ->).
        rewrite fmap_app in Hnd. cbn [fmap list_fmap fst] in Hnd. rewrite <- Permutation_middle in Hnd.
        apply NoDup_cons in Hnd as [Hn _].
        assert (H1 : forget x (s1 ++ (x, o) :: s2) = s1 ++ s2) by (apply forget_mid; set_solver).
        unfold forget in H1. rewrite H1. rewrite length_app in *. simpl in *. lia.
      * assert (H1 : forget x top = top) by (apply forget_notin; by rewrite Hmem).
        unfold forget in H1. rewrite H1. simpl. by rewrite Hlen.
    + intros y. cbn [fmap list_fmap fst]. rewrite !elem_of_cons, <- Hmem. split; (intros [->|Hy]; [by left|]).
      * right. apply list_elem_of_fmap in Hy as (e & -> & He).
        apply list_elem_of_filter in He as [_ He]. by apply list_elem_of_fmap_2.
      * destruct (decide (y = x)) as [->|Hne]; [by left|]. right.
        apply list_elem_of_fmap in Hy as (e & -> & He). apply list_elem_of_fmap_2.
        apply list_elem_of_filter. done.
Qed.

(** The depth of an object in the stack is the number of distinct objects since its last
    access, and its time is the number of requests before that access. *)
Lemma lru_stack_depth x q r :
  x ∉ q -> exists s1 s2, lru_stack (q ++ x :: r) = s1 ++ (x, len r) :: s2 /\
    length s1 = length (remove_dups q).
Proof.
  intros Hx. destruct (lru_stack_app q (x :: r)) as (top & Heq & Hlen & _). rewrite Heq.
  cbn [lru_stack]. unfold push_access. rewrite filter_cons_True by done. eauto.
Qed.

(** ** The profiler follows the stack *)

Section profiler.
  Context {T : Type} {G : GHashTable T} {L : GHashTableLaws T}.
  #[local] Set Default Proof Using "All".

Record prof_ok (n : Z) (t : sTree) (h : T) (stk : list access) : Prop := {
  po_sized : sized t;
  po_keys : exists z, keys t = z ++ rev stk.*2 /\
    (z = [] \/ (z = [0] /\ 0 < n /\ Forall (fun e => 0 < e.2) stk));   (* a stale 0 may remain *)
  po_in : forall e, e ∈ stk -> g_hash_table_lookup h e.1 = e.2;
  po_out : forall x, x ∉ stk.*1 -> g_hash_table_lookup h x = 0
}.

Lemma prof_sorted n t h stk : stack_ok n stk -> prof_ok n t h stk -> sorted (keys t).
Proof.
  intros [_ Hs _] [_ (z & -> & Hz) _ _]. destruct Hz as [->|(-> & _ & Hpos)]; [done|].
  simpl. constructor; [done|]. apply Forall_forall. intros y Hy.
  apply list_elem_of_In, in_rev, list_elem_of_In, list_elem_of_fmap in Hy as (e & -> & He).
  by rewrite Forall_forall in Hpos; apply Hpos.
Qed.

Lemma prof_bound n t h stk y : stack_ok n stk -> prof_ok n t h stk -> y ∈ keys t -> 0 <= y < n.
Proof.
  intros [_ _ Hb] [_ (z & -> & Hz) _ _] [Hy|Hy]%elem_of_app.
  - destruct Hz as [->|(-> & ? & _)]; [by apply not_elem_of_nil in Hy|].
    apply list_elem_of_singleton in Hy as ->. lia.
  - apply list_elem_of_In, in_rev, list_elem_of_In, list_elem_of_fmap in Hy as (e & -> & He).
    rewrite Forall_forall in Hb. apply Hb in He. lia.
Qed.

(** inserting a key above all others puts it at the end *)
Lemma insert_last i t :
  sized t -> sorted (keys t) -> (forall y, y ∈ keys t -> y < i) -> near i t ->
  exists t', insert i t = Ok t' /\ sized t' /\ keys t' = keys t ++ [i].
Proof.
  intros Hsz Hs Hlt Hn. destruct (insert_spec i t Hsz Hs Hn) as (t' & a & b & E & Hsz' & Hk & Hold & Hs').
  exists t'. split_and!; [done|done|]. rewrite Hk in Hs'. apply sorted_mid in Hs' as [_ Hb].
  assert (b = []) as ->.
  { destruct b as [|y b]; [done|]. exfalso. assert (i < y) by (apply Hb; set_solver).
    assert (y < i); [|lia]. apply Hlt. destruct Hold as [->| ->]; set_solver. }
  rewrite Hk. destruct Hold as [->|Hold]; [by rewrite app_nil_r|].
  exfalso. assert (i < i); [|lia]. apply Hlt. rewrite Hold. set_solver.
Qed.

(** the lookups after the request *)
Lemma prof_lookups h stk x n :
  (forall e, e ∈ stk -> g_hash_table_lookup h e.1 = e.2) ->
  (forall y, y ∉ stk.*1 -> g_hash_table_lookup h y = 0) ->
  (forall e, e ∈ push_access x n stk -> g_hash_table_lookup (g_hash_table_insert h x n) e.1 = e.2) /\
  (forall y, y ∉ (push_access x n stk).*1 -> g_hash_table_lookup (g_hash_table_insert h x n) y = 0).
Proof.
  intros Hin Hout. unfold push_access, forget. split.
  - intros e [->|He]%elem_of_cons; [apply g_lookup_insert|].
    apply list_elem_of_filter in He as [Hne He]. rewrite g_lookup_insert_ne by congruence. auto.
  - intros y [Hy1 Hy2]%not_elem_of_cons. rewrite g_lookup_insert_ne by (simpl in Hy1; congruence).
    apply Hout. intros Hy. apply Hy2. apply list_elem_of_fmap in Hy as (e & -> & He).
    apply list_elem_of_fmap_2, list_elem_of_filter. simpl in Hy1. done.
Qed.

(** the distance read off a stack *)
Definition depth_of (stk : list access) (x d : Z) : Prop :=
  (exists s1 o s2, stk = s1 ++ (x, o) :: s2 /\ o <> 0 /\ d = Z.of_nat (length s1)) \/
  ((x ∉ stk.*1 \/ exists s1 s2, stk = s1 ++ (x, 0) :: s2) /\ d = -1).

Lemma prof_push n t t' h stk x z :
  (forall e, e ∈ stk -> g_hash_table_lookup h e.1 = e.2) ->
  (forall y, y ∉ stk.*1 -> g_hash_table_lookup h y = 0) ->
  0 <= n -> sized t -> keys t' = keys t ++ [n] -> sized t' ->
  keys t = z ++ rev (forget x stk).*2 ->
  (z = [] \/ (z = [0] /\ 0 < n /\ Forall (fun e => 0 < e.2) (forget x stk))) ->
  prof_ok (n + 1) t' (g_hash_table_insert h x n) (push_access x n stk).
Proof.
  intros Hin Hout Hn Hsz Hk' Hsz' Hk Hz.
  destruct (prof_lookups h stk x n Hin Hout) as [Hin' Hout'].
  split; [done| |done|done]. exists z. split.
  - rewrite Hk', Hk. unfold push_access. cbn [fmap list_fmap snd rev]. by rewrite <- app_assoc.
  - destruct Hz as [->|(-> & Hn0 & Hp)]; [by left|right]. split_and!; [done|lia|].
    by constructor.
Qed.

Lemma forget_Forall (P : access -> Prop) x stk : Forall P stk -> Forall P (forget x stk).
Proof.
  rewrite !Forall_forall. intros H e He. unfold forget in He.
  apply list_elem_of_filter in He as [_ He]. auto.
Qed.

(** the tree after an object whose last access was at time 0 is requested again *)
Lemma last_zero n stk s1 x s2 :
  stack_ok n (s1 ++ (x, 0) :: s2) -> stk = s1 ++ (x, 0) :: s2 ->
  s2 = [] /\ Forall (fun e => 0 < e.2) s1.
Proof.
  intros [_ Hs Hb] _. rewrite fmap_app, rev_app_distr in Hs. cbn [fmap list_fmap snd rev] in Hs.
  rewrite <- app_assoc in Hs. cbn [app] in Hs. apply sorted_mid in Hs as [Hlt Hgt].
  apply Forall_app in Hb as [_ [_ Hb]%Forall_cons]. split.
  - destruct s2 as [|e s2]; [done|]. exfalso. apply Forall_cons in Hb as [He _].
    assert (e.2 < 0); [|lia]. apply Hlt. cbn [fmap list_fmap rev]. set_solver.
  - apply Forall_forall. intros e He. apply Hgt.
    apply list_elem_of_In. rewrite <- in_rev. apply list_elem_of_In. by apply list_elem_of_fmap_2.
Qed.

(** One request: the distance is the depth in the stack, unless the last access was at
    time 0, and the tree and the table follow the stack. *)
Lemma get_stack_dist_add_req_spec n t h stk r :
  stack_ok n stk -> 0 <= n < 2 ^ 63 -> prof_ok n t h stk ->
  let x := req_obj_id_int r in
  exists d t', get_stack_dist_add_req r t h n = Ok (d, t', g_hash_table_insert h x n) /\
    depth_of stk x d /\ prof_ok (n + 1) t' (g_hash_table_insert h x n) (push_access x n stk).
Proof.
  intros Hok Hn HP x. pose proof HP as [Hsz (z & Hk & Hz) Hin Hout].
  pose proof (prof_sorted _ _ _ _ Hok HP) as Hs. pose proof Hok as [Hnd Hso Hb].
  pose proof (fun y => prof_bound _ _ _ _ y Hok HP) as Hbd.
  assert (Hlt : forall y, y ∈ keys t -> y < n) by (intros y Hy; by apply Hbd).
  assert (Hnear : forall t' i, (forall y, y ∈ keys t' -> y ∈ keys t) -> 0 <= i <= n -> near i t').
  { intros t' i Hin' Hi. apply (near_incl i t t'); [done|]. apply (in_window_near 0); [unfold in_window; lia|].
    apply Forall_forall. intros y Hy. specialize (Hbd y Hy). unfold in_window. lia. }
  unfold get_stack_dist_add_req. fold x. rewrite (i64_small n) by lia.
  destruct (decide (x ∈ stk.*1)) as [Hx|Hx].
  - destruct (stack_split _ _ _ Hok Hx) as (s1 & o & s2 & Hstk & H1 & H2 & Hf).
    assert (Ho : g_hash_table_lookup h x = o) by (apply (Hin (x, o)); rewrite Hstk; set_solver).
    assert (Hob : 0 <= o < n).
    { rewrite Forall_forall in Hb. apply (Hb (x, o)). rewrite Hstk. set_solver. }
    rewrite Ho. destruct (Z.eqb_spec o 0) as [->|Ho0].
    + (* the stale entry *)
      destruct (insert_last n t Hsz Hs Hlt) as (t' & -> & Hsz' & Hk'); [apply Hnear; [done|lia]|]. cbn [rbind].
      do 2 eexists. split_and!; [done|right; split; [right; eauto|done]|].
      destruct (last_zero n stk s1 x s2) as [-> Hp]; [by rewrite <- Hstk|done|].
      assert (z = []) as ->.
      { destruct Hz as [->|(_ & _ & Hp')]; [done|]. rewrite Hstk, Forall_app, Forall_cons in Hp'.
        simpl in Hp'. lia. }
      apply (prof_push n t t' h stk x [0]); try done; [lia| |].
      * rewrite Hf, Hk, Hstk, app_nil_r, fmap_app, rev_app_distr. done.
      * right. rewrite Hf, app_nil_r. split_and!; [done|lia|done].
    + rewrite (i64_small o) by lia.
      assert (Hko : keys t = (z ++ rev s2.*2) ++ o :: rev s1.*2).
      { rewrite Hk, Hstk, fmap_app, rev_app_distr. cbn [fmap list_fmap snd rev].
        rewrite <- !app_assoc. done. }
      assert (Hne : t <> Leaf) by (intros ->; simpl in Hko; by destruct (z ++ rev s2.*2)).
      destruct (splay_spec o t Hsz Hne) as (l & k & v & rg & Es & Hks & Hszs & Hsp); [apply Hnear; [done|lia]|].
      destruct (Hsp Hs) as (Hki & Hl & Hr). rewrite Es. cbn [rbind].
      assert (k = o) as -> by (apply Hki; rewrite Hko; set_solver).
      assert (Hrg : keys rg = rev s1.*2).
      { assert (Hcut : forall a b c d : list Z, a ++ o :: b = c ++ o :: d ->
          (forall y, y ∈ a -> y < o) -> (forall y, y ∈ c -> y < o) -> b = d).
        { clear. intros a. induction a as [|u a IH]; intros b [|w c] d; simpl; intros Heq Ha Hc.
          - congruence.
          - injection Heq as -> _. assert (w < w) by (apply Hc; set_solver). lia.
          - injection Heq as -> _. assert (o < o) by (apply Ha; set_solver). lia.
          - injection Heq as _ Heq. apply (IH b c d Heq); intros; [apply Ha|apply Hc]; set_solver. }
        apply (Hcut (keys l) (keys rg) (z ++ rev s2.*2)); [by rewrite Hks|done|].
        rewrite Hko in Hs. by apply sorted_mid in Hs as [? _]. }
      assert (Hkeys : keys (Node l o v rg) = keys t) by done.
      destruct (splay_delete_spec o (Node l o v rg) Hszs) as (t1 & -> & Hsz1 & _ & Hdel);
        [by rewrite Hkeys|apply Hnear; [by rewrite Hkeys|lia]|].
      cbn [rbind]. rewrite Hkeys in Hdel. specialize (Hdel _ _ Hko).
      assert (Hs1 : sorted (keys t1)).
      { rewrite Hdel. rewrite Hko in Hs. apply sorted_app in Hs as (S1 & S2 & S3).
        apply StronglySorted_inv in S2 as [S2 _]. apply sorted_app. split_and!; [done|done|].
        intros; apply S3; set_solver. }
      destruct (insert_last n t1 Hsz1 Hs1) as (t' & -> & Hsz' & Hk').
      { intros y Hy. apply Hlt. rewrite Hko. rewrite Hdel in Hy. set_solver. }
      { apply Hnear; [|lia]. intros y. rewrite Hdel, Hko. set_solver. }
      cbn [rbind]. do 2 eexists. split_and!; [done| |].
      * left. exists s1, o, s2. split_and!; [done|done|].
        destruct Hszs as (_ & _ & Hsr). rewrite sized_value, Hrg by done. unfold len.
        by rewrite length_rev, length_fmap.
      * apply (prof_push n t1 t' h stk x z); try done; [lia| |].
        -- rewrite Hf, Hdel, fmap_app, rev_app_distr. by rewrite <- app_assoc.
        -- destruct Hz as [->|(-> & ? & Hp)]; [by left|right]. split_and!; [done|done|].
           by apply forget_Forall.
  - rewrite (Hout x Hx). cbn [Z.eqb].
    destruct (insert_last n t Hsz Hs Hlt) as (t' & -> & Hsz' & Hk'); [apply Hnear; [done|lia]|]. cbn [rbind].
    do 2 eexists. split_and!; [done|right; auto|].
    apply (prof_push n t t' h stk x z); try done; [lia|by rewrite forget_notin|].
    by rewrite forget_notin.
Qed.

(** the depth in the stack of a trace, by counting in the trace *)
Lemma depth_code_stack_dist prev x d :
  depth_of (lru_stack prev) x d -> d = code_stack_dist x prev.
Proof.
  unfold code_stack_dist. pose proof (split_at_spec x prev) as Hsp.
  destruct (split_at x prev) as [[q r]|].
  - destruct Hsp as [-> Hq]. destruct (lru_stack_depth x q r Hq) as (u1 & u2 & Hu & Hlen).
    destruct (lru_stack_ok (q ++ x :: r)) as [Hnd _ _]. rewrite Hu in Hnd |- *.
    assert (Huniq : forall s1 o s2, u1 ++ (x, len r) :: u2 = s1 ++ (x, o) :: s2 -> s1 = u1 /\ o = len r).
    { clear - Hnd. intros s1 o s2 Heq.
      assert (Hi : forall a b (c d : list access) p q, NoDup ((a ++ (x, p) :: b).*1) ->
                 a ++ (x, p) :: b = c ++ (x, q) :: d -> c = a /\ q = p).
      { clear. induction a as [|e a IH]; intros b [|e' c] d p q Hnd Heq; simpl in *.
        - split; congruence.
        - exfalso. injection Heq as <- Heq. apply NoDup_cons in Hnd as [Hnd _]. apply Hnd.
          rewrite Heq, fmap_app. cbn. set_solver.
        - exfalso. injection Heq as -> Heq. apply NoDup_cons in Hnd as [Hnd _]. apply Hnd.
          rewrite fmap_app. cbn. set_solver.
        - injection Heq as -> Heq. apply NoDup_cons in Hnd as [_ Hnd].
          destruct (IH b c d p q Hnd Heq) as [-> ->]. done. }
      by apply (Hi u1 u2 s1 s2). }
    intros [(s1 & o & s2 & Heq & Ho & ->)|[[Hx|(s1 & s2 & Heq)] ->]].
    + apply Huniq in Heq as [-> ->]. destruct r; [done|]. by rewrite Hlen.
    + exfalso. apply Hx. rewrite fmap_app. cbn. set_solver.
    + apply Huniq in Heq as [_ Hr]. destruct r; [done|]. rewrite len_cons in Hr.
      pose proof (len_nonneg r). lia.
  - intros [(s1 & o & s2 & Heq & _)|[_ ->]]; [|done]. exfalso. apply Hsp.
    apply lru_stack_ids. rewrite Heq, fmap_app. cbn. set_solver.
Qed.

Lemma prof_ok_start : prof_ok 0 Leaf g_hash_table_new (lru_stack []).
Proof.
  split; [done|by exists []; split; [|left]|by intros e ?%not_elem_of_nil|].
  intros. apply g_lookup_new.
Qed.

Lemma stack_dist_loop_spec reqs : forall prev t h,
  len prev + len (ids_of reqs) < 2 ^ 63 -> prof_ok (len prev) t h (lru_stack prev) ->
  stack_dist_loop reqs t h (len prev) = Ok (along code_stack_dist prev (ids_of reqs)).
Proof.
  induction reqs as [|r reqs IH]; intros prev t h Hlen HP; [done|].
  change (ids_of (r :: reqs)) with (req_obj_id_int r :: ids_of reqs) in Hlen |- *.
  rewrite len_cons in Hlen. pose proof (len_nonneg prev). pose proof (len_nonneg (ids_of reqs)).
  destruct (get_stack_dist_add_req_spec (len prev) t h (lru_stack prev) r (lru_stack_ok prev))
    as (d & t' & E & Hd & HP'); [lia|done|].
  cbn [stack_dist_loop]. rewrite E. cbn [rbind]. rewrite u64_small by lia.
  replace (len prev + 1) with (len (req_obj_id_int r :: prev)) in * by (rewrite len_cons; lia).
  rewrite (IH (req_obj_id_int r :: prev)); [|rewrite len_cons; lia|done]. cbn [rbind].
  by rewrite (depth_code_stack_dist _ _ _ Hd).
Qed.

(** the loop from the empty history *)
Lemma get_stack_dist_along reqs :
  Z.of_nat (length reqs) < 2 ^ 63 ->
  get_stack_dist reqs = Ok (along code_stack_dist [] (ids_of reqs)).
Proof.
  intros Hlen. apply (stack_dist_loop_spec reqs []); [|apply prof_ok_start].
  unfold len, ids_of. rewrite length_fmap. simpl. lia.
Qed.

(** C28.  The stack distances of get_stack_dist: for each request the number of distinct
    objects requested since the last request for the same object, -1 for a first request
    -- and also -1 when that last request was the first one of the trace. *)
Theorem get_stack_dist_correct reqs :
  Z.of_nat (length reqs) < 2 ^ 63 ->
  get_stack_dist reqs = Ok (along code_stack_dist [] (ids_of reqs)).
Proof. apply get_stack_dist_along. Qed.

End profiler.

(** ** Distances to the last access *)

Section last_access.
  Context {T : Type} {G : GHashTable T} {L : GHashTableLaws T}.
  #[local] Set Default Proof Using "All".

Definition last_time (x : Z) (prev : list Z) : Z :=
  match split_at x prev with Some (_, r) => len r | None => 0 end.

Lemma last_dist_loop_spec reqs : forall prev h,
  len prev + len (ids_of reqs) < 2 ^ 63 ->
  (forall x, g_hash_table_lookup h x = last_time x prev) ->
  last_dist_loop reqs h (len prev) = along code_last_dist prev (ids_of reqs).
Proof.
  induction reqs as [|r reqs IH]; intros prev h Hlen Hh; [done|].
  change (ids_of (r :: reqs)) with (req_obj_id_int r :: ids_of reqs) in Hlen |- *.
  rewrite len_cons in Hlen. pose proof (len_nonneg prev). pose proof (len_nonneg (ids_of reqs)).
  cbn [last_dist_loop along]. unfold get_last_dist_add_req. set (x := req_obj_id_int r) in *.
  replace (len prev + 1) with (len (x :: prev)) by (rewrite len_cons; lia). f_equal.
  - rewrite Hh. unfold last_time, code_last_dist. pose proof (split_at_spec x prev) as Hsp.
    destruct (split_at x prev) as [[q rest]|]; [|done]. destruct Hsp as [Hp _].
    assert (Hl : len prev = len q + 1 + len rest) by (rewrite Hp; autorewrite with len; lia).
    pose proof (len_nonneg q). pose proof (len_nonneg rest).
    destruct rest as [|y rest]; [done|]. rewrite len_cons in *.
    case_bool; [pose proof (len_nonneg rest); lia|].
    rewrite (i64_small (len prev)), (i64_small (1 + len rest)) by lia. rewrite i64_small by lia.
    unfold len in *. lia.
  - apply IH; [rewrite len_cons; lia|]. intros y. unfold last_time. cbn [split_at].
    destruct (Z.eqb_spec x y) as [->|Hne]; [by rewrite g_lookup_insert|].
    rewrite g_lookup_insert_ne, Hh by done. unfold last_time.
    by destruct (split_at y prev) as [[q rest]|].
Qed.

(** get_last_access_dist gives the number of requests since the last request for the
    same object, and get_next_access_dist the number until the next one; -1 when there is
    none, and when the position of that request, counted from the end the trace is read
    from, is 0. *)
Theorem access_dist_correct reqs :
  Z.of_nat (length reqs) < 2 ^ 63 ->
  get_last_access_dist reqs = along code_last_dist [] (ids_of reqs) /\
  get_next_access_dist reqs = rev (along code_last_dist [] (rev (ids_of reqs))).
Proof.
  intros Hlen.
  assert (H : forall rs, length rs = length reqs ->
    last_dist_loop rs g_hash_table_new 0 = along code_last_dist [] (ids_of rs)).
  { intros rs Hl. apply (last_dist_loop_spec rs []); [|apply g_lookup_new].
    unfold len, ids_of. rewrite length_fmap. simpl. lia. }
  split; [by apply H|]. unfold get_next_access_dist, get_last_access_dist_gen.
  rewrite H by apply length_rev. do 2 f_equal. apply map_rev.
Qed.

End last_access.

(** ** Hit counts *)

Fixpoint count_if {A} (f : A -> bool) (l : list A) : Z :=
  match l with [] => 0 | a :: l => (if f a then 1 else 0) + count_if f l end.

Lemma count_if_bound {A} (f : A -> bool) l : 0 <= count_if f l <= Z.of_nat (length l).
Proof. induction l as [|a l IH]; simpl; [lia|]. destruct (f a); lia. Qed.

Lemma count_if_ext {A} (f g : A -> bool) l : (forall a, a ∈ l -> f a = g a) -> count_if f l = count_if g l.
Proof.
  induction l as [|a l IH]; intros H; simpl; [done|].
  rewrite H by set_solver. f_equal. apply IH. intros; apply H; set_solver.
Qed.

(** the number of distances below [c], and of distances equal to [j - 1] *)
Definition below (c : Z) (sds : list Z) : Z := count_if (fun d => (0 <=? d) && (d <? c)) sds.
Definition at_dist (j : Z) (sds : list Z) : Z := count_if (fun d => (0 <=? d) && (d + 1 =? j)) sds.

Lemma below_step c sds : below c sds = below (c - 1) sds + at_dist c sds.
Proof.
  unfold below, at_dist. induction sds as [|d sds IH]; [done|]. cbn [count_if]. rewrite IH.
  destruct (Z.leb_spec 0 d), (Z.ltb_spec d c), (Z.ltb_spec d (c - 1)), (Z.eqb_spec (d + 1) c);
    simpl; lia.
Qed.

Lemma hist_spec size sds : forall done_sds,
  0 <= size -> Forall (fun d => -1 <= d) sds ->
  Z.of_nat (length done_sds + length sds) < 2 ^ 63 ->
  foldl (count_hit size) ((fun j => at_dist j done_sds) <$> seqZ 0 (size + 1)) sds =
  (fun j => at_dist j (done_sds ++ sds)) <$> seqZ 0 (size + 1).
Proof.
  induction sds as [|d sds IH]; intros dn Hsz Hd Hlen; simpl; [by rewrite app_nil_r|].
  apply Forall_cons in Hd as [Hd Hds].
  replace (dn ++ d :: sds) with ((dn ++ [d]) ++ sds) by (by rewrite <- app_assoc).
  rewrite <- IH; [|done|done|rewrite length_app; simpl in *; lia]. f_equal.
  assert (Hsnoc : forall j, at_dist j (dn ++ [d]) = at_dist j dn + (if (0 <=? d) && (d + 1 =? j) then 1 else 0)).
  { intros j. unfold at_dist. clear. induction dn as [|a dn IH]; cbn [app count_if]; lia. }
  apply list_eq. intros k. unfold count_hit.
  assert (Hget : forall f : Z -> Z, (f <$> seqZ 0 (size + 1)) !! k =
    if decide (Z.of_nat k < size + 1) then Some (f (Z.of_nat k)) else None).
  { intros f. rewrite list_lookup_fmap. case_decide.
    - rewrite lookup_seqZ_lt by lia. simpl. by rewrite Z.add_0_l.
    - rewrite lookup_seqZ_ge by lia. done. }
  rewrite Hget. destruct (Z.eqb_spec d (-1)) as [->|Hd1].
  - rewrite Hget. case_decide; [|done]. rewrite Hsnoc. simpl. f_equal. lia.
  - destruct (Z.leb_spec (d + 1) size).
    + destruct (decide (k = Z.to_nat (d + 1))) as [->|Hk].
      * rewrite list_lookup_alter_eq, Hget. case_decide; [|lia]. simpl. f_equal. rewrite Hsnoc.
        destruct (Z.leb_spec 0 d); [|lia]. rewrite Z2Nat.id by lia. rewrite Z.eqb_refl. simpl.
        pose proof (count_if_bound (fun d' => (0 <=? d') && (d' + 1 =? d + 1)) dn).
        unfold at_dist. rewrite u64_small by lia. lia.
      * rewrite list_lookup_alter_ne by done. rewrite Hget. case_decide; [|done]. f_equal. rewrite Hsnoc.
        destruct (Z.eqb_spec (d + 1) (Z.of_nat k)); [lia|]. rewrite andb_false_r. lia.
    + rewrite Hget. case_decide; [|done]. f_equal. rewrite Hsnoc.
      destruct (Z.eqb_spec (d + 1) (Z.of_nat k)); [lia|]. rewrite andb_false_r. lia.
Qed.

Lemma accumulate_spec sds n : forall s,
  Z.of_nat (length sds) < 2 ^ 63 -> 0 <= n ->
  accumulate (below (s - 1) sds) ((fun j => at_dist j sds) <$> seqZ s n) =
  (fun c => below c sds) <$> seqZ s n.
Proof.
  intros s Hlen Hn. revert s. pattern n. apply natlike_ind; [done| |done].
  clear n Hn. intros n Hn IH s. rewrite seqZ_cons by lia. cbn [fmap list_fmap accumulate].
  rewrite Z.pred_succ.
  pose proof (count_if_bound (fun d => (0 <=? d) && (d <? s)) sds) as Hb.
  assert (Hc : u64 (at_dist s sds + below (s - 1) sds) = below s sds).
  { rewrite (below_step s) in *. fold (below s sds) in Hb. rewrite (below_step s) in Hb.
    rewrite u64_small by lia. lia. }
  rewrite Hc. f_equal. specialize (IH (Z.succ s)).
  by replace (Z.succ s - 1) with s in IH by lia.
Qed.

Section hits.
  Context {T : Type} {G : GHashTable T} {L : GHashTableLaws T}.
  #[local] Set Default Proof Using "All".

Lemma lru_hit_loop_fold size reqs : forall t h ts arr sds,
  stack_dist_loop reqs t h ts = Ok sds ->
  lru_hit_loop size reqs t h ts arr = Ok (foldl (count_hit size) arr sds).
Proof.
  induction reqs as [|r reqs IH]; intros t h ts arr sds; cbn [stack_dist_loop lru_hit_loop].
  - by intros [= <-].
  - destruct (get_stack_dist_add_req r t h ts) as [[[d t'] h']|]; [|done]. cbn [rbind].
    destruct (stack_dist_loop reqs t' h' (u64 (ts + 1))) as [rest|] eqn:E; [|done]. cbn [rbind].
    intros [= <-]. by rewrite (IH _ _ _ _ _ E).
Qed.

Lemma along_length {A} (f : Z -> list Z -> A) prev xs : length (along f prev xs) = length xs.
Proof. revert prev; induction xs as [|x xs IH]; intros prev; simpl; [done|]. by rewrite IH. Qed.

Lemma code_stack_dist_ge x prev : -1 <= code_stack_dist x prev.
Proof. unfold code_stack_dist. destruct (split_at x prev) as [[q [|y r]]|]; lia. Qed.

Lemma get_lru_hit_cnt_below reqs size :
  0 <= size -> Z.of_nat (length reqs) < 2 ^ 63 ->
  get_lru_hit_cnt reqs size =
    Ok ((fun c => below c (along code_stack_dist [] (ids_of reqs))) <$> seqZ 0 (size + 1)).
Proof.
  intros Hsz Hlen. unfold get_lru_hit_cnt.
  set (sds := along code_stack_dist [] (ids_of reqs)).
  assert (Hl : length sds = length reqs) by (unfold sds, ids_of; by rewrite along_length, length_fmap).
  rewrite (lru_hit_loop_fold size reqs _ _ _ _ sds) by (by apply get_stack_dist_along).
  cbn [rbind].
  assert (H0 : replicate (Z.to_nat (size + 1)) 0 = (fun j => at_dist j []) <$> seqZ 0 (size + 1)).
  { apply list_eq. intros k. rewrite list_lookup_fmap. destruct (decide (Z.of_nat k < size + 1)).
    - rewrite lookup_seqZ_lt by lia. by rewrite lookup_replicate_2 by lia.
    - rewrite lookup_seqZ_ge by lia. apply lookup_replicate_None. lia. }
  rewrite H0, hist_spec; [|done| |simpl; lia].
  - simpl app. rewrite seqZ_cons by lia. cbn [fmap list_fmap].
    replace (Z.pred (size + 1)) with size by lia.
    assert (Hat : at_dist 0 sds = below 0 sds).
    { unfold at_dist, below. apply count_if_ext. intros d _.
      destruct (Z.leb_spec 0 d); [|done]. simpl. case_bool; [lia|]. case_bool; [lia|done]. }
    rewrite Hat. do 2 f_equal. apply (accumulate_spec sds size 1); [lia|done].
  - assert (Hge : forall xs prev, Forall (fun d => -1 <= d) (along code_stack_dist prev xs)).
    { induction xs as [|x xs IH]; intros prev; constructor; [apply code_stack_dist_ge|apply IH]. }
    apply Hge.
Qed.

End hits.

(** ** Concrete traces *)

Definition dist_demo : list request := (fun x => mk_req x 1) <$> [7; 2; 3; 2; 2; 7; 3; 7].

Lemma get_stack_dist_correct_witness :
  get_stack_dist (T := gmap Z Z) dist_demo = Ok [-1; -1; -1; 1; 0; -1; 2; 1].
Proof.
  apply (eq_trans (get_stack_dist_correct (T := gmap Z Z) dist_demo ltac:(simpl; lia))).
  vm_compute. reflexivity.
Defined.

Lemma access_dist_correct_witness :
  get_last_access_dist (T := gmap Z Z) dist_demo = [-1; -1; -1; 1; 0; -1; 3; 1] /\
  get_next_access_dist (T := gmap Z Z) dist_demo = rev (along code_last_dist [] [7; 3; 7; 2; 2; 3; 2; 7]).
Proof. exact (access_dist_correct (T := gmap Z Z) dist_demo ltac:(simpl; lia)). Defined.
