(* ===== verification/Mattson.v ===== *)
(** * Mattson's one-pass algorithm against the simulated cache

    get_lru_hit_cnt (profilerLRU.c) claims to give, in one pass over the stack distances,
    the hits that an LRU cache of every size would have.  Here its counts are compared
    with the answers of the modelled cache itself, LRU_get run on a fresh cache. *)

From S2P Require Import Prelude.
From S2P Require Import Store.
From S2P Require Import HashTable.
From S2P Require Import HashTableSpec.
From S2P Require Import Cache.
From S2P Require Import CacheSpec.
From S2P Require Import Policies.
From S2P Require Import CacheThms.
From S2P Require Import Glib.
From S2P Require Import Splay.
From S2P Require Import Dist.
From S2P Require Import DistThms.

(** ** The LRU cache of unit objects is the top of the stack *)

Definition unit_cache (n : nat) (stk : list access) : list entry :=
  rev ((fun e => (e.1, 1)) <$> take n stk).

Definition unit_trace (xs : list Z) : list entry := (fun x => (x, 1)) <$> xs.

Lemma total_units (a : list entry) : Forall (fun e => e.2 = 1) a -> total a = Z.of_nat (length a).
Proof. induction 1; simpl; lia. Qed.

Lemma evict_oldest_units n (m : list entry) :
  Forall (fun e => e.2 = 1) m -> evict_oldest (Z.of_nat n) (rev m) = rev (take n m).
Proof.
  intros Hm. induction m as [|e m IH] using rev_ind.
  - rewrite take_nil. simpl. by case_bool; [|lia].
  - apply Forall_app in Hm as [Hm He]. rewrite rev_app_distr. simpl rev. simpl app.
    assert (Ht : total (e :: rev m) = Z.of_nat (S (length m))).
    { rewrite total_units; [simpl; by rewrite length_rev|].
      apply Forall_cons. split; [by apply Forall_inv in He|by apply Forall_rev]. }
    cbn [evict_oldest]. rewrite Ht. case_bool.
    + rewrite take_ge by (rewrite length_app; simpl; lia). by rewrite rev_app_distr.
    + rewrite IH by done. rewrite take_app_le by lia. done.
Qed.

Lemma take_forget n x stk m :
  stack_ok m stk -> take n (forget x (take (S n) stk)) = take n (forget x stk).
Proof.
  intros Hok. destruct (decide (x ∈ stk.*1)) as [Hx|Hx].
  - destruct (stack_split m stk x Hok Hx) as (s1 & o & s2 & -> & H1 & H2 & ->).
    destruct (decide (length s1 < S n)%nat) as [Hl|Hl].
    + rewrite take_app_ge by lia. destruct (S n - length s1)%nat as [|k] eqn:Hk; [lia|].
      cbn [take]. rewrite forget_mid; [|done|].
      * rewrite !take_app_ge by lia. rewrite take_take. do 2 f_equal. lia.
      * intros Hin. apply H2. rewrite fmap_take in Hin. by apply elem_of_take in Hin as (? & ?%list_elem_of_lookup_2 & _).
    + rewrite take_app_le by lia. rewrite forget_notin.
      * rewrite take_take, take_app_le by lia. f_equal. lia.
      * intros Hin. apply H1. rewrite fmap_take in Hin. by apply elem_of_take in Hin as (? & ?%list_elem_of_lookup_2 & _).
  - rewrite !forget_notin; [by rewrite take_take, Nat.min_l by lia|done|].
    intros Hin. apply Hx. rewrite fmap_take in Hin. by apply elem_of_take in Hin as (? & ?%list_elem_of_lookup_2 & _).
Qed.

Lemma forget_units x stk :
  without x ((fun e : access => (e.1, 1)) <$> stk) = (fun e => (e.1, 1)) <$> forget x stk.
Proof.
  unfold without, forget. induction stk as [|e stk IH]; [done|]. cbn [fmap list_fmap].
  destruct (decide (e.1 = x)) as [He|He].
  - rewrite !filter_cons_False by (simpl; tauto). exact IH.
  - rewrite !filter_cons_True by done. cbn [fmap list_fmap]. by f_equal.
Qed.

Lemma without_rev x a : without x (rev a) = rev (without x a).
Proof.
  unfold without. induction a as [|e a IH]; [done|]. simpl rev. rewrite filter_app, IH.
  destruct (decide (e.1 = x)) as [He|He].
  - rewrite !filter_cons_False by (simpl; tauto). by rewrite app_nil_r.
  - by rewrite !filter_cons_True by done.
Qed.

Lemma unit_cache_cached n x stk :
  cached x (unit_cache n stk) = true <-> x ∈ (take n stk).*1.
Proof.
  rewrite cached_spec. unfold unit_cache.
  assert (H : (rev ((fun e : access => (e.1, 1)) <$> take n stk)).*1 = rev (take n stk).*1).
  { induction (take n stk) as [|e s IH]; [done|]. cbn [fmap list_fmap rev].
    rewrite fmap_app. f_equal. exact IH. }
  rewrite H, !list_elem_of_In. symmetry. apply in_rev.
Qed.

(** one request *)
Lemma unit_get n x prev :
  ref_get lru_touch evict_oldest (Z.of_nat n) (unit_cache n (lru_stack prev)) x 1 =
  (if cached x (unit_cache n (lru_stack prev)) then cache_ck_hit else cache_ck_miss,
   unit_cache n (lru_stack (x :: prev))).
Proof.
  unfold ref_get. f_equal. set (stk := lru_stack prev). destruct n as [|n].
  - simpl. unfold unit_cache. done.
  - case_bool; [|lia]. cbn [lru_stack]. fold stk. unfold push_access, unit_cache.
    assert (Ha : (if cached x (unit_cache (S n) stk)
                  then lru_touch x 1 (unit_cache (S n) stk)
                  else unit_cache (S n) stk ++ [(x, 1)]) =
                 rev ((x, 1) :: ((fun e => (e.1, 1)) <$> forget x (take (S n) stk)))).
    { simpl rev. destruct (cached x (unit_cache (S n) stk)) eqn:Hc.
      - unfold lru_touch, unit_cache. by rewrite without_rev, forget_units.
      - rewrite forget_notin; [done|]. by rewrite <- unit_cache_cached, Hc. }
    unfold unit_cache in Ha |- *.
    destruct (cached x _) in Ha |- *; rewrite Ha; rewrite evict_oldest_units by
      (apply Forall_cons; split; [done|]; apply Forall_fmap, Forall_forall; done);
    cbn [take fmap list_fmap fst]; do 2 f_equal;
    rewrite <- !fmap_take; f_equal; by eapply take_forget, lru_stack_ok.
Qed.

(** a whole trace *)
Lemma unit_run n xs : forall prev,
  (lru_run (Z.of_nat n) (unit_trace xs) (unit_cache n (lru_stack prev))).1 =
  along (fun x prev => if cached x (unit_cache n (lru_stack prev)) then cache_ck_hit else cache_ck_miss) prev xs.
Proof.
  unfold lru_run. induction xs as [|x xs IH]; intros prev; [done|].
  cbn [unit_trace fmap list_fmap ref_run along]. rewrite unit_get.
  specialize (IH (x :: prev)). unfold unit_trace in IH.
  destruct (ref_run _ _ _ _ (unit_cache n (lru_stack (x :: prev)))) as [rs a]. simpl in IH |- *.
  by rewrite IH.
Qed.

(** a hit is a stack distance below the size *)
Lemma unit_hit n x prev :
  cached x (unit_cache n (lru_stack prev)) =
  match distinct_since x prev with Some d => d <? Z.of_nat n | None => false end.
Proof.
  apply eq_true_iff_eq. rewrite unit_cache_cached. unfold distinct_since.
  pose proof (split_at_spec x prev) as Hsp. destruct (split_at x prev) as [[q r]|].
  - destruct Hsp as [-> Hq]. destruct (lru_stack_depth x q r Hq) as (s1 & s2 & Heq & Hl).
    destruct (lru_stack_ok (q ++ x :: r)) as [Hnd _ _]. rewrite Heq in Hnd |- *. rewrite <- Hl, Z.ltb_lt.
    rewrite fmap_app in Hnd. cbn [fmap list_fmap fst] in Hnd. rewrite <- Permutation_middle in Hnd.
    apply NoDup_cons in Hnd as [Hnd _]. split; intros H.
    + destruct (decide (length s1 < n)%nat); [lia|]. exfalso. apply Hnd, elem_of_app. left.
      rewrite take_app_le in H by lia. rewrite fmap_take in H.
      by apply elem_of_take in H as (? & ?%list_elem_of_lookup_2 & _).
    + rewrite take_app_ge by lia. rewrite fmap_app. apply elem_of_app. right.
      destruct (n - length s1)%nat as [|k] eqn:Hk; [lia|]. simpl. by left.
  - split; [|done]. intros H. exfalso. apply Hsp, lru_stack_ids.
    rewrite fmap_take in H. by apply elem_of_take in H as (? & ?%list_elem_of_lookup_2 & _).
Qed.

(** ** What the counts of the profiler lose *)

Definition is_hit (r : cache_ck_res_e) : bool := match r with cache_ck_hit => true | _ => false end.
Definition hits (rs : list cache_ck_res_e) : Z := count_if is_hit rs.

Definition within (c : Z) (x : Z) (prev : list Z) : bool :=
  match distinct_since x prev with Some d => d <? c | None => false end.

(** the second request for the object of the first request of the trace, when it is a hit *)
Definition lost (c : Z) (xs : list Z) : Z :=
  match xs with
  | [] => 0
  | x :: xs =>
      match split_at x xs with
      | Some (q, _) => if Z.of_nat (length (remove_dups q)) <? c then 1 else 0
      | None => 0
      end
  end.

Lemma within_code c x prev :
  (match split_at x prev with Some (_, []) => False | _ => True end) ->
  within c x prev = (0 <=? code_stack_dist x prev) && (code_stack_dist x prev <? c).
Proof.
  unfold within, distinct_since, code_stack_dist.
  destruct (split_at x prev) as [[q [|y r]]|]; [done|intros _|done].
  symmetry. rewrite <- (andb_true_l (_ <? c)) at 2. f_equal. apply Z.leb_le. lia.
Qed.

Lemma split_at_snoc x p z :
  split_at x (p ++ [z]) =
  match split_at x p with
  | Some (q, r) => Some (q, r ++ [z])
  | None => if z =? x then Some (p, []) else None
  end.
Proof.
  induction p as [|y p IH]; [done|]. simpl. rewrite IH.
  destruct (y =? x); [done|]. destruct (split_at x p) as [[q r]|]; [done|]. by destruct (z =? x).
Qed.

Lemma split_at_none x p : x ∉ p -> split_at x p = None.
Proof.
  intros H. pose proof (split_at_spec x p) as Hsp. destruct (split_at x p) as [[q r]|]; [|done].
  destruct Hsp as [-> _]. set_solver.
Qed.

(** nothing is lost once the object of the first request has been requested again *)
Lemma count_no_loss c z xs : forall p,
  z ∈ p ->
  count_if (fun b : bool => b) (along (within c) (p ++ [z]) xs) =
  below c (along code_stack_dist (p ++ [z]) xs).
Proof.
  unfold below. induction xs as [|x xs IH]; intros p Hz; [done|]. cbn [along count_if].
  specialize (IH (x :: p)). cbn [app] in IH. rewrite IH by set_solver. f_equal.
  rewrite within_code; [done|]. rewrite split_at_snoc.
  pose proof (split_at_spec x p) as Hsp. destruct (split_at x p) as [[q [|y r]]|]; [done..|].
  destruct (Z.eqb_spec z x) as [->|]; [|done]. by apply Hsp.
Qed.

Lemma remove_dups_perm (l l' : list Z) : (forall x, x ∈ l <-> x ∈ l') ->
  length (remove_dups l) = length (remove_dups l').
Proof.
  intros H. apply Permutation_length, NoDup_Permutation; [apply NoDup_remove_dups..|].
  intros x. rewrite !elem_of_remove_dups. apply H.
Qed.

Lemma last_lost c z p : z ∉ p ->
  within c z (p ++ [z]) = (Z.of_nat (length (remove_dups p)) <? c) /\
  code_stack_dist z (p ++ [z]) = -1.
Proof.
  intros Hz. unfold within, distinct_since, code_stack_dist.
  by rewrite split_at_snoc, (split_at_none z p Hz), Z.eqb_refl.
Qed.

Lemma count_loss c z xs : forall p,
  z ∉ p ->
  count_if (fun b : bool => b) (along (within c) (p ++ [z]) xs) =
  below c (along code_stack_dist (p ++ [z]) xs) +
  match split_at z xs with
  | Some (q, _) => if Z.of_nat (length (remove_dups (q ++ p))) <? c then 1 else 0
  | None => 0
  end.
Proof.
  unfold below. induction xs as [|x xs IH]; intros p Hz; [done|]. cbn [along count_if split_at].
  destruct (Z.eqb_spec x z) as [->|Hne].
  - pose proof (count_no_loss c z xs (z :: p)) as Hnl. unfold below in Hnl. cbn [app] in Hnl |- *.
    rewrite Hnl by set_solver.
    destruct (last_lost c z p Hz) as [-> ->]. simpl. ring.
  - specialize (IH (x :: p)). cbn [app] in IH. rewrite IH by set_solver.
    rewrite within_code.
    + destruct (split_at z xs) as [[q r]|]; [|lia].
      rewrite (remove_dups_perm ((x :: q) ++ p) (q ++ x :: p)) by set_solver. lia.
    + rewrite split_at_snoc. destruct (split_at x p) as [[q [|y r]]|]; [done..|].
      by destruct (Z.eqb_spec z x).
Qed.

Lemma count_trace c xs :
  count_if (fun b : bool => b) (along (within c) [] xs) = below c (along code_stack_dist [] xs) + lost c xs.
Proof.
  destruct xs as [|x xs]; [done|]. unfold below. cbn [along count_if lost].
  pose proof (count_loss c x xs []) as H. cbn [app] in H. rewrite H by apply not_elem_of_nil.
  change (within c x []) with false. change (code_stack_dist x []) with (-1). unfold below.
  cbn [Z.leb Z.compare andb]. destruct (split_at x xs) as [[q r]|]; [rewrite app_nil_r|]; ring.
Qed.

Lemma hits_along n xs : forall prev,
  hits (along (fun x prev => if cached x (unit_cache n (lru_stack prev)) then cache_ck_hit else cache_ck_miss) prev xs) =
  count_if (fun b : bool => b) (along (within (Z.of_nat n)) prev xs).
Proof.
  unfold hits. induction xs as [|x xs IH]; intros prev; [done|]. cbn [along count_if].
  rewrite IH, unit_hit. fold (within (Z.of_nat n) x prev). by destruct (within (Z.of_nat n) x prev).
Qed.

Lemma trace_of_units reqs :
  Forall (fun r => req_obj_size r = 1) reqs -> trace_of reqs = unit_trace (ids_of reqs).
Proof.
  unfold trace_of, unit_trace, ids_of. induction 1 as [|r reqs Hr _ IH]; [done|].
  cbn [fmap list_fmap]. by rewrite Hr, IH.
Qed.

Section mattson.
  Context (hash : Z -> Z) {T : Type} {G : GHashTable T} {L : GHashTableLaws T}.
  #[local] Set Default Proof Using "All".

(** C27.  Mattson's algorithm is right up to one request: for objects of size 1, entry c of the
    array of get_lru_hit_cnt is the number of hits of the simulated LRU cache of size c, less one
    when the second request for the object of the very first request of the trace is a hit (its
    stored timestamp is 0, which the code takes for a missing entry). The trace has fewer than 2^31
    - 1 requests of sizes from 1 to 2^32 - 1, the cache fewer than 2^63 bytes. *)
Theorem get_lru_hit_cnt_mattson params seed reqs size :
  0 <= p_cache_size params <= size -> size < 2 ^ 63 ->
  good_trace hash (p_cache_size params) reqs ->
  Forall (fun r => req_obj_size r = 1) reqs ->
  exists counts res st,
    get_lru_hit_cnt reqs size = Ok counts /\
    run_gets (LRU_get hash) (init params seed) reqs = Ok (res, st) /\
    counts !! Z.to_nat (p_cache_size params) = Some (hits res - lost (p_cache_size params) (ids_of reqs)).
Proof.
  intros Hc Hs Hg Hu. pose proof Hg as [_ Hlen].
  destruct (LRU_run_ref hash params seed reqs) as (res & st & a & E & Href & _); [lia|done|].
  exists ((fun c => below c (along code_stack_dist [] (ids_of reqs))) <$> seqZ 0 (size + 1)), res, st.
  split_and!; [by apply get_lru_hit_cnt_below; lia|done|].
  rewrite list_lookup_fmap, lookup_seqZ_lt by lia. simpl. f_equal. rewrite Z2Nat.id by lia.
  set (c := p_cache_size params) in *. rewrite trace_of_units in Href by done.
  pose proof (unit_run (Z.to_nat c) (ids_of reqs) []) as Hrun.
  rewrite Z2Nat.id in Hrun by lia. unfold unit_cache in Hrun. cbn [lru_stack] in Hrun.
  rewrite take_nil in Hrun. cbn [fmap list_fmap rev] in Hrun. rewrite Href in Hrun. cbn [fst] in Hrun.
  pose proof (hits_along (Z.to_nat c) (ids_of reqs) []) as Hh. unfold unit_cache in Hh.
  rewrite Hrun, Hh, Z2Nat.id, count_trace by lia. rewrite Z.add_0_l. ring.
Qed.

End mattson.

(** ** A concrete trace *)

Definition unit_demo : list request := (fun x => mk_req x 1) <$> [1; 2; 3; 2; 2; 1; 3; 2; 4; 1; 2].

Lemma get_lru_hit_cnt_mattson_witness :
  exists counts res st,
    get_lru_hit_cnt (T := gmap Z Z) unit_demo 4 = Ok counts /\
    run_gets (LRU_get id_hash) (init (small_params 3) 0) unit_demo = Ok (res, st) /\
    counts !! 3%nat = Some (hits res - lost 3 (ids_of unit_demo)).
Proof.
  apply (get_lru_hit_cnt_mattson (T := gmap Z Z) id_hash (small_params 3) 0 unit_demo 4).
  - simpl. lia.
  - lia.
  - good_demo.
  - repeat constructor.
Defined.

(** one hit is lost on it *)
Example unit_demo_lost : lost 3 (ids_of unit_demo) = 1.
Proof. reflexivity. Qed.
