(* ===== verification/PQueue.v ===== *)
(** * The priority queue (dataStructure/pqueue.c)

    A binary heap of node pointers, indexed from 1.  A node (pq_node_t of pqueue.h) holds
    its priority and its position in the array, so that the queue shares the memory of the
    nodes, [gmap Z pq_node_t], with its users.  A cell of the array that malloc or realloc
    left uninitialised is [None].  Allocations succeed.  cmppri is a parameter; getpri,
    setpri, getpos and setpos are the accessors of pq_node_t that every user passes.
    The fields obj_id and obj_id_type, which the queue never touches, are left out. *)

From S2P Require Import Prelude.

Record pqueue_pri_t := mk_pri { pri1 : Z; pri2 : Z }.

Record pq_node_t := mk_node { node_pri : pqueue_pri_t; node_pos : Z }.

Record pqueue_t := mk_pqueue {
  pq_size : Z;                 (* one more than the number of elements *)
  pq_avail : Z;
  pq_step : Z;
  pq_d : list (option Z)
}.

Abbreviation nodes := (gmap Z pq_node_t).

Definition left (i : Z) : Z := u64 (Z.shiftl i 1).
Definition right (i : Z) : Z := u64 (Z.shiftl i 1 + 1).
Definition parent (i : Z) : Z := Z.shiftr i 1.

(** q->d[i], read and written *)
Definition get_d (q : pqueue_t) (i : Z) : result Z :=
  if (0 <=? i) && (i <? pq_avail q) then
    match pq_d q !! Z.to_nat i with
    | Some (Some p) => Ok p
    | _ => Err BadAccess
    end
  else Err OutOfBounds.

Definition set_d (q : pqueue_t) (i : Z) (p : Z) : result pqueue_t :=
  if (0 <=? i) && (i <? pq_avail q)
  then Ok (mk_pqueue (pq_size q) (pq_avail q) (pq_step q) (<[Z.to_nat i := Some p]> (pq_d q)))
  else Err OutOfBounds.

Definition set_size (n : Z) (q : pqueue_t) : pqueue_t := mk_pqueue n (pq_avail q) (pq_step q) (pq_d q).

(** the accessors *)
Definition node (ns : nodes) (p : Z) : result pq_node_t :=
  if p =? 0 then Err NullDeref
  else match ns !! p with Some n => Ok n | None => Err BadAccess end.

Definition getpri (ns : nodes) (p : Z) : result pqueue_pri_t :=
  let! n := node ns p in Ok (node_pri n).
Definition setpri (ns : nodes) (p : Z) (pri : pqueue_pri_t) : result nodes :=
  let! n := node ns p in Ok (<[p := mk_node pri (node_pos n)]> ns).
Definition getpos (ns : nodes) (p : Z) : result Z :=
  let! n := node ns p in Ok (node_pos n).
Definition setpos (ns : nodes) (p : Z) (pos : Z) : result nodes :=
  let! n := node ns p in Ok (<[p := mk_node (node_pri n) pos]> ns).

Section pqueue.
  Variable cmppri : pqueue_pri_t -> pqueue_pri_t -> bool.

Definition pqueue_init (n : Z) : pqueue_t :=
  mk_pqueue 1 (u64 (n + 1)) (u64 (n + 1)) (replicate (Z.to_nat (u64 (n + 1))) None).

Definition pqueue_size (q : pqueue_t) : Z := u64 (pq_size q - 1).

(** the for loop of bubble_up, with the hole at [i] *)
Fixpoint bubble_up_loop (fuel : nat) (q : pqueue_t) (ns : nodes) (moving_pri : pqueue_pri_t) (i : Z)
    : result (pqueue_t * nodes * Z) :=
  match fuel with
  | O => Err OutOfFuel
  | S fuel =>
      let parent_node := parent i in
      if i >? 1 then
        let! p := get_d q parent_node in
        let! pri := getpri ns p in
        if cmppri pri moving_pri then
          let! q := set_d q i p in
          let! ns := setpos ns p i in
          bubble_up_loop fuel q ns moving_pri parent_node
        else Ok (q, ns, i)
      else Ok (q, ns, i)
  end.

Definition bubble_up (q : pqueue_t) (ns : nodes) (i : Z) : result (pqueue_t * nodes) :=
  let! moving_node := get_d q i in
  let! moving_pri := getpri ns moving_node in
  let! '(q, ns, i) := bubble_up_loop (S (Z.to_nat i)) q ns moving_pri i in
  let! q := set_d q i moving_node in
  let! ns := setpos ns moving_node i in
  Ok (q, ns).

Definition maxchild (q : pqueue_t) (ns : nodes) (i : Z) : result Z :=
  let child_node := left i in
  if child_node >=? pq_size q then Ok 0
  else if u64 (child_node + 1) <? pq_size q then
    let! l := get_d q child_node in
    let! lpri := getpri ns l in
    let! r := get_d q (u64 (child_node + 1)) in
    let! rpri := getpri ns r in
    Ok (if cmppri lpri rpri then u64 (child_node + 1) else child_node)
  else Ok child_node.

(** the while loop of percolate_down *)
Fixpoint percolate_loop (fuel : nat) (q : pqueue_t) (ns : nodes) (moving_pri : pqueue_pri_t) (i : Z)
    : result (pqueue_t * nodes * Z) :=
  match fuel with
  | O => Err OutOfFuel
  | S fuel =>
      let! child_node := maxchild q ns i in
      if negb (child_node =? 0) then
        let! p := get_d q child_node in
        let! pri := getpri ns p in
        if cmppri moving_pri pri then
          let! q := set_d q i p in
          let! ns := setpos ns p i in
          percolate_loop fuel q ns moving_pri child_node
        else Ok (q, ns, i)
      else Ok (q, ns, i)
  end.

Definition percolate_down (q : pqueue_t) (ns : nodes) (i : Z) : result (pqueue_t * nodes) :=
  let! moving_node := get_d q i in
  let! moving_pri := getpri ns moving_node in
  let! '(q, ns, i) := percolate_loop (S (Z.to_nat (pq_size q))) q ns moving_pri i in
  let! q := set_d q i moving_node in
  let! ns := setpos ns moving_node i in
  Ok (q, ns).

(** the queue is not NULL; the result is the C function's *)
Definition pqueue_insert (q : pqueue_t) (ns : nodes) (d : Z) : result (Z * pqueue_t * nodes) :=
  (* allocate more memory if necessary *)
  let q :=
    if pq_size q >=? pq_avail q then
      let newsize := u64 (pq_size q + pq_step q) in
      mk_pqueue (pq_size q) newsize (pq_step q)
        (take (Z.to_nat newsize) (pq_d q) ++
         replicate (Z.to_nat newsize - length (pq_d q)) None)
    else q in
  let i := pq_size q in
  let q := set_size (u64 (pq_size q + 1)) q in
  let! q := set_d q i d in
  let! '(q, ns) := bubble_up q ns i in
  Ok (0, q, ns).

Definition pqueue_change_priority (q : pqueue_t) (ns : nodes) (new_pri : pqueue_pri_t) (d : Z)
    : result (pqueue_t * nodes) :=
  let! old_pri := getpri ns d in
  let! ns := setpri ns d new_pri in
  let! posn := getpos ns d in
  if cmppri old_pri new_pri then bubble_up q ns posn else percolate_down q ns posn.

Definition pqueue_remove (q : pqueue_t) (ns : nodes) (d : Z) : result (Z * pqueue_t * nodes) :=
  let! posn := getpos ns d in
  let q := set_size (u64 (pq_size q - 1)) q in
  let! last := get_d q (pq_size q) in
  let! q := set_d q posn last in
  let! dpri := getpri ns d in
  let! p := get_d q posn in
  let! pri := getpri ns p in
  let! '(q, ns) := (if cmppri dpri pri then bubble_up q ns posn else percolate_down q ns posn) in
  Ok (0, q, ns).

(** NULL is 0 *)
Definition pqueue_pop (q : pqueue_t) (ns : nodes) : result (Z * pqueue_t * nodes) :=
  if pq_size q =? 1 then Ok (0, q, ns)
  else
    let! head := get_d q 1 in
    let q := set_size (u64 (pq_size q - 1)) q in
    let! last := get_d q (pq_size q) in
    let! q := set_d q 1 last in
    let! '(q, ns) := percolate_down q ns 1 in
    Ok (head, q, ns).

Definition pqueue_peek (q : pqueue_t) : result Z :=
  if pq_size q =? 1 then Ok 0 else get_d q 1.

(** the while loop of pqueue_print; the printed elements are returned *)
Fixpoint print_loop (fuel : nat) (dup : pqueue_t) (ns : nodes) : result (list Z * nodes) :=
  match fuel with
  | O => Err OutOfFuel
  | S fuel =>
      let! '(e, dup, ns) := pqueue_pop dup ns in
      if e =? 0 then Ok ([], ns)
      else let! '(es, ns) := print_loop fuel dup ns in Ok (e :: es, ns)
  end.

(** pqueue_print: the elements of the copy are the nodes of the queue itself.  The copy
    has pq_size + 1 allocated cells, whatever avail says. *)
Definition pqueue_print (q : pqueue_t) (ns : nodes) : result (list Z * nodes) :=
  let dup := pqueue_init (pq_size q) in
  let dup := mk_pqueue (pq_size q) (pq_avail q) (pq_step q)
               (take (Z.to_nat (pq_size q)) (pq_d q) ++ drop (Z.to_nat (pq_size q)) (pq_d dup)) in
  print_loop (S (Z.to_nat (pq_size q))) dup ns.

(** the positions are ints *)
Fixpoint subtree_is_valid (fuel : nat) (q : pqueue_t) (ns : nodes) (pos : Z) : result bool :=
  match fuel with
  | O => Err OutOfFuel
  | S fuel =>
      let child c :=
        (if c <? i32 (pq_size q) then
           let! p := get_d q pos in
           let! ppri := getpri ns p in
           let! r := get_d q c in
           let! cpri := getpri ns r in
           if cmppri ppri cpri then Ok false else subtree_is_valid fuel q ns c
         else Ok true) in
      let! lok := child (i32 (Z.shiftl pos 1)) in
      if lok then child (i32 (Z.shiftl pos 1 + 1)) else Ok false
  end.

Definition pqueue_is_valid (q : pqueue_t) (ns : nodes) : result bool :=
  subtree_is_valid (S (Z.to_nat (pq_size q))) q ns 1.

End pqueue.

(** The comparisons of the users: LFU.c pops the smallest pri1 first and among equals the
    smallest pri2; Optimal.c pops the largest pri1 first. *)
Definition LFU_cmp_pri (next curr : pqueue_pri_t) : bool :=
  if pri1 next =? pri1 curr then pri2 next >? pri2 curr else pri1 next >? pri1 curr.

Definition Optimal_cmp_pri (next curr : pqueue_pri_t) : bool := pri1 next <? pri1 curr.

(** ** Orders *)

(** what the queue needs of cmppri: a strict weak order, [cmppri a b] meaning that [b] is
    to be popped before [a] *)
Class PriOrder (cmp : pqueue_pri_t -> pqueue_pri_t -> bool) := {
  cmp_asym : forall a b, cmp a b = true -> cmp b a = false;
  cmp_weak : forall a b c, cmp a b = false -> cmp b c = false -> cmp a c = false
}.

#[export] Instance LFU_order : PriOrder LFU_cmp_pri.
Proof.
  split; unfold LFU_cmp_pri; intros.
  - repeat case_match; lia.
  - repeat case_match; lia.
Qed.

#[export] Instance Optimal_order : PriOrder Optimal_cmp_pri.
Proof. split; unfold Optimal_cmp_pri; intros; lia. Qed.

Example pqueue_example :
  (let ns := list_to_map ((fun k => (k, mk_node (mk_pri (k mod 3) k) 0)) <$> [1; 2; 3; 4; 5; 6]) : nodes in
   let! '(q, ns) := rfold (fun '(q, ns) k => let! '(_, q, ns) := pqueue_insert LFU_cmp_pri q ns k in Ok (q, ns))
      [1; 2; 3; 4; 5; 6] (pqueue_init 3, ns) in
   let! '(l, _) := pqueue_print LFU_cmp_pri q ns in Ok l) = Ok [3; 6; 1; 4; 2; 5].
Proof. vm_compute. reflexivity. Qed.
