(* ===== verification/PQueueSpec.v ===== *)
(** * Correctness of the priority queue

    [queue_ok q ns C]: the array is a heap of the nodes of [C], each of which stores its
    position.  The loops keep a hole in the array: [rep q ns v h] says what the array
    means when the node [v h] is not stored yet. *)

From Stdlib Require Import Sorted.
From S2P Require Import Prelude.
From S2P Require Import PQueue.

(** ** Heaps as functions from positions *)

Definition swap {A} (f : Z -> A) (i j k : Z) : A :=
  if k =? i then f j else if k =? j then f i else f k.

Definition mem (v : Z -> Z) (n p : Z) : Prop := exists i, 1 <= i < n /\ v i = p.

Lemma mem_swap v n i j p : 1 <= i < n -> 1 <= j < n -> mem (swap v i j) n p <-> mem v n p.
Proof.
  intros Hi Hj. unfold mem, swap. split; intros (k & Hk & <-).
  - repeat case_bool; eauto.
  - destruct (Z.eq_dec k i) as [->|]; [|destruct (Z.eq_dec k j) as [->|]].
    + exists j. split; [done|]. repeat case_bool; congruence.
    + exists i. split; [done|]. repeat case_bool; congruence.
    + exists k. split; [done|]. repeat case_bool; congruence.
Qed.

Section heap.
  Context (cmp : pqueue_pri_t -> pqueue_pri_t -> bool) {O : PriOrder cmp}.
  Implicit Types f : Z -> pqueue_pri_t.
  #[local] Set Default Proof Using "All".

Definition edge f (k : Z) : Prop := cmp (f (k / 2)) (f k) = false.

Definition heap f (n : Z) : Prop := forall k, 2 <= k < n -> edge f k.

(** below a hole the grandparent's edges hold *)
Definition bridged f (n i : Z) : Prop :=
  forall k, 2 <= k < n -> k / 2 = i -> 2 <= i -> cmp (f (i / 2)) (f k) = false.

Definition up_ok f (n i : Z) : Prop :=
  (forall k, 2 <= k < n -> k <> i -> edge f k) /\ bridged f n i.
Definition down_ok f (n i : Z) : Prop :=
  (forall k, 2 <= k < n -> k / 2 <> i -> edge f k) /\ bridged f n i.

Lemma cmp_refl a : cmp a a = false.
Proof. destruct (cmp a a) eqn:E; [|done]. by rewrite (cmp_asym a a E) in E. Qed.

Lemma half_range k : 2 <= k -> 1 <= k / 2 < k.
Proof. intros. split; [apply Z.div_le_lower_bound; lia|apply Z.div_lt; lia]. Qed.

Lemma up_ok_step f n i :
  2 <= i < n -> cmp (f (i / 2)) (f i) = true -> up_ok f n i -> up_ok (swap f i (i / 2)) n (i / 2).
Proof.
  intros Hi Hc [He Hb]. pose proof (half_range i ltac:(lia)) as Hh. pose proof (cmp_asym _ _ Hc) as Hc'.
  split.
  - intros k Hk Hne. pose proof (half_range k ltac:(lia)). unfold edge, swap.
    repeat case_bool; try lia; subst; try done.
    + apply (Hb k); [done|congruence|lia].
    + apply cmp_weak with (f (i / 2)); [done|]. replace (i / 2) with (k / 2). by apply He.
    + by apply He.
  - intros k Hk Hki Hi2. pose proof (half_range (i / 2) Hi2). pose proof (half_range k ltac:(lia)).
    unfold swap. repeat case_bool; try lia; subst.
    + by apply (He (i / 2)); lia.
    + apply cmp_weak with (f (i / 2)); [by apply (He (i / 2)); lia|].
      rewrite <- Hki at 1. by apply (He k).
Qed.

Lemma up_ok_end f n i : up_ok f n i -> (2 <= i < n -> edge f i) -> heap f n.
Proof. intros [He _] Hi k Hk. destruct (Z.eq_dec k i) as [->|]; auto. Qed.

Lemma down_ok_step f n i c :
  1 <= i -> 2 <= c < n -> c / 2 = i -> cmp (f i) (f c) = true ->
  (forall k, 2 <= k < n -> k / 2 = i -> cmp (f c) (f k) = false) ->
  down_ok f n i -> down_ok (swap f i c) n c.
Proof.
  intros Hi Hcn Hci Hc Hmax [He Hb]. pose proof (cmp_asym _ _ Hc) as Hc'.
  pose proof (half_range c ltac:(lia)). split.
  - intros k Hk Hne. pose proof (half_range k ltac:(lia)). unfold edge, swap.
    repeat case_bool; try lia; subst; try done.
    + by apply Hmax.
    + apply (Hb c); try lia.
    + by apply He.
  - intros k Hk Hkc _. pose proof (half_range k ltac:(lia)). unfold swap.
    repeat case_bool; try lia. rewrite <- Hkc. apply He; lia.
Qed.

Lemma down_ok_end f n i :
  down_ok f n i -> (forall k, 2 <= k < n -> k / 2 = i -> cmp (f i) (f k) = false) -> heap f n.
Proof.
  intros [He _] Hi k Hk. unfold edge. destruct (Z.eq_dec (k / 2) i) as [Hki|]; [|by apply He].
  rewrite Hki. by apply Hi.
Qed.

(** the root of a heap is above everything *)
Lemma heap_root f n k : heap f n -> 1 <= k < n -> cmp (f 1) (f k) = false.
Proof.
  intros Hh. induction k as [k IH] using (well_founded_induction (Z.lt_wf 0)). intros Hk.
  destruct (Z.eq_dec k 1) as [->|]; [apply cmp_refl|]. pose proof (half_range k ltac:(lia)).
  apply cmp_weak with (f (k / 2)); [apply IH; lia|]. apply Hh. lia.
Qed.

End heap.

Lemma parent_half i : parent i = i / 2.
Proof. unfold parent. by rewrite Z.shiftr_div_pow2. Qed.
Lemma left_double i : 0 <= i < 2 ^ 62 -> left i = 2 * i.
Proof. intros. unfold left. rewrite Z.shiftl_mul_pow2 by lia. rewrite u64_small; lia. Qed.

(** ** What the array and the nodes hold *)

Abbreviation pris ns := (node_pri <$> (ns : nodes)).

(** the priority of a node *)
Definition pr (P : gmap Z pqueue_pri_t) (p : Z) : pqueue_pri_t := default (mk_pri 0 0) (P !! p).

(** what no operation but an insertion changes *)
Definition shape (q : pqueue_t) : Z * Z * Z := (pq_step q, pq_avail q, Z.of_nat (length (pq_d q))).

(** the memory of the array is what avail says *)
Definition allocated (q : pqueue_t) : Prop := Z.of_nat (length (pq_d q)) = pq_avail q.

Record rep (q : pqueue_t) (ns : nodes) (v : Z -> Z) (h : Z) : Prop := {
  rp_size : 1 <= pq_size q <= pq_avail q;
  rp_avail : pq_avail q < 2 ^ 62;
  rp_len : pq_size q <= Z.of_nat (length (pq_d q));
  rp_cell : forall i, 1 <= i < pq_size q -> i <> h ->
    pq_d q !! Z.to_nat i = Some (Some (v i)) /\ exists n, ns !! v i = Some n /\ node_pos n = i;
  rp_node : forall i, 1 <= i < pq_size q -> v i <> 0 /\ is_Some (ns !! v i);
  rp_hole : forall i, 1 <= i < pq_size q -> 1 <= h < pq_size q -> v i = v h -> i = h
}.

Lemma rep_inj q ns v h i j : rep q ns v h -> 1 <= i < pq_size q -> 1 <= j < pq_size q -> v i = v j -> i = j.
Proof.
  intros R Hi Hj Hv. destruct (Z.eq_dec j h) as [->|]; [by eapply rp_hole|].
  destruct (Z.eq_dec i h) as [->|]; [symmetry; by eapply rp_hole|].
  destruct (rp_cell _ _ _ _ R i) as (_ & ni & Hi' & Hpi); [done..|].
  destruct (rp_cell _ _ _ _ R j) as (_ & nj & Hj' & Hpj); [done..|]. congruence.
Qed.

Lemma get_d_Ok q ns v h i : rep q ns v h -> 1 <= i < pq_size q -> i <> h -> get_d q i = Ok (v i).
Proof.
  intros R Hi Hne. destruct (rp_cell _ _ _ _ R i Hi Hne) as [Hd _]. pose proof (rp_size _ _ _ _ R).
  unfold get_d. rewrite Hd. by replace ((0 <=? i) && (i <? pq_avail q)) with true by (symmetry; lia).
Qed.

Lemma node_Ok q ns v h i : rep q ns v h -> 1 <= i < pq_size q -> exists n, ns !! v i = Some n /\ node ns (v i) = Ok n.
Proof.
  intros R Hi. destruct (rp_node _ _ _ _ R i Hi) as [H0 [n Hn]]. exists n. split; [done|].
  unfold node. rewrite Hn. by destruct (Z.eqb_spec (v i) 0).
Qed.

Lemma getpri_Ok q ns v h i : rep q ns v h -> 1 <= i < pq_size q -> getpri ns (v i) = Ok (pr (pris ns) (v i)).
Proof.
  intros R Hi. destruct (node_Ok _ _ _ _ i R Hi) as (n & Hn & E). unfold getpri. rewrite E. cbn [rbind].
  unfold pr. by rewrite lookup_fmap, Hn.
Qed.

Lemma pris_setpos (ns : nodes) p n i : ns !! p = Some n -> pris (<[p := mk_node (node_pri n) i]> ns) = pris ns.
Proof.
  intros Hn. rewrite fmap_insert. apply insert_id. by rewrite lookup_fmap, Hn.
Qed.

(** Storing the node [v j] in the hole [h] moves the hole to [j]; storing [v h] closes it. *)
Lemma store_step q ns v h j :
  rep q ns v h -> 1 <= h < pq_size q -> 1 <= j < pq_size q -> h <> j ->
  exists q' ns', set_d q h (v j) = Ok q' /\ setpos ns (v j) h = Ok ns' /\
    rep q' ns' (swap v h j) j /\ pq_size q' = pq_size q /\ shape q' = shape q /\ pris ns' = pris ns /\
    (forall p, ~ mem v (pq_size q) p -> ns' !! p = ns !! p).
Proof.
  intros R Hh Hj Hne. destruct (node_Ok _ _ _ _ j R Hj) as (n & Hn & En).
  pose proof R as [Hs Ha Hl Hc Hnd Hho].
  unfold set_d, setpos. rewrite En. cbn [rbind].
  replace ((0 <=? h) && (h <? pq_avail q)) with true by (symmetry; lia).
  do 2 eexists. split_and!; [done|done| |done|by unfold shape; cbn; rewrite length_insert|by apply pris_setpos|].
  - split; cbn [pq_size pq_avail pq_d]; try done.
    + rewrite length_insert. done.
    + intros i Hi Hij. unfold swap. destruct (Z.eqb_spec i h) as [->|Hih].
      * rewrite list_lookup_insert_eq by lia. split; [done|].
        eexists. by rewrite lookup_insert_eq.
      * destruct (Z.eqb_spec i j); [done|]. destruct (Hc i Hi Hih) as (Hd & n' & Hn' & Hp).
        rewrite list_lookup_insert_ne by lia. split; [done|]. exists n'. split; [|done].
        rewrite lookup_insert_ne; [done|]. intros Hv. apply Hij. symmetry. eapply rep_inj; done.
    + intros i Hi. assert (Hv : forall k, 1 <= k < pq_size q -> v k <> 0 /\
        is_Some (<[v j:=mk_node (node_pri n) h]> ns !! v k)).
      { intros k Hk. destruct (Hnd k Hk) as [H0 Hs0]. split; [done|].
        destruct (Z.eq_dec (v j) (v k)) as [E|E]; [rewrite E, lookup_insert_eq; eauto|by rewrite lookup_insert_ne]. }
      unfold swap. repeat case_bool; by apply Hv.
    + intros i Hi _. unfold swap. rewrite (proj2 (Z.eqb_neq j h)), Z.eqb_refl by done.
      repeat case_bool; intros Hv; subst; try done.
      * exfalso. apply Hne. symmetry. by eapply rep_inj.
      * exfalso. by apply n0; eapply rep_inj.
  - intros p Hp. rewrite lookup_insert_ne; [done|]. intros <-. apply Hp. by exists j.
Qed.

Lemma store_close q ns v h :
  rep q ns v h -> 1 <= h < pq_size q ->
  exists q' ns', set_d q h (v h) = Ok q' /\ setpos ns (v h) h = Ok ns' /\
    rep q' ns' v 0 /\ pq_size q' = pq_size q /\ shape q' = shape q /\ pris ns' = pris ns /\
    (forall p, ~ mem v (pq_size q) p -> ns' !! p = ns !! p).
Proof.
  intros R Hh. destruct (node_Ok _ _ _ _ h R Hh) as (n & Hn & En).
  pose proof R as [Hs Ha Hl Hc Hnd Hho].
  unfold set_d, setpos. rewrite En. cbn [rbind].
  replace ((0 <=? h) && (h <? pq_avail q)) with true by (symmetry; lia).
  do 2 eexists. split_and!; [done|done| |done|by unfold shape; cbn; rewrite length_insert|by apply pris_setpos|].
  - split; cbn [pq_size pq_avail pq_d]; try done; [rewrite length_insert; lia| | |lia].
    + intros i Hi _. destruct (Z.eq_dec i h) as [->|Hih].
      * rewrite list_lookup_insert_eq by lia. split; [done|]. eexists. by rewrite lookup_insert_eq.
      * destruct (Hc i Hi Hih) as (Hd & n' & Hn' & Hp).
        rewrite list_lookup_insert_ne by lia. split; [done|]. exists n'. split; [|done].
        rewrite lookup_insert_ne; [done|]. intros Hv. apply Hih. by apply Hho.
    + intros i Hi. destruct (Hnd i Hi) as [H0 Hs0]. split; [done|].
      destruct (Z.eq_dec (v h) (v i)) as [E|E]; [rewrite E, lookup_insert_eq; eauto|by rewrite lookup_insert_ne].
  - intros p Hp. rewrite lookup_insert_ne; [done|]. intros <-. apply Hp. by exists h.
Qed.

(** what moving nodes around keeps *)
Record moved (q : pqueue_t) (ns : nodes) (v : Z -> Z) (q' : pqueue_t) (ns' : nodes) (v' : Z -> Z) : Prop := {
  mv_size : pq_size q' = pq_size q;
  mv_step : shape q' = shape q;
  mv_pris : pris ns' = pris ns;
  mv_mem : forall p, mem v' (pq_size q) p <-> mem v (pq_size q) p;
  mv_frame : forall p, ~ mem v (pq_size q) p -> ns' !! p = ns !! p
}.

Lemma moved_refl q ns v : moved q ns v q ns v.
Proof. by split. Qed.

Lemma moved_trans q1 ns1 v1 q2 ns2 v2 q3 ns3 v3 :
  moved q1 ns1 v1 q2 ns2 v2 -> moved q2 ns2 v2 q3 ns3 v3 -> moved q1 ns1 v1 q3 ns3 v3.
Proof.
  intros [S1 T1 P1 M1 F1] [S2 T2 P2 M2 F2]. rewrite S1 in *. split; [congruence|congruence|congruence| |].
  - intros p. by rewrite M2.
  - intros p Hp. rewrite F2 by (by rewrite M1). by apply F1.
Qed.

Section pqueue.
  Context (cmp : pqueue_pri_t -> pqueue_pri_t -> bool) {O : PriOrder cmp}.
  #[local] Set Default Proof Using "All".

(** the priorities along the array *)
Abbreviation along ns v := (fun k => pr (pris ns) (v k)).

Lemma along_swap ns v i j k : pr (pris ns) (swap v i j k) = swap (along ns v) i j k.
Proof. unfold swap. by repeat case_bool. Qed.

Lemma bubble_up_loop_spec fuel : forall q ns v i,
  i < Z.of_nat fuel -> rep q ns v i -> 1 <= i < pq_size q -> up_ok cmp (along ns v) (pq_size q) i ->
  exists q' ns' v' j, bubble_up_loop cmp fuel q ns (pr (pris ns) (v i)) i = Ok (q', ns', j) /\
    rep q' ns' v' j /\ 1 <= j < pq_size q /\ v' j = v i /\
    heap cmp (along ns' v') (pq_size q) /\ moved q ns v q' ns' v'.
Proof.
  induction fuel as [|fuel IH]; intros q ns v i Hf R Hi Hup; [lia|]. cbn [bubble_up_loop].
  rewrite parent_half. destruct (Z.gtb_spec i 1) as [H1|H1].
  - pose proof (half_range cmp i ltac:(lia)) as Hh.
    rewrite (get_d_Ok _ _ _ _ (i / 2) R) by lia. cbn [rbind].
    rewrite (getpri_Ok _ _ _ _ (i / 2) R) by lia. cbn [rbind].
    destruct (cmp _ _) eqn:Hc.
    + destruct (store_step q ns v i (i / 2) R) as (q1 & ns1 & -> & -> & R1 & S1 & T1 & P1 & F1); [lia..|].
      cbn [rbind].
      assert (Hm1 : moved q ns v q1 ns1 (swap v i (i / 2))).
      { split; [done..| |done]. intros p. apply mem_swap; lia. }
      pose proof (up_ok_step cmp (along ns v) (pq_size q) i ltac:(lia) Hc Hup) as Hup1.
      destruct (IH q1 ns1 (swap v i (i / 2)) (i / 2)) as (q2 & ns2 & v2 & j & E & R2 & Hj & Hv & Hhp & Hm2).
      * lia.
      * done.
      * rewrite S1. lia.
      * rewrite S1, P1. destruct Hup1 as [He Hb].
        split; [intros k Hk Hne|intros k Hk Hki H2]; rewrite ?along_swap;
          unfold edge; rewrite ?along_swap; [by apply He|by apply Hb].
      * rewrite P1 in E. assert (Hvi : swap v i (i / 2) (i / 2) = v i).
        { unfold swap. rewrite (proj2 (Z.eqb_neq (i / 2) i)) by lia. by rewrite Z.eqb_refl. }
        rewrite Hvi in E, Hv. rewrite S1 in *. exists q2, ns2, v2, j.
        split_and!; try done; try lia. by eapply moved_trans.
    + exists q, ns, v, i. split_and!; try done; try lia; try apply moved_refl.
      eapply (up_ok_end cmp); [exact Hup|]. done.
  - exists q, ns, v, i. split_and!; try done; try lia; try apply moved_refl.
    eapply (up_ok_end cmp); [exact Hup|]. lia.
Qed.

(** what bubble_up and percolate_down achieve *)
Definition settled q ns v (r : result (pqueue_t * nodes)) : Prop :=
  exists q' ns' v', r = Ok (q', ns') /\ rep q' ns' v' 0 /\
    heap cmp (along ns' v') (pq_size q) /\ moved q ns v q' ns' v'.

Lemma bubble_up_spec q ns v i :
  rep q ns v i -> get_d q i = Ok (v i) -> 1 <= i < pq_size q -> up_ok cmp (along ns v) (pq_size q) i ->
  settled q ns v (bubble_up cmp q ns i).
Proof.
  intros R Hd Hi Hup. unfold bubble_up. rewrite Hd. cbn [rbind].
  rewrite (getpri_Ok _ _ _ _ i R Hi). cbn [rbind].
  destruct (bubble_up_loop_spec (S (Z.to_nat i)) q ns v i) as (q1 & ns1 & v1 & j & -> & R1 & Hj & Hv & Hh & Hm);
    [lia|done..|]. cbn [rbind]. rewrite <- Hv. pose proof (mv_size _ _ _ _ _ _ Hm) as S1.
  destruct (store_close q1 ns1 v1 j R1) as (q2 & ns2 & -> & Hsp & R2 & S2 & T2 & P2 & F2); [lia|]. cbn [rbind].
  rewrite Hsp. cbn [rbind]. exists q2, ns2, v1. split_and!; [done|done|by rewrite P2|].
  eapply moved_trans; [exact Hm|]. by split.
Qed.

Lemma maxchild_spec q ns v i :
  rep q ns v i -> 1 <= i < pq_size q ->
  exists c, maxchild cmp q ns i = Ok c /\
    (c = 0 /\ (forall k, 2 <= k < pq_size q -> k / 2 <> i) \/
     2 <= c < pq_size q /\ c / 2 = i /\
     forall k, 2 <= k < pq_size q -> k / 2 = i -> cmp (pr (pris ns) (v c)) (pr (pris ns) (v k)) = false).
Proof.
  intros R Hi. pose proof (rp_size _ _ _ _ R). pose proof (rp_avail _ _ _ _ R).
  unfold maxchild. rewrite left_double by lia.
  assert (Hkid : forall k, k / 2 = i <-> k = 2 * i \/ k = 2 * i + 1).
  { intros k. split.
    - intros <-. pose proof (Z.div_mod k 2 ltac:(lia)). pose proof (Z.mod_pos_bound k 2 ltac:(lia)). lia.
    - intros [->| ->]; symmetry; [apply (Z.div_unique _ _ _ 0)|apply (Z.div_unique _ _ _ 1)]; lia. }
  rewrite Z.geb_leb. destruct (Z.leb_spec (pq_size q) (2 * i)).
  - exists 0. split; [done|]. left. split; [done|]. intros k Hk Hki%Hkid. lia.
  - rewrite u64_small by lia. case_bool.
    + rewrite !(get_d_Ok _ _ _ _ _ R) by lia. cbn [rbind].
      rewrite !(getpri_Ok _ _ _ _ _ R) by lia. cbn [rbind].
      eexists. split; [done|]. right.
      destruct (cmp _ _) eqn:Hc; (split; [lia|]; split; [apply Hkid; lia|]);
        intros k Hk [->| ->]%Hkid; try apply cmp_refl; try done. by apply cmp_asym.
    + exists (2 * i). split; [done|]. right. split; [lia|]. split; [apply Hkid; lia|].
      intros k Hk [->| ->]%Hkid; [by apply cmp_refl|lia].
Qed.

Lemma percolate_loop_spec fuel : forall q ns v i,
  pq_size q - i < Z.of_nat fuel -> rep q ns v i -> 1 <= i < pq_size q ->
  down_ok cmp (along ns v) (pq_size q) i ->
  exists q' ns' v' j, percolate_loop cmp fuel q ns (pr (pris ns) (v i)) i = Ok (q', ns', j) /\
    rep q' ns' v' j /\ 1 <= j < pq_size q /\ v' j = v i /\
    heap cmp (along ns' v') (pq_size q) /\ moved q ns v q' ns' v'.
Proof.
  induction fuel as [|fuel IH]; intros q ns v i Hf R Hi Hdn; [lia|]. cbn [percolate_loop].
  destruct (maxchild_spec q ns v i R Hi) as (c & -> & [[-> Hno]|(Hc & Hci & Hmax)]); cbn [rbind].
  - exists q, ns, v, i. split_and!; try done; try lia; try apply moved_refl.
    eapply (down_ok_end cmp); [exact Hdn|]. intros k Hk Hki. by apply Hno in Hki.
  - pose proof (half_range cmp c ltac:(lia)).
    rewrite (proj2 (Z.eqb_neq c 0)) by lia. cbn [negb].
    rewrite (get_d_Ok _ _ _ _ c R) by lia. cbn [rbind].
    rewrite (getpri_Ok _ _ _ _ c R) by lia. cbn [rbind].
    destruct (cmp _ _) eqn:Hcmp.
    + destruct (store_step q ns v i c R) as (q1 & ns1 & -> & -> & R1 & S1 & T1 & P1 & F1); [lia..|].
      cbn [rbind].
      assert (Hm1 : moved q ns v q1 ns1 (swap v i c)).
      { split; [done..| |done]. intros p. apply mem_swap; lia. }
      pose proof (down_ok_step cmp (along ns v) (pq_size q) i c ltac:(lia) Hc Hci Hcmp Hmax Hdn) as Hdn1.
      destruct (IH q1 ns1 (swap v i c) c) as (q2 & ns2 & v2 & j & E & R2 & Hj & Hv & Hhp & Hm2).
      * lia.
      * done.
      * rewrite S1. lia.
      * rewrite S1, P1. destruct Hdn1 as [He Hb].
        split; [intros k Hk Hne|intros k Hk Hki H2]; rewrite ?along_swap;
          unfold edge; rewrite ?along_swap; [by apply He|by apply Hb].
      * rewrite P1 in E. assert (Hvi : swap v i c c = v i).
        { unfold swap. rewrite (proj2 (Z.eqb_neq c i)) by lia. by rewrite Z.eqb_refl. }
        rewrite Hvi in E, Hv. rewrite S1 in *. exists q2, ns2, v2, j.
        split_and!; try done; try lia. by eapply moved_trans.
    + exists q, ns, v, i. split_and!; try done; try lia; try apply moved_refl.
      eapply (down_ok_end cmp); [exact Hdn|]. intros k Hk Hki.
      apply cmp_weak with (pr (pris ns) (v c)); [done|]. by apply Hmax.
Qed.

Lemma percolate_down_spec q ns v i :
  rep q ns v i -> get_d q i = Ok (v i) -> 1 <= i < pq_size q -> down_ok cmp (along ns v) (pq_size q) i ->
  settled q ns v (percolate_down cmp q ns i).
Proof.
  intros R Hd Hi Hdn. unfold percolate_down. rewrite Hd. cbn [rbind].
  rewrite (getpri_Ok _ _ _ _ i R Hi). cbn [rbind].
  destruct (percolate_loop_spec (S (Z.to_nat (pq_size q))) q ns v i) as (q1 & ns1 & v1 & j & -> & R1 & Hj & Hv & Hh & Hm);
    [lia|done..|]. cbn [rbind]. rewrite <- Hv. pose proof (mv_size _ _ _ _ _ _ Hm) as S1.
  destruct (store_close q1 ns1 v1 j R1) as (q2 & ns2 & -> & Hsp & R2 & S2 & T2 & P2 & F2); [lia|]. cbn [rbind].
  rewrite Hsp. cbn [rbind]. exists q2, ns2, v1. split_and!; [done|done|by rewrite P2|].
  eapply moved_trans; [exact Hm|]. by split.
Qed.

Lemma percolate_down_outside q ns v i p :
  rep q ns v 0 -> pq_size q <= i < pq_avail q -> get_d q i = Ok p -> p <> 0 -> is_Some (ns !! p) ->
  ~ mem v (pq_size q) p -> heap cmp (along ns v) (pq_size q) ->
  exists q' ns', percolate_down cmp q ns i = Ok (q', ns') /\ rep q' ns' v 0 /\
    heap cmp (along ns' v) (pq_size q) /\ pq_size q' = pq_size q /\ shape q' = shape q /\
    pris ns' = pris ns /\ (forall p', p' <> p -> ns' !! p' = ns !! p').
Proof.
  intros R Hi Hd Hp0 [n Hn] Hout Hh. pose proof R as [Hs Ha Hl Hc Hnd _].
  unfold percolate_down. rewrite Hd. cbn [rbind].
  assert (En : node ns p = Ok n) by (unfold node; rewrite Hn; by destruct (Z.eqb_spec p 0)).
  unfold getpri. rewrite En. cbn [rbind percolate_loop]. unfold maxchild. rewrite left_double by lia.
  rewrite Z.geb_leb. destruct (Z.leb_spec (pq_size q) (2 * i)); [|lia]. cbn [rbind Z.eqb negb].
  unfold set_d. replace ((0 <=? i) && (i <? pq_avail q)) with true by (symmetry; lia). cbn [rbind].
  unfold setpos. rewrite En. cbn [rbind]. do 2 eexists. split; [done|].
  assert (HP : pris (<[p:=mk_node (node_pri n) i]> ns) = pris ns) by by apply pris_setpos.
  assert (Hoth : forall k, 1 <= k < pq_size q -> <[p:=mk_node (node_pri n) i]> ns !! v k = ns !! v k).
  { intros k Hk. apply lookup_insert_ne. intros ->. apply Hout. by exists k. }
  split_and!; [|by rewrite HP|done|by unfold shape; cbn; rewrite length_insert|exact HP|intros; by apply lookup_insert_ne].
  split; cbn [pq_size pq_avail pq_d]; try done; [rewrite length_insert; lia| | |lia].
  - intros k Hk _. rewrite Hoth by done. rewrite list_lookup_insert_ne by lia. apply Hc; lia.
  - intros k Hk. rewrite Hoth by done. by apply Hnd.
Qed.

(** ** The operations *)

Record queue_ok (q : pqueue_t) (ns : nodes) (C : gset Z) : Prop := {
  qo_step : 1 <= pq_step q;
  qo_rep : exists v, rep q ns v 0 /\ heap cmp (along ns v) (pq_size q) /\
    forall p, p ∈ C <-> mem v (pq_size q) p
}.

Lemma pqueue_init_ok n ns : 0 <= n < 2 ^ 62 - 1 -> queue_ok (pqueue_init n) ns ∅.
Proof.
  intros Hn. unfold pqueue_init. rewrite u64_small by lia. split; [simpl; lia|].
  exists (fun _ => 0). split; [|split; [intros k Hk; simpl in Hk; lia|]].
  - split; cbn [pq_size pq_avail pq_d]; try (intros; lia). rewrite length_replicate. lia.
  - intros p. split; [by intros ?%elem_of_empty|]. intros (i & Hi & _). simpl in Hi. lia.
Qed.

Lemma settled_ok q ns v r C :
  1 <= pq_step q -> settled q ns v r -> (forall p, p ∈ C <-> mem v (pq_size q) p) ->
  exists q' ns', r = Ok (q', ns') /\ queue_ok q' ns' C /\ pq_size q' = pq_size q /\ shape q' = shape q /\
    pris ns' = pris ns /\ (forall p, p ∉ C -> ns' !! p = ns !! p).
Proof.
  intros Hst (q' & ns' & v' & -> & R & Hh & [S T P M F]) HC. exists q', ns'.
  split_and!; [done| |done|done|done|].
  - split; [by injection T as ->|]. exists v'. rewrite S. split_and!; [done|done|]. intros p. by rewrite HC, M.
  - intros p Hp. apply F. by rewrite <- HC.
Qed.

(** more room at the end of the array *)
Lemma rep_grow q ns v a d' :
  rep q ns v 0 -> pq_avail q <= a < 2 ^ 62 -> pq_size q <= Z.of_nat (length d') ->
  (forall i, (i < length (pq_d q))%nat -> d' !! i = pq_d q !! i) ->
  rep (mk_pqueue (pq_size q) a (pq_step q) d') ns v 0.
Proof.
  intros [Hs Ha Hl Hc Hnd Hho] Hra Hl' Hd. split; cbn [pq_size pq_avail pq_d]; try done; try lia.
  intros i Hi Hi0. rewrite Hd by lia. by apply Hc.
Qed.

(** Insertion. *)
Theorem pqueue_insert_spec q ns C d :
  queue_ok q ns C -> allocated q -> d ∉ C -> d <> 0 -> is_Some (ns !! d) ->
  pq_size q + pq_step q < 2 ^ 62 ->
  exists q' ns', pqueue_insert cmp q ns d = Ok (0, q', ns') /\ queue_ok q' ns' ({[d]} ∪ C) /\
    allocated q' /\ pq_step q' = pq_step q /\ pq_size q' = pq_size q + 1 /\ pris ns' = pris ns /\
    (forall p, p ∉ {[d]} ∪ C -> ns' !! p = ns !! p).
Proof.
  intros [Hst (v & R & Hh & HC)] Hal HdC Hd0 Hd Hroom. unfold pqueue_insert. unfold allocated in *.
  set (q0 := if pq_size q >=? pq_avail q then _ else q). cbv zeta.
  assert (Hq0 : rep q0 ns v 0 /\ pq_size q0 = pq_size q /\ pq_step q0 = pq_step q /\ pq_size q < pq_avail q0 /\
    Z.of_nat (length (pq_d q0)) = pq_avail q0).
  { pose proof R as [Hs Ha Hl Hc Hnd Hho]. unfold q0. rewrite Z.geb_leb. case_bool; [|done].
    rewrite u64_small by lia. split_and!; cbn [pq_size pq_step pq_avail pq_d]; [|done|done|lia|rewrite length_app, length_take, length_replicate; lia].
    apply rep_grow; [done|lia| |].
    - rewrite length_app, length_take, length_replicate. lia.
    - intros i Hi. rewrite lookup_app_l by (rewrite length_take; lia). apply lookup_take_lt. lia. }
  destruct Hq0 as ([Hs Ha Hl Hc Hnd Hho] & S0 & T0 & A0 & L0). clearbody q0. rewrite S0 in *.
  rewrite u64_small by lia. unfold set_d at 1. cbn [set_size pq_avail pq_size pq_step pq_d].
  replace ((0 <=? pq_size q) && (pq_size q <? pq_avail q0)) with true by (symmetry; lia). cbn [rbind].
  set (n := pq_size q) in *. set (q1 := mk_pqueue _ _ _ _).
  set (v1 := fun k => if k =? n then d else v k).
  assert (Hv1n : v1 n = d) by (unfold v1; by rewrite Z.eqb_refl).
  assert (Hv1 : forall k, k <> n -> v1 k = v k) by (intros k Hk; unfold v1; by destruct (Z.eqb_spec k n)).
  assert (R1 : rep q1 ns v1 n).
  { split; cbn [q1 pq_size pq_avail pq_d]; try lia; [rewrite length_insert; lia| | |].
    - intros i Hi Hin. rewrite Hv1 by done. rewrite list_lookup_insert_ne by lia. apply Hc; lia.
    - intros i Hi. destruct (Z.eq_dec i n) as [->|Hin]; [by rewrite Hv1n|].
      rewrite Hv1 by done. apply Hnd. lia.
    - intros i Hi _ Hv. destruct (Z.eq_dec i n) as [->|Hin]; [done|]. exfalso.
      rewrite Hv1n, Hv1 in Hv by done. apply HdC, HC. exists i. split; [lia|done]. }
  destruct (settled_ok q1 ns v1 (bubble_up cmp q1 ns n) ({[d]} ∪ C)) as (q2 & ns2 & E & Hq & S & T & HP & F).
  - simpl. lia.
  - apply bubble_up_spec; [done| |simpl; lia|].
    + unfold get_d. cbn [q1 pq_avail pq_d].
      replace ((0 <=? n) && (n <? pq_avail q0)) with true by (symmetry; lia).
      by rewrite list_lookup_insert_eq, Hv1n by lia.
    + split.
      * intros k Hk Hkn. cbn [q1 pq_size] in Hk. pose proof (half_range cmp k ltac:(lia)).
        unfold edge. rewrite !Hv1 by lia. apply Hh. lia.
      * intros k Hk Hkn Hn. cbn [q1 pq_size] in Hk. pose proof (half_range cmp k ltac:(lia)). lia.
  - intros p. rewrite elem_of_union, elem_of_singleton, HC. cbn [q1 pq_size]. split.
    + intros [->|(i & Hi & <-)]; [exists n; split; [lia|done]|].
      exists i. split; [lia|]. apply Hv1. lia.
    + intros (i & Hi & <-). destruct (Z.eq_dec i n) as [->|]; [by left|]. right.
      exists i. split; [lia|]. by rewrite Hv1.
  - rewrite E. cbn [rbind]. exists q2, ns2. unfold shape in T. cbn [q1 pq_step pq_avail pq_d] in T.
    rewrite length_insert in T. injection T as T1 T2 T3. split_and!; try done; congruence.
Qed.

Lemma rep_open q ns v i : rep q ns v 0 -> 1 <= i < pq_size q -> rep q ns v i.
Proof.
  intros R Hi. pose proof R as [Hs Ha Hl Hc Hnd _]. split; try done.
  - intros k Hk _. apply Hc; lia.
  - intros k Hk _ Hv. by eapply rep_inj.
Qed.

(** Moving the last node [v m] to position [i] of a shorter queue. *)
Lemma replace_last q ns v i :
  rep q ns v 0 -> 1 <= i < pq_size q - 1 ->
  exists q1, set_d (set_size (pq_size q - 1) q) i (v (pq_size q - 1)) = Ok q1 /\
    rep q1 ns (fun k => if k =? i then v (pq_size q - 1) else v k) i /\
    get_d q1 i = Ok (v (pq_size q - 1)) /\ pq_size q1 = pq_size q - 1 /\ shape q1 = shape q.
Proof.
  intros R Hi. pose proof R as [Hs Ha Hl Hc Hnd _]. unfold set_d. cbn [set_size pq_avail pq_size pq_step pq_d].
  replace ((0 <=? i) && (i <? pq_avail q)) with true by (symmetry; lia).
  eexists. split; [done|].
  split_and!; [|unfold get_d; cbn [pq_avail pq_d]|done|by unfold shape; cbn; rewrite length_insert].
  - split; cbn [pq_size pq_avail pq_d]; try lia; [rewrite length_insert; lia| | |].
    + intros k Hk Hki. rewrite (proj2 (Z.eqb_neq k i)) by done.
      rewrite list_lookup_insert_ne by lia. apply Hc; lia.
    + intros k Hk. case_bool; apply Hnd; lia.
    + intros k Hk _. rewrite Z.eqb_refl. case_bool; [done|]. intros Hv.
      eapply rep_inj in Hv; [|exact R|lia|lia]. lia.
  - replace ((0 <=? i) && (i <? pq_avail q)) with true by (symmetry; lia).
    by rewrite list_lookup_insert_eq by lia.
Qed.

(** the nodes left when the last one replaces the one at [i] *)
Lemma mem_replace_last q ns v i p :
  rep q ns v 0 -> 1 <= i <= pq_size q - 1 ->
  mem (fun k => if k =? i then v (pq_size q - 1) else v k) (pq_size q - 1) p <->
  mem v (pq_size q) p /\ p <> v i.
Proof.
  intros R Hi. pose proof (rp_size _ _ _ _ R). split.
  - intros (k & Hk & <-). case_bool; (split; [|intros Hv; eapply rep_inj in Hv; [|exact R|lia|lia]; lia]).
    + exists (pq_size q - 1). split; [lia|done].
    + exists k. split; [lia|done].
  - intros [(k & Hk & <-) Hne]. destruct (Z.eq_dec k (pq_size q - 1)) as [->|].
    + exists i. split; [|by rewrite Z.eqb_refl]. destruct (Z.eq_dec i (pq_size q - 1)) as [->|]; [done|lia].
    + exists k. split; [lia|]. case_bool; [by subst|done].
Qed.

Lemma last_cell q ns v : rep q ns v 0 -> 2 <= pq_size q ->
  u64 (pq_size q - 1) = pq_size q - 1 /\
  get_d (set_size (pq_size q - 1) q) (pq_size q - 1) = Ok (v (pq_size q - 1)).
Proof.
  intros R Hs. pose proof (rp_size _ _ _ _ R). pose proof (rp_avail _ _ _ _ R). split.
  - rewrite u64_small; lia.
  - pose proof (get_d_Ok q ns v 0 (pq_size q - 1) R ltac:(lia) ltac:(lia)) as E. exact E.
Qed.

(** Removing the last node of the array. *)
Lemma drop_last_spec q ns v C :
  rep q ns v 0 -> heap cmp (along ns v) (pq_size q) -> 1 <= pq_step q -> 2 <= pq_size q ->
  (forall p, p ∈ C <-> mem v (pq_size q) p) ->
  exists q1 q' ns', set_d (set_size (pq_size q - 1) q) (pq_size q - 1) (v (pq_size q - 1)) = Ok q1 /\
    get_d q1 (pq_size q - 1) = Ok (v (pq_size q - 1)) /\
    percolate_down cmp q1 ns (pq_size q - 1) = Ok (q', ns') /\
    queue_ok q' ns' (C ∖ {[v (pq_size q - 1)]}) /\ pq_size q' = pq_size q - 1 /\ shape q' = shape q /\
    pris ns' = pris ns /\ (forall p, p ∉ C -> ns' !! p = ns !! p).
Proof.
  intros R Hh Hst Hs HC. pose proof R as [Hs' Ha Hl Hc Hnd _]. set (m := pq_size q - 1) in *.
  unfold set_d. cbn [set_size pq_avail pq_size pq_step pq_d].
  replace ((0 <=? m) && (m <? pq_avail q)) with true by (symmetry; lia).
  set (q1 := mk_pqueue _ _ _ _). exists q1.
  assert (Hd : get_d q1 m = Ok (v m)).
  { unfold get_d. cbn [q1 pq_avail pq_d]. replace ((0 <=? m) && (m <? pq_avail q)) with true by (symmetry; lia).
    by rewrite list_lookup_insert_eq by lia. }
  assert (R1 : rep q1 ns v 0).
  { split; cbn [q1 pq_size pq_avail pq_d]; try lia; [rewrite length_insert; lia| |].
    - intros i Hi Hi0. rewrite list_lookup_insert_ne by lia. apply Hc; lia.
    - intros i Hi. apply Hnd. lia. }
  assert (Hmem : forall p, mem v m p <-> mem v (pq_size q) p /\ p <> v m).
  { intros p. rewrite <- (mem_replace_last q ns v m p R) by lia. fold m. unfold mem.
    split; intros (k & Hk & Hv); exists k; (split; [done|]); rewrite (proj2 (Z.eqb_neq k m)) in * by lia; done. }
  destruct (Hnd m ltac:(lia)) as [H0 Hsome].
  destruct (percolate_down_outside q1 ns v m (v m) R1) as (q' & ns' & E & R' & Hh' & S' & T' & P' & F');
    [simpl; lia|done|done|done| | |].
  - cbn [q1 pq_size]. rewrite Hmem. by intros [_ ?].
  - intros k Hk. cbn [q1 pq_size] in Hk. apply Hh. lia.
  - cbn [q1 pq_size] in S', Hh'. unfold shape in T'. cbn [q1 pq_step pq_avail pq_d] in T'.
    rewrite length_insert in T'. injection T' as T1 T2 T3.
    exists q', ns'. assert (shape q' = shape q) by (unfold shape; congruence). split_and!; try done.
    + split; [lia|]. exists v. rewrite S'. split_and!; [done|done|]. intros p.
      by rewrite elem_of_difference, elem_of_singleton, HC, Hmem.
    + intros p Hp. apply F'. intros ->. apply Hp, HC. exists m. split; [lia|done].
Qed.

(** what popping returns and leaves *)
Lemma pqueue_pop_ok q ns C :
  queue_ok q ns C ->
  (C = ∅ /\ pqueue_pop cmp q ns = Ok (0, q, ns) /\ pqueue_peek q = Ok 0) \/
  (exists head q' ns', pqueue_pop cmp q ns = Ok (head, q', ns') /\ pqueue_peek q = Ok head /\
    head ∈ C /\ head <> 0 /\ queue_ok q' ns' (C ∖ {[head]}) /\ pq_size q' = pq_size q - 1 /\ shape q' = shape q /\
    (forall p, p ∈ C -> cmp (pr (pris ns) head) (pr (pris ns) p) = false) /\
    pris ns' = pris ns /\ (forall p, p ∉ C -> ns' !! p = ns !! p)).
Proof.
  intros [Hst (v & R & Hh & HC)]. pose proof (rp_size _ _ _ _ R) as Hs.
  unfold pqueue_pop, pqueue_peek. destruct (Z.eqb_spec (pq_size q) 1) as [H1|H1].
  - left. split_and!; [|done..]. apply set_eq. intros p. rewrite HC. split; [|by intros ?%elem_of_empty].
    intros (i & Hi & _). lia.
  - right. rewrite (get_d_Ok _ _ _ _ 1 R) by lia. cbn [rbind].
    destruct (last_cell q ns v R) as [-> Hlast]; [lia|]. cbn [set_size pq_size]. fold (set_size (pq_size q - 1) q).
    rewrite Hlast. cbn [rbind].
    assert (H1C : v 1 ∈ C) by (apply HC; exists 1; split; [lia|done]).
    assert (Htop : forall p, p ∈ C -> cmp (pr (pris ns) (v 1)) (pr (pris ns) p) = false).
    { intros p (k & Hk & <-)%HC. by apply (heap_root cmp (along ns v) (pq_size q)). }
    destruct (rp_node _ _ _ _ R 1 ltac:(lia)) as [H0 _].
    destruct (Z.eq_dec (pq_size q) 2) as [H2|H2].
    + destruct (drop_last_spec q ns v C R Hh Hst ltac:(lia) HC) as (q1 & q' & ns' & E1 & _ & E2 & Hq & S & T & P & F).
      rewrite H2 in *. change (2 - 1) with 1 in *. rewrite E1. cbn [rbind]. rewrite E2. cbn [rbind].
      exists (v 1), q', ns'. by split_and!.
    + destruct (replace_last q ns v 1 R ltac:(lia)) as (q1 & E1 & R1 & Hd & S1 & T1).
      rewrite E1. cbn [rbind]. set (v1 := fun k => _) in R1.
      assert (Hv1 : forall k, 2 <= k -> v1 k = v k).
      { intros k Hk. unfold v1. by destruct (Z.eqb_spec k 1); [lia|]. }
      assert (Hst1 : 1 <= pq_step q1) by (injection T1; lia).
      destruct (settled_ok q1 ns v1 (percolate_down cmp q1 ns 1) (C ∖ {[v 1]})) as (q' & ns' & E & Hq & S & T & P & F).
      * lia.
      * apply percolate_down_spec; [done|by rewrite Hd|lia|]. split; [|intros k Hk Hk1 ?; lia].
        intros k Hk Hk1. pose proof (half_range cmp k ltac:(lia)). unfold edge. rewrite !Hv1 by lia. apply Hh. lia.
      * intros p. rewrite S1. rewrite elem_of_difference, elem_of_singleton, HC.
        symmetry. apply (mem_replace_last q ns v 1 p R). lia.
      * rewrite E. cbn [rbind]. exists (v 1), q', ns'. split_and!; try done; [lia|congruence|].
        intros p Hp. apply F. set_solver.
Qed.

(** C38.  Popping and peeking. On an empty queue both give NULL. Otherwise both give a node that no
    other node of the queue ranks above; pop removes it and nothing else: the queue is again a heap
    that holds the other nodes, each knowing its position, with the priorities they had; nodes
    outside the queue are not touched. *)
Theorem pqueue_pop_spec q ns C :
  queue_ok q ns C ->
  (C = ∅ /\ pqueue_pop cmp q ns = Ok (0, q, ns) /\ pqueue_peek q = Ok 0) \/
  (exists head q' ns', pqueue_pop cmp q ns = Ok (head, q', ns') /\ pqueue_peek q = Ok head /\
    head ∈ C /\ head <> 0 /\ queue_ok q' ns' (C ∖ {[head]}) /\ pq_size q' = pq_size q - 1 /\ shape q' = shape q /\
    (forall p, p ∈ C -> cmp (pr (pris ns) head) (pr (pris ns) p) = false) /\
    pris ns' = pris ns /\ (forall p, p ∉ C -> ns' !! p = ns !! p)).
Proof. apply pqueue_pop_ok. Qed.

(** Removing a node through its stored position. *)
Theorem pqueue_remove_spec q ns C d :
  queue_ok q ns C -> d ∈ C ->
  exists q' ns', pqueue_remove cmp q ns d = Ok (0, q', ns') /\ queue_ok q' ns' (C ∖ {[d]}) /\
    pq_size q' = pq_size q - 1 /\ shape q' = shape q /\ pris ns' = pris ns /\ (forall p, p ∉ C -> ns' !! p = ns !! p).
Proof.
  intros [Hst (v & R & Hh & HC)] HdC. pose proof (rp_size _ _ _ _ R) as Hs.
  pose proof HdC as (i & Hi & Hd)%HC. subst d.
  assert (Hpos : getpos ns (v i) = Ok i).
  { destruct (node_Ok _ _ _ _ i R Hi) as (n & Hn & E). unfold getpos. rewrite E. cbn [rbind]. f_equal.
    destruct (rp_cell _ _ _ _ R i) as (_ & n' & Hn' & <-); [lia|lia|]. congruence. }
  unfold pqueue_remove. rewrite Hpos. cbn [rbind].
  destruct (last_cell q ns v R) as [-> Hlast]; [lia|]. cbn [set_size pq_size]. fold (set_size (pq_size q - 1) q).
  rewrite Hlast. cbn [rbind].
  destruct (Z.eq_dec i (pq_size q - 1)) as [->|Hne].
  - destruct (drop_last_spec q ns v C R Hh Hst ltac:(lia) HC) as (q1 & q' & ns' & -> & Hg & E2 & Hq & S & T & P & F).
    cbn [rbind]. rewrite (getpri_Ok _ _ _ _ _ R Hi). cbn [rbind]. rewrite Hg. cbn [rbind].
    rewrite (getpri_Ok _ _ _ _ _ R Hi). cbn [rbind]. rewrite (cmp_refl cmp), E2. cbn [rbind].
    exists q', ns'. by split_and!.
  - destruct (replace_last q ns v i R ltac:(lia)) as (q1 & E1 & R1 & Hd & S1 & T1).
    rewrite E1. cbn [rbind]. rewrite (getpri_Ok _ _ _ _ _ R Hi). cbn [rbind]. rewrite Hd. cbn [rbind].
    rewrite (getpri_Ok _ _ _ _ (pq_size q - 1) R) by lia. cbn [rbind].
    set (m := pq_size q - 1) in *. set (v1 := fun k => if k =? i then v m else v k) in *.
    assert (Hv1 : forall k, k <> i -> v1 k = v k) by (intros k Hk; unfold v1; by destruct (Z.eqb_spec k i)).
    assert (Hv1i : v1 i = v m) by (unfold v1; by rewrite Z.eqb_refl).
    assert (Hbr : bridged cmp (along ns v1) m i).
    { intros k Hk Hki Hi2. pose proof (half_range cmp k ltac:(lia)). pose proof (half_range cmp i Hi2).
      rewrite !Hv1 by lia. apply cmp_weak with (pr (pris ns) (v i)); [apply (Hh i); lia|].
      rewrite <- Hki at 1. apply (Hh k). lia. }
    assert (Hst1 : 1 <= pq_step q1) by (injection T1; lia).
    destruct (settled_ok q1 ns v1 (if cmp (pr (pris ns) (v i)) (pr (pris ns) (v m))
        then bubble_up cmp q1 ns i else percolate_down cmp q1 ns i) (C ∖ {[v i]})) as (q' & ns' & E & Hq & S & T & P & F).
    + lia.
    + destruct (cmp (pr (pris ns) (v i)) (pr (pris ns) (v m))) eqn:Hc.
      * apply bubble_up_spec; [done|by rewrite Hd, Hv1i|lia|]. rewrite S1. split; [|done].
        intros k Hk Hki. pose proof (half_range cmp k ltac:(lia)). unfold edge. rewrite (Hv1 k) by done.
        destruct (Z.eq_dec (k / 2) i) as [Heq|Hne2].
        -- rewrite Heq, Hv1i. apply cmp_weak with (pr (pris ns) (v i)); [by apply cmp_asym|].
           rewrite <- Heq at 1. apply (Hh k). lia.
        -- rewrite Hv1 by done. apply (Hh k). lia.
      * apply percolate_down_spec; [done|by rewrite Hd, Hv1i|lia|]. rewrite S1. split; [|done].
        intros k Hk Hki. pose proof (half_range cmp k ltac:(lia)). unfold edge. rewrite (Hv1 (k / 2)) by done.
        destruct (Z.eq_dec k i) as [->|Hne2].
        -- rewrite Hv1i. apply cmp_weak with (pr (pris ns) (v i)); [apply (Hh i); lia|done].
        -- rewrite Hv1 by done. apply (Hh k). lia.
    + intros p. rewrite S1, elem_of_difference, elem_of_singleton, HC.
      symmetry. apply (mem_replace_last q ns v i p R). lia.
    + rewrite E. cbn [rbind]. exists q', ns'. split_and!; try done; [lia|congruence|].
      intros p Hp. apply F. set_solver.
Qed.

(** Changing the priority of a node of the queue. *)
Theorem pqueue_change_priority_spec q ns C d new_pri :
  queue_ok q ns C -> d ∈ C ->
  exists q' ns', pqueue_change_priority cmp q ns new_pri d = Ok (q', ns') /\ queue_ok q' ns' C /\
    pq_size q' = pq_size q /\ shape q' = shape q /\ pris ns' = <[d := new_pri]> (pris ns) /\
    (forall p, p ∉ C -> ns' !! p = ns !! p).
Proof.
  intros [Hst (v & R & Hh & HC)] HdC. pose proof (rp_size _ _ _ _ R) as Hs.
  pose proof HdC as (i & Hi & Hd)%HC. subst d. pose proof R as [_ Ha Hl Hc Hnd _].
  destruct (node_Ok _ _ _ _ i R Hi) as (n & Hn & En).
  unfold pqueue_change_priority. rewrite (getpri_Ok _ _ _ _ i R Hi). cbn [rbind].
  unfold setpri. rewrite En. cbn [rbind]. set (ns1 := <[v i := mk_node new_pri (node_pos n)]> ns).
  assert (Hpos : node_pos n = i).
  { destruct (Hc i) as (_ & n' & Hn' & <-); [lia|lia|]. congruence. }
  assert (Hg : getpos ns1 (v i) = Ok i).
  { unfold getpos, node, ns1. rewrite lookup_insert_eq. destruct (Hnd i Hi) as [H0 _].
    destruct (Z.eqb_spec (v i) 0); [done|]. cbn [rbind node_pos]. by rewrite Hpos. }
  rewrite Hg. cbn [rbind].
  assert (R1 : rep q ns1 v i).
  { apply rep_open; [|done]. split; try done; try lia.
    - intros k Hk Hk0. destruct (Hc k Hk Hk0) as (Hdk & nk & Hnk & Hpk). split; [done|]. unfold ns1.
      destruct (Z.eq_dec (v i) (v k)) as [Hv|Hv].
      + rewrite <- Hv, lookup_insert_eq. eexists. split; [done|]. simpl.
        rewrite Hv in Hn. congruence.
      + rewrite lookup_insert_ne by done. eauto.
    - intros k Hk. destruct (Hnd k Hk) as [H0 Hsk]. split; [done|]. unfold ns1.
      destruct (Z.eq_dec (v i) (v k)) as [Hv|Hv]; [rewrite <- Hv, lookup_insert_eq; eauto|by rewrite lookup_insert_ne]. }
  assert (HP1 : pris ns1 = <[v i := new_pri]> (pris ns)) by (unfold ns1; by rewrite fmap_insert).
  assert (Hal_i : pr (pris ns1) (v i) = new_pri) by (rewrite HP1; unfold pr; by rewrite lookup_insert_eq).
  assert (Hal : forall k, 1 <= k < pq_size q -> k <> i -> pr (pris ns1) (v k) = pr (pris ns) (v k)).
  { intros k Hk Hki. rewrite HP1. unfold pr. rewrite lookup_insert_ne; [done|].
    intros Hv. apply Hki. symmetry. by eapply rep_inj. }
  assert (Hbr : bridged cmp (along ns1 v) (pq_size q) i).
  { intros k Hk Hki Hi2. pose proof (half_range cmp k ltac:(lia)). pose proof (half_range cmp i Hi2).
    rewrite !Hal by lia. apply cmp_weak with (pr (pris ns) (v i)); [apply (Hh i); lia|].
    rewrite <- Hki at 1. apply (Hh k). lia. }
  set (old_pri := pr (pris ns) (v i)) in *.
  assert (Hgd : get_d q i = Ok (v i)) by (apply (get_d_Ok _ _ _ _ i R); lia).
  destruct (settled_ok q ns1 v (if cmp old_pri new_pri then bubble_up cmp q ns1 i
      else percolate_down cmp q ns1 i) C) as (q' & ns' & E & Hq & S & T & P & F); [done| |done|].
  - destruct (cmp old_pri new_pri) eqn:Hcmp.
    + apply bubble_up_spec; [done..|]. split; [|done]. intros k Hk Hki.
      pose proof (half_range cmp k ltac:(lia)). unfold edge. rewrite (Hal k) by lia.
      destruct (Z.eq_dec (k / 2) i) as [Heq|Hne2].
      * rewrite Heq, Hal_i. apply cmp_weak with old_pri; [by apply cmp_asym|].
        unfold old_pri. rewrite <- Heq at 1. apply (Hh k). lia.
      * rewrite Hal by lia. apply (Hh k). lia.
    + apply percolate_down_spec; [done..|]. split; [|done]. intros k Hk Hki.
      pose proof (half_range cmp k ltac:(lia)). unfold edge. rewrite (Hal (k / 2)) by lia.
      destruct (Z.eq_dec k i) as [->|Hne2].
      * rewrite Hal_i. apply cmp_weak with old_pri; [apply (Hh i); lia|done].
      * rewrite Hal by lia. apply (Hh k). lia.
  - exists q', ns'. split_and!; try done; [by rewrite P|]. intros p Hp. rewrite F by done.
    unfold ns1. apply lookup_insert_ne. by intros <-.
Qed.

(** Popping everything sorts. *)
Lemma print_loop_spec fuel : forall q ns C,
  queue_ok q ns C -> (size C < fuel)%nat ->
  exists es ns', print_loop cmp fuel q ns = Ok (es, ns') /\ es ≡ₚ elements C /\
    StronglySorted (fun a b => cmp (pr (pris ns) a) (pr (pris ns) b) = false) es /\
    pris ns' = pris ns.
Proof.
  induction fuel as [|fuel IH]; intros q ns C Hq Hf; [lia|]. cbn [print_loop].
  destruct (pqueue_pop_ok q ns C Hq) as [(-> & -> & _)|(x & q1 & ns1 & -> & _ & Hx & Hx0 & Hq1 & _ & _ & Htop & HP & _)];
    cbn [rbind].
  - exists [], ns. rewrite elements_empty. by repeat constructor.
  - rewrite (proj2 (Z.eqb_neq x 0)) by done.
    destruct (IH q1 ns1 (C ∖ {[x]}) Hq1) as (es & ns' & -> & Hp & Hs & HP').
    { rewrite size_difference by set_solver. rewrite size_singleton.
      assert (size C <> 0)%nat; [|lia]. intros H0%size_empty_iff. set_solver. }
    cbn [rbind]. rewrite HP in Hs, HP'. exists (x :: es), ns'. split_and!; [done| | |done].
    + rewrite Hp. rewrite <- elements_union_singleton by set_solver. f_equiv.
      intros y. rewrite elem_of_union, elem_of_difference, elem_of_singleton.
      destruct (decide (y = x)) as [->|]; naive_solver.
    + constructor; [done|]. apply Forall_forall. intros y Hy. apply Htop.
      rewrite Hp, elem_of_elements in Hy. set_solver.
Qed.

(** pqueue_print prints every node of the queue once, in the order they would be popped. *)
Theorem pqueue_print_spec q ns C :
  queue_ok q ns C -> allocated q ->
  exists es ns', pqueue_print cmp q ns = Ok (es, ns') /\ es ≡ₚ elements C /\
    StronglySorted (fun a b => cmp (pr (pris ns) a) (pr (pris ns) b) = false) es.
Proof.
  intros [Hst (v & R & Hh & HC)] Hal. unfold pqueue_print. unfold allocated in Hal.
  pose proof R as [Hs Ha Hl Hc Hnd Hho].
  set (dup := mk_pqueue _ _ _ _).
  assert (Hlen : (pq_size q <= Z.of_nat (length (pq_d dup)))).
  { cbn [dup pq_d]. rewrite length_app, length_take. lia. }
  assert (Hq : queue_ok dup ns C).
  { split; [done|]. exists v. split_and!; [|done|done].
    split; cbn [dup pq_size pq_avail]; try done.
    intros i Hi Hi0. destruct (Hc i Hi Hi0) as [Hd Hn]. split; [|done]. cbn [dup pq_d].
    rewrite lookup_app_l by (rewrite length_take; lia). rewrite lookup_take_lt by lia. done. }
  destruct (print_loop_spec (S (Z.to_nat (pq_size q))) dup ns C Hq) as (es & ns' & E & Hp & Hso & _); [|eauto].
  (* no more nodes than cells *)
  assert (Hsub : elements C ⊆+ (v <$> seqZ 1 (pq_size q - 1))).
  { apply NoDup_submseteq; [apply NoDup_elements|]. intros p (i & Hi & <-)%elem_of_elements%HC.
    apply list_elem_of_fmap_2, elem_of_seqZ. lia. }
  apply submseteq_length in Hsub. rewrite length_fmap, length_seqZ in Hsub.
  change (size C) with (length (elements C)). lia.
Qed.

(** *** Validity *)

(** the positions below a position *)
Inductive under (pos : Z) : Z -> Prop :=
  | under_child k : 2 <= k -> k / 2 = pos -> under pos k
  | under_step k : 2 <= k -> under pos (k / 2) -> under pos k.

Lemma halves k pos : k / 2 = pos <-> k = 2 * pos \/ k = 2 * pos + 1.
Proof.
  split.
  - intros <-. pose proof (Z.div_mod k 2 ltac:(lia)). pose proof (Z.mod_pos_bound k 2 ltac:(lia)). lia.
  - intros [->| ->]; symmetry; [apply (Z.div_unique _ _ _ 0)|apply (Z.div_unique _ _ _ 1)]; lia.
Qed.

Lemma under_lt pos k : 1 <= pos -> under pos k -> 2 * pos <= k.
Proof.
  intros Hp. induction 1 as [k Hk Hkp|k Hk _ IH].
  - apply halves in Hkp. lia.
  - pose proof (Z.div_mod k 2 ltac:(lia)). pose proof (Z.mod_pos_bound k 2 ltac:(lia)). lia.
Qed.

Lemma under_cases pos k : 1 <= pos ->
  under pos k <-> (k = 2 * pos \/ under (2 * pos) k) \/ (k = 2 * pos + 1 \/ under (2 * pos + 1) k).
Proof.
  intros Hp. split.
  - induction 1 as [k Hk Hkp|k Hk _ IH].
    + apply halves in Hkp as [->| ->]; tauto.
    + destruct IH as [[Hx|Hx]|[Hx|Hx]].
      * left. right. by apply under_child.
      * left. right. by apply under_step.
      * right. right. by apply under_child.
      * right. right. by apply under_step.
  - assert (Hstep : forall c, c / 2 = pos -> 2 <= c -> k = c \/ under c k -> under pos k).
    { intros c Hc Hc2 [->|Hu]; [by apply under_child|]. induction Hu as [k Hk <-|k Hk _ IH].
      - apply under_step; [done|]. by apply under_child.
      - by apply under_step. }
    intros [H|H]; [eapply (Hstep (2 * pos))|eapply (Hstep (2 * pos + 1))]; try done; try lia;
      apply halves; lia.
Qed.

Lemma under_root k : 2 <= k -> under 1 k.
Proof.
  induction k as [k IH] using (well_founded_induction (Z.lt_wf 0)). intros Hk.
  pose proof (half_range cmp k Hk). destruct (Z.eq_dec (k / 2) 1); [by apply under_child|].
  apply under_step; [done|]. apply IH; lia.
Qed.

Definition valid_under f (n pos : Z) : Prop := forall k, k < n -> under pos k -> edge cmp f k.

Lemma subtree_is_valid_spec fuel : forall q ns v pos,
  rep q ns v 0 -> pq_size q < 2 ^ 30 -> 1 <= pos < pq_size q -> pq_size q - pos < Z.of_nat fuel ->
  exists b, subtree_is_valid cmp fuel q ns pos = Ok b /\
    (b = true <-> valid_under (along ns v) (pq_size q) pos).
Proof.
  induction fuel as [|fuel IH]; intros q ns v pos R Hsz Hpos Hf; [lia|].
  pose proof (rp_size _ _ _ _ R).
  assert (Hi32 : forall x, 0 <= x < 2 ^ 31 -> i32 x = x) by (intros; apply (swrap_small 32); lia).
  assert (Hchild : forall c, c / 2 = pos -> pos < c ->
    exists b, (if c <? pq_size q then
       let! p := get_d q pos in let! ppri := getpri ns p in
       let! r := get_d q c in let! cpri := getpri ns r in
       if cmp ppri cpri then Ok false else subtree_is_valid cmp fuel q ns c
     else Ok true) = Ok b /\
    (b = true <-> forall k, k < pq_size q -> k = c \/ under c k -> edge cmp (along ns v) k)).
  { intros c Hc Hlt. destruct (Z.ltb_spec c (pq_size q)) as [Hcn|Hcn].
    - rewrite !(get_d_Ok _ _ _ _ _ R) by lia. cbn [rbind].
      rewrite !(getpri_Ok _ _ _ _ _ R) by lia. cbn [rbind].
      destruct (cmp _ _) eqn:Hcmp.
      + exists false. split; [done|]. split; [done|]. intros H'. exfalso.
        specialize (H' c Hcn (or_introl eq_refl)). unfold edge in H'. rewrite Hc in H'. congruence.
      + destruct (IH q ns v c R Hsz ltac:(lia) ltac:(lia)) as (b & -> & Hb). exists b. split; [done|].
        rewrite Hb. unfold valid_under. split; [|by intros H' k Hk Hu; apply H'; [|right]].
        intros H' k Hk [->|Hu]; [|by apply H']. unfold edge. by rewrite Hc.
    - exists true. split; [done|]. split; [|done]. intros _ k Hk [->|Hu]; [lia|].
      apply under_lt in Hu; lia. }
  cbn [subtree_is_valid]. rewrite Z.shiftl_mul_pow2 by lia. change (2 ^ 1) with 2.
  rewrite !Hi32 by lia. rewrite (Z.mul_comm pos 2).
  destruct (Hchild (2 * pos)) as (b1 & E1 & Hb1); [apply halves; lia|lia|].
  destruct (Hchild (2 * pos + 1)) as (b2 & E2 & Hb2); [apply halves; lia|lia|].
  rewrite E1. cbn [rbind]. unfold valid_under.
  assert (Hsplit : (forall k, k < pq_size q -> under pos k -> edge cmp (along ns v) k) <->
    (b1 = true /\ b2 = true)).
  { rewrite Hb1, Hb2. split.
    - intros H'. split; intros k Hk Hu; apply H'; try done; apply under_cases; try lia; tauto.
    - intros [H1 H2] k Hk Hu. apply under_cases in Hu as [Hu|Hu]; [by apply H1|by apply H2|lia]. }
  destruct b1.
  - exists b2. split; [exact E2|]. rewrite Hsplit. tauto.
  - exists false. split; [done|]. rewrite Hsplit. naive_solver.
Qed.

(** pqueue_is_valid decides the heap property. *)
Theorem pqueue_is_valid_spec q ns v :
  rep q ns v 0 -> 2 <= pq_size q < 2 ^ 30 ->
  exists b, pqueue_is_valid cmp q ns = Ok b /\ (b = true <-> heap cmp (along ns v) (pq_size q)).
Proof.
  intros R Hs. destruct (subtree_is_valid_spec (S (Z.to_nat (pq_size q))) q ns v 1 R) as (b & E & Hb); [lia..|].
  exists b. split; [exact E|]. rewrite Hb. unfold valid_under, heap. split; intros H k Hk.
  - apply H; [lia|]. apply under_root. lia.
  - intros Hu. apply under_lt in Hu; [|lia]. apply H. lia.
Qed.

End pqueue.


(** ** Concrete queues *)

(** the node at address k has priority (k mod 3, k) *)
Definition demo_nodes : nodes :=
  list_to_map ((fun k => (k, mk_node (mk_pri (k mod 3) k) 0)) <$> [1; 2; 3; 4; 5; 6]).

Definition insert_all (ks : list Z) (q : pqueue_t) (ns : nodes) : result (pqueue_t * nodes) :=
  rfold (fun '(q, ns) k => let! '(_, q, ns) := pqueue_insert LFU_cmp_pri q ns k in Ok (q, ns)) ks (q, ns).

Definition run_pqueue {A} (k : pqueue_t -> nodes -> result A) : result A :=
  let! '(q, ns) := insert_all [1; 2; 3] (pqueue_init 3) demo_nodes in k q ns.

(** Printing the queue is not harmless: its copy moves the nodes of the queue itself, so
    that their positions are lost.  Removing node 2 before printing leaves 3 and 1; after
    printing it leaves 1 and the removed node 2, and drops node 3. *)
Theorem pqueue_print_breaks_queue :
  run_pqueue (fun q ns =>
    let! '(_, q, ns) := pqueue_remove LFU_cmp_pri q ns 2 in
    let! '(l, _) := pqueue_print LFU_cmp_pri q ns in Ok l) = Ok [3; 1] /\
  run_pqueue (fun q ns =>
    let! '(_, ns) := pqueue_print LFU_cmp_pri q ns in
    let! '(_, q, ns) := pqueue_remove LFU_cmp_pri q ns 2 in
    let! '(l, _) := pqueue_print LFU_cmp_pri q ns in Ok l) = Ok [1; 2].
Proof. split; vm_compute; reflexivity. Qed.

(** a queue of the nodes 3, 2, 1 in this order *)
Definition demo_q : pqueue_t := mk_pqueue 4 4 4 [None; Some 3; Some 2; Some 1].
Definition demo_q_nodes : nodes :=
  list_to_map [(1, mk_node (mk_pri 1 1) 3); (2, mk_node (mk_pri 2 2) 2); (3, mk_node (mk_pri 0 3) 1);
               (4, mk_node (mk_pri 1 4) 0)].

Example demo_q_built : run_pqueue (fun q _ => Ok q) = Ok demo_q.
Proof. vm_compute. reflexivity. Qed.

Lemma demo_q_rep : rep demo_q demo_q_nodes (fun i => 4 - i) 0.
Proof.
  assert (Hi : forall i, 1 <= i < pq_size demo_q -> i = 1 \/ i = 2 \/ i = 3) by (simpl; lia).
  split; try (simpl; lia).
  - intros i [->|[->| ->]]%Hi _; (split; [reflexivity|eexists; split; reflexivity]).
  - intros i [->|[->| ->]]%Hi; (split; [done|by eexists]).
Qed.

Lemma demo_q_ok : queue_ok LFU_cmp_pri demo_q demo_q_nodes {[1; 2; 3]}.
Proof.
  split; [simpl; lia|]. exists (fun i => 4 - i). split_and!; [apply demo_q_rep| |].
  - intros k Hk. simpl in Hk. assert (k = 2 \/ k = 3) as [->| ->] by lia; reflexivity.
  - intros p. unfold mem. simpl. rewrite !elem_of_union, !elem_of_singleton. split.
    + intros Hp. exists (4 - p). lia.
    + intros (i & Hi & <-). lia.
Qed.

Lemma pqueue_insert_spec_witness :
  exists q' ns', pqueue_insert LFU_cmp_pri demo_q demo_q_nodes 4 = Ok (0, q', ns') /\
    queue_ok LFU_cmp_pri q' ns' ({[4]} ∪ {[1; 2; 3]}).
Proof.
  destruct (pqueue_insert_spec LFU_cmp_pri demo_q demo_q_nodes {[1; 2; 3]} 4) as (q' & ns' & E & H & _);
    [apply demo_q_ok|done|set_solver|done|by eexists|simpl; lia|by exists q', ns'].
Defined.

Lemma pqueue_pop_spec_witness :
  exists q' ns', pqueue_pop LFU_cmp_pri demo_q demo_q_nodes = Ok (3, q', ns') /\
    queue_ok LFU_cmp_pri q' ns' ({[1; 2; 3]} ∖ {[3]}).
Proof.
  destruct (pqueue_pop_spec LFU_cmp_pri demo_q demo_q_nodes {[1; 2; 3]} demo_q_ok)
    as [[H _]|(head & q' & ns' & E & Hp & _ & _ & H & _)]; [set_solver|].
  assert (head = 3) as -> by (vm_compute in Hp; congruence). by exists q', ns'.
Defined.

Lemma pqueue_remove_spec_witness :
  exists q' ns', pqueue_remove LFU_cmp_pri demo_q demo_q_nodes 2 = Ok (0, q', ns') /\
    queue_ok LFU_cmp_pri q' ns' ({[1; 2; 3]} ∖ {[2]}).
Proof.
  destruct (pqueue_remove_spec LFU_cmp_pri demo_q demo_q_nodes {[1; 2; 3]} 2 demo_q_ok)
    as (q' & ns' & E & H & _); [set_solver|by exists q', ns'].
Defined.

Lemma pqueue_change_priority_spec_witness :
  exists q' ns', pqueue_change_priority LFU_cmp_pri demo_q demo_q_nodes (mk_pri 9 9) 3 = Ok (q', ns') /\
    queue_ok LFU_cmp_pri q' ns' {[1; 2; 3]}.
Proof.
  destruct (pqueue_change_priority_spec LFU_cmp_pri demo_q demo_q_nodes {[1; 2; 3]} 3 (mk_pri 9 9) demo_q_ok)
    as (q' & ns' & E & H & _); [set_solver|by exists q', ns'].
Defined.

Lemma pqueue_print_spec_witness :
  exists es ns', pqueue_print LFU_cmp_pri demo_q demo_q_nodes = Ok (es, ns') /\ es ≡ₚ [1; 2; 3].
Proof.
  destruct (pqueue_print_spec LFU_cmp_pri demo_q demo_q_nodes {[1; 2; 3]} demo_q_ok eq_refl)
    as (es & ns' & E & Hp & _).
  exists es, ns'. split; [exact E|]. etrans; [exact Hp|].
  apply NoDup_Permutation; [apply NoDup_elements|repeat constructor; set_solver|].
  intros x. rewrite elem_of_elements. set_solver.
Defined.

Lemma pqueue_is_valid_spec_witness :
  exists b, pqueue_is_valid LFU_cmp_pri demo_q demo_q_nodes = Ok b /\
    (b = true <-> heap LFU_cmp_pri (fun k => pr (pris demo_q_nodes) (4 - k)) (pq_size demo_q)).
Proof. apply (pqueue_is_valid_spec LFU_cmp_pri demo_q demo_q_nodes (fun i => 4 - i) demo_q_rep). simpl. lia. Defined.
