(* ===== verification/LibCsv.v ===== *)
(** * The CSV parser and writer (traceReader/libcsv.c)

    The parser is a state machine that is fed chunks of bytes.  It collects the current
    field in a buffer that grows on demand and reports fields and rows through two
    callbacks; the model returns the calls of the callbacks, in order, as a list of
    events.  csv_parse keeps four fields of the parser in local variables and stores them
    back on every return; the model updates the fields in place.  Bytes are integers from
    0 to 255.  Bytes of the buffer that were never written are 0.  Whether a call of
    realloc_func succeeds may depend on its number and on the size. *)

From S2P Require Import Prelude.

Inductive csv_state := ROW_NOT_BEGUN | FIELD_NOT_BEGUN | FIELD_BEGUN | FIELD_MIGHT_HAVE_ENDED.

#[export] Instance csv_state_eq_dec : EqDecision csv_state.
Proof. solve_decision. Defined.

Definition MEM_BLK_SIZE : Z := 128.

Definition CSV_SUCCESS : Z := 0.
Definition CSV_EPARSE : Z := 1.
Definition CSV_ENOMEM : Z := 2.
Definition CSV_ETOOBIG : Z := 3.
Definition CSV_EINVALID : Z := 4.

Definition CSV_STRICT : Z := 1.
Definition CSV_REPALL_NL : Z := 2.
Definition CSV_STRICT_FINI : Z := 4.
Definition CSV_APPEND_NULL : Z := 8.
Definition CSV_EMPTY_IS_NULL : Z := 16.

Definition CSV_TAB : Z := 0x09.
Definition CSV_SPACE : Z := 0x20.
Definition CSV_CR : Z := 0x0d.
Definition CSV_LF : Z := 0x0a.
Definition CSV_COMMA : Z := 0x2c.
Definition CSV_QUOTE : Z := 0x22.

(** realloc_func is represented by whether its call number n, for a given size, succeeds; it
    keeps the contents of the buffer, as realloc does.  [realloc_calls] counts the calls. *)
Record csv_parser := mk_parser {
  pstate : csv_state;
  quoted : bool;
  spaces : Z;
  entry_buf : option (list Z);
  entry_pos : Z;
  entry_size : Z;
  status : Z;
  options : Z;
  quote_char : Z;
  delim_char : Z;
  is_space : option (Z -> bool);
  is_term : option (Z -> bool);
  blk_size : Z;
  realloc_func : nat -> Z -> bool;
  realloc_calls : nat
}.

Definition set_pstate st p := mk_parser st (quoted p) (spaces p) (entry_buf p) (entry_pos p)
  (entry_size p) (status p) (options p) (quote_char p) (delim_char p) (is_space p) (is_term p) (blk_size p) (realloc_func p) (realloc_calls p).
Definition set_quoted q p := mk_parser (pstate p) q (spaces p) (entry_buf p) (entry_pos p)
  (entry_size p) (status p) (options p) (quote_char p) (delim_char p) (is_space p) (is_term p) (blk_size p) (realloc_func p) (realloc_calls p).
Definition set_spaces n p := mk_parser (pstate p) (quoted p) n (entry_buf p) (entry_pos p)
  (entry_size p) (status p) (options p) (quote_char p) (delim_char p) (is_space p) (is_term p) (blk_size p) (realloc_func p) (realloc_calls p).
Definition set_buf b p := mk_parser (pstate p) (quoted p) (spaces p) b (entry_pos p)
  (entry_size p) (status p) (options p) (quote_char p) (delim_char p) (is_space p) (is_term p) (blk_size p) (realloc_func p) (realloc_calls p).
Definition set_pos n p := mk_parser (pstate p) (quoted p) (spaces p) (entry_buf p) n
  (entry_size p) (status p) (options p) (quote_char p) (delim_char p) (is_space p) (is_term p) (blk_size p) (realloc_func p) (realloc_calls p).
Definition set_entry_size n p := mk_parser (pstate p) (quoted p) (spaces p) (entry_buf p) (entry_pos p)
  n (status p) (options p) (quote_char p) (delim_char p) (is_space p) (is_term p) (blk_size p) (realloc_func p) (realloc_calls p).
Definition set_status n p := mk_parser (pstate p) (quoted p) (spaces p) (entry_buf p) (entry_pos p)
  (entry_size p) n (options p) (quote_char p) (delim_char p) (is_space p) (is_term p) (blk_size p) (realloc_func p) (realloc_calls p).
Definition set_calls n p := mk_parser (pstate p) (quoted p) (spaces p) (entry_buf p) (entry_pos p)
  (entry_size p) (status p) (options p) (quote_char p) (delim_char p) (is_space p) (is_term p) (blk_size p) (realloc_func p) n.

Definition opt (p : csv_parser) (o : Z) : bool := negb (Z.land (options p) o =? 0).

(** ** Setting up *)

Definition csv_error (p : csv_parser) : Z := status p.

(** an index of the array csv_errors *)
Definition csv_strerror (status : Z) : Z :=
  if (CSV_EINVALID <=? status) || (status <? 0) then CSV_EINVALID else status.

(** the parser is not NULL in these functions *)
Definition csv_init (opts : Z) (realloc : nat -> Z -> bool) : csv_parser :=
  mk_parser ROW_NOT_BEGUN false 0 None 0 0 0 (u8 opts) CSV_QUOTE CSV_COMMA None None MEM_BLK_SIZE realloc 0.

Definition csv_get_opts (p : csv_parser) : Z := options p.
Definition csv_set_opts (o : Z) (p : csv_parser) : csv_parser :=
  mk_parser (pstate p) (quoted p) (spaces p) (entry_buf p) (entry_pos p) (entry_size p) (status p)
    (u8 o) (quote_char p) (delim_char p) (is_space p) (is_term p) (blk_size p) (realloc_func p) (realloc_calls p).
Definition csv_free (p : csv_parser) : csv_parser := set_entry_size 0 (set_buf None p).
Definition csv_set_delim (c : Z) (p : csv_parser) : csv_parser :=
  mk_parser (pstate p) (quoted p) (spaces p) (entry_buf p) (entry_pos p) (entry_size p) (status p)
    (options p) (quote_char p) (u8 c) (is_space p) (is_term p) (blk_size p) (realloc_func p) (realloc_calls p).
Definition csv_set_quote (c : Z) (p : csv_parser) : csv_parser :=
  mk_parser (pstate p) (quoted p) (spaces p) (entry_buf p) (entry_pos p) (entry_size p) (status p)
    (options p) (u8 c) (delim_char p) (is_space p) (is_term p) (blk_size p) (realloc_func p) (realloc_calls p).
Definition csv_get_delim (p : csv_parser) : Z := delim_char p.
Definition csv_get_quote (p : csv_parser) : Z := quote_char p.
Definition csv_set_space_func (f : option (Z -> bool)) (p : csv_parser) : csv_parser :=
  mk_parser (pstate p) (quoted p) (spaces p) (entry_buf p) (entry_pos p) (entry_size p) (status p)
    (options p) (quote_char p) (delim_char p) f (is_term p) (blk_size p) (realloc_func p) (realloc_calls p).
Definition csv_set_term_func (f : option (Z -> bool)) (p : csv_parser) : csv_parser :=
  mk_parser (pstate p) (quoted p) (spaces p) (entry_buf p) (entry_pos p) (entry_size p) (status p)
    (options p) (quote_char p) (delim_char p) (is_space p) f (blk_size p) (realloc_func p) (realloc_calls p).
Definition csv_set_realloc_func (f : nat -> Z -> bool) (p : csv_parser) : csv_parser :=
  mk_parser (pstate p) (quoted p) (spaces p) (entry_buf p) (entry_pos p) (entry_size p) (status p)
    (options p) (quote_char p) (delim_char p) (is_space p) (is_term p) (blk_size p) f (realloc_calls p).
Definition csv_set_blk_size (n : Z) (p : csv_parser) : csv_parser :=
  mk_parser (pstate p) (quoted p) (spaces p) (entry_buf p) (entry_pos p) (entry_size p) (status p)
    (options p) (quote_char p) (delim_char p) (is_space p) (is_term p) n (realloc_func p) (realloc_calls p).
Definition csv_get_buffer_size (p : csv_parser) : Z := entry_size p.

(** ** The buffer *)

(** the while loop of csv_increase_buffer: what is added, if anything could be *)
Fixpoint try_realloc (fuel : nat) (p : csv_parser) (to_add : Z) : result (option Z * csv_parser) :=
  match fuel with
  | O => Err OutOfFuel
  | S fuel =>
      let vp := realloc_func p (realloc_calls p) (u64 (entry_size p + to_add)) in
      let p := set_calls (S (realloc_calls p)) p in
      if vp then Ok (Some to_add, p)
      else
        let to_add := to_add / 2 in
        if to_add =? 0 then Ok (None, p) else try_realloc fuel p to_add
  end.

(** each failure halves a number below 2^64 *)
Definition realloc_fuel : nat := 65.

(** the boolean is the result being 0 *)
Definition csv_increase_buffer (p : csv_parser) : result (bool * csv_parser) :=
  let to_add := blk_size p in
  let to_add := if entry_size p >=? u64 (SIZE_MAX - to_add) then u64 (SIZE_MAX - entry_size p) else to_add in
  if to_add =? 0 then Ok (false, set_status CSV_ETOOBIG p)
  else
    let! '(added, p) := try_realloc realloc_fuel p to_add in
    match added with
    | None => Ok (false, set_status CSV_ENOMEM p)
    | Some to_add =>
        let buf := match entry_buf p with Some b => b | None => [] end in
        Ok (true, set_entry_size (u64 (entry_size p + to_add))
                    (set_buf (Some (buf ++ replicate (Z.to_nat to_add) 0)) p))
    end.

(** p->entry_buf[i] = c *)
Definition buf_write (p : csv_parser) (i c : Z) : result csv_parser :=
  match entry_buf p with
  | None => Err NullDeref
  | Some b => if (0 <=? i) && (i <? entry_size p) then Ok (set_buf (Some (<[Z.to_nat i := c]> b)) p)
              else Err OutOfBounds
  end.

(** ** The callbacks and the macros *)

Inductive event :=
  | Field (field : option (list Z)) (len : Z)   (* cb1: the bytes, or NULL, and their number *)
  | Row (c : Z).                                (* cb2 *)

(** which callbacks are not NULL *)
Record callbacks := mk_cbs { cb1 : bool; cb2 : bool }.

Definition SUBMIT_CHAR (p : csv_parser) (c : Z) : result csv_parser :=
  let! p := buf_write p (entry_pos p) c in Ok (set_pos (u64 (entry_pos p + 1)) p).

Definition SUBMIT_FIELD (cbs : callbacks) (p : csv_parser) : result (csv_parser * list event) :=
  let p := if quoted p then p else set_pos (u64 (entry_pos p - spaces p)) p in
  let! p := (if opt p CSV_APPEND_NULL then buf_write p (entry_pos p) 0 else Ok p) in
  let evs :=
    if cb1 cbs && opt p CSV_EMPTY_IS_NULL && negb (quoted p) && (entry_pos p =? 0)
    then [Field None (entry_pos p)]
    else if cb1 cbs
    then [Field (match entry_buf p with Some b => Some (take (Z.to_nat (entry_pos p)) b) | None => None end)
            (entry_pos p)]
    else [] in
  Ok (set_pstate FIELD_NOT_BEGUN (set_pos 0 (set_quoted false (set_spaces 0 p))), evs).

Definition SUBMIT_ROW (cbs : callbacks) (p : csv_parser) (c : Z) : csv_parser * list event :=
  (set_pstate ROW_NOT_BEGUN (set_pos 0 (set_quoted false (set_spaces 0 p))),
   if cb2 cbs then [Row c] else []).

(** ** Parsing *)

Definition space_char (p : csv_parser) (c : Z) : bool :=
  match is_space p with Some f => f c | None => (c =? CSV_SPACE) || (c =? CSV_TAB) end.
Definition term_char (p : csv_parser) (c : Z) : bool :=
  match is_term p with Some f => f c | None => (c =? CSV_CR) || (c =? CSV_LF) end.

(** one character: the parser goes on, or stops before the character with an error *)
Inductive outcome := Continue (p : csv_parser) (evs : list event) | Stop (p : csv_parser).

Definition field_then_row (cbs : callbacks) (p : csv_parser) (c : Z) : result outcome :=
  let! '(p, e1) := SUBMIT_FIELD cbs p in
  let '(p, e2) := SUBMIT_ROW cbs p c in
  Ok (Continue p (e1 ++ e2)).

Definition field_only (cbs : callbacks) (p : csv_parser) : result outcome :=
  let! '(p, e) := SUBMIT_FIELD cbs p in Ok (Continue p e).

Definition go (p : csv_parser) : result outcome := Ok (Continue p []).
Definition parse_error (p : csv_parser) : result outcome := Ok (Stop (set_status CSV_EPARSE p)).

(** the switch on pstate *)
Definition csv_step (cbs : callbacks) (p : csv_parser) (c : Z) : result outcome :=
  match pstate p with
  | ROW_NOT_BEGUN | FIELD_NOT_BEGUN =>
      if space_char p c && negb (c =? delim_char p) then go p
      else if term_char p c then
        match pstate p with
        | FIELD_NOT_BEGUN => field_then_row cbs p c
        | _ =>
            if opt p CSV_REPALL_NL then let '(p, e) := SUBMIT_ROW cbs p c in Ok (Continue p e)
            else go p
        end
      else if c =? delim_char p then field_only cbs p
      else if c =? quote_char p then go (set_quoted true (set_pstate FIELD_BEGUN p))
      else
        let! p := SUBMIT_CHAR (set_quoted false (set_pstate FIELD_BEGUN p)) c in go p
  | FIELD_BEGUN =>
      if c =? quote_char p then
        if quoted p then
          let! p := SUBMIT_CHAR p c in go (set_pstate FIELD_MIGHT_HAVE_ENDED p)
        else if opt p CSV_STRICT then parse_error p
        else let! p := SUBMIT_CHAR p c in go (set_spaces 0 p)
      else if c =? delim_char p then
        if quoted p then let! p := SUBMIT_CHAR p c in go p
        else field_only cbs p
      else if term_char p c then
        if negb (quoted p) then field_then_row cbs p c
        else let! p := SUBMIT_CHAR p c in go p
      else if negb (quoted p) && space_char p c then
        let! p := SUBMIT_CHAR p c in go (set_spaces (u64 (spaces p + 1)) p)
      else
        let! p := SUBMIT_CHAR p c in go (set_spaces 0 p)
  | FIELD_MIGHT_HAVE_ENDED =>
      if c =? delim_char p then
        field_only cbs (set_pos (u64 (entry_pos p - (spaces p + 1))) p)
      else if term_char p c then
        field_then_row cbs (set_pos (u64 (entry_pos p - (spaces p + 1))) p) c
      else if space_char p c then
        let! p := SUBMIT_CHAR p c in go (set_spaces (u64 (spaces p + 1)) p)
      else if c =? quote_char p then
        if negb (spaces p =? 0) then
          if opt p CSV_STRICT then parse_error p
          else let! p := SUBMIT_CHAR (set_spaces 0 p) c in go p
        else go (set_pstate FIELD_BEGUN p)
      else if opt p CSV_STRICT then parse_error p
      else let! p := SUBMIT_CHAR (set_spaces 0 (set_pstate FIELD_BEGUN p)) c in go p
  end.

(** the buffer is full, but for the byte reserved for the terminating NUL *)
Definition buffer_full (p : csv_parser) : bool :=
  entry_pos p =? (if opt p CSV_APPEND_NULL then u64 (entry_size p - 1) else entry_size p).

(** the while loop; [pos] counts the characters processed *)
Fixpoint csv_loop (cbs : callbacks) (s : list Z) (pos : Z) (p : csv_parser)
    : result (Z * csv_parser * list event) :=
  match s with
  | [] => Ok (pos, p, [])
  | c :: s =>
      let! '(ok, p) := (if buffer_full p then csv_increase_buffer p else Ok (true, p)) in
      if ok : bool then
        let! o := csv_step cbs p c in
        match o with
        | Stop p => Ok (pos, p, [])
        | Continue p evs =>
            let! '(n, p, evs') := csv_loop cbs s (pos + 1) p in Ok (n, p, evs ++ evs')
        end
      else Ok (pos, p, [])
  end.

(** the result is the number of characters processed *)
Definition csv_parse (cbs : callbacks) (p : csv_parser) (s : list Z)
    : result (Z * csv_parser * list event) :=
  match entry_buf p, s with
  | None, _ :: _ =>
      let! '(ok, p) := csv_increase_buffer p in
      if ok : bool then csv_loop cbs s 0 p else Ok (0, p, [])
  | _, _ => csv_loop cbs s 0 p
  end.

(** the boolean is the result being 0 *)
Definition csv_fini (cbs : callbacks) (p : csv_parser) : result (bool * csv_parser * list event) :=
  if bool_decide (pstate p = FIELD_BEGUN) && quoted p && opt p CSV_STRICT && opt p CSV_STRICT_FINI
  then Ok (false, set_status CSV_EPARSE p, [])
  else
    let p := match pstate p with
             | FIELD_MIGHT_HAVE_ENDED => set_pos (u64 (entry_pos p - (spaces p + 1))) p
             | _ => p
             end in
    let! '(p, evs) :=
      match pstate p with
      | ROW_NOT_BEGUN => Ok (p, [])
      | _ =>
          let! '(p, e1) := SUBMIT_FIELD cbs p in
          let '(p, e2) := SUBMIT_ROW cbs p (-1) in
          Ok (p, e1 ++ e2)
      end in
    Ok (true, set_pstate ROW_NOT_BEGUN
          (set_spaces 0 (set_quoted false (set_pos 0 (set_status 0 p)))), evs).

(** ** Writing *)

(** *cdest++ = c if dest_size > chars; [dest] is NULL or a buffer of dest_size bytes *)
Definition put (dest : list Z) (dest_size : Z) (cdest : Z) (chars : Z) (c : Z) : list Z * Z :=
  if dest_size >? chars then (<[Z.to_nat cdest := c]> dest, cdest + 1) else (dest, cdest).

Definition bump (chars : Z) : Z := if chars <? SIZE_MAX then chars + 1 else chars.

Fixpoint csv_write_loop (quote : Z) (src : list Z) (dest : list Z) (dest_size cdest chars : Z)
    : list Z * Z * Z :=
  match src with
  | [] => (dest, cdest, chars)
  | c :: src =>
      let '(dest, cdest, chars) :=
        if c =? quote then
          let '(dest, cdest) := put dest dest_size cdest chars quote in (dest, cdest, bump chars)
        else (dest, cdest, chars) in
      let '(dest, cdest) := put dest dest_size cdest chars c in
      csv_write_loop quote src dest dest_size cdest (bump chars)
  end.

(** [dest] is [None] for NULL; [src] is not NULL *)
Definition csv_write2 (dest : option (list Z)) (dest_size : Z) (src : list Z) (quote : Z)
    : option (list Z) * Z :=
  let dest_size := match dest with None => 0 | _ => dest_size end in
  let d := match dest with Some d => d | None => [] end in
  let '(d, cdest) := put d dest_size 0 0 quote in
  let '(d, cdest, chars) := csv_write_loop quote src d dest_size cdest 1 in
  let d := if dest_size >? chars then <[Z.to_nat cdest := quote]> d else d in
  (match dest with Some _ => Some d | None => None end, bump chars).

(** csv_write has the same statements for the double quote *)
Definition csv_write (dest : option (list Z)) (dest_size : Z) (src : list Z) : option (list Z) * Z :=
  csv_write2 dest dest_size src CSV_QUOTE.

Section fwrite.
  (** fputc on the stream: [None] is EOF *)
  Context {FILE : Type} (fputc : Z -> FILE -> option FILE).

Fixpoint csv_fwrite_loop (quote : Z) (src : list Z) (fp : FILE) : option FILE :=
  match src with
  | [] => Some fp
  | c :: src =>
      match (if c =? quote then fputc quote fp else Some fp) with
      | None => None
      | Some fp => match fputc c fp with None => None | Some fp => csv_fwrite_loop quote src fp end
      end
  end.

(** [None] is the result EOF *)
Definition csv_fwrite2 (fp : FILE) (src : list Z) (quote : Z) : option FILE :=
  match fputc quote fp with
  | None => None
  | Some fp =>
      match csv_fwrite_loop quote src fp with
      | None => None
      | Some fp => fputc quote fp
      end
  end.

Definition csv_fwrite (fp : FILE) (src : list Z) : option FILE := csv_fwrite2 fp src CSV_QUOTE.

End fwrite.

Example csv_example :
  (* the text: a, quoted b quote c, d x, LF *)
  (let! '(n, p, evs) := csv_parse (mk_cbs true true) (csv_init 0 (fun _ _ => true))
     [97; 44; 32; 34; 98; 34; 34; 99; 34; 32; 44; 100; 32; 120; 32; 10; 101] in
   let! '(_, _, evs') := csv_fini (mk_cbs true true) p in Ok (n, evs ++ evs')) =
  Ok (17, [Field (Some [97]) 1; Field (Some [98; 34; 99]) 3; Field (Some [100; 32; 120]) 3; Row 10;
           Field (Some [101]) 1; Row (-1)]).
Proof. vm_compute. reflexivity. Qed.
