(* ===== verification/LibCsvSpec.v ===== *)
(** * Correctness of the CSV parser and writer

    The abstract parser keeps the current field as an unbounded string.  csv_parse refines
    it: the buffer holds the string, grows when it must and is never written out of its
    bounds.  Round trips and chunking are proved for the abstract parser and transferred. *)

From S2P Require Import Prelude.
From S2P Require Import LibCsv.

Abbreviation len l := (Z.of_nat (length l)).

(** ** The abstract parser *)

Record conf := mk_conf {
  k_strict : bool; k_repall : bool; k_empty_null : bool;
  k_quote : Z; k_delim : Z; k_space : Z -> bool; k_term : Z -> bool; k_cbs : callbacks
}.

Record astate := mk_astate { a_st : csv_state; a_quoted : bool; a_spaces : Z; a_field : list Z }.

Definition a_start : astate := mk_astate ROW_NOT_BEGUN false 0 [].

Section abstract.
  Variable k : conf.

Definition a_submit (q : bool) (w : list Z) : list event :=
  if cb1 (k_cbs k) then
    (if k_empty_null k && negb q && (len w =? 0) then [Field None 0] else [Field (Some w) (len w)])
  else [].
Definition a_row (c : Z) : list event := if cb2 (k_cbs k) then [Row c] else [].

(** the field without its last [n] characters *)
Definition cut (n : Z) (w : list Z) : list Z := take (length w - Z.to_nat n) w.

Definition a_append (a : astate) (st : csv_state) (sp c : Z) : astate :=
  mk_astate st (a_quoted a) sp (a_field a ++ [c]).

Definition a_next : astate := mk_astate FIELD_NOT_BEGUN false 0 [].

(** [None]: an error in strict mode *)
Definition a_step (a : astate) (c : Z) : option (astate * list event) :=
  let w := a_field a in
  match a_st a with
  | ROW_NOT_BEGUN | FIELD_NOT_BEGUN =>
      if k_space k c && negb (c =? k_delim k) then Some (a, [])
      else if k_term k c then
        match a_st a with
        | FIELD_NOT_BEGUN => Some (a_start, a_submit false [] ++ a_row c)
        | _ => Some (a, if k_repall k then a_row c else [])
        end
      else if c =? k_delim k then Some (a_next, a_submit false [])
      else if c =? k_quote k then Some (mk_astate FIELD_BEGUN true 0 [], [])
      else Some (mk_astate FIELD_BEGUN false 0 [c], [])
  | FIELD_BEGUN =>
      if a_quoted a then
        if c =? k_quote k then Some (a_append a FIELD_MIGHT_HAVE_ENDED 0 c, [])
        else Some (a_append a FIELD_BEGUN 0 c, [])
      else if c =? k_quote k then
        if k_strict k then None else Some (a_append a FIELD_BEGUN 0 c, [])
      else if c =? k_delim k then Some (a_next, a_submit false (cut (a_spaces a) w))
      else if k_term k c then Some (a_start, a_submit false (cut (a_spaces a) w) ++ a_row c)
      else Some (a_append a FIELD_BEGUN (if k_space k c then a_spaces a + 1 else 0) c, [])
  | FIELD_MIGHT_HAVE_ENDED =>
      if c =? k_delim k then Some (a_next, a_submit true (cut (a_spaces a + 1) w))
      else if k_term k c then Some (a_start, a_submit true (cut (a_spaces a + 1) w) ++ a_row c)
      else if k_space k c then Some (a_append a FIELD_MIGHT_HAVE_ENDED (a_spaces a + 1) c, [])
      else if c =? k_quote k then
        if a_spaces a =? 0 then Some (mk_astate FIELD_BEGUN true 0 w, [])
        else if k_strict k then None else Some (a_append a FIELD_MIGHT_HAVE_ENDED 0 c, [])
      else if k_strict k then None
      else Some (a_append a FIELD_BEGUN 0 c, [])
  end.

(** the number of characters processed, the state, the events, and whether all went well *)
Fixpoint a_run (s : list Z) (a : astate) : Z * astate * list event * bool :=
  match s with
  | [] => (0, a, [], true)
  | c :: s =>
      match a_step a c with
      | None => (0, a, [], false)
      | Some (a, e) => let '(n, a, e', ok) := a_run s a in (n + 1, a, e ++ e', ok)
      end
  end.

Definition a_fini (a : astate) : list event :=
  match a_st a with
  | ROW_NOT_BEGUN => []
  | FIELD_MIGHT_HAVE_ENDED => a_submit true (cut (a_spaces a + 1) (a_field a)) ++ a_row (-1)
  | _ => a_submit (a_quoted a) (if a_quoted a then a_field a else cut (a_spaces a) (a_field a)) ++ a_row (-1)
  end.

(** what holds of the states that can be reached *)
Definition a_ok (a : astate) : Prop :=
  match a_st a with
  | ROW_NOT_BEGUN | FIELD_NOT_BEGUN => a_quoted a = false /\ a_spaces a = 0 /\ a_field a = []
  | FIELD_BEGUN => 0 <= a_spaces a <= len (a_field a) /\ (a_quoted a = true -> a_spaces a = 0)
  | FIELD_MIGHT_HAVE_ENDED => a_quoted a = true /\ 0 <= a_spaces a < len (a_field a)
  end.

End abstract.

(** ** The buffer holds the field *)

Definition conf_of (cbs : callbacks) (p : csv_parser) : conf :=
  mk_conf (opt p CSV_STRICT) (opt p CSV_REPALL_NL) (opt p CSV_EMPTY_IS_NULL)
    (quote_char p) (delim_char p) (space_char p) (term_char p) cbs.

(** how much of the buffer fields may use *)
Definition cap (p : csv_parser) : Z := if opt p CSV_APPEND_NULL then entry_size p - 1 else entry_size p.

Definition content (p : csv_parser) : list Z :=
  match entry_buf p with Some b => take (Z.to_nat (entry_pos p)) b | None => [] end.

Definition view (p : csv_parser) : astate := mk_astate (pstate p) (quoted p) (spaces p) (content p).

(** the buffer is allocated, and the field fits *)
Record alloc_ok (p : csv_parser) : Prop := {
  al_buf : exists b, entry_buf p = Some b /\ len b = entry_size p;
  al_size : 0 < entry_size p < 2 ^ 64;
  al_pos : 0 <= entry_pos p <= cap p
}.

(** a parser between two calls *)
Record parser_ok (p : csv_parser) : Prop := {
  pk_alloc : alloc_ok p \/ (entry_buf p = None /\ entry_size p = 0 /\ entry_pos p = 0 /\ pstate p = ROW_NOT_BEGUN);
  pk_view : a_ok (view p);
  pk_blk : 0 <= blk_size p < 2 ^ 64
}.

(** what the loop never changes *)
Definition same_setup (p p' : csv_parser) : Prop :=
  options p' = options p /\ quote_char p' = quote_char p /\ delim_char p' = delim_char p /\
  is_space p' = is_space p /\ is_term p' = is_term p /\ blk_size p' = blk_size p /\
  realloc_func p' = realloc_func p.

Lemma same_setup_refl p : same_setup p p.
Proof. done. Qed.

Lemma same_setup_trans p q r : same_setup p q -> same_setup q r -> same_setup p r.
Proof. unfold same_setup. intuition congruence. Qed.

Lemma conf_same cbs p p' : same_setup p p' -> conf_of cbs p' = conf_of cbs p.
Proof.
  intros (Ho & Hq & Hd & Hs & Ht & _). unfold conf_of, opt, space_char, term_char.
  by rewrite Ho, Hq, Hd, Hs, Ht.
Qed.

Lemma content_len p : alloc_ok p -> len (content p) = entry_pos p.
Proof.
  intros [(b & Hb & Hl) Hs Hp]. unfold content. rewrite Hb, length_take. unfold cap in Hp.
  destruct (opt p _); lia.
Qed.

(** ** Growing *)

Lemma try_realloc_spec fuel : forall p to_add,
  0 < to_add < 2 ^ Z.of_nat fuel -> 0 <= entry_size p -> entry_size p + to_add < 2 ^ 64 ->
  exists r calls, try_realloc fuel p to_add = Ok (r, set_calls calls p) /\
    match r with Some n => 0 < n <= to_add
               | None => exists m s, realloc_func p m s = false end.
Proof.
  induction fuel as [|fuel IH]; intros p to_add Hn Hs Hb; [change (2 ^ Z.of_nat 0) with 1 in Hn; lia|].
  cbn [try_realloc]. rewrite u64_small by lia.
  destruct (realloc_func p _ (entry_size p + to_add)) eqn:E.
  - exists (Some to_add), (S (realloc_calls p)). split; [done|]. lia.
  - pose proof (Z.div_mod to_add 2 ltac:(lia)). pose proof (Z.mod_pos_bound to_add 2 ltac:(lia)).
    destruct (Z.eqb_spec (to_add / 2) 0); [exists None, (S (realloc_calls p)); split; [done|by do 2 eexists]|].
    destruct (IH (set_calls (S (realloc_calls p)) p) (to_add / 2)) as (r & calls & Er & Hr); [|cbn; lia|cbn; lia|].
    { rewrite Nat2Z.inj_succ, Z.pow_succ_r in Hn by lia. lia. }
    exists r, calls. split; [exact Er|]. destruct r; [lia|exact Hr].
Qed.

(** csv_increase_buffer keeps the field and makes room, or sets an error status. *)
Lemma csv_increase_buffer_spec p :
  (alloc_ok p \/ (entry_buf p = None /\ entry_size p = 0 /\ entry_pos p = 0)) ->
  0 <= blk_size p < 2 ^ 64 ->
  exists ok p', csv_increase_buffer p = Ok (ok, p') /\ same_setup p p' /\ view p' = view p /\
    entry_pos p' = entry_pos p /\
    (if ok : bool then alloc_ok p' /\ (entry_size p < entry_size p') /\ status p' = status p
     else p' = set_calls (realloc_calls p') (set_status (status p') p) /\ (status p' = CSV_ETOOBIG \/ status p' = CSV_ENOMEM)) /\
    ((forall n s, realloc_func p n s = true) -> 0 < blk_size p -> entry_size p < SIZE_MAX -> ok = true).
Proof.
  intros Hp Hblk. assert (Hs : 0 <= entry_size p < 2 ^ 64 /\ 0 <= entry_pos p).
  { destruct Hp as [[_ Hs Hp]|(_ & -> & ->)]; lia. }
  unfold csv_increase_buffer. unfold SIZE_MAX in *. rewrite u64_small by lia.
  set (to_add := if entry_size p >=? 18446744073709551615 - blk_size p then _ else _).
  assert (Ha : 0 <= to_add /\ entry_size p + to_add < 2 ^ 64 /\
               (0 < blk_size p -> entry_size p < 18446744073709551615 -> 0 < to_add)).
  { unfold to_add. rewrite Z.geb_leb. rewrite u64_small by lia. case_bool; lia. }
  clearbody to_add. destruct (Z.eqb_spec to_add 0) as [H0|H0].
  - exists false. eexists. split; [done|]. split_and!; try done; [by left|]. intros; lia.
  - destruct (try_realloc_spec realloc_fuel p to_add) as ([n|] & calls & -> & Hr); [change (Z.of_nat realloc_fuel) with 65; lia|lia|lia| |];
      cbn [rbind entry_size entry_buf set_calls].
    + rewrite u64_small by lia. exists true. eexists. split; [done|]. split_and!; try done.
      * unfold view, content. cbn. f_equal.
        destruct Hp as [[(b & Hb & Hl) Hs' Hpos]|(-> & _ & ->)]; [|done].
        rewrite Hb, take_app_le; [done|]. unfold cap in Hpos. destruct (opt p _); lia.
      * split; cbn.
        -- eexists. split; [done|]. rewrite length_app, length_replicate.
           destruct Hp as [[(b & Hb & Hl) _ _]|(-> & -> & _)]; [rewrite Hb; lia|simpl; lia].
        -- lia.
        -- unfold cap. cbn. destruct Hp as [[_ _ Hpos]|(_ & -> & ->)].
           ++ unfold cap in Hpos. change (opt _ CSV_APPEND_NULL) with (opt p CSV_APPEND_NULL).
              destruct (opt p CSV_APPEND_NULL); lia.
           ++ change (opt _ CSV_APPEND_NULL) with (opt p CSV_APPEND_NULL). destruct (opt p CSV_APPEND_NULL); lia.
      * cbn. lia.
    + exists false. eexists. split; [done|]. split_and!; try done; [by right|].
      intros Hall. destruct Hr as (m & s & Hr). by rewrite Hall in Hr.
Qed.

(** ** One character *)

Lemma alloc_ok_ext p p' :
  entry_buf p' = entry_buf p -> entry_size p' = entry_size p -> entry_pos p' = entry_pos p ->
  options p' = options p -> alloc_ok p -> alloc_ok p'.
Proof.
  intros Hb Hs Hp Ho [H1 H2 H3]. unfold cap, opt in H3.
  split; unfold cap, opt; by rewrite ?Hb, ?Hs, ?Hp, ?Ho.
Qed.

Lemma cap_le p : cap p <= entry_size p.
Proof. unfold cap. destruct (opt p _); lia. Qed.

Lemma SUBMIT_CHAR_spec p c :
  alloc_ok p -> entry_pos p < cap p ->
  exists p', SUBMIT_CHAR p c = Ok p' /\ same_setup p p' /\ alloc_ok p' /\ status p' = status p /\
    view p' = mk_astate (pstate p) (quoted p) (spaces p) (content p ++ [c]).
Proof.
  intros [(b & Hb & Hl) Hs Hp] Hr. pose proof (cap_le p).
  unfold SUBMIT_CHAR, buf_write. rewrite Hb.
  replace ((0 <=? entry_pos p) && (entry_pos p <? entry_size p)) with true by (symmetry; lia).
  cbn [rbind]. eexists. split; [done|]. split; [done|].
  unfold view, content. cbn. rewrite Hb, u64_small by lia. split_and!; [|done|].
  - split; cbn; [eexists; split; [done|by rewrite length_insert]|done|].
    unfold cap in *. cbn. change (opt _ CSV_APPEND_NULL) with (opt p CSV_APPEND_NULL). lia.
  - f_equal. rewrite Z2Nat.inj_add, Nat.add_1_r by lia.
    rewrite (take_S_r _ _ c) by (apply list_lookup_insert_eq; lia). by rewrite take_insert_ge by lia.
Qed.

Lemma content_set_pos p n :
  alloc_ok p -> 0 <= n <= entry_pos p -> content (set_pos (entry_pos p - n) p) = cut n (content p).
Proof.
  intros Ha Hn. pose proof (content_len p Ha) as Hl. unfold cut.
  replace (length (content p)) with (Z.to_nat (entry_pos p)) by lia.
  unfold content at 1. cbn. destruct (al_buf _ Ha) as (b & Hb & _). rewrite Hb. unfold content. rewrite Hb.
  rewrite take_take. f_equal. lia.
Qed.

Lemma SUBMIT_FIELD_spec cbs p :
  alloc_ok p -> (quoted p = false -> 0 <= spaces p <= entry_pos p) ->
  exists p', SUBMIT_FIELD cbs p =
      Ok (p', a_submit (conf_of cbs p) (quoted p)
                (if quoted p then content p else cut (spaces p) (content p))) /\
    same_setup p p' /\ alloc_ok p' /\ status p' = status p /\ view p' = a_next.
Proof.
  intros Ha Hsp. pose proof (cap_le p). pose proof (content_len p Ha) as Hlc. unfold SUBMIT_FIELD.
  set (p1 := if quoted p then p else set_pos (u64 (entry_pos p - spaces p)) p).
  pose proof Ha as [(b & Hb & Hl) Hs Hp].
  assert (H1 : entry_buf p1 = Some b /\ entry_size p1 = entry_size p /\ same_setup p p1 /\
    0 <= entry_pos p1 <= entry_pos p /\ quoted p1 = quoted p /\ status p1 = status p /\
    content p1 = (if quoted p then content p else cut (spaces p) (content p))).
  { unfold p1. destruct (quoted p) eqn:Hq; [split_and!; done || lia|].
    specialize (Hsp eq_refl). rewrite u64_small by lia. rewrite <- content_set_pos by (done || lia).
    split_and!; try done; cbn; lia. }
  destruct H1 as (Hb1 & Hs1 & Hst & Hp1 & Hq1 & Hstat & Hc1). clearbody p1.
  pose proof Hst as (Ho & _). rewrite <- Hc1.
  assert (Hopt : forall o, opt p1 o = opt p o) by (intros; unfold opt; by rewrite Ho).
  assert (Hb2 : exists p2, (if opt p1 CSV_APPEND_NULL then buf_write p1 (entry_pos p1) 0 else Ok p1) = Ok p2 /\
    same_setup p1 p2 /\ (exists b2, entry_buf p2 = Some b2 /\ len b2 = entry_size p1) /\
    entry_size p2 = entry_size p1 /\ entry_pos p2 = entry_pos p1 /\ quoted p2 = quoted p1 /\
    status p2 = status p1 /\ content p2 = content p1).
  { rewrite Hopt. unfold cap in Hp. destruct (opt p CSV_APPEND_NULL); [|exists p1; split_and!; try done; exists b; split; congruence].
    unfold buf_write. rewrite Hb1. replace ((0 <=? entry_pos p1) && (entry_pos p1 <? entry_size p1)) with true by (symmetry; lia).
    eexists. split; [done|]. split_and!; try done.
    - cbn. eexists. split; [done|]. rewrite length_insert. congruence.
    - unfold content. cbn. rewrite Hb1. by rewrite take_insert_ge by lia. }
  destruct Hb2 as (p2 & -> & Hst2 & (b2 & Hb2 & Hl2) & Hs2 & Hp2 & Hq2 & Hstat2 & Hc2). cbn [rbind].
  pose proof Hst2 as (Ho2 & _). rewrite <- Hc2.
  assert (Ha2 : alloc_ok p2).
  { split; [exists b2; split; [done|congruence]|lia|]. unfold cap, opt in *. rewrite Ho2, Ho, Hs2, Hs1.
    destruct (negb _); lia. }
  eexists. split.
  - f_equal. f_equal. rewrite Hq2, Hq1. unfold a_submit. cbn [k_cbs k_empty_null conf_of].
    unfold opt. rewrite Ho2, Ho, (content_len p2 Ha2). unfold content. rewrite Hb2.
    destruct (cb1 cbs); [|done]. cbn [andb]. by destruct (Z.eqb_spec (entry_pos p2) 0) as [->|]; rewrite ?andb_false_r.
  - split_and!.
    + by apply (same_setup_trans p p1), (same_setup_trans p1 p2).
    + destruct Ha2 as [A1 A2 A3]. split; cbn; [exact A1|exact A2|]. unfold cap in *. cbn.
      change (opt _ CSV_APPEND_NULL) with (opt p2 CSV_APPEND_NULL). destruct (opt p2 CSV_APPEND_NULL); lia.
    + cbn. congruence.
    + unfold view, content, a_next. cbn. by rewrite Hb2.
Qed.

Lemma a_step_ok k a c a' e : a_ok a -> a_step k a c = Some (a', e) -> a_ok a'.
Proof.
  destruct a as [st q sp w]. unfold a_ok, a_step, a_append, a_start, a_next. cbn.
  intros Ha. pose proof (length_app w [c]) as Hl. cbn in Hl.
  repeat case_match; simplify_eq; intros; simplify_eq; cbn; rewrite ?length_app in *; cbn in *;
    split_and?; try done; try lia; intros; simplify_eq; try lia; by destruct_and!; simplify_eq.
Qed.

(** one step of the parser, seen through [view] *)
Definition stepped (p : csv_parser) (r : result outcome) (a : astate) (e : list event) : Prop :=
  exists p', r = Ok (Continue p' e) /\ same_setup p p' /\ alloc_ok p' /\ status p' = status p /\ view p' = a.

Lemma go_stepped p p' a :
  alloc_ok p -> same_setup p p' -> entry_buf p' = entry_buf p -> entry_size p' = entry_size p ->
  entry_pos p' = entry_pos p -> status p' = status p -> view p' = a -> stepped p (go p') a [].
Proof.
  intros Ha Hs Hb Hz Hp Hst Hv. exists p'. split_and!; try done.
  eapply alloc_ok_ext; [exact Hb|exact Hz|exact Hp|apply Hs|exact Ha].
Qed.

Lemma char_stepped p p1 c (F : csv_parser -> csv_parser) st sp :
  alloc_ok p -> entry_pos p < cap p ->
  same_setup p p1 -> entry_buf p1 = entry_buf p -> entry_size p1 = entry_size p ->
  entry_pos p1 = entry_pos p -> status p1 = status p ->
  (forall p', same_setup p' (F p') /\ entry_buf (F p') = entry_buf p' /\ entry_size (F p') = entry_size p' /\
     entry_pos (F p') = entry_pos p' /\ status (F p') = status p' /\ quoted (F p') = quoted p') ->
  (forall p', pstate p' = pstate p1 -> pstate (F p') = st) ->
  (forall p', spaces p' = spaces p1 -> spaces (F p') = sp) ->
  stepped p (rbind (SUBMIT_CHAR p1 c) (fun p' => go (F p'))) (mk_astate st (quoted p1) sp (content p ++ [c])) [].
Proof.
  intros Ha Hr Hs Hb Hz Hp Hst HF Hpst Hsp.
  assert (Ha1 : alloc_ok p1) by (eapply alloc_ok_ext; [exact Hb|exact Hz|exact Hp|apply Hs|exact Ha]).
  assert (Hc : content p1 = content p) by (unfold content; by rewrite Hb, Hp).
  assert (Hcap : cap p1 = cap p) by (unfold cap, opt; destruct Hs as (-> & _); by rewrite Hz).
  destruct (SUBMIT_CHAR_spec p1 c Ha1) as (p' & -> & Hs' & Ha' & Hst' & Hv); [by rewrite Hp, Hcap|].
  unfold view in Hv. injection Hv as V1 V2 V3 V4. cbn [rbind].
  destruct (HF p') as (G1 & G2 & G3 & G4 & G5 & G6).
  exists (F p'). split_and!; [done| | |by rewrite G5, Hst', Hst|].
  - by apply (same_setup_trans p p1), (same_setup_trans p1 p').
  - eapply alloc_ok_ext; [exact G2|exact G3|exact G4|apply G1|exact Ha'].
  - unfold view. f_equal; [by apply Hpst|by rewrite G6|by apply Hsp|].
    rewrite <- Hc, <- V4. unfold content. by rewrite G2, G4.
Qed.

Lemma field_stepped cbs p p1 w :
  alloc_ok p1 -> same_setup p p1 -> status p1 = status p ->
  (quoted p1 = false -> 0 <= spaces p1 <= entry_pos p1) ->
  w = (if quoted p1 then content p1 else cut (spaces p1) (content p1)) ->
  stepped p (field_only cbs p1) a_next (a_submit (conf_of cbs p) (quoted p1) w) /\
  (forall c, stepped p (field_then_row cbs p1 c) a_start
     (a_submit (conf_of cbs p) (quoted p1) w ++ a_row (conf_of cbs p) c)).
Proof.
  intros Ha Hs Hst Hsp ->.
  destruct (SUBMIT_FIELD_spec cbs p1 Ha Hsp) as (p2 & E & Hs2 & Ha2 & Hst2 & Hv2).
  rewrite (conf_same cbs p p1 Hs) in E. split; [|intros c].
  - unfold field_only. rewrite E. exists p2. split_and!; try done; [|congruence].
    by apply (same_setup_trans p p1).
  - unfold field_then_row. rewrite E. cbn [rbind SUBMIT_ROW].
    eexists. split; [done|]. unfold view in Hv2. injection Hv2 as V1 V2 V3 V4.
    split_and!; [| |cbn; congruence|].
    + by apply (same_setup_trans p p1), (same_setup_trans p1 p2).
    + apply (alloc_ok_ext p2); try done. cbn. pose proof (content_len p2 Ha2) as Hl.
      rewrite V4 in Hl. exact Hl.
    + unfold view, a_start. f_equal. unfold content. cbn. by destruct (entry_buf p2).
Qed.

Section step.
  Context (cbs : callbacks) (p : csv_parser) (c : Z).
  Hypothesis Ha : alloc_ok p.
  Hypothesis Hr : entry_pos p < cap p.
  Hypothesis Hok : a_ok (view p).
  #[local] Set Default Proof Using "All".

(** SUBMIT_CHAR, then an update that does not concern the buffer *)
Ltac submit_char :=
  lazymatch goal with
  | |- stepped _ (let! x := SUBMIT_CHAR ?p1 _ in go (@?F x)) _ _ =>
      apply (char_stepped p p1 c F); try done; cbn; congruence
  end.

Lemma step_not_begun :
  pstate p = ROW_NOT_BEGUN \/ pstate p = FIELD_NOT_BEGUN ->
  match a_step (conf_of cbs p) (view p) c with
  | Some (a, e) => stepped p (csv_step cbs p c) a e
  | None => csv_step cbs p c = Ok (Stop (set_status CSV_EPARSE p))
  end.
Proof.
  intros Hst. pose proof (content_len p Ha) as Hlen.
  assert (Hq : quoted p = false /\ spaces p = 0 /\ content p = []).
  { unfold a_ok in Hok. cbn in Hok. destruct Hst as [E|E]; by rewrite E in Hok. }
  destruct Hq as (Hq & Hsp & Hw).
  destruct (field_stepped cbs p p [] Ha (same_setup_refl p) eq_refl) as [Hfield Hrow].
  { intros _. rewrite Hsp. pose proof (al_pos _ Ha). lia. }
  { rewrite Hq, Hw. unfold cut. by rewrite take_nil. }
  rewrite Hq in Hfield, Hrow.
  assert (Hrownl : pstate p = ROW_NOT_BEGUN -> view (SUBMIT_ROW cbs p c).1 = view p).
  { intros Est. unfold view. rewrite Est, Hq, Hsp. f_equal. unfold content at 1. cbn. rewrite Hw.
    by destruct (entry_buf p). }
  unfold a_step, csv_step. cbn [k_space k_term k_delim k_quote k_strict k_repall conf_of view a_st a_quoted a_spaces a_field].
  assert (Hrest : stepped p (if c =? quote_char p then go (set_quoted true (set_pstate FIELD_BEGUN p))
      else let! p := SUBMIT_CHAR (set_quoted false (set_pstate FIELD_BEGUN p)) c in go p)
      (if c =? quote_char p then mk_astate FIELD_BEGUN true 0 [] else mk_astate FIELD_BEGUN false 0 [c]) []).
  { destruct (c =? quote_char p).
    - apply go_stepped; try done. unfold view. cbn. rewrite Hsp. f_equal. exact Hw.
    - replace [c] with (content p ++ [c]) by (by rewrite Hw). submit_char. }
  destruct Hst as [Est|Est]; rewrite Est in *;
    (destruct (space_char p c && _); [apply go_stepped; try done; unfold view; by rewrite Est|]);
    (destruct (term_char p c);
      [|destruct (c =? delim_char p); [exact Hfield|destruct (c =? quote_char p); exact Hrest]]).
  - destruct (opt p CSV_REPALL_NL); [|apply go_stepped; try done; unfold view; by rewrite Est].
    eexists. split; [done|]. rewrite Hw in Hlen.
    split_and!; [done|by apply (alloc_ok_ext p)|done|]. unfold view in Hrownl at 2. rewrite Est in Hrownl.
    unfold view at 2. rewrite Est. by apply Hrownl.
  - apply Hrow.
Qed.

Lemma step_begun :
  pstate p = FIELD_BEGUN ->
  match a_step (conf_of cbs p) (view p) c with
  | Some (a, e) => stepped p (csv_step cbs p c) a e
  | None => csv_step cbs p c = Ok (Stop (set_status CSV_EPARSE p))
  end.
Proof.
  intros Est. pose proof (content_len p Ha) as Hlen. pose proof (al_size _ Ha). pose proof (cap_le p).
  unfold a_ok in Hok. cbn in Hok. rewrite Est in Hok. destruct Hok as [Hsp Hqs].
  unfold a_step, csv_step. cbn [k_space k_term k_delim k_quote k_strict k_repall conf_of view a_st a_quoted a_spaces a_field].
  unfold a_append. cbn [a_quoted a_field view].
  rewrite Est. destruct (quoted p) eqn:Hq; cbn [negb andb].
  - specialize (Hqs eq_refl). rewrite <- Hq.
    destruct (c =? quote_char p); [submit_char|].
    destruct (c =? delim_char p); [submit_char|].
    destruct (term_char p c); submit_char.
  - destruct (field_stepped cbs p p (cut (spaces p) (content p)) Ha (same_setup_refl p) eq_refl) as [Hfield Hrow].
    { intros _. lia. }
    { by rewrite Hq. }
    rewrite Hq in Hfield, Hrow.
    destruct (c =? quote_char p).
    { destruct (opt p CSV_STRICT); [done|]. rewrite <- Hq. submit_char. }
    destruct (c =? delim_char p); [exact Hfield|].
    destruct (term_char p c); [apply Hrow|]. rewrite <- Hq.
    destruct (space_char p c); [|submit_char].
    rewrite <- (u64_small (spaces p + 1)) by lia. submit_char.
Qed.

Lemma step_might_have_ended :
  pstate p = FIELD_MIGHT_HAVE_ENDED ->
  match a_step (conf_of cbs p) (view p) c with
  | Some (a, e) => stepped p (csv_step cbs p c) a e
  | None => csv_step cbs p c = Ok (Stop (set_status CSV_EPARSE p))
  end.
Proof.
  intros Est. pose proof (content_len p Ha) as Hlen. pose proof (al_size _ Ha). pose proof (cap_le p).
  unfold a_ok in Hok. cbn in Hok. rewrite Est in Hok. destruct Hok as [Hq Hsp].
  unfold a_step, csv_step. cbn [k_space k_term k_delim k_quote k_strict k_repall conf_of view a_st a_quoted a_spaces a_field].
  unfold a_append. cbn [a_quoted a_field view]. rewrite Est.
  assert (Ha1 : alloc_ok (set_pos (entry_pos p - (spaces p + 1)) p)).
  { destruct Ha as [A1 A2 A3]. split; [exact A1|exact A2|]. cbn. unfold cap in *. cbn.
    change (opt _ CSV_APPEND_NULL) with (opt p CSV_APPEND_NULL). lia. }
  rewrite u64_small by lia.
  destruct (field_stepped cbs p (set_pos (entry_pos p - (spaces p + 1)) p) (cut (spaces p + 1) (content p)) Ha1)
    as [Hfield Hrow]; [done|done|cbn; congruence| |].
  { cbn [quoted set_pos]. rewrite Hq. rewrite content_set_pos; [done|done|lia]. }
  cbn [quoted set_pos] in Hfield, Hrow. rewrite Hq in Hfield, Hrow.
  destruct (c =? delim_char p); [exact Hfield|].
  destruct (term_char p c); [apply Hrow|].
  destruct (space_char p c).
  { rewrite <- (u64_small (spaces p + 1)) by lia. submit_char. }
  destruct (c =? quote_char p).
  - destruct (Z.eqb_spec (spaces p) 0) as [Hz|Hz]; cbn [negb].
    + apply go_stepped; try done. unfold view. cbn. rewrite Hq, Hz. f_equal.
    + destruct (opt p CSV_STRICT); [done|]. submit_char.
  - destruct (opt p CSV_STRICT); [done|]. submit_char.
Qed.

(** One character: the parser does what the abstract parser does. *)
Lemma csv_step_spec :
  match a_step (conf_of cbs p) (view p) c with
  | Some (a, e) => stepped p (csv_step cbs p c) a e
  | None => csv_step cbs p c = Ok (Stop (set_status CSV_EPARSE p))
  end.
Proof.
  destruct (pstate p) eqn:Est; [apply step_not_begun; auto..|by apply step_begun|by apply step_might_have_ended].
Qed.

End step.

(** ** A chunk *)

(** memory is never refused and the field cannot outgrow the address space *)
Definition roomy (p : csv_parser) (n : Z) : Prop :=
  (forall m s, realloc_func p m s = true) /\ 0 < blk_size p /\ len (content p) + n < SIZE_MAX - 1.

Definition error_status (s : Z) : Prop := s = CSV_EPARSE \/ s = CSV_ENOMEM \/ s = CSV_ETOOBIG.

(** how a call that treated [n] of the characters of [s] ended *)
Record parsed (cbs : callbacks) (s : list Z) (p : csv_parser) (n : Z) (p' : csv_parser) (evs : list event) : Prop := {
  pd_alloc : alloc_ok p';
  pd_view : a_ok (view p');
  pd_same : same_setup p p';
  pd_count : 0 <= n <= len s;
  pd_status : (n = len s /\ status p' = status p) \/ (n < len s /\ error_status (status p'));
  pd_run : roomy p (len s) -> a_run (conf_of cbs p) s (view p) = (n, view p', evs, n =? len s)
}.

Lemma a_step_len k a c a' e :
  a_ok a -> a_step k a c = Some (a', e) -> len (a_field a') <= len (a_field a) + 1.
Proof.
  destruct a as [st q sp w]. unfold a_ok, a_step, a_append, a_start, a_next. cbn. intros Ha.
  repeat case_match; intros; simplify_eq; cbn; rewrite ?length_app; cbn; lia.
Qed.

Lemma room_spec p :
  alloc_ok p -> 0 <= blk_size p < 2 ^ 64 ->
  exists ok p', (if buffer_full p then csv_increase_buffer p else Ok (true, p)) = Ok (ok, p') /\
    same_setup p p' /\ view p' = view p /\ alloc_ok p' /\
    (if ok : bool then entry_pos p' < cap p' /\ status p' = status p else error_status (status p')) /\
    (roomy p 0 -> ok = true).
Proof.
  intros Ha Hblk. pose proof (content_len p Ha) as Hlen. pose proof (al_size _ Ha). pose proof (al_pos _ Ha) as Hpos.
  assert (Hfull : buffer_full p = (entry_pos p =? cap p)).
  { unfold buffer_full, cap. rewrite u64_small by lia. done. }
  rewrite Hfull. destruct (Z.eqb_spec (entry_pos p) (cap p)) as [Hc|Hc].
  - destruct (csv_increase_buffer_spec p (or_introl Ha) Hblk) as (ok & p' & E & Hs & Hv & Hp & Hok & Hroom).
    exists ok, p'. split_and!; try done.
    + destruct ok; [by destruct Hok|]. destruct Hok as [-> _]. by apply (alloc_ok_ext p).
    + destruct ok.
      * destruct Hok as (Ha' & Hsz & Hst). split; [|done]. rewrite Hp, Hc. unfold cap, opt.
        destruct Hs as (-> & _). destruct (negb _); lia.
      * destruct Hok as [_ [Hst|Hst]]; unfold error_status; tauto.
    + intros (Hall & Hb & Hl). apply Hroom; [done|done|]. unfold cap in Hc. unfold SIZE_MAX in *.
      destruct (opt p _); lia.
  - exists true, p. split_and!; try done. lia.
Qed.

Lemma csv_loop_spec cbs s : forall pos p,
  alloc_ok p -> a_ok (view p) -> 0 <= blk_size p < 2 ^ 64 ->
  exists n p' evs, csv_loop cbs s pos p = Ok (pos + n, p', evs) /\ parsed cbs s p n p' evs.
Proof.
  induction s as [|c s IH]; intros pos p Ha Hok Hblk.
  - exists 0, p, []. cbn [csv_loop]. split; [by rewrite Z.add_0_r|]. split; try done. left. done.
  - cbn [csv_loop].
    destruct (room_spec p Ha Hblk) as (ok & p1 & -> & Hs1 & Hv1 & Ha1 & Hok1 & Hroom). cbn [rbind].
    assert (Hroomy : roomy p (len (c :: s)) -> roomy p 0) by (unfold roomy; intros (? & ? & ?); split_and!; [done..|lia]).
    destruct ok.
    + destruct Hok1 as [Hr1 Hst1].
      pose proof (csv_step_spec cbs p1 c Ha1 Hr1 ltac:(by rewrite Hv1)) as Hstep.
      rewrite Hv1, (conf_same cbs p p1 Hs1) in Hstep.
      destruct (a_step (conf_of cbs p) (view p) c) as [[a e]|] eqn:Ea.
      * destruct Hstep as (p2 & -> & Hs2 & Ha2 & Hst2 & Hv2). cbn [rbind].
        pose proof (same_setup_trans _ _ _ Hs1 Hs2) as Hs12.
        destruct (IH (pos + 1) p2 Ha2) as (n & p' & evs & E & [D1 D2 D3 D4 D5 D6]).
        { rewrite Hv2. by eapply a_step_ok. }
        { destruct Hs12 as (_ & _ & _ & _ & _ & -> & _). done. }
        rewrite E. cbn [rbind]. exists (n + 1), p', (e ++ evs). split; [f_equal; f_equal; f_equal; lia|].
        split; try done; [by apply (same_setup_trans p p2)|cbn [length]; lia| |].
        -- cbn [length]. destruct D5 as [[-> ->]|[? ?]]; [left|right]; (split; [lia|done || congruence]).
        -- intros (Hall & Hb & Hl). cbn [a_run]. rewrite Ea.
           pose proof (a_step_len _ _ _ _ _ Hok Ea) as Hlen2.
           rewrite <- Hv2. rewrite (conf_same cbs p p2 Hs12) in D6. rewrite D6.
           ++ f_equal. cbn [length]. case_bool; case_bool; lia || done.
           ++ destruct Hs12 as (_ & _ & _ & _ & _ & Hbk & Hrf). unfold roomy. rewrite Hbk, Hrf.
              split_and!; [done..|]. rewrite <- Hv2 in Hlen2. cbn [a_field view length] in *. lia.
      * rewrite Hstep. cbn [rbind]. exists 0, (set_status CSV_EPARSE p1), []. rewrite Z.add_0_r. split; [done|].
        split; try done.
        -- by apply (alloc_ok_ext p1).
        -- change (view (set_status CSV_EPARSE p1)) with (view p1). by rewrite Hv1.
        -- right. split; [cbn [length]; lia|]. by left.
        -- intros _. cbn [a_run]. rewrite Ea. change (view (set_status CSV_EPARSE p1)) with (view p1). rewrite Hv1.
           done.
    + exists 0, p1, []. rewrite Z.add_0_r. split; [done|]. split; try done.
      * by rewrite Hv1.
      * right. split; [cbn [length]; lia|done].
      * intros Hr. by specialize (Hroom (Hroomy Hr)).
Qed.

(** the first allocation *)
Lemma csv_parse_spec cbs p s :
  parser_ok p ->
  (exists n p' evs, csv_parse cbs p s = Ok (n, p', evs) /\ parsed cbs s p n p' evs) \/
  (csv_parse cbs p s = Ok (0, p, []) /\ s = []) \/
  (exists st calls, csv_parse cbs p s = Ok (0, set_calls calls (set_status st p), []) /\ error_status st /\ s <> [] /\ ~ roomy p (len s)).
Proof.
  intros [[Ha|(Hb & Hz & Hp & Hst)] Hok Hblk].
  - left. destruct (al_buf _ Ha) as (b & Hb & _). unfold csv_parse. rewrite Hb.
    apply (csv_loop_spec cbs s 0 p Ha Hok Hblk).
  - destruct s as [|c s]; [right; left; by unfold csv_parse; rewrite Hb|]. unfold csv_parse. rewrite Hb.
    destruct (csv_increase_buffer_spec p) as (ok & p1 & -> & Hs & Hv & Hp1 & Hok1 & Hroom); [by right|done|].
    cbn [rbind]. destruct ok.
    + left. destruct Hok1 as (Ha1 & _ & Hst1).
      destruct (csv_loop_spec cbs (c :: s) 0 p1 Ha1) as (n & p' & evs & E & [D1 D2 D3 D4 D5 D6]).
      { by rewrite Hv. }
      { destruct Hs as (_ & _ & _ & _ & _ & -> & _). done. }
      exists n, p', evs. split; [exact E|]. split; try done; [by apply (same_setup_trans p p1)|by rewrite Hst1 in D5|].
      rewrite Hv, (conf_same cbs p p1 Hs) in D6. intros (Hall & Hbk & Hl). apply D6.
      destruct Hs as (_ & _ & _ & _ & _ & Hbk' & Hrf). unfold roomy. rewrite Hbk', Hrf. split_and!; [done..|].
      unfold view in Hv. injection Hv as _ _ _ ->. done.
    + right. right. destruct Hok1 as [Hset Herr]. exists (status p1), (realloc_calls p1). rewrite <- Hset. split_and!; [done| |done|].
      * unfold error_status. tauto.
      * intros (Hall & Hbk & Hl). specialize (Hroom Hall Hbk). rewrite Hz in Hroom. by specialize (Hroom ltac:(done)).
Qed.

(** C34.  csv_parse never writes out of its buffer, whatever the bytes, the options, the
    functions is_space and is_term and the failures of realloc: it returns, leaves the
    parser in a state to be called again, and has treated every character unless it has
    set an error status. *)
Theorem csv_parse_safe cbs p s :
  parser_ok p ->
  exists n p' evs, csv_parse cbs p s = Ok (n, p', evs) /\ parser_ok p' /\ 0 <= n <= len s /\
    (n < len s -> error_status (csv_error p')).
Proof.
  intros Hp. destruct (csv_parse_spec cbs p s Hp) as [(n & p' & evs & E & D)|[[E ->]|(st & calls & E & Hst & Hs & _)]].
  - exists n, p', evs. split_and!; try done.
    + split; [left; apply D|apply D|]. destruct (pd_same _ _ _ _ _ _ D) as (_ & _ & _ & _ & _ & -> & _). apply Hp.
    + apply D.
    + apply D.
    + intros Hn. destruct (pd_status _ _ _ _ _ _ D) as [[? _]|[_ ?]]; [lia|done].
  - exists 0, p, []. split_and!; try done; simpl; lia.
  - exists 0, (set_calls calls (set_status st p)), []. split_and!; try done; [|lia].
    destruct Hp as [H1 H2 H3]. split; [|exact H2|exact H3].
    destruct H1 as [H1|H1]; [left; by apply (alloc_ok_ext p)|right; exact H1].
Qed.

(** C29.  Refinement: when memory suffices, csv_parse treats the same characters, makes the same
    calls of the callbacks and ends in the same state as the parser with unbounded fields. *)
Theorem csv_parse_refines cbs p s :
  parser_ok p -> roomy p (len s) ->
  exists n p' evs ok, csv_parse cbs p s = Ok (n, p', evs) /\
    a_run (conf_of cbs p) s (view p) = (n, view p', evs, ok) /\
    ok = (n =? len s).
Proof.
  intros Hp Hr. destruct (csv_parse_spec cbs p s Hp) as [(n & p' & evs & E & D)|[[E ->]|(st & calls & _ & _ & _ & Hno)]].
  - exists n, p', evs, (n =? len s). split_and!; [done| |done]. by apply D.
  - exists 0, p, [], true. done.
  - done.
Qed.

(** ** Chunks *)

Lemma csv_loop_shift cbs s : forall pos p,
  csv_loop cbs s pos p = (let! '(n, p', e) := csv_loop cbs s 0 p in Ok (pos + n, p', e)).
Proof.
  induction s as [|c s IH]; intros pos p; cbn [csv_loop rbind]; [by rewrite Z.add_0_r|].
  destruct (if buffer_full p then _ else _) as [[[] p1]|]; cbn [rbind]; [|by rewrite Z.add_0_r|done].
  destruct (csv_step cbs p1 c) as [[p2 e|p2]|]; cbn [rbind]; [|by rewrite Z.add_0_r|done].
  rewrite (IH (pos + 1)), (IH (0 + 1)). destruct (csv_loop cbs s 0 p2) as [[[n p'] e']|]; [|done].
  cbn [rbind]. do 3 f_equal. lia.
Qed.

Lemma csv_loop_app cbs s1 : forall s2 pos p p1 e1,
  csv_loop cbs s1 pos p = Ok (pos + len s1, p1, e1) ->
  csv_loop cbs (s1 ++ s2) pos p =
    (let! '(n, p2, e2) := csv_loop cbs s2 (pos + len s1) p1 in Ok (n, p2, e1 ++ e2)).
Proof.
  induction s1 as [|c s1 IH]; intros s2 pos p p1 e1 E.
  - cbn [csv_loop] in E. injection E as _ <- <-. cbn [app length]. rewrite Z.add_0_r.
    by destruct (csv_loop cbs s2 pos p) as [[[n p2] e2]|].
  - cbn [app csv_loop] in *.
    destruct (if buffer_full p then _ else _) as [[[] q1]|]; cbn [rbind] in *; [|cbn [length] in E; injection E as E _ _; lia|done].
    destruct (csv_step cbs q1 c) as [[q2 e|q2]|]; cbn [rbind] in *; [|cbn [length] in E; injection E as E _ _; lia|done].
    destruct (csv_loop cbs s1 (pos + 1) q2) as [[[n q3] e3]|] eqn:E1; [|done]. cbn [rbind] in E.
    injection E as -> -> <-.
    assert (Hn : pos + Z.of_nat (S (length s1)) = pos + 1 + len s1) by lia.
    cbn [length] in *. rewrite Hn in *.
    rewrite (IH s2 _ _ _ _ E1). destruct (csv_loop cbs s2 _ p1) as [[[n2 p2] e2]|]; [|done].
    cbn [rbind]. by rewrite app_assoc.
Qed.

(** C35.  Feeding the input in pieces gives the same calls of the callbacks, and the same parser, as
    feeding it at once. The first piece must have been consumed whole. *)
Theorem csv_parse_chunks cbs p s1 s2 p1 e1 n p2 e2 :
  parser_ok p ->
  csv_parse cbs p s1 = Ok (len s1, p1, e1) -> csv_parse cbs p1 s2 = Ok (n, p2, e2) ->
  csv_parse cbs p (s1 ++ s2) = Ok (len s1 + n, p2, e1 ++ e2).
Proof.
  intros Hp E1 E2. destruct s1 as [|c s1].
  - assert (csv_parse cbs p [] = Ok (0, p, [])) as H by (unfold csv_parse; by destruct (entry_buf p)).
    rewrite H in E1. injection E1 as <- <-. exact E2.
  - assert (Hb1 : is_Some (entry_buf p1)).
    { destruct (csv_parse_spec cbs p (c :: s1) Hp) as [(n' & p' & evs & E & D)|[[E ?]|(st & calls & E & _)]]; [|done|].
      - rewrite E1 in E. injection E as <- -> ->. destruct (al_buf _ (pd_alloc _ _ _ _ _ _ D)) as (b & -> & _). eauto.
      - rewrite E1 in E. injection E as E _ _. cbn [length] in E. lia. }
    destruct Hb1 as [b1 Hb1]. unfold csv_parse in E2. rewrite Hb1 in E2.
    assert (Hloop : forall q, csv_loop cbs (c :: s1) 0 q = Ok (len (c :: s1), p1, e1) ->
              csv_loop cbs ((c :: s1) ++ s2) 0 q = Ok (len (c :: s1) + n, p2, e1 ++ e2)).
    { intros q E. rewrite (csv_loop_app cbs _ s2 _ _ p1 e1) by exact E.
      rewrite csv_loop_shift, E2. cbn [rbind]. by rewrite Z.add_0_l. }
    unfold csv_parse in *. destruct (entry_buf p); [by apply Hloop|]. cbn [app].
    destruct (csv_increase_buffer p) as [[[] q]|]; cbn [rbind] in *; [by apply Hloop| |done].
    cbn [length] in E1. injection E1 as E1 _ _. lia.
Qed.

(** ** Writing *)

(** a quoted field *)
Definition escape (q : Z) (f : list Z) : list Z := flat_map (fun c => if c =? q then [q; q] else [c]) f.
Definition enc (q : Z) (f : list Z) : list Z := q :: escape q f ++ [q].

(** [out] has been produced for a destination that held [d0] *)
Definition wrote (d0 out : list Z) (d : list Z) (cdest chars : Z) : Prop :=
  d = take (length d0) out ++ drop (length out) d0 /\ chars = len out /\
  cdest = Z.min (len d0) (len out).

Lemma wrote_put d0 out d cdest chars c :
  wrote d0 out d cdest chars ->
  let '(d', cdest') := put d (len d0) cdest chars c in wrote d0 (out ++ [c]) d' cdest' (chars + 1).
Proof.
  intros (-> & -> & ->). unfold put. rewrite Z.gtb_ltb. unfold wrote. rewrite length_app. cbn [length].
  destruct (Z.ltb_spec (len out) (len d0)) as [H|H].
  - split_and!; [|lia|lia]. rewrite !take_ge by (rewrite ?length_app; cbn [length]; lia).
    replace (Z.to_nat (Z.min (len d0) (len out))) with (length out + 0)%nat by lia.
    rewrite insert_app_r, <- app_assoc. f_equal.
    destruct (drop (length out) d0) as [|x rest] eqn:Hd.
    { apply (f_equal length) in Hd. rewrite length_drop in Hd. cbn [length] in Hd. lia. }
    cbn. f_equal. rewrite <- drop_drop, Hd. done.
  - split_and!; [|lia|lia]. rewrite take_app_le by lia. rewrite !drop_ge by lia. done.
Qed.

Lemma bump_small n : n < SIZE_MAX -> bump n = n + 1.
Proof. intros. unfold bump. by case_bool; [|lia]. Qed.

Lemma write_loop_spec q src : forall d0 out d cdest chars,
  wrote d0 out d cdest chars -> len out + len (escape q src) < SIZE_MAX ->
  let '(d', cdest', chars') := csv_write_loop q src d (len d0) cdest chars in
  wrote d0 (out ++ escape q src) d' cdest' chars'.
Proof.
  induction src as [|c src IH]; intros d0 out d cdest chars Hw Hl.
  - cbn. by rewrite app_nil_r.
  - pose proof Hw as (_ & Hch & _). unfold escape in Hl. cbn [flat_map] in Hl. fold (escape q src) in Hl.
    rewrite length_app in Hl. cbn [csv_write_loop]. unfold escape. cbn [flat_map]. fold (escape q src).
    destruct (Z.eqb_spec c q) as [->|Hc]; cbn [length] in Hl.
    + pose proof (wrote_put _ _ _ _ _ q Hw) as Hw1. destruct (put d (len d0) cdest chars q) as [d1 c1].
      rewrite bump_small by lia.
      pose proof (wrote_put _ _ _ _ _ q Hw1) as Hw2. destruct (put d1 (len d0) c1 (chars + 1) q) as [d2 c2].
      rewrite bump_small by lia.
      specialize (IH d0 _ _ _ _ Hw2). rewrite !length_app in IH. cbn [length] in IH.
      specialize (IH ltac:(lia)). by rewrite <- !app_assoc in IH.
    + pose proof (wrote_put _ _ _ _ _ c Hw) as Hw1. destruct (put d (len d0) cdest chars c) as [d1 c1].
      rewrite bump_small by lia.
      specialize (IH d0 _ _ _ _ Hw1). rewrite !length_app in IH. cbn [length] in IH.
      specialize (IH ltac:(lia)). by rewrite <- !app_assoc in IH.
Qed.

(** csv_write2 against the encoding *)
Lemma csv_write2_enc d0 src q :
  len (enc q src) < SIZE_MAX ->
  csv_write2 (Some d0) (len d0) src q =
    (Some (take (length d0) (enc q src) ++ drop (length (enc q src)) d0), len (enc q src)) /\
  (forall n, csv_write2 None n src q = (None, len (enc q src))).
Proof.
  intros Hl. unfold enc in Hl. cbn [length] in Hl. rewrite length_app in Hl. cbn [length] in Hl.
  assert (H : forall d0, exists cdest,
    (let '(d, cdest) := put d0 (len d0) 0 0 q in
     csv_write_loop q src d (len d0) cdest 1) =
       (take (length d0) (q :: escape q src) ++ drop (length (q :: escape q src)) d0, cdest, len (q :: escape q src)) /\
    cdest = Z.min (len d0) (len (q :: escape q src))).
  { clear d0. intros d0. assert (Hw0 : wrote d0 [] d0 0 0) by (unfold wrote; cbn [length drop]; rewrite take_nil; split_and!; done || lia).
    pose proof (wrote_put _ _ _ _ _ q Hw0) as Hw1. destruct (put d0 (len d0) 0 0 q) as [d1 c1].
    pose proof (write_loop_spec q src d0 _ _ _ _ Hw1) as Hw2. cbn [app length] in Hw2.
    specialize (Hw2 ltac:(lia)). destruct (csv_write_loop q src d1 (len d0) c1 (0 + 1)) as [[d2 c2] ch2] eqn:E.
    change (0 + 1) with 1 in E. destruct Hw2 as (-> & -> & ->). eexists. split; [exact E|done]. }
  unfold csv_write2. split.
  - destruct (H d0) as (cdest & E & Hc). destruct (put d0 (len d0) 0 0 q) as [d1 c1]. rewrite E.
    set (out := q :: escape q src) in *.
    assert (Hput : (if len d0 >? len out then <[Z.to_nat cdest:=q]> (take (length d0) out ++ drop (length out) d0)
                    else take (length d0) out ++ drop (length out) d0) =
      (put (take (length d0) out ++ drop (length out) d0) (len d0) cdest (len out) q).1).
    { unfold put. by destruct (len d0 >? len out). }
    assert (Hw : wrote d0 out (take (length d0) out ++ drop (length out) d0) cdest (len out)) by done.
    apply (wrote_put _ _ _ _ _ q) in Hw. rewrite Hput. destruct (put _ (len d0) cdest (len out) q) as [d2 c2].
    destruct Hw as (-> & Hch & _). rewrite bump_small by (unfold out; cbn [length]; lia).
    cbn [fst]. unfold enc. fold out. rewrite Hch. done.
  - intros n. destruct (H []) as (cdest & E & Hc). cbn [length] in E. change (Z.of_nat 0) with 0 in E.
    destruct (put [] 0 0 0 q) as [d1 c1]. rewrite E. rewrite bump_small by (cbn [length]; lia).
    unfold enc. f_equal. cbn [length]. rewrite length_app. cbn [length]. lia.
Qed.

(** csv_write2 writes the quoted field, or what fits of it, never more than the size of the
    destination, and returns the size of the whole; with NULL it only returns the size. *)
Theorem csv_write2_spec d0 src q :
  len (enc q src) < SIZE_MAX ->
  csv_write2 (Some d0) (len d0) src q =
    (Some (take (length d0) (enc q src) ++ drop (length (enc q src)) d0), len (enc q src)) /\
  (forall n, csv_write2 None n src q = (None, len (enc q src))).
Proof. apply csv_write2_enc. Qed.

(** a sequence of fputc *)
Fixpoint fputs {FILE} (fputc : Z -> FILE -> option FILE) (s : list Z) (fp : FILE) : option FILE :=
  match s with
  | [] => Some fp
  | c :: s => match fputc c fp with None => None | Some fp => fputs fputc s fp end
  end.

Lemma fputs_app {FILE} (fputc : Z -> FILE -> option FILE) s1 s2 fp :
  fputs fputc (s1 ++ s2) fp = match fputs fputc s1 fp with None => None | Some fp => fputs fputc s2 fp end.
Proof. revert fp; induction s1 as [|c s1 IH]; intros fp; simpl; [done|]. destruct (fputc c fp); auto. Qed.

(** csv_fwrite2 puts the bytes that csv_write2 writes, and stops at the first EOF. *)
Theorem csv_fwrite2_spec {FILE} (fputc : Z -> FILE -> option FILE) fp src q :
  csv_fwrite2 fputc fp src q = fputs fputc (enc q src) fp.
Proof.
  assert (H : forall src fp, csv_fwrite_loop fputc q src fp = fputs fputc (escape q src) fp).
  { clear. induction src as [|c src IH]; intros fp; [done|]. cbn [csv_fwrite_loop]. unfold escape. cbn [flat_map].
    fold (escape q src). destruct (Z.eqb_spec c q) as [->|]; cbn [app fputs].
    - destruct (fputc q fp) as [fp1|]; [|done]. destruct (fputc q fp1); auto.
    - destruct (fputc c fp); auto. }
  unfold csv_fwrite2, enc. cbn [fputs]. destruct (fputc q fp) as [fp1|]; [|done].
  rewrite H, fputs_app. destruct (fputs fputc (escape q src) fp1) as [fp2|]; [|done].
  simpl. by destruct (fputc q fp2).
Qed.

(** ** Round trip *)

Section roundtrip.
  Variable k : conf.
  Variable nl : Z.
  #[local] Set Default Proof Using "All".

(** the characters can be told apart *)
Record separable : Prop := {
  sp_delim : k_quote k <> k_delim k;
  sp_space : k_space k (k_quote k) = false;
  sp_term : k_term k (k_quote k) = false;
  sp_nl_term : k_term k nl = true;
  sp_nl_delim : nl <> k_delim k
}.
Hypothesis Hsep : separable.

(** the abstract parser takes [s] entirely *)
Definition a_steps (a : astate) (s : list Z) (a' : astate) (e : list event) : Prop :=
  a_run k s a = (len s, a', e, true).

Lemma a_steps_app a s1 a1 e1 s2 a2 e2 :
  a_steps a s1 a1 e1 -> a_steps a1 s2 a2 e2 -> a_steps a (s1 ++ s2) a2 (e1 ++ e2).
Proof.
  unfold a_steps. revert a e1. induction s1 as [|c s1 IH]; intros a e1 H1 H2.
  - cbn in H1. by injection H1 as <- <-.
  - cbn [app a_run] in *. destruct (a_step k a c) as [[a' e]|]; [|cbn [length] in H1; injection H1; lia].
    destruct (a_run k s1 a') as [[[n a''] e'] ok] eqn:E. injection H1 as Hn -> <- ->.
    assert (n = len s1) as -> by (cbn [length] in Hn; lia).
    rewrite (IH a' e' E H2). rewrite app_assoc. do 3 f_equal. cbn [length]. lia.
Qed.

Lemma a_steps_one a c a' e s a'' e' :
  a_step k a c = Some (a', e) -> a_steps a' s a'' e' -> a_steps a (c :: s) a'' (e ++ e').
Proof.
  intros H1 H2. apply (a_steps_app a [c] a' e s a'' e'); [|done].
  unfold a_steps. cbn. rewrite H1. by rewrite app_nil_r.
Qed.

(** the inside of a quoted field *)
Lemma steps_escape f : forall w,
  a_steps (mk_astate FIELD_BEGUN true 0 w) (escape (k_quote k) f) (mk_astate FIELD_BEGUN true 0 (w ++ f)) [].
Proof.
  induction f as [|c f IH]; intros w; [by rewrite app_nil_r|].
  unfold escape. cbn [flat_map]. fold (escape (k_quote k) f).
  replace (w ++ c :: f) with ((w ++ [c]) ++ f) by by rewrite <- app_assoc.
  destruct (Z.eqb_spec c (k_quote k)) as [->|Hc].
  - cbn [app].
    refine (a_steps_one _ _ _ [] _ _ [] _ (a_steps_one _ _ _ [] _ _ [] _ (IH _))).
    + unfold a_step, a_append. cbn. by rewrite Z.eqb_refl.
    + unfold a_step, a_append. cbn. rewrite (sp_term Hsep), (sp_space Hsep), Z.eqb_refl.
      destruct (Z.eqb_spec (k_quote k) (k_delim k)) as [E|_]; [by destruct (sp_delim Hsep)|]. done.
  - refine (a_steps_one _ _ _ [] _ _ [] _ (IH _)).
    unfold a_step, a_append. cbn. by rewrite (proj2 (Z.eqb_neq _ _) Hc).
Qed.

(** a quoted field and its closing quote, from the start of a field *)
Lemma steps_enc a f : (a = a_start \/ a = a_next) ->
  a_steps a (enc (k_quote k) f) (mk_astate FIELD_MIGHT_HAVE_ENDED true 0 (f ++ [k_quote k])) [].
Proof.
  intros Ha. unfold enc. refine (a_steps_one _ _ _ [] _ _ [] _ (a_steps_app _ _ _ [] _ _ [] (steps_escape f []) _)).
  - assert (H : k_space k (k_quote k) && negb (k_quote k =? k_delim k) = false) by by rewrite (sp_space Hsep).
    unfold a_step. destruct Ha as [-> | ->]; cbn; rewrite H, (sp_term Hsep), Z.eqb_refl;
      (destruct (Z.eqb_spec (k_quote k) (k_delim k)) as [E|_]; [by destruct (sp_delim Hsep)|done]).
  - unfold a_steps. cbn. unfold a_step, a_append. cbn. by rewrite Z.eqb_refl.
Qed.

Lemma cut_last (w : list Z) c : cut 1 (w ++ [c]) = w.
Proof. unfold cut. rewrite length_app. cbn [length]. rewrite take_app_le by lia. by apply take_ge; lia. Qed.

Definition quoted_field (f : list Z) : list event := a_submit k true f.

Lemma step_delim f :
  a_step k (mk_astate FIELD_MIGHT_HAVE_ENDED true 0 (f ++ [k_quote k])) (k_delim k) = Some (a_next, quoted_field f).
Proof. unfold a_step. cbn -[cut]. change (0 + 1) with 1. by rewrite Z.eqb_refl, cut_last. Qed.

Lemma step_nl f :
  a_step k (mk_astate FIELD_MIGHT_HAVE_ENDED true 0 (f ++ [k_quote k])) nl =
  Some (a_start, quoted_field f ++ a_row k nl).
Proof.
  unfold a_step. cbn -[cut]. change (0 + 1) with 1.
  rewrite (proj2 (Z.eqb_neq _ _) (sp_nl_delim Hsep)), (sp_nl_term Hsep). by rewrite cut_last.
Qed.

(** a row has a first field and others *)
Definition row_text (row : list Z * list (list Z)) : list Z :=
  enc (k_quote k) row.1 ++ flat_map (fun f => k_delim k :: enc (k_quote k) f) row.2 ++ [nl].

Definition row_events (row : list Z * list (list Z)) : list event :=
  quoted_field row.1 ++ flat_map quoted_field row.2 ++ a_row k nl.

Lemma steps_fields fs : forall f,
  a_steps (mk_astate FIELD_MIGHT_HAVE_ENDED true 0 (f ++ [k_quote k]))
    (flat_map (fun f => k_delim k :: enc (k_quote k) f) fs ++ [nl]) a_start
    (quoted_field f ++ flat_map quoted_field fs ++ a_row k nl).
Proof.
  induction fs as [|g fs IH]; intros f; cbn [flat_map app].
  - unfold a_steps. cbn [a_run]. by rewrite step_nl, app_nil_r.
  - eapply a_steps_one; [apply step_delim|]. rewrite <- app_assoc.
    change (flat_map quoted_field (g :: fs)) with (quoted_field g ++ flat_map quoted_field fs).
    rewrite <- app_assoc. rewrite <- (app_nil_l (quoted_field g ++ _)).
    eapply a_steps_app; [apply steps_enc; by right|apply IH].
Qed.

Lemma steps_rows rows :
  a_steps a_start (flat_map row_text rows) a_start (flat_map row_events rows).
Proof.
  induction rows as [|[f fs] rows IH]; [done|]. cbn [flat_map].
  eapply a_steps_app; [|exact IH]. unfold row_text, row_events. cbn [fst snd].
  rewrite <- (app_nil_l (quoted_field f ++ _)). eapply a_steps_app; [apply steps_enc; by left|apply steps_fields].
Qed.

End roundtrip.

(** what csv_write2 leaves in a buffer of the size it asks for *)
Definition written (q : Z) (f : list Z) : list Z :=
  let n := (csv_write2 None 0 f q).2 in
  default [] (csv_write2 (Some (replicate (Z.to_nat n) 0)) n f q).1.

Lemma written_enc q f : len (enc q f) < SIZE_MAX -> written q f = enc q f.
Proof.
  intros Hl. unfold written. destruct (csv_write2_enc [] f q Hl) as [_ Hn]. rewrite Hn. cbn [snd].
  destruct (csv_write2_enc (replicate (Z.to_nat (len (enc q f))) 0) f q Hl) as [E _].
  rewrite length_replicate, Nat2Z.id in E. rewrite Nat2Z.id. rewrite E. cbn [fst default].
  rewrite take_ge by lia. rewrite drop_ge by (rewrite length_replicate; lia). by rewrite app_nil_r.
Qed.

Definition csv_row (q d nl : Z) (row : list Z * list (list Z)) : list Z :=
  written q row.1 ++ flat_map (fun f => d :: written q f) row.2 ++ [nl].

(** C30.  Parsing what was written gives the fields back: for any bytes in the fields, any
    options, and any quote, delimiter and line end that can be told apart. *)
Theorem csv_roundtrip cbs p nl rows :
  parser_ok p -> pstate p = ROW_NOT_BEGUN -> separable (conf_of cbs p) nl ->
  let text := flat_map (csv_row (quote_char p) (delim_char p) nl) rows in
  (forall row f, row ∈ rows -> f ∈ row.1 :: row.2 -> len (enc (quote_char p) f) < SIZE_MAX) ->
  roomy p (len text) ->
  exists p', csv_parse cbs p text = Ok (len text, p', flat_map (row_events (conf_of cbs p) nl) rows) /\
    pstate p' = ROW_NOT_BEGUN /\ csv_error p' = csv_error p.
Proof.
  intros Hp Hst Hsep text Hsz Hr.
  assert (Htext : text = flat_map (row_text (conf_of cbs p) nl) rows).
  { unfold text. clear text Hr. induction rows as [|row rows IH]; [done|]. cbn [flat_map].
    rewrite IH by (intros; eapply Hsz; [right|]; done). f_equal. unfold csv_row, row_text.
    rewrite written_enc by (apply (Hsz row); by left). do 2 f_equal.
    assert (Hfs : forall f, f ∈ row.2 -> len (enc (quote_char p) f) < SIZE_MAX)
      by (intros f Hf; apply (Hsz row); [by left|by right]).
    clear - Hfs. induction row.2 as [|f fs IH]; [done|]. cbn [flat_map].
    rewrite written_enc by (apply Hfs; by left). rewrite IH by (intros; apply Hfs; by right). done. }
  assert (Hview : view p = a_start).
  { destruct Hp as [_ Hok _]. unfold a_ok in Hok. cbn in Hok. rewrite Hst in Hok. destruct Hok as (Hq & Hsp & Hw).
    unfold view, a_start. by rewrite Hst, Hq, Hsp, Hw. }
  pose proof (steps_rows (conf_of cbs p) nl Hsep rows) as Hrun. unfold a_steps in Hrun. rewrite <- Htext in Hrun.
  destruct (csv_parse_spec cbs p text Hp) as [(n & p' & evs & E & D)|[[E ->]|(st & calls & _ & _ & _ & Hno)]]; [| |done].
  - pose proof (pd_run _ _ _ _ _ _ D Hr) as Hrun'. rewrite Hview, Hrun in Hrun'. injection Hrun' as Hn Hv _ _ _ He _.
    exists p'. rewrite E, Hn, He. split_and!; [done| |].
    + done.
    + destruct (pd_status _ _ _ _ _ _ D) as [[_ Hs]|[Hlt _]]; [done|lia].
  - exists p. cbn in Hrun. injection Hrun as Hev. rewrite <- Hev, E. done.
Qed.

(** a pending field, submitted by csv_fini from [p1] *)
Lemma fini_submit cbs p (Hblk : 0 <= blk_size p < 2 ^ 64) p1 w :
  alloc_ok p1 -> same_setup p p1 -> (quoted p1 = false -> 0 <= spaces p1 <= entry_pos p1) ->
  w = (if quoted p1 then content p1 else cut (spaces p1) (content p1)) ->
  exists p', (let! '(p, evs) :=
      (let! '(p, e1) := SUBMIT_FIELD cbs p1 in let '(p, e2) := SUBMIT_ROW cbs p (-1) in Ok (p, e1 ++ e2)) in
    Ok (true, set_pstate ROW_NOT_BEGUN (set_spaces 0 (set_quoted false (set_pos 0 (set_status 0 p)))), evs)) =
    Ok (true, p', a_submit (conf_of cbs p) (quoted p1) w ++ a_row (conf_of cbs p) (-1)) /\
    parser_ok p' /\ view p' = a_start /\ csv_error p' = CSV_SUCCESS.
Proof.
  intros Ha1 Hs1 Hsp1 ->.
  destruct (SUBMIT_FIELD_spec cbs p1 Ha1 Hsp1) as (p2 & E & Hs2 & Ha2 & _ & _). rewrite E. cbn [rbind SUBMIT_ROW].
  rewrite (conf_same cbs p p1 Hs1). eexists. split; [done|].
  assert (Hc0 : forall b : option (list Z), match b with Some b => take (Z.to_nat 0) b | None => [] end = ([] : list Z))
    by by intros [].
  split_and!; [|unfold view, content, a_start; cbn -[Z.to_nat]; by rewrite Hc0|done].
  split.
  - left. destruct Ha2 as [B1 B2 B3]. split; [exact B1|exact B2|]. cbn. unfold cap in *. cbn.
    change (opt _ CSV_APPEND_NULL) with (opt p2 CSV_APPEND_NULL). lia.
  - unfold a_ok. cbn -[Z.to_nat]. unfold content. cbn -[Z.to_nat]. by rewrite Hc0.
  - cbn. destruct Hs1 as (_ & _ & _ & _ & _ & Hb1 & _), Hs2 as (_ & _ & _ & _ & _ & -> & _). by rewrite Hb1.
Qed.

(** csv_fini reports the pending field and row. *)
Theorem csv_fini_spec cbs p :
  parser_ok p ->
  (csv_fini cbs p = Ok (false, set_status CSV_EPARSE p, []) /\
     pstate p = FIELD_BEGUN /\ quoted p = true /\ opt p CSV_STRICT = true /\ opt p CSV_STRICT_FINI = true) \/
  (exists p', csv_fini cbs p = Ok (true, p', a_fini (conf_of cbs p) (view p)) /\ parser_ok p' /\
     view p' = a_start /\ csv_error p' = CSV_SUCCESS).
Proof.
  intros Hp. unfold csv_fini.
  destruct (bool_decide (pstate p = FIELD_BEGUN) && quoted p && opt p CSV_STRICT && opt p CSV_STRICT_FINI) eqn:Hf.
  { left. split; [done|]. apply andb_prop in Hf as [Hf H4]. apply andb_prop in Hf as [Hf H3].
    apply andb_prop in Hf as [H1 H2]. by apply bool_decide_eq_true in H1. }
  right. clear Hf. destruct Hp as [Hal Hok Hblk]. unfold a_ok in Hok. cbn in Hok.
  assert (Hsub := fini_submit cbs p Hblk).
  destruct (pstate p) eqn:Est.
  - rewrite Est. cbn [rbind]. destruct Hok as (Hq & Hsp & Hw). eexists. split; [by unfold a_fini; cbn; rewrite Est|].
    assert (Hc0 : content (set_pos 0 p) = []) by (unfold content; cbn -[Z.to_nat]; by destruct (entry_buf p)).
    split_and!; [|unfold view, a_start; f_equal; exact Hc0|done]. split; [|by unfold a_ok; cbn|done].
    destruct Hal as [[A1 A2 A3]|(A1 & A2 & A3 & _)]; [left|by right]. split; [exact A1|exact A2|].
    cbn. unfold cap in *. cbn. change (opt _ CSV_APPEND_NULL) with (opt p CSV_APPEND_NULL). lia.
  - rewrite Est. destruct Hok as (Hq & Hsp & Hw).
    destruct Hal as [Ha|(_ & _ & _ & ?)]; [|congruence].
    destruct (Hsub p [] Ha (same_setup_refl p)) as (p' & E & H).
    { intros _. rewrite Hsp. pose proof (al_pos _ Ha). lia. }
    { rewrite Hq, Hw. unfold cut. by rewrite take_nil. }
    exists p'. split; [|exact H]. rewrite E. unfold a_fini. cbn. rewrite Est, Hq, Hw. unfold cut. by rewrite take_nil.
  - rewrite Est. destruct Hok as [Hsp Hqs]. destruct Hal as [Ha|(_ & _ & _ & ?)]; [|congruence].
    pose proof (content_len p Ha).
    destruct (Hsub p (if quoted p then content p else cut (spaces p) (content p)) Ha (same_setup_refl p))
      as (p' & E & H'); [intros; lia|reflexivity|].
    exists p'. split; [|exact H']. rewrite E. unfold a_fini. cbn. by rewrite Est.
  - cbn [pstate set_pos]. rewrite Est. destruct Hok as [Hq Hsp]. destruct Hal as [Ha|(_ & _ & _ & ?)]; [|congruence].
    pose proof (content_len p Ha). pose proof (al_size _ Ha). pose proof (cap_le p). pose proof (al_pos _ Ha) as Hpos.
    rewrite u64_small by lia.
    destruct (Hsub (set_pos (entry_pos p - (spaces p + 1)) p) (cut (spaces p + 1) (content p))) as (p' & E & H').
    + destruct Ha as [A1 A2 A3]. split; [exact A1|exact A2|]. cbn. unfold cap in *. cbn.
      change (opt _ CSV_APPEND_NULL) with (opt p CSV_APPEND_NULL). lia.
    + done.
    + cbn. congruence.
    + cbn [quoted set_pos]. rewrite Hq. rewrite content_set_pos; [done|done|lia].
    + exists p'. split; [|exact H']. rewrite E. unfold a_fini. cbn. by rewrite Est, Hq.
Qed.

(** ** A concrete parser *)

Definition demo_parser (opts : Z) : csv_parser := csv_set_blk_size 4 (csv_init opts (fun _ _ => true)).

Lemma demo_parser_ok opts : parser_ok (demo_parser opts).
Proof. split; [right; done|done|simpl; lia]. Qed.

Definition both : callbacks := mk_cbs true true.

(** two rows, with commas, quotes and line ends in the fields *)
Definition demo_rows : list (list Z * list (list Z)) := [([97; 44; 34], [[]; [10; 32]]); ([], [])].

Lemma csv_parse_safe_witness :
  exists n p' evs, csv_parse both (demo_parser CSV_STRICT) [34; 97; 34; 98; 10] = Ok (n, p', evs) /\
    parser_ok p' /\ 0 <= n <= 5 /\ (n < 5 -> error_status (csv_error p')).
Proof. apply (csv_parse_safe both (demo_parser CSV_STRICT) [34; 97; 34; 98; 10] (demo_parser_ok _)). Defined.

Lemma csv_parse_refines_witness :
  exists n p' evs ok, csv_parse both (demo_parser 0) [97; 32; 44; 34; 98] = Ok (n, p', evs) /\
    a_run (conf_of both (demo_parser 0)) [97; 32; 44; 34; 98] (view (demo_parser 0)) = (n, view p', evs, ok) /\
    ok = (n =? 5).
Proof.
  apply (csv_parse_refines both (demo_parser 0) [97; 32; 44; 34; 98] (demo_parser_ok _)).
  split_and!; done.
Defined.

(** the parser after a chunk *)
Definition after (p : csv_parser) (s : list Z) : csv_parser :=
  match csv_parse both p s with Ok (_, p', _) => p' | Err _ => p end.

Lemma csv_parse_chunks_witness :
  csv_parse both (demo_parser 0) [97; 44; 34] = Ok (3, after (demo_parser 0) [97; 44; 34], [Field (Some [97]) 1]) /\
  csv_parse both (demo_parser 0) ([97; 44; 34] ++ [98; 34; 10]) =
    Ok (3 + 3, after (after (demo_parser 0) [97; 44; 34]) [98; 34; 10],
        [Field (Some [97]) 1] ++ [Field (Some [98]) 1; Row 10]).
Proof.
  split; [vm_compute; reflexivity|].
  apply (csv_parse_chunks both (demo_parser 0) [97; 44; 34] [98; 34; 10] (after (demo_parser 0) [97; 44; 34])
           [Field (Some [97]) 1] 3 _ [Field (Some [98]) 1; Row 10] (demo_parser_ok 0));
    vm_compute; reflexivity.
Defined.

Lemma csv_write2_spec_witness :
  csv_write2 (Some [0; 0; 0; 0]) 4 [97; 34; 98] CSV_QUOTE = (Some [34; 97; 34; 34], 6) /\
  csv_write2 None 0 [97; 34; 98] CSV_QUOTE = (None, 6).
Proof.
  destruct (csv_write2_spec [0; 0; 0; 0] [97; 34; 98] CSV_QUOTE) as [H1 H2]; [vm_compute; reflexivity|].
  split; [exact H1|exact (H2 0)].
Defined.

Lemma csv_roundtrip_witness :
  exists p', csv_parse both (demo_parser CSV_STRICT)
      (flat_map (csv_row CSV_QUOTE CSV_COMMA CSV_LF) demo_rows) =
    Ok (len (flat_map (csv_row CSV_QUOTE CSV_COMMA CSV_LF) demo_rows), p',
        flat_map (row_events (conf_of both (demo_parser CSV_STRICT)) CSV_LF) demo_rows) /\
    pstate p' = ROW_NOT_BEGUN /\ csv_error p' = 0.
Proof.
  apply (csv_roundtrip both (demo_parser CSV_STRICT) CSV_LF demo_rows (demo_parser_ok _)).
  - reflexivity.
  - split; done.
  - intros row f Hrow Hf. unfold demo_rows in Hrow. rewrite !elem_of_cons in Hrow.
    destruct Hrow as [->|[->|[]%not_elem_of_nil]]; cbn [fst snd] in Hf; rewrite !elem_of_cons in Hf;
      repeat (destruct Hf as [->|Hf]; [vm_compute; reflexivity|]); by apply not_elem_of_nil in Hf.
  - split_and!; [done|done|vm_compute; reflexivity].
Defined.

Lemma csv_fini_spec_witness :
  exists p1 e1 p2, csv_parse both (demo_parser 0) [97; 44; 98; 32] = Ok (4, p1, e1) /\ parser_ok p1 /\
    csv_fini both p1 = Ok (true, p2, [Field (Some [98]) 1; Row (-1)]).
Proof.
  destruct (csv_parse_spec both (demo_parser 0) [97; 44; 98; 32] (demo_parser_ok 0))
    as [(n & p1 & e1 & E & D)|[[E ?]|(st & calls & E & _)]]; [|done|vm_compute in E; congruence].
  assert (Hp : parser_ok p1).
  { split; [left; apply D|apply D|]. destruct (pd_same _ _ _ _ _ _ D) as (_ & _ & _ & _ & _ & -> & _).
    simpl. lia. }
  destruct (csv_fini_spec both p1 Hp) as [(_ & _ & _ & H & _)|(p2 & E2 & _)].
  - exfalso. vm_compute in E. injection E as <- <- <-. discriminate.
  - exists p1, e1, p2. vm_compute in E. injection E as <- <- <-. split_and!; [vm_compute; reflexivity|exact Hp|exact E2].
Defined.
