(* ===== verification/ReaderBase.v ===== *)
(** * Trace readers: the reader structure and lines
      (include/libCacheSim/reader.h, traceReader/include/readerInternal.h and the
       function find_line_ending of traceReader/reader.c)

    A trace is a file mapped in memory, a list of bytes.  The mapping ends with the last
    page of the file, whose bytes after the end of the file read as 0 (mmap); reading
    further is an error.  Pointers into the mapping are offsets.  The log messages are
    left out. *)

From S2P Require Import Prelude.
From S2P Require Import Store.
From S2P Require Import LibCsv.

(** ** enum.h *)

Inductive trace_type_e :=
  | CSV_TRACE | BIN_TRACE | PLAIN_TXT_TRACE | VSCSI_TRACE | TWR_TRACE | UNKNOWN_TRACE.
Inductive obj_id_type_e := OBJ_ID_NUM | OBJ_ID_STR | UNKNOWN_OBJ_ID.

#[export] Instance trace_type_eq_dec : EqDecision trace_type_e.
Proof. solve_decision. Defined.
#[export] Instance obj_id_type_eq_dec : EqDecision obj_id_type_e.
Proof. solve_decision. Defined.

(** const.h *)
Definition MAX_OBJ_ID_LEN : Z := 1024.
Definition MAX_LINE_LEN : Z := 1024 * 8.
Definition PAGE_SIZE : Z := 4096.

(** ** reader.h *)

Record reader_init_param_t := mk_init_params {
  real_time_field : Z;
  obj_id_field : Z;
  obj_size_field : Z;
  op_field : Z;
  ttl_field : Z;
  ip_extra_field1 : Z;
  ip_extra_field2 : Z;
  has_header : bool;
  delimiter : Z;             (* char *)
  binary_fmt : list Z        (* up to the terminating NUL *)
}.

(** csv.h; req_pointer is passed along instead *)
Record csv_params_t := mk_csv_params {
  cp_has_header : bool;
  cp_delim : Z;
  cp_parser : csv_parser;
  current_field_counter : Z;
  already_got_req : bool;
  reader_end : bool
}.

(** binary.h: the position, length and type of one attribute; type 0 when it is absent *)
Record bin_field := mk_bin_field { bf_pos : Z; bf_len : Z; bf_type : Z }.
Definition no_field : bin_field := mk_bin_field 0 0 0.

Record binary_params_t := mk_bin_params {
  bp_obj_id : bin_field;
  bp_op : bin_field;
  bp_real_time : bin_field;
  bp_obj_size : bin_field;
  bp_ttl : bin_field;
  bp_extra1 : bin_field;
  bp_extra2 : bin_field;
  num_of_fields : Z
}.

(** vscsi.h *)
Inductive vscsi_version_e := VSCSI1 | VSCSI2 | UNKNOWN.

(** reader->reader_params *)
Inductive reader_params_t :=
  | NoParams
  | CsvParams (p : csv_params_t)
  | BinParams (p : binary_params_t)
  | VscsiParams (ver : option vscsi_version_e).   (* [None]: still 0 *)

Record reader_t := mk_reader {
  mapped_file : list Z;
  mmap_offset : Z;           (* uint64_t *)
  trace_type : trace_type_e;
  obj_id_type : obj_id_type_e;
  item_size : Z;             (* size_t *)
  n_read_req : Z;
  n_total_req : Z;
  init_params : reader_init_param_t;
  reader_params : reader_params_t;
  cloned : bool
}.

Definition file_size (r : reader_t) : Z := Z.of_nat (length (mapped_file r)).

Definition set_offset (v : Z) (r : reader_t) : reader_t :=
  mk_reader (mapped_file r) v (trace_type r) (obj_id_type r) (item_size r) (n_read_req r)
    (n_total_req r) (init_params r) (reader_params r) (cloned r).
Definition set_item_size (v : Z) (r : reader_t) : reader_t :=
  mk_reader (mapped_file r) (mmap_offset r) (trace_type r) (obj_id_type r) v (n_read_req r)
    (n_total_req r) (init_params r) (reader_params r) (cloned r).
Definition set_trace_type (v : trace_type_e) (r : reader_t) : reader_t :=
  mk_reader (mapped_file r) (mmap_offset r) v (obj_id_type r) (item_size r) (n_read_req r)
    (n_total_req r) (init_params r) (reader_params r) (cloned r).
Definition set_obj_id_type (v : obj_id_type_e) (r : reader_t) : reader_t :=
  mk_reader (mapped_file r) (mmap_offset r) (trace_type r) v (item_size r) (n_read_req r)
    (n_total_req r) (init_params r) (reader_params r) (cloned r).
Definition set_n_read (v : Z) (r : reader_t) : reader_t :=
  mk_reader (mapped_file r) (mmap_offset r) (trace_type r) (obj_id_type r) (item_size r) v
    (n_total_req r) (init_params r) (reader_params r) (cloned r).
Definition set_n_total (v : Z) (r : reader_t) : reader_t :=
  mk_reader (mapped_file r) (mmap_offset r) (trace_type r) (obj_id_type r) (item_size r) (n_read_req r)
    v (init_params r) (reader_params r) (cloned r).
Definition set_params (v : reader_params_t) (r : reader_t) : reader_t :=
  mk_reader (mapped_file r) (mmap_offset r) (trace_type r) (obj_id_type r) (item_size r) (n_read_req r)
    (n_total_req r) (init_params r) v (cloned r).
Definition set_cloned (v : bool) (r : reader_t) : reader_t :=
  mk_reader (mapped_file r) (mmap_offset r) (trace_type r) (obj_id_type r) (item_size r) (n_read_req r)
    (n_total_req r) (init_params r) (reader_params r) v.

(** *** Fields of a request *)

Definition set_req_real_time (v : Z) (r : request) : request :=
  mk_request v (req_obj_id_int r) (req_obj_size r) (req_extra_field1 r) (req_extra_field2 r)
    (req_cache_obj r) (req_hv r) (req_ttl r) (req_op r) (req_valid r).
Definition set_req_obj_id (v : Z) (r : request) : request :=
  mk_request (req_real_time r) v (req_obj_size r) (req_extra_field1 r) (req_extra_field2 r)
    (req_cache_obj r) (req_hv r) (req_ttl r) (req_op r) (req_valid r).
Definition set_req_obj_size (v : Z) (r : request) : request :=
  mk_request (req_real_time r) (req_obj_id_int r) v (req_extra_field1 r) (req_extra_field2 r)
    (req_cache_obj r) (req_hv r) (req_ttl r) (req_op r) (req_valid r).
Definition set_req_op (v : Z) (r : request) : request :=
  mk_request (req_real_time r) (req_obj_id_int r) (req_obj_size r) (req_extra_field1 r) (req_extra_field2 r)
    (req_cache_obj r) (req_hv r) (req_ttl r) v (req_valid r).
Definition set_req_valid (v : bool) (r : request) : request :=
  mk_request (req_real_time r) (req_obj_id_int r) (req_obj_size r) (req_extra_field1 r) (req_extra_field2 r)
    (req_cache_obj r) (req_hv r) (req_ttl r) (req_op r) v.

(** ** The mapping *)

(** the bytes of the mapping from an offset on: the file, then the rest of its last page *)
Definition mapping_from (r : reader_t) (off : Z) : list Z :=
  if off <=? file_size r + PAGE_SIZE
  then drop (Z.to_nat off) (mapped_file r ++ replicate (Z.to_nat ((- file_size r) mod PAGE_SIZE)) 0)
  else [].

(** [n] bytes at an offset *)
Definition read_bytes (r : reader_t) (off n : Z) : result (list Z) :=
  let b := take (Z.to_nat n) (mapping_from r off) in
  if (0 <=? off) && (0 <=? n) && (Z.of_nat (length b) =? n) then Ok b else Err OutOfBounds.

(** memchr on [n] bytes: the index of the first [c] *)
Fixpoint memchr (l : list Z) (c : Z) (n : nat) : result (option Z) :=
  match n with
  | O => Ok None
  | S n =>
      match l with
      | [] => Err OutOfBounds
      | b :: l =>
          if b =? c then Ok (Some 0)
          else let! i := memchr l c n in
               Ok (match i with Some i => Some (i + 1) | None => None end)
      end
  end.

(** ** Lines *)

(** the character after a line end that belongs to it *)
Definition blank (c : Z) : bool := (c =? CSV_CR) || (c =? CSV_LF) || (c =? CSV_TAB) || (c =? CSV_SPACE).

(** the second while loop of find_line_ending and what follows it: [rest] is the file
    after the byte at [le] *)
Fixpoint skip_blank (rest : list Z) (le : Z) : Z * bool :=
  match rest with
  | [] => (le, true)
  | c :: rest => if blank c then skip_blank rest (le + 1) else (le + 1, false)
  end.

(** the first while loop: the offset of the line end and the size it was found in, or the
    end of the file *)
Fixpoint find_line_loop (fuel : nat) (r : reader_t) (size : Z) : result (Z + Z) :=
  match fuel with
  | O => Err OutOfFuel
  | S fuel =>
      let left := u64 (file_size r - mmap_offset r) in
      let size := if size >? left then left else size in
      let here := mapping_from r (mmap_offset r) in
      let! lf := memchr here CSV_LF (Z.to_nat size) in
      let! le := (match lf with Some i => Ok (Some i) | None => memchr here CSV_CR (Z.to_nat size) end) in
      match le with
      | Some i => Ok (inl (mmap_offset r + i))
      | None =>
          if size =? MAX_LINE_LEN then find_line_loop fuel r (u64 (size * 2))
          else Ok (inr size)
      end
  end.

(** two rounds are enough unless the loop does not end at all *)
Definition find_line_fuel : nat := 3.

(** find_line_ending: the end of the file is near, the reader (item_size is set), line_end
    and line_len *)
Definition find_line_ending (r : reader_t) : result (bool * reader_t * Z * Z) :=
  let! found := find_line_loop find_line_fuel r MAX_LINE_LEN in
  match found with
  | inr size => Ok (true, set_item_size size r, file_size r, size)
  | inl le =>
      let line_len := le - mmap_offset r in
      let '(line_end, at_end) :=
        if le <? file_size r then skip_blank (drop (Z.to_nat (le + 1)) (mapped_file r)) le
        else (le + 1, false) in
      Ok (at_end, set_item_size line_len r, line_end, line_len)
  end.

(** a char is signed *)
Definition schar (b : Z) : Z := swrap 8 b.

(** str_to_obj_id on the bytes of the string *)
Definition str_to_obj_id (s : list Z) : Z :=
  fold_left (fun n c => u64 (n * 10 + schar c - 48)) s 0.

(** a C string ends at its first NUL *)
Fixpoint cstr (s : list Z) : list Z :=
  match s with [] => [] | c :: s => if c =? 0 then [] else c :: cstr s end.
