(* ===== verification/BinReader.v ===== *)
(** * Binary traces (traceReader/binary.c, vscsi.c and customizedReader/twrBin.h)

    Integers in a trace are little-endian.  binary_extract writes the attribute it reads
    through an untyped pointer into the request, so a request is also seen as the bytes of
    the C structure (x86-64 layout): writing 8 bytes over a 4-byte field changes the next
    one. *)

From Stdlib Require Import Ascii.
From S2P Require Import Prelude.
From S2P Require Import Store.
From S2P Require Import LibCsv.
From S2P Require Import ReaderBase.

(** ** Little-endian integers *)

Fixpoint le_val (b : list Z) : Z := match b with [] => 0 | x :: b => x + 256 * le_val b end.

Fixpoint le_bytes (n : nat) (v : Z) : list Z :=
  match n with O => [] | S n => v mod 256 :: le_bytes n (v / 256) end.

(** an unsigned integer of [n] bytes at an offset of the mapping *)
Definition load (r : reader_t) (off n : Z) : result Z :=
  let! b := read_bytes r off n in Ok (le_val b).

(** ** The request as bytes *)

(** offsets in request_t *)
Definition off_real_time : Z := 0.
Definition off_obj_id_int : Z := 8.
Definition off_obj_size : Z := 16.
Definition off_extra_field1 : Z := 24.
Definition off_extra_field2 : Z := 32.
Definition off_op : Z := 60.

(** the bytes before the pointer cache_obj, and the bytes after it *)
Definition req_low (q : request) : list Z :=
  le_bytes 8 (req_real_time q) ++ le_bytes 8 (req_obj_id_int q) ++ le_bytes 8 (req_obj_size q) ++
  le_bytes 8 (req_extra_field1 q) ++ le_bytes 8 (req_extra_field2 q).
Definition req_high (q : request) : list Z :=
  le_bytes 8 (req_hv q) ++ le_bytes 4 (req_ttl q) ++ le_bytes 4 (req_op q) ++
  [if req_valid q then 1 else 0] ++ replicate 7 0.

Definition bytes_at (b : list Z) (off n : nat) : Z := le_val (take n (drop off b)).

Definition of_low (b : list Z) (q : request) : request :=
  mk_request (bytes_at b 0 8) (bytes_at b 8 8) (bytes_at b 16 8) (i64 (bytes_at b 24 8))
    (i64 (bytes_at b 32 8)) (req_cache_obj q) (req_hv q) (req_ttl q) (req_op q) (req_valid q).
Definition of_high (b : list Z) (q : request) : request :=
  mk_request (req_real_time q) (req_obj_id_int q) (req_obj_size q) (req_extra_field1 q) (req_extra_field2 q)
    (req_cache_obj q) (bytes_at b 0 8) (i32 (bytes_at b 8 4)) (bytes_at b 12 4)
    (negb (bytes_at b 16 1 =? 0)).

Definition overwrite (b : list Z) (off : nat) (v : list Z) : list Z :=
  take off b ++ v ++ drop (off + length v) b.

(** writing bytes at an offset of the request; a write that reaches the pointer or leaves
    the structure is an error *)
Definition poke (q : request) (off : Z) (v : list Z) : result request :=
  let n := Z.of_nat (length v) in
  if (0 <=? off) && (off + n <=? 40) then Ok (of_low (overwrite (req_low q) (Z.to_nat off) v) q)
  else if (48 <=? off) && (off + n <=? 72) then Ok (of_high (overwrite (req_high q) (Z.to_nat (off - 48)) v) q)
  else Err OutOfBounds.

(** ** binary.c *)

(** the conversion of a float to a double, on their representations *)
Definition f2d (b : Z) : Z :=
  let s := Z.shiftl (Z.shiftr b 31) 63 in
  let e := Z.land (Z.shiftr b 23) 255 in
  let m := Z.land b (2 ^ 23 - 1) in
  if e =? 255 then
    s + Z.shiftl 2047 52 + (if m =? 0 then 0 else Z.lor (Z.shiftl m 29) (2 ^ 51))
  else if e =? 0 then
    (if m =? 0 then s
     else s + Z.shiftl (Z.log2 m + 874) 52 + Z.shiftl (m - 2 ^ Z.log2 m) (52 - Z.log2 m))
  else s + Z.shiftl (e + 896) 52 + Z.shiftl m 29.

Definition ch (c : ascii) : Z := Z.of_N (N_of_ascii c).

Local Open Scope char_scope.

(** strncpy(dst, src, len); dst[len] = 0 *)
Fixpoint strncpy0 (src : list Z) (len : nat) : result (list Z) :=
  match len with
  | O => Ok [0%Z]
  | S len' =>
      match src with
      | [] => Err OutOfBounds
      | c :: src =>
          if (c =? 0)%Z then Ok (replicate (S len) 0%Z)
          else let! rest := strncpy0 src len' in Ok (c :: rest)
      end
  end.

(** binary_extract writes to offset [at_off] of the request *)
Definition binary_extract (r : reader_t) (pos len type : Z) (at_off : Z) (q : request) : result request :=
  let rec := (mmap_offset r + pos)%Z in
  let put v := poke q at_off (le_bytes 8 v) in
  if (type =? ch "h")%Z then let! v := load r rec 2 in put (i16 v)
  else if (type =? ch "H")%Z then let! v := load r rec 2 in put v
  else if (type =? ch "i")%Z || (type =? ch "l")%Z then let! v := load r rec 4 in put (i32 v)
  else if (type =? ch "I")%Z || (type =? ch "L")%Z then let! v := load r rec 4 in put v
  else if (type =? ch "q")%Z || (type =? ch "Q")%Z then let! v := load r rec 8 in put v
  else if (type =? ch "f")%Z then let! v := load r rec 4 in put (f2d v)
  else if (type =? ch "d")%Z then let! v := load r rec 8 in put v
  else if (type =? ch "s")%Z then
    let! b := strncpy0 (mapping_from r rec) (Z.to_nat len) in poke q at_off b
  else Ok q.

Definition is_digit (c : Z) : bool := ((ch "0" <=? c) && (c <=? ch "9"))%Z.
Definition is_alnum (c : Z) : bool :=
  is_digit c || ((ch "a" <=? c) && (c <=? ch "z"))%Z || ((ch "A" <=? c) && (c <=? ch "Z"))%Z.

(** the first loop of binaryReader_setup, which looks for a letter or a digit *)
Fixpoint skip_endian (fmt : list Z) : result (list Z) :=
  match fmt with
  | [] => Err OutOfBounds
  | c :: fmt' => if is_alnum c then Ok fmt else skip_endian fmt'
  end.

(** the digits of a count, an unsigned int *)
Fixpoint read_count (fmt : list Z) (count : Z) : Z * list Z :=
  match fmt with
  | c :: fmt' => if is_digit c then read_count fmt' (u32 (u32 (count * 10) + (c - ch "0"))) else (count, fmt)
  | [] => (count, [])
  end.

(** the switch on the format character: the size of one item, unchanged if the character
    is not recognised *)
Definition fmt_size (c size : Z) : Z :=
  if (c =? ch "b")%Z || (c =? ch "B")%Z || (c =? ch "c")%Z || (c =? ch "?")%Z then 1%Z
  else if (c =? ch "h")%Z || (c =? ch "H")%Z then 2%Z
  else if (c =? ch "i")%Z || (c =? ch "I")%Z || (c =? ch "l")%Z || (c =? ch "L")%Z then 4%Z
  else if (c =? ch "q")%Z || (c =? ch "Q")%Z then 8%Z
  else if (c =? ch "f")%Z then 4%Z
  else if (c =? ch "d")%Z then 8%Z
  else if (c =? ch "s")%Z then 1%Z
  else size.

(** one of the blocks that place an attribute *)
Definition place (want count_sum last_count_sum size item_size len c : Z) (cur : bin_field) : bin_field :=
  if negb (want =? 0)%Z && (bf_len cur =? 0)%Z && (want <=? count_sum)%Z then
    mk_bin_field (i32 (u32 (item_size + u32 (size * u32 (want - last_count_sum - 1))))) len c
  else cur.

(** the loop on the format, at an item *)
Fixpoint fmt_loop (fuel : nat) (ip : reader_init_param_t) (fmt : list Z) (count_sum size : Z)
    (item_size : Z) (oty : obj_id_type_e) (p : binary_params_t)
    : result (Z * Z * obj_id_type_e * binary_params_t) :=
  match fuel with
  | O => Err OutOfFuel
  | S fuel =>
      match fmt with
      | [] => Ok (count_sum, item_size, oty, p)
      | _ =>
          let '(count, fmt) := read_count fmt 0 in
          let count := if (count =? 0)%Z then 1%Z else count in
          let last_count_sum := count_sum in
          let count_sum := i32 (count_sum + count) in
          match fmt with
          | [] => Err OutOfBounds              (* the format ends after a count *)
          | c :: fmt =>
              let size := fmt_size c size in
              let str := (c =? ch "s")%Z in
              let count_sum := if str then i32 (count_sum - count + 1) else count_sum in
              let len1 := if str then count else 1%Z in
              let at_ want len cur := place want count_sum (u32 last_count_sum) size item_size len c cur in
              let oty :=
                if negb (obj_id_field ip =? 0)%Z && (bf_len (bp_obj_id p) =? 0)%Z && (obj_id_field ip <=? count_sum)%Z
                then (if str then OBJ_ID_STR else OBJ_ID_NUM) else oty in
              let p := mk_bin_params
                (at_ (obj_id_field ip) len1 (bp_obj_id p))
                (at_ (op_field ip) len1 (bp_op p))
                (at_ (real_time_field ip) len1 (bp_real_time p))
                (at_ (obj_size_field ip) size (bp_obj_size p))
                (at_ (ttl_field ip) size (bp_ttl p))
                (at_ (ip_extra_field1 ip) size (bp_extra1 p))
                (at_ (ip_extra_field2 ip) size (bp_extra2 p)) (num_of_fields p) in
              fmt_loop fuel ip fmt count_sum size (u64 (item_size + u32 (count * size))) oty p
          end
      end
  end.

Local Close Scope char_scope.

Definition new_bin_params : binary_params_t :=
  mk_bin_params no_field no_field no_field no_field no_field no_field no_field 0.

Definition binaryReader_setup (r : reader_t) : result reader_t :=
  let r := set_item_size 0 (set_trace_type BIN_TRACE r) in
  let ip := init_params r in
  let! fmt := skip_endian (binary_fmt ip) in
  let! '(count_sum, item, oty, p) :=
    fmt_loop (S (length fmt)) ip fmt 0 0 0 (obj_id_type r) new_bin_params in
  if obj_id_field ip =? -1 then Err Aborted
  else if item =? 0 then Err DivByZero
  else
    let p := mk_bin_params (bp_obj_id p) (bp_op p) (bp_real_time p) (bp_obj_size p) (bp_ttl p)
               (bp_extra1 p) (bp_extra2 p) (u32 count_sum) in
    Ok (set_params (BinParams p) (set_obj_id_type oty (set_n_total (file_size r / item) (set_item_size item r)))).

(** one of the conditional calls of binary_extract *)
Definition extract_field (r : reader_t) (f : bin_field) (at_off : Z) (q : request) : result request :=
  if bf_type f =? 0 then Ok q else binary_extract r (bf_pos f) (bf_len f) (bf_type f) at_off q.

(** the boolean is the result being 0 *)
Definition binary_read_one_req (r : reader_t) (q : request) : result (bool * reader_t * request) :=
  if mmap_offset r >=? u64 (n_total_req r * item_size r) then Ok (false, r, set_req_valid false q)
  else
    match reader_params r with
    | BinParams p =>
        let! q := extract_field r (bp_obj_id p) off_obj_id_int q in
        let! q := extract_field r (bp_real_time p) off_real_time q in
        let! q := extract_field r (bp_obj_size p) off_obj_size q in
        let! q := extract_field r (bp_op p) off_op q in
        let! q := extract_field r (bp_extra1 p) off_extra_field1 q in
        let! q := extract_field r (bp_extra2 p) off_extra_field2 q in
        Ok (true, set_offset (u64 (mmap_offset r + item_size r)) r, q)
    | _ => Err BadAccess
    end.

(** ** vscsi.c *)

Definition MAX_TEST : Z := 2.

(** offsets in trace_v1_record_t and trace_v2_record_t, and their sizes *)
Definition sizeof_v1 : Z := 32.
Definition sizeof_v2 : Z := 40.
Definition v1_len : Z := 4.
Definition v1_cmd : Z := 12.
Definition v1_ver : Z := 14.
Definition v1_lbn : Z := 16.
Definition v1_ts : Z := 24.
Definition v2_cmd : Z := 0.
Definition v2_ver : Z := 2.
Definition v2_len : Z := 8.
Definition v2_lbn : Z := 16.
Definition v2_ts : Z := 24.

Definition vscsi_int (v : vscsi_version_e) : Z := match v with VSCSI1 => 1 | VSCSI2 => 2 | UNKNOWN => 3 end.

Definition to_vscsi_version (ver : Z) : Z := Z.shiftr ver 8.

Definition test_version (test_buf : list Z) (version : vscsi_version_e) : bool :=
  forallb (fun v => v =? vscsi_int version) test_buf.

(** the versions in the first MAX_TEST records, if these have the given size *)
Definition version_buf (r : reader_t) (size ver_off : Z) : result (list Z) :=
  let! a := load r ver_off 2 in
  let! b := load r (size + ver_off) 2 in
  Ok [to_vscsi_version a; to_vscsi_version b].

Definition test_vscsi_version (r : reader_t) : result vscsi_version_e :=
  let! buf := version_buf r sizeof_v2 v2_ver in
  if test_version buf VSCSI2 then Ok VSCSI2
  else
    let! buf := version_buf r sizeof_v1 v1_ver in
    Ok (if test_version buf VSCSI1 then VSCSI1 else UNKNOWN).

Definition record_size (v : vscsi_version_e) : Z :=
  match v with VSCSI1 => sizeof_v1 | VSCSI2 => sizeof_v2 | UNKNOWN => SIZE_MAX end.

(** the boolean is the result being 0 *)
Definition vscsi_setup (r : reader_t) : result (bool * reader_t) :=
  let r := set_params (VscsiParams None) r in
  if file_size r <? sizeof_v2 * MAX_TEST then Ok (false, r)
  else
    let r := set_obj_id_type OBJ_ID_NUM r in
    let! ver := test_vscsi_version r in
    match ver with
    | UNKNOWN => Ok (false, r)
    | _ =>
        let r := set_params (VscsiParams (Some ver)) (set_item_size (record_size ver) r) in
        Ok (true, set_n_total (file_size r / item_size r) r)
    end.

(** vscsi_read_ver1 and vscsi_read_ver2, which differ in the offsets *)
Definition vscsi_read_ver (len_off cmd_off lbn_off ts_off : Z) (r : reader_t) (c : request)
    : result (bool * reader_t * request) :=
  let rec := mmap_offset r in
  let! ts := load r (rec + ts_off) 8 in
  let! len := load r (rec + len_off) 4 in
  let! cmd := load r (rec + cmd_off) 2 in
  let! lbn := load r (rec + lbn_off) 8 in
  Ok (true, set_offset (u64 (rec + item_size r)) r,
      set_req_obj_id lbn (set_req_op cmd (set_req_obj_size len (set_req_real_time (ts / 1000000) c)))).

Definition vscsi_read_ver1 := vscsi_read_ver v1_len v1_cmd v1_lbn v1_ts.
Definition vscsi_read_ver2 := vscsi_read_ver v2_len v2_cmd v2_lbn v2_ts.

Definition vscsi_read_one_req (r : reader_t) (c : request) : result (bool * reader_t * request) :=
  if mmap_offset r >=? u64 (n_total_req r * item_size r) then Ok (false, r, set_req_valid false c)
  else
    match reader_params r with
    | VscsiParams (Some VSCSI1) => vscsi_read_ver1 r c
    | VscsiParams (Some VSCSI2) => vscsi_read_ver2 r c
    | _ => Err NullDeref
    end.

(** ** twrBin.h *)

Definition twrReader_setup (r : reader_t) : reader_t :=
  let r := set_item_size 20 (set_trace_type TWR_TRACE r) in
  set_n_total (file_size r / item_size r) r.

(** the function calls itself on a record of size 0 *)
Fixpoint twr_read_loop (fuel : nat) (r : reader_t) (q : request) : result (bool * reader_t * request) :=
  match fuel with
  | O => Err OutOfFuel
  | S fuel =>
      if mmap_offset r >=? file_size r then Ok (false, r, set_req_valid false q)
      else
        let rec := mmap_offset r in
        let! real_time := load r rec 4 in
        let! obj_id := load r (rec + 4) 8 in
        let! kv_size := load r (rec + 12) 4 in
        let! op_ttl := load r (rec + 16) 4 in
        let key_size := Z.land (Z.shiftr kv_size 22) (0x400 - 1) in
        let val_size := Z.land kv_size (0x400000 - 1) in
        let op := Z.land (Z.shiftr op_ttl 24) (0x100 - 1) in
        let q := set_req_op op (set_req_obj_size (u32 (key_size + val_size))
                   (set_req_obj_id obj_id (set_req_real_time real_time q))) in
        let r := set_offset (u64 (rec + 20)) r in
        if req_obj_size q =? 0 then twr_read_loop fuel r q else Ok (true, r, q)
  end.

(** a record per 20 bytes at most *)
Definition twr_read_one_req (r : reader_t) (q : request) : result (bool * reader_t * request) :=
  twr_read_loop (S (length (mapped_file r))) r q.
