(* ===== verification/Reader.v ===== *)
(** * Reading a trace (traceReader/reader.c, csv.c and readerUtils.c)

    Opening the file is not modelled: setup_reader is given its bytes.  Two functions of
    libraries are parameters: g_quark_from_string of GLib, and the conversion of the
    result of atof to an integer. *)

From S2P Require Import Prelude.
From S2P Require Import Store.
From S2P Require Import LibCsv.
From S2P Require Import ReaderBase.
From S2P Require Import BinReader.

(** atoll: white space, a sign and digits; glibc saturates *)
Fixpoint digits_val (s : list Z) (n : Z) : Z :=
  match s with
  | c :: s => if is_digit c then digits_val s (n * 10 + (c - 48)) else n
  | [] => n
  end.

Definition clamp64 (x : Z) : Z := Z.max (- 2 ^ 63) (Z.min x (2 ^ 63 - 1)).

Fixpoint skip_white (s : list Z) : list Z :=
  match s with
  | c :: s' => if (c =? 32) || ((9 <=? c) && (c <=? 13)) then skip_white s' else s
  | [] => []
  end.

Definition atoll (s : list Z) : Z :=
  match skip_white s with
  | c :: s => if c =? 45 then clamp64 (- digits_val s 0)
              else if c =? 43 then clamp64 (digits_val s 0)
              else clamp64 (digits_val (c :: s) 0)
  | [] => 0
  end.

Section reader.
  Variable g_quark_from_string : list Z -> Z.
  Variable atof_u64 : list Z -> Z.            (* (uint64_t) atof(s) *)

(** ** csv.c *)

Definition set_field_counter (n : Z) (p : csv_params_t) : csv_params_t :=
  mk_csv_params (cp_has_header p) (cp_delim p) (cp_parser p) n (already_got_req p) (reader_end p).
Definition set_got (b : bool) (p : csv_params_t) : csv_params_t :=
  mk_csv_params (cp_has_header p) (cp_delim p) (cp_parser p) (current_field_counter p) b (reader_end p).
Definition set_reader_end (b : bool) (p : csv_params_t) : csv_params_t :=
  mk_csv_params (cp_has_header p) (cp_delim p) (cp_parser p) (current_field_counter p) (already_got_req p) b.
Definition set_cp_parser (c : csv_parser) (p : csv_params_t) : csv_params_t :=
  mk_csv_params (cp_has_header p) (cp_delim p) c (current_field_counter p) (already_got_req p) (reader_end p).

(** csv_cb1: the end of a field, whose bytes are [s]; the parser stores a NUL after them *)
Definition csv_cb1 (oty : obj_id_type_e) (ip : reader_init_param_t) (s : list Z)
    (params : csv_params_t) (req : request) : result (csv_params_t * request) :=
  let counter := current_field_counter params in
  let! '(params, req) :=
    (if counter =? obj_id_field ip then
       match oty with
       | OBJ_ID_NUM => Ok (set_got true params, set_req_obj_id (str_to_obj_id s) req)
       | _ =>
           if Z.of_nat (length s) >=? MAX_OBJ_ID_LEN then Err Aborted
           else Ok (set_got true params, set_req_obj_id (g_quark_from_string (cstr s)) req)
       end
     else if counter =? real_time_field ip then
       let ts := atof_u64 (cstr s) in
       let! _ := cassert (ts <? UINT32_MAX) in
       Ok (params, set_req_real_time ts req)
     else if counter =? op_field ip then Ok (params, req)
     else if counter =? obj_size_field ip then Ok (params, set_req_obj_size (u64 (atoll (cstr s))) req)
     else Ok (params, req)) in
  Ok (set_field_counter (i32 (counter + 1)) params, req).

(** csv_cb2: the end of a row *)
Definition csv_cb2 (params : csv_params_t) : csv_params_t := set_field_counter 1 params.

(** the calls of the callbacks during a call of the parser *)
Definition csv_event (oty : obj_id_type_e) (ip : reader_init_param_t) (st : csv_params_t * request)
    (e : event) : result (csv_params_t * request) :=
  let '(params, req) := st in
  match e with
  | Field (Some s) _ => csv_cb1 oty ip s params req
  | Field None _ => Err NullDeref
  | Row _ => Ok (csv_cb2 params, req)
  end.

Definition csv_callbacks : callbacks := mk_cbs true true.

Definition csv_of (r : reader_t) : result csv_params_t :=
  match reader_params r with CsvParams p => Ok p | _ => Err BadAccess end.

(** realloc never fails *)
Definition new_csv_parser : csv_parser := csv_init CSV_APPEND_NULL (fun _ _ => true).

Definition csv_setup_reader (r : reader_t) : result reader_t :=
  let ip := init_params r in
  let parser := if negb (delimiter ip =? 0) then csv_set_delim (delimiter ip) new_csv_parser else new_csv_parser in
  let delim := if negb (delimiter ip =? 0) then u8 (delimiter ip) else 0 in
  if has_header ip then
    let! '(_, r, line_end, _) := find_line_ending r in
    Ok (set_params (CsvParams (mk_csv_params true delim parser 1 false false)) (set_offset line_end r))
  else Ok (set_params (CsvParams (mk_csv_params false delim parser 1 false false)) r).

(** the boolean is the result being 0 *)
Definition csv_read_one_element (r : reader_t) (req : request) : result (bool * reader_t * request) :=
  let! params := csv_of r in
  let params := set_got false params in
  if reader_end params then Ok (false, set_params (CsvParams params) r, set_req_valid false req)
  else
    let! '(at_end, r, line_end, line_len) := find_line_ending r in
    let line_len := line_len + 1 in
    let! text := read_bytes r (mmap_offset r) line_len in
    let! '(_, parser, evs) := csv_parse csv_callbacks (cp_parser params) text in
    let! '(params, req) :=
      rfold (csv_event (obj_id_type r) (init_params r)) evs (set_cp_parser parser params, req) in
    let r := set_offset line_end r in
    let params := if at_end : bool then set_reader_end true params else params in
    let! '(params, req) :=
      (if already_got_req params then Ok (params, req)
       else if reader_end params then
         let! '(_, parser, evs) := csv_fini csv_callbacks (cp_parser params) in
         rfold (csv_event (obj_id_type r) (init_params r)) evs (set_cp_parser parser params, req)
       else Err Aborted) in
    Ok (true, set_params (CsvParams params) r, req).

(** a new parser after csv_free *)
Definition csv_renew (params : csv_params_t) : csv_params_t :=
  set_cp_parser (if negb (cp_delim params =? 0) then csv_set_delim (cp_delim params) new_csv_parser
                 else new_csv_parser) params.

Definition csv_skip_N_elements (r : reader_t) : result reader_t :=
  let! params := csv_of r in
  Ok (set_params (CsvParams (set_reader_end false (csv_renew params))) r).

Definition csv_reset_reader (r : reader_t) : result reader_t :=
  let! params := csv_of r in
  let params := csv_renew params in
  let! r :=
    (if cp_has_header params then
       let! '(_, r, line_end, _) := find_line_ending r in Ok (set_offset line_end r)
     else Ok r) in
  Ok (set_params (CsvParams (set_reader_end false params)) r).

Definition csv_set_no_eof (r : reader_t) : result reader_t :=
  let! params := csv_of r in Ok (set_params (CsvParams (set_reader_end false params)) r).

(** ** reader.c *)

(** setup_reader on the bytes of the file; mmap fails on an empty file *)
Definition setup_reader (file : list Z) (ty : trace_type_e) (oty : obj_id_type_e)
    (ip : reader_init_param_t) : result reader_t :=
  let r := mk_reader file 0 ty oty 0 0 0 ip NoParams false in
  match file with
  | [] => Err Aborted
  | _ =>
      match ty with
      | CSV_TRACE => csv_setup_reader r
      | PLAIN_TXT_TRACE => Ok r
      | VSCSI_TRACE => let! '(_, r) := vscsi_setup r in Ok r
      | BIN_TRACE => binaryReader_setup r
      | TWR_TRACE => Ok (twrReader_setup r)
      | UNKNOWN_TRACE => Err Aborted
      end
  end.

(** the PLAIN_TXT_TRACE case of read_one_req *)
Definition plain_read_one_req (r : reader_t) (req : request) : result (bool * reader_t * request) :=
  if mmap_offset r >=? u64 (file_size r - 1) then Ok (false, r, set_req_valid false req)
  else
    let! '(_, r, line_end, line_len) := find_line_ending r in
    let! req :=
      match obj_id_type r with
      | OBJ_ID_NUM =>
          let! s := read_bytes r (mmap_offset r) line_len in Ok (set_req_obj_id (str_to_obj_id s) req)
      | _ =>
          if line_len >=? MAX_OBJ_ID_LEN then Err Aborted
          else
            let! s := read_bytes r (mmap_offset r) line_len in
            Ok (set_req_obj_id (g_quark_from_string (cstr s)) req)
      end in
    Ok (true, set_offset line_end r, req).

(** the boolean is the result being 0 *)
Definition read_one_req (r : reader_t) (req : request) : result (bool * reader_t * request) :=
  let r := set_n_read (u64 (n_read_req r + 1)) r in
  let req := set_req_valid true (set_req_hv 0 req) in
  match trace_type r with
  | CSV_TRACE => csv_read_one_element r req
  | PLAIN_TXT_TRACE => plain_read_one_req r req
  | VSCSI_TRACE => vscsi_read_one_req r req
  | BIN_TRACE => binary_read_one_req r req
  | TWR_TRACE => twr_read_one_req r req
  | UNKNOWN_TRACE => Err Aborted
  end.

(** *** Going back *)

Definition line_end_char (c : Z) : bool := (c =? CSV_LF) || (c =? CSV_CR).

(** the while loop over the line ends before [cp]; [None] is the return of 1 *)
Fixpoint back_over_ends (fuel : nat) (r : reader_t) (cp : Z) : result (option Z) :=
  match fuel with
  | O => Err OutOfFuel
  | S fuel =>
      let! c := read_bytes r cp 1 in
      if existsb line_end_char c then
        if cp - 1 <? 0 then Ok None else back_over_ends fuel r (cp - 1)
      else Ok (Some cp)
  end.

(** the while loop to the start of the line *)
Fixpoint back_to_start (fuel : nat) (r : reader_t) (cp : Z) : result Z :=
  match fuel with
  | O => Err OutOfFuel
  | S fuel =>
      if cp >? 0 then
        let! c := read_bytes r cp 1 in
        if existsb line_end_char c then Ok cp else back_to_start fuel r (cp - 1)
      else Ok cp
  end.

Definition back_fuel (r : reader_t) : nat := S (Z.to_nat (mmap_offset r)).

(** the boolean is the result being 0 *)
Definition go_back_one_line (r : reader_t) : result (bool * reader_t) :=
  match trace_type r with
  | CSV_TRACE | PLAIN_TXT_TRACE =>
      if mmap_offset r =? 0 then Ok (false, r)
      else
        let! cp :=
          (if negb (item_size r =? 0) then Ok (Some (mmap_offset r - (item_size r + 1)))
           else back_over_ends (back_fuel r) r (mmap_offset r - 1)) in
        match cp with
        | None => Ok (false, r)
        | Some cp =>
            let! cp := back_to_start (back_fuel r) r cp in
            let cp := if cp =? 0 then cp else cp + 1 in
            if cp <? 0 then Err Aborted else Ok (true, set_offset cp r)
        end
  | BIN_TRACE | TWR_TRACE | VSCSI_TRACE =>
      if mmap_offset r >=? item_size r then Ok (true, set_offset (mmap_offset r - item_size r) r)
      else Ok (false, r)
  | UNKNOWN_TRACE => Err Aborted
  end.

Definition go_back_two_lines (r : reader_t) : result (bool * reader_t) :=
  match trace_type r with
  | CSV_TRACE | PLAIN_TXT_TRACE =>
      let! '(ok, r) := go_back_one_line r in
      if ok : bool then go_back_one_line (set_item_size 0 r) else Ok (false, r)
  | BIN_TRACE | TWR_TRACE | VSCSI_TRACE =>
      if mmap_offset r >=? u64 (item_size r * 2)
      then Ok (true, set_offset (mmap_offset r - u64 (item_size r * 2)) r)
      else Ok (false, r)
  | UNKNOWN_TRACE => Err Aborted
  end.

Definition read_one_req_above (r : reader_t) (c : request) : result (bool * reader_t * request) :=
  let! '(ok, r) := go_back_two_lines r in
  if ok : bool then read_one_req r c else Ok (false, r, set_req_valid false c).

(** *** Skipping and counting *)

(** the for loop of skip_n_req, at iteration [i] of [n] left *)
Fixpoint skip_lines (n : nat) (i : Z) (r : reader_t) : result (option Z * reader_t) :=
  match n with
  | O => Ok (None, r)
  | S n =>
      let! '(at_end, r, line_end, _) := find_line_ending r in
      let r := set_offset line_end r in
      if at_end : bool then
        let! r :=
          match trace_type r, reader_params r with
          | CSV_TRACE, CsvParams p => Ok (set_params (CsvParams (set_reader_end true p)) r)
          | CSV_TRACE, _ => Err BadAccess
          | _, _ => Ok r
          end in
        Ok (Some (i + 1), r)
      else skip_lines n (i + 1) r
  end.

Definition skip_n_req (r : reader_t) (N : Z) : result (Z * reader_t) :=
  let text (r : reader_t) :=
    (let! '(count, r) := skip_lines (Z.to_nat N) 0 r in
     Ok (match count with Some c => c | None => N end, r)) in
  match trace_type r with
  | CSV_TRACE => let! r := csv_skip_N_elements r in text r
  | PLAIN_TXT_TRACE => text r
  | TWR_TRACE | BIN_TRACE | VSCSI_TRACE =>
      if u64 (mmap_offset r + u64 (N * item_size r)) <=? file_size r
      then Ok (N, set_offset (u64 (mmap_offset r + u64 (N * item_size r))) r)
      else if item_size r =? 0 then Err DivByZero
      else Ok (u64 (file_size r - mmap_offset r) / item_size r, set_offset (file_size r) r)
  | UNKNOWN_TRACE => Err Aborted
  end.

Definition reset_reader (r : reader_t) : result reader_t :=
  let r := set_offset 0 r in
  match trace_type r with
  | CSV_TRACE => csv_reset_reader r
  | UNKNOWN_TRACE => Err Aborted
  | _ => Ok r
  end.

(** the while loop of get_num_of_req *)
Fixpoint count_lines (fuel : nat) (r : reader_t) (n_req : Z) : result (Z * reader_t) :=
  match fuel with
  | O => Err OutOfFuel
  | S fuel =>
      let! '(at_end, r, line_end, _) := find_line_ending r in
      if at_end : bool then Ok (n_req, r)
      else count_lines fuel (set_offset line_end r) (n_req + 1)
  end.

Definition get_num_of_req (r : reader_t) : result (Z * reader_t) :=
  if n_total_req r >? 0 then Ok (n_total_req r, r)
  else
    let old_offset := mmap_offset r in
    let r := set_offset 0 r in
    match trace_type r with
    | CSV_TRACE | PLAIN_TXT_TRACE =>
        let! '(n, r) := count_lines (S (length (mapped_file r))) r 0 in
        let n := n + 1 in
        let! n :=
          match trace_type r with
          | CSV_TRACE => let! p := csv_of r in Ok (if cp_has_header p then n - 1 else n)
          | _ => Ok n
          end in
        Ok (u64 n, set_offset old_offset (set_n_total (u64 n) r))
    | TWR_TRACE | BIN_TRACE | VSCSI_TRACE => Ok (n_total_req r, r)    (* the offset is not restored *)
    | UNKNOWN_TRACE => Err Aborted
    end.

Definition clone_reader (r : reader_t) : result reader_t :=
  let! c := setup_reader (mapped_file r) (trace_type r) (obj_id_type r) (init_params r) in
  Ok (set_cloned true (set_n_total (n_total_req r) c)).

Definition set_no_eof (r : reader_t) : result reader_t :=
  match trace_type r with
  | CSV_TRACE => csv_set_no_eof r
  | UNKNOWN_TRACE => Err Aborted
  | _ => Ok r
  end.

(** ** readerUtils.c *)

Definition read_first_req (r : reader_t) (req : request) : result (reader_t * request) :=
  let! r := reset_reader r in
  let! '(_, r, req) := read_one_req r req in
  let! r := reset_reader r in
  Ok (r, req).

(** the while loop of read_last_req *)
Fixpoint last_loop (fuel : nat) (r : reader_t) (req temp_req : request) : result (reader_t * request) :=
  match fuel with
  | O => Err OutOfFuel
  | S fuel =>
      if req_valid req then
        let req := copy_request req temp_req in
        let! '(_, r, temp_req) := read_one_req r temp_req in
        last_loop fuel r req temp_req
      else Ok (r, req)
  end.

Definition read_last_req (r : reader_t) (req : request) : result (reader_t * request) :=
  let temp_req := new_request in
  let! r := reset_reader r in
  let r := set_offset (u64 (file_size r - item_size r)) r in
  let! r :=
    match trace_type r with
    | CSV_TRACE | PLAIN_TXT_TRACE =>
        let r := set_offset (u64 (mmap_offset r - MAX_LINE_LEN * 2)) r in
        let! '(_, r, line_end, _) := find_line_ending r in
        Ok (set_offset line_end r)
    | _ => Ok r
    end in
  let! '(_, r, temp_req) := read_one_req r temp_req in
  let! '(r, req) := last_loop (S (S (S (length (mapped_file r))))) r req temp_req in
  let! r := reset_reader r in
  Ok (r, set_req_valid true req).

(** Reading everything, as the simulators do: [read_one_req] until the request is not valid *)
Fixpoint read_all (fuel : nat) (r : reader_t) (req : request) : result (list request * reader_t) :=
  match fuel with
  | O => Err OutOfFuel
  | S fuel =>
      let! '(_, r, req) := read_one_req r req in
      if req_valid req then
        let! '(reqs, r) := read_all fuel r req in Ok (req :: reqs, r)
      else Ok ([], r)
  end.

End reader.
