(* ===== verification/BinReaderSpec.v ===== *)
(** * Correctness of the binary trace readers *)

From Stdlib Require Import Ascii.
From S2P Require Import Prelude.
From S2P Require Import Store.
From S2P Require Import LibCsv.
From S2P Require Import ReaderBase.
From S2P Require Import BinReader.
From S2P Require Import Reader.

Abbreviation len l := (Z.of_nat (length l)).

(** ** Bytes *)

Lemma length_le_bytes n v : length (le_bytes n v) = n.
Proof. revert v; induction n as [|n IH]; intros v; simpl; [done|by rewrite IH]. Qed.

Lemma le_val_le_bytes n : forall v, le_val (le_bytes n v) = v mod 2 ^ (8 * Z.of_nat n).
Proof.
  induction n as [|n IH]; intros v; cbn [le_bytes le_val].
  - change (2 ^ (8 * Z.of_nat 0)) with 1. by rewrite Z.mod_1_r.
  - rewrite IH. replace (8 * Z.of_nat (S n)) with (8 + 8 * Z.of_nat n) by lia.
    rewrite Z.pow_add_r by lia. change (2 ^ 8) with 256.
    rewrite Z.rem_mul_r by lia. lia.
Qed.

Lemma le_val_small n v : 0 <= v < 2 ^ (8 * Z.of_nat n) -> le_val (le_bytes n v) = v.
Proof. intros. by rewrite le_val_le_bytes, Z.mod_small. Qed.

Lemma mapping_from_app r pre rest :
  mapped_file r = pre ++ rest ->
  exists pad, mapping_from r (len pre) = rest ++ pad.
Proof.
  intros Hf. unfold mapping_from, file_size. rewrite Hf.
  exists (replicate (Z.to_nat (- len (pre ++ rest) mod PAGE_SIZE)) 0).
  rewrite length_app. unfold PAGE_SIZE. case_bool; [|lia].
  rewrite Nat2Z.id, <- app_assoc. by rewrite drop_app_length.
Qed.

Lemma read_bytes_app r pre b rest off n :
  mapped_file r = pre ++ b ++ rest -> off = len pre -> n = len b -> read_bytes r off n = Ok b.
Proof.
  intros Hf -> ->. destruct (mapping_from_app r pre (b ++ rest) Hf) as [pad Hm].
  unfold read_bytes. rewrite Hm, Nat2Z.id, <- app_assoc, take_app_length.
  by rewrite Z.eqb_refl, !(proj2 (Z.leb_le 0 _)) by lia.
Qed.

(** an integer stored in the file *)
Lemma load_le r pre k v rest off n :
  mapped_file r = pre ++ le_bytes k v ++ rest -> off = len pre -> n = Z.of_nat k ->
  0 <= v < 2 ^ (8 * n) -> load r off n = Ok v.
Proof.
  intros Hf Ho -> Hv. unfold load.
  rewrite (read_bytes_app r pre (le_bytes k v) rest) by (done || by rewrite length_le_bytes).
  cbn [rbind]. by rewrite le_val_small.
Qed.

(** ** twrBin.h *)

Record twr_record := mk_twr {
  tw_time : Z; tw_id : Z; tw_key_size : Z; tw_val_size : Z; tw_op : Z; tw_ttl : Z
}.

Definition twr_ok (t : twr_record) : Prop :=
  0 <= tw_time t < 2 ^ 32 /\ 0 <= tw_id t < 2 ^ 64 /\ 0 <= tw_key_size t < 2 ^ 10 /\
  0 <= tw_val_size t < 2 ^ 22 /\ 0 <= tw_op t < 2 ^ 8 /\ 0 <= tw_ttl t < 2 ^ 24.

(** the 20 bytes of a record *)
Definition twr_bytes (t : twr_record) : list Z :=
  le_bytes 4 (tw_time t) ++ le_bytes 8 (tw_id t) ++
  le_bytes 4 (tw_key_size t * 2 ^ 22 + tw_val_size t) ++ le_bytes 4 (tw_op t * 2 ^ 24 + tw_ttl t).

(** the request of a record *)
Definition twr_request (q : request) (t : twr_record) : request :=
  mk_request (tw_time t) (tw_id t) (tw_key_size t + tw_val_size t) (req_extra_field1 q)
    (req_extra_field2 q) (req_cache_obj q) 0 (req_ttl q) (tw_op t) true.

(** requests of size 0 are skipped *)
Definition twr_keep (t : twr_record) : bool := negb (tw_key_size t + tw_val_size t =? 0).

Lemma shift_land hi lo k m : 0 <= hi < 2 ^ m -> 0 <= lo < 2 ^ k -> 0 <= k -> 0 <= m ->
  Z.land (Z.shiftr (hi * 2 ^ k + lo) k) (2 ^ m - 1) = hi /\ Z.land (hi * 2 ^ k + lo) (2 ^ k - 1) = lo.
Proof.
  intros Hh Hl Hk Hm. replace (2 ^ m - 1) with (Z.ones m) by (rewrite Z.ones_equiv; lia).
  replace (2 ^ k - 1) with (Z.ones k) by (rewrite Z.ones_equiv; lia).
  rewrite !Z.land_ones, Z.shiftr_div_pow2 by done. split.
  - rewrite Z.div_add_l by lia. rewrite (Z.div_small lo) by lia. rewrite Z.add_0_r. by apply Z.mod_small.
  - rewrite Z.add_comm, Z_mod_plus_full. by apply Z.mod_small.
Qed.

(** the first record of the rest of the file *)
Lemma twr_read_record fuel r q pre t rest :
  mapped_file r = pre ++ twr_bytes t ++ rest -> mmap_offset r = len pre -> twr_ok t ->
  len (mapped_file r) + 20 < 2 ^ 64 ->
  twr_read_loop (S fuel) r q =
    (let r' := set_offset (len (pre ++ twr_bytes t)) r in
     let q' := set_req_op (tw_op t) (set_req_obj_size (tw_key_size t + tw_val_size t)
                 (set_req_obj_id (tw_id t) (set_req_real_time (tw_time t) q))) in
     if twr_keep t then Ok (true, r', q') else twr_read_loop fuel r' q').
Proof.
  intros Hf Ho (H1 & H2 & H3 & H4 & H5 & H6) Hl. cbn [twr_read_loop].
  pose proof Hf as Hf'. unfold twr_bytes in Hf'. rewrite <- !app_assoc in Hf'.
  assert (Hlen : len (twr_bytes t) = 20) by (unfold twr_bytes; rewrite !length_app, !length_le_bytes; done).
  assert (Hfs : file_size r = len pre + 20 + len rest).
  { unfold file_size. rewrite Hf, !length_app. lia. }
  unfold file_size in *. rewrite Z.geb_leb. destruct (Z.leb_spec (len (mapped_file r)) (mmap_offset r)); [lia|].
  rewrite Ho.
  rewrite (load_le r pre 4 (tw_time t) _ _ _ Hf') by (done || lia). cbn [rbind].
  rewrite (load_le r (pre ++ le_bytes 4 (tw_time t)) 8 (tw_id t)
            (le_bytes 4 (tw_key_size t * 2 ^ 22 + tw_val_size t) ++ le_bytes 4 (tw_op t * 2 ^ 24 + tw_ttl t) ++ rest))
    by (rewrite ?length_app, ?length_le_bytes, <- ?app_assoc; done || lia). cbn [rbind].
  rewrite (load_le r (pre ++ le_bytes 4 (tw_time t) ++ le_bytes 8 (tw_id t)) 4 (tw_key_size t * 2 ^ 22 + tw_val_size t)
            (le_bytes 4 (tw_op t * 2 ^ 24 + tw_ttl t) ++ rest))
    by (rewrite ?length_app, ?length_le_bytes, <- ?app_assoc; done || lia). cbn [rbind].
  rewrite (load_le r (pre ++ le_bytes 4 (tw_time t) ++ le_bytes 8 (tw_id t) ++
             le_bytes 4 (tw_key_size t * 2 ^ 22 + tw_val_size t)) 4 (tw_op t * 2 ^ 24 + tw_ttl t) rest)
    by (rewrite ?length_app, ?length_le_bytes, <- ?app_assoc; done || lia). cbn [rbind].
  change (1024 - 1) with (2 ^ 10 - 1). change (4194304 - 1) with (2 ^ 22 - 1).
  change (256 - 1) with (2 ^ 8 - 1).
  destruct (shift_land (tw_key_size t) (tw_val_size t) 22 10) as [-> ->]; [lia..|].
  destruct (shift_land (tw_op t) (tw_ttl t) 24 8) as [-> _]; [lia..|].
  rewrite u32_small by lia. rewrite u64_small by lia.
  replace (len pre + 20) with (len (pre ++ twr_bytes t)) by (rewrite length_app; lia).
  cbn [req_obj_size set_req_op set_req_obj_size]. unfold twr_keep.
  by destruct (tw_key_size t + tw_val_size t =? 0).
Qed.

(** the record that is returned, and what follows it *)
Fixpoint next_kept (ts : list twr_record) : option (twr_record * list twr_record) :=
  match ts with
  | [] => None
  | t :: ts => if twr_keep t then Some (t, ts) else next_kept ts
  end.

Definition twr_fill (t : twr_record) (q : request) : request :=
  set_req_op (tw_op t) (set_req_obj_size (tw_key_size t + tw_val_size t)
    (set_req_obj_id (tw_id t) (set_req_real_time (tw_time t) q))).

Lemma twr_loop_spec ts : forall fuel r q pre,
  mapped_file r = pre ++ flat_map twr_bytes ts -> mmap_offset r = len pre -> Forall twr_ok ts ->
  len (mapped_file r) + 20 < 2 ^ 64 -> (length ts < fuel)%nat ->
  match next_kept ts with
  | Some (t, ts') => exists pre', twr_read_loop fuel r q = Ok (true, set_offset (len pre') r, twr_fill t q) /\
      mapped_file r = pre' ++ flat_map twr_bytes ts' /\ (length ts' < length ts)%nat /\ Forall twr_ok ts'
  | None => exists r' q', twr_read_loop fuel r q = Ok (false, r', set_req_valid false q')
  end.
Proof.
  induction ts as [|t ts IH]; intros fuel r q pre Hf Ho Hok Hl Hfuel;
    (destruct fuel as [|fuel]; [simpl in Hfuel; lia|]); cbn [next_kept].
  - cbn [twr_read_loop]. cbn [flat_map] in Hf. rewrite app_nil_r in Hf. unfold file_size.
    rewrite Hf, Ho, Z.geb_leb, Z.leb_refl. eauto.
  - apply Forall_cons in Hok as [Ht Hts]. cbn [flat_map] in Hf.
    rewrite (twr_read_record fuel r q pre t (flat_map twr_bytes ts)) by done. cbv zeta.
    destruct (twr_keep t).
    + exists (pre ++ twr_bytes t). split_and!; [done|by rewrite <- app_assoc|simpl; lia|done].
    + fold (twr_fill t q).
      specialize (IH fuel (set_offset (len (pre ++ twr_bytes t)) r) (twr_fill t q) (pre ++ twr_bytes t)).
      destruct (next_kept ts) as [[t' ts']|].
      * destruct IH as (pre' & E & Hf' & Hlt & Hok'); [by rewrite <- app_assoc|done|done|done|simpl in Hfuel; lia|].
        exists pre'. split_and!; [exact E|exact Hf'|simpl; lia|done].
      * apply IH; [by rewrite <- app_assoc|done|done|done|simpl in Hfuel; lia].
Qed.

Lemma filter_next_kept ts :
  List.filter twr_keep ts = match next_kept ts with Some (t, ts') => t :: List.filter twr_keep ts' | None => [] end.
Proof.
  induction ts as [|t ts IH]; [done|]. cbn [List.filter next_kept]. destruct (twr_keep t); done.
Qed.

Section reads.
  Variable g_quark_from_string atof_u64 : list Z -> Z.
  #[local] Set Default Proof Using "All".

Lemma twr_read_all_from n : forall ts r q pre,
  (length ts <= n)%nat -> trace_type r = TWR_TRACE ->
  mapped_file r = pre ++ flat_map twr_bytes ts -> mmap_offset r = len pre -> Forall twr_ok ts ->
  len (mapped_file r) + 20 < 2 ^ 64 ->
  exists r', read_all g_quark_from_string atof_u64 (S n) r q = Ok (twr_request q <$> List.filter twr_keep ts, r').
Proof.
  induction n as [|n IH]; intros ts r q pre Hn Hty Hf Ho Hok Hl.
  - destruct ts; [|simpl in Hn; lia]. cbn [read_all]. unfold read_one_req. cbn [trace_type set_n_read]. rewrite Hty.
    unfold twr_read_one_req. cbn [twr_read_loop]. unfold file_size. cbn [mapped_file set_n_read mmap_offset].
    cbn [flat_map] in Hf. rewrite app_nil_r in Hf. rewrite Hf, Ho, Z.geb_leb, Z.leb_refl. cbn. eauto.
  - remember (S n) as m. cbn [read_all]. unfold read_one_req. cbn [trace_type set_n_read]. rewrite Hty.
    unfold twr_read_one_req. set (r1 := set_n_read _ r). set (q1 := set_req_valid true (set_req_hv 0 q)).
    rewrite filter_next_kept.
    assert (Hfuel : (length ts < S (length (mapped_file r1)))%nat).
    { cbn [r1 set_n_read mapped_file]. rewrite Hf, length_app.
      assert (length ts <= length (flat_map twr_bytes ts))%nat; [|lia].
      clear. induction ts as [|t ts IH]; [done|]. cbn [flat_map length]. rewrite length_app.
      unfold twr_bytes at 1. rewrite !length_app, !length_le_bytes. lia. }
    pose proof (twr_loop_spec ts (S (length (mapped_file r1))) r1 q1 pre Hf Ho Hok Hl Hfuel) as Hloop.
    destruct (next_kept ts) as [[t ts']|].
    + destruct Hloop as (pre' & -> & Hf' & Hlt & Hok'). cbn [rbind]. cbn [req_valid twr_fill set_req_op
        set_req_obj_size set_req_obj_id set_req_real_time q1 set_req_valid].
      subst m. destruct (IH ts' (set_offset (len pre') r1) (twr_fill t q1) pre') as (r' & E); try done; [lia|].
      rewrite E. cbn [rbind]. exists r'. f_equal.
    + destruct Hloop as (r' & q' & ->). cbn. eauto.
Qed.

(** Reading a Twitter trace gives the requests that were stored, except those of size 0. *)
Theorem twr_roundtrip ts oty ip :
  ts <> [] -> Forall twr_ok ts -> 20 * len ts < 2 ^ 63 ->
  exists r r', setup_reader (flat_map twr_bytes ts) TWR_TRACE oty ip = Ok r /\ n_total_req r = len ts /\
    read_all g_quark_from_string atof_u64 (S (length ts)) r new_request =
      Ok (twr_request new_request <$> List.filter twr_keep ts, r').
Proof.
  intros Hne Hok Hl.
  assert (Hlen : len (flat_map twr_bytes ts) = 20 * len ts).
  { clear. induction ts as [|t ts IH]; [done|]. cbn [flat_map length]. rewrite length_app.
    unfold twr_bytes at 1. rewrite !length_app, !length_le_bytes. lia. }
  unfold setup_reader. destruct (flat_map twr_bytes ts) as [|b bs] eqn:Hfile.
  { destruct ts; [done|]. simpl in Hlen. lia. }
  set (r := twrReader_setup _).
  assert (Hf : mapped_file r = [] ++ flat_map twr_bytes ts) by (rewrite Hfile; done).
  destruct (twr_read_all_from (length ts) ts r new_request []) as (r' & E); try done.
  { rewrite Hf. simpl app. rewrite Hfile, Hlen. lia. }
  exists r, r'. split_and!; [done| |exact E].
  unfold r, twrReader_setup. cbn [n_total_req set_n_total file_size mapped_file item_size set_item_size set_trace_type].
  unfold file_size. cbn [mapped_file set_item_size set_trace_type]. rewrite Hlen, Z.mul_comm. by apply Z.div_mul.
Qed.

End reads.

(** ** Traces of records of one size *)

Section records.
  Variable g_quark_from_string atof_u64 : list Z -> Z.
  Context {A : Type} (enc : A -> list Z) (fill : A -> request -> request) (ok : A -> Prop).
  Variable inv : reader_t -> Prop.
  Variable qinv : request -> Prop.
  #[local] Abbreviation read := (read_one_req g_quark_from_string atof_u64).
  Hypothesis inv_offset : forall r o, inv r -> inv (set_offset o r).
  Hypothesis inv_n_read : forall r n, inv r -> inv (set_n_read n r).
  Hypothesis fill_valid : forall a q, req_valid (fill a q) = true.
  Hypothesis fill_qinv : forall a q, ok a -> qinv q -> qinv (fill a q).
  (** [fill] overwrites what earlier requests left *)
  Hypothesis fill_fill : forall a b q, fill a (fill b q) = fill a q.
  Hypothesis read_record : forall r q pre a rest,
    inv r -> qinv q -> mapped_file r = pre ++ enc a ++ rest -> mmap_offset r = len pre -> ok a ->
    len (mapped_file r) < 2 ^ 62 ->
    read r q = Ok (true, set_offset (len (pre ++ enc a)) (set_n_read (u64 (n_read_req r + 1)) r), fill a q).
  Hypothesis read_end : forall r q, inv r -> mmap_offset r = file_size r ->
    exists r' q', read r q = Ok (false, r', q') /\ req_valid q' = false.
  #[local] Set Default Proof Using "All".

Lemma read_all_records recs : forall r q pre,
  inv r -> qinv q -> mapped_file r = pre ++ flat_map enc recs -> mmap_offset r = len pre -> Forall ok recs ->
  len (mapped_file r) < 2 ^ 62 ->
  exists r', read_all g_quark_from_string atof_u64 (S (length recs)) r q = Ok ((fun a => fill a q) <$> recs, r').
Proof.
  induction recs as [|a recs IH]; intros r q pre Hinv Hq Hf Ho Hok Hl.
  - destruct (read_end r q Hinv) as (r' & q' & E & Hv).
    { unfold file_size. rewrite Ho, Hf. by rewrite app_nil_r. }
    cbn [read_all]. rewrite E. cbn [rbind]. rewrite Hv. by exists r'.
  - apply Forall_cons in Hok as [Ha Hok]. remember (length (a :: recs)) as n. cbn [read_all]. cbn [flat_map] in Hf.
    rewrite (read_record r q pre a (flat_map enc recs)) by done. cbn [rbind]. rewrite fill_valid.
    subst n. destruct (IH (set_offset (len (pre ++ enc a)) (set_n_read (u64 (n_read_req r + 1)) r)) (fill a q) (pre ++ enc a))
      as (r' & E); try done;
      [by apply inv_offset, inv_n_read|by apply fill_qinv|cbn; by rewrite Hf, <- app_assoc|].
    cbn [length]. rewrite E. cbn [rbind]. exists r'. f_equal. f_equal. cbn [fmap list_fmap]. f_equal.
    apply list_fmap_ext. intros i b _. apply fill_fill.
Qed.

End records.

(** ** vscsi.c *)

Record vscsi_record := mk_vscsi {
  vs_sn : Z; vs_len : Z; vs_nSG : Z; vs_cmd : Z; vs_ver : Z; vs_lbn : Z; vs_ts : Z; vs_rt : Z
}.

(** the version is in the high byte of ver *)
Definition vscsi_ok (v : Z) (t : vscsi_record) : Prop :=
  0 <= vs_sn t < 2 ^ 32 /\ 0 <= vs_len t < 2 ^ 32 /\ 0 <= vs_nSG t < 2 ^ 32 /\ 0 <= vs_cmd t < 2 ^ 16 /\
  v * 256 <= vs_ver t < (v + 1) * 256 /\ 0 <= vs_lbn t < 2 ^ 64 /\ 0 <= vs_ts t < 2 ^ 64 /\ 0 <= vs_rt t < 2 ^ 64.

Definition v1_bytes (t : vscsi_record) : list Z :=
  le_bytes 4 (vs_sn t) ++ le_bytes 4 (vs_len t) ++ le_bytes 4 (vs_nSG t) ++ le_bytes 2 (vs_cmd t) ++
  le_bytes 2 (vs_ver t) ++ le_bytes 8 (vs_lbn t) ++ le_bytes 8 (vs_ts t).
Definition v2_bytes (t : vscsi_record) : list Z :=
  le_bytes 2 (vs_cmd t) ++ le_bytes 2 (vs_ver t) ++ le_bytes 4 (vs_sn t) ++ le_bytes 4 (vs_len t) ++
  le_bytes 4 (vs_nSG t) ++ le_bytes 8 (vs_lbn t) ++ le_bytes 8 (vs_ts t) ++ le_bytes 8 (vs_rt t).

(** microseconds become seconds *)
Definition vscsi_fill (t : vscsi_record) (q : request) : request :=
  mk_request (vs_ts t / 1000000) (vs_lbn t) (vs_len t) (req_extra_field1 q) (req_extra_field2 q)
    (req_cache_obj q) 0 (req_ttl q) (vs_cmd t) true.

Lemma le_bytes_app n m : forall v, le_bytes (n + m) v = le_bytes n v ++ le_bytes m (v / 2 ^ (8 * Z.of_nat n)).
Proof.
  induction n as [|n IH]; intros v; cbn [Nat.add le_bytes app].
  - change (2 ^ (8 * Z.of_nat 0)) with 1. by rewrite Z.div_1_r.
  - rewrite IH, Z.div_div by lia. do 4 f_equal. replace (8 * Z.of_nat (S n)) with (8 + 8 * Z.of_nat n) by lia.
    by rewrite Z.pow_add_r by lia.
Qed.

(** [load_at front v]: loads the field that holds [v], after [front] in the record *)
Ltac load_at front v :=
  match goal with
  | Hf : mapped_file ?r = ?pre ++ ?b ++ ?rest |- context [load ?r ?off ?n] =>
      erewrite (load_le r (pre ++ front) _ v _ off n);
      [cbn [rbind]
      |rewrite Hf; unfold v1_bytes, v2_bytes; rewrite <- ?app_assoc; reflexivity
      |rewrite ?length_app, ?length_le_bytes; cbn [length]; lia
      |reflexivity|lia]
  end.

Section vscsi.
  Variable g_quark_from_string atof_u64 : list Z -> Z.
  #[local] Set Default Proof Using "All".

Definition vscsi_inv (v : vscsi_version_e) (r : reader_t) : Prop :=
  trace_type r = VSCSI_TRACE /\ reader_params r = VscsiParams (Some v) /\
  item_size r = record_size v /\ n_total_req r * item_size r = file_size r /\ file_size r < 2 ^ 62.

Lemma vscsi_read_record_v2 r q pre t rest :
  vscsi_inv VSCSI2 r -> mapped_file r = pre ++ v2_bytes t ++ rest -> mmap_offset r = len pre -> vscsi_ok 2 t ->
  len (mapped_file r) < 2 ^ 62 ->
  read_one_req g_quark_from_string atof_u64 r q =
    Ok (true, set_offset (len (pre ++ v2_bytes t)) (set_n_read (u64 (n_read_req r + 1)) r), vscsi_fill t q).
Proof.
  intros (Hty & Hp & Hi & Hn & _) Hf Ho (H1 & H2 & H3 & H4 & H5 & H6 & H7 & H8) Hl.
  unfold read_one_req. cbn [trace_type set_n_read]. rewrite Hty. set (r1 := set_n_read _ r).
  assert (Hf1 : mapped_file r1 = pre ++ v2_bytes t ++ rest) by done.
  assert (Hlen : len (v2_bytes t) = 40) by (unfold v2_bytes; by rewrite !length_app, !length_le_bytes).
  assert (Hfs : file_size r = len pre + 40 + len rest) by (unfold file_size; rewrite Hf, !length_app; lia).
  assert (Ho1 : mmap_offset r1 = len pre) by done.
  unfold vscsi_read_one_req. change (n_total_req r1 * item_size r1) with (n_total_req r * item_size r).
  rewrite Hn. unfold file_size in *. rewrite u64_small by lia. rewrite Ho1, Z.geb_leb.
  destruct (Z.leb_spec (len (mapped_file r)) (len pre)); [lia|].
  change (reader_params r1) with (reader_params r). rewrite Hp.
  unfold vscsi_read_ver2, vscsi_read_ver, v2_ts, v2_len, v2_cmd, v2_lbn. rewrite Ho1.
  load_at (le_bytes 2 (vs_cmd t) ++ le_bytes 2 (vs_ver t) ++ le_bytes 4 (vs_sn t) ++ le_bytes 4 (vs_len t) ++
           le_bytes 4 (vs_nSG t) ++ le_bytes 8 (vs_lbn t)) (vs_ts t).
  load_at (le_bytes 2 (vs_cmd t) ++ le_bytes 2 (vs_ver t) ++ le_bytes 4 (vs_sn t)) (vs_len t).
  load_at (@nil Z) (vs_cmd t).
  load_at (le_bytes 2 (vs_cmd t) ++ le_bytes 2 (vs_ver t) ++ le_bytes 4 (vs_sn t) ++ le_bytes 4 (vs_len t) ++
           le_bytes 4 (vs_nSG t)) (vs_lbn t).
  change (item_size r1) with (item_size r). rewrite Hi. cbn [record_size]. unfold sizeof_v2.
  rewrite u64_small by lia. rewrite length_app. do 4 f_equal. lia.
Qed.

Lemma vscsi_read_record_v1 r q pre t rest :
  vscsi_inv VSCSI1 r -> mapped_file r = pre ++ v1_bytes t ++ rest -> mmap_offset r = len pre -> vscsi_ok 1 t ->
  len (mapped_file r) < 2 ^ 62 ->
  read_one_req g_quark_from_string atof_u64 r q =
    Ok (true, set_offset (len (pre ++ v1_bytes t)) (set_n_read (u64 (n_read_req r + 1)) r), vscsi_fill t q).
Proof.
  intros (Hty & Hp & Hi & Hn & _) Hf Ho (H1 & H2 & H3 & H4 & H5 & H6 & H7 & H8) Hl.
  unfold read_one_req. cbn [trace_type set_n_read]. rewrite Hty. set (r1 := set_n_read _ r).
  assert (Hf1 : mapped_file r1 = pre ++ v1_bytes t ++ rest) by done.
  assert (Hlen : len (v1_bytes t) = 32) by (unfold v1_bytes; by rewrite !length_app, !length_le_bytes).
  assert (Hfs : file_size r = len pre + 32 + len rest) by (unfold file_size; rewrite Hf, !length_app; lia).
  assert (Ho1 : mmap_offset r1 = len pre) by done.
  unfold vscsi_read_one_req. change (n_total_req r1 * item_size r1) with (n_total_req r * item_size r).
  rewrite Hn. unfold file_size in *. rewrite u64_small by lia. rewrite Ho1, Z.geb_leb.
  destruct (Z.leb_spec (len (mapped_file r)) (len pre)); [lia|].
  change (reader_params r1) with (reader_params r). rewrite Hp.
  unfold vscsi_read_ver1, vscsi_read_ver, v1_ts, v1_len, v1_cmd, v1_lbn. rewrite Ho1.
  load_at (le_bytes 4 (vs_sn t) ++ le_bytes 4 (vs_len t) ++ le_bytes 4 (vs_nSG t) ++ le_bytes 2 (vs_cmd t) ++
           le_bytes 2 (vs_ver t) ++ le_bytes 8 (vs_lbn t)) (vs_ts t).
  load_at (le_bytes 4 (vs_sn t)) (vs_len t).
  load_at (le_bytes 4 (vs_sn t) ++ le_bytes 4 (vs_len t) ++ le_bytes 4 (vs_nSG t)) (vs_cmd t).
  load_at (le_bytes 4 (vs_sn t) ++ le_bytes 4 (vs_len t) ++ le_bytes 4 (vs_nSG t) ++ le_bytes 2 (vs_cmd t) ++
           le_bytes 2 (vs_ver t)) (vs_lbn t).
  change (item_size r1) with (item_size r). rewrite Hi. cbn [record_size]. unfold sizeof_v1.
  rewrite u64_small by lia. rewrite length_app. do 4 f_equal. lia.
Qed.

Lemma vscsi_read_end v r q : vscsi_inv v r -> mmap_offset r = file_size r ->
  exists r' q', read_one_req g_quark_from_string atof_u64 r q = Ok (false, r', q') /\ req_valid q' = false.
Proof.
  intros (Hty & Hp & Hi & Hn & Hl) Ho. unfold read_one_req. cbn [trace_type set_n_read]. rewrite Hty.
  unfold vscsi_read_one_req.
  change (n_total_req (set_n_read (u64 (n_read_req r + 1)) r) * item_size (set_n_read (u64 (n_read_req r + 1)) r))
    with (n_total_req r * item_size r).
  cbn [mmap_offset set_n_read]. unfold file_size in *. rewrite Hn, u64_small by lia.
  rewrite Ho, Z.geb_leb, Z.leb_refl. eauto.
Qed.

Lemma ver_of v t : vscsi_ok v t -> to_vscsi_version (vs_ver t) = v.
Proof.
  intros (_ & _ & _ & _ & H & _). unfold to_vscsi_version. rewrite Z.shiftr_div_pow2 by lia.
  symmetry. apply (Z.div_unique _ _ _ (vs_ver t - v * 256)); lia.
Qed.

Lemma length_records {A} (enc : A -> list Z) n recs : (forall a, len (enc a) = n) ->
  len (flat_map enc recs) = n * len recs.
Proof.
  intros H. induction recs as [|a recs IH]; [simpl; lia|]. cbn [flat_map length]. rewrite length_app.
  specialize (H a). lia.
Qed.

Lemma v1_len_bytes t : len (v1_bytes t) = 32.
Proof. unfold v1_bytes. by rewrite !length_app, !length_le_bytes. Qed.
Lemma v2_len_bytes t : len (v2_bytes t) = 40.
Proof. unfold v2_bytes. by rewrite !length_app, !length_le_bytes. Qed.

(** the version test on the first two records *)
Lemma test_version_v2 r t1 t2 rest :
  mapped_file r = v2_bytes t1 ++ v2_bytes t2 ++ rest -> vscsi_ok 2 t1 -> vscsi_ok 2 t2 ->
  test_vscsi_version r = Ok VSCSI2.
Proof.
  intros Hf H1 H2. pose proof (ver_of _ _ H1) as E1. pose proof (ver_of _ _ H2) as E2.
  destruct H1 as (_ & _ & _ & _ & H1 & _), H2 as (_ & _ & _ & _ & H2 & _).
  unfold test_vscsi_version, version_buf, sizeof_v2, v2_ver.
  rewrite (load_le r (le_bytes 2 (vs_cmd t1)) 2 (vs_ver t1)
    (le_bytes 4 (vs_sn t1) ++ le_bytes 4 (vs_len t1) ++ le_bytes 4 (vs_nSG t1) ++ le_bytes 8 (vs_lbn t1) ++
     le_bytes 8 (vs_ts t1) ++ le_bytes 8 (vs_rt t1) ++ v2_bytes t2 ++ rest));
    [|rewrite Hf; unfold v2_bytes at 1; by rewrite <- ?app_assoc|by rewrite length_le_bytes|done|lia].
  cbn [rbind].
  rewrite (load_le r (v2_bytes t1 ++ le_bytes 2 (vs_cmd t2)) 2 (vs_ver t2)
    (le_bytes 4 (vs_sn t2) ++ le_bytes 4 (vs_len t2) ++ le_bytes 4 (vs_nSG t2) ++ le_bytes 8 (vs_lbn t2) ++
     le_bytes 8 (vs_ts t2) ++ le_bytes 8 (vs_rt t2) ++ rest));
    [|rewrite Hf; unfold v2_bytes at 2; by rewrite <- ?app_assoc
     |rewrite length_app, length_le_bytes, Nat2Z.inj_add, v2_len_bytes; lia|done|lia].
  cbn [rbind]. unfold test_version. cbn [forallb]. by rewrite E1, E2.
Qed.

Lemma test_version_v1 r t1 t2 rest :
  mapped_file r = v1_bytes t1 ++ v1_bytes t2 ++ rest -> vscsi_ok 1 t1 -> vscsi_ok 1 t2 ->
  vs_sn t1 < 2 ^ 25 -> test_vscsi_version r = Ok VSCSI1.
Proof.
  intros Hf H1 H2 Hsn. pose proof (ver_of _ _ H1) as E1. pose proof (ver_of _ _ H2) as E2.
  destruct H1 as (H0 & _ & _ & _ & H1 & _), H2 as (_ & _ & Hsg & _ & H2 & _).
  unfold test_vscsi_version, version_buf at 1, sizeof_v2, v2_ver.
  assert (Hq1 : 0 <= vs_sn t1 / 65536 < 2 ^ 9).
  { split; [apply Z.div_pos; lia|apply Z.div_lt_upper_bound; lia]. }
  assert (Hq2 : 0 <= vs_nSG t2 / 65536 < 2 ^ 16).
  { split; [apply Z.div_pos; lia|apply Z.div_lt_upper_bound; lia]. }
  rewrite (load_le r (le_bytes 2 (vs_sn t1)) 2 (vs_sn t1 / 65536)
    (le_bytes 4 (vs_len t1) ++ le_bytes 4 (vs_nSG t1) ++ le_bytes 2 (vs_cmd t1) ++
     le_bytes 2 (vs_ver t1) ++ le_bytes 8 (vs_lbn t1) ++ le_bytes 8 (vs_ts t1) ++ v1_bytes t2 ++ rest));
    [|rewrite Hf; unfold v1_bytes at 1; rewrite (le_bytes_app 2 2 (vs_sn t1) : le_bytes 4 (vs_sn t1) = _); by rewrite <- ?app_assoc
     |by rewrite length_le_bytes|done|lia].
  cbn [rbind].
  rewrite (load_le r (v1_bytes t1 ++ le_bytes 4 (vs_sn t2) ++ le_bytes 4 (vs_len t2) ++ le_bytes 2 (vs_nSG t2))
    2 (vs_nSG t2 / 65536)
    (le_bytes 2 (vs_cmd t2) ++ le_bytes 2 (vs_ver t2) ++ le_bytes 8 (vs_lbn t2) ++ le_bytes 8 (vs_ts t2) ++ rest));
    [|rewrite Hf; unfold v1_bytes at 2; rewrite (le_bytes_app 2 2 (vs_nSG t2) : le_bytes 4 (vs_nSG t2) = _); by rewrite <- ?app_assoc
     |rewrite length_app, Nat2Z.inj_add, v1_len_bytes, !length_app, !length_le_bytes; lia|done|lia].
  cbn [rbind]. unfold test_version at 1. cbn [forallb]. unfold to_vscsi_version at 1. rewrite Z.shiftr_div_pow2 by lia.
  assert (Hb : vs_sn t1 / 65536 / 2 ^ 8 < 2) by (apply Z.div_lt_upper_bound; lia).
  destruct (Z.eqb_spec (vs_sn t1 / 65536 / 2 ^ 8) (vscsi_int VSCSI2)) as [E|_]; [simpl vscsi_int in E; lia|].
  cbn [andb]. unfold version_buf, sizeof_v1, v1_ver.
  rewrite (load_le r (le_bytes 4 (vs_sn t1) ++ le_bytes 4 (vs_len t1) ++ le_bytes 4 (vs_nSG t1) ++ le_bytes 2 (vs_cmd t1)) 2 (vs_ver t1)
    (le_bytes 8 (vs_lbn t1) ++ le_bytes 8 (vs_ts t1) ++ v1_bytes t2 ++ rest));
    [|rewrite Hf; unfold v1_bytes at 1; by rewrite <- ?app_assoc|by rewrite !length_app, !length_le_bytes|done|lia].
  cbn [rbind].
  rewrite (load_le r (v1_bytes t1 ++ le_bytes 4 (vs_sn t2) ++ le_bytes 4 (vs_len t2) ++ le_bytes 4 (vs_nSG t2) ++ le_bytes 2 (vs_cmd t2)) 2 (vs_ver t2)
    (le_bytes 8 (vs_lbn t2) ++ le_bytes 8 (vs_ts t2) ++ rest));
    [|rewrite Hf; unfold v1_bytes at 2; by rewrite <- ?app_assoc
     |rewrite length_app, Nat2Z.inj_add, v1_len_bytes, !length_app, !length_le_bytes; lia|done|lia].
  cbn [rbind]. unfold test_version. cbn [forallb]. by rewrite E1, E2.
Qed.

(** a trace of one version *)
Definition vscsi_trace (v : vscsi_version_e) (recs : list vscsi_record) : Prop :=
  match v with
  | VSCSI1 => Forall (vscsi_ok 1) recs /\ 3 <= len recs /\ (forall t, head recs = Some t -> vs_sn t < 2 ^ 25)
  | VSCSI2 => Forall (vscsi_ok 2) recs /\ 2 <= len recs
  | UNKNOWN => False
  end.
Definition vscsi_bytes (v : vscsi_version_e) : vscsi_record -> list Z :=
  match v with VSCSI1 => v1_bytes | _ => v2_bytes end.

(** Reading a VSCSI trace gives the requests that were stored: the version is recognised,
    from at least two records of version 2, or at least three of version 1 the first of
    which has a serial number below 2^25. *)
Theorem vscsi_roundtrip v recs oty ip :
  vscsi_trace v recs -> 40 * len recs < 2 ^ 62 ->
  exists r r', setup_reader (flat_map (vscsi_bytes v) recs) VSCSI_TRACE oty ip = Ok r /\
    n_total_req r = len recs /\
    read_all g_quark_from_string atof_u64 (S (length recs)) r new_request =
      Ok ((fun t => vscsi_fill t new_request) <$> recs, r').
Proof.
  intros Hv Hl.
  assert (Hlen : len (flat_map (vscsi_bytes v) recs) = record_size v * len recs).
  { destruct v; [apply length_records, v1_len_bytes|apply length_records, v2_len_bytes|done]. }
  assert (Htest : forall r, mapped_file r = flat_map (vscsi_bytes v) recs -> test_vscsi_version r = Ok v).
  { intros r Hf. destruct v; [| |done].
    - destruct Hv as (Hok & Hn & Hsn). destruct recs as [|t1 [|t2 recs]]; [simpl in Hn; lia..|].
      apply Forall_cons in Hok as [H1 Hok]. apply Forall_cons in Hok as [H2 _].
      by apply (test_version_v1 r t1 t2 (flat_map v1_bytes recs)); [|..|apply Hsn].
    - destruct Hv as (Hok & Hn). destruct recs as [|t1 [|t2 recs]]; [simpl in Hn; lia..|].
      apply Forall_cons in Hok as [H1 Hok]. apply Forall_cons in Hok as [H2 _].
      by apply (test_version_v2 r t1 t2 (flat_map v2_bytes recs)). }
  assert (Hsz : 80 <= len (flat_map (vscsi_bytes v) recs) < 2 ^ 62 /\ 0 < record_size v).
  { rewrite Hlen. destruct v; [destruct Hv as (_ & Hn & _)|destruct Hv as (_ & Hn)|done];
      cbn [record_size]; unfold sizeof_v1, sizeof_v2; lia. }
  set (file := flat_map (vscsi_bytes v) recs) in *.
  unfold setup_reader. destruct file as [|b bs] eqn:Hfile; [simpl in Hsz; lia|]. rewrite <- Hfile in *.
  set (r0 := mk_reader file 0 VSCSI_TRACE oty 0 0 0 ip NoParams false).
  unfold vscsi_setup. cbn [file_size mapped_file set_params r0]. unfold file_size. cbn [mapped_file set_params r0 set_obj_id_type].
  unfold sizeof_v2 at 1, MAX_TEST. destruct (Z.ltb_spec (len file) (40 * 2)); [lia|].
  rewrite Htest by done. cbn [rbind].
  set (r := set_n_total _ _). 
  assert (Hinv : vscsi_inv v r).
  { assert (Hfs : file_size r = len file) by done.
    assert (Hn : n_total_req r = len file / record_size v) by done.
    assert (Hi : item_size r = record_size v) by done.
    split_and!; try done; [|rewrite Hfs; lia]. rewrite Hfs, Hn, Hi, Hlen.
    rewrite (Z.mul_comm (record_size v)), Z.div_mul by lia. lia. }
  assert (Hread : exists r', read_all g_quark_from_string atof_u64 (S (length recs)) r new_request =
      Ok ((fun t => vscsi_fill t new_request) <$> recs, r')).
  { destruct v; [| |done].
    - apply (read_all_records g_quark_from_string atof_u64 v1_bytes vscsi_fill (vscsi_ok 1) (vscsi_inv VSCSI1) (fun _ => True)) with (pre := []); try done.
      + intros r1 q1 pre1 a rest1 Hi1 _. by apply vscsi_read_record_v1.
      + intros ? ?. apply vscsi_read_end.
      + apply Hv.
      + apply Hsz.
    - apply (read_all_records g_quark_from_string atof_u64 v2_bytes vscsi_fill (vscsi_ok 2) (vscsi_inv VSCSI2) (fun _ => True)) with (pre := []); try done.
      + intros r1 q1 pre1 a rest1 Hi1 _. by apply vscsi_read_record_v2.
      + intros ? ?. apply vscsi_read_end.
      + apply Hv.
      + apply Hsz. }
  destruct Hread as (r' & Hread). exists r, r'.
  destruct v; [| |done]; (split; [done|split; [|exact Hread]]);
    destruct Hinv as (_ & _ & Hi & Hn & _); unfold file_size in Hn; change (mapped_file r) with file in Hn;
    rewrite Hlen, Hi, Z.mul_comm in Hn; apply Z.mul_reg_l in Hn; done || (cbn in *; lia).
Qed.

End vscsi.

(** ** binary.c: the request as bytes *)

Definition req_range (q : request) : Prop :=
  0 <= req_real_time q < 2 ^ 64 /\ 0 <= req_obj_id_int q < 2 ^ 64 /\ 0 <= req_obj_size q < 2 ^ 64 /\
  - 2 ^ 63 <= req_extra_field1 q < 2 ^ 63 /\ - 2 ^ 63 <= req_extra_field2 q < 2 ^ 63.

Lemma i64_le_bytes v : - 2 ^ 63 <= v < 2 ^ 63 -> i64 (le_val (le_bytes 8 v)) = v.
Proof.
  intros Hv. rewrite le_val_le_bytes. change (8 * Z.of_nat 8) with 64. unfold i64, swrap.
  rewrite Zplus_mod_idemp_l. change (64 - 1) with 63. rewrite Z.mod_small by lia. lia.
Qed.

(** writing 8 bytes over a field of 8 bytes *)
Lemma poke_obj_id q v : req_range q -> 0 <= v < 2 ^ 64 ->
  poke q off_obj_id_int (le_bytes 8 v) = Ok (set_req_obj_id v q).
Proof.
  intros (H1 & H2 & H3 & H4 & H5) Hv.
  transitivity (Ok (mk_request (le_val (le_bytes 8 (req_real_time q))) (le_val (le_bytes 8 v))
    (le_val (le_bytes 8 (req_obj_size q))) (i64 (le_val (le_bytes 8 (req_extra_field1 q))))
    (i64 (le_val (le_bytes 8 (req_extra_field2 q)))) (req_cache_obj q) (req_hv q) (req_ttl q) (req_op q) (req_valid q))).
  - reflexivity.
  - rewrite !le_val_small, !i64_le_bytes by (simpl; lia). done.
Qed.

Lemma poke_real_time q v : req_range q -> 0 <= v < 2 ^ 64 ->
  poke q off_real_time (le_bytes 8 v) = Ok (set_req_real_time v q).
Proof.
  intros (H1 & H2 & H3 & H4 & H5) Hv.
  transitivity (Ok (mk_request (le_val (le_bytes 8 v)) (le_val (le_bytes 8 (req_obj_id_int q)))
    (le_val (le_bytes 8 (req_obj_size q))) (i64 (le_val (le_bytes 8 (req_extra_field1 q))))
    (i64 (le_val (le_bytes 8 (req_extra_field2 q)))) (req_cache_obj q) (req_hv q) (req_ttl q) (req_op q) (req_valid q))).
  - reflexivity.
  - rewrite !le_val_small, !i64_le_bytes by (simpl; lia). done.
Qed.

Lemma poke_obj_size q v : req_range q -> 0 <= v < 2 ^ 64 ->
  poke q off_obj_size (le_bytes 8 v) = Ok (set_req_obj_size v q).
Proof.
  intros (H1 & H2 & H3 & H4 & H5) Hv.
  transitivity (Ok (mk_request (le_val (le_bytes 8 (req_real_time q))) (le_val (le_bytes 8 (req_obj_id_int q)))
    (le_val (le_bytes 8 v)) (i64 (le_val (le_bytes 8 (req_extra_field1 q))))
    (i64 (le_val (le_bytes 8 (req_extra_field2 q)))) (req_cache_obj q) (req_hv q) (req_ttl q) (req_op q) (req_valid q))).
  - reflexivity.
  - rewrite !le_val_small, !i64_le_bytes by (simpl; lia). done.
Qed.

(** op has 4 bytes: the other 4 fall on valid *)
Lemma poke_op q v : 0 <= v < 2 ^ 32 ->
  exists q', poke q off_op (le_bytes 8 v) = Ok q' /\ req_op q' = v /\ req_valid q' = false.
Proof.
  intros Hv. eexists. split; [reflexivity|]. split.
  - cbn [of_high req_op]. change (bytes_at _ 12 4) with (le_val (le_bytes 4 v)). rewrite le_val_small; simpl; lia.
  - cbn [of_high req_valid].
    change (bytes_at _ 16 1) with (v / 256 / 256 / 256 / 256 mod 256 + 256 * 0).
    rewrite !Z.div_div by lia. rewrite Z.div_small by lia. done.
Qed.

(** ** binary.c: formats *)

Local Open Scope char_scope.
(** the format characters of fixed size, but for the question mark, which the setup skips
    at the start of a format *)
Definition simple (c : Z) : bool :=
  existsb (Z.eqb c) (ch <$> ["b"; "B"; "c"; "h"; "H"; "i"; "I"; "l"; "L"; "q"; "Q"; "f"; "d"]).
Local Close Scope char_scope.

Definition csize (c : Z) : Z := fmt_size c 0.

(** the bytes before the item of index [n] *)
Definition offset_of (cs : list Z) (n : nat) : Z := foldr (fun c s => csize c + s) 0 (take n cs).

(** where the attribute given by the field number [want] is *)
Definition attr (cs : list Z) (want : Z) (len_of : Z -> Z) : bin_field :=
  match cs !! Z.to_nat (want - 1) with
  | Some c => if 0 <? want then mk_bin_field (offset_of cs (Z.to_nat (want - 1))) (len_of c) c else no_field
  | None => no_field
  end.

Definition one (c : Z) : Z := 1.

Definition params_of (ip : reader_init_param_t) (cs : list Z) (n : Z) : binary_params_t :=
  mk_bin_params (attr cs (obj_id_field ip) one) (attr cs (op_field ip) one) (attr cs (real_time_field ip) one)
    (attr cs (obj_size_field ip) csize) (attr cs (ttl_field ip) csize)
    (attr cs (ip_extra_field1 ip) csize) (attr cs (ip_extra_field2 ip) csize) n.

Lemma simple_cases c : simple c = true ->
  (1 <= csize c <= 8) /\ (forall s, fmt_size c s = csize c) /\ is_digit c = false /\
  (c =? ch "s"%char) = false /\ is_alnum c = true.
Proof.
  unfold simple. cbn [existsb fmap list_fmap]. rewrite !orb_true_iff, !Z.eqb_eq. intros H.
  repeat (destruct H as [->|H]; [vm_compute; split_and!; congruence|]). done.
Qed.

Lemma offset_snoc cs c : forall n, (n <= length cs)%nat -> offset_of (cs ++ [c]) n = offset_of cs n.
Proof. intros n Hn. unfold offset_of. by rewrite take_app_le. Qed.

Lemma offset_bounds cs : Forall (fun c => simple c = true) cs -> forall n, 0 <= offset_of cs n <= 8 * len cs.
Proof.
  intros Hcs n. unfold offset_of. revert n. induction Hcs as [|c cs Hc Hcs IH]; intros [|n]; cbn [take foldr length]; [lia..|].
  destruct (simple_cases c Hc) as (Hs & _). specialize (IH n). lia.
Qed.

Lemma offset_end cs c : offset_of (cs ++ [c]) (S (length cs)) = offset_of cs (length cs) + csize c.
Proof.
  unfold offset_of. rewrite take_ge by (rewrite length_app; simpl; lia). rewrite take_ge by lia.
  induction cs as [|d cs IH]; simpl; [lia|]. rewrite IH. lia.
Qed.

(** placing the attribute when the next character is read *)
Lemma place_attr cs c want (len_of : Z -> Z) :
  (forall d, simple d = true -> 1 <= len_of d) -> Forall (fun c => simple c = true) cs -> simple c = true ->
  0 <= want -> len cs < 2 ^ 20 ->
  place want (len cs + 1) (len cs) (csize c) (offset_of cs (length cs)) (len_of c) c (attr cs want len_of) =
  attr (cs ++ [c]) want len_of.
Proof.
  intros Hlen Hcs Hc Hw Hb. pose proof (offset_bounds cs Hcs (length cs)) as Hoff.
  destruct (simple_cases c Hc) as (Hs & _). unfold place.
  destruct (Z.eqb_spec want 0) as [->|H0]; cbn [negb andb].
  { unfold attr. cbn [Z.ltb Z.compare]. by destruct (cs !! _), ((cs ++ [c]) !! _). }
  destruct (decide (want <= len cs)) as [Hle|Hgt].
  - (* already placed *)
    destruct (lookup_lt_is_Some_2 cs (Z.to_nat (want - 1))) as [d Hd]; [lia|].
    assert (Ha : attr cs want len_of = mk_bin_field (offset_of cs (Z.to_nat (want - 1))) (len_of d) d).
    { unfold attr. rewrite Hd. by destruct (Z.ltb_spec 0 want); [|lia]. }
    rewrite Ha. cbn [bf_len]. rewrite Forall_forall in Hcs.
    pose proof (Hlen d (Hcs d (list_elem_of_lookup_2 _ _ _ Hd))).
    destruct (Z.eqb_spec (len_of d) 0); [lia|]. cbn [andb].
    unfold attr. rewrite lookup_app_l by lia. rewrite Hd. destruct (Z.ltb_spec 0 want); [|lia].
    by rewrite offset_snoc by lia.
  - assert (Ha : attr cs want len_of = no_field) by (unfold attr; by rewrite lookup_ge_None_2 by lia).
    rewrite Ha. cbn [bf_len no_field]. destruct (Z.leb_spec want (len cs + 1)) as [Hl|Hl]; cbn [Z.eqb andb].
    + replace want with (len cs + 1) by lia. replace (len cs + 1 - len cs - 1) with 0 by lia.
      change (u32 0) with 0. rewrite Z.mul_0_r. change (u32 0) with 0. rewrite Z.add_0_r.
      rewrite u32_small by lia. unfold i32. rewrite swrap_small by lia.
      unfold attr. replace (Z.to_nat (len cs + 1 - 1)) with (length cs) by lia.
      rewrite lookup_app_r by lia. rewrite Nat.sub_diag. cbn. destruct (Z.ltb_spec 0 (len cs + 1)); [|lia].
      by rewrite offset_snoc by lia.
    + unfold attr. by rewrite lookup_ge_None_2 by (rewrite length_app; simpl; lia).
Qed.

(** the attributes are fields of the record, or absent *)
Definition fields_ok (ip : reader_init_param_t) : Prop :=
  Forall (fun want => 0 <= want) [obj_id_field ip; op_field ip; real_time_field ip; obj_size_field ip;
    ttl_field ip; ip_extra_field1 ip; ip_extra_field2 ip].

Definition id_type (ip : reader_init_param_t) (cs : list Z) (oty : obj_id_type_e) : obj_id_type_e :=
  if (0 <? obj_id_field ip) && (obj_id_field ip <=? len cs) then OBJ_ID_NUM else oty.

Lemma fmt_loop_spec ip : fields_ok ip -> forall cs fuel pre size oty,
  Forall (fun c => simple c = true) (pre ++ cs) -> len (pre ++ cs) < 2 ^ 20 -> (length cs < fuel)%nat ->
  fmt_loop fuel ip cs (len pre) size (offset_of pre (length pre)) (id_type ip pre oty) (params_of ip pre 0) =
  Ok (len (pre ++ cs), offset_of (pre ++ cs) (length (pre ++ cs)), id_type ip (pre ++ cs) oty, params_of ip (pre ++ cs) 0).
Proof.
  intros Hip. induction cs as [|c cs IH]; intros fuel pre size oty Hs Hl Hf; (destruct fuel as [|fuel]; [simpl in Hf; lia|]).
  - cbn [fmt_loop]. by rewrite app_nil_r.
  - rewrite (cons_middle c pre cs), app_assoc in *. rewrite length_app in Hl.
    apply Forall_app in Hs as [Hs Hcs]. pose proof Hs as Hs'. apply Forall_app in Hs as [Hpre Hc]. apply Forall_inv in Hc.
    destruct (simple_cases c Hc) as (Hsz & Hfs & Hdig & Hstr & _).
    pose proof (offset_bounds pre Hpre (length pre)) as Hoff.
    rewrite length_app in Hl. cbn [length] in Hl.
    cbn [fmt_loop read_count]. rewrite Hdig. change (0 =? 0) with true. cbv iota.
    rewrite Hstr, Hfs. assert (Hi : i32 (len pre + 1) = len pre + 1) by (unfold i32; rewrite swrap_small; lia).
    assert (Hid : (if negb (obj_id_field ip =? 0) && (bf_len (bp_obj_id (params_of ip pre 0)) =? 0) &&
                     (obj_id_field ip <=? len pre + 1) then OBJ_ID_NUM else id_type ip pre oty) =
                  id_type ip (pre ++ [c]) oty).
    { apply Forall_cons in Hip as [Hid0 _]. unfold id_type. cbn [params_of bp_obj_id]. rewrite length_app. cbn [length].
      unfold attr. destruct (Z.eqb_spec (obj_id_field ip) 0) as [->|Hid1]; [done|]. cbn [negb andb].
      destruct (Z.ltb_spec 0 (obj_id_field ip)) as [Hpos|]; [|lia].
      destruct (decide (obj_id_field ip <= len pre)) as [Hle|Hgt].
      - destruct (lookup_lt_is_Some_2 pre (Z.to_nat (obj_id_field ip - 1))) as [d Hd]; [lia|]. rewrite Hd. cbn [bf_len one Z.eqb andb].
        rewrite !(proj2 (Z.leb_le _ _)) by lia. done.
      - rewrite lookup_ge_None_2 by lia. cbn [bf_len no_field Z.eqb andb].
        rewrite (proj2 (Z.leb_gt _ (len pre))) by lia. replace (len pre + 1) with (Z.of_nat (length pre + 1)) by lia.
        done. }
    cbv zeta. cbv iota. rewrite !Hi, Hid, (u32_small (len pre)) by lia.
    assert (Hone : forall d, simple d = true -> 1 <= one d) by (unfold one; lia).
    assert (Hcsz : forall d, simple d = true -> 1 <= csize d) by (intros d Hd; destruct (simple_cases d Hd); lia).
    unfold fields_ok in Hip. rewrite !Forall_cons in Hip.
    destruct Hip as (F1 & F2 & F3 & F4 & F5 & F6 & F7 & _).
    unfold params_of at 1 2 3 4 5 6 7 8. cbn [bp_obj_id bp_op bp_real_time bp_obj_size bp_ttl bp_extra1 bp_extra2 num_of_fields].
    repeat match goal with |- context [place ?w ?a ?b ?s ?o 1 ?d ?f] => change (place w a b s o 1 d f) with (place w a b s o (one d) d f) end.
    rewrite !place_attr by (done || lia).
    rewrite Z.mul_1_l, (u32_small (csize c)), u64_small by lia. rewrite <- offset_end.
    specialize (IH fuel (pre ++ [c]) (csize c) oty).
    assert (HS : length (pre ++ [c]) = S (length pre)) by (rewrite length_app; simpl; lia). rewrite HS in IH.
    replace (Z.of_nat (S (length pre))) with (len pre + 1) in IH by lia.
    apply IH; [by apply Forall_app|rewrite !length_app; cbn [length]; lia|cbn [length] in Hf; lia].
Qed.

(** ** binary.c: setting up and reading *)

Local Open Scope char_scope.
(** the format characters of unsigned integers *)
Definition unsigned_char (c : Z) : bool := existsb (Z.eqb c) (ch <$> ["H"; "I"; "L"; "Q"]).
Local Close Scope char_scope.

Lemma unsigned_simple c : unsigned_char c = true -> simple c = true /\ (c =? 0) = false.
Proof.
  unfold unsigned_char. cbn [existsb fmap list_fmap]. rewrite !orb_true_iff, !Z.eqb_eq. intros H.
  repeat (destruct H as [->|H]; [by vm_compute|]). done.
Qed.

(** the values of a record, stored one after the other *)
Definition bin_bytes (cs vs : list Z) : list Z :=
  concat (zip_with (fun c v => le_bytes (Z.to_nat (csize c)) v) cs vs).
Definition bin_ok (cs vs : list Z) : Prop := Forall2 (fun c v => 0 <= v < 2 ^ (8 * csize c)) cs vs.

Definition has_field (cs : list Z) (want : Z) : bool := (0 <? want) && (want <=? len cs).
Definition value (vs : list Z) (want : Z) : Z := vs !!! Z.to_nat (want - 1).

Definition bin_fill (ip : reader_init_param_t) (cs vs : list Z) (q : request) : request :=
  let pick want old := if has_field cs want then value vs want else old in
  mk_request (pick (real_time_field ip) (req_real_time q)) (pick (obj_id_field ip) (req_obj_id_int q))
    (pick (obj_size_field ip) (req_obj_size q))
    (if has_field cs (ip_extra_field1 ip) then i64 (value vs (ip_extra_field1 ip)) else req_extra_field1 q)
    (if has_field cs (ip_extra_field2 ip) then i64 (value vs (ip_extra_field2 ip)) else req_extra_field2 q)
    (req_cache_obj q) 0 (req_ttl q) (req_op q) true.

Lemma Forall_simple cs : Forall (fun c => unsigned_char c = true) cs -> Forall (fun c => simple c = true) cs.
Proof. intros H. eapply Forall_impl; [exact H|]. intros c Hc. by apply unsigned_simple in Hc as [? _]. Qed.

(** where the value of index [n] is *)
Lemma bin_bytes_split cs vs : Forall (fun c => simple c = true) cs -> bin_ok cs vs ->
  forall n c, cs !! n = Some c ->
  exists a b, bin_bytes cs vs = a ++ le_bytes (Z.to_nat (csize c)) (vs !!! n) ++ b /\
    len a = offset_of cs n /\ 0 <= vs !!! n < 2 ^ (8 * csize c).
Proof.
  intros Hs Hok. induction Hok as [|c v cs vs Hv Hok IH]; intros n d Hn; [done|].
  apply Forall_cons in Hs as [Hc Hs]. destruct n as [|n].
  - injection Hn as ->. by exists [], (bin_bytes cs vs).
  - destruct (IH Hs n d Hn) as (a & b & E & Ha & Hr). exists (le_bytes (Z.to_nat (csize c)) v ++ a), b.
    unfold bin_bytes in *. cbn [zip_with concat]. rewrite E, <- app_assoc. split; [done|]. split; [|done].
    rewrite length_app, length_le_bytes. unfold offset_of in *. cbn [take foldr]. rewrite <- Ha.
    destruct (simple_cases c Hc) as (Hsz & _). lia.
Qed.

Lemma bin_bytes_length cs vs : Forall (fun c => simple c = true) cs -> bin_ok cs vs ->
  len (bin_bytes cs vs) = offset_of cs (length cs).
Proof.
  intros Hs Hok. unfold offset_of. rewrite take_ge by lia.
  induction Hok as [|c v cs vs Hv Hok IH]; [done|]. apply Forall_cons in Hs as [Hc Hs].
  unfold bin_bytes in *. cbn [zip_with concat foldr]. rewrite length_app, length_le_bytes, <- (IH Hs).
  destruct (simple_cases c Hc) as (Hsz & _). lia.
Qed.

(** binary_extract on an unsigned integer *)
Lemma extract_unsigned r a v b c pos l off q :
  unsigned_char c = true -> mapped_file r = a ++ le_bytes (Z.to_nat (csize c)) v ++ b ->
  mmap_offset r + pos = len a -> 0 <= v < 2 ^ (8 * csize c) ->
  binary_extract r pos l c off q = poke q off (le_bytes 8 v).
Proof.
  unfold unsigned_char. cbn [existsb fmap list_fmap]. rewrite !orb_true_iff, !Z.eqb_eq. intros H Hf Ho Hv.
  repeat (destruct H as [->|H]; [
    unfold binary_extract; cbv beta iota zeta;
    match goal with |- context [load r _ ?n] =>
      erewrite (load_le r a (Z.to_nat n) v b _ n) by (exact Hf || exact Ho || reflexivity || exact Hv) end;
    reflexivity|]). done.
Qed.

Lemma extract_attr r q pre vs rest cs want len_of off :
  Forall (fun c => unsigned_char c = true) cs -> bin_ok cs vs ->
  mapped_file r = pre ++ bin_bytes cs vs ++ rest -> mmap_offset r = len pre ->
  extract_field r (attr cs want len_of) off q =
    if has_field cs want then poke q off (le_bytes 8 (value vs want)) else Ok q.
Proof.
  intros Hcs Hok Hf Ho. unfold extract_field, attr, has_field, value.
  destruct (Z.ltb_spec 0 want) as [Hw|Hw]; cbn [andb]; [|by destruct (cs !! _)].
  destruct (Z.leb_spec want (len cs)) as [Hl|Hl]; [|by rewrite lookup_ge_None_2 by lia].
  destruct (lookup_lt_is_Some_2 cs (Z.to_nat (want - 1))) as [c Hc]; [lia|]. rewrite Hc. cbn [bf_type bf_pos bf_len].
  pose proof Hcs as Hu. rewrite Forall_forall in Hu. specialize (Hu c (list_elem_of_lookup_2 _ _ _ Hc)).
  destruct (unsigned_simple c Hu) as [_ ->].
  destruct (bin_bytes_split cs vs (Forall_simple cs Hcs) Hok _ _ Hc) as (a & b & E & Ha & Hv).
  apply (extract_unsigned r (pre ++ a) _ (b ++ rest)); [done| | |done].
  - by rewrite Hf, E, <- !app_assoc.
  - rewrite length_app, Ho. lia.
Qed.

Lemma poke_extra1 q v : req_range q -> 0 <= v < 2 ^ 64 ->
  poke q off_extra_field1 (le_bytes 8 v) = Ok (mk_request (req_real_time q) (req_obj_id_int q) (req_obj_size q)
    (i64 v) (req_extra_field2 q) (req_cache_obj q) (req_hv q) (req_ttl q) (req_op q) (req_valid q)).
Proof.
  intros (H1 & H2 & H3 & H4 & H5) Hv.
  transitivity (Ok (mk_request (le_val (le_bytes 8 (req_real_time q))) (le_val (le_bytes 8 (req_obj_id_int q)))
    (le_val (le_bytes 8 (req_obj_size q))) (i64 (le_val (le_bytes 8 v)))
    (i64 (le_val (le_bytes 8 (req_extra_field2 q)))) (req_cache_obj q) (req_hv q) (req_ttl q) (req_op q) (req_valid q))).
  - reflexivity.
  - rewrite (i64_le_bytes (req_extra_field2 q)) by done. rewrite !le_val_small by (simpl; lia). done.
Qed.

Lemma poke_extra2 q v : req_range q -> 0 <= v < 2 ^ 64 ->
  poke q off_extra_field2 (le_bytes 8 v) = Ok (mk_request (req_real_time q) (req_obj_id_int q) (req_obj_size q)
    (req_extra_field1 q) (i64 v) (req_cache_obj q) (req_hv q) (req_ttl q) (req_op q) (req_valid q)).
Proof.
  intros (H1 & H2 & H3 & H4 & H5) Hv.
  transitivity (Ok (mk_request (le_val (le_bytes 8 (req_real_time q))) (le_val (le_bytes 8 (req_obj_id_int q)))
    (le_val (le_bytes 8 (req_obj_size q))) (i64 (le_val (le_bytes 8 (req_extra_field1 q))))
    (i64 (le_val (le_bytes 8 v))) (req_cache_obj q) (req_hv q) (req_ttl q) (req_op q) (req_valid q))).
  - reflexivity.
  - rewrite (i64_le_bytes (req_extra_field1 q)) by done. rewrite !le_val_small by (simpl; lia). done.
Qed.

Section binary.
  Variable g_quark_from_string atof_u64 : list Z -> Z.
  Variable ip : reader_init_param_t.
  Variable cs : list Z.
  Hypothesis Hip : fields_ok ip.
  Hypothesis Hcs : Forall (fun c => unsigned_char c = true) cs.
  Hypothesis Hlen : 0 < len cs < 2 ^ 20.
  #[local] Set Default Proof Using "All".
  #[local] Abbreviation read := (read_one_req g_quark_from_string atof_u64).

Definition bin_inv (r : reader_t) : Prop :=
  trace_type r = BIN_TRACE /\ reader_params r = BinParams (params_of ip cs (len cs)) /\
  item_size r = offset_of cs (length cs) /\ n_total_req r * item_size r = file_size r /\ file_size r < 2 ^ 62.

Lemma record_pos : 0 < offset_of cs (length cs).
Proof.
  unfold offset_of. rewrite take_ge by lia. destruct cs as [|c cs']; [simpl in Hlen; lia|].
  pose proof (Forall_simple _ Hcs) as Hs. apply Forall_cons in Hs as [Hc Hs].
  pose proof (offset_bounds cs' Hs (length cs')) as Ho. unfold offset_of in Ho. rewrite take_ge in Ho by lia.
  destruct (simple_cases c Hc) as (Hsz & _). cbn [foldr]. lia.
Qed.

Lemma value_range vs want : bin_ok cs vs -> has_field cs want = true -> 0 <= value vs want < 2 ^ 64.
Proof.
  unfold has_field, value. intros Hok Hw. apply andb_prop in Hw as [H1 H2]. apply Z.ltb_lt in H1. apply Z.leb_le in H2.
  destruct (lookup_lt_is_Some_2 cs (Z.to_nat (want - 1))) as [c Hc]; [lia|].
  pose proof (Forall_simple _ Hcs) as Hs.
  destruct (bin_bytes_split cs vs Hs Hok _ _ Hc) as (a & b & _ & _ & Hv).
  rewrite Forall_forall in Hs. destruct (simple_cases c (Hs c (list_elem_of_lookup_2 _ _ _ Hc))) as (Hsz & _).
  assert (2 ^ (8 * csize c) <= 2 ^ 64) by (apply Z.pow_le_mono_r; lia). lia.
Qed.

Lemma i64_range v : - 2 ^ 63 <= i64 v < 2 ^ 63.
Proof. unfold i64, swrap. pose proof (Z.mod_pos_bound (v + 2 ^ (64 - 1)) (2 ^ 64) eq_refl). change (2 ^ (64 - 1)) with (2 ^ 63) in *. lia. Qed.

(** what the setup leaves *)
Lemma binary_setup file oty pre n :
  binary_fmt ip = pre ++ cs -> Forall (fun c => is_alnum c = false) pre ->
  file <> [] -> len file = n * offset_of cs (length cs) -> len file < 2 ^ 62 ->
  exists r, setup_reader file BIN_TRACE oty ip = Ok r /\ mapped_file r = file /\ mmap_offset r = 0 /\
    bin_inv r /\ n_total_req r = n /\ obj_id_type r = id_type ip cs oty.
Proof.
  intros Hfmt Hpre Hne Hfl Hl. pose proof record_pos as Hp. pose proof (Forall_simple _ Hcs) as Hs.
  assert (Hskip : skip_endian (pre ++ cs) = Ok cs).
  { clear Hfmt. induction Hpre as [|c pre Hc Hpre IH]; cbn [skip_endian app].
    - destruct cs as [|c cs']; [simpl in Hlen; lia|]. apply Forall_inv in Hs.
      destruct (simple_cases c Hs) as (_ & _ & _ & _ & Ha). cbn [skip_endian]. by rewrite Ha.
    - by rewrite Hc. }
  unfold setup_reader. destruct file as [|b file'] eqn:Hfile; [done|]. rewrite <- Hfile in *.
  unfold binaryReader_setup. cbn [init_params set_item_size set_trace_type]. rewrite Hfmt, Hskip. cbn [rbind].
  assert (Hloop : fmt_loop (S (length cs)) ip cs 0 0 0 oty new_bin_params =
                  Ok (len cs, offset_of cs (length cs), id_type ip cs oty, params_of ip cs 0)).
  { assert (Hid : oty = id_type ip [] oty).
    { unfold id_type. cbn [length]. destruct (Z.ltb_spec 0 (obj_id_field ip)), (Z.leb_spec (obj_id_field ip) (Z.of_nat 0)); try done; lia. }
    rewrite Hid at 1. apply (fmt_loop_spec ip Hip cs _ [] 0 oty); [done|cbn; lia|lia]. }
  cbn [obj_id_type set_item_size set_trace_type]. rewrite Hloop. cbn [rbind].
  pose proof (Forall_inv Hip) as Hid. cbv beta in Hid. destruct (Z.eqb_spec (obj_id_field ip) (-1)); [lia|].
  destruct (Z.eqb_spec (offset_of cs (length cs)) 0); [lia|].
  eexists. split; [reflexivity|]. cbn. unfold bin_inv. cbn. unfold file_size. cbn [mapped_file set_item_size set_trace_type].
  rewrite Hfl, Z.div_mul by lia. rewrite u32_small by lia. split_and!; done || lia.
Qed.

(** one attribute, where writing its 8 bytes is [set] *)
Lemma extract_set r q pre vs rest want len_of off (set_ : Z -> request -> request) :
  (forall v, 0 <= v < 2 ^ 64 -> poke q off (le_bytes 8 v) = Ok (set_ v q)) ->
  bin_ok cs vs -> mapped_file r = pre ++ bin_bytes cs vs ++ rest -> mmap_offset r = len pre ->
  extract_field r (attr cs want len_of) off q = Ok (if has_field cs want then set_ (value vs want) q else q).
Proof.
  intros Hset Hok Hf Ho. rewrite (extract_attr r q pre vs rest) by done.
  destruct (has_field cs want) eqn:E; [|done]. by apply Hset, value_range.
Qed.

(** the attributes that binary_extract writes before op *)
Definition fill3 (vs : list Z) (q : request) : request :=
  let put want set_ q := if has_field cs want then set_ (value vs want) q else q in
  put (obj_size_field ip) set_req_obj_size (put (real_time_field ip) set_req_real_time
    (put (obj_id_field ip) set_req_obj_id q)).

Lemma put_range (set_ : Z -> request -> request) vs want q :
  (forall v, 0 <= v < 2 ^ 64 -> req_range (set_ v q)) -> bin_ok cs vs -> req_range q ->
  req_range (if has_field cs want then set_ (value vs want) q else q).
Proof. intros Hset Hok Hq. destruct (has_field cs want) eqn:E; [|done]. by apply Hset, value_range. Qed.

Lemma range_set_id v q : req_range q -> 0 <= v < 2 ^ 64 -> req_range (set_req_obj_id v q).
Proof. by intros (? & ? & ? & ? & ?). Qed.
Lemma range_set_time v q : req_range q -> 0 <= v < 2 ^ 64 -> req_range (set_req_real_time v q).
Proof. by intros (? & ? & ? & ? & ?). Qed.
Lemma range_set_size v q : req_range q -> 0 <= v < 2 ^ 64 -> req_range (set_req_obj_size v q).
Proof. by intros (? & ? & ? & ? & ?). Qed.

Lemma fill3_range vs q : bin_ok cs vs -> req_range q -> req_range (fill3 vs q).
Proof.
  intros Hok Hq. unfold fill3.
  repeat (apply put_range; [intros; (apply range_set_id || apply range_set_time || apply range_set_size)|..]; try done).
Qed.

Lemma extract3 r q pre vs rest : req_range q -> bin_ok cs vs ->
  mapped_file r = pre ++ bin_bytes cs vs ++ rest -> mmap_offset r = len pre ->
  (let! q := extract_field r (attr cs (obj_id_field ip) one) off_obj_id_int q in
   let! q := extract_field r (attr cs (real_time_field ip) one) off_real_time q in
   extract_field r (attr cs (obj_size_field ip) csize) off_obj_size q) = Ok (fill3 vs q).
Proof.
  intros Hq Hok Hf Ho.
  assert (H1 := fun v => poke_obj_id q v Hq). rewrite (extract_set r q pre vs rest _ _ _ set_req_obj_id H1 Hok Hf Ho). cbn [rbind].
  set (q1 := if has_field cs (obj_id_field ip) then _ else q).
  assert (Hq1 : req_range q1) by (apply put_range; auto using range_set_id).
  rewrite (extract_set r q1 pre vs rest _ _ _ set_req_real_time (fun v => poke_real_time q1 v Hq1) Hok Hf Ho). cbn [rbind].
  set (q2 := if has_field cs (real_time_field ip) then _ else q1).
  assert (Hq2 : req_range q2) by (apply put_range; auto using range_set_time).
  by rewrite (extract_set r q2 pre vs rest _ _ _ set_req_obj_size (fun v => poke_obj_size q2 v Hq2) Hok Hf Ho).
Qed.

Definition set_extra1 (v : Z) (q : request) : request :=
  mk_request (req_real_time q) (req_obj_id_int q) (req_obj_size q) (i64 v) (req_extra_field2 q)
    (req_cache_obj q) (req_hv q) (req_ttl q) (req_op q) (req_valid q).
Definition set_extra2 (v : Z) (q : request) : request :=
  mk_request (req_real_time q) (req_obj_id_int q) (req_obj_size q) (req_extra_field1 q) (i64 v)
    (req_cache_obj q) (req_hv q) (req_ttl q) (req_op q) (req_valid q).

Lemma bin_fill_put vs q :
  bin_fill ip cs vs q =
  (let put want set_ q := if has_field cs want then set_ (value vs want) q else q in
   put (ip_extra_field2 ip) set_extra2 (put (ip_extra_field1 ip) set_extra1
     (fill3 vs (set_req_valid true (set_req_hv 0 q))))).
Proof.
  unfold bin_fill, fill3. cbv zeta.
  destruct (has_field cs (real_time_field ip)), (has_field cs (obj_id_field ip)), (has_field cs (obj_size_field ip)),
    (has_field cs (ip_extra_field1 ip)), (has_field cs (ip_extra_field2 ip)); reflexivity.
Qed.

Lemma bin_fill_range vs q : bin_ok cs vs -> req_range q -> req_range (bin_fill ip cs vs q).
Proof.
  intros Hok Hq. rewrite bin_fill_put. cbv zeta.
  assert (H1 : forall v q, req_range q -> req_range (set_extra1 v q)).
  { intros v p (? & ? & ? & ? & ?). pose proof (i64_range v). by unfold req_range, set_extra1. }
  assert (H2 : forall v q, req_range q -> req_range (set_extra2 v q)).
  { intros v p (? & ? & ? & ? & ?). pose proof (i64_range v). by unfold req_range, set_extra2. }
  apply put_range; [intros; apply H2|done|]; (apply put_range; [intros; apply H1|done|]); by apply fill3_range.
Qed.

(** the reader is not at the end *)
Lemma not_at_end r pre vs rest :
  bin_inv r -> bin_ok cs vs -> mapped_file r = pre ++ bin_bytes cs vs ++ rest -> mmap_offset r = len pre ->
  (mmap_offset r >=? u64 (n_total_req r * item_size r)) = false.
Proof.
  intros (_ & _ & _ & Hn & Hl) Hok Hf Ho. pose proof record_pos as Hp.
  assert (Hfs : file_size r = len pre + offset_of cs (length cs) + len rest).
  { unfold file_size. rewrite Hf, !length_app, !Nat2Z.inj_add, (bin_bytes_length cs vs) by (done || by apply Forall_simple). lia. }
  rewrite Hn, u64_small by lia. rewrite Ho, Z.geb_leb. apply Z.leb_gt. lia.
Qed.

(** [binary_read_one_req] up to the attribute op *)
Lemma read_until_op r q pre vs rest :
  bin_inv r -> req_range q -> bin_ok cs vs -> mapped_file r = pre ++ bin_bytes cs vs ++ rest -> mmap_offset r = len pre ->
  read r q =
    let r := set_n_read (u64 (n_read_req r + 1)) r in
    let! q := extract_field r (attr cs (op_field ip) one) off_op (fill3 vs (set_req_valid true (set_req_hv 0 q))) in
    let! q := extract_field r (attr cs (ip_extra_field1 ip) csize) off_extra_field1 q in
    let! q := extract_field r (attr cs (ip_extra_field2 ip) csize) off_extra_field2 q in
    Ok (true, set_offset (u64 (mmap_offset r + item_size r)) r, q).
Proof.
  intros Hinv Hq Hok Hf Ho. pose proof (not_at_end r pre vs rest Hinv Hok Hf Ho) as Hend.
  destruct Hinv as (Hty & Hp & _). unfold read_one_req. cbn [trace_type set_n_read]. rewrite Hty.
  set (r1 := set_n_read _ r). set (q1 := set_req_valid true _).
  unfold binary_read_one_req. change (n_total_req r1 * item_size r1) with (n_total_req r * item_size r).
  change (mmap_offset r1) with (mmap_offset r). rewrite Hend. change (reader_params r1) with (reader_params r). rewrite Hp.
  unfold params_of. cbn [bp_obj_id bp_op bp_real_time bp_obj_size bp_ttl bp_extra1 bp_extra2].
  assert (Hq1 : req_range q1) by (by destruct Hq as (? & ? & ? & ? & ?)).
  pose proof (extract3 r1 q1 pre vs rest Hq1 Hok Hf Ho) as E.
  destruct (extract_field r1 (attr cs (obj_id_field ip) one) off_obj_id_int q1) as [q2|]; [|done]. cbn [rbind] in *.
  destruct (extract_field r1 (attr cs (real_time_field ip) one) off_real_time q2) as [q3|]; [|done]. cbn [rbind] in *.
  by rewrite E.
Qed.

Lemma bin_read_record r q pre vs rest :
  has_field cs (op_field ip) = false ->
  bin_inv r -> req_range q -> mapped_file r = pre ++ bin_bytes cs vs ++ rest -> mmap_offset r = len pre -> bin_ok cs vs ->
  len (mapped_file r) < 2 ^ 62 ->
  read r q = Ok (true, set_offset (len (pre ++ bin_bytes cs vs)) (set_n_read (u64 (n_read_req r + 1)) r), bin_fill ip cs vs q).
Proof.
  intros Hop Hinv Hq Hf Ho Hok Hl. rewrite (read_until_op r q pre vs rest) by done. cbv zeta. set (r1 := set_n_read _ r).
  set (q1 := fill3 vs _).
  assert (Hq1 : req_range q1) by (apply fill3_range; [done|by destruct Hq as (? & ? & ? & ? & ?)]).
  rewrite (extract_attr r1 q1 pre vs rest) by done. rewrite Hop. cbn [rbind].
  assert (H1 := fun v => poke_extra1 q1 v Hq1). rewrite (extract_set r1 q1 pre vs rest _ _ _ set_extra1 H1 Hok Hf Ho). cbn [rbind].
  set (q2 := if has_field cs (ip_extra_field1 ip) then _ else q1).
  assert (Hq2 : req_range q2).
  { apply put_range; [|done..]. intros v Hv. destruct Hq1 as (? & ? & ? & ? & ?). pose proof (i64_range v). by unfold req_range, set_extra1. }
  rewrite (extract_set r1 q2 pre vs rest _ _ _ set_extra2 (fun v => poke_extra2 q2 v Hq2) Hok Hf Ho). cbn [rbind].
  rewrite bin_fill_put. fold q1. cbv zeta. fold q2. do 3 f_equal.
  destruct Hinv as (_ & _ & Hi & _). change (item_size r1) with (item_size r). change (mmap_offset r1) with (mmap_offset r).
  pose proof (bin_bytes_length cs vs (Forall_simple _ Hcs) Hok) as Hb. rewrite Hf, !length_app in Hl.
  rewrite Hi, Ho, <- Hb, length_app. rewrite u64_small by lia. f_equal. lia.
Qed.

Lemma bin_read_end r q : bin_inv r -> mmap_offset r = file_size r ->
  exists r' q', read r q = Ok (false, r', q') /\ req_valid q' = false.
Proof.
  intros (Hty & Hp & Hi & Hn & Hl) Ho. unfold read_one_req. cbn [trace_type set_n_read]. rewrite Hty.
  unfold binary_read_one_req. cbn [mmap_offset n_total_req item_size set_n_read]. unfold file_size in *.
  rewrite Hn, u64_small by lia. rewrite Ho, Z.geb_leb, Z.leb_refl. eauto.
Qed.

Lemma bin_records_length recs : Forall (bin_ok cs) recs ->
  len (flat_map (bin_bytes cs) recs) = len recs * offset_of cs (length cs).
Proof.
  induction 1 as [|vs recs Hok Hrecs IH]; [done|]. cbn [flat_map length]. rewrite length_app, Nat2Z.inj_add, IH.
  rewrite (bin_bytes_length cs vs) by (done || by apply Forall_simple). lia.
Qed.

Lemma bin_new_range : req_range new_request.
Proof. by vm_compute. Qed.

(** C32.  Reading a binary trace gives the requests that were stored.  The format is any
    characters that are neither letters nor digits followed by the characters of unsigned
    integers; each attribute is one of the fields or absent, and op is absent. *)
Theorem binary_roundtrip pre recs oty :
  binary_fmt ip = pre ++ cs -> Forall (fun c => is_alnum c = false) pre ->
  has_field cs (op_field ip) = false -> recs <> [] -> Forall (bin_ok cs) recs ->
  len (flat_map (bin_bytes cs) recs) < 2 ^ 62 ->
  exists r r', setup_reader (flat_map (bin_bytes cs) recs) BIN_TRACE oty ip = Ok r /\
    n_total_req r = len recs /\ item_size r = offset_of cs (length cs) /\ obj_id_type r = id_type ip cs oty /\
    read_all g_quark_from_string atof_u64 (S (length recs)) r new_request =
      Ok ((fun vs => bin_fill ip cs vs new_request) <$> recs, r').
Proof.
  intros Hfmt Hpre Hop Hne Hok Hl. pose proof (bin_records_length recs Hok) as Hn. pose proof record_pos as Hp.
  destruct (binary_setup (flat_map (bin_bytes cs) recs) oty pre (len recs)) as (r & Hs & Hf & Ho & Hinv & Htot & Hty); try done.
  { destruct recs as [|vs recs]; [done|]. intros E. rewrite E in Hn. cbn [length] in Hn. nia. }
  destruct (read_all_records g_quark_from_string atof_u64 (bin_bytes cs) (bin_fill ip cs) (bin_ok cs) bin_inv req_range)
    with (recs := recs) (r := r) (q := new_request) (pre := @nil Z) as (r' & E); try done.
  - by intros a q Ha Hq; apply bin_fill_range.
  - intros a b q. unfold bin_fill. cbn.
    by destruct (has_field cs (real_time_field ip)), (has_field cs (obj_id_field ip)), (has_field cs (obj_size_field ip)),
      (has_field cs (ip_extra_field1 ip)), (has_field cs (ip_extra_field2 ip)).
  - intros r1 q pre1 a rest Hi Hq Hf1 Ho1 Ha Hl1. by apply (bin_read_record r1 q pre1 a rest).
  - apply bin_read_end.
  - by rewrite Hf.
  - exists r, r'. destruct Hinv as (_ & _ & Hi & _). done.
Qed.

(** C39.  A binary trace whose format gives op as a field of type H, I, L or Q, all its fields being
    of these types, and whose first record has an op below 2^32 is accepted but gives no request:
    the 8 bytes written for op cover valid. (Fields of the types b, B, c and ? are not stored at
    all.) *)
Theorem binary_op_unreadable pre vs recs oty fuel :
  binary_fmt ip = pre ++ cs -> Forall (fun c => is_alnum c = false) pre ->
  has_field cs (op_field ip) = true -> value vs (op_field ip) < 2 ^ 32 -> Forall (bin_ok cs) (vs :: recs) ->
  len (flat_map (bin_bytes cs) (vs :: recs)) < 2 ^ 62 ->
  exists r r', setup_reader (flat_map (bin_bytes cs) (vs :: recs)) BIN_TRACE oty ip = Ok r /\
    n_total_req r = 1 + len recs /\
    read_all g_quark_from_string atof_u64 (S fuel) r new_request = Ok ([], r').
Proof.
  intros Hfmt Hpre Hop Hv Hok Hl. pose proof (bin_records_length _ Hok) as Hn. pose proof record_pos as Hp.
  destruct (binary_setup (flat_map (bin_bytes cs) (vs :: recs)) oty pre (len (vs :: recs))) as (r & Hs & Hf & Ho & Hinv & Htot & Hty); try done.
  { intros E. rewrite E in Hn. cbn [length] in Hn. nia. }
  apply Forall_cons in Hok as [Hok1 _].
  exists r. cbn [read_all]. cbn [flat_map] in Hf.
  rewrite (read_until_op r new_request [] vs (flat_map (bin_bytes cs) recs)) by (done || apply bin_new_range). cbv zeta.
  set (r1 := set_n_read _ r). set (q1 := fill3 vs _).
  rewrite (extract_attr r1 q1 [] vs (flat_map (bin_bytes cs) recs)) by done. rewrite Hop.
  pose proof (value_range vs _ Hok1 Hop) as Hv0.
  destruct (poke_op q1 (value vs (op_field ip))) as (q2 & E & _ & Hval); [lia|]. rewrite E. cbn [rbind].
  assert (Hex : forall want len_of off q, (off = off_extra_field1 \/ off = off_extra_field2) -> req_valid q = false ->
    exists q', extract_field r1 (attr cs want len_of) off q = Ok q' /\ req_valid q' = false).
  { intros want len_of off q Hoff Hq. rewrite (extract_attr r1 q [] vs (flat_map (bin_bytes cs) recs)) by done.
    destruct (has_field cs want); [|by eauto]. destruct Hoff as [-> | ->]; (eexists; split; [reflexivity|exact Hq]). }
  destruct (Hex (ip_extra_field1 ip) csize off_extra_field1 q2) as (q3 & -> & Hv3); [by left|done|]. cbn [rbind].
  destruct (Hex (ip_extra_field2 ip) csize off_extra_field2 q3) as (q4 & -> & Hv4); [by right|done|]. cbn [rbind].
  rewrite Hv4. eexists. split; [done|]. split; [|done]. rewrite Htot. cbn [length]. lia.
Qed.

End binary.

(** ** Concrete traces *)

Definition no_quark (s : list Z) : Z := 0.
Definition demo_ip : reader_init_param_t := mk_init_params 1 2 3 0 0 4 0 false 0 (ch "<"%char :: (ch <$> ["I"; "Q"; "H"; "L"]%char)).
Definition demo_cs : list Z := ch <$> ["I"; "Q"; "H"; "L"]%char.
Definition demo_recs : list (list Z) := [[7; 12345678901; 300; 4294967295]; [8; 18446744073709551615; 1; 0]].

(** solves a conjunction of closed comparisons *)
Ltac closed_bounds := repeat constructor; vm_compute; congruence.

Lemma binary_roundtrip_witness :
  exists r r', setup_reader (flat_map (bin_bytes demo_cs) demo_recs) BIN_TRACE OBJ_ID_STR demo_ip = Ok r /\
    n_total_req r = 2 /\ item_size r = 18 /\
    read_all no_quark no_quark 3 r new_request =
      Ok ([mk_request 7 12345678901 300 4294967295 0 None 0 0 14 true;
           mk_request 8 18446744073709551615 1 0 0 None 0 0 14 true], r').
Proof.
  destruct (binary_roundtrip no_quark no_quark demo_ip demo_cs) with (pre := [ch "<"%char]) (recs := demo_recs) (oty := OBJ_ID_STR)
    as (r & r' & Hs & Hn & Hi & _ & E).
  - repeat constructor; vm_compute; congruence.
  - repeat constructor.
  - vm_compute. split; reflexivity.
  - reflexivity.
  - repeat constructor.
  - reflexivity.
  - discriminate.
  - closed_bounds.
  - vm_compute. reflexivity.
  - exists r, r'. split; [exact Hs|]. split; [exact Hn|]. split; [exact Hi|exact E].
Defined.

Definition demo_op_ip : reader_init_param_t := mk_init_params 1 2 0 3 0 0 0 false 0 (ch <$> ["I"; "Q"; "H"; "L"]%char).

Lemma binary_op_unreadable_witness :
  exists r r', setup_reader (flat_map (bin_bytes demo_cs) demo_recs) BIN_TRACE OBJ_ID_NUM demo_op_ip = Ok r /\
    n_total_req r = 2 /\ read_all no_quark no_quark 3 r new_request = Ok ([], r').
Proof.
  destruct (binary_op_unreadable no_quark no_quark demo_op_ip demo_cs) with (pre := @nil Z) (vs := [7; 12345678901; 300; 4294967295])
    (recs := [[8; 18446744073709551615; 1; 0]]) (oty := OBJ_ID_NUM) (fuel := 2%nat) as (r & r' & Hs & Hn & E).
  - repeat constructor; vm_compute; congruence.
  - repeat constructor.
  - vm_compute. split; reflexivity.
  - reflexivity.
  - constructor.
  - reflexivity.
  - vm_compute. reflexivity.
  - closed_bounds.
  - vm_compute. reflexivity.
  - exists r, r'. split; [exact Hs|]. split; [exact Hn|exact E].
Defined.

Lemma vscsi_roundtrip_witness :
  exists r r', setup_reader (flat_map v1_bytes [mk_vscsi 1 512 1 42 256 77 3000000 0; mk_vscsi 2 1024 1 40 300 78 4500000 0;
      mk_vscsi 3 512 1 42 256 77 5000000 0]) VSCSI_TRACE OBJ_ID_STR demo_ip = Ok r /\ n_total_req r = 3 /\
    read_all no_quark no_quark 4 r new_request =
      Ok ([mk_request 3 77 512 0 0 None 0 0 42 true; mk_request 4 78 1024 0 0 None 0 0 40 true;
           mk_request 5 77 512 0 0 None 0 0 42 true], r').
Proof.
  destruct (vscsi_roundtrip no_quark no_quark VSCSI1 [mk_vscsi 1 512 1 42 256 77 3000000 0; mk_vscsi 2 1024 1 40 300 78 4500000 0;
      mk_vscsi 3 512 1 42 256 77 5000000 0] OBJ_ID_STR demo_ip) as (r & r' & Hs & Hn & E).
  - split; [repeat constructor; vm_compute; congruence|]. split; [vm_compute; congruence|]. intros t [= <-]. vm_compute. reflexivity.
  - vm_compute. reflexivity.
  - exists r, r'. split; [exact Hs|]. split; [exact Hn|exact E].
Defined.

Lemma twr_roundtrip_witness :
  exists r r', setup_reader (flat_map twr_bytes [mk_twr 10 99 3 100 1 7; mk_twr 11 98 0 0 2 7; mk_twr 12 99 3 5 0 0]) TWR_TRACE OBJ_ID_NUM demo_ip = Ok r /\
    n_total_req r = 3 /\
    read_all no_quark no_quark 4 r new_request =
      Ok ([mk_request 10 99 103 0 0 None 0 0 1 true; mk_request 12 99 8 0 0 None 0 0 0 true], r').
Proof.
  destruct (twr_roundtrip no_quark no_quark [mk_twr 10 99 3 100 1 7; mk_twr 11 98 0 0 2 7; mk_twr 12 99 3 5 0 0] OBJ_ID_NUM demo_ip)
    as (r & r' & Hs & Hn & E).
  - discriminate.
  - closed_bounds.
  - vm_compute. reflexivity.
  - exists r, r'. split; [exact Hs|]. split; [exact Hn|exact E].
Defined.
