(* ===== verification/Simulator.v ===== *)
(** * The miss-ratio-curve simulator (profiler/simulator.c, cache/include/cacheUtils.h)

    A job simulates one cache size: it clones the reader, creates a cache of that size and
    drives it with the requests of the trace.  Each job has its own clone and its own
    cache; what the jobs share is the array of results, of which each writes its own entry,
    and the progress counter, behind a mutex.  The pool of threads is a step relation on
    that shared state.  The policy is its table of functions, and the memory of a job's
    cache is a store of its own.  n_warmup_req, the product of the number of requests and a
    floating-point percentage, is an argument. *)

From S2P Require Import Prelude.
From S2P Require Import Store.
From S2P Require Import HashTable.
From S2P Require Import Cache.
From S2P Require Import ReaderBase.
From S2P Require Import Reader.

(** cache.h; the expired counts stay 0 without SUPPORT_TTL *)
Record cache_state_t := mk_cache_state {
  stored_obj_cnt : Z;
  used_bytes : Z;
  cs_cache_size : Z;
  cur_time : Z
}.

Record sim_res_t := mk_sim_res {
  sr_req_cnt : Z;
  sr_req_bytes : Z;
  sr_miss_cnt : Z;
  sr_miss_bytes : Z;
  sr_cache_size : Z;
  sr_cache_state : cache_state_t
}.

Section simulator.
  Variable get_hash_value_int_64 : Z -> Z.
  Variable g_quark_from_string atof_u64 : list Z -> Z.
  Variable ops : cache_ops.                   (* the policy of params->cache *)
  #[local] Abbreviation hash := get_hash_value_int_64.
  #[local] Abbreviation read := (read_one_req g_quark_from_string atof_u64).

(** _get_cache_state_ht_iter *)
Definition get_cache_state_ht_iter (s : store) (cs : cache_state_t) (l : loc) : result cache_state_t :=
  let! o := deref s (Some l) in
  Ok (mk_cache_state (u64 (stored_obj_cnt cs + 1)) (u64 (used_bytes cs + obj_size o)) (cs_cache_size cs) (cur_time cs)).

Definition get_cache_state (st : state) (cs : cache_state_t) : result cache_state_t :=
  let! ls := chained_hashtable_foreach (st_store st) (c_hashtable (st_cache st)) in
  rfold (get_cache_state_ht_iter (st_store st)) ls cs.

(** the two warm-up loops: until the trace ends, or until [limit] requests *)
Fixpoint warmup_loop (fuel : nat) (limit : option Z) (n_warmup : Z) (st : state) (r : reader_t) (req : request)
    : result (state * reader_t * request) :=
  match fuel with
  | O => Err OutOfFuel
  | S fuel =>
      if req_valid req && match limit with Some n => n_warmup <? n | None => true end then
        let! '(_, st, req) := cache_get ops st req in
        let! '(_, r, req) := read r req in
        warmup_loop fuel limit (u64 (n_warmup + 1)) st r req
      else Ok (st, r, req)
  end.

(** the counters req_cnt, req_byte, miss_cnt and miss_byte *)
Record counters := mk_counters { k_req_cnt : Z; k_req_byte : Z; k_miss_cnt : Z; k_miss_byte : Z }.

Definition count_req (req : request) (hit : bool) (k : counters) : counters :=
  mk_counters (u64 (k_req_cnt k + 1)) (u64 (k_req_byte k + req_obj_size req))
    (if hit then k_miss_cnt k else u64 (k_miss_cnt k + 1))
    (if hit then k_miss_byte k else u64 (k_miss_byte k + req_obj_size req)).

(** the main loop *)
Fixpoint sim_loop (fuel : nat) (k : counters) (st : state) (r : reader_t) (req : request)
    : result (counters * state * request) :=
  match fuel with
  | O => Err OutOfFuel
  | S fuel =>
      if req_valid req then
        let! '(res, st, req) := cache_get ops st req in
        let k := count_req req (bool_decide (res = cache_ck_hit)) k in
        let! '(_, r, req) := read r req in
        sim_loop fuel k st r req
      else Ok (k, st, req)
  end.

(** every request of a trace takes at least one byte of it *)
Definition read_fuel (r : reader_t) : nat := S (S (length (mapped_file r))).

(** _get_mrc_thread: [result] is result[idx] when the job starts, the value is what the job
    leaves there; [seed] is the seed the cache_init of the Random policy sets *)
Definition get_mrc_thread (reader : reader_t) (warmup_reader : option reader_t) (cache : cache_t)
    (n_warmup_req : Z) (seed : Z) (result : sim_res_t) : Prelude.result sim_res_t :=
  let! cloned_reader := clone_reader reader in
  let req := new_request in
  let local_cache := create_cache_with_new_size empty_store cache (i64 (sr_cache_size result)) seed in
  let! '(local_cache, req) :=
    (match warmup_reader with
     | Some w =>
         let! w := clone_reader w in
         let fuel := read_fuel w in
         let! '(_, w, req) := read w req in
         let! '(st, _, req) := warmup_loop fuel None 0 local_cache w req in
         Ok (st, req)
     | None => Ok (local_cache, req)
     end) in
  let fuel := read_fuel cloned_reader in
  let! '(_, cloned_reader, req) := read cloned_reader req in
  let! '(local_cache, cloned_reader, req) :=
    (if n_warmup_req >? 0
     then warmup_loop fuel (Some n_warmup_req) 0 local_cache cloned_reader req
     else Ok (local_cache, cloned_reader, req)) in
  let! '(k, local_cache, req) := sim_loop fuel (mk_counters 0 0 0 0) local_cache cloned_reader req in
  let c := st_cache local_cache in
  let! cs :=
    (if negb (default_ttl c =? 0) then
       let cs := sr_cache_state result in
       let cs := mk_cache_state (stored_obj_cnt cs) (used_bytes cs) (cache_size c) (req_real_time req) in
       let! cs := get_cache_state local_cache cs in
       let! _ := cassert (used_bytes cs =? occupied_size c) in
       Ok cs
     else Ok (sr_cache_state result)) in
  let! _ := cache_struct_free local_cache in
  Ok (mk_sim_res (k_req_cnt k) (k_req_byte k) (k_miss_cnt k) (k_miss_byte k) (sr_cache_size result) cs).

(** the entries of the array of results before the jobs start *)
Definition new_sim_res (size : Z) : sim_res_t := mk_sim_res 0 0 0 0 size (mk_cache_state 0 0 0 0).

(** cache_sizes of get_miss_ratio_curve_with_step_size *)
Definition step_sizes (step_size : Z) (num_of_sizes : nat) : list Z :=
  (fun i => u64 (step_size * (Z.of_nat i + 1))) <$> seq 0 num_of_sizes.

(** ** The thread pool of get_miss_ratio_curve

    A job waits in the queue, then writes its entry of the results, then adds 1 to progress
    while it holds the mutex. *)

Inductive job_state := Waiting | Written | Finished.

Record pool := mk_pool { jobs : list job_state; results : list sim_res_t; progress : Z }.

Section pool.
  Variable job : nat -> sim_res_t -> Prelude.result sim_res_t.

Definition start_pool (sizes : list Z) : pool :=
  mk_pool (replicate (length sizes) Waiting) (new_sim_res <$> sizes) 0.

Inductive pool_step : pool -> pool -> Prop :=
  | step_write i js rs p res res' :
      js !! i = Some Waiting -> rs !! i = Some res -> job i res = Ok res' ->
      pool_step (mk_pool js rs p) (mk_pool (<[i := Written]> js) (<[i := res']> rs) p)
  | step_progress i js rs p :
      js !! i = Some Written ->
      pool_step (mk_pool js rs p) (mk_pool (<[i := Finished]> js) rs (i32 (p + 1))).

End pool.

End simulator.
