(* ===== verification/ClusterThread.v ===== *)
(** * The run of the cluster simulator
      (CDNSimulator/src/cacheClusterThread.cpp, include/cacheClusterThread.hpp, cacheCluster.cpp)

    One thread reads the trace, changes the availability of the servers every five minutes
    of trace time as the failure file says, and gives each request to the cluster.  What
    is only printed is left out; the counters that are cleared when a line of the log is
    written are cleared here.  The configuration is that of C2DNconfig.h: FIND_REP_COEF and
    no USE_VTIME. *)

From Stdlib Require Import Floats.SpecFloat.
From S2P Require Import Prelude Store HashTable Cache ConsistentHash CacheServer CacheCluster.
From S2P Require Import BinReader ReaderBase Reader Simulator.

Definition CLUSTER_UPDATE_INTERVAL : Z := 5 * 60.

Record thread_t := Thread {
  cache_cluster : cacheCluster;
  failure_vector_deque : list (list Z);
  prev_failed_servers : list Z;
  last_cluster_unavailability_update : Z;    (* unsigned long *)
  vtime : Z;
  last_log_otime : Z;
  log_interval : Z
}.

Definition set_cache_cluster (c : cacheCluster) (t : thread_t) : thread_t :=
  Thread c (failure_vector_deque t) (prev_failed_servers t)
    (last_cluster_unavailability_update t) (vtime t) (last_log_otime t) (log_interval t).

(** ** The failure file *)

(** std::stoi, [w] = 32, and std::stol, [w] = 64: white space, a sign and digits, what
    follows is ignored; they throw when there is no digit or the value is out of range *)
Definition sto (w : Z) (s : list Z) : result Z :=
  let '(neg, s) :=
    match skip_white s with
    | 45 :: s => (true, s)
    | 43 :: s => (false, s)
    | s => (false, s)
    end in
  match s with
  | c :: _ =>
      if is_digit c then
        let v := if neg then - digits_val s 0 else digits_val s 0 in
        if (- 2 ^ (w - 1) <=? v) && (v <? 2 ^ (w - 1)) then Ok v else Err Thrown
      else Err Thrown
  | [] => Err Thrown
  end.

Definition stoi : list Z -> result Z := sto 32.
Definition stol : list Z -> result Z := sto 64.

(** boost::split at the spaces: the pieces, some of them empty *)
Fixpoint split_spaces (s : list Z) : list (list Z) :=
  match s with
  | [] => [[]]
  | c :: s =>
      if c =? 32 then [] :: split_spaces s
      else match split_spaces s with
           | p :: ps => (c :: p) :: ps
           | [] => [[c]]
           end
  end.

(** one line of the file: the servers that are down for an interval *)
Definition failed_servers_of_line (line : list Z) : result (list Z) :=
  match line with
  | [] => Ok []
  | _ => rfold (fun l piece => let! n := stoi piece in Ok (l ++ [n])) (split_spaces line) []
  end.

(** load_failure_data, on the lines of the file *)
Definition load_failure_data (lines : list (list Z)) : result (list (list Z)) :=
  rfold (fun q line => let! fs := failed_servers_of_line line in Ok (q ++ [fs])) lines [].

(** ** The replication factor *)

(** _objmap_aux: the size of an object and on how many servers it is, an int8_t *)
Definition objmap_aux (s : store) (m : gmap Z (Z * Z)) (l : loc) : result (gmap Z (Z * Z)) :=
  let! o := deref s (Some l) in
  let cnt := match m !! obj_id_int o with Some (_, n) => i8 (n + 1) | None => 1 end in
  Ok (<[obj_id_int o := (obj_size o, cnt)]> m).

Record rep_factor_t := RepFactor {
  obj_rep : spec_float; byte_rep : spec_float;
  n_chunk_cnt : list Z;
  n_server_obj : Z; n_server_byte : Z; n_cluster_obj : Z; n_cluster_byte : Z
}.

(** the objects of one server, unless it is down *)
Definition rep_server (st : Z * Z * gmap Z (Z * Z)) (s : cacheServer)
    : result (Z * Z * gmap Z (Z * Z)) :=
  let '(objs, bytes, m) := st in
  if is_available s then
    let c := s_cache s in
    let! ls := chained_hashtable_foreach (st_store c) (c_hashtable (st_cache c)) in
    let! m := rfold (objmap_aux (st_store c)) ls m in
    Ok (u64 (objs + n_obj (st_cache c)), u64 (bytes + occupied_size (st_cache c)), m)
  else Ok st.

(** one entry of the map: its size, and one more object with that many copies *)
Definition rep_object (st : Z * list Z) (e : Z * (Z * Z)) : result (Z * list Z) :=
  let '(bytes, cnts) := st in
  let! cnts := arr_upd (fun x => u64 (x + 1)) cnts (e.2.2 - 1) in
  Ok (u64 (bytes + e.2.1), cnts).

Definition find_rep_factor (c : cacheCluster) : result rep_factor_t :=
  let! '(objs, bytes, m) := rfold rep_server (cache_servers c) (0, 0, ∅) in
  let n_obj := Z.of_nat (size m) in
  let! '(cluster_bytes, cnts) :=
    rfold rep_object (map_to_list m) (0, replicate (Z.to_nat (ec_n (ec_params c))) 0) in
  Ok (RepFactor (ddiv (double_of_Z objs) (double_of_Z n_obj))
        (ddiv (double_of_Z bytes) (double_of_Z cluster_bytes)) cnts objs bytes n_obj cluster_bytes).

Section thread.
  Variable get_hash_value_int_64 : Z -> Z.
  Variable rand : nat -> Z.
  Variable max_flow : list (Z * Z * Z) -> list Z.
  Variable g_quark_from_string atof_u64 : list Z -> Z.
  #[local] Abbreviation hash := get_hash_value_int_64.
  #[local] Abbreviation read := (read_one_req g_quark_from_string atof_u64).

(** ** Availability *)

Definition recover_all (c : cacheCluster) : result cacheCluster :=
  rfold (fun c i => let! '(_, c) := recover_one_server c i in Ok c)
    (seqZ 0 (Z.of_nat (length (cache_servers c)))) c.

(** the ids are converted to unsigned int *)
Definition fail_all (failed : list Z) (c : cacheCluster) : result cacheCluster :=
  rfold (fun c i => let! '(_, c) := fail_one_server c (u32 i) in Ok c) failed c.

(** all servers recover, the listed ones fail, the buckets are mapped again *)
Definition update_servers (failed : list Z) (c : cacheCluster) : result cacheCluster :=
  let! c := recover_all c in
  let! c := fail_all failed c in
  populate_hash_mapping hash max_flow c.

Definition update_availability (now : Z) (t : thread_t) : result thread_t :=
  match failure_vector_deque t with
  | [] => Ok t
  | failed :: rest =>
      if u64 (now - last_cluster_unavailability_update t) >=? CLUSTER_UPDATE_INTERVAL then
        let! c :=
          (if decide (failed = prev_failed_servers t) then Ok (cache_cluster t)
           else update_servers failed (cache_cluster t)) in
        Ok (Thread c rest failed now (vtime t) (last_log_otime t) (log_interval t))
      else Ok t
  end.

(** the line of the log *)
Definition write_log (now : Z) (t : thread_t) : thread_t :=
  if negb (log_interval t =? 0) && (u64 (now - last_log_otime t) >=? log_interval t) then
    let c := cache_cluster t in
    Thread (set_bucket_stat ((fun _ => BucketStat 0 0 0 0) <$> bucket_stat c) c)
      (failure_vector_deque t) (prev_failed_servers t) (last_cluster_unavailability_update t)
      (vtime t) now (log_interval t)
  else t.

(** one iteration of the loop, up to the reading of the next request *)
Definition run_step (t : thread_t) (req : request) : result (cluster_hit_t * thread_t * request) :=
  let now := req_real_time req in
  let! t := update_availability now t in
  let! '(hit, c, req) := cluster_get hash rand (cache_cluster t) req in
  let t := Thread c (failure_vector_deque t) (prev_failed_servers t)
             (last_cluster_unavailability_update t) (u64 (vtime t + 1)) (last_log_otime t)
             (log_interval t) in
  Ok (hit, write_log now t, req).

Fixpoint run_loop (fuel : nat) (t : thread_t) (r : reader_t) (req : request)
    : result (thread_t * request) :=
  match fuel with
  | O => Err OutOfFuel
  | S fuel =>
      if req_valid req then
        let! '(_, t, req) := run_step t req in
        let! '(_, r, req) := read r req in
        run_loop fuel t r req
      else Ok (t, req)
  end.

(** run, which ends with the replication factor *)
Definition run (t : thread_t) (r : reader_t) : result (thread_t * rep_factor_t) :=
  let fuel := read_fuel r in
  let! '(_, r, req) := read r new_request in
  let req := if req_obj_size req <=? 0 then set_req_obj_size (100 * 1024) req else req in
  let now := req_real_time req in
  let t := Thread (cache_cluster t) (failure_vector_deque t) [] now (vtime t) now (log_interval t) in
  let! '(t, _) := run_loop fuel t r req in
  let! f := find_rep_factor (cache_cluster t) in
  Ok (t, f).

(** the constructor *)
Definition cacheClusterThread_init (c : cacheCluster) (lines : list (list Z)) (interval : Z)
    : result thread_t :=
  let! q := load_failure_data lines in
  Ok (Thread c q [] 0 0 0 interval).

End thread.
