(* ===== verification/ClusterMain.v ===== *)
(** * The program of the cluster simulator
      (CDNSimulator/src/simulator.cpp, include/simulator.hpp, include/utils.h)

    What the command line becomes: the sizes and the weights of the servers, the mode of
    the cluster, the servers, the ring and the cluster of a run.  The parsing of the
    command line is boost's; names of files and what is printed are left out. *)

From Stdlib Require Import String.
From Stdlib Require Import Floats.SpecFloat.
From S2P Require Import Prelude Store HashTable Cache Md5 ConsistentHash CacheServer CacheCluster.
From S2P Require Import LibCsv BinReader ReaderBase Reader Simulator ClusterThread.

(** const.h *)
Definition MB : Z := 1000000.
Definition GB : Z := 1000000000.
Definition TB : Z := 1000000000000.

(** a product of two long *)
Definition mul_long (x y : Z) : result Z :=
  if (- 2 ^ 63 <=? x * y) && (x * y <? 2 ^ 63) then Ok (x * y) else Err Overflow.

(** Utils::convert_size; [back] of an empty string is not defined *)
Definition convert_size (str_size : list Z) : result Z :=
  match last str_size with
  | None => Err BadAccess
  | Some c =>
      let c := if (65 <=? c) && (c <=? 90) then c + 32 else c in
      let scaled unit := let! v := stol (removelast str_size) in mul_long v unit in
      if c =? 109 then scaled MB
      else if c =? 103 then scaled GB
      else if c =? 116 then scaled TB
      else stol str_size
  end.

Record simulator_arg_t := SimArg {
  sa_cache_alg : string;
  sa_trace_format_str : string;
  sa_trace_format : trace_format_e;
  sa_n_server : Z;                        (* unsigned long *)
  sa_server_cache_size : Z;               (* unsigned long *)
  sa_server_cache_sizes : list Z;         (* unsigned long *)
  sa_server_weight : list Z;              (* uint32_t *)
  sa_cluster_mode_str : string;
  sa_cluster_mode : cluster_mode_e;
  sa_gutter_space : spec_float;
  sa_check_one_more : bool;
  sa_parity_rebalance : bool;
  sa_EC_n : Z; sa_EC_k : Z; sa_EC_size_threshold : Z;    (* unsigned int *)
  sa_admission : Z
}.

(** default_sim_arg: no option of the command line changes the gutter space *)
Definition default_sim_arg : simulator_arg_t :=
  SimArg EmptyString EmptyString akamai1b 0 0 [] [] EmptyString invalid_mode (S754_zero false)
    false false 0 0 0 0.

Definition set_servers (n size : Z) (sizes weights : list Z) (a : simulator_arg_t) : simulator_arg_t :=
  SimArg (sa_cache_alg a) (sa_trace_format_str a) (sa_trace_format a) n size sizes weights
    (sa_cluster_mode_str a) (sa_cluster_mode a) (sa_gutter_space a) (sa_check_one_more a)
    (sa_parity_rebalance a) (sa_EC_n a) (sa_EC_k a) (sa_EC_size_threshold a) (sa_admission a).
Definition set_modes (f : trace_format_e) (m : cluster_mode_e) (a : simulator_arg_t) : simulator_arg_t :=
  SimArg (sa_cache_alg a) (sa_trace_format_str a) f (sa_n_server a) (sa_server_cache_size a)
    (sa_server_cache_sizes a) (sa_server_weight a) (sa_cluster_mode_str a) m (sa_gutter_space a)
    (sa_check_one_more a) (sa_parity_rebalance a) (sa_EC_n a) (sa_EC_k a) (sa_EC_size_threshold a)
    (sa_admission a).

(** ** parse_cmd_arg: the sizes of the servers *)

(** one argument is split at its spaces *)
Definition size_words (cache_sizes : list (list Z)) : list (list Z) :=
  match cache_sizes with
  | [s] => split_spaces s
  | _ => cache_sizes
  end.

(** the loop over the servers: the sum, a long, and server_cache_sizes *)
Definition add_size (words : list (list Z)) (st : Z * list Z) (i : Z) : result (Z * list Z) :=
  let '(sum, sizes) := st in
  let! word := (match words !! Z.to_nat i with Some w => Ok w | None => Err Thrown end) in
  let! size := convert_size word in
  let sum := sum + size in
  if (- 2 ^ 63 <=? sum) && (sum <? 2 ^ 63) then Ok (sum, sizes ++ [u64 size]) else Err Overflow.

(** server_weight[i] = server_cache_sizes[i], an unsigned long to a uint32_t *)
Definition weights_of_sizes (sizes : list Z) : list Z := u32 <$> sizes.

(** the options -s, -m and --serverCacheSizes *)
Definition parse_sizes (server_cache_size : list Z) (n_server : Z)
    (cache_sizes : option (list (list Z))) (a : simulator_arg_t) : result simulator_arg_t :=
  let! avg := convert_size server_cache_size in
  let avg := u64 avg in
  match cache_sizes with
  | Some cache_sizes =>
      let! '(sum, sizes) := rfold (add_size (size_words cache_sizes)) (seqZ 0 n_server) (0, []) in
      if Z.abs (i64 (sum - i64 (u64 (avg * n_server)))) >? 1000 then Err Aborted      (* exit *)
      else Ok (set_servers n_server avg sizes (weights_of_sizes sizes) a)
  | None =>
      let n := Z.to_nat n_server in
      Ok (set_servers n_server avg (replicate n avg) (replicate n 1) a)
  end.

(** ** prepare_arg *)

Definition cluster_mode_of (mode : string) (n k : Z) : result cluster_mode_e :=
  let checked ok m := let! _ := cassert ok in Ok m in
  let! m :=
    (if String.eqb mode "no_rep" then checked ((n =? 1) && (k =? 1)) no_replication
     else if String.eqb mode "two_rep_popularity" then checked ((n =? 2) && (k =? 1)) two_rep_popularity
     else if String.eqb mode "two_rep_always" then checked ((n =? 2) && (k =? 1)) two_rep_always
     else if String.eqb mode "three_rep_always" then checked ((n =? 3) && (k =? 1)) three_rep_always
     else if String.eqb mode "C2DN" then checked ((n >? 2) && (k >=? 2)) C2DN
     else if String.eqb mode "C2DN_add_n" then checked ((n >? 2) && (k >=? 2)) C2DN_add_n
     else if String.eqb mode "C2DN_add_n_three_rep" then checked ((n >? 2) && (k >=? 2)) C2DN_add_n
     else Ok invalid_mode) in
  let! _ := cassert (negb (bool_decide (m = invalid_mode))) in
  Ok m.

Definition prepare_arg (a : simulator_arg_t) : result simulator_arg_t :=
  if String.eqb (sa_trace_format_str a) "akamai1b" then
    let! m := cluster_mode_of (sa_cluster_mode_str a) (sa_EC_n a) (sa_EC_k a) in
    Ok (set_modes akamai1b m a)
  else Err Aborted.

(** ** run: the servers and the cluster *)

Definition cache_alg_of (s : string) : cache_alg_t :=
  if String.eqb s "lru" then alg_lru else if String.eqb s "fifo" then alg_fifo else alg_other.

Definition make_server (a : simulator_arg_t) (l : list cacheServer) (i : Z) : result (list cacheServer) :=
  let! size := arr_get (sa_server_cache_sizes a) i in
  let! s := cacheServer_init (ServerParams (u32 i) size (cache_alg_of (sa_cache_alg a)) (sa_gutter_space a)) in
  Ok (l ++ [s]).

Section main.
  Variable get_hash_value_int_64 : Z -> Z.
  Variable max_flow : list (Z * Z * Z) -> list Z.
  Variable stack_md5state : md5_state.
  Variable qsort : (vnode_t -> vnode_t -> Z) -> list vnode_t -> list vnode_t.

Definition make_cluster (a : simulator_arg_t) : result cacheCluster :=
  let n := sa_n_server a in
  let! servers := rfold (make_server a) (seqZ 0 n) [] in
  let! ring := ch_ring_create stack_md5state qsort (i32 n) (Some (sa_server_weight a)) in
  cacheCluster_init get_hash_value_int_64 max_flow
    (ClusterParams n (Some (sa_server_weight a)) (sa_admission a) (sa_check_one_more a)
       (sa_parity_rebalance a) (sa_cluster_mode a) (sa_trace_format a))
    (ECParams (sa_EC_n a) (sa_EC_k a) (sa_EC_size_threshold a)) ring servers.

Variable rand : nat -> Z.
Variable g_quark_from_string atof_u64 : list Z -> Z.

(** reader_init_params of default_sim_arg, with the format of prepare_arg: III *)
Definition akamai1b_params : reader_init_param_t :=
  mk_init_params 1 2 3 0 0 0 0 false 0 [73; 73; 73].

(** CDNSimulator::run on the bytes of the trace and the lines of the failure file;
    obj_id_type is never set *)
Definition simulate (a : simulator_arg_t) (trace : list Z) (obj_id_type : obj_id_type_e)
    (failure_data : list (list Z)) (log_interval : Z) : result (thread_t * rep_factor_t) :=
  let! reader := setup_reader trace BIN_TRACE obj_id_type akamai1b_params in
  let! c := make_cluster a in
  let! t := cacheClusterThread_init c failure_data log_interval in
  run get_hash_value_int_64 rand max_flow g_quark_from_string atof_u64 t reader.

End main.
