(* ===== verification/ClusterMapThms.v ===== *)
(** * The mapping of the buckets, and the failure of a server

    populate_hash_mapping gives a bucket its first n + 2 available servers on the ring,
    whatever the other buckets took; so the failure of one server moves one chunk of an
    object, and the object survives it. *)

From S2P Require Import Prelude Store Cache CacheSpec Policies.
From S2P Require Import ConsistentHash ConsistentHashSpec.
From S2P Require Import CacheServer CacheServerSpec CacheCluster CacheClusterSpec CacheClusterThms.
From S2P Require Import ClusterThread.

(** ** Capacities *)

(** [caps]: what at most [b] buckets have left of [cap0] *)
Definition left_of (cap0 : list Z) (b : Z) (caps : list Z) : Prop :=
  Forall2 (fun x y => (x = 0 /\ y = 0) \/ (0 < x /\ x - b <= y)) cap0 caps.

(** the capacities after a unit of each of some servers is taken *)
Definition spend (ss caps : list Z) : list Z :=
  fold_left (fun cap s => <[Z.to_nat s := cap !!! Z.to_nat s - 1]> cap) ss caps.

Lemma use_spend ss caps : use (Some caps) ss = Some (spend ss caps).
Proof. done. Qed.

Lemma spend_length ss : forall caps, length (spend ss caps) = length caps.
Proof.
  unfold spend. induction ss as [|s ss IH]; intros caps; cbn [fold_left]; [done|].
  by rewrite IH, length_insert.
Qed.

Lemma spend_lookup ss : forall caps (i : nat),
  NoDup ss -> Forall (fun s => 0 <= s) ss -> (i < length caps)%nat ->
  spend ss caps !!! i = caps !!! i - (if bool_decide (Z.of_nat i ∈ ss) then 1 else 0).
Proof.
  unfold spend. induction ss as [|s ss IH]; intros caps i Hnd Hpos Hi; cbn [fold_left].
  - rewrite bool_decide_false by set_solver. lia.
  - apply NoDup_cons in Hnd as [Hs Hnd]. apply Forall_cons in Hpos as [Hs0 Hpos].
    rewrite IH by (done || by rewrite length_insert).
    destruct (decide (Z.to_nat s = i)) as [<-|Hne].
    + rewrite list_lookup_total_insert_eq by done. rewrite Z2Nat.id by done.
      rewrite bool_decide_false by done. rewrite bool_decide_true by set_solver. lia.
    + rewrite list_lookup_total_insert_ne by done. f_equal.
      erewrite bool_decide_ext; [done|]. rewrite elem_of_cons. split; [tauto|].
      intros [E'|?]; [lia|done].
Qed.

Lemma left_of_spend cap0 b caps ss :
  left_of cap0 b caps -> 0 <= b -> NoDup ss -> Forall (fun s => 0 <= s) ss ->
  Forall (fun s => avail (Some caps) s = true) ss ->
  left_of cap0 (b + 1) (spend ss caps).
Proof.
  intros HL Hb Hnd Hpos Hav. apply Forall2_same_length_lookup.
  pose proof (Forall2_length _ _ _ HL) as Hlen. split; [by rewrite spend_length|].
  intros i x y' Hx Hy'. destruct (Forall2_lookup_l _ _ _ _ _ HL Hx) as (y & Hy & Hxy).
  pose proof (lookup_lt_Some _ _ _ Hy) as Hi.
  assert (y' = y - (if bool_decide (Z.of_nat i ∈ ss) then 1 else 0)) as ->.
  { rewrite <- (list_lookup_total_correct _ _ _ Hy'), <- (list_lookup_total_correct _ _ _ Hy).
    by apply spend_lookup. }
  case_bool_decide as Hin; [|lia].
  rewrite Forall_forall in Hav. specialize (Hav _ Hin). unfold avail in Hav.
  rewrite Nat2Z.id, (list_lookup_total_correct _ _ _ Hy) in Hav. lia.
Qed.

(** As long as a bucket is left to each server, the same servers are available. *)
Lemma left_of_avail cap0 b caps s :
  left_of cap0 b caps -> 0 <= s < Z.of_nat (length cap0) -> Forall (fun x => x = 0 \/ b < x) cap0 ->
  avail (Some caps) s = avail (Some cap0) s.
Proof.
  intros HL Hs Hb. destruct (lookup_lt_is_Some_2 cap0 (Z.to_nat s)) as [x Hx]; [lia|].
  destruct (Forall2_lookup_l _ _ _ _ _ HL Hx) as (y & Hy & Hxy).
  pose proof (Forall_lookup_1 _ _ _ _ Hb Hx) as Hbx. unfold avail.
  rewrite (list_lookup_total_correct _ _ _ Hx), (list_lookup_total_correct _ _ _ Hy).
  destruct (Z.ltb_spec 0 x), (Z.ltb_spec 0 y); (done || simpl in *; lia).
Qed.

Lemma left_of_candidates cap0 b caps start vs ring :
  ring_ok ring vs -> n_server ring = Z.of_nat (length cap0) ->
  left_of cap0 b caps -> Forall (fun x => x = 0 \/ b < x) cap0 ->
  candidates (Some caps) start vs = candidates (Some cap0) start vs.
Proof.
  intros R Hn HL Hb. unfold candidates. apply filter_agree. intros s Hs.
  apply firsts_elem in Hs as [Hs _]. eapply left_of_avail; [done| |done]. rewrite <- Hn.
  pose proof (ring_ids_range R start) as Hr. rewrite Forall_forall in Hr. by apply Hr.
Qed.

Lemma left_of_init cap0 : Forall (fun x => 0 <= x) cap0 -> left_of cap0 0 cap0.
Proof.
  intros H. unfold left_of. induction H as [|x l Hx H IH]; constructor; [|done].
  destruct (decide (x = 0)); [by left|right; lia].
Qed.

(** ** The mapping *)

Section mapping.
  Variable hash : Z -> Z.

(** the first vnode of a bucket, its available servers in ring order, the first n + 2 *)
Definition bucket_start (vs : list vnode_t) (b : Z) : nat :=
  successor (Z.land (hash b) 0xffffffff) vs.
Definition bucket_candidates (c : cacheCluster) (vs : list vnode_t) (b : Z) : list Z :=
  candidates (Some (initial_capacity c)) (bucket_start vs b) vs.
Definition bucket_servers (c : cacheCluster) (vs : list vnode_t) (b : Z) : list Z :=
  take (Z.to_nat (ec_n (ec_params c) + MAX_N_UNAVAIL)) (bucket_candidates c vs b).

(** The ring of the cluster is built, with few enough vnodes for the int bounds of its search,
    and every bucket has n + 2 available servers. *)
Record mappable (c : cacheCluster) (vs : list vnode_t) : Prop := {
  mp_ring : ring_ok (ring c) vs;
  mp_search : n_point (ring c) < 2 ^ 30;
  mp_servers : n_server (ring c) = Z.of_nat (length (cache_servers c));
  mp_params : cp_n_server (cluster_params c) = Z.of_nat (length (cache_servers c));
  mp_ec : 0 < ec_n (ec_params c) <= MAX_EC_N;
  mp_enough : forall b, 0 <= b < N_BUCKET ->
    ec_n (ec_params c) + MAX_N_UNAVAIL <= Z.of_nat (length (bucket_candidates c vs b))
}.

(** The cluster with the first [b] buckets mapped. *)
Record mapping_to (c : cacheCluster) (vs : list vnode_t) (b : Z) (c' : cacheCluster) : Prop := {
  mt_rest : c' = set_n_bucket (n_bucket_per_server c')
                   (set_mappings (ch_mapping c') (prev_ch_mapping c) (ori_lead_mapping c') c);
  mt_n_bucket : length (n_bucket_per_server c') = length (cache_servers c);
  mt_servers : forall b', 0 <= b' < b -> ch_mapping c' !! b' = Some (bucket_servers c vs b');
  mt_lead : forall b', 0 <= b' < b -> exists v,
    vs !! bucket_start vs b' = Some v /\ ori_lead_mapping c' !! b' = Some (server_id v)
}.

Lemma initial_capacity_length c : length (initial_capacity c) = length (cache_servers c).
Proof. apply length_fmap. Qed.

Lemma initial_capacity_large c :
  0 < ec_n (ec_params c) <= MAX_EC_N ->
  Forall (fun x => x = 0 \/ N_BUCKET <= x) (initial_capacity c).
Proof.
  unfold MAX_EC_N, N_BUCKET. intros Hn. apply Forall_fmap, Forall_true. intros s. simpl.
  destruct (is_available s); [right|by left]. unfold N_BUCKET, u32, wrap. rewrite Z.mod_small; lia.
Qed.

Lemma bucket_servers_spec c vs b :
  mappable c vs -> 0 <= b < N_BUCKET ->
  NoDup (bucket_servers c vs b) /\
  Z.of_nat (length (bucket_servers c vs b)) = ec_n (ec_params c) + MAX_N_UNAVAIL /\
  Forall (fun s => 0 <= s < Z.of_nat (length (cache_servers c)) /\
                   avail (Some (initial_capacity c)) s = true) (bucket_servers c vs b).
Proof.
  intros M Hb. pose proof (mp_enough _ _ M b Hb) as He. split_and!.
  - eapply sublist_NoDup; [apply (candidates_nodup (Some (initial_capacity c)))|apply sublist_take].
  - unfold bucket_servers. rewrite length_take. pose proof (mp_ec _ _ M). unfold MAX_N_UNAVAIL in *. lia.
  - apply Forall_forall. intros s Hs. apply subseteq_take in Hs.
    apply list_elem_of_filter in Hs as [Ha Hs]. split; [|done].
    apply firsts_elem in Hs as [Hs _]. rewrite <- (mp_servers _ _ M).
    pose proof (ring_ids_range (mp_ring _ _ M) (bucket_start vs b)) as Hr.
    rewrite Forall_forall in Hr. by apply Hr.
Qed.

(** the count of the buckets of each server *)
Lemma count_buckets_ok (idxs nb : list Z) (last : Z) :
  0 <= last <= Z.of_nat (length idxs) -> Forall (fun s => 0 <= s < Z.of_nat (length nb)) idxs ->
  exists nb', rfold (fun nb j => let! s := arr_get idxs j in arr_upd (fun x => u32 (x + 1)) nb s)
      (seqZ 0 last) nb = Ok nb' /\ length nb' = length nb.
Proof.
  intros Hl Hr.
  destruct (rfold_seqZ (fun nb j => let! s := arr_get idxs j in arr_upd (fun x => u32 (x + 1)) nb s)
    (fun _ nb' => length nb' = length nb) 0 last nb) as (nb' & -> & Hnb); [lia|done| |by exists nb'].
  intros i nb1 Hi Hnb1. destruct (arr_get_Z idxs i) as (s & Hs & ->); [lia|]. cbn [rbind].
  pose proof (Forall_lookup_1 _ _ _ _ Hr Hs) as Hsr. simpl in Hsr.
  destruct (arr_upd_ok (fun x => u32 (x + 1)) nb1 s) as (nb2 & -> & Hnb2); [lia|].
  exists nb2. split; [done|lia].
Qed.

Lemma populate_bucket_spec c vs b c1 caps :
  mappable c vs -> 0 <= b < N_BUCKET ->
  mapping_to c vs b c1 -> left_of (initial_capacity c) b caps ->
  exists c2 caps2, populate_bucket hash (c1, Some caps) b = Ok (c2, Some caps2) /\
    mapping_to c vs (b + 1) c2 /\ left_of (initial_capacity c) (b + 1) caps2.
Proof.
  intros M Hb [Erest Hnb Hm Hl] HL. destruct (bucket_servers_spec c vs b M Hb) as (Hnd & Hlen & Hall).
  pose proof (mp_ec _ _ M) as Hn.
  assert (ec_params c1 = ec_params c /\ ring c1 = ring c /\ cluster_params c1 = cluster_params c)
    as (He & Hr & Hp) by (rewrite Erest; done).
  assert (candidates (Some caps) (bucket_start vs b) vs = bucket_candidates c vs b) as Hcand.
  { eapply left_of_candidates; [apply (mp_ring _ _ M)| |exact HL|].
    - by rewrite initial_capacity_length, (mp_servers _ _ M).
    - eapply Forall_impl; [by apply initial_capacity_large|]. simpl. unfold N_BUCKET in *. lia. }
  destruct (get_servers_candidates hash (ring c) vs b (ec_n (ec_params c) + MAX_N_UNAVAIL) (Some caps))
    as (v & Hv & E); [apply (mp_ring _ _ M)|unfold MAX_N_UNAVAIL; lia| | |].
  { simpl. rewrite <- (Forall2_length _ _ _ HL), initial_capacity_length. symmetry. apply (mp_servers _ _ M). }
  { apply (get_vnode_idx_spec (mp_ring _ _ M)), (mp_search _ _ M). }
  fold (bucket_start vs b) in Hv, E. cbv zeta in E. rewrite Hcand in E.
  rewrite decide_True in E by (by apply (mp_enough _ _ M)).
  fold (bucket_servers c vs b) in E. rewrite use_spend in E.
  unfold populate_bucket. rewrite He, Hr, E.
  cbn [rbind cluster_params n_bucket_per_server set_mappings]. rewrite Hp.
  match goal with |- context [seqZ 0 ?l] => set (last := l) end.
  match goal with |- context [rfold ?f (seqZ 0 last) ?nb] =>
    destruct (count_buckets_ok (bucket_servers c vs b) nb last) as (nb' & -> & Hnb') end.
  { subst last. unfold MAX_N_UNAVAIL in Hlen. destruct (cp_parity_rebalance _); lia. }
  { eapply Forall_impl; [exact Hall|]. intros s Hs. cbn. rewrite Hnb. apply Hs. }
  cbn [rbind]. do 2 eexists. split; [done|]. split.
  - split.
    + by rewrite Erest.
    + cbn. cbn in Hnb'. by rewrite Hnb'.
    + intros b' Hb'. cbn. destruct (decide (b' = b)) as [->|]; [by rewrite lookup_insert_eq|].
      rewrite lookup_insert_ne by done. apply Hm. lia.
    + intros b' Hb'. cbn. destruct (decide (b' = b)) as [->|].
      * exists v. by rewrite lookup_insert_eq.
      * rewrite lookup_insert_ne by done. apply Hl. lia.
  - apply left_of_spend; [done|lia|done| |].
    + eapply Forall_impl; [exact Hall|]. intros s Hs. apply Hs.
    + apply Forall_forall. intros s Hs. apply subseteq_take in Hs. rewrite <- Hcand in Hs.
      by apply list_elem_of_filter in Hs as [? _].
Qed.

Lemma populate_buckets_spec c vs :
  mappable c vs -> length (n_bucket_per_server c) = length (cache_servers c) ->
  exists c' caps, rfold (populate_bucket hash) (seqZ 0 N_BUCKET) (c, Some (initial_capacity c)) =
      Ok (c', Some caps) /\ mapping_to c vs N_BUCKET c'.
Proof.
  intros M Hnb.
  destruct (rfold_seqZ (populate_bucket hash) (fun b '(c1, dc) => exists caps, dc = Some caps /\
      mapping_to c vs b c1 /\ left_of (initial_capacity c) b caps) 0 N_BUCKET (c, Some (initial_capacity c)))
    as ([c' dc] & E & caps & -> & HM & _).
  - done.
  - exists (initial_capacity c). split; [done|]. split.
    + split; [by destruct c|done|intros; lia|intros; lia].
    + apply left_of_init. eapply Forall_impl; [by apply initial_capacity_large, (mp_ec _ _ M)|].
      simpl. unfold N_BUCKET. lia.
  - intros b [c1 dc] Hb (caps & -> & HM & HL).
    destruct (populate_bucket_spec c vs b c1 caps) as (c2 & caps2 & E & HM2 & HL2); [done|lia|done|done|].
    exists (c2, Some caps2). split; [done|]. by exists caps2.
  - exists c', caps. by split.
Qed.

(** every bucket can be looked up *)
Lemma buckets_found c :
  (forall b, 0 <= b < N_BUCKET -> is_Some (ch_mapping c !! b) /\ is_Some (ori_lead_mapping c !! b)) ->
  rfold (fun _ b => let! _ := get_consistent_hash_mapping c b in Ok tt) (seqZ 0 N_BUCKET) tt = Ok tt.
Proof.
  intros H. destruct (rfold_seqZ (fun _ b => let! _ := get_consistent_hash_mapping c b in Ok tt)
    (fun _ _ => True) 0 N_BUCKET tt) as ([] & E & _); [done|done| |done].
  intros b [] Hb _. destruct (H b ltac:(lia)) as [[m Hm] [l Hl]].
  unfold get_consistent_hash_mapping. unfold N_BUCKET in Hb.
  rewrite u32_small, Hm, Hl by lia. by exists tt.
Qed.

(** The ways to build a mapping that does not move parity chunks. *)
Lemma populate_mapped max_flow c vs :
  mappable c vs -> cp_parity_rebalance (cluster_params c) = false ->
  exists c', populate_hash_mapping hash max_flow c = Ok c' /\ mapping_to c vs N_BUCKET c'.
Proof.
  intros M Hpar. unfold populate_hash_mapping.
  set (c0 := set_n_bucket (replicate (Z.to_nat (cp_n_server (cluster_params c))) 0) c).
  assert (mappable c0 vs) as M0 by (destruct M; by split).
  destruct (populate_buckets_spec c0 vs M0) as (c' & caps & E & [E0 H1 H2 H3]).
  { cbn. rewrite length_replicate, (mp_params _ _ M). lia. }
  change (initial_capacity c) with (initial_capacity c0). rewrite E. cbn [rbind].
  replace (cp_parity_rebalance (cluster_params c')) with false by (by rewrite E0).
  cbn [rbind]. rewrite buckets_found.
  - exists c'. split; [done|]. split; [|done|exact H2|exact H3]. by rewrite E0 at 1.
  - intros b Hb. destruct (H3 b Hb) as (v & _ & Hv). by rewrite (H2 b Hb), Hv.
Qed.
End mapping.

(** ** Which servers a bucket has *)

Lemma avail_is_up c s :
  0 < ec_n (ec_params c) <= MAX_EC_N -> 0 <= s < Z.of_nat (length (cache_servers c)) ->
  avail (Some (initial_capacity c)) s = is_up c s.
Proof.
  unfold MAX_EC_N. intros Hn Hs. unfold avail, initial_capacity, is_up.
  destruct (lookup_lt_is_Some_2 (cache_servers c) (Z.to_nat s)) as [srv Hsrv]; [lia|].
  rewrite (list_lookup_total_correct _ (Z.to_nat s)
    (if is_available srv then u32 (N_BUCKET * ec_n (ec_params c)) else 0));
    [|by rewrite list_lookup_fmap, Hsrv]. rewrite Hsrv. unfold is_available.
  destruct (s_available srv); [|done]. unfold N_BUCKET, u32, wrap. rewrite Z.mod_small by lia.
  apply Z.ltb_lt. lia.
Qed.

Lemma bucket_candidates_up hash c vs b :
  ring_ok (ring c) vs -> n_server (ring c) = Z.of_nat (length (cache_servers c)) ->
  0 < ec_n (ec_params c) <= MAX_EC_N ->
  bucket_candidates hash c vs b =
    filter (fun s => is_up c s = true) (firsts [] (ring_ids (bucket_start hash vs b) vs)).
Proof.
  intros R Hs Hn. unfold bucket_candidates, candidates.
  apply (filter_agree (avail _) (is_up c)). intros s Hin. apply firsts_elem in Hin as [Hin _].
  apply avail_is_up; [done|]. rewrite <- Hs.
  pose proof (ring_ids_range R (bucket_start hash vs b)) as Hr. rewrite Forall_forall in Hr. by apply Hr.
Qed.

(** ** The failure of servers *)

(** [c'] is [c] with other servers up: those of [f]. *)
Record switched (c : cacheCluster) (f : Z -> bool) (c' : cacheCluster) : Prop := {
  dn_params : cluster_params c' = cluster_params c;
  dn_ec : ec_params c' = ec_params c;
  dn_ring : ring c' = ring c;
  dn_check : cluster_check c' = cluster_check c;
  dn_bucket : bucket_stat c' = bucket_stat c;
  dn_rload : read_load_byte c' = read_load_byte c;
  dn_wload : write_load_byte c' = write_load_byte c;
  dn_n_miss : n_miss (cluster_stat c') = n_miss (cluster_stat c);
  dn_midgress : midgress_bytes (cluster_stat c') = midgress_bytes (cluster_stat c);
  dn_n_bucket : n_bucket_per_server c' = n_bucket_per_server c;
  dn_req_cnt : cluster_req_cnt (cluster_stat c') = cluster_req_cnt (cluster_stat c);
  dn_hit_cnt : cluster_hit_cnt (cluster_stat c') = cluster_hit_cnt (cluster_stat c);
  dn_servers : Forall2 (fun s s' => s' = set_s_available (s_available s') s)
                 (cache_servers c) (cache_servers c');
  dn_up : forall x, 0 <= x -> is_up c' x = f x
}.

(** the number of the servers that are up is kept *)
Definition avail_ok (c : cacheCluster) : Prop :=
  n_avail_server (cluster_stat c) =
    Z.of_nat (length (filter (fun s => s_available s = true) (cache_servers c))).

(** [c'] is [c] with the servers [fs] down. *)
Definition downed (c : cacheCluster) (fs : list Z) : cacheCluster -> Prop :=
  switched c (fun x => is_up c x && negb (bool_decide (x ∈ fs))).

Lemma set_avail_twice a b s : set_s_available a (set_s_available b s) = set_s_available a s.
Proof. done. Qed.

Lemma switched_refl c f : (forall x, 0 <= x -> is_up c x = f x) -> switched c f c.
Proof.
  split; try done. apply Forall2_same_length_lookup. split; [done|].
  intros i x y Hx Hy. simplify_eq. by destruct x.
Qed.

Lemma switched_ext c f g c' : (forall x, 0 <= x -> f x = g x) -> switched c f c' -> switched c g c'.
Proof. intros Hfg []. split; try done. intros x Hx. by rewrite <- Hfg, dn_up0. Qed.

Lemma downed_refl c : downed c [] c.
Proof. apply switched_refl. intros x _. rewrite bool_decide_false by set_solver. by rewrite andb_true_r. Qed.

(** One server goes up or down, with the counter of the servers that are up. *)
Lemma switch_one c f c1 x b d :
  switched c f c1 -> 0 <= x < Z.of_nat (length (cache_servers c)) ->
  exists c2, set_availability b (reset_consistent_hash_mapping c1) x d = Ok c2 /\
    switched c (fun y => if y =? x then b else f y) c2 /\
    (avail_ok c1 -> Z.of_nat (length (cache_servers c)) <= MAX_N_SERVER ->
     is_up c1 x = negb b -> d = (if b then 1 else - 1) -> avail_ok c2).
Proof.
  intros D Hx. pose proof (Forall2_length _ _ _ (dn_servers _ _ _ D)) as Hl.
  unfold set_availability, reset_consistent_hash_mapping.
  change (cache_servers (set_mappings _ _ _ c1)) with (cache_servers c1).
  destruct (arr_get_Z (cache_servers c1) x) as (s & Hs & _); [lia|].
  rewrite (arr_upd_Z _ _ _ s) by (lia || done). cbn [rbind].
  eexists. split; [done|]. split.
  - destruct D. split; try done; cbn.
    + destruct (Forall2_lookup_r _ _ _ _ _ dn_servers0 Hs) as (s0 & Hs0 & E).
      rewrite <- (list_insert_id (cache_servers c) (Z.to_nat x) s0) by done.
      apply Forall2_insert; [done|]. rewrite E at 1. done.
    + intros y Hy. unfold is_up. cbn. destruct (Z.eqb_spec y x) as [->|Hne].
      * by rewrite list_lookup_insert_eq by (by eapply lookup_lt_Some).
      * rewrite list_lookup_insert_ne by lia. by apply dn_up0.
  - unfold avail_ok, MAX_N_SERVER, is_up. cbn. intros -> Hmax Hup ->. rewrite Hs in Hup.
    set (P := fun s : cacheServer => s_available s = true).
    pose proof (length_filter P (cache_servers c1)) as Hle. unfold u64, wrap.
    pose proof (take_drop_middle _ _ _ Hs) as Hmid.
    rewrite insert_take_drop by (by eapply lookup_lt_Some).
    rewrite <- Hmid in Hle at 1 |- * at 1. rewrite !filter_app, !length_app, !filter_cons in *.
    unfold P in *. cbn [s_available set_s_available] in *. rewrite Hup in *.
    destruct b; cbn [negb] in *; repeat case_decide; try done; cbn [length] in *;
      rewrite Z.mod_small by lia; lia.
Qed.

Lemma downed_step c fs c1 x :
  downed c fs c1 -> 0 <= x < Z.of_nat (length (cache_servers c)) ->
  exists c2, fail_one_server c1 x = Ok (false, c2) /\ downed c (fs ++ [x]) c2 /\
    (avail_ok c1 -> Z.of_nat (length (cache_servers c)) <= MAX_N_SERVER -> is_up c1 x = true -> avail_ok c2).
Proof.
  intros D Hx. destruct (switch_one c _ c1 x false (-1) D Hx) as (c2 & E & D2 & Hok).
  unfold fail_one_server. rewrite E. cbn [rbind]. exists c2. split; [done|]. split; [|auto].
  eapply switched_ext; [|exact D2]. intros y Hy. simpl.
  destruct (Z.eqb_spec y x) as [->|Hne].
  - rewrite bool_decide_true by set_solver. by rewrite andb_false_r.
  - do 2 f_equal. apply bool_decide_ext. set_solver.
Qed.

Lemma fail_all_spec fs c :
  Forall (fun x => 0 <= x < Z.of_nat (length (cache_servers c))) fs ->
  Z.of_nat (length (cache_servers c)) <= MAX_N_SERVER ->
  exists c', fail_all fs c = Ok c' /\ downed c fs c' /\
    (avail_ok c -> NoDup fs -> Forall (fun x => is_up c x = true) fs -> avail_ok c').
Proof.
  intros Hr Hmax. rewrite Forall_forall in Hr.
  destruct (rfold_inv (fun c i => let! '(_, c) := fail_one_server c (u32 i) in Ok c)
    (fun dn c1 => downed c dn c1 /\
       (avail_ok c -> NoDup fs -> Forall (fun x => is_up c x = true) fs -> avail_ok c1)) fs c)
    as (c' & E & D & Hok); [split; [by apply downed_refl|done]| |by exists c'].
  intros dn x c1 [rest ->] [D Hok].
  assert (0 <= x < Z.of_nat (length (cache_servers c))) as Hx by (apply Hr; set_solver).
  unfold MAX_N_SERVER in Hmax. rewrite u32_small by lia.
  destruct (downed_step c dn c1 x D Hx) as (c2 & -> & D2 & Hok2). exists c2. split; [done|].
  split; [done|]. intros Ha Hnd Hup. apply Hok2; [by apply Hok|done|].
  rewrite (dn_up _ _ _ D) by lia. apply NoDup_app in Hnd as (_ & Hnd & _).
  rewrite Forall_app, Forall_cons in Hup. destruct Hup as (_ & -> & _).
  rewrite bool_decide_false; [done|]. intros Hin. by destruct (Hnd x Hin); left.
Qed.

Lemma switched_rel hash m c f c' V : switched c f c' -> cl_rel hash m c V -> cl_rel hash m c' V.
Proof.
  intros D HR. apply Forall2_same_length_lookup.
  pose proof (Forall2_length _ _ _ (dn_servers _ _ _ D)) as Hl. split.
  - rewrite <- Hl. by eapply Forall2_length.
  - intros i s' v Hs' Hv. destruct (Forall2_lookup_r _ _ _ _ _ (dn_servers _ _ _ D) Hs') as (s & Hs & ->).
    destruct (Forall2_lookup_lr _ _ _ _ _ _ HR Hs Hv) as []. by split.
Qed.

(** The failed servers leave the list of every bucket, the others keep their order. *)
Lemma downed_candidates hash c fs c' vs b :
  downed c fs c' -> ring_ok (ring c) vs -> n_server (ring c) = Z.of_nat (length (cache_servers c)) ->
  0 < ec_n (ec_params c) <= MAX_EC_N ->
  bucket_candidates hash c' vs b = filter (fun x => x ∉ fs) (bucket_candidates hash c vs b).
Proof.
  intros D R Hs Hn. pose proof (Forall2_length _ _ _ (dn_servers _ _ _ D)) as Hl.
  rewrite !bucket_candidates_up; [|done|done|done|by rewrite (dn_ring _ _ _ D)|
    by rewrite (dn_ring _ _ _ D), <- Hl|by rewrite (dn_ec _ _ _ D)].
  rewrite list_filter_filter. set (l := firsts [] _).
  assert (forall x, x ∈ l -> 0 <= x) as Hpos.
  { intros x Hx. apply firsts_elem in Hx as [Hx _].
    pose proof (ring_ids_range R (bucket_start hash vs b)) as Hr. rewrite Forall_forall in Hr. by apply Hr. }
  clearbody l. induction l as [|x l IH]; [done|].
  rewrite !filter_cons, IH by (intros; apply Hpos; set_solver).
  assert ((is_up c' x = true) <-> (x ∉ fs /\ is_up c x = true)) as Hiff.
  { rewrite (dn_up _ _ _ D) by (apply Hpos; set_solver).
    rewrite andb_true_iff, negb_true_iff, bool_decide_eq_false. tauto. }
  repeat case_decide; naive_solver.
Qed.

Lemma filter_out_length (fs l : list Z) : NoDup l ->
  (length l <= length (filter (fun x => x ∉ fs) l) + length fs)%nat.
Proof.
  intros Hnd.
  assert (length (filter (fun x => x ∈ fs) l) <= length fs)%nat as Hin.
  { apply submseteq_length, NoDup_submseteq; [by apply NoDup_filter|].
    intros x Hx. by apply list_elem_of_filter in Hx as [? _]. }
  enough (length l = length (filter (fun x => x ∈ fs) l) + length (filter (fun x => x ∉ fs) l))%nat by lia.
  clear. induction l as [|x l IH]; [done|]. rewrite !filter_cons.
  destruct (decide (x ∈ fs)), (decide (x ∉ fs)); simpl; try tauto; lia.
Qed.

(** ** The update of the availability *)

Lemma switched_trans c f c1 g c2 : switched c f c1 -> switched c1 g c2 -> switched c g c2.
Proof.
  intros [] []. split; try congruence; [|done].
  clear -dn_servers0 dn_servers1. revert dn_servers1. generalize (cache_servers c2) as l3.
  induction dn_servers0 as [|s s' l l' E HS IH]; intros l3 H2.
  - inversion H2. constructor.
  - apply Forall2_cons_inv_l in H2 as (z & l2 & Ez & H2 & ->). constructor; [|by apply IH].
    rewrite Ez, E. done.
Qed.

Lemma recover_all_spec c :
  Z.of_nat (length (cache_servers c)) <= MAX_N_SERVER ->
  exists c', recover_all c = Ok c' /\
    switched c (fun x => bool_decide (x < Z.of_nat (length (cache_servers c)))) c' /\
    (avail_ok c -> avail_ok c').
Proof.
  intros Hmax. unfold recover_all. set (len := Z.of_nat (length (cache_servers c))) in *.
  destruct (rfold_seqZ (fun c i => let! '(_, c) := recover_one_server c i in Ok c)
    (fun i c1 => switched c (fun x => bool_decide (x < i) || is_up c x) c1 /\ (avail_ok c -> avail_ok c1))
    0 len c) as (c' & E & D & Hok); [lia| | |].
  - split; [|done]. apply switched_refl. intros x Hx. by rewrite bool_decide_false by lia.
  - intros i c1 Hi [D Hok]. pose proof (Forall2_length _ _ _ (dn_servers _ _ _ D)) as Hl.
    unfold recover_one_server.
    destruct (arr_get_Z (cache_servers c1) i) as (s & Hs & ->); [lia|]. cbn [rbind].
    assert (is_up c1 i = s_available s) as Hup by (unfold is_up; by rewrite Hs).
    unfold is_available. destruct (s_available s) eqn:Hav.
    + exists c1. split; [done|]. split; [|done]. eapply switched_ext; [|exact D]. intros x Hx. simpl.
      destruct (decide (x = i)) as [->|]; [|f_equal; apply bool_decide_ext; lia].
      rewrite (dn_up _ _ _ D) in Hup by lia. rewrite Hup. by rewrite bool_decide_true by lia.
    + destruct (switch_one c _ c1 i true 1 D ltac:(lia)) as (c2 & E & D2 & Hok2). rewrite E. cbn [rbind].
      exists c2. split; [done|]. split; [|intros Ha; apply Hok2; auto].
      eapply switched_ext; [|exact D2]. intros x Hx. simpl. destruct (Z.eqb_spec x i) as [->|].
      * by rewrite bool_decide_true by lia.
      * f_equal. apply bool_decide_ext. lia.
  - exists c'. split; [done|]. split; [|done]. eapply switched_ext; [|exact D]. intros x Hx. simpl.
    destruct (decide (x < len)); [by rewrite !bool_decide_true by lia|].
    rewrite !bool_decide_false by lia. unfold is_up.
    by rewrite lookup_ge_None_2 by lia.
Qed.

Lemma firsts_complete ids : forall seen x, x ∈ ids -> x ∉ seen -> x ∈ firsts seen ids.
Proof.
  induction ids as [|y ids IH]; intros seen x Hx Hs; [by apply not_elem_of_nil in Hx|].
  cbn [firsts]. apply elem_of_cons in Hx as [->|Hx].
  - rewrite bool_decide_false by done. by left.
  - case_bool_decide; [by apply IH|]. destruct (decide (x = y)) as [->|]; [by left|right].
    apply IH; [done|set_solver].
Qed.

(** the servers in ring order from a vnode, when each owns a vnode *)
Lemma ring_order_all ring vs start :
  ring_ok ring vs -> (forall s, 0 <= s < n_server ring -> s ∈ server_id <$> vs) ->
  firsts [] (ring_ids start vs) ≡ₚ seqZ 0 (n_server ring).
Proof.
  intros R Hall. apply NoDup_Permutation; [apply firsts_nodup|apply NoDup_seqZ|]. intros s.
  rewrite elem_of_seqZ. split.
  - intros [Hs _]%firsts_elem. pose proof (ring_ids_range R start) as Hr.
    rewrite Forall_forall in Hr. specialize (Hr s Hs). lia.
  - intros Hs. apply firsts_complete; [|apply not_elem_of_nil]. unfold ring_ids.
    rewrite (Permutation_app_comm (drop start vs)), take_drop. apply Hall. lia.
Qed.

(** ** What the remaining servers hold *)

Lemma on_take V id idxs n : 0 <= n <= Z.of_nat (length idxs) ->
  on V id idxs <$> seqZ 0 n = held_at V id <$> take (Z.to_nat n) idxs.
Proof.
  intros Hn. apply list_eq_same_length with (n := Z.to_nat n).
  - rewrite length_fmap, length_take. lia.
  - by rewrite length_fmap, length_seqZ.
  - intros i x y Hi Hx Hy. rewrite list_lookup_fmap in Hx, Hy.
    rewrite lookup_seqZ_lt in Hx by lia. rewrite lookup_take_lt in Hy by done.
    cbn [fmap option_fmap option_map] in Hx. injection Hx as <-. unfold on.
    replace (Z.to_nat (0 + Z.of_nat i)) with i by lia.
    destruct (idxs !! i) as [z|]; [|done]. simpl in *. congruence.
Qed.

(** At most as many chunks are missing as servers have failed. *)
Lemma distinct_after n V id (idxs idxs' fs : list Z) :
  0 <= n <= Z.of_nat (length idxs) -> n <= Z.of_nat (length idxs') ->
  NoDup (take (Z.to_nat n) idxs) ->
  on V id idxs <$> seqZ 0 n ≡ₚ Some <$> seqZ 0 n ->
  filter (fun x => x ∉ fs) (take (Z.to_nat n) idxs) ⊆ take (Z.to_nat n) idxs' ->
  n - Z.of_nat (length fs) <= Z.of_nat (length (distinct n V id idxs')).
Proof.
  intros Hn Hn' Hnd HP Hsub. rewrite on_take in HP by done.
  pose proof (filter_out_length fs _ Hnd) as Hl. rewrite length_take in Hl.
  set (A := filter _ _) in *.
  assert (NoDup (held_at V id <$> A)) as HndA.
  { apply (sublist_NoDup _ (held_at V id <$> take (Z.to_nat n) idxs)).
    - rewrite HP. apply NoDup_fmap_2; [by intros ?? [=]|apply NoDup_seqZ].
    - apply fmap_sublist, sublist_filter. }
  assert (length (held_at V id <$> A) <= length (distinct n V id idxs'))%nat as Hle.
  { rewrite <- (length_fmap Some (distinct n V id idxs')).
    apply submseteq_length, NoDup_submseteq; [done|]. intros h Hh.
    apply list_elem_of_fmap in Hh as (x & -> & Hx).
    assert (held_at V id x ∈ held_at V id <$> take (Z.to_nat n) idxs) as Hq.
    { apply list_elem_of_fmap_2. by apply list_elem_of_filter in Hx as [_ ?]. }
    rewrite HP in Hq. apply list_elem_of_fmap in Hq as (q & Eq & Hq). rewrite Eq.
    apply list_elem_of_fmap_2, list_elem_of_filter. split; [|done].
    rewrite on_take, <- Eq by lia. apply list_elem_of_fmap_2. by apply Hsub. }
  rewrite length_fmap in Hle. lia.
Qed.

(** The servers that remain of the first n of a list are among the first n that remain. *)
Lemma filter_take_subseteq (P : Z -> Prop) `{!forall x, Decision (P x)} m (l : list Z) :
  filter P (take m l) ⊆ take m (filter P l).
Proof.
  intros x Hx. rewrite <- (take_drop m l), filter_app at 1.
  rewrite take_app_ge.
  - apply elem_of_app. by left.
  - etrans; [apply length_filter|]. rewrite length_take. lia.
Qed.

(** ** A request to a mapped cluster *)

(** What a request for a large object needs of the cluster, whatever its bucket. *)
Record object_request (hash : Z -> Z) (m : Z) (c : cacheCluster) (V : list view) (n k sz : Z)
    (r : request) : Prop := {
  or_n : ec_n (ec_params c) = n;
  or_k : ec_k (ec_params c) = k;
  or_kn : 0 < k <= n;
  or_max_n : n <= MAX_EC_N;
  or_max : Z.of_nat (length (cache_servers c)) <= MAX_N_SERVER;
  or_params : cp_n_server (cluster_params c) = Z.of_nat (length (cache_servers c));
  or_size : chunk_size (ec_params c) (req_obj_size r) = Ok sz;
  or_sz : 0 < sz < 2 ^ 32;
  or_cap : Forall (fun v => sz <= v_cap v) V;
  or_rel : cl_rel hash m c V;
  or_hv : hv_ok hash r;
  or_rload : length (read_load_byte c) = length (cache_servers c);
  or_wload : length (write_load_byte c) = length (cache_servers c);
  or_n_miss : Z.of_nat (length (n_miss (cluster_stat c))) = n;
  or_bucket : 0 <= original_server r < Z.of_nat (length (bucket_stat c))
}.

Lemma object_request_downed hash m c V n k sz r fs c' :
  object_request hash m c V n k sz r -> downed c fs c' -> object_request hash m c' V n k sz r.
Proof.
  intros [] D. pose proof (Forall2_length _ _ _ (dn_servers _ _ _ D)) as Hl.
  pose proof (switched_rel _ _ _ _ _ _ D or_rel0) as HR.
  destruct D as [Hp He _ _ Hb Hrl Hwl Hm _ _ _ _ _ _].
  split; rewrite <- ?Hl, ?Hp, ?He, ?Hb, ?Hrl, ?Hwl, ?Hm; done.
Qed.

Lemma bucket_chunk_request hash m c V n k sz r vs b c' :
  mappable hash c vs -> 0 <= b < N_BUCKET -> mapping_to hash c vs N_BUCKET c' ->
  object_request hash m c V n k sz r ->
  chunk_request hash m c' V n k sz (bucket_servers hash c vs b) r.
Proof.
  intros M Hb [-> _ _ _] []. destruct (bucket_servers_spec hash c vs b M Hb) as (Hnd & Hlen & Hall).
  assert (Forall (fun s => 0 <= s < Z.of_nat (length (cache_servers c)) /\
             avail (Some (initial_capacity c)) s = true) (take (Z.to_nat n) (bucket_servers hash c vs b)))
    as Htake by (by apply Forall_take).
  split; try done; [|cbn; unfold MAX_N_SERVER in *; lia]. split; try done; cbn.
  - lia.
  - rewrite Hlen. unfold MAX_N_UNAVAIL. lia.
  - by eapply sublist_NoDup, sublist_take.
  - eapply Forall_impl; [exact Htake|]. intros s [Hs Ha]. split; [lia|].
    rewrite avail_is_up in Ha; [done|apply (mp_ec _ _ _ M)|done].
  - eapply Forall_impl; [exact Htake|]. intros s [Hs _]. simpl. lia.
Qed.

(** The first n servers of a bucket after some servers have failed. *)
Lemma downed_bucket_servers hash c fs c' vs b n :
  mappable hash c vs -> downed c fs c' -> ec_n (ec_params c) = n -> 0 <= b < N_BUCKET ->
  filter (fun x => x ∉ fs) (take (Z.to_nat n) (bucket_servers hash c vs b)) ⊆
    take (Z.to_nat n) (bucket_servers hash c' vs b) /\
  Forall (fun x => x ∉ fs) (bucket_servers hash c' vs b).
Proof.
  intros M D Hn Hb. unfold bucket_servers. rewrite (dn_ec _ _ _ D), Hn.
  rewrite (downed_candidates hash c fs c' vs b D (mp_ring _ _ _ M) (mp_servers _ _ _ M) (mp_ec _ _ _ M)).
  rewrite !take_take. replace (Z.to_nat n `min` Z.to_nat (n + MAX_N_UNAVAIL))%nat with (Z.to_nat n)
    by (pose proof (mp_ec _ _ _ M); unfold MAX_N_UNAVAIL; lia). split.
  - apply filter_take_subseteq.
  - apply Forall_take, Forall_forall. intros x Hx. by apply list_elem_of_filter in Hx as [? _].
Qed.

Lemma mappable_downed hash c vs (fs : list Z) c1 :
  mappable hash c vs -> downed c fs c1 ->
  (forall b, 0 <= b < N_BUCKET -> ec_n (ec_params c) + MAX_N_UNAVAIL + Z.of_nat (length fs) <=
     Z.of_nat (length (bucket_candidates hash c vs b))) ->
  mappable hash c1 vs.
Proof.
  intros [HR Hsmall Hs Hp Hec _] D Henough. pose proof (Forall2_length _ _ _ (dn_servers _ _ _ D)) as Hl.
  split; rewrite <- ?Hl, ?(dn_ring _ _ _ D), ?(dn_params _ _ _ D), ?(dn_ec _ _ _ D); try done.
  intros b Hb. rewrite (downed_candidates hash c fs c1 vs b D HR Hs Hec).
  pose proof (filter_out_length fs _
    (candidates_nodup (Some (initial_capacity c)) (bucket_start hash vs b) vs)) as Hf.
  specialize (Henough b Hb). unfold bucket_candidates in *. lia.
Qed.

(** An object with all its chunks has at least k of them on the servers its bucket gets
    after at most n - k failures. *)
Lemma enough_chunks_left hash c V vs n id b fs c1 :
  mappable hash c vs -> mappable hash c1 vs -> downed c fs c1 -> ec_n (ec_params c) = n ->
  0 <= b < N_BUCKET -> on V id (bucket_servers hash c vs b) <$> seqZ 0 n ≡ₚ Some <$> seqZ 0 n ->
  n - Z.of_nat (length fs) <= Z.of_nat (length (distinct n V id (bucket_servers hash c1 vs b))).
Proof.
  intros M M1 D Hn Hb Hcomplete. pose proof (mp_ec _ _ _ M) as Hec.
  destruct (downed_bucket_servers hash c fs c1 vs b n M D Hn Hb) as [Hsub _].
  destruct (bucket_servers_spec hash c vs b M Hb) as (Hnd0 & Hlen0 & _).
  destruct (bucket_servers_spec hash c1 vs b M1 Hb) as (Hnd1 & Hlen1 & _).
  rewrite (dn_ec _ _ _ D), Hn in Hlen1. rewrite Hn in Hlen0, Hec. unfold MAX_N_UNAVAIL in *.
  apply (distinct_after n V id (bucket_servers hash c vs b)); [lia|lia| |done|done].
  by eapply sublist_NoDup, sublist_take.
Qed.

(** C8.  The n + 2 servers of each bucket, without the rebalancing of parity chunks (-b) and when
    every bucket has at least n + 2 candidate servers up (with fewer the program aborts):
    populate_hash_mapping succeeds, for 0 < n <= MAX_EC_N and a ring of fewer than 2^30 vnodes, and
    gives every bucket the first n + 2 servers that are up, each once, in ring order from the
    bucket's point, independently of the other buckets; the original lead server of a bucket is the
    owner of its first vnode, up or not. get_consistent_hash_mapping finds them. *)
Theorem populate_hash_mapping_spec hash max_flow c vs :
  mappable hash c vs -> cp_parity_rebalance (cluster_params c) = false ->
  exists c', populate_hash_mapping hash max_flow c = Ok c' /\
    cache_servers c' = cache_servers c /\ prev_ch_mapping c' = prev_ch_mapping c /\
    forall b, 0 <= b < N_BUCKET -> exists servers lead,
      vs !! bucket_start hash vs b = Some lead /\
      get_consistent_hash_mapping c' b = Ok (servers, server_id lead) /\
      servers = take (Z.to_nat (ec_n (ec_params c) + MAX_N_UNAVAIL))
        (filter (fun s => is_up c s = true) (firsts [] (ring_ids (bucket_start hash vs b) vs))) /\
      NoDup servers /\ Z.of_nat (length servers) = ec_n (ec_params c) + MAX_N_UNAVAIL.
Proof.
  intros M Hpar. destruct (populate_mapped hash max_flow c vs M Hpar) as (c' & E & [Er Hnb Hm Hl]).
  exists c'. split_and!; [done|by rewrite Er|by rewrite Er|]. intros b Hb.
  destruct (Hl b Hb) as (v & Hv & Hlead).
  destruct (bucket_servers_spec hash c vs b M Hb) as (Hnd & Hlen & _).
  exists (bucket_servers hash c vs b), v. split_and!; [done| | |done|done].
  - unfold get_consistent_hash_mapping. unfold N_BUCKET in *. rewrite u32_small by lia.
    by rewrite (Hm b Hb), Hlead.
  - unfold bucket_servers.
    by rewrite (bucket_candidates_up hash c vs b (mp_ring _ _ _ M) (mp_servers _ _ _ M) (mp_ec _ _ _ M)).
Qed.

(** What the thread does when the failure file names other servers than before. *)
Definition ring_order (hash : Z -> Z) (vs : list vnode_t) (b : Z) : list Z :=
  firsts [] (ring_ids (bucket_start hash vs b) vs).

Lemma up_servers_candidates hash c vs b (fs : list Z) :
  ring_ok (ring c) vs -> n_server (ring c) = Z.of_nat (length (cache_servers c)) ->
  0 < ec_n (ec_params c) <= MAX_EC_N ->
  (forall x, 0 <= x -> is_up c x = bool_decide (x < Z.of_nat (length (cache_servers c))) &&
                                   negb (bool_decide (x ∈ fs))) ->
  bucket_candidates hash c vs b = filter (fun x => x ∉ fs) (ring_order hash vs b).
Proof.
  intros R Hs Hec Hup. rewrite bucket_candidates_up by done. fold (ring_order hash vs b).
  apply filter_same. intros x Hx. apply firsts_elem in Hx as [Hx _].
  pose proof (ring_ids_range R (bucket_start hash vs b)) as Hr. rewrite Forall_forall in Hr.
  specialize (Hr x Hx). simpl in Hr. rewrite Hup by lia. rewrite bool_decide_true by lia.
  rewrite andb_true_l, negb_true_iff, bool_decide_eq_false. done.
Qed.

Lemma update_servers_up fs c :
  Z.of_nat (length (cache_servers c)) <= MAX_N_SERVER -> avail_ok c -> NoDup fs ->
  Forall (fun x => 0 <= x < Z.of_nat (length (cache_servers c))) fs ->
  exists c1 c2, recover_all c = Ok c1 /\ fail_all fs c1 = Ok c2 /\ avail_ok c2 /\
    switched c (fun x => bool_decide (x < Z.of_nat (length (cache_servers c))) &&
                         negb (bool_decide (x ∈ fs))) c2.
Proof.
  intros Hmax Hok Hnd Hfs. destruct (recover_all_spec c Hmax) as (c1 & E1 & D1 & Hok1).
  pose proof (Forall2_length _ _ _ (dn_servers _ _ _ D1)) as Hl.
  destruct (fail_all_spec fs c1) as (c2 & E2 & D2 & Hok2); [by rewrite <- Hl|by rewrite <- Hl|].
  exists c1, c2. split_and!; [done|done| |].
  - apply Hok2; [by apply Hok1|done|]. eapply Forall_impl; [exact Hfs|]. intros x Hx. simpl in Hx.
    rewrite (dn_up _ _ _ D1) by lia. by rewrite bool_decide_true by lia.
  - eapply switched_ext; [|eapply switched_trans; [exact D1|exact D2]].
    intros x Hx. simpl. by rewrite (dn_up _ _ _ D1).
Qed.

(** Every server owns a vnode of a full ring, and there are enough servers. *)
Record on_ring (vs : list vnode_t) (c : cacheCluster) : Prop := {
  og_ring : ring_ok (ring c) vs;
  og_search : n_point (ring c) < 2 ^ 30;
  og_n : n_server (ring c) = Z.of_nat (length (cache_servers c));
  og_all s : 0 <= s < n_server (ring c) -> s ∈ server_id <$> vs;
  og_servers : cp_n_server (cluster_params c) = Z.of_nat (length (cache_servers c));
  og_parity : cp_parity_rebalance (cluster_params c) = false;
  og_ec : 0 < ec_n (ec_params c) <= MAX_EC_N;
  og_max : Z.of_nat (length (cache_servers c)) <= MAX_N_SERVER
}.

(** A line of the failure file: different servers, and enough others. *)
Record line_ok (c : cacheCluster) (fs : list Z) : Prop := {
  lo_nodup : NoDup fs;
  lo_range : Forall (fun x => 0 <= x < Z.of_nat (length (cache_servers c))) fs;
  lo_enough : ec_n (ec_params c) + MAX_N_UNAVAIL + Z.of_nat (length fs) <= Z.of_nat (length (cache_servers c))
}.

(** the servers of a bucket when [fs] are down *)
Definition remaining (hash : Z -> Z) (c : cacheCluster) (vs : list vnode_t) (fs : list Z) (b : Z) : list Z :=
  take (Z.to_nat (ec_n (ec_params c) + MAX_N_UNAVAIL)) (filter (fun x => x ∉ fs) (ring_order hash vs b)).

Lemma update_servers_mapped hash max_flow c vs fs :
  on_ring vs c -> line_ok c fs -> avail_ok c ->
  exists c2 c3, update_servers hash max_flow fs c = Ok c3 /\
    switched c (fun x => bool_decide (x < Z.of_nat (length (cache_servers c))) &&
                         negb (bool_decide (x ∈ fs))) c2 /\ avail_ok c2 /\
    mappable hash c2 vs /\ mapping_to hash c2 vs N_BUCKET c3 /\
    forall b, bucket_servers hash c2 vs b = remaining hash c vs fs b.
Proof.
  intros [R Hsmall Hs Hall Hcp Hpar Hec Hmax] [Hnd Hfs Hlen] Hok.
  destruct (update_servers_up fs c Hmax Hok Hnd Hfs) as (c1 & c2 & E1 & E2 & Hok2 & D).
  pose proof (Forall2_length _ _ _ (dn_servers _ _ _ D)) as Hl.
  assert (forall b, bucket_candidates hash c2 vs b = filter (fun x => x ∉ fs) (ring_order hash vs b)) as Hcand.
  { intros b. apply up_servers_candidates; rewrite <- ?Hl, ?(dn_ring _ _ _ D), ?(dn_ec _ _ _ D); try done.
    apply (dn_up _ _ _ D). }
  assert (mappable hash c2 vs) as M.
  { split; rewrite <- ?Hl, ?(dn_ring _ _ _ D), ?(dn_ec _ _ _ D), ?(dn_params _ _ _ D); try done.
    intros b _. rewrite Hcand. pose proof (filter_out_length fs (ring_order hash vs b)) as Hf.
    pose proof (Permutation_length (ring_order_all _ vs (bucket_start hash vs b) R Hall)) as Ho.
    rewrite length_seqZ, Hs in Ho. specialize (Hf (firsts_nodup _ _)). unfold ring_order in *. lia. }
  destruct (populate_mapped hash max_flow c2 vs M) as (c3 & E3 & T); [by rewrite (dn_params _ _ _ D)|].
  exists c2, c3. split_and!; try done.
  - unfold update_servers. by rewrite E1; cbn [rbind]; rewrite E2.
  - intros b. unfold bucket_servers, remaining. by rewrite Hcand, (dn_ec _ _ _ D).
Qed.

(** C19.  A change of availability, without the rebalancing of parity chunks (-b), for a line of the
    failure file that names different servers of the cluster and leaves at least n + 2 of them up,
    where every server (128 at most) owns a vnode of a ring of fewer than 2^30: it leaves exactly
    the named servers down, counts the others, keeps what the caches hold, and maps every bucket to
    the first n + 2 of the servers that are up, in the ring order of the bucket: the mapping does
    not depend on which servers were down before. *)
Theorem update_servers_spec hash max_flow c vs fs :
  on_ring vs c -> line_ok c fs -> avail_ok c ->
  exists c', update_servers hash max_flow fs c = Ok c' /\ avail_ok c' /\
    (forall x, 0 <= x < Z.of_nat (length (cache_servers c)) -> is_up c' x = negb (bool_decide (x ∈ fs))) /\
    (forall m V, cl_rel hash m c V -> cl_rel hash m c' V) /\
    forall b, 0 <= b < N_BUCKET -> ch_mapping c' !! b = Some (remaining hash c vs fs b).
Proof.
  intros G L Hok. destruct (update_servers_mapped hash max_flow c vs fs G L Hok)
    as (c2 & c3 & E & D & Hok2 & _ & [Er _ Hmap _] & Hb). exists c3. split_and!; [done|by rewrite Er| | |].
  - intros x Hx. rewrite Er. change (is_up c2 x = negb (bool_decide (x ∈ fs))).
    rewrite (dn_up _ _ _ D) by lia. by rewrite bool_decide_true by lia.
  - intros m V HR. rewrite Er. eapply cl_rel_same; [reflexivity|]. exact (switched_rel _ _ _ _ _ _ D HR).
  - intros b Hb'. by rewrite (Hmap b Hb'), Hb.
Qed.

(** An object survives the failure of up to n - k servers.  When its n chunks are on the n
    servers of its bucket, some servers fail and the buckets are mapped again, then the
    next request for the object is a hit, nothing is fetched from the origin, and
    afterwards the new n servers of the bucket, none of them a failed one, hold the n
    chunks. *)
Theorem object_survives_failures hash max_flow m c V vs n k sz r b fs :
  let id := req_obj_id_int r in
  mappable hash c vs -> cp_parity_rebalance (cluster_params c) = false -> 0 <= b < N_BUCKET ->
  0 <= m -> object_request hash (m + 5 * n + 2 * Z.of_nat (length (cache_servers c))) c V n k sz r ->
  (forall x q, 0 <= x -> held_at V id x = Some q -> 0 <= q < n) ->
  on V id (bucket_servers hash c vs b) <$> seqZ 0 n ≡ₚ Some <$> seqZ 0 n ->
  Forall (fun x => 0 <= x < Z.of_nat (length (cache_servers c))) fs ->
  Z.of_nat (length fs) <= n - k ->
  (forall b, 0 <= b < N_BUCKET -> n + MAX_N_UNAVAIL + Z.of_nat (length fs) <=
     Z.of_nat (length (bucket_candidates hash c vs b))) ->
  ch_n_chunk_hit (cluster_check c) = 0 ->
  exists c1 c2 idxs c3 r' V',
    fail_all fs c = Ok c1 /\ populate_hash_mapping hash max_flow c1 = Ok c2 /\
    ch_mapping c2 !! b = Some idxs /\ Forall (fun x => x ∉ fs) idxs /\
    cache_hit_chunk_obj hash c2 r idxs = Ok (c3, r') /\ ch_is_hit (cluster_check c3) = true /\
    midgress_bytes (cluster_stat c3) = midgress_bytes (cluster_stat c) /\
    chunk_request hash m c3 V' n k sz idxs r' /\ on V' id idxs <$> seqZ 0 n ≡ₚ Some <$> seqZ 0 n.
Proof.
  intros id M Hpar Hb Hm OR Hids Hcomplete Hfs Hlen Henough Hck.
  pose proof (mp_ec _ _ _ M) as Hn. rewrite (or_n _ _ _ _ _ _ _ _ OR) in Hn.
  destruct (fail_all_spec fs c Hfs (or_max _ _ _ _ _ _ _ _ OR)) as (c1 & E1 & D & _).
  pose proof (Forall2_length _ _ _ (dn_servers _ _ _ D)) as Hl.
  assert (mappable hash c1 vs) as M1
    by (by eapply mappable_downed; [done..|]; rewrite (or_n _ _ _ _ _ _ _ _ OR)).
  destruct (populate_mapped hash max_flow c1 vs M1) as (c2 & E2 & T); [by rewrite (dn_params _ _ _ D)|].
  pose proof (object_request_downed _ _ _ _ _ _ _ _ _ _ OR D) as OR1.
  pose proof (bucket_chunk_request _ _ _ _ _ _ _ _ _ _ _ M1 Hb T OR1) as CR.
  destruct (downed_bucket_servers hash c fs c1 vs b n M D (or_n _ _ _ _ _ _ _ _ OR) Hb) as [Hsub Hout].
  set (idxs := bucket_servers hash c1 vs b) in *.
  pose proof (enough_chunks_left hash c V vs n id b fs c1 M M1 D (or_n _ _ _ _ _ _ _ _ OR) Hb Hcomplete) as Hd'.
  fold idxs in Hd'. assert (k <= Z.of_nat (length (distinct n V id idxs))) as Hd by lia.
  pose proof (or_kn _ _ _ _ _ _ _ _ OR) as Hk.
  destruct T as [Er _ Hmap _].
  destruct (cache_hit_chunk_obj_spec hash m c2 V n k sz idxs r) as
    (c3 & r' & V' & E3 & HR3 & _ & _ & _ & HF & _ & _ & _ & Hhit & _ & _ & Hmid); [done| | |fold id; lia| |by left|].
  - rewrite Er at 1. cbn [cache_servers set_n_bucket set_mappings]. by rewrite <- Hl.
  - intros p q Hp Hq. unfold on in Hq. destruct (idxs !! Z.to_nat p) as [x|] eqn:Hx; [|done].
    simpl in Hq. apply (Hids x q); [|done].
    destruct (placed_slot (cr_placed _ _ _ _ _ _ _ _ _ CR) _ p (cr_rel _ _ _ _ _ _ _ _ _ CR) Hp)
      as (y & _ & Hy & _ & _ & Hyr & _). rewrite Hx in Hy. injection Hy as <-. lia.
  - rewrite Er. cbn. by rewrite (dn_check _ _ _ D).
  - exists c1, c2, idxs, c3, r', V'. fold id in Hhit, Hmid. rewrite (proj2 (Z.leb_le _ _) Hd) in Hhit, Hmid.
    rewrite orb_true_r in Hhit. split_and!; try done.
    + by apply Hmap.
    + rewrite Hmid, Er. cbn. apply (dn_midgress _ _ _ D).
Qed.

(** ** The cluster of six servers *)

Lemma initial_capacity_kept c c' : cl_kept c c' -> initial_capacity c' = initial_capacity c.
Proof.
  intros HK. unfold initial_capacity. rewrite (kp_ec _ _ HK).
  pose proof (kp_servers _ _ HK) as HS. revert HS. generalize (cache_servers c) (cache_servers c').
  intros l l' HS. induction HS as [|s s' l l' (_ & _ & Ha) HS IH]; [done|].
  rewrite !fmap_cons, IH. unfold is_available. by rewrite Ha.
Qed.

Lemma bucket_servers_kept hash c c' vs b :
  cl_kept c c' -> bucket_servers hash c' vs b = bucket_servers hash c vs b.
Proof.
  intros HK. unfold bucket_servers, bucket_candidates.
  by rewrite (kp_ec _ _ HK), (initial_capacity_kept _ _ HK).
Qed.

Lemma mappable_kept hash c c' vs : cl_kept c c' -> mappable hash c vs -> mappable hash c' vs.
Proof.
  intros HK [HR Hsmall Hs Hp Hec He]. pose proof (Forall2_length _ _ _ (kp_servers _ _ HK)) as Hl.
  split; rewrite <- ?Hl, ?(kp_ring _ _ HK), ?(kp_params _ _ HK), ?(kp_ec _ _ HK); try done.
  intros b Hb. unfold bucket_candidates. rewrite (initial_capacity_kept _ _ HK). by apply He.
Qed.

Lemma chunk_object_request hash m c V n k sz idxs r :
  chunk_request hash m c V n k sz idxs r ->
  cp_n_server (cluster_params c) = Z.of_nat (length (cache_servers c)) ->
  object_request hash m c V n k sz r.
Proof. intros [[] ] Hp. split; try done. lia. Qed.

Lemma demo_ring_ok : ring_ok (Ring 6 6 (Some <$> demo_vnodes)) demo_vnodes.
Proof.
  split; [done|done|simpl; lia| |repeat constructor; simpl; lia|repeat constructor; simpl; lia].
  repeat constructor; unfold point_le; simpl; lia.
Qed.

Lemma demo_capacity mode : initial_capacity (demo_cluster mode) = replicate 6 300.
Proof. reflexivity. Qed.

(** all six servers, from the bucket's on *)
Lemma demo_candidates mode b : 0 <= b < N_BUCKET ->
  length (bucket_candidates (fun x => x) (demo_cluster mode) demo_vnodes b) = 6%nat.
Proof.
  intros Hb. unfold bucket_candidates. rewrite demo_capacity.
  assert (forallb (fun b => Nat.eqb (length (candidates (Some (replicate 6 300))
            (bucket_start (fun x => x) demo_vnodes b) demo_vnodes)) 6) (seqZ 0 N_BUCKET) = true)
    as Hall by (vm_compute; reflexivity).
  rewrite forallb_forall in Hall. apply Nat.eqb_eq, Hall, list_elem_of_In, elem_of_seqZ. lia.
Qed.

Lemma demo_mappable mode : mappable (fun x => x) (demo_cluster mode) demo_vnodes.
Proof.
  split; [apply demo_ring_ok|reflexivity|reflexivity|reflexivity|unfold MAX_EC_N; simpl; lia|].
  intros b Hb. rewrite demo_candidates by done. unfold MAX_N_UNAVAIL. simpl. lia.
Qed.

Lemma populate_hash_mapping_spec_witness :
  exists c', populate_hash_mapping (fun x => x) (fun _ => []) (demo_cluster C2DN) = Ok c' /\
    get_consistent_hash_mapping c' 35 = Ok ([4; 5; 0; 1; 2], 4) /\
    get_consistent_hash_mapping c' 60 = Ok ([0; 1; 2; 3; 4], 0).
Proof.
  destruct (populate_hash_mapping_spec (fun x => x) (fun _ => []) (demo_cluster C2DN) demo_vnodes)
    as (c' & E & _ & _ & H); [apply demo_mappable|reflexivity|].
  exists c'. split; [exact E|].
  destruct (H 35) as (s1 & l1 & Hl1 & -> & -> & _); [unfold N_BUCKET; lia|].
  destruct (H 60) as (s2 & l2 & Hl2 & -> & -> & _); [unfold N_BUCKET; lia|].
  vm_compute in Hl1, Hl2. injection Hl1 as <-. injection Hl2 as <-. split; vm_compute; reflexivity.
Defined.

(** the chunks the six servers hold *)
Lemma demo_held V :
  agree_off 3 [4; 5; 0; 1; 2] demo_views V ->
  (forall p, 0 <= p < 3 -> on V 7 [4; 5; 0; 1; 2] p = Some p) ->
  forall x q, 0 <= x -> held_at V 7 x = Some q -> 0 <= q < 3.
Proof.
  intros Hoff Hon x q Hx Hq.
  pose proof (Hon 0 ltac:(lia)) as H0. pose proof (Hon 1 ltac:(lia)) as H1.
  pose proof (Hon 2 ltac:(lia)) as H2. unfold on in H0, H1, H2. simpl in H0, H1, H2.
  destruct (decide (x ∈ [4; 5; 0])) as [Hin|Hout].
  - rewrite !elem_of_cons, elem_of_nil in Hin. destruct Hin as [->|[->|[->|[]]]]; simplify_eq; lia.
  - unfold held_at in Hq. rewrite Hoff in Hq by (rewrite Z2Nat.id by done; exact Hout).
    destruct (demo_views !! Z.to_nat x) as [v|] eqn:Hv; [|done].
    by apply lookup_replicate in Hv as [-> _].
Qed.

(** server 5, which has chunk 1, fails *)
Lemma object_survives_failures_witness :
  exists c r c1 c2 c3 r' V',
    cache_miss_chunk_obj (fun x => x) (demo_cluster C2DN_add_n) demo_request [4; 5; 0; 1; 2] = Ok (c, r) /\
    fail_all [5] c = Ok c1 /\ populate_hash_mapping (fun x => x) (fun _ => []) c1 = Ok c2 /\
    (exists idxs, ch_mapping c2 !! 35 = Some idxs /\ Forall (fun x => x ∉ [5]) idxs /\
       cache_hit_chunk_obj (fun x => x) c2 r idxs = Ok (c3, r') /\
       on V' 7 idxs <$> [0; 1; 2] ≡ₚ [Some 0; Some 1; Some 2]) /\
    ch_is_hit (cluster_check c3) = true /\ midgress_bytes (cluster_stat c3) = midgress_bytes (cluster_stat c).
Proof.
  destruct (demo_stored C2DN_add_n 100) as (c & r & V & E & HC & HK & Hck & Hid & Hoff & Hon); [lia|].
  assert (length (cache_servers c) = 6%nat) as Hlen
    by (rewrite <- (Forall2_length _ _ _ (kp_servers _ _ HK)); apply length_fmap).
  assert (bucket_servers (fun x => x) c demo_vnodes 35 = [4; 5; 0; 1; 2]) as Hidxs
    by (rewrite (bucket_servers_kept _ _ _ _ _ HK); vm_compute; reflexivity).
  assert (forall p, 0 <= p < 3 -> on V 7 [4; 5; 0; 1; 2] p = Some p) as Hon'.
  { intros p Hp. rewrite Hon by lia. change (written (demo_cluster C2DN_add_n)) with 3.
    by rewrite (proj2 (Z.ltb_lt p 3)) by lia. }
  assert (cp_n_server (cluster_params c) = 6) as Hcp by (rewrite (kp_params _ _ HK); reflexivity).
  destruct (object_survives_failures (fun x => x) (fun _ => []) 0 c V demo_vnodes 3 2 500 r 35 [5])
    as (c1 & c2 & idxs & c3 & r' & V' & E1 & E2 & Hm & Hout & E3 & Hhit & Hmid & _ & HF).
  - apply (mappable_kept _ _ _ _ HK), demo_mappable.
  - rewrite (kp_params _ _ HK). reflexivity.
  - unfold N_BUCKET. lia.
  - lia.
  - rewrite Hlen. apply (chunk_object_request _ _ _ _ _ _ _ [4; 5; 0; 1; 2]); [|rewrite Hlen; exact Hcp].
    eapply chunk_request_le; [|exact HC]. lia.
  - rewrite Hid. exact (demo_held V Hoff Hon').
  - rewrite Hid, Hidxs. change (seqZ 0 3) with [0; 1; 2]. cbn [fmap list_fmap].
    rewrite !Hon' by lia. reflexivity.
  - rewrite Hlen. repeat constructor; lia.
  - simpl. lia.
  - intros b Hb. unfold bucket_candidates. rewrite (initial_capacity_kept _ _ HK).
    pose proof (demo_candidates C2DN_add_n b Hb) as Hl. unfold bucket_candidates in Hl. rewrite Hl.
    unfold MAX_N_UNAVAIL. simpl. lia.
  - rewrite Hck. reflexivity.
  - rewrite Hid in HF. exists c, r, c1, c2, c3, r', V'. split; [exact E|]. split; [exact E1|].
    split; [exact E2|]. split; [|split; [exact Hhit|exact Hmid]].
    exists idxs. split; [exact Hm|]. split; [exact Hout|]. split; [exact E3|exact HF].
Defined.

Lemma demo_on_ring mode : on_ring demo_vnodes (demo_cluster mode).
Proof.
  split; try reflexivity; [apply demo_ring_ok| |split; [reflexivity|unfold MAX_EC_N; cbn; lia]
    |change (length (cache_servers (demo_cluster mode))) with 6%nat; unfold MAX_N_SERVER; lia].
  change (n_server (ring (demo_cluster mode))) with 6. intros s Hs.
  apply list_elem_of_fmap. exists (Vnode (10 * s) s). split; [done|].
  apply (list_elem_of_fmap_2 (fun i => Vnode (10 * i) i)), elem_of_seqZ. lia.
Qed.

(** server 5 is down, then server 1 *)
Lemma update_servers_spec_witness :
  exists c1 c2, downed (demo_cluster C2DN) [5] c1 /\
    update_servers (fun x => x) (fun _ => []) [1] c1 = Ok c2 /\
    is_up c2 5 = true /\ is_up c2 1 = false /\ avail_ok c2 /\
    ch_mapping c2 !! 35 = Some [4; 5; 0; 2; 3].
Proof.
  destruct (fail_all_spec [5] (demo_cluster C2DN)) as (c1 & _ & D & Hok).
  { repeat constructor; lia. }
  { done. }
  pose proof (Forall2_length _ _ _ (dn_servers _ _ _ D)) as Hl.
  change (length (cache_servers (demo_cluster C2DN))) with 6%nat in Hl.
  destruct (update_servers_spec (fun x => x) (fun _ => []) c1 demo_vnodes [1])
    as (c2 & E & Hok2 & Hup & _ & Hmap).
  - split.
    + rewrite (dn_ring _ _ _ D). apply demo_ring_ok.
    + rewrite (dn_ring _ _ _ D). reflexivity.
    + rewrite (dn_ring _ _ _ D), <- Hl. reflexivity.
    + rewrite (dn_ring _ _ _ D). apply demo_on_ring.
    + rewrite (dn_params _ _ _ D), <- Hl. reflexivity.
    + rewrite (dn_params _ _ _ D). reflexivity.
    + rewrite (dn_ec _ _ _ D). split; [reflexivity|]. unfold MAX_EC_N. cbn. lia.
    + rewrite <- Hl. unfold MAX_N_SERVER. lia.
  - split.
    + apply NoDup_singleton.
    + rewrite <- Hl. repeat constructor; lia.
    + rewrite (dn_ec _ _ _ D), <- Hl. unfold MAX_N_UNAVAIL. cbn. lia.
  - apply Hok; [reflexivity|apply NoDup_singleton|]. repeat constructor.
  - exists c1, c2. split; [exact D|]. split; [exact E|].
    rewrite <- Hl in Hup. split; [rewrite Hup by lia; reflexivity|].
    split; [rewrite Hup by lia; reflexivity|]. split; [exact Hok2|].
    rewrite Hmap; [unfold remaining; rewrite (dn_ec _ _ _ D); vm_compute; reflexivity|unfold N_BUCKET; lia].
Defined.
