(* ===== verification/ClusterMainThms.v ===== *)
(** * The program of the cluster simulator: the properties

    The cluster that a configuration becomes, and the weights the sizes become. *)

From Stdlib Require Import String.
From Stdlib Require Import Floats.SpecFloat.
From S2P Require Import Prelude Store HashTable HashTableSpec Cache CacheSpec Policies.
From S2P Require Import Md5 Md5Spec ConsistentHash ConsistentHashSpec ConsistentHashThms.
From S2P Require Import CacheServer CacheServerSpec CacheCluster CacheClusterSpec CacheClusterThms.
From S2P Require Import ClusterThread ClusterMain ClusterMapThms.

(** A server of the program: LRU, no gutter cache, [cap] bytes of main cache. *)
Definition new_server (a : simulator_arg_t) (sz cap i : Z) : cacheServer :=
  CacheServer (ServerParams (u32 i) sz alg_lru (sa_gutter_space a)) 100
    (cache_struct_init empty_store (mk_params cap 0 CacheServer.HASH_POWER) 0) None true 0 0 0 0.

(** the size of the main cache, through the floating-point product *)
Definition main_size (sz : Z) : result Z :=
  trunc_i64 (dmul (SFsub 53 1024 (double_of_Z 1) (S754_zero false)) (double_of_Z sz)).

(** The configurations without per-server sizes. *)
Record plain_config (a : simulator_arg_t) (sz cap : Z) : Prop := {
  pc_alg : sa_cache_alg a = "lru"%string;
  pc_gutter : sa_gutter_space a = S754_zero false;
  pc_servers : 1 <= sa_n_server a <= MAX_N_SERVER;
  pc_sizes : sa_server_cache_sizes a = replicate (Z.to_nat (sa_n_server a)) sz;
  pc_weights : sa_server_weight a = replicate (Z.to_nat (sa_n_server a)) 1;
  pc_main : main_size sz = Ok cap;
  pc_cap : 0 <= cap < 2 ^ 63;
  pc_ec : 0 < sa_EC_n a <= MAX_EC_N;
  pc_enough : sa_EC_n a + MAX_N_UNAVAIL <= sa_n_server a;
  pc_parity : sa_parity_rebalance a = false
}.

Lemma make_server_ok a sz cap l i :
  plain_config a sz cap -> 0 <= i < sa_n_server a ->
  make_server a l i = Ok (l ++ [new_server a sz cap i]).
Proof.
  intros C Hi. unfold make_server. rewrite (pc_sizes _ _ _ C).
  rewrite (arr_get_lookup _ _ sz) by (lia || (apply lookup_replicate_2; lia)). cbn [rbind].
  unfold cacheServer_init. cbn [sp_gutter_space sp_cache_size sp_cache_alg].
  rewrite (pc_alg _ _ _ C). change (cache_alg_of "lru") with alg_lru.
  unfold new_server. rewrite (pc_gutter _ _ _ C).
  change (SFltb gutter_epsilon (S754_zero false)) with false. cbn [rbind].
  pose proof (pc_main _ _ _ C) as Hm. unfold main_size in Hm. rewrite Hm. cbn [rbind]. reflexivity.
Qed.

Lemma make_servers_ok a sz cap :
  plain_config a sz cap ->
  rfold (make_server a) (seqZ 0 (sa_n_server a)) [] = Ok (new_server a sz cap <$> seqZ 0 (sa_n_server a)).
Proof.
  intros C. destruct (rfold_inv (make_server a) (fun dn l => l = new_server a sz cap <$> dn)
    (seqZ 0 (sa_n_server a)) []) as (l & E & ->); [done| |done].
  intros dn i l [rest E] ->.
  assert (i ∈ seqZ 0 (sa_n_server a)) as Hi%elem_of_seqZ by (rewrite E; set_solver).
  rewrite (make_server_ok a sz cap) by (done || lia).
  eexists. split; [done|]. by rewrite fmap_app.
Qed.

(** When every server is up, every bucket gets its ring order. *)
Lemma all_up_mappable hash c vs :
  ring_ok (ring c) vs -> n_point (ring c) < 2 ^ 30 ->
  n_server (ring c) = Z.of_nat (length (cache_servers c)) ->
  (forall s, 0 <= s < n_server (ring c) -> s ∈ server_id <$> vs) ->
  cp_n_server (cluster_params c) = Z.of_nat (length (cache_servers c)) ->
  0 < ec_n (ec_params c) <= MAX_EC_N ->
  ec_n (ec_params c) + MAX_N_UNAVAIL <= Z.of_nat (length (cache_servers c)) ->
  (forall x, 0 <= x -> is_up c x = bool_decide (x < Z.of_nat (length (cache_servers c)))) ->
  mappable hash c vs /\ forall b, bucket_candidates hash c vs b = ring_order hash vs b.
Proof.
  intros R Hsmall Hs Hall Hcp Hec Henough Hup.
  assert (forall b, bucket_candidates hash c vs b = ring_order hash vs b) as Hcand.
  { intros b. rewrite (up_servers_candidates hash c vs b []); [|done|done|done|].
    - apply filter_every. intros x _. apply not_elem_of_nil.
    - intros x Hx. rewrite Hup by done. rewrite (bool_decide_false (x ∈ [])) by apply not_elem_of_nil.
      by rewrite andb_true_r. }
  split; [|done]. split; try done. intros b _. rewrite Hcand. unfold ring_order.
  rewrite (Permutation_length (ring_order_all _ vs _ R Hall)), length_seqZ, Hs. lia.
Qed.

Section new_cluster.
  Context (a : simulator_arg_t) (sz cap : Z).
  #[local] Abbreviation servers := (new_server a sz cap <$> seqZ 0 (sa_n_server a)).

Lemma new_servers_length : 0 <= sa_n_server a -> Z.of_nat (length servers) = sa_n_server a.
Proof. intros H. rewrite length_fmap, length_seqZ. lia. Qed.

Lemma new_servers_up x : 0 <= x -> 
  match servers !! Z.to_nat x with Some s => s_available s | None => false end =
  bool_decide (x < sa_n_server a).
Proof.
  intros Hx. rewrite list_lookup_fmap. case_bool_decide.
  - by rewrite lookup_seqZ_lt by lia.
  - by rewrite lookup_seqZ_ge by lia.
Qed.

Lemma new_servers_count : 0 <= sa_n_server a ->
  sa_n_server a = Z.of_nat (length (filter (fun s => s_available s = true) servers)).
Proof.
  intros Hn. transitivity (Z.of_nat (length servers)); [by rewrite new_servers_length|].
  do 2 f_equal. induction (seqZ 0 (sa_n_server a)) as [|i l IH]; [done|].
  rewrite fmap_cons, filter_cons_True by done. by f_equal.
Qed.

Lemma new_servers_rel hash m : 0 <= cap < 2 ^ 63 -> m < 2 ^ 31 - 1 ->
  Forall2 (fun s v => srv_rel hash m (v_cap v) (v_entries v) (v_meta v) s) servers
    (replicate (Z.to_nat (sa_n_server a)) (View cap [] (fun _ => 0))).
Proof.
  intros Hc Hm. replace (Z.to_nat (sa_n_server a)) with (length (seqZ 0 (sa_n_server a)))
    by apply length_seqZ.
  induction (seqZ 0 (sa_n_server a)) as [|i l IH]; [constructor|].
  constructor; [|exact IH].
  apply (new_server_rel hash m _ (mk_params cap 0 CacheServer.HASH_POWER)); done.
Qed.

(** the cluster before its buckets are mapped *)
Definition new_cluster (rg : ring_t) : cacheCluster :=
  let n := sa_n_server a in
  Cluster (ClusterParams n (Some (sa_server_weight a)) (sa_admission a) (sa_check_one_more a)
             (sa_parity_rebalance a) (sa_cluster_mode a) (sa_trace_format a))
    (ECParams (sa_EC_n a) (sa_EC_k a) (sa_EC_size_threshold a)) rg servers
    ∅ ∅ ∅ [] ∅ (ClusterHit false false false 0 0 0)
    (ClusterStat n 0 0 0 0 0 0 0 0 (replicate (Z.to_nat (sa_EC_n a)) 0) 0 0)
    (replicate (Z.to_nat n) (BucketStat 0 0 0 0)) (replicate (Z.to_nat n) 0) (replicate (Z.to_nat n) 0) 0.

(** what every server holds at first *)
Definition new_views : list view := replicate (Z.to_nat (sa_n_server a)) (View cap [] (fun _ => 0)).

Lemma make_cluster_ok hash max_flow stack qsort :
  length (buf stack) = 64%nat -> qsort_law qsort -> plain_config a sz cap ->
  exists rg vs c, make_cluster hash max_flow stack qsort a = Ok c /\
    mappable hash (new_cluster rg) vs /\ mapping_to hash (new_cluster rg) vs N_BUCKET c /\
    on_ring vs (new_cluster rg) /\ avail_ok (new_cluster rg) /\
    (forall x, 0 <= x -> is_up (new_cluster rg) x = bool_decide (x < sa_n_server a)) /\
    forall b, bucket_candidates hash (new_cluster rg) vs b = ring_order hash vs b.
Proof.
  intros Hst Hq C. set (n := sa_n_server a).
  assert (1 <= n <= 128) as Hn by (pose proof (pc_servers _ _ _ C); unfold MAX_N_SERVER in *; lia).
  destruct (ch_ring_create_ok stack qsort n Hst Hq Hn) as (rg & vs & Er & R & Hrn & Hperm & Hcount).
  unfold make_cluster. fold n. pose proof (make_servers_ok a sz cap C) as Es. fold n in Es.
  rewrite Es. cbn [rbind].
  unfold i32. rewrite swrap_small by lia. rewrite (pc_weights _ _ _ C). fold n.
  unfold default_weights in Er. rewrite Er. cbn [rbind]. unfold cacheCluster_init.
  set (c0 := new_cluster rg).
  assert (Z.of_nat (length (cache_servers c0)) = n) as Hlen by (apply new_servers_length; lia).
  assert (forall x, 0 <= x -> is_up c0 x = bool_decide (x < n)) as Hup by apply new_servers_up.
  assert (forall s, 0 <= s < n_server rg -> s ∈ server_id <$> vs) as Hall.
  { intros s Hs. rewrite Hrn in Hs. specialize (Hcount s Hs).
    destruct (filter _ vs) as [|v l] eqn:Ef; [done|].
    pose proof (list_elem_of_here v l) as Hv. rewrite <- Ef in Hv.
    apply list_elem_of_filter in Hv as [<- Hv]. by apply list_elem_of_fmap_2. }
  assert (n_point rg < 2 ^ 30) as Hsmall.
  { rewrite (ro_n_point _ _ R), (Permutation_length Hperm), ring_points_length by lia. lia. }
  destruct (all_up_mappable hash c0 vs R) as [M Hcand]; rewrite ?Hlen;
    [exact Hsmall|exact Hrn|exact Hall|done|apply (pc_ec _ _ _ C)|apply (pc_enough _ _ _ C)|exact Hup|].
  destruct (populate_mapped hash max_flow c0 vs M) as (c & E & T); [apply (pc_parity _ _ _ C)|].
  exists rg, vs, c. split; [|split; [exact M|]; split; [exact T|]; split; [|split; [|split; [exact Hup|exact Hcand]]]].
  - unfold c0, new_cluster in E. fold n in E. rewrite (pc_weights _ _ _ C) in E. exact E.
  - split; fold c0; rewrite ?Hlen; [exact R|exact Hsmall|exact Hrn|exact Hall|reflexivity|apply (pc_parity _ _ _ C)|apply (pc_ec _ _ _ C)|unfold MAX_N_SERVER; lia].
  - apply new_servers_count. lia.
Qed.
End new_cluster.

(** C20.  The cluster of a run with the cache algorithm lru, servers of one size below 2^63 bytes
    and of weight 1, no gutter space, no rebalancing of parity chunks (-b), 0 < n <= MAX_EC_N and n
    + 2 <= n_server <= 128. For every such configuration the program builds its ring and its
    servers, maps the buckets and starts: every server owns vnodes, is up and has an empty LRU
    cache, and every bucket has the first n + 2 servers of its ring order. *)
Theorem make_cluster_spec hash max_flow stack qsort a sz cap m :
  length (buf stack) = 64%nat -> qsort_law qsort -> plain_config a sz cap -> m < 2 ^ 31 - 1 ->
  exists c vs, make_cluster hash max_flow stack qsort a = Ok c /\
    ring_ok (ring c) vs /\ n_server (ring c) = sa_n_server a /\
    (forall s, 0 <= s < sa_n_server a -> s ∈ server_id <$> vs) /\
    Z.of_nat (length (cache_servers c)) = sa_n_server a /\ avail_ok c /\
    (forall x, 0 <= x < sa_n_server a -> is_up c x = true) /\
    cl_rel hash m c (replicate (Z.to_nat (sa_n_server a)) (View cap [] (fun _ => 0))) /\
    forall b, 0 <= b < N_BUCKET ->
      ch_mapping c !! b = Some (take (Z.to_nat (sa_EC_n a + MAX_N_UNAVAIL)) (ring_order hash vs b)).
Proof.
  intros Hst Hq C Hm. destruct (make_cluster_ok a sz cap hash max_flow stack qsort Hst Hq C)
    as (rg & vs & c & E & _ & [Ec _ Hmap _] & G & Hav & Hup & Hcand). pose proof (pc_servers _ _ _ C) as Hn.
  assert (Z.of_nat (length (cache_servers (new_cluster a sz cap rg))) = sa_n_server a) as Hlen
    by (apply new_servers_length; lia).
  pose proof (og_n _ _ G) as Hr. rewrite Hlen in Hr. exists c, vs. split; [exact E|]. split; [by rewrite Ec; apply G|].
  split; [by rewrite Ec|]. split; [intros s Hs; apply (og_all _ _ G); by rewrite Hr|].
  split; [by rewrite Ec|]. split; [by rewrite Ec|]. split; [|split].
  - intros x Hx. rewrite Ec. change (is_up (new_cluster a sz cap rg) x = true). rewrite Hup by lia.
    apply bool_decide_true, Hx.
  - rewrite Ec. apply new_servers_rel; [apply (pc_cap _ _ _ C)|done].
  - intros b Hb. rewrite (Hmap b Hb). unfold bucket_servers. by rewrite Hcand.
Qed.

(** ten servers of 100 GB, four chunks of which three are enough *)
Definition demo_arg : simulator_arg_t :=
  SimArg "lru" "akamai1b" akamai1b 10 100000000000 (replicate 10 100000000000) (replicate 10 1)
    "C2DN" C2DN (S754_zero false) false false 4 3 131072 0.

Lemma demo_plain : plain_config demo_arg 100000000000 100000000000.
Proof. split; try (vm_compute; done); vm_compute; split; discriminate || reflexivity. Qed.

Lemma make_cluster_spec_witness :
  exists c vs, make_cluster (fun x => x) (fun _ => []) zero_stack msort demo_arg = Ok c /\
    ring_ok (ring c) vs /\ length (cache_servers c) = 10%nat /\ is_up c 9 = true /\
    ch_mapping c !! 99 = Some (take 6 (ring_order (fun x => x) vs 99)).
Proof.
  destruct (make_cluster_spec (fun x => x) (fun _ => []) zero_stack msort demo_arg 100000000000
    100000000000 0 eq_refl msort_law demo_plain ltac:(lia))
    as (c & vs & E & R & _ & _ & Hlen & _ & Hup & _ & Hmap).
  exists c, vs. split; [exact E|]. split; [exact R|]. change (sa_n_server demo_arg) with 10 in *.
  split; [lia|]. split; [apply Hup; lia|]. apply Hmap. unfold N_BUCKET. lia.
Defined.

(** ** What a command line becomes *)

Definition bytes_of (s : string) : list Z :=
  (fun c => Z.of_N (Ascii.N_of_ascii c)) <$> list_ascii_of_string s.

(** The sizes without a list are those of a plain configuration. *)
Lemma parse_sizes_plain size n a a' :
  parse_sizes size n None a = Ok a' ->
  exists sz, convert_size size = Ok sz /\
    sa_server_cache_sizes a' = replicate (Z.to_nat (sa_n_server a')) (u64 sz) /\
    sa_server_weight a' = replicate (Z.to_nat (sa_n_server a')) 1 /\ sa_n_server a' = n.
Proof.
  unfold parse_sizes. destruct (convert_size size) as [sz|]; [|done]. cbn [rbind].
  intros [= <-]. by exists sz.
Qed.

(** The weights of servers of different sizes are the sizes modulo 2^32: of two servers of
    5 GB and 1 GB the first gets the smaller weight, and a server of 4 GiB gets none. *)
Theorem size_weights_truncated :
  (exists a, parse_sizes (bytes_of "3g") 2 (Some [bytes_of "5g 1g"]) default_sim_arg = Ok a /\
     sa_server_cache_sizes a = [5000000000; 1000000000] /\
     sa_server_weight a = [705032704; 1000000000]) /\
  weights_of_sizes [4294967296] = [0].
Proof. split; [|reflexivity]. eexists. split_and!; vm_compute; reflexivity. Qed.

(** The mode with three replicas of the small objects runs as the one with two. *)
Lemma three_rep_mode_is_two_rep n k :
  n > 2 -> k >= 2 -> cluster_mode_of "C2DN_add_n_three_rep" n k = Ok C2DN_add_n.
Proof.
  intros Hn Hk. unfold cluster_mode_of. simpl.
  by rewrite (proj2 (Z.gtb_lt n 2)), (proj2 (Z.geb_le k 2)) by lia.
Qed.

(** A server that is named twice in a line of the failure file is counted twice. *)
Lemma fail_twice_miscounts :
  exists c, fail_all [5; 5] (demo_cluster C2DN) = Ok c /\
    n_avail_server (cluster_stat c) = 4 /\
    length (filter (fun x => is_up c x = true) (seqZ 0 6)) = 5%nat.
Proof. eexists. split_and!; vm_compute; reflexivity. Qed.
