(* ===== verification/ClusterRunThms.v ===== *)
(** * The cluster over a trace

    Every request keeps the invariant of the cluster and is answered by what is cached; an
    object that has been stored is a hit at the next request, also when servers have failed
    in between; a change of availability keeps the invariant, and so does the whole run. *)

From Stdlib Require Import Floats.SpecFloat.
From S2P Require Import Prelude Store HashTable HashTableSpec Cache CacheSpec Policies.
From S2P Require Import ConsistentHash ConsistentHashSpec ConsistentHashThms.
From S2P Require Import CacheServer CacheServerSpec CacheCluster CacheClusterSpec.
From S2P Require Import CacheClusterThms ClusterGetThms ClusterThread ClusterMapThms.

(** ** A mapped cluster is ready *)

Lemma mapping_configured hash c vs b c' : mapping_to hash c vs b c' -> configured c -> configured c'.
Proof. intros [E _ _ _] []. rewrite E. by split. Qed.

Lemma switched_configured c f c' : switched c f c' -> configured c -> configured c'.
Proof.
  intros D []. pose proof (Forall2_length _ _ _ (dn_servers _ _ _ D)) as Hl.
  split; rewrite <- ?Hl, ?(dn_ec _ _ _ D), ?(dn_params _ _ _ D), ?(dn_bucket _ _ _ D), ?(dn_rload _ _ _ D),
    ?(dn_wload _ _ _ D), ?(dn_n_miss _ _ _ D); done.
Qed.

Lemma mapped_routed hash c vs c' :
  mappable hash c vs -> configured c -> mapping_to hash c vs N_BUCKET c' -> routed c'.
Proof.
  intros M CF T. split; [by eapply mapping_configured|]. intros b Hb. pose proof T as [E _ Hm Hl].
  destruct (Hl b Hb) as (v & Hv & Hlead).
  exists (bucket_servers hash c vs b), (server_id v). split_and!; [by apply Hm|done|].
  destruct (bucket_servers_spec hash c vs b M Hb) as (Hnd & Hlen & Hall).
  pose proof (mp_ec _ _ _ M) as Hec.
  split; [by rewrite E|done| | |].
  - eapply Forall_impl; [exact Hall|]. intros s [Hs Ha]. split; [lia|].
    rewrite avail_is_up in Ha by done. rewrite E. exact Ha.
  - eapply Forall_impl; [exact Hall|]. intros s [Hs _]. rewrite E. simpl. lia.
  - rewrite E. cbn. rewrite (cf_stats _ CF), <- (mp_servers _ _ _ M).
    pose proof (Forall_lookup_1 _ _ _ _ (ro_servers _ _ (mp_ring _ _ _ M)) Hv) as Hr. exact Hr.
Qed.

Lemma kinds_ok_ext size_of c c' V :
  cluster_params c' = cluster_params c -> ec_params c' = ec_params c ->
  kinds_ok size_of c V -> kinds_ok size_of c' V.
Proof.
  intros Hp He HV. eapply Forall_impl; [exact HV|]. intros v Hv id Hh. specialize (Hv id Hh).
  unfold coded in *. by rewrite Hp, He.
Qed.

Lemma mapped_ready hash size_of m c V vs c' :
  mappable hash c vs -> configured c -> cl_rel hash m c V -> kinds_ok size_of c V ->
  mapping_to hash c vs N_BUCKET c' -> ready hash size_of m c' V.
Proof.
  intros M CF HR HK T. pose proof T as [E _ _ _]. split.
  - by eapply mapped_routed.
  - eapply cl_rel_same; [|exact HR]. by rewrite E.
  - eapply kinds_ok_ext; [| |exact HK]; by rewrite E.
Qed.

(** Failed servers, and the mapping after them. *)
Lemma failed_ready hash size_of max_flow m c V vs fs :
  mappable hash c vs -> ready hash size_of m c V ->
  Forall (fun x => 0 <= x < Z.of_nat (length (cache_servers c))) fs ->
  (forall b, 0 <= b < N_BUCKET -> ec_n (ec_params c) + MAX_N_UNAVAIL + Z.of_nat (length fs) <=
     Z.of_nat (length (bucket_candidates hash c vs b))) ->
  exists c1 c2, fail_all fs c = Ok c1 /\ populate_hash_mapping hash max_flow c1 = Ok c2 /\
    downed c fs c1 /\ mappable hash c1 vs /\ mapping_to hash c1 vs N_BUCKET c2 /\
    ready hash size_of m c2 V.
Proof.
  intros M [RT HR HK] Hfs Henough.
  destruct (fail_all_spec fs c Hfs (cf_max _ RT)) as (c1 & E1 & D & _).
  pose proof (mappable_downed hash c vs fs c1 M D Henough) as M1.
  destruct (populate_mapped hash max_flow c1 vs M1) as (c2 & E2 & T);
    [rewrite (dn_params _ _ _ D); apply RT|].
  exists c1, c2. split_and!; try done. eapply mapped_ready; [exact M1| | | |exact T].
  - eapply switched_configured; [exact D|apply RT].
  - by eapply switched_rel.
  - eapply kinds_ok_ext; [apply (dn_params _ _ _ D)|apply (dn_ec _ _ _ D)|done].
Qed.

(** ** Requests *)

Section requests.
  Context (hash : Z -> Z) (rand : nat -> Z) (size_of : Z -> Z).


(** A run of requests; the answers. *)
Definition run_requests (rs : list request) (c : cacheCluster) : result (cacheCluster * list bool) :=
  rfold (fun '(c, hits) r =>
           let! '(hit, c, _) := cluster_get hash rand c r in Ok (c, hits ++ [ch_is_hit hit])) rs (c, []).

Definition count_true (l : list bool) : Z := Z.of_nat (length (filter (fun b => b = true) l)).

Lemma run_requests_snoc rs r c :
  run_requests (rs ++ [r]) c =
    let! '(c, hits) := run_requests rs c in
    let! '(hit, c, _) := cluster_get hash rand c r in Ok (c, hits ++ [ch_is_hit hit]).
Proof.
  unfold run_requests. rewrite rfold_app. cbn [rfold].
  destruct (rfold _ rs (c, [])) as [[c1 hits]|]; [|done]. cbn [rbind].
  by destruct (cluster_get hash rand c1 r) as [[[? ?] ?]|].
Qed.

Lemma count_true_snoc l b : count_true (l ++ [b]) = count_true l + (if b then 1 else 0).
Proof.
  unfold count_true. rewrite filter_app, length_app, filter_cons. destruct b; simpl; lia.
Qed.

Lemma u64_succ x y : u64 (u64 (x + y) + 1) = u64 (x + (y + 1)).
Proof. unfold u64, wrap. rewrite Zplus_mod_idemp_l. f_equal. lia. Qed.

(** The cluster between the requests of a trace. *)
Record run_state (m : Z) (c0 : cacheCluster) (V0 : list view) (c : cacheCluster) (V : list view)
    (hits : list bool) (n : nat) : Prop := {
  rn_ready : ready hash size_of m c V;
  rn_kept : cl_kept c0 c;
  rn_caps : v_cap <$> V = v_cap <$> V0;
  rn_length : length hits = n;
  rn_avail : n_avail_server (cluster_stat c) = n_avail_server (cluster_stat c0);
  rn_req_cnt : u64 (cluster_req_cnt (cluster_stat c)) =
    u64 (cluster_req_cnt (cluster_stat c0) + Z.of_nat n);
  rn_hit_cnt : u64 (cluster_hit_cnt (cluster_stat c)) =
    u64 (cluster_hit_cnt (cluster_stat c0) + count_true hits)
}.

Lemma run_requests_state rs : forall m c V,
  0 <= m -> ready hash size_of (m + Z.of_nat (length rs) * (cost c + 1)) c V ->
  Forall (fun r => exists sz, request_ok hash size_of c V sz r) rs ->
  exists c' hits V', run_requests rs c = Ok (c', hits) /\
    run_state m c V c' V' hits (length rs).
Proof.
  induction rs as [|r rs IH] using rev_ind; intros m c V Hm RD HQ.
  - exists c, [], V. split; [done|]. split; try done; [|by rewrite Z.add_0_r|by rewrite Z.add_0_r].
    by replace m with (m + Z.of_nat (length ([] : list request)) * (cost c + 1)) by (simpl; lia).
  - apply Forall_app in HQ as [HQ [[sz Hr] _]%Forall_cons].
    rewrite length_app in *. cbn [length] in *.
    pose proof (cf_n _ (rd_routed _ _ _ _ _ RD)) as Hn.
    destruct (IH (m + cost c + 1) c V) as (c1 & hits & V1 & E & [RD1 HK Hcap Hlen Hav Hrq Hht]).
    { unfold cost. lia. }
    { replace (m + cost c + 1 + Z.of_nat (length rs) * (cost c + 1))
        with (m + Z.of_nat (length rs + 1) * (cost c + 1)) by lia. exact RD. }
    { exact HQ. }
    assert (cost c1 = cost c) as Hcost.
    { unfold cost. by rewrite (kp_ec _ _ HK), <- (Forall2_length _ _ _ (kp_servers _ _ HK)). }
    destruct (cluster_get_ok hash rand size_of m c1 V1 sz r) as
      (idxs & p & lead & hit & c2 & r2 & V2 & _ & _ & _ & E2 & [HA Hav2 Hh2 Hrq2 Hht2 _ _ _]);
      [done|by rewrite Hcost| |].
    { eapply request_ok_like; try done. apply Hr. }
    rewrite run_requests_snoc, E. cbn [rbind]. rewrite E2. cbn [rbind].
    exists c2, (hits ++ [ch_is_hit hit]), V2. split; [done|].
    split; [apply HA|etrans; [exact HK|apply HA]| |rewrite length_app; simpl; lia|congruence| |].
    + rewrite (views_step_caps _ _ _ (an_step _ _ _ _ _ _ _ _ _ HA)). done.
    + rewrite Hrq2. replace (Z.of_nat (length rs + 1)) with (Z.of_nat (length rs) + 1) by lia.
      rewrite <- u64_succ, <- Hrq. unfold u64, wrap. by rewrite Zplus_mod_idemp_l, Zmod_mod.
    + rewrite Hht2, count_true_snoc. destruct (ch_is_hit hit).
      * rewrite <- u64_succ, <- Hht. unfold u64, wrap. by rewrite Zplus_mod_idemp_l, Zmod_mod.
      * by rewrite Z.add_0_r.
Qed.


(** ** An object that is stored is found *)

(** The modes in which every server a request may be sent to gets the object. *)
Definition sticky (c : cacheCluster) : bool :=
  match cp_cluster_mode (cluster_params c) with
  | no_replication | two_rep_popularity => ec_n (ec_params c) =? 1
  | C2DN | C2DN_add_n | C2DN_add_n_three_rep => 2 <=? ec_k (ec_params c)
  | _ => true
  end.

Record kept_everywhere (c : cacheCluster) (V : list view) (id : Z) (idxs : list Z) : Prop := {
  ke_leads : forall p x, 0 <= p < leads c -> idxs !! Z.to_nat p = Some x -> holds id V x;
  ke_chunks : coded size_of c id = true -> ec_k (ec_params c) <= found_chunks c V id idxs
}.

Lemma on_some_holds V id idxs p x q : idxs !! Z.to_nat p = Some x ->
  on V id idxs p = Some q -> holds id V x.
Proof.
  unfold on, held_at. intros ->. simpl. destruct (V !! Z.to_nat x) as [v|] eqn:Hv; [|done].
  simpl. unfold held. destruct (has id v) eqn:Hh; [|done]. intros _. by exists v.
Qed.

Lemma found_chunks_le c V id idxs j : 0 <= j <= ec_n (ec_params c) ->
  (forall q, 0 <= q < j -> Some q ∈ on V id idxs <$> seqZ 0 (ec_n (ec_params c))) ->
  j <= found_chunks c V id idxs.
Proof.
  intros Hj Hall. unfold found_chunks, distinct.
  assert (seqZ 0 j ⊆+ filter (fun q => Some q ∈ on V id idxs <$> seqZ 0 (ec_n (ec_params c)))
            (seqZ 0 (ec_n (ec_params c)))) as Hsub.
  { apply NoDup_submseteq; [apply NoDup_seqZ|]. intros q Hq%elem_of_seqZ.
    apply list_elem_of_filter. split; [apply Hall; lia|apply elem_of_seqZ; lia]. }
  apply submseteq_length in Hsub. rewrite length_seqZ in Hsub. lia.
Qed.

Lemma complete_everywhere V id idxs n : on V id idxs <$> seqZ 0 n ≡ₚ Some <$> seqZ 0 n ->
  (forall p x, 0 <= p < n -> idxs !! Z.to_nat p = Some x -> holds id V x) /\
  (forall q, 0 <= q < n -> Some q ∈ on V id idxs <$> seqZ 0 n).
Proof.
  intros HF. split.
  - intros p x Hp Hx. assert (on V id idxs p ∈ on V id idxs <$> seqZ 0 n) as Hin.
    { apply list_elem_of_fmap_2, elem_of_seqZ. lia. }
    rewrite HF in Hin. apply list_elem_of_fmap in Hin as (q & Hq & _). by eapply on_some_holds.
  - intros q Hq. rewrite HF. apply list_elem_of_fmap_2, elem_of_seqZ. lia.
Qed.

(** the chunks a miss writes, all of them or the first k *)
Lemma written_everywhere c V id idxs : configured c ->
  (forall p, 0 <= p < written c -> on V id idxs p = Some p) -> leads c <= written c ->
  coded size_of c id = true -> kept_everywhere c V id idxs.
Proof.
  intros CF Hon Hl Hc. assert (ec_k (ec_params c) <= written c <= ec_n (ec_params c)) as Hw.
  { pose proof (cf_k _ CF). unfold written. destruct (adds_n c); lia. }
  split.
  - intros p x Hp Hx. eapply on_some_holds; [exact Hx|]. apply Hon. lia.
  - intros _. pose proof (cf_k _ CF). apply found_chunks_le; [lia|]. intros q Hq.
    rewrite <- (Hon q) by lia. apply list_elem_of_fmap_2, elem_of_seqZ. lia.
Qed.

Lemma leads_le c : routed c -> leads c <= (if three_mode (cp_cluster_mode (cluster_params c)) then 3 else 2).
Proof.
  intros RT. unfold leads. destruct (Z.eqb_spec (ec_n (ec_params c)) 1); [|lia]. by destruct (three_mode _).
Qed.

Lemma leads_written c : routed c -> sticky c = true -> codes (cp_cluster_mode (cluster_params c)) = true ->
  leads c <= written c.
Proof.
  intros RT Hs Hc. pose proof (leads_n c RT). pose proof (leads_le c RT) as Hl.
  unfold sticky, codes, written, adds_n in *. destruct (cp_cluster_mode _); try done; try lia.
  apply Z.leb_le in Hs. simpl in Hl. lia.
Qed.

Lemma targets_everywhere c V id p lead idxs : routed c -> sticky c = true ->
  0 <= p < leads c -> idxs !! Z.to_nat p = Some lead ->
  Forall (holds id V) (full_targets (cp_cluster_mode (cluster_params c)) lead idxs) ->
  forall p' x, 0 <= p' < leads c -> idxs !! Z.to_nat p' = Some x -> holds id V x.
Proof.
  intros RT Hs Hp Hl Hall p' x Hp' Hx. rewrite Forall_forall in Hall. apply Hall.
  pose proof (leads_le c RT) as Hle. unfold sticky in Hs.
  assert (forall k, p' < Z.of_nat k -> x ∈ take k idxs) as Htake.
  { intros k Hk. apply (list_elem_of_lookup_2 _ (Z.to_nat p')). by rewrite lookup_take_lt by lia. }
  assert ((ec_n (ec_params c) =? 1) = true -> x = lead) as Hone.
  { unfold leads in Hp, Hp'. intros E. rewrite E in Hp, Hp'. assert (p' = p) as -> by lia. congruence. }
  destruct (cp_cluster_mode _) eqn:Em; simpl in Hle; cbn [full_targets];
    try (apply list_elem_of_singleton; by apply Hone); apply Htake; lia.
Qed.

Lemma got_everywhere m c V sz r idxs p lead hit c' V' r' :
  let id := req_obj_id_int r in
  routed c -> 0 <= p < leads c -> idxs !! Z.to_nat p = Some lead ->
  got hash size_of m c V sz r idxs lead hit c' V' r' -> sticky c = true -> admits c id = true ->
  kept_everywhere c V' id idxs.
Proof.
  intros id RT Hp Hl [_ _ _ _ _ _ Hcont _] Hs Ha. fold id in Hcont. rewrite Ha in Hcont.
  pose proof (leads_n c RT) as Hln. destruct (coded size_of c id) eqn:Hc.
  - assert (codes (cp_cluster_mode (cluster_params c)) = true) as Hm
      by (unfold coded in Hc; by apply andb_true_iff in Hc as [? _]).
    unfold hit_contents, miss_contents in Hcont. rewrite Hc in Hcont. destruct (holds_b V id lead).
    + destruct (complete_everywhere V' id idxs _ Hcont) as [Hh Hq]. pose proof (cf_k _ RT).
      split; [intros y x Hy; apply Hh; lia|]. intros _. apply found_chunks_le; [lia|].
      intros q Hq'. apply Hq. lia.
    + apply written_everywhere; [apply RT| |by apply leads_written|done].
      intros y Hy. rewrite Hcont; [by rewrite (proj2 (Z.ltb_lt y _)) by lia|].
      pose proof (cf_k _ RT). unfold written in *. destruct (adds_n c); lia.
  - split; [|by rewrite Hc]. eapply targets_everywhere; [done|done|exact Hp|exact Hl|].
    unfold hit_contents, miss_contents in Hcont. rewrite Hc in Hcont. by destruct (holds_b V id lead).
Qed.

Lemma everywhere_hit c V id idxs p lead : 0 <= p < leads c -> idxs !! Z.to_nat p = Some lead ->
  kept_everywhere c V id idxs ->
  holds_b V id lead = true /\ is_answer_hit size_of c V id idxs true = true.
Proof.
  intros Hp Hl [Hh Hk]. split; [apply holds_b_spec; by eapply Hh|].
  unfold is_answer_hit. destruct (coded size_of c id); [|done]. simpl. apply Z.leb_le. by apply Hk.
Qed.

Lemma hit_no_origin c V sz r idxs :
  is_answer_hit size_of c V (req_obj_id_int r) idxs true = true -> origin_bytes size_of c V sz r idxs true = None.
Proof.
  unfold is_answer_hit, origin_bytes. destruct (coded size_of c _); [|done]. simpl.
  rewrite Z.ltb_antisym. by intros ->.
Qed.


(** ** Failures between two requests *)

Lemma request_ok_ext c c' V V' sz r :
  cluster_params c' = cluster_params c -> ec_params c' = ec_params c -> v_cap <$> V' = v_cap <$> V ->
  request_ok hash size_of c V sz r -> request_ok hash size_of c' V' sz r.
Proof.
  intros Hp He HV []. split; unfold coded in *; rewrite ?Hp, ?He; try done.
  apply Forall_fmap with (f := v_cap) (P := fun k => sz <= k). rewrite HV. by apply Forall_fmap.
Qed.

(** The first n - |fs| servers a bucket gets are survivors of its first n. *)
Lemma survivors_first c vs fs c1 b p x n :
  mappable hash c vs -> downed c fs c1 -> ec_n (ec_params c) = n -> 0 <= b < N_BUCKET ->
  0 <= p < n - Z.of_nat (length fs) -> bucket_servers hash c1 vs b !! Z.to_nat p = Some x ->
  x ∈ take (Z.to_nat n) (bucket_servers hash c vs b).
Proof.
  intros M D Hn Hb Hp Hx. pose proof (mp_ec _ _ _ M) as Hec. pose proof (mp_enough _ _ _ M b Hb) as He.
  unfold bucket_servers in *. rewrite Hn in *. unfold MAX_N_UNAVAIL in *.
  rewrite take_take, Nat.min_l by lia.
  rewrite (downed_candidates hash c fs c1 vs b D (mp_ring _ _ _ M) (mp_servers _ _ _ M)) in Hx
    by (rewrite Hn; lia).
  rewrite (dn_ec _ _ _ D), Hn in Hx. rewrite lookup_take_lt in Hx by lia.
  set (cand := bucket_candidates hash c vs b) in *.
  assert (NoDup (take (Z.to_nat n) cand)) as Hnd.
  { eapply sublist_NoDup; [|apply sublist_take]. apply (candidates_nodup (Some (initial_capacity c))). }
  pose proof (filter_out_length fs _ Hnd) as Hlen. rewrite length_take in Hlen.
  rewrite <- (take_drop (Z.to_nat n) cand), filter_app in Hx. rewrite lookup_app_l in Hx by lia.
  apply list_elem_of_lookup_2 in Hx. by apply list_elem_of_filter in Hx as [_ ?].
Qed.

(** the chunks of an object that has been stored in all its servers *)
Lemma got_complete m c V sz r idxs lead hit c' V' r' :
  let id := req_obj_id_int r in
  got hash size_of m c V sz r idxs lead hit c' V' r' -> coded size_of c id = true ->
  adds_n c = true -> admits c id = true ->
  on V' id idxs <$> seqZ 0 (ec_n (ec_params c)) ≡ₚ Some <$> seqZ 0 (ec_n (ec_params c)).
Proof.
  intros id [_ _ _ _ _ _ Hcont _] Hc Hadd Ha. fold id in Hcont. rewrite Ha in Hcont.
  unfold hit_contents, miss_contents, written in Hcont. rewrite Hc, Hadd in Hcont.
  destruct (holds_b V id lead); [done|].
  rewrite (list_fmap_ext (on V' id idxs) Some); [done|]. intros i p Hp. apply lookup_seqZ in Hp as [-> Hi].
  rewrite Hcont by lia. by rewrite (proj2 (Z.ltb_lt _ _)) by lia.
Qed.

End requests.

(** ** Concrete runs

    The six servers of [demo_cluster], mapped, in a mode that writes all three chunks. *)

Lemma demo_configured mode : served mode = true -> configured (demo_cluster mode).
Proof.
  intros Hs. split; try exact Hs; try reflexivity.
  - change (0 < 3 <= 16). lia.
  - change (0 < 2 <= 3). lia.
  - change (length (cache_servers (demo_cluster mode))) with 6%nat. unfold MAX_N_SERVER. lia.
Qed.

Lemma demo_kinds size_of mode : kinds_ok size_of (demo_cluster mode) demo_views.
Proof. unfold kinds_ok, demo_views. apply Forall_replicate. intros id Hh. discriminate Hh. Qed.

Lemma demo_ready mode m : m < 2 ^ 31 - 1 -> served mode = true ->
  exists c, mapping_to (fun x => x) (demo_cluster mode) demo_vnodes N_BUCKET c /\
    ready (fun x => x) (fun _ => 1000) m c demo_views.
Proof.
  intros Hm Hs. destruct (populate_mapped (fun x => x) (fun _ => []) (demo_cluster mode) demo_vnodes)
    as (c & _ & T); [apply demo_mappable|reflexivity|].
  exists c. split; [exact T|]. eapply mapped_ready; [apply demo_mappable| | | |exact T].
  - by apply demo_configured.
  - by apply demo_rel.
  - apply demo_kinds.
Qed.

Lemma demo_request_ok mode c : codes mode = true ->
  mapping_to (fun x => x) (demo_cluster mode) demo_vnodes N_BUCKET c ->
  request_ok (fun x => x) (fun _ => 1000) c demo_views 500 demo_request.
Proof.
  intros Hc [E _ _ _]. apply (request_ok_ext _ _ (demo_cluster mode) c demo_views);
    [by rewrite E|by rewrite E|done|]. split; [done|by left| |lia|].
  - unfold coded. change (cp_cluster_mode (cluster_params (demo_cluster mode))) with mode.
    rewrite Hc. reflexivity.
  - unfold demo_views. apply Forall_replicate. simpl. lia.
Qed.

Lemma demo_lead_empty x : holds_b demo_views 7 x = false.
Proof.
  unfold holds_b, demo_views. destruct (replicate 6 _ !! _) as [v|] eqn:Hv; [|reflexivity].
  apply lookup_replicate in Hv as [-> _]. reflexivity.
Qed.




