(* ===== verification/ClusterReportThms.v ===== *)
(** * The replication report of the cluster

    What find_rep_factor computes at the end of a run: how many servers hold each object,
    as a histogram.  When no object is on more than n servers it succeeds, and the counts
    are those of the contents of the caches. *)

From Stdlib Require Import Floats.SpecFloat.
From S2P Require Import Prelude Store HashTable HashTableSpec Cache CacheSpec Policies.
From S2P Require Import ConsistentHash CacheServer CacheServerSpec CacheCluster CacheClusterSpec.
From S2P Require Import ClusterThread.

(** ** One server *)

(** The table of the copies: an object's size and the servers that have it. *)
Abbreviation copy_table := (gmap Z (Z * Z)).

Definition bump (m : copy_table) (e : entry) : copy_table :=
  <[e.1 := (e.2, match m !! e.1 with Some (_, n) => i8 (n + 1) | None => 1 end)]> m.

Lemma objmap_fold M s ls es : entries M (objs s) ls es ->
  forall m, rfold (objmap_aux s) ls m = Ok (foldl bump m es).
Proof.
  induction 1 as [|l e ls es (o & Ho & Hid & Hsz & _) _ IH]; intros m; [done|].
  cbn [rfold foldl]. unfold objmap_aux. rewrite (deref_Some _ _ _ Ho). cbn [rbind].
  rewrite Hid, Hsz. apply IH.
Qed.

Lemma foldl_bump es : forall m id, NoDup es.*1 ->
  foldl bump m es !! id =
    match list_find (fun e => e.1 = id) es with
    | Some (_, e) => Some (e.2, match m !! id with Some (_, n) => i8 (n + 1) | None => 1 end)
    | None => m !! id
    end.
Proof.
  induction es as [|e es IH]; intros m id Hnd; [done|].
  cbn [foldl fmap list_fmap] in *. apply NoDup_cons in Hnd as [Hn Hnd]. rewrite IH by done.
  cbn [list_find]. case_decide as He.
  - subst id. destruct (list_find _ es) as [[i e']|] eqn:Hf.
    + apply list_find_Some in Hf as (Hi & He' & _). destruct Hn. rewrite <- He'.
      apply list_elem_of_fmap_2. by eapply list_elem_of_lookup_2.
    + unfold bump. by rewrite lookup_insert_eq.
  - unfold bump at 1 2. rewrite lookup_insert_ne by done. by destruct (list_find _ es) as [[i e']|].
Qed.

(** [m] counts the copies of every object in the views [L]. *)
Definition copies (L : list view) (id : Z) : Z := Z.of_nat (length (filter (fun v => has id v = true) L)).

Definition table_of (L : list view) (m : copy_table) : Prop :=
  forall id, snd <$> m !! id = if copies L id =? 0 then None else Some (copies L id).

Lemma copies_snoc L v id : copies (L ++ [v]) id = copies L id + (if has id v then 1 else 0).
Proof. unfold copies. rewrite filter_app, length_app, filter_cons. destruct (has id v); simpl; lia. Qed.

Lemma copies_nonneg L id : 0 <= copies L id.
Proof. unfold copies. lia. Qed.

Lemma table_of_bump L v m es : table_of L m -> NoDup es.*1 -> (forall id, has id v = true <-> id ∈ es.*1) ->
  (forall id, copies (L ++ [v]) id <= 127) -> table_of (L ++ [v]) (foldl bump m es).
Proof.
  intros HT Hnd Hes Hle id. specialize (Hle id). rewrite foldl_bump by done. rewrite copies_snoc in *.
  pose proof (HT id) as Hid. pose proof (copies_nonneg L id).
  destruct (list_find _ es) as [[i e]|] eqn:Hf.
  - apply list_find_Some in Hf as (Hi & <- & _).
    assert (has e.1 v = true) as Hhas by (apply Hes, list_elem_of_fmap_2; by eapply list_elem_of_lookup_2).
    rewrite Hhas in *. rewrite (proj2 (Z.eqb_neq _ 0)) by lia. cbn [fmap option_fmap option_map snd].
    destruct (m !! e.1) as [[sz k]|] eqn:Hm; cbn in Hid.
    + destruct (Z.eqb_spec (copies L e.1) 0); [done|]. injection Hid as ->.
      unfold i8. by rewrite swrap_small by lia.
    + destruct (Z.eqb_spec (copies L e.1) 0) as [->|]; [done|done].
  - apply list_find_None in Hf. assert (has id v = false) as ->.
    { apply not_true_iff_false. rewrite Hes. intros (e & -> & He)%list_elem_of_fmap.
      rewrite Forall_forall in Hf. by apply (Hf e He). }
    by rewrite Z.add_0_r.
Qed.

Lemma copies_app L1 L2 id : copies (L1 ++ L2) id = copies L1 id + copies L2 id.
Proof. unfold copies. rewrite filter_app, length_app. lia. Qed.

(** ** The servers *)

(** the views of the servers that are up *)
Definition up_views (ss : list cacheServer) (V : list view) : list view :=
  snd <$> filter (fun p => s_available p.1 = true) (zip ss V).

Lemma up_views_cons s ss v V :
  up_views (s :: ss) (v :: V) = if s_available s then v :: up_views ss V else up_views ss V.
Proof. unfold up_views. cbn [zip_with]. rewrite filter_cons. cbn [fst]. by destruct (s_available s). Qed.

Lemma copies_up ss : forall V id, copies (up_views ss V) id <= copies V id.
Proof.
  induction ss as [|s ss IH]; intros [|v V] id; try (unfold copies, up_views; simpl; lia).
  rewrite up_views_cons. specialize (IH V id). change (v :: V) with ([v] ++ V).
  pose proof (copies_nonneg [v] id). rewrite copies_app.
  destruct (s_available s); [change (v :: up_views ss V) with ([v] ++ up_views ss V); rewrite copies_app|]; lia.
Qed.

Definition total_objs (L : list view) : Z := foldr (fun v n => Z.of_nat (length (v_entries v)) + n) 0 L.
Definition total_bytes (L : list view) : Z := foldr (fun v n => total (v_entries v) + n) 0 L.

Lemma rep_server_spec hash n cap a M s objs bytes m : srv_rel hash n cap a M s -> s_available s = true ->
  exists es, es ≡ₚ a /\ NoDup es.*1 /\
    rep_server (objs, bytes, m) s = Ok (u64 (objs + Z.of_nat (length a)), u64 (bytes + total a), foldl bump m es).
Proof.
  intros [(L & HB & _ & Hno) _ _ _] Hav. pose proof HB as [HHT He _ _ _ Hocc].
  destruct (HT_nodup _ _ _ _ HHT) as [HndL HidL]. pose proof (entries_nodup _ _ _ _ HndL HidL He) as Hnd.
  unfold rep_server, is_available. rewrite Hav.
  destruct (chained_hashtable_foreach_spec hash _ _ L HHT) as (L' & -> & HP). cbn [rbind].
  destruct (Permutation.Permutation_Forall2 (symmetry HP) He) as (es & HPe & He').
  exists es. split; [by symmetry|]. split; [by rewrite <- HPe|].
  rewrite (objmap_fold M _ L' es He'). cbn [rbind]. by rewrite Hno, Hocc.
Qed.

Lemma u64_add_again x y z : u64 (u64 (x + y) + z) = u64 (x + (y + z)).
Proof. unfold u64, wrap. rewrite Zplus_mod_idemp_l. f_equal. lia. Qed.

Lemma rep_servers_spec hash n ss V :
  Forall2 (fun s v => srv_rel hash n (v_cap v) (v_entries v) (v_meta v) s) ss V ->
  forall L m objs bytes, table_of L m -> u64 objs = objs -> u64 bytes = bytes ->
  (forall id, copies (L ++ up_views ss V) id <= 127) ->
  exists m', rfold rep_server ss (objs, bytes, m) =
      Ok (u64 (objs + total_objs (up_views ss V)), u64 (bytes + total_bytes (up_views ss V)), m') /\
    table_of (L ++ up_views ss V) m'.
Proof.
  induction 1 as [|s v ss V HR _ IH]; intros L m objs bytes HT Ho Hb Hle.
  - exists m. cbn [rfold]. change (up_views [] []) with (@nil view). cbn.
    by rewrite !Z.add_0_r, Ho, Hb, app_nil_r.
  - rewrite up_views_cons in *. cbn [rfold]. destruct (s_available s) eqn:Hav.
    + destruct (rep_server_spec _ _ _ _ _ _ objs bytes m HR Hav) as (es & HP & Hnd & ->). cbn [rbind].
      assert (table_of (L ++ [v]) (foldl bump m es)) as HT1.
      { apply table_of_bump; [done|done| |].
        - intros id. unfold has. rewrite cached_spec. by rewrite HP.
        - intros id. specialize (Hle id). change (v :: up_views ss V) with ([v] ++ up_views ss V) in Hle.
          rewrite !copies_app in *. pose proof (copies_nonneg (up_views ss V) id). lia. }
      change (v :: up_views ss V) with ([v] ++ up_views ss V) in *. rewrite app_assoc in *.
      destruct (IH (L ++ [v]) _ (u64 (objs + Z.of_nat (length (v_entries v)))) (u64 (bytes + total (v_entries v))) HT1)
        as (m' & -> & HT'); [apply u64_small, u64_range..|done|].
      exists m'. split; [|done]. rewrite !u64_add_again. done.
    + unfold rep_server at 1, is_available. rewrite Hav. cbn [rbind]. by apply IH.
Qed.

(** ** The histogram *)

(** the objects with [j] copies *)
Definition with_copies (es : list (Z * (Z * Z))) (j : Z) : Z :=
  Z.of_nat (length (filter (fun e => e.2.2 = j) es)).

Lemma with_copies_cons e es j : with_copies (e :: es) j = (if decide (e.2.2 = j) then 1 else 0) + with_copies es j.
Proof. unfold with_copies. rewrite filter_cons. by case_decide; cbn [length]; lia. Qed.

Lemma rep_objects_spec es : forall bytes cnts,
  Forall (fun e => 1 <= e.2.2 <= Z.of_nat (length cnts)) es -> Forall (fun x => u64 x = x) cnts -> u64 bytes = bytes ->
  exists cnts', rfold rep_object es (bytes, cnts) =
      Ok (u64 (bytes + foldr (fun e n => e.2.1 + n) 0 es), cnts') /\ length cnts' = length cnts /\
    forall j : nat, cnts' !! j = (fun x => u64 (x + with_copies es (Z.of_nat j + 1))) <$> cnts !! j.
Proof.
  induction es as [|e es IH]; intros bytes cnts He Hc Hb.
  - exists cnts. cbn. rewrite Z.add_0_r, Hb. split_and!; [done|done|]. intros j.
    destruct (cnts !! j) as [x|] eqn:Hx; [|done]. cbn. rewrite Z.add_0_r.
    by rewrite (Forall_lookup_1 _ _ _ _ Hc Hx).
  - apply Forall_cons in He as [He Hes]. cbn [rfold]. unfold rep_object at 1.
    destruct (arr_get_Z cnts (e.2.2 - 1)) as (x & Hx & _); [lia|].
    rewrite (arr_upd_Z _ _ _ x) by (done || lia). cbn [rbind].
    set (cnts1 := <[Z.to_nat (e.2.2 - 1) := u64 (x + 1)]> cnts).
    assert (length cnts1 = length cnts) as Hl by apply length_insert.
    destruct (IH (u64 (bytes + e.2.1)) cnts1) as (cnts' & -> & Hl' & Hj).
    { by rewrite Hl. }
    { apply Forall_insert; [done|]. apply u64_small, u64_range. }
    { apply u64_small, u64_range. }
    exists cnts'. split_and!; [|by rewrite Hl', Hl|].
    + cbn [foldr]. by rewrite u64_add_again.
    + intros j. rewrite Hj, with_copies_cons. unfold cnts1.
      destruct (decide (j = Z.to_nat (e.2.2 - 1))) as [->|Hne].
      * rewrite list_lookup_insert_eq by (by eapply lookup_lt_Some). rewrite Hx. cbn.
        rewrite decide_True by lia. by rewrite u64_add_again.
      * rewrite list_lookup_insert_ne by done. rewrite decide_False by lia. by destruct (cnts !! j).
Qed.

(** ** The report *)

(** The report counts what the servers that are up hold: their objects and bytes, the
    different objects, and how many of those have each number of copies. *)
Record reports (c : cacheCluster) (V : list view) (f : rep_factor_t) (m : copy_table) : Prop := {
  rp_table : table_of (up_views (cache_servers c) V) m;
  rp_objs : n_server_obj f = u64 (total_objs (up_views (cache_servers c) V));
  rp_bytes : n_server_byte f = u64 (total_bytes (up_views (cache_servers c) V));
  rp_cluster : n_cluster_obj f = Z.of_nat (size m);
  rp_length : Z.of_nat (length (n_chunk_cnt f)) = ec_n (ec_params c);
  rp_hist (j : Z) : 1 <= j <= ec_n (ec_params c) ->
    n_chunk_cnt f !! Z.to_nat (j - 1) = Some (u64 (with_copies (map_to_list m) j))
}.

Lemma find_rep_factor_ok hash n c V :
  cl_rel hash n c V -> 0 < ec_n (ec_params c) <= MAX_EC_N ->
  (forall id, copies (up_views (cache_servers c) V) id <= ec_n (ec_params c)) ->
  exists f m, find_rep_factor c = Ok f /\ reports c V f m.
Proof.
  intros HR Hn Hle. unfold find_rep_factor, MAX_EC_N in *.
  destruct (rep_servers_spec hash n _ _ HR [] ∅ 0 0) as (m & -> & HT); try done.
  { intros id. cbn [app]. etrans; [apply Hle|lia]. }
  cbn [rbind app] in *.
  destruct (rep_objects_spec (map_to_list m) 0 (replicate (Z.to_nat (ec_n (ec_params c))) 0))
    as (cnts & -> & Hl & Hj).
  { apply Forall_forall. intros [id [sz k]] Hin%elem_of_map_to_list. cbn. rewrite length_replicate.
    pose proof (HT id) as Hid. rewrite Hin in Hid. cbn in Hid. specialize (Hle id).
    pose proof (copies_nonneg (up_views (cache_servers c) V) id).
    destruct (Z.eqb_spec (copies (up_views (cache_servers c) V) id) 0); [done|]. injection Hid as ->. lia. }
  { by apply Forall_replicate. }
  { done. }
  cbn [rbind]. eexists _, m. split; [reflexivity|]. split; cbn; try done.
  - rewrite Hl, length_replicate. lia.
  - intros j Hj'. rewrite Hj, lookup_replicate_2 by lia. replace (Z.of_nat (Z.to_nat (j - 1)) + 1) with j by lia. done.
Qed.
