(* ===== verification/ClusterTraceThms.v ===== *)
(** * The run of the cluster over a trace

    The thread reads the requests of a trace, fails and recovers servers as the failure
    file says and gives the requests to the cluster.  The run never fails before its final
    report; the lines of the failure file are used up as the time of the trace passes; the
    buckets are always mapped to the servers that the last line leaves up. *)

From Stdlib Require Import Floats.SpecFloat.
From S2P Require Import Prelude Store HashTable HashTableSpec Cache CacheSpec Policies.
From S2P Require Import ReaderBase BinReader Reader BinReaderSpec Simulator.
From S2P Require Import ConsistentHash ConsistentHashSpec ConsistentHashThms.
From S2P Require Import CacheServer CacheServerSpec CacheCluster CacheClusterSpec.
From S2P Require Import CacheClusterThms ClusterRequestThms ClusterGetThms ClusterThread.
From S2P Require Import ClusterMapThms ClusterRunThms ClusterReportThms.

(** ** Which servers are up *)

(** The servers [down] are down, and every bucket is mapped to the others. *)
Record placed_without (hash : Z -> Z) (vs : list vnode_t) (down : list Z) (c : cacheCluster) : Prop := {
  pl_ring : on_ring vs c;
  pl_avail : avail_ok c;
  pl_up x : 0 <= x < Z.of_nat (length (cache_servers c)) -> is_up c x = negb (bool_decide (x ∈ down));
  pl_map b : 0 <= b < N_BUCKET -> ch_mapping c !! b = Some (remaining hash c vs down b)
}.

Lemma srv_same_avail l l' : Forall2 srv_same l l' ->
  length (filter (fun s => s_available s = true) l') = length (filter (fun s => s_available s = true) l).
Proof.
  induction 1 as [|s s' l l' (_ & _ & Hs) _ IH]; [done|]. rewrite !filter_cons, Hs.
  by case_decide; cbn [length]; rewrite IH.
Qed.

Lemma on_ring_kept vs c c' : cl_kept c c' -> on_ring vs c -> on_ring vs c'.
Proof.
  intros HK []. pose proof (Forall2_length _ _ _ (kp_servers _ _ HK)) as Hl.
  split; rewrite <- ?Hl, ?(kp_ring _ _ HK), ?(kp_params _ _ HK), ?(kp_ec _ _ HK); done.
Qed.

Lemma line_ok_kept c c' fs : cl_kept c c' -> line_ok c fs -> line_ok c' fs.
Proof.
  intros HK []. pose proof (Forall2_length _ _ _ (kp_servers _ _ HK)) as Hl.
  split; rewrite <- ?Hl, ?(kp_ec _ _ HK); done.
Qed.

Lemma placed_without_kept hash vs down c c' :
  cl_kept c c' -> n_avail_server (cluster_stat c') = n_avail_server (cluster_stat c) ->
  placed_without hash vs down c -> placed_without hash vs down c'.
Proof.
  intros HK Ha [G Hok Hup Hmap]. pose proof (Forall2_length _ _ _ (kp_servers _ _ HK)) as Hl. split.
  - by eapply on_ring_kept.
  - unfold avail_ok in *. by rewrite Ha, (srv_same_avail _ _ (kp_servers _ _ HK)).
  - intros x Hx. rewrite <- (Hup x) by lia. apply is_up_servers, HK.
  - intros b Hb. unfold remaining. rewrite (kp_mapping _ _ HK), (kp_ec _ _ HK). by apply Hmap.
Qed.

Lemma on_ring_switched vs c f c' : switched c f c' -> on_ring vs c -> on_ring vs c'.
Proof.
  intros D []. pose proof (Forall2_length _ _ _ (dn_servers _ _ _ D)) as Hl.
  split; rewrite <- ?Hl, ?(dn_ring _ _ _ D), ?(dn_params _ _ _ D), ?(dn_ec _ _ _ D); done.
Qed.

(** What a change of availability leaves alone. *)
Record reconfigured (c c' : cacheCluster) : Prop := {
  rf_params : cluster_params c' = cluster_params c;
  rf_ec : ec_params c' = ec_params c;
  rf_length : length (cache_servers c') = length (cache_servers c);
  rf_req_cnt : cluster_req_cnt (cluster_stat c') = cluster_req_cnt (cluster_stat c);
  rf_hit_cnt : cluster_hit_cnt (cluster_stat c') = cluster_hit_cnt (cluster_stat c)
}.

Lemma update_servers_ready hash size_of max_flow m c V vs down fs :
  placed_without hash vs down c -> line_ok c fs -> ready hash size_of m c V ->
  exists c', update_servers hash max_flow fs c = Ok c' /\ placed_without hash vs fs c' /\
    ready hash size_of m c' V /\ reconfigured c c'.
Proof.
  intros [G Hok _ _] L [RT HR HK]. destruct (update_servers_mapped hash max_flow c vs fs G L Hok)
    as (c2 & c3 & E & D & Hok2 & M & T & Hb). pose proof T as [Er _ Hmap _].
  pose proof (Forall2_length _ _ _ (dn_servers _ _ _ D)) as Hl.
  exists c3. split; [exact E|]. split; [|split].
  - split.
    + pose proof (on_ring_switched _ _ _ _ D G) as []. rewrite Er. by split.
    + by rewrite Er.
    + rewrite Er. change (length (cache_servers (set_n_bucket _ _))) with (length (cache_servers c2)).
      intros x Hx. change (is_up c2 x = negb (bool_decide (x ∈ fs))).
      rewrite (dn_up _ _ _ D) by lia. by rewrite bool_decide_true by lia.
    + intros b Hb'. rewrite (Hmap b Hb'), Hb. unfold remaining.
      rewrite Er. by rewrite <- (dn_ec _ _ _ D).
  - eapply mapped_ready; [exact M| | | |exact T].
    + eapply switched_configured; [exact D|apply RT].
    + by eapply switched_rel.
    + eapply kinds_ok_ext; [apply (dn_params _ _ _ D)|apply (dn_ec _ _ _ D)|done].
  - rewrite Er. by split; [apply D|apply D|symmetry|apply D|apply D].
Qed.

(** ** Where the copies are

    While no server fails, an object is only on the first n servers of its bucket. *)

(** the whole copies of an object *)
Definition replicas (m : cluster_mode_e) : Z :=
  match m with
  | no_replication | two_rep_popularity => 1
  | three_rep_always | C2DN_add_n_three_rep => 3
  | _ => 2
  end.

Definition homed (hash : Z -> Z) (vs : list vnode_t) (n : Z) (V : list view) : Prop :=
  forall id (y : nat), holds id V (Z.of_nat y) ->
    Z.of_nat y ∈ take (Z.to_nat n) (ring_order hash vs (id mod N_BUCKET)).

Lemma touched_first c size_of id p lead idxs :
  routed c -> replicas (cp_cluster_mode (cluster_params c)) <= ec_n (ec_params c) ->
  0 <= p < leads c -> idxs !! Z.to_nat p = Some lead ->
  touched size_of c id lead idxs ⊆ take (Z.to_nat (ec_n (ec_params c))) idxs.
Proof.
  intros RT Hr Hp Hl. pose proof (leads_n c RT) as Hn. unfold touched.
  destruct (coded size_of c id); [done|].
  assert (forall k : nat, Z.of_nat k <= ec_n (ec_params c) ->
            take k idxs ⊆ take (Z.to_nat (ec_n (ec_params c))) idxs) as Htake.
  { intros k Hk x Hx. replace k with (k `min` Z.to_nat (ec_n (ec_params c)))%nat in Hx by lia.
    rewrite <- take_take in Hx. by eapply subseteq_take. }
  assert (lead ∈ take (Z.to_nat (ec_n (ec_params c))) idxs) as Hin.
  { apply (list_elem_of_lookup_2 _ (Z.to_nat p)). by rewrite lookup_take_lt by lia. }
  unfold replicas in Hr. destruct (cp_cluster_mode _); cbn [full_targets];
    try (intros x ->%list_elem_of_singleton; exact Hin); apply Htake; lia.
Qed.

Lemma remaining_first hash c vs b :
  take (Z.to_nat (ec_n (ec_params c))) (remaining hash c vs [] b) =
  take (Z.to_nat (ec_n (ec_params c))) (ring_order hash vs b).
Proof.
  unfold remaining. rewrite take_take, Nat.min_l by (unfold MAX_N_UNAVAIL; lia).
  by rewrite filter_every by (intros x _; apply not_elem_of_nil).
Qed.

Lemma got_homed hash size_of vs m c V sz r p lead hit c' V' r' :
  routed c -> replicas (cp_cluster_mode (cluster_params c)) <= ec_n (ec_params c) ->
  let idxs := remaining hash c vs [] (req_obj_id_int r mod N_BUCKET) in
  0 <= p < leads c -> idxs !! Z.to_nat p = Some lead ->
  got hash size_of m c V sz r idxs lead hit c' V' r' ->
  homed hash vs (ec_n (ec_params c)) V -> homed hash vs (ec_n (ec_params c)) V'.
Proof.
  intros RT Hr idxs Hp Hl G HH id y (v & Hv & Hh). rewrite Nat2Z.id in Hv.
  pose proof (an_step _ _ _ _ _ _ _ _ _ (gt_answered _ _ _ _ _ _ _ _ _ _ _ _ _ G)) as HS.
  destruct (decide (id = req_obj_id_int r)) as [->|Hne].
  - destruct (decide (Z.of_nat y ∈ touched size_of c (req_obj_id_int r) lead idxs)) as [Hin|Hout].
    + rewrite <- (remaining_first hash c). exact (touched_first c size_of _ p lead idxs RT Hr Hp Hl _ Hin).
    + apply HH. exists v. rewrite Nat2Z.id. split; [|done].
      by rewrite <- (gt_off _ _ _ _ _ _ _ _ _ _ _ _ _ G y Hout).
  - destruct (Forall2_lookup_r _ _ _ _ _ HS Hv) as (v0 & Hv0 & [_ Hother]).
    apply HH. exists v0. rewrite Nat2Z.id. split; [done|]. by apply Hother.
Qed.

(** the servers that hold an object, one after the other *)
Lemma copies_positions V id : exists ys, NoDup ys /\ Z.of_nat (length ys) = copies V id /\
  forall x, x ∈ ys -> exists y : nat, x = Z.of_nat y /\ holds id V (Z.of_nat y).
Proof.
  induction V as [|v V (ys & Hnd & Hlen & Hys)] using rev_ind.
  - exists []. split_and!; [constructor|done|]. intros x Hx. by apply not_elem_of_nil in Hx.
  - assert (forall x, x ∈ ys -> exists y : nat, x = Z.of_nat y /\ (y < length V)%nat /\ holds id (V ++ [v]) (Z.of_nat y)) as Hold.
    { intros x Hx. destruct (Hys x Hx) as (y & -> & w & Hw & Hh). rewrite Nat2Z.id in Hw.
      pose proof (lookup_lt_Some _ _ _ Hw) as Hy. exists y. split_and!; [done|done|].
      exists w. rewrite Nat2Z.id. by rewrite lookup_app_l. }
    rewrite copies_snoc. destruct (has id v) eqn:Hv.
    + exists (ys ++ [Z.of_nat (length V)]). split_and!.
      * apply NoDup_app. split_and!; [done| |apply NoDup_singleton].
        intros x Hx ->%list_elem_of_singleton. destruct (Hold _ Hx) as (y & Hy & Hlt & _). lia.
      * rewrite length_app. simpl. lia.
      * intros x [Hx| ->%list_elem_of_singleton]%elem_of_app.
        -- destruct (Hold x Hx) as (y & ? & _ & ?). by exists y.
        -- exists (length V). split; [done|]. exists v. rewrite Nat2Z.id. split; [|done].
           by rewrite lookup_app_r, Nat.sub_diag by lia.
    + exists ys. split_and!; [done|lia|]. intros x Hx. destruct (Hold x Hx) as (y & ? & _ & ?). by exists y.
Qed.

Lemma homed_copies hash vs n V id : 0 <= n -> homed hash vs n V -> copies V id <= n.
Proof.
  intros Hn HH. destruct (copies_positions V id) as (ys & Hnd & <- & Hys).
  assert (ys ⊆+ take (Z.to_nat n) (ring_order hash vs (id mod N_BUCKET))) as Hsub.
  { apply NoDup_submseteq; [done|]. intros x Hx. destruct (Hys x Hx) as (y & -> & Hh). by apply HH. }
  apply submseteq_length in Hsub. rewrite length_take in Hsub. lia.
Qed.

(** ** One iteration of the loop *)

(** The lines that are left, the servers that are down, and when that was last looked at;
    what a request at time [now] makes of them. *)
Abbreviation availability := (list (list Z) * list Z * Z)%type.

Definition availability_of (t : thread_t) : availability :=
  (failure_vector_deque t, prev_failed_servers t, last_cluster_unavailability_update t).

Definition due (now : Z) (a : availability) : availability :=
  match a with
  | (fs :: rest, _, last) => if u64 (now - last) >=? CLUSTER_UPDATE_INTERVAL then (rest, fs, now) else a
  | _ => a
  end.

(** No server is down, and none ever will be. *)
Definition calm (a : availability) : Prop := a.1.2 = [] /\ Forall (fun fs => fs = []) a.1.1.

Lemma calm_due now a : calm a -> calm (due now a).
Proof.
  destruct a as [[q down] last]. intros [Hd Hq]. cbn in Hd, Hq. unfold due. destruct q as [|fs q]; [done|].
  apply Forall_cons in Hq as [-> Hq]. destruct (_ >=? _); [done|]. split; [done|]. by constructor.
Qed.

Section thread.
  Context (hash : Z -> Z) (rand : nat -> Z) (size_of : Z -> Z).
  Context (max_flow : list (Z * Z * Z) -> list Z) (vs : list vnode_t).

(** The thread between two requests. *)
Record thread_ok (m : Z) (t : thread_t) (V : list view) : Prop := {
  th_ready : ready hash size_of m (cache_cluster t) V;
  th_placed : placed_without hash vs (prev_failed_servers t) (cache_cluster t);
  th_lines : Forall (line_ok (cache_cluster t)) (failure_vector_deque t)
}.

(** The configuration stays. *)
Record same_config (c c' : cacheCluster) : Prop := {
  sc_params : cluster_params c' = cluster_params c;
  sc_ec : ec_params c' = ec_params c;
  sc_length : length (cache_servers c') = length (cache_servers c)
}.

#[export] Instance same_config_preorder : PreOrder same_config.
Proof. split; [by split|]. intros c1 c2 c3 [] []. split; congruence. Qed.

Lemma kept_config c c' : cl_kept c c' -> same_config c c'.
Proof. intros HK. split; [apply HK|apply HK|]. symmetry. apply (Forall2_length _ _ _ (kp_servers _ _ HK)). Qed.

Lemma reconfigured_config c c' : reconfigured c c' -> same_config c c'.
Proof. intros []. by split. Qed.

Lemma config_lines c c' l : same_config c c' -> Forall (line_ok c) l -> Forall (line_ok c') l.
Proof. intros [_ He Hl] H. eapply Forall_impl; [exact H|]. intros fs []. split; rewrite ?Hl, ?He; done. Qed.

Lemma config_cost c c' : same_config c c' -> cost c' = cost c.
Proof. intros [_ He Hl]. unfold cost. by rewrite He, Hl. Qed.

Lemma update_availability_ok now m t V : thread_ok m t V ->
  exists t', update_availability hash max_flow now t = Ok t' /\ thread_ok m t' V /\
    availability_of t' = due now (availability_of t) /\ reconfigured (cache_cluster t) (cache_cluster t') /\
    vtime t' = vtime t.
Proof.
  intros T. pose proof T as [RD PL HL]. unfold update_availability, availability_of, due.
  destruct (failure_vector_deque t) as [|fs rest] eqn:Hq; [by exists t; split_and!; try rewrite Hq|].
  destruct (u64 _ >=? _); [|by exists t; split_and!; try rewrite Hq].
  apply Forall_cons in HL as [Hfs Hrest].
  assert (exists c', (if decide (fs = prev_failed_servers t) then Ok (cache_cluster t)
             else update_servers hash max_flow fs (cache_cluster t)) = Ok c' /\
             placed_without hash vs fs c' /\ ready hash size_of m c' V /\ reconfigured (cache_cluster t) c')
    as (c' & -> & PL' & RD' & RF).
  { case_decide as Hd; [subst fs; exists (cache_cluster t); by split_and!|].
    by eapply update_servers_ready. }
  cbn [rbind]. eexists. split; [done|]. split; [|by split_and!].
  split; [done|done|]. eapply config_lines; [by eapply reconfigured_config|done].
Qed.

Lemma write_log_ok now m t V : thread_ok m t V ->
  thread_ok m (write_log now t) V /\ availability_of (write_log now t) = availability_of t /\
  vtime (write_log now t) = vtime t /\ same_config (cache_cluster t) (cache_cluster (write_log now t)) /\
  cluster_stat (cache_cluster (write_log now t)) = cluster_stat (cache_cluster t).
Proof.
  intros T. unfold write_log. destruct (_ && _); [|by split_and!]. destruct T as [RD PL HL].
  set (c' := set_bucket_stat _ (cache_cluster t)).
  assert (cl_kept (cache_cluster t) c') as HK by (apply kept_by_fields; try done; apply length_fmap).
  split; [|split_and!; try done; by apply kept_config]. split; cbn.
  - eapply ready_kept; [exact HK| |exact RD]. eapply cl_rel_same; [done|apply RD].
  - by eapply placed_without_kept.
  - eapply config_lines; [by apply kept_config|done].
Qed.

(** What the loop needs of the request it holds, and what it hands to the reader. *)
Lemma run_step_ok m t V sz r :
  0 <= m -> thread_ok (m + cost (cache_cluster t) + 1) t V ->
  request_ok hash size_of (cache_cluster t) V sz r ->
  exists hit t' r' V', run_step hash rand max_flow t r = Ok (hit, t', r') /\
    thread_ok m t' V' /\ availability_of t' = due (req_real_time r) (availability_of t) /\
    vtime t' = u64 (vtime t + 1) /\ same_config (cache_cluster t) (cache_cluster t') /\
    v_cap <$> V' = v_cap <$> V /\
    cluster_req_cnt (cluster_stat (cache_cluster t')) = u64 (cluster_req_cnt (cluster_stat (cache_cluster t)) + 1) /\
    cluster_hit_cnt (cluster_stat (cache_cluster t')) =
      (if ch_is_hit hit then u64 (cluster_hit_cnt (cluster_stat (cache_cluster t)) + 1)
       else cluster_hit_cnt (cluster_stat (cache_cluster t))) /\
    carried r r' /\ req_obj_id_int r' = req_obj_id_int r /\ req_obj_size r' = req_obj_size r /\
    (replicas (cp_cluster_mode (cluster_params (cache_cluster t))) <= ec_n (ec_params (cache_cluster t)) ->
     calm (availability_of t) -> homed hash vs (ec_n (ec_params (cache_cluster t))) V ->
     homed hash vs (ec_n (ec_params (cache_cluster t))) V').
Proof.
  intros Hm T HQ. unfold run_step.
  destruct (update_availability_ok (req_real_time r) _ t V T) as (t1 & -> & [RD1 PL1 HL1] & Ha & RF & Hv).
  cbn [rbind]. pose proof (reconfigured_config _ _ RF) as SC.
  destruct (cluster_get_ok hash rand size_of m (cache_cluster t1) V sz r) as
    (idxs & p & lead & hit & c2 & r2 & V2 & Hmap & Hp & Hl & E & G);
    [done|by rewrite (config_cost _ _ SC)|by eapply request_ok_ext; try apply SC|].
  rewrite E. cbn [rbind]. set (t2 := Thread c2 _ _ _ _ _ _). pose proof G as [HA Hav _ Hrq Hht _ _ _].
  pose proof (an_kept _ _ _ _ _ _ _ _ _ HA) as HK.
  assert (thread_ok m t2 V2) as T2.
  { split; [apply HA|by eapply placed_without_kept|]. eapply config_lines; [by apply kept_config|done]. }
  destruct (write_log_ok (req_real_time r) m t2 V2 T2) as (T3 & Ha3 & Hv3 & SC3 & Hs3).
  exists hit, (write_log (req_real_time r) t2), r2, V2.
  split; [done|]. split; [exact T3|]. split; [by rewrite Ha3, <- Ha|]. split; [by rewrite Hv3; cbn; rewrite Hv|].
  split; [etrans; [exact SC|]; etrans; [by apply kept_config|exact SC3]|].
  split; [apply (views_step_caps _ _ _ (an_step _ _ _ _ _ _ _ _ _ HA))|].
  rewrite Hs3. cbn. rewrite Hrq, Hht, (rf_req_cnt _ _ RF), (rf_hit_cnt _ _ RF). split_and!; try done.
  - by eapply cluster_get_carries.
  - apply HA.
  - apply HA.
  - intros Hrep Hcalm HH. apply (calm_due (req_real_time r)) in Hcalm. rewrite <- Ha in Hcalm.
    destruct Hcalm as [Hdown _]. cbn in Hdown. destruct SC as [Hcp Hce _].
    rewrite (pl_map _ _ _ _ PL1), Hdown in Hmap by (by apply Z.mod_pos_bound).
    injection Hmap as <-. rewrite <- Hce in *. rewrite <- Hcp in Hrep.
    exact (got_homed _ _ _ _ _ _ _ _ _ _ _ _ _ _ (rd_routed _ _ _ _ _ RD1) Hrep Hp Hl G HH).
Qed.

(** ** The loop

    A trace is the list of the times, identifiers and sizes of its requests; a reader yields
    it when it reads them one after the other, whatever is in the request it fills in. *)

Context (g_quark_from_string atof_u64 : list Z -> Z).
#[local] Abbreviation read := (read_one_req g_quark_from_string atof_u64).
#[local] Abbreviation item := (Z * Z * Z)%type.

Record holds_item (x : item) (q : request) : Prop := {
  hi_valid : req_valid q = true;
  hi_item : x = (req_real_time q, req_obj_id_int q, req_obj_size q);
  hi_hv : hv_ok hash q;
  hi_range : req_range q
}.

Fixpoint yields (r : reader_t) (l : list item) : Prop :=
  forall q, req_range q -> exists b r' q', read r q = Ok (b, r', q') /\
    match l with [] => req_valid q' = false | x :: l => holds_item x q' /\ yields r' l end.

(** the request in hand and the ones to be read *)
Definition pending (r : reader_t) (q : request) (l : list item) : Prop :=
  match l with [] => req_valid q = false | x :: l => holds_item x q /\ yields r l end.

Lemma yields_pending r l q : yields r l -> req_range q ->
  exists b r' q', read r q = Ok (b, r', q') /\ pending r' q' l.
Proof. destruct l; intros H Hq; exact (H q Hq). Qed.

(** An object of the trace fits in the caches. *)
Record item_ok (c : cacheCluster) (V : list view) (x : item) : Prop := {
  io_size : size_of x.1.2 = x.2;
  io_pos : 0 < x.2;
  io_piece : exists sz, (if coded size_of c x.1.2 then chunk_size (ec_params c) x.2 = Ok sz else sz = x.2) /\
    0 < sz < 2 ^ 32 /\ Forall (fun v => sz <= v_cap v) V
}.

Lemma item_request c V x q : item_ok c V x -> holds_item x q -> exists sz, request_ok hash size_of c V sz q.
Proof. intros [Hs _ (sz & Hp & Hsz & Hc)] [Hv -> Hh Hr]. cbn in *. by exists sz. Qed.

Lemma item_ok_ext c c' V V' x :
  same_config c c' -> v_cap <$> V' = v_cap <$> V -> item_ok c V x -> item_ok c' V' x.
Proof.
  intros [Hp He _] HV [Hs Hpos (sz & Hpc & Hsz & Hc)]. split; [done|done|]. exists sz. unfold coded in *.
  rewrite Hp, He. do 2 (split; [done|]).
  apply Forall_fmap with (f := v_cap) (P := fun k => sz <= k). rewrite HV. by apply Forall_fmap.
Qed.

(** What [l] has made of the thread, with [h] hits. *)
Record ran (l : list item) (h : Z) (t t' : thread_t) : Prop := {
  ra_hits : 0 <= h <= Z.of_nat (length l);
  ra_avail : availability_of t' = foldl (fun a x => due x.1.1 a) (availability_of t) l;
  ra_config : same_config (cache_cluster t) (cache_cluster t');
  ra_vtime : u64 (vtime t') = u64 (vtime t + Z.of_nat (length l));
  ra_req_cnt : u64 (cluster_req_cnt (cluster_stat (cache_cluster t'))) =
    u64 (cluster_req_cnt (cluster_stat (cache_cluster t)) + Z.of_nat (length l));
  ra_hit_cnt : u64 (cluster_hit_cnt (cluster_stat (cache_cluster t'))) =
    u64 (cluster_hit_cnt (cluster_stat (cache_cluster t)) + h)
}.

Definition stays_homed (t : thread_t) (V V' : list view) : Prop :=
  let c := cache_cluster t in
  replicas (cp_cluster_mode (cluster_params c)) <= ec_n (ec_params c) -> calm (availability_of t) ->
  homed hash vs (ec_n (ec_params c)) V -> homed hash vs (ec_n (ec_params c)) V'.

Lemma u64_again x y : u64 (u64 x + y) = u64 (x + y).
Proof. unfold u64, wrap. apply Zplus_mod_idemp_l. Qed.

Lemma run_loop_ok l : forall fuel m t V r q, (length l < fuel)%nat -> 0 <= m ->
  thread_ok (m + Z.of_nat (length l) * (cost (cache_cluster t) + 1)) t V ->
  pending r q l -> Forall (item_ok (cache_cluster t) V) l ->
  exists t' V' q' h, run_loop hash rand max_flow g_quark_from_string atof_u64 fuel t r q = Ok (t', q') /\
    thread_ok m t' V' /\ ran l h t t' /\ stays_homed t V V'.
Proof.
  induction l as [|x l IH]; intros [|fuel] m t V r q Hf Hm T HP HI; cbn [length] in Hf; try lia; cbn [run_loop].
  - cbn [pending] in HP. rewrite HP. exists t, V, q, 0. split; [done|]. split.
    + by replace (m + Z.of_nat (length ([] : list item)) * (cost (cache_cluster t) + 1)) with m in T by (simpl; lia).
    + split; [|by intros ? ?]. split; rewrite ?Z.add_0_r; done.
  - destruct HP as [HX HY]. rewrite (hi_valid _ _ HX). apply Forall_cons in HI as [Hx HI].
    destruct (item_request _ _ _ _ Hx HX) as (sz & HQ).
    pose proof (cf_n _ (rd_routed _ _ _ _ _ (th_ready _ _ _ T))) as Hn.
    assert (0 <= cost (cache_cluster t)) as Hc by (unfold cost; lia).
    destruct (run_step_ok (m + Z.of_nat (length l) * (cost (cache_cluster t) + 1)) t V sz q)
      as (hit & t1 & q1 & V1 & -> & T1 & Ha & Hv & SC & Hcap & Hrq & Hht & [Htm Hfl] & Hid & Hsz & Hhome).
    { lia. }
    { replace (m + Z.of_nat (length l) * (cost (cache_cluster t) + 1) + cost (cache_cluster t) + 1)
        with (m + Z.of_nat (length (x :: l)) * (cost (cache_cluster t) + 1)) by (cbn [length]; lia). exact T. }
    { exact HQ. }
    assert (req_range q1) as Hr1.
    { destruct (hi_range _ _ HX) as (? & ? & ? & Hx1 & Hx2). unfold req_range. rewrite Htm, Hid, Hsz.
      destruct (Hfl (conj Hx1 Hx2)). do 4 (split; [done|]). done. }
    cbn [rbind]. destruct (yields_pending r l q1 HY Hr1) as (b & r2 & q2 & -> & HP2). cbn [rbind].
    destruct (IH fuel m t1 V1 r2 q2) as (t' & V' & q' & h & E & T' & [Hh Ha' SC' Hv' Hrq' Hht'] & Hhome');
      [lia|done|by rewrite (config_cost _ _ SC)|done|eapply Forall_impl; [exact HI|]; intros y; by apply item_ok_ext|].
    exists t', V', q', (h + (if ch_is_hit hit then 1 else 0)). split; [exact E|]. split; [exact T'|].
    split.
    2:{ intros Hrep Hcalm HH. unfold stays_homed in Hhome'. destruct SC as [Hcp Hce _].
        rewrite Ha, Hcp, Hce in Hhome'. apply Hhome'; [done|by apply calm_due|by apply Hhome]. }
    rewrite Ha, Hv, Hrq, Hht in *. rewrite (hi_item _ _ HX).
    split; cbn [length foldl fst]; [by case_match; lia|exact Ha'|by etrans| | |].
    + rewrite Hv', u64_again. f_equal. lia.
    + rewrite Hrq', u64_again. f_equal. lia.
    + rewrite Hht'. destruct (ch_is_hit hit); [rewrite u64_again; f_equal; lia|by rewrite Z.add_0_r].
Qed.

(** ** The whole run *)

(** the thread when run enters its loop, at the time of the first request *)
Definition started (now : Z) (t : thread_t) : thread_t :=
  Thread (cache_cluster t) (failure_vector_deque t) [] now (vtime t) now (log_interval t).

Lemma new_request_range : req_range new_request.
Proof. by vm_compute. Qed.

Lemma run_ok m t V r x l : 0 <= m -> yields r (x :: l) -> (length (x :: l) < read_fuel r)%nat ->
  thread_ok (m + Z.of_nat (length (x :: l)) * (cost (cache_cluster t) + 1)) (started x.1.1 t) V ->
  Forall (item_ok (cache_cluster t) V) (x :: l) ->
  exists t' V' h,
    run hash rand max_flow g_quark_from_string atof_u64 t r =
      (let! f := find_rep_factor (cache_cluster t') in Ok (t', f)) /\
    thread_ok m t' V' /\ ran (x :: l) h (started x.1.1 t) t' /\ stays_homed (started x.1.1 t) V V'.
Proof.
  intros Hm HY Hf T HI. unfold run.
  destruct (HY new_request new_request_range) as (b & r1 & q1 & -> & HX & HY1). cbn [rbind].
  pose proof (Forall_inv HI) as Hx. pose proof (io_pos _ _ _ Hx) as Hpos.
  rewrite (hi_item _ _ HX) in Hpos. cbn in Hpos. rewrite (proj2 (Z.leb_gt _ _)) by lia.
  replace (req_real_time q1) with x.1.1 by (by rewrite (hi_item _ _ HX)). fold (started x.1.1 t).
  destruct (run_loop_ok (x :: l) (read_fuel r) m (started x.1.1 t) V r1 q1 Hf Hm T (conj HX HY1) HI)
    as (t' & V' & q' & h & -> & T' & R & HS). cbn [rbind]. by exists t', V', h.
Qed.
End thread.

(** ** A binary trace *)

Section binary.
  Context (g_quark_from_string atof_u64 : list Z -> Z) (hash : Z -> Z).
  Context (ip : reader_init_param_t) (cs : list Z).
  Hypothesis Hip : fields_ok ip.
  Hypothesis Hcs : Forall (fun c => unsigned_char c = true) cs.
  Hypothesis Hlen : 0 < len cs < 2 ^ 20.
  Hypothesis Hop : has_field cs (op_field ip) = false.
  Hypothesis Htime : has_field cs (real_time_field ip) = true.
  Hypothesis Hid : has_field cs (obj_id_field ip) = true.
  Hypothesis Hsize : has_field cs (obj_size_field ip) = true.

(** the time, the identifier and the size that a record holds *)
Definition item_of (vs : list Z) : Z * Z * Z :=
  (value vs (real_time_field ip), value vs (obj_id_field ip), value vs (obj_size_field ip)).

Lemma binary_yields recs : forall r pre,
  bin_inv ip cs r -> mapped_file r = pre ++ flat_map (bin_bytes cs) recs -> mmap_offset r = len pre ->
  Forall (bin_ok cs) recs -> len (mapped_file r) < 2 ^ 62 ->
  yields hash g_quark_from_string atof_u64 r (item_of <$> recs).
Proof using All.
  induction recs as [|vs recs IH]; intros r pre Hinv Hf Ho Hok Hl q Hq.
  - destruct (bin_read_end g_quark_from_string atof_u64 ip cs Hip Hcs Hlen r q Hinv) as (r' & q' & E & Hv).
    { unfold file_size. by rewrite Hf, Ho, app_nil_r. }
    by exists false, r', q'.
  - apply Forall_cons in Hok as [Hvs Hok]. cbn [flat_map] in Hf.
    rewrite (bin_read_record g_quark_from_string atof_u64 ip cs Hip Hcs Hlen r q pre vs
               (flat_map (bin_bytes cs) recs)) by done.
    eexists _, _, _. split; [reflexivity|]. cbn [fmap list_fmap]. split.
    + split; [done| |by left|by apply bin_fill_range].
      unfold bin_fill, item_of. cbn. by rewrite Htime, Hid, Hsize.
    + apply (IH _ (pre ++ bin_bytes cs vs)); try done.
      cbn. by rewrite Hf, app_assoc.
Qed.

Section trace.
  Context (rand : nat -> Z) (size_of : Z -> Z) (max_flow : list (Z * Z * Z) -> list Z) (vs : list vnode_t).

(** A trace file and a cluster that are ready for each other. *)
Record runnable (m : Z) (t : thread_t) (V : list view) (pre : list Z) (recs : list (list Z)) : Prop := {
  rb_format : binary_fmt ip = pre ++ cs;
  rb_prefix : Forall (fun c => is_alnum c = false) pre;
  rb_some : recs <> [];
  rb_records : Forall (bin_ok cs) recs;
  rb_file : len (flat_map (bin_bytes cs) recs) < 2 ^ 62;
  rb_ready : ready hash size_of (m + Z.of_nat (length recs) * (cost (cache_cluster t) + 1)) (cache_cluster t) V;
  rb_placed : placed_without hash vs [] (cache_cluster t);
  rb_lines : Forall (line_ok (cache_cluster t)) (failure_vector_deque t);
  rb_items : Forall (item_ok size_of (cache_cluster t) V) (item_of <$> recs)
}.

Lemma binary_run m t V pre recs oty : 0 <= m -> runnable m t V pre recs ->
  exists r t' V' h start,
    setup_reader (flat_map (bin_bytes cs) recs) BIN_TRACE oty ip = Ok r /\
    run hash rand max_flow g_quark_from_string atof_u64 t r =
      (let! f := find_rep_factor (cache_cluster t') in Ok (t', f)) /\
    hd_error (item_of <$> recs) = Some start /\
    thread_ok hash size_of vs m t' V' /\ ran (item_of <$> recs) h (started start.1.1 t) t' /\
    stays_homed hash vs (started start.1.1 t) V V'.
Proof using Hcs Hid Hip Hlen Hop Hsize Htime.
  intros Hm [Hfmt Hpre Hne Hok Hl RD PL HL HI].
  pose proof (bin_records_length g_quark_from_string atof_u64 ip cs Hip Hcs Hlen recs Hok) as Hn.
  pose proof (record_pos g_quark_from_string atof_u64 ip cs Hip Hcs Hlen) as Hp.
  destruct (binary_setup g_quark_from_string atof_u64 ip cs Hip Hcs Hlen (flat_map (bin_bytes cs) recs) oty pre (len recs))
    as (r & Hs & Hf & Ho & Hinv & _); try done.
  { destruct recs; [done|]. intros E. rewrite E in Hn. cbn [length] in Hn. nia. }
  pose proof (binary_yields recs r [] Hinv Hf Ho Hok ltac:(by rewrite Hf)) as HY.
  destruct recs as [|vs0 recs]; [done|]. cbn [fmap list_fmap] in *.
  destruct (run_ok hash rand size_of max_flow vs g_quark_from_string atof_u64 m t V r (item_of vs0)
              (item_of <$> recs)) as (t' & V' & h & E & T' & R & HS); try done.
  { unfold read_fuel. rewrite Hf. cbn [length] in *. rewrite length_fmap. nia. }
  { split; [|done|done]. cbn [length]. rewrite length_fmap. exact RD. }
  exists r, t', V', h, (item_of vs0). by split_and!.
Qed.

(** The run over a trace file.  From the bytes of a binary trace of times, identifiers and
    sizes: the reader is set up, and the run answers every request and ends, whatever
    rand() returns, up to its report of the replication.  The lines of the failure file have
    been used as the times of the requests ask for, the servers of the last line used are
    down and all others up, every bucket is mapped to the first n + 2 of them, what the
    caches hold is well formed, and the counters are those of the trace. *)
Lemma cluster_trace_run m t V pre recs oty : 0 <= m -> runnable m t V pre recs ->
  exists r t' V' h start,
    setup_reader (flat_map (bin_bytes cs) recs) BIN_TRACE oty ip = Ok r /\
    run hash rand max_flow g_quark_from_string atof_u64 t r =
      (let! f := find_rep_factor (cache_cluster t') in Ok (t', f)) /\
    hd_error (item_of <$> recs) = Some start /\
    ran (item_of <$> recs) h (started start.1.1 t) t' /\
    ready hash size_of m (cache_cluster t') V' /\
    placed_without hash vs (prev_failed_servers t') (cache_cluster t').
Proof using Hcs Hid Hip Hlen Hop Hsize Htime.
  intros Hm RB. destruct (binary_run m t V pre recs oty Hm RB)
    as (r & t' & V' & h & start & Hs & E & Hst & [RD PL _] & R & _).
  exists r, t', V', h, start. by split_and!.
Qed.

(** The report of a run without failures.  When the failure file names no server, and a
    whole object has at most n copies, the run returns: every object is only on the first n
    servers of its bucket, so that the report stays in its array, and it counts the objects
    and the bytes of the caches, the different objects, and how many have each number of
    copies. *)
Lemma calm_run_reports m t V pre recs oty : 0 <= m -> runnable m t V pre recs ->
  Forall (fun fs => fs = []) (failure_vector_deque t) ->
  replicas (cp_cluster_mode (cluster_params (cache_cluster t))) <= ec_n (ec_params (cache_cluster t)) ->
  homed hash vs (ec_n (ec_params (cache_cluster t))) V ->
  exists r t' V' f table,
    setup_reader (flat_map (bin_bytes cs) recs) BIN_TRACE oty ip = Ok r /\
    run hash rand max_flow g_quark_from_string atof_u64 t r = Ok (t', f) /\
    ready hash size_of m (cache_cluster t') V' /\ on_ring vs (cache_cluster t') /\
    homed hash vs (ec_n (ec_params (cache_cluster t))) V' /\
    reports (cache_cluster t') V' f table /\ same_config (cache_cluster t) (cache_cluster t').
Proof using Hcs Hid Hip Hlen Hop Hsize Htime.
  intros Hm RB Hq Hrep HH. destruct (binary_run m t V pre recs oty Hm RB)
    as (r & t' & V' & h & start & Hs & E & _ & [RD PL _] & R & HS).
  pose proof (HS Hrep (conj eq_refl Hq) HH) as HH'. destruct (ra_config _ _ _ _ R) as [_ Hec _].
  pose proof (cf_n _ (rd_routed _ _ _ _ _ RD)) as Hn. cbn [cache_cluster started] in *.
  destruct (find_rep_factor_ok hash m (cache_cluster t') V' (rd_rel _ _ _ _ _ RD) Hn)
    as (f & table & Ef & Hrp).
  { intros id. etrans; [apply copies_up|]. rewrite Hec. apply (homed_copies hash vs); [rewrite <- Hec; lia|done]. }
  exists r, t', V', f, table. rewrite Ef in E. cbn [rbind] in E.
  split_and!; try done; [apply PL|apply R].
Qed.
End trace.
End binary.
