(* ===== verification/ClusterProgramThms.v ===== *)
(** * The cluster simulator from its configuration and its trace to its report

    The composition of all the layers: what the command line becomes, the ring, the servers
    and the mapping of the buckets, the reader on the bytes of the trace, the thread with
    its failure file, every request with its hits, misses and repairs, and the report. *)

From Stdlib Require Import String.
From Stdlib Require Import Floats.SpecFloat.
From S2P Require Import Prelude Store HashTable HashTableSpec Cache CacheSpec Policies.
From S2P Require Import Md5 Md5Spec ReaderBase BinReader Reader BinReaderSpec Simulator.
From S2P Require Import ConsistentHash ConsistentHashSpec ConsistentHashThms.
From S2P Require Import CacheServer CacheServerSpec CacheCluster CacheClusterSpec.
From S2P Require Import CacheClusterThms ClusterRequestThms ClusterGetThms ClusterThread ClusterMain.
From S2P Require Import ClusterMapThms ClusterMainThms ClusterRunThms ClusterReportThms ClusterTraceThms.

(** ** The configuration *)

(** What prepare_arg has checked, and that chunks are enough to decode. *)
Record prepared (a : simulator_arg_t) : Prop := {
  pa_mode : cluster_mode_of (sa_cluster_mode_str a) (sa_EC_n a) (sa_EC_k a) = Ok (sa_cluster_mode a);
  pa_format : sa_trace_format a = akamai1b;
  pa_one_more : sa_check_one_more a = false;
  pa_k : sa_EC_k a <= sa_EC_n a
}.

Lemma prepared_mode a : prepared a ->
  served (sa_cluster_mode a) = true /\ 0 < sa_EC_k a /\ replicas (sa_cluster_mode a) <= sa_EC_n a /\
  (three_mode (sa_cluster_mode a) = true -> 3 <= sa_EC_n a).
Proof.
  intros [Hm _ _ _]. unfold cluster_mode_of in Hm.
  repeat match type of Hm with
  | context [if String.eqb ?x ?y then _ else _] => destruct (String.eqb x y)
  end;
  repeat match type of Hm with
  | context [cassert ?b] => destruct b eqn:?; cbn [cassert rbind] in Hm; [|discriminate Hm]
  end; try discriminate Hm; injection Hm as <-; cbn; split_and!; try done; lia.
Qed.

(** ** The trace *)

(** a record: the time, the identifier and the size, four bytes each *)
Definition record_bytes (x : Z * Z * Z) : list Z := le_bytes 4 x.1.1 ++ le_bytes 4 x.1.2 ++ le_bytes 4 x.2.

Definition record_of (x : Z * Z * Z) : list Z := [x.1.1; x.1.2; x.2].

Definition fields : list Z := [73; 73; 73].

Lemma record_bytes_bin x : bin_bytes fields (record_of x) = record_bytes x.
Proof.
  unfold record_bytes, bin_bytes, record_of, fields. cbn [zip_with concat].
  change (Z.to_nat (csize 73)) with 4%nat. by rewrite app_nil_r.
Qed.

Lemma fields_char : Forall (fun c => unsigned_char c = true) fields.
Proof. repeat constructor. Qed.

Lemma akamai1b_fields : fields_ok akamai1b_params.
Proof. repeat constructor; vm_compute; discriminate. Qed.

(** The bytes of a trace. *)
Definition trace_bytes (l : list (Z * Z * Z)) : list Z := flat_map record_bytes l.

Lemma trace_bytes_bin l : trace_bytes l = flat_map (bin_bytes fields) (record_of <$> l).
Proof.
  unfold trace_bytes. induction l as [|x l IH]; [done|]. cbn [flat_map fmap list_fmap].
  by rewrite record_bytes_bin, IH.
Qed.

Lemma items_back (l : list (Z * Z * Z)) : item_of akamai1b_params <$> (record_of <$> l) = l.
Proof. induction l as [|[[t id] z] l IH]; [done|]. cbn [fmap list_fmap]. by rewrite IH. Qed.

Lemma trace_bytes_length l : len (trace_bytes l) = 12 * len l.
Proof.
  induction l as [|x l IH]; [done|]. cbn [trace_bytes flat_map length]. unfold trace_bytes in IH.
  rewrite length_app, Nat2Z.inj_add, IH. unfold record_bytes.
  rewrite !length_app, !length_le_bytes. lia.
Qed.

(** ** The run *)

Section program.
  Context (hash : Z -> Z) (rand : nat -> Z) (max_flow : list (Z * Z * Z) -> list Z).
  Context (stack : md5_state) (qsort : (vnode_t -> vnode_t -> Z) -> list vnode_t -> list vnode_t).
  Context (g_quark_from_string atof_u64 : list Z -> Z).
  Context (a : simulator_arg_t) (sz cap : Z) (size_of : Z -> Z).
  Hypothesis Hplain : plain_config a sz cap.
  Hypothesis Hprep : prepared a.

(** the lookups of one request, and the count of requests the counters have room for *)
Definition request_cost : Z := 11 + 5 * sa_EC_n a + 2 * sa_n_server a.

(** A request of the trace: four-byte fields, and an object that fits in the caches as it
    is stored. *)
Record request_fits (x : Z * Z * Z) : Prop := {
  ft_bytes : 0 <= x.1.1 < 2 ^ 32 /\ 0 <= x.1.2 < 2 ^ 32 /\ 0 < x.2 < 2 ^ 32;
  ft_size : size_of x.1.2 = x.2;
  ft_piece : exists p,
    (if codes (sa_cluster_mode a) && (x.2 >? sa_EC_size_threshold a)
     then chunk_size (ECParams (sa_EC_n a) (sa_EC_k a) (sa_EC_size_threshold a)) x.2 = Ok p else p = x.2) /\
    0 < p < 2 ^ 32 /\ p <= cap
}.

(** A line of the failure file: different servers, and n + 2 others. *)
Record failure_fits (fs : list Z) : Prop := {
  ff_nodup : NoDup fs;
  ff_range : Forall (fun x => 0 <= x < sa_n_server a) fs;
  ff_enough : sa_EC_n a + MAX_N_UNAVAIL + Z.of_nat (length fs) <= sa_n_server a
}.

#[local] Abbreviation c0 := (new_cluster a sz cap).

Lemma new_configured rg : configured (c0 rg).
Proof using Hplain Hprep.
  destruct (prepared_mode a Hprep) as (Hs & Hk & _ & H3). pose proof (pc_servers _ _ _ Hplain) as Hn.
  pose proof (pc_ec _ _ _ Hplain) as Hec. pose proof (pa_k _ Hprep).
  assert (Z.of_nat (length (cache_servers (c0 rg))) = sa_n_server a) as Hlen by (apply new_servers_length; lia).
  assert (length (cache_servers (c0 rg)) = Z.to_nat (sa_n_server a)) as Hlen' by lia.
  split; rewrite ?Hlen, ?Hlen'; try done; try apply length_replicate.
  - by apply (pa_format _ Hprep).
  - by apply (pa_one_more _ Hprep).
  - by apply (pc_parity _ _ _ Hplain).
  - apply Hn.
  - cbn. rewrite length_replicate. lia.
Qed.

Lemma new_ready rg vs c m : mappable hash (c0 rg) vs -> mapping_to hash (c0 rg) vs N_BUCKET c ->
  m < 2 ^ 31 - 1 -> ready hash size_of m c (new_views a cap).
Proof using Hplain Hprep.
  intros M T Hm. eapply mapped_ready; [exact M|apply new_configured| | |exact T].
  - apply new_servers_rel; [apply (pc_cap _ _ _ Hplain)|exact Hm].
  - apply Forall_replicate. intros id Hh. discriminate Hh.
Qed.

Lemma new_placed rg vs c : on_ring vs (c0 rg) -> avail_ok (c0 rg) ->
  (forall x, 0 <= x -> is_up (c0 rg) x = bool_decide (x < sa_n_server a)) ->
  (forall b, bucket_candidates hash (c0 rg) vs b = ring_order hash vs b) ->
  mapping_to hash (c0 rg) vs N_BUCKET c -> placed_without hash vs [] c.
Proof using Hplain.
  intros [] Hav Hup Hcand [Ec _ Hmap _]. pose proof (pc_servers _ _ _ Hplain) as Hn.
  assert (Z.of_nat (length (cache_servers (c0 rg))) = sa_n_server a) as Hlen by (apply new_servers_length; lia).
  split.
  - rewrite Ec. by split.
  - by rewrite Ec.
  - rewrite Ec. intros x Hx. change (0 <= x < Z.of_nat (length (cache_servers (c0 rg)))) in Hx. rewrite Hlen in Hx.
    change (is_up (c0 rg) x = negb (bool_decide (x ∈ []))). rewrite Hup by lia.
    rewrite bool_decide_true by lia. by rewrite bool_decide_false by apply not_elem_of_nil.
  - intros b Hb. rewrite (Hmap b Hb), Ec. unfold remaining, bucket_servers. rewrite Hcand.
    by rewrite filter_every by (intros x _; apply not_elem_of_nil).
Qed.

Lemma new_homed vs n : homed hash vs n (new_views a cap).
Proof.
  intros id y (v & Hv & Hh). unfold new_views in Hv. apply lookup_replicate in Hv as [-> _]. discriminate Hh.
Qed.

Lemma fits_item c rg vs x : mapping_to hash (c0 rg) vs N_BUCKET c -> request_fits x ->
  item_ok size_of c (new_views a cap) x.
Proof.
  intros [Ec _ _ _] [(_ & _ & Hpos) Hs (p & Hp & Hsz & Hc)].
  apply (item_ok_ext size_of (c0 rg) c (new_views a cap)); [by rewrite Ec|done|].
  split; [exact Hs|apply Hpos|]. exists p. split; [|split; [exact Hsz|by apply Forall_replicate]].
  unfold coded. rewrite Hs. exact Hp.
Qed.

Lemma fits_record x : request_fits x -> bin_ok fields (record_of x).
Proof.
  intros [(H1 & H2 & H3) _ _]. repeat constructor; cbn [fst snd]; change (2 ^ (8 * csize 73)) with (2 ^ 32); lia.
Qed.

Hypothesis Hstack : length (buf stack) = 64%nat.
Hypothesis Hqsort : qsort_law qsort.

(** A run of the program up to its thread: the trace can be run. *)
Lemma simulate_start m lines q interval l oty :
  0 <= m -> l <> [] -> m + len l * request_cost < 2 ^ 31 - 1 -> Forall request_fits l ->
  load_failure_data lines = Ok q -> Forall failure_fits q ->
  exists rg vs c, mapping_to hash (c0 rg) vs N_BUCKET c /\
    runnable hash akamai1b_params fields size_of vs m (Thread c q [] 0 0 0 interval) (new_views a cap)
      [] (record_of <$> l) /\
    forall r, setup_reader (trace_bytes l) BIN_TRACE oty akamai1b_params = Ok r ->
      simulate hash max_flow stack qsort rand g_quark_from_string atof_u64 a (trace_bytes l) oty lines interval =
      run hash rand max_flow g_quark_from_string atof_u64 (Thread c q [] 0 0 0 interval) r.
Proof using Hplain Hprep Hstack Hqsort.
  intros Hm Hne Hlen HF Eq HQ.
  destruct (make_cluster_ok a sz cap hash max_flow stack qsort Hstack Hqsort Hplain)
    as (rg & vs & c & E & M & T & G & Hav & Hup & Hcand).
  pose proof (pc_servers _ _ _ Hplain) as Hn. pose proof (pc_ec _ _ _ Hplain) as Hec. unfold MAX_EC_N, MAX_N_SERVER in *.
  assert (Z.of_nat (length (cache_servers (c0 rg))) = sa_n_server a) as Hls by (apply new_servers_length; lia).
  assert (cost c + 1 = request_cost) as Hcost.
  { pose proof T as [Ec _ _ _]. unfold cost, request_cost. rewrite Ec.
    change (cache_servers (set_n_bucket _ _)) with (cache_servers (c0 rg)). rewrite Hls. cbn. lia. }
  exists rg, vs, c. split; [exact T|]. split.
  - split; cbn [cache_cluster failure_vector_deque]; rewrite ?items_back, <- ?trace_bytes_bin, ?length_fmap; try done.
    + intros Hl. by apply fmap_nil_inv in Hl.
    + apply Forall_fmap. eapply Forall_impl; [exact HF|]. intros x. apply fits_record.
    + rewrite trace_bytes_length. unfold request_cost in Hlen. nia.
    + rewrite Hcost. by apply (new_ready rg vs).
    + by apply (new_placed rg vs).
    + eapply Forall_impl; [exact HQ|]. pose proof T as [Ec _ _ _]. intros fs [Hnd Hr He]. rewrite Ec.
      split; [exact Hnd| |]; change (length (cache_servers (set_n_bucket _ _))) with (length (cache_servers (c0 rg)));
        rewrite Hls; [exact Hr|exact He].
    + eapply Forall_impl; [exact HF|]. intros x. by apply (fits_item c rg vs).
  - intros r Er. unfold simulate. rewrite Er. cbn [rbind]. rewrite E. cbn [rbind].
    unfold cacheClusterThread_init. rewrite Eq. by cbn [rbind].
Qed.


End program.

(** ** A concrete run

    Ten servers of 100 GB, three chunks of four, and three requests: an object of 300 kB, a
    small one, and the first again; server 5 fails after five minutes and recovers. *)

Definition demo_trace : list (Z * Z * Z) := [(0, 7, 300000); (400, 9, 1000); (900, 7, 300000)].

Definition demo_sizes (id : Z) : Z := if id =? 7 then 300000 else 1000.

Lemma demo_prepared : prepared demo_arg.
Proof. split; try reflexivity. discriminate. Qed.

Lemma demo_fits : Forall (request_fits demo_arg 100000000000 demo_sizes) demo_trace.
Proof.
  assert (forall t id p z, 0 <= t < 2 ^ 32 -> 0 <= id < 2 ^ 32 -> 0 < z < 2 ^ 32 -> demo_sizes id = z ->
    (if codes C2DN && (z >? 131072) then chunk_size (ECParams 4 3 131072) z = Ok p else p = z) ->
    0 < p < 2 ^ 32 -> p <= 100000000000 -> request_fits demo_arg 100000000000 demo_sizes (t, id, z)) as H.
  { intros t id p z H1 H2 H3 Hs Hp H4 H5. split; [done|exact Hs|]. by exists p. }
  constructor; [|constructor; [|constructor; [|constructor]]];
    [apply (H 0 7 100000)|apply (H 400 9 1000)|apply (H 900 7 100000)]; try lia; reflexivity.
Qed.

Lemma demo_failures : Forall (failure_fits demo_arg) [[5]; []].
Proof.
  repeat constructor; try (unfold MAX_N_UNAVAIL; cbn; lia); set_solver.
Qed.


