(* ===== verification/SlabCommon.v ===== *)
(** * Slabs: include/libCacheSim/evictionAlgo/slabCommon.h

    The slab caches keep their objects in slabs of a fixed size.  A slab belongs to a slab
    class, which cuts it into chunks of one size, and holds the ids of the objects stored in
    it; a class has the queue of its slabs with room.  All slabs are in a global queue, which
    the policies of SlabPolicies order.  Slabs, objects and the links of the queues are
    allocated one after the other, so that an address is one of the three and a cast from
    one to another shows as a bad access.  The counters of the shared cache_t are those of
    Cache.  The memory that the init functions allocate in one piece each is a list of blocks;
    freeing a block that is not allocated is an error. *)

From S2P Require Import Prelude Store HashTable Cache Glib.

Definition N_SLABCLASS : Z := 48.

Definition SLABCLASS_SIZES : list Z := [
  96;     120;     152;     192;     240;     304;     384;     480;
  600;    752;     944;     1184;    1480;    1856;    2320;    2904;
  3632;   4544;    5680;    7104;    8880;    11104;   13880;   17352;
  21696;  27120;   33904;   42384;   52984;   66232;   82792;   103496;
  129376; 161720;  202152;  252696;  315872;  394840;  524288;  655360;
  819200; 1048576; 1280000; 1600000; 2097152; 2500000; 3125000; 3906250].

(** ** The structures *)

Inductive slab_automove_t := no_automove | recency_t | eviction_rate_t.

#[export] Instance slab_automove_eq_dec : EqDecision slab_automove_t.
Proof. solve_decision. Defined.

Record slab_init_params_t := mk_slab_init {
  in_slab_size : Z;                  (* int64_t *)
  in_slab_move_strategy : slab_automove_t;
  in_per_obj_metadata_size : Z       (* int8_t *)
}.

(** slab_cache_obj_t of struct.h, in the configured build *)
Record slab_cache_obj_t := mk_slab_obj {
  so_obj_id_int : Z;                 (* obj_id_t *)
  so_obj_size : Z;                   (* uint32_t *)
  so_access_time : Z;                (* uint32_t *)
  so_slab : Z;
  so_item_pos_in_slab : Z            (* int32_t *)
}.

(** the items are the ids stored, cast to pointers *)
Record slab_t := mk_slab {
  sl_slabclass_id : Z;               (* gint *)
  sl_n_total_items : Z;              (* uint32_t *)
  sl_n_stored_items : Z;             (* uint32_t *)
  sl_q_node : Z;
  sl_slab_items : list Z
}.

(** what a slab cache allocates at its creation: the cache_t, its cache_params, the GHashTable,
    the global queue and the three queues of every class *)
Inductive slab_block :=
  | SB_cache_t | SB_params | SB_hashtable | SB_global_slab_q
  | SB_free_slab_q (id : Z) | SB_obj_q (id : Z) | SB_slab_q (id : Z).

#[export] Instance slab_block_eq_dec : EqDecision slab_block.
Proof. solve_decision. Defined.

Definition init_blocks : list slab_block :=
  [SB_cache_t; SB_params; SB_hashtable; SB_global_slab_q] ++
  (seqZ 0 N_SLABCLASS ≫= fun id => [SB_free_slab_q id; SB_obj_q id; SB_slab_q id]).

Section slab.
  Context {T Q D : Type} {GT : GHashTable T} {GQ : GQueue Q} {GD : GDataQueue D}.

Record slabclass_t := mk_slabclass {
  sc_chunk_size : Z;                 (* uint32_t *)
  sc_n_stored_items : Z;             (* uint32_t *)
  sc_free_slab_q : D;
  sc_slab_q : D;
  sc_obj_q : Q;
  sc_n_evictions : Z                 (* int32_t *)
}.

Record slab_params_t := mk_slab_params {
  sp_slab_size : Z;                  (* uint64_t *)
  sp_slabclasses : list slabclass_t;
  sp_n_total_slabs : Z;              (* uint64_t *)
  sp_n_allocated_slabs : Z;          (* uint64_t *)
  sp_global_slab_q : Q;
  sp_per_obj_metadata_size : Z;      (* uint8_t *)
  sp_slab_move_strategy : slab_automove_t
}.

(** a cache_t whose cache_params are a hash table and slab_params, and the memory: the
    objects, the slabs, the data of the links that the policies allocate, the other blocks *)
Record slab_state := mk_slab_state {
  ss_cache : state;
  ss_hashtable : T;
  ss_params : slab_params_t;
  ss_objs : gmap Z slab_cache_obj_t;
  ss_slabs : gmap Z slab_t;
  ss_links : gmap Z Z;
  ss_fresh : Z;
  ss_blocks : list slab_block
}.

(** ** Fields and pointers *)

Definition set_ss_cache (c : state) (st : slab_state) : slab_state :=
  mk_slab_state c (ss_hashtable st) (ss_params st) (ss_objs st) (ss_slabs st) (ss_links st) (ss_fresh st) (ss_blocks st).
Definition set_ss_hashtable (t : T) (st : slab_state) : slab_state :=
  mk_slab_state (ss_cache st) t (ss_params st) (ss_objs st) (ss_slabs st) (ss_links st) (ss_fresh st) (ss_blocks st).
Definition set_ss_params (p : slab_params_t) (st : slab_state) : slab_state :=
  mk_slab_state (ss_cache st) (ss_hashtable st) p (ss_objs st) (ss_slabs st) (ss_links st) (ss_fresh st) (ss_blocks st).
Definition set_ss_objs (m : gmap Z slab_cache_obj_t) (st : slab_state) : slab_state :=
  mk_slab_state (ss_cache st) (ss_hashtable st) (ss_params st) m (ss_slabs st) (ss_links st) (ss_fresh st) (ss_blocks st).
Definition set_ss_slabs (m : gmap Z slab_t) (st : slab_state) : slab_state :=
  mk_slab_state (ss_cache st) (ss_hashtable st) (ss_params st) (ss_objs st) m (ss_links st) (ss_fresh st) (ss_blocks st).
Definition set_ss_links (m : gmap Z Z) (st : slab_state) : slab_state :=
  mk_slab_state (ss_cache st) (ss_hashtable st) (ss_params st) (ss_objs st) (ss_slabs st) m (ss_fresh st) (ss_blocks st).

Definition set_ss_blocks (bs : list slab_block) (st : slab_state) : slab_state :=
  mk_slab_state (ss_cache st) (ss_hashtable st) (ss_params st) (ss_objs st) (ss_slabs st) (ss_links st) (ss_fresh st) bs.

Definition set_sp_slabclasses (l : list slabclass_t) (p : slab_params_t) : slab_params_t :=
  mk_slab_params (sp_slab_size p) l (sp_n_total_slabs p) (sp_n_allocated_slabs p) (sp_global_slab_q p)
    (sp_per_obj_metadata_size p) (sp_slab_move_strategy p).
Definition set_sp_n_allocated (n : Z) (p : slab_params_t) : slab_params_t :=
  mk_slab_params (sp_slab_size p) (sp_slabclasses p) (sp_n_total_slabs p) n (sp_global_slab_q p)
    (sp_per_obj_metadata_size p) (sp_slab_move_strategy p).
Definition set_sp_global_slab_q (q : Q) (p : slab_params_t) : slab_params_t :=
  mk_slab_params (sp_slab_size p) (sp_slabclasses p) (sp_n_total_slabs p) (sp_n_allocated_slabs p) q
    (sp_per_obj_metadata_size p) (sp_slab_move_strategy p).

Definition set_sc_n_stored (n : Z) (c : slabclass_t) : slabclass_t :=
  mk_slabclass (sc_chunk_size c) n (sc_free_slab_q c) (sc_slab_q c) (sc_obj_q c) (sc_n_evictions c).
Definition set_sc_free_slab_q (q : D) (c : slabclass_t) : slabclass_t :=
  mk_slabclass (sc_chunk_size c) (sc_n_stored_items c) q (sc_slab_q c) (sc_obj_q c) (sc_n_evictions c).
Definition set_sc_slab_q (q : D) (c : slabclass_t) : slabclass_t :=
  mk_slabclass (sc_chunk_size c) (sc_n_stored_items c) (sc_free_slab_q c) q (sc_obj_q c) (sc_n_evictions c).
Definition set_sc_obj_q (q : Q) (c : slabclass_t) : slabclass_t :=
  mk_slabclass (sc_chunk_size c) (sc_n_stored_items c) (sc_free_slab_q c) (sc_slab_q c) q (sc_n_evictions c).
Definition set_sc_n_evictions (n : Z) (c : slabclass_t) : slabclass_t :=
  mk_slabclass (sc_chunk_size c) (sc_n_stored_items c) (sc_free_slab_q c) (sc_slab_q c) (sc_obj_q c) n.

(** *p *)
Definition slab_at {A} (m : gmap Z A) (p : Z) : result A :=
  if p =? 0 then Err NullDeref
  else match m !! p with Some x => Ok x | None => Err BadAccess end.

Definition upd_obj (f : slab_cache_obj_t -> slab_cache_obj_t) (st : slab_state) (p : Z) : result slab_state :=
  let! o := slab_at (ss_objs st) p in Ok (set_ss_objs (<[p := f o]> (ss_objs st)) st).
Definition upd_slab (f : slab_t -> slab_t) (st : slab_state) (p : Z) : result slab_state :=
  let! s := slab_at (ss_slabs st) p in Ok (set_ss_slabs (<[p := f s]> (ss_slabs st)) st).
(** slabclasses[id] = f(slabclasses[id]) *)
Definition upd_class (f : slabclass_t -> slabclass_t) (st : slab_state) (id : Z) : result slab_state :=
  let! l := arr_upd f (sp_slabclasses (ss_params st)) id in
  Ok (set_ss_params (set_sp_slabclasses l (ss_params st)) st).

Definition add_occupied (v : Z) (st : slab_state) : slab_state :=
  set_ss_cache (with_occupied (u64 (occupied_size (st_cache (ss_cache st)) + v)) (ss_cache st)) st.

(** ** The hash table and objects (cacheObj.h) *)

(** The two fields that place the object in a slab are written by add_to_slabclass before
    they are read. *)
Definition create_slab_cache_obj_from_req (st : slab_state) (req : request) : Z * slab_state :=
  let cache_obj := ss_fresh st in
  let o := mk_slab_obj (req_obj_id_int req) (u32 (req_obj_size req)) (u32 (req_real_time req)) 0 0 in
  (cache_obj, mk_slab_state (ss_cache st) (ss_hashtable st) (ss_params st) (<[cache_obj := o]> (ss_objs st))
    (ss_slabs st) (ss_links st) (cache_obj + 1) (ss_blocks st)).

Definition free_slab_cache_obj (st : slab_state) (data : Z) : result slab_state :=
  let! _ := slab_at (ss_objs st) data in Ok (set_ss_objs (delete data (ss_objs st)) st).

(** g_hash_table_remove and g_hash_table_insert on a table that was created with
    free_slab_cache_obj to destroy its values *)
Definition table_remove (st : slab_state) (key : Z) : result slab_state :=
  let old := g_hash_table_lookup (ss_hashtable st) key in
  let st' := set_ss_hashtable (g_hash_table_remove (ss_hashtable st) key) st in
  if old =? 0 then Ok st' else free_slab_cache_obj st' old.
Definition table_insert (st : slab_state) (key value : Z) : result slab_state :=
  let old := g_hash_table_lookup (ss_hashtable st) key in
  let! st := (if old =? 0 then Ok st else free_slab_cache_obj st old) in
  Ok (set_ss_hashtable (g_hash_table_insert (ss_hashtable st) key value) st).

(** ** Slabs and slab classes *)

Definition _slab_destroyer (st : slab_state) (slab : Z) : result slab_state :=
  let! _ := slab_at (ss_slabs st) slab in Ok (set_ss_slabs (delete slab (ss_slabs st)) st).

Definition init_slabclass (id : Z) : result slabclass_t :=
  let! sz := arr_get SLABCLASS_SIZES id in Ok (mk_slabclass sz 0 gd_new gd_new g_queue_new 0).

(** The loop of find_slabclass_id: the class found, or None when the range is empty.
    SLABCLASS_SIZES[id] is read for every id from 0 to N_SLABCLASS. *)
Fixpoint find_slabclass_loop (fuel : nat) (obj_size imin imax : Z) : result (option Z) :=
  match fuel with
  | O => Err OutOfFuel
  | S fuel =>
      if imax >=? imin then
        let id := (imin + imax) ÷ 2 in
        let! sz := arr_get SLABCLASS_SIZES id in
        if obj_size >? sz then find_slabclass_loop fuel obj_size (id + 1) imax
        else if 0 <? id then
          let! sz' := arr_get SLABCLASS_SIZES (id - 1) in
          if obj_size <=? sz' then find_slabclass_loop fuel obj_size imin (id - 1)
          else Ok (Some id)
        else Ok (Some id)
      else Ok None
  end.

(** every round halves a range of at most 49 classes; the argument is a uint32_t *)
Definition find_slabclass_id (obj_size : Z) : result Z :=
  let! id := find_slabclass_loop 7 (u32 obj_size) 0 N_SLABCLASS in
  match id with Some id => Ok id | None => Err Aborted end.

Definition allocate_slab (st : slab_state) (id : Z) : result (Z * slab_state) :=
  let p := ss_params st in
  let! chunk_size := arr_get SLABCLASS_SIZES id in
  let n_total_items := u32 (sp_slab_size p / chunk_size) in
  let new_slab := ss_fresh st in
  let q_node := ss_fresh st + 1 in
  let slab := mk_slab id n_total_items 0 q_node (repeat 0 (Z.to_nat n_total_items)) in
  let p := set_sp_global_slab_q (g_queue_push_tail_link (sp_global_slab_q p) q_node) p in
  let st := mk_slab_state (ss_cache st) (ss_hashtable st) p (ss_objs st) (<[new_slab := slab]> (ss_slabs st))
    (<[q_node := new_slab]> (ss_links st)) (ss_fresh st + 2) (ss_blocks st) in
  let! st := upd_class (fun c =>
    set_sc_slab_q (gd_push_tail (sc_slab_q c) new_slab)
      (set_sc_free_slab_q (gd_push_tail (sc_free_slab_q c) new_slab) c)) st id in
  let p := ss_params st in
  Ok (new_slab, set_ss_params (set_sp_n_allocated (u64 (sp_n_allocated_slabs p + 1)) p) st).

(** the branch of add_to_slabclass that stores the object in a slab *)
Definition store_in_slab (st : slab_state) (slab_id cache_obj slab : Z) : result slab_state :=
  let! st := upd_class (fun c => set_sc_n_stored (u32 (sc_n_stored_items c + 1)) c) st slab_id in
  let! s := slab_at (ss_slabs st) slab in
  let! st := upd_obj (fun o => mk_slab_obj (so_obj_id_int o) (so_obj_size o) (so_access_time o) slab
    (i32 (sl_n_stored_items s))) st cache_obj in
  let! o := slab_at (ss_objs st) cache_obj in
  let! items := arr_upd (fun _ => so_obj_id_int o) (sl_slab_items s) (sl_n_stored_items s) in
  let n := u32 (sl_n_stored_items s + 1) in
  let! st := upd_slab (fun s => mk_slab (sl_slabclass_id s) (sl_n_total_items s) n (sl_q_node s) items) st slab in
  if sl_n_total_items s =? n then
    (* current slab is full, remove it out of free_slab_q *)
    upd_class (fun c => set_sc_free_slab_q (gd_pop_head (sc_free_slab_q c)).2 c) st slab_id
  else Ok st.

(** add_to_slabclass: the class of the object and the new state.  It calls itself after an
    eviction; [fuel] bounds the calls. *)
Fixpoint add_to_slabclass (fuel : nat) (evict_func : slab_state -> request -> result slab_state)
    (slab_move_func : option (slab_state -> request -> result slab_state))
    (st : slab_state) (req : request) (cache_obj : Z) : result (Z * slab_state) :=
  match fuel with
  | O => Err OutOfFuel
  | S fuel =>
      let! slab_id := find_slabclass_id (req_obj_size req) in
      let p := ss_params st in
      let! c := arr_get (sp_slabclasses p) slab_id in
      let free := gd_peek_head (sc_free_slab_q c) in
      let! '(slab, st) :=
        (if negb (free =? 0) then Ok (free, st)
         else if sp_n_allocated_slabs p <? sp_n_total_slabs p then allocate_slab st slab_id
         else Ok (0, st)) in
      if negb (slab =? 0) then
        let! st := store_in_slab st slab_id cache_obj slab in Ok (slab_id, st)
      else
        (* we do not have free space, so we need to evict item/slab *)
        let! st := evict_func st req in
        let! st := (match slab_move_func with Some f => f st req | None => Ok st end) in
        add_to_slabclass fuel evict_func slab_move_func st req cache_obj
  end.

(** one call for every slab that can be evicted, the first and the last *)
Definition add_fuel (st : slab_state) : nat :=
  S (S (length (queue_links (sp_global_slab_q (ss_params st))))).

End slab.
Arguments slabclass_t : clear implicits.
Arguments slab_params_t : clear implicits.
Arguments slab_state : clear implicits.
