(* ===== verification/SlabPolicies.v ===== *)
(** * The slab caches (evictionAlgo/slabLRC.c, slabLRU.c, slabObjLRU.c)

    slabLRC evicts the slab that was created first, slabLRU the slab that was accessed least
    recently; slabObjLRU evicts the least recently accessed object of a slab class, or moves
    slabs between classes.  The first two keep the addresses of the objects in their hash
    table, the third the addresses of links of the object queues.  The destructors take the
    blocks they free out of [ss_blocks]. *)

From S2P Require Import Prelude Store HashTable Cache Glib SlabCommon ConsistentHash.
From Stdlib Require Import SpecFloat.

Definition MiB : Z := 1048576.

Section policies.
  Context {T Q D : Type} {GT : GHashTable T} {GK : GHashTableKeys T} {GQ : GQueue Q} {GD : GDataQueue D}.
  #[local] Abbreviation slab_state := (SlabCommon.slab_state T Q D).

(** ** Creation and destruction *)

(** what the three init functions do; slabObjLRU also takes the strategy from init_params *)
Definition slab_init (takes_strategy : bool) (s : store) (ccache_params : common_cache_params_t)
    (init_params : option slab_init_params_t) (seed : Z) : result slab_state :=
  let cache := cache_struct_init s ccache_params seed in
  let n_total_slabs := u64 (p_cache_size ccache_params) / MiB in
  let '(size, meta, strategy) :=
    match init_params with
    | Some i => (u64 (in_slab_size i), u8 (in_per_obj_metadata_size i),
                 if takes_strategy then in_slab_move_strategy i else no_automove)
    | None => (MiB, 0, no_automove)
    end in
  let! classes := rfold (fun cs i => let! c := init_slabclass i in Ok (cs ++ [c])) (seqZ 0 N_SLABCLASS) [] in
  Ok (mk_slab_state cache g_hash_table_new
    (mk_slab_params size classes n_total_slabs 0 g_queue_new meta strategy) ∅ ∅ ∅ 1 init_blocks).

Definition slabLRC_init := slab_init false.
Definition slabLRU_init := slab_init false.
Definition slabObjLRU_init := slab_init true.

(** the links of a queue are freed with it *)
Definition free_links (nodes : list Z) (st : slab_state) : slab_state :=
  set_ss_links (foldr delete (ss_links st) nodes) st.

(** free of a block *)
Definition release (b : slab_block) (st : slab_state) : result slab_state :=
  let! bs := free_block b (ss_blocks st) in Ok (set_ss_blocks bs st).

(** g_queue_free_full(global_slab_q, _slab_destroyer) *)
Definition free_slabs (st : slab_state) : result slab_state :=
  let nodes := queue_links (sp_global_slab_q (ss_params st)) in
  let! st := rfold (fun st node => let! slab := slab_at (ss_links st) node in _slab_destroyer st slab) nodes st in
  release SB_global_slab_q (free_links nodes st).

(** cache_struct_free; the slab_q of the classes and the cache_params are not freed *)
Definition free_cache_t (st : slab_state) : result (slab_state * store) :=
  let! s := cache_struct_free (ss_cache st) in
  let! st := release SB_cache_t st in
  Ok (st, s).

(** the objects that the table still holds are freed when it is destroyed *)
Definition slabLRC_free (st : slab_state) : result (slab_state * store) :=
  let! st := free_slabs st in
  let! st := rfold (fun st id =>
      let! st := release (SB_free_slab_q id) st in
      let! c := arr_get (sp_slabclasses (ss_params st)) id in
      release (SB_obj_q id) (free_links (queue_links (sc_obj_q c)) st)) (seqZ 0 N_SLABCLASS) st in
  let! st := rfold (fun st k => free_slab_cache_obj st (g_hash_table_lookup (ss_hashtable st) k))
    (g_hash_table_get_keys (ss_hashtable st)) st in
  let! st := release SB_hashtable st in
  free_cache_t st.
Definition slabLRU_free := slabLRC_free.

(** slabObjLRU frees its objects with the object queues of the classes *)
Definition slabObjLRU_free (st : slab_state) : result (slab_state * store) :=
  let! st := free_slabs st in
  let! st := rfold (fun st id =>
      let! st := release (SB_free_slab_q id) st in
      let! c := arr_get (sp_slabclasses (ss_params st)) id in
      let nodes := queue_links (sc_obj_q c) in
      let! st := rfold (fun st node =>
        let! cache_obj := slab_at (ss_links st) node in free_slab_cache_obj st cache_obj) nodes st in
      release (SB_obj_q id) (free_links nodes st)) (seqZ 0 N_SLABCLASS) st in
  let! st := release SB_hashtable st in
  free_cache_t st.

(** g_queue_unlink and g_queue_push_tail_link on the global queue *)
Definition move_to_tail (node : Z) (st : slab_state) : slab_state :=
  let q := g_queue_unlink (sp_global_slab_q (ss_params st)) node in
  set_ss_params (set_sp_global_slab_q (g_queue_push_tail_link q node) (ss_params st)) st.

Definition count_request (st : slab_state) : slab_state :=
  let c := ss_cache st in
  set_ss_cache (mk_state (st_store c) (set_req_cnt (u64 (req_cnt (st_cache c) + 1)) (st_cache c)) (st_seed c)) st.

(** ** slabLRC *)

Definition slabLRC_check (st : slab_state) (req : request) : cache_ck_res_e :=
  if g_hash_table_lookup (ss_hashtable st) (req_obj_id_int req) =? 0 then cache_ck_miss else cache_ck_hit.

(** the items of the slab: the objects leave the table, which frees them *)
Definition evict_item (st : slab_state) (item : Z) : result slab_state :=
  let! o := slab_at (ss_objs st) (g_hash_table_lookup (ss_hashtable st) item) in
  table_remove (add_occupied (- so_obj_size o) st) (so_obj_id_int o).

Definition slabLRC_evict (st : slab_state) (req : request) : result slab_state :=
  let p := ss_params st in
  let p := set_sp_n_allocated (u64 (sp_n_allocated_slabs p - 1)) p in
  let '(node, q) := g_queue_pop_head (sp_global_slab_q p) in
  (* the data of the link, NULL for an empty queue; the link is freed *)
  let! slab_to_evict := (if node =? 0 then Ok 0 else slab_at (ss_links st) node) in
  let st := set_ss_links (delete node (ss_links st)) (set_ss_params (set_sp_global_slab_q q p) st) in
  let! s := slab_at (ss_slabs st) slab_to_evict in
  let! st := upd_class (fun c => set_sc_n_stored (u32 (sc_n_stored_items c - sl_n_stored_items s))
    (set_sc_free_slab_q (gd_remove (sc_free_slab_q c) slab_to_evict) c)) st (sl_slabclass_id s) in
  let! st := rfold (fun st i => let! item := arr_get (sl_slab_items s) i in evict_item st item)
    (seqZ 0 (sl_n_stored_items s)) st in
  _slab_destroyer st slab_to_evict.

Definition slabLRC_insert (st : slab_state) (req : request) : result slab_state :=
  let st := add_occupied (req_obj_size req) st in
  let '(cache_obj, st) := create_slab_cache_obj_from_req st req in
  let! '(_, st) := add_to_slabclass (add_fuel st) slabLRC_evict None st req cache_obj in
  table_insert st (req_obj_id_int req) cache_obj.

(** the asserts around the calls *)
Definition assert_total (st : slab_state) : result unit :=
  cassert (sp_n_total_slabs (ss_params st) =? cache_size (st_cache (ss_cache st)) / MiB).

Definition slabLRC_get (st : slab_state) (req : request) : result (cache_ck_res_e * slab_state) :=
  let! _ := assert_total st in
  let cache_check := slabLRC_check st req in
  let! _ := assert_total st in
  let! st := (match cache_check with cache_ck_miss => slabLRC_insert st req | _ => Ok st end) in
  let! _ := assert_total st in
  Ok (cache_check, count_request st).

(** the argument is the id of the object to remove; the object stays in the hash table *)
Definition slabLRC_remove_obj (st : slab_state) (obj_id : Z) : result slab_state :=
  let cache_obj := g_hash_table_lookup (ss_hashtable st) obj_id in
  if cache_obj =? 0 then Err Aborted
  else
    let! o := slab_at (ss_objs st) cache_obj in
    let st := add_occupied (- so_obj_size o) st in
    let slab := so_slab o in
    let pos := so_item_pos_in_slab o in
    let! s := slab_at (ss_slabs st) slab in
    (* move last item to this pos *)
    let! last := arr_get (sl_slab_items s) (u32 (sl_n_stored_items s - 1)) in
    let! items := arr_upd (fun _ => last) (sl_slab_items s) pos in
    let! st := upd_slab (fun s => mk_slab (sl_slabclass_id s) (sl_n_total_items s) (sl_n_stored_items s)
      (sl_q_node s) items) st slab in
    (* update item_pos_in_slab *)
    let! st := upd_obj (fun o => mk_slab_obj (so_obj_id_int o) (so_obj_size o) (so_access_time o) (so_slab o) pos)
      st (g_hash_table_lookup (ss_hashtable st) last) in
    let! st := upd_slab (fun s => mk_slab (sl_slabclass_id s) (sl_n_total_items s) (u32 (sl_n_stored_items s - 1))
      (sl_q_node s) (sl_slab_items s)) st slab in
    let! id := find_slabclass_id (so_obj_size o) in
    let! st := upd_class (fun c => set_sc_free_slab_q (gd_push_tail (sc_free_slab_q c) slab)
      (set_sc_n_stored (u32 (sc_n_stored_items c - 1)) c)) st id in
    free_slab_cache_obj st cache_obj.

(** ** slabLRU *)

(** slabLRU_evict and slabLRU_remove_obj have the text of slabLRC's *)
Definition slabLRU_evict := slabLRC_evict.
Definition slabLRU_remove_obj := slabLRC_remove_obj.

Definition slabLRU_update (st : slab_state) (req : request) : result slab_state :=
  let! o := slab_at (ss_objs st) (g_hash_table_lookup (ss_hashtable st) (req_obj_id_int req)) in
  let! s := slab_at (ss_slabs st) (so_slab o) in
  Ok (move_to_tail (sl_q_node s) st).

Definition slabLRU_check (st : slab_state) (req : request) (update_cache : bool)
    : result (cache_ck_res_e * slab_state) :=
  let cache_obj := g_hash_table_lookup (ss_hashtable st) (req_obj_id_int req) in
  if cache_obj =? 0 then Ok (cache_ck_miss, st)
  else if update_cache then
    let! o := slab_at (ss_objs st) cache_obj in
    let! s := slab_at (ss_slabs st) (so_slab o) in
    Ok (cache_ck_hit, move_to_tail (sl_q_node s) st)
  else Ok (cache_ck_hit, st).

Definition slabLRU_insert (st : slab_state) (req : request) : result slab_state :=
  let st := add_occupied (req_obj_size req) st in
  let '(cache_obj, st) := create_slab_cache_obj_from_req st req in
  let! '(_, st) := add_to_slabclass (add_fuel st) slabLRU_evict None st req cache_obj in
  table_insert st (req_obj_id_int req) cache_obj.

Definition slabLRU_get (st : slab_state) (req : request) : result (cache_ck_res_e * slab_state) :=
  let! '(cache_check, st) := slabLRU_check st req true in
  let! st := (match cache_check with
              | cache_ck_miss => slabLRU_insert st req
              | _ => slabLRU_update st req
              end) in
  Ok (cache_check, count_request st).

Definition slabLRU_get_objmap (st : slab_state) : T := ss_hashtable st.

(** ** slabObjLRU *)

(** the links of a class's object queue point to the objects; the value of the table is a
    link *)
Definition node_obj (st : slab_state) (node : Z) : result (Z * slab_cache_obj_t) :=
  let! cache_obj := slab_at (ss_links st) node in
  let! o := slab_at (ss_objs st) cache_obj in
  Ok (cache_obj, o).

Definition slabObjLRU_update (st : slab_state) (req : request) : result slab_state :=
  let node := g_hash_table_lookup (ss_hashtable st) (req_obj_id_int req) in
  let! '(cache_obj, o) := node_obj st node in
  let! st := upd_obj (fun o => mk_slab_obj (so_obj_id_int o) (so_obj_size o) (u32 (req_real_time req)) (so_slab o)
    (so_item_pos_in_slab o)) st cache_obj in
  let! s := slab_at (ss_slabs st) (so_slab o) in
  (* update obj LRU queue *)
  let! st := upd_class (fun c =>
    set_sc_obj_q (g_queue_push_tail_link (g_queue_unlink (sc_obj_q c) node) node) c) st (sl_slabclass_id s) in
  (* update slab LRU queue *)
  Ok (move_to_tail (sl_q_node s) st).

Definition slabObjLRU_check (st : slab_state) (req : request) (update_cache : bool)
    : result (cache_ck_res_e * slab_state) :=
  let node := g_hash_table_lookup (ss_hashtable st) (req_obj_id_int req) in
  if node =? 0 then Ok (cache_ck_miss, st)
  else
    let! _ := slab_at (ss_links st) node in
    let! st := (if update_cache then slabObjLRU_update st req else Ok st) in
    Ok (cache_ck_hit, st).

(** an object of a slab that goes away: it leaves the table and its class's object queue;
    [f] is what else happens to the cache *)
Definition drop_item (f : slab_cache_obj_t -> slab_state -> slab_state) (class : Z) (st : slab_state) (item : Z)
    : result slab_state :=
  let node := g_hash_table_lookup (ss_hashtable st) item in
  if node =? 0 then Err Aborted
  else
    let! '(cache_obj, o) := node_obj st node in
    let st := f o st in
    let st := set_ss_hashtable (g_hash_table_remove (ss_hashtable st) (so_obj_id_int o)) st in
    let! st := upd_class (fun c => set_sc_obj_q (g_queue_delete_link (sc_obj_q c) node) c) st class in
    free_slab_cache_obj (set_ss_links (delete node (ss_links st)) st) cache_obj.

(** _slabObjLRU_evict_slab *)
Definition _slabObjLRU_evict_slab (st : slab_state) : result slab_state :=
  let p := ss_params st in
  let p := set_sp_n_allocated (u64 (sp_n_allocated_slabs p - 1)) p in
  let '(node, q) := g_queue_pop_head (sp_global_slab_q p) in
  let! slab_to_evict := (if node =? 0 then Ok 0 else slab_at (ss_links st) node) in
  let st := set_ss_links (delete node (ss_links st)) (set_ss_params (set_sp_global_slab_q q p) st) in
  let! s := slab_at (ss_slabs st) slab_to_evict in
  let class := sl_slabclass_id s in
  let! st := rfold (fun st i => let! item := arr_get (sl_slab_items s) i in
    drop_item (fun o => add_occupied (- so_obj_size o)) class st item) (seqZ 0 (sl_n_stored_items s)) st in
  let! st := upd_class (fun c => set_sc_n_stored (u32 (sc_n_stored_items c - sl_n_stored_items s))
    (set_sc_slab_q (gd_remove (sc_slab_q c) slab_to_evict)
      (set_sc_free_slab_q (gd_remove (sc_free_slab_q c) slab_to_evict) c))) st class in
  _slab_destroyer st slab_to_evict.

(** the part of slabObjLRU_evict that takes an object out of its slab *)
Definition evict_from_slab (st : slab_state) (slabclass_id obj_to_evict : Z) : result slab_state :=
  let! o := slab_at (ss_objs st) obj_to_evict in
  let slab := so_slab o in
  let pos := so_item_pos_in_slab o in
  let st := add_occupied (- so_obj_size o) st in
  let! s := slab_at (ss_slabs st) slab in
  let! here := arr_get (sl_slab_items s) pos in
  if negb (here =? so_obj_id_int o) then Err Aborted
  else
    let last_pos := u32 (sl_n_stored_items s - 1) in
    let! '(st, items) :=
      (if negb (u32 pos =? last_pos) then
         (* move last obj to this position *)
         let! last := arr_get (sl_slab_items s) last_pos in
         let! last_obj := slab_at (ss_links st) (g_hash_table_lookup (ss_hashtable st) last) in
         if last_obj =? 0 then Err Aborted
         else
           let! st := upd_obj (fun l =>
             mk_slab_obj (so_obj_id_int l) (so_obj_size l) (so_access_time l) (so_slab l) pos) st last_obj in
           let! items := arr_upd (fun _ => last) (sl_slab_items s) pos in
           Ok (st, items)
       else Ok (st, sl_slab_items s)) in
    let! items := arr_upd (fun _ => 0) items last_pos in
    let! st := upd_slab (fun s => mk_slab (sl_slabclass_id s) (sl_n_total_items s) (u32 (sl_n_stored_items s - 1))
      (sl_q_node s) items) st slab in
    let! st := upd_class (fun c => set_sc_n_stored (u32 (sc_n_stored_items c - 1))
      (set_sc_free_slab_q (gd_push_tail (sc_free_slab_q c) slab) c)) st slabclass_id in
    let st := set_ss_hashtable (g_hash_table_remove (ss_hashtable st) (so_obj_id_int o)) st in
    free_slab_cache_obj st obj_to_evict.

Definition slabObjLRU_evict (st : slab_state) (req : request) : result slab_state :=
  let! slabclass_id := find_slabclass_id (req_obj_size req) in
  let! st := upd_class (fun c => set_sc_n_evictions (i32 (sc_n_evictions c + 1)) c) st slabclass_id in
  let! c := arr_get (sp_slabclasses (ss_params st)) slabclass_id in
  match queue_links (sc_obj_q c) with
  | [] => _slabObjLRU_evict_slab st
  | _ :: _ =>
      let '(node, q) := g_queue_pop_head (sc_obj_q c) in
      let! st := upd_class (set_sc_obj_q q) st slabclass_id in
      let! obj_to_evict := slab_at (ss_links st) node in
      evict_from_slab (set_ss_links (delete node (ss_links st)) st) slabclass_id obj_to_evict
  end.

Definition slabObjLRU_insert (st : slab_state) (req : request) : result slab_state :=
  let st := add_occupied (req_obj_size req) st in
  let '(cache_obj, st) := create_slab_cache_obj_from_req st req in
  let! '(slab_id, st) := add_to_slabclass (add_fuel st) slabObjLRU_evict None st req cache_obj in
  (* update obj LRU queue *)
  let q_node := ss_fresh st in
  let! st := upd_class (fun c => set_sc_obj_q (g_queue_push_tail_link (sc_obj_q c) q_node) c) st slab_id in
  let! o := slab_at (ss_objs st) cache_obj in
  Ok (mk_slab_state (ss_cache st) (g_hash_table_insert (ss_hashtable st) (so_obj_id_int o) q_node) (ss_params st)
    (ss_objs st) (ss_slabs st) (<[q_node := cache_obj]> (ss_links st)) (q_node + 1) (ss_blocks st)).

(** g_queue_remove(global_slab_q, slab): the first link whose data is the slab *)
Definition remove_slab_link (st : slab_state) (slab : Z) : slab_state :=
  match filter (fun node => ss_links st !! node = Some slab) (queue_links (sp_global_slab_q (ss_params st))) with
  | [] => st
  | node :: _ =>
      let p := ss_params st in
      set_ss_links (delete node (ss_links st))
        (set_ss_params (set_sp_global_slab_q (g_queue_delete_link (sp_global_slab_q p) node) p) st)
  end.

Definition slabObjLRU_move_slab (st : slab_state) (from_slab_id to_slab_id : Z) : result slab_state :=
  let! c := arr_get (sp_slabclasses (ss_params st)) from_slab_id in
  let '(slab_to_evict, q) := gd_pop_head (sc_slab_q c) in
  let! st := upd_class (set_sc_slab_q q) st from_slab_id in
  let p := ss_params st in
  let st := set_ss_params (set_sp_n_allocated (u64 (sp_n_allocated_slabs p - 1)) p) st in
  let! s := slab_at (ss_slabs st) slab_to_evict in
  if negb (sl_slabclass_id s =? from_slab_id) then Err Aborted
  else
    let class := sl_slabclass_id s in
    let! st := rfold (fun st i => let! item := arr_get (sl_slab_items s) i in
      drop_item (fun _ st => st) class st item) (seqZ 0 (sl_n_stored_items s)) st in
    let! st := upd_class (fun c => set_sc_slab_q (gd_remove (sc_slab_q c) slab_to_evict)
      (set_sc_free_slab_q (gd_remove (sc_free_slab_q c) slab_to_evict) c)) st class in
    let st := remove_slab_link st slab_to_evict in
    let! st := upd_class (fun c => set_sc_n_stored (u32 (sc_n_stored_items c - sl_n_stored_items s)) c) st class in
    let! st := _slab_destroyer st slab_to_evict in
    (* now move the slab to new class *)
    let! '(_, st) := allocate_slab st to_slab_id in
    Ok st.

(** 0.8 *)
Definition default_slab_automove_recency_ratio : spec_float := S754_finite false 7205759403792794 (-53).

(** the ages and classes found so far by the loop of slabObjLRU_slab_automove *)
Record automove := mk_automove {
  oldest_age : Z;                    (* guint64 *)
  youngest_age : Z;                  (* guint64 *)
  oldest_slabclass_id : Z;
  youngest_slabclass_id : Z
}.

Definition automove_step (real_time : Z) (acc : automove * slab_state) (i : Z) : result (automove * slab_state) :=
  let '(m, st) := acc in
  let! c := arr_get (sp_slabclasses (ss_params st)) i in
  if sc_n_stored_items c =? 0 then Ok (m, st)
  else
    let node := match queue_links (sc_obj_q c) with [] => 0 | n :: _ => n end in
    let! '(_, o) := (if node =? 0 then Err NullDeref else node_obj st node) in
    if real_time <? so_access_time o then Err Aborted
    else
      let age := real_time - so_access_time o in
      let m := if (oldest_age m <? age) && (2 <? gd_length (sc_slab_q c))
               then mk_automove age (youngest_age m) i (youngest_slabclass_id m) else m in
      let m := if (age <? youngest_age m) && (0 <? sc_n_evictions c)
               then mk_automove (oldest_age m) age (oldest_slabclass_id m) i else m in
      let! st := upd_class (set_sc_n_evictions 0) st i in
      Ok (m, st).

Definition slabObjLRU_slab_automove (st : slab_state) (req : request) : result slab_state :=
  match sp_slab_move_strategy (ss_params st) with
  | recency_t =>
      (* youngest_age = ~0U *)
      let! '(m, st) := rfold (automove_step (req_real_time req)) (seqZ 0 N_SLABCLASS)
        (mk_automove 0 UINT32_MAX (-1) (-1), st) in
      if SFltb (double_of_Z (youngest_age m))
           (dmul default_slab_automove_recency_ratio (double_of_Z (oldest_age m)))
      then slabObjLRU_move_slab st (oldest_slabclass_id m) (youngest_slabclass_id m)
      else Ok st
  | eviction_rate_t => Err Aborted
  | no_automove => Ok st
  end.

(** last_automove_time is a static variable, shared by all caches *)
Definition slabObjLRU_get (last_automove_time : Z) (st : slab_state) (req : request)
    : result (cache_ck_res_e * Z * slab_state) :=
  let! '(cache_check, st) := slabObjLRU_check st req true in
  let! st := (match cache_check with cache_ck_miss => slabObjLRU_insert st req | _ => Ok st end) in
  let p := ss_params st in
  let! '(last_automove_time, st) :=
    (if negb (bool_decide (sp_slab_move_strategy p = no_automove)) && negb (req_real_time req =? last_automove_time)
     then
       let! st := (if sp_n_allocated_slabs p =? sp_n_total_slabs p then slabObjLRU_slab_automove st req else Ok st) in
       Ok (req_real_time req, st)
     else Ok (last_automove_time, st)) in
  Ok (cache_check, last_automove_time, count_request st).

(** the value of the table, a GList, is used as an object *)
Definition slabObjLRU_remove_obj := slabLRC_remove_obj.

(** ** Sequences of requests *)

Fixpoint slab_run (get : slab_state -> request -> result (cache_ck_res_e * slab_state)) (st : slab_state)
    (reqs : list request) : result (list cache_ck_res_e * slab_state) :=
  match reqs with
  | [] => Ok ([], st)
  | r :: reqs =>
      let! '(res, st) := get st r in
      let! '(ress, st) := slab_run get st reqs in
      Ok (res :: ress, st)
  end.

Fixpoint slabObjLRU_run (last : Z) (st : slab_state) (reqs : list request)
    : result (list cache_ck_res_e * Z * slab_state) :=
  match reqs with
  | [] => Ok ([], last, st)
  | r :: reqs =>
      let! '(res, last, st) := slabObjLRU_get last st r in
      let! '(ress, last, st) := slabObjLRU_run last st reqs in
      Ok (res :: ress, last, st)
  end.

End policies.
