(* ===== verification/SlabSpec.v ===== *)
(** * Slab classes, and the slab caches as lists of slabs

    What find_slabclass_id computes; the abstract slab cache, a list of slabs with their
    entries in the order of the global queue, and the steps of slabLRC and slabLRU on it. *)

From S2P Require Import Prelude Store HashTable Cache CacheSpec Glib SlabCommon SlabPolicies.

(** ** The binary search *)

(** the number of classes whose chunks are too small *)
Definition slabclass_of (obj_size : Z) : Z :=
  Z.of_nat (length (filter (fun sz => sz < obj_size) SLABCLASS_SIZES)).

Definition ascending (l : list Z) : Prop :=
  forall i j x y, l !! i = Some x -> l !! j = Some y -> (i < j)%nat -> x < y.

Lemma ascending_filter l x : ascending l ->
  forall i y, l !! i = Some y -> (y < x <-> (i < length (filter (fun sz => (sz < x)%Z) l))%nat).
Proof.
  induction l as [|a l IH]; intros Hl i y Hi; [done|].
  assert (Hl' : ascending l) by (intros i' j' u v Hu Hv Hij; apply (Hl (S i') (S j')); [done|done|lia]).
  rewrite filter_cons. destruct i as [|i]; simpl in Hi.
  - injection Hi as ->. destruct (decide (y < x)) as [H|H]; [simpl; split; intros; lia|].
    split; [lia|]. destruct (filter _ l) as [|z l'] eqn:E; simpl; [lia|]. intros _.
    assert (Hz : z ∈ filter (fun sz => sz < x) l) by (rewrite E; by left).
    apply list_elem_of_filter in Hz as [Hzx (j & Hj)%list_elem_of_lookup]. pose proof (Hl 0%nat (S j) y z eq_refl Hj). lia.
  - assert (Ha : a < y) by (apply (Hl 0%nat (S i) a y eq_refl Hi); lia).
    destruct (decide (a < x)) as [H|H]; simpl; rewrite (IH Hl' i y Hi); [lia|].
    split; [|lia]. intros Hlt. apply (IH Hl' i y Hi) in Hlt. lia.
Qed.

(** a list in which every element is below the next *)
Fixpoint ascendingb (l : list Z) : bool :=
  match l with
  | x :: (y :: _) as l' => (x <? y) && ascendingb l'
  | _ => true
  end.

Lemma ascendingb_spec l : ascendingb l = true -> ascending l.
Proof.
  induction l as [|a l IH]; intros Hb i j x y Hi Hj Hij; [done|].
  destruct l as [|b l]; [by destruct i, j; simpl in *; try lia|].
  apply andb_prop in Hb as [Hab%Z.ltb_lt Hb]. specialize (IH Hb).
  destruct j as [|j]; [lia|]. destruct i as [|i]; [|apply (IH i j x y); [done|done|lia]].
  injection Hi as <-. destruct j as [|j]; [by injection Hj as <-|].
  apply Z.lt_trans with b; [done|]. apply (IH 0%nat (S j)); [done|done|lia].
Qed.

Lemma SLABCLASS_SIZES_ascending : ascending SLABCLASS_SIZES.
Proof. by apply ascendingb_spec. Qed.

Lemma arr_get_ok {A} (l : list A) i : 0 <= i < Z.of_nat (length l) -> exists x, l !! Z.to_nat i = Some x /\ arr_get l i = Ok x.
Proof.
  intros Hi. destruct (lookup_lt_is_Some_2 l (Z.to_nat i)) as [x Hx]; [lia|]. exists x. split; [done|].
  unfold arr_get. destruct (Z.ltb_spec i 0); [lia|]. by rewrite Hx.
Qed.

Lemma slabclass_size id : 0 <= id < N_SLABCLASS -> exists sz, arr_get SLABCLASS_SIZES id = Ok sz /\
  SLABCLASS_SIZES !! Z.to_nat id = Some sz /\ forall x, sz < x <-> id < slabclass_of x.
Proof.
  intros Hid. destruct (arr_get_ok SLABCLASS_SIZES id Hid) as (sz & Hl & E). exists sz. split_and!; [done|done|].
  intros x. rewrite (ascending_filter _ x SLABCLASS_SIZES_ascending _ _ Hl). unfold slabclass_of. lia.
Qed.

Lemma slabclass_of_bounds x : 0 <= slabclass_of x <= N_SLABCLASS.
Proof.
  unfold slabclass_of. split; [lia|]. pose proof (length_filter (fun sz => sz < x) SLABCLASS_SIZES) as H.
  change (length SLABCLASS_SIZES) with 48%nat in H. unfold N_SLABCLASS. lia.
Qed.

Lemma slabclass_of_fits x : slabclass_of x < N_SLABCLASS <-> x <= 3906250.
Proof.
  destruct (slabclass_size 47 ltac:(by unfold N_SLABCLASS)) as (sz & E & _ & H). injection E as <-.
  specialize (H x). unfold N_SLABCLASS. lia.
Qed.

Lemma find_slabclass_loop_ok x : x <= 3906250 -> forall fuel imin imax,
  0 <= imin <= slabclass_of x -> slabclass_of x <= imax <= N_SLABCLASS -> imax - imin + 1 < 2 ^ Z.of_nat fuel ->
  find_slabclass_loop fuel x imin imax = Ok (Some (slabclass_of x)).
Proof.
  intros Hx. pose proof (proj2 (slabclass_of_fits x) Hx) as Hk. set (k := slabclass_of x) in *.
  induction fuel as [|fuel IH]; intros imin imax Hmin Hmax Hf; [simpl in Hf; lia|].
  rewrite Nat2Z.inj_succ, Z.pow_succ_r in Hf by lia. cbn [find_slabclass_loop].
  rewrite (proj2 (Z.geb_le _ _)) by lia. rewrite Z.quot_div_nonneg by lia.
  set (id := (imin + imax) / 2). assert (Hid : imin <= id <= imax) by (unfold id; split; [apply Z.div_le_lower_bound|apply Z.div_le_upper_bound]; lia).
  assert (Hhalf : 2 * id <= imin + imax <= 2 * id + 1) by (unfold id; pose proof (Z.div_mod (imin + imax) 2); pose proof (Z.mod_pos_bound (imin + imax) 2); lia).
  unfold N_SLABCLASS in *.
  destruct (slabclass_size id) as (sz & -> & _ & Hs); [unfold N_SLABCLASS; lia|]. cbn [rbind]. specialize (Hs x). fold k in Hs.
  destruct (Z.gtb_spec x sz) as [Hgt|Hle]; [apply IH; lia|].
  destruct (Z.ltb_spec 0 id) as [H0|H0]; [|do 2 f_equal; lia].
  destruct (slabclass_size (id - 1)) as (sz' & -> & _ & Hs'); [unfold N_SLABCLASS; lia|]. cbn [rbind]. specialize (Hs' x). fold k in Hs'.
  destruct (Z.leb_spec x sz') as [Hle'|Hgt']; [apply IH; lia|]. do 2 f_equal. lia.
Qed.

(** beyond the largest class the loop ends by reading SLABCLASS_SIZES[48] *)
Lemma find_slabclass_loop_large x : 3906250 < x -> forall fuel imin,
  0 <= imin <= N_SLABCLASS -> N_SLABCLASS - imin + 1 < 2 ^ Z.of_nat fuel ->
  find_slabclass_loop fuel x imin N_SLABCLASS = Err OutOfBounds.
Proof.
  intros Hx. assert (Hk : slabclass_of x = 48).
  { pose proof (slabclass_of_bounds x). pose proof (slabclass_of_fits x). unfold N_SLABCLASS in *. lia. }
  induction fuel as [|fuel IH]; intros imin Hmin Hf; [simpl in Hf; lia|].
  rewrite Nat2Z.inj_succ, Z.pow_succ_r in Hf by lia. cbn [find_slabclass_loop].
  rewrite (proj2 (Z.geb_le _ _)) by lia. unfold N_SLABCLASS in *. rewrite Z.quot_div_nonneg by lia.
  set (id := (imin + 48) / 2). assert (Hid : imin <= id <= 48) by (unfold id; split; [apply Z.div_le_lower_bound|apply Z.div_le_upper_bound]; lia).
  assert (Hhalf : 2 * id <= imin + 48 <= 2 * id + 1) by (unfold id; pose proof (Z.div_mod (imin + 48) 2); pose proof (Z.mod_pos_bound (imin + 48) 2); lia).
  destruct (Z.eq_dec id 48) as [->|Hne]; [reflexivity|].
  destruct (slabclass_size id) as (sz & -> & _ & Hs); [unfold N_SLABCLASS; lia|]. cbn [rbind]. specialize (Hs x).
  rewrite (proj2 (Z.gtb_lt _ _)) by lia. apply IH; lia.
Qed.

Lemma find_slabclass_ok x : 0 <= x <= 3906250 -> find_slabclass_id x = Ok (slabclass_of x).
Proof.
  intros Hx. unfold find_slabclass_id. rewrite u32_small by lia. pose proof (slabclass_of_bounds x).
  by rewrite (find_slabclass_loop_ok x) by (unfold N_SLABCLASS in *; simpl; lia).
Qed.

(** C25.  the search gives the first class whose chunks hold the object, within the rounds given
    to it; for an object larger than every chunk it reads behind the table *)
Theorem find_slabclass_id_spec x : 0 <= x < 2 ^ 32 ->
  (x <= 3906250 -> exists id sz, find_slabclass_id x = Ok id /\ arr_get SLABCLASS_SIZES id = Ok sz /\ x <= sz /\
     forall id' sz', 0 <= id' < id -> arr_get SLABCLASS_SIZES id' = Ok sz' -> sz' < x) /\
  (3906250 < x -> find_slabclass_id x = Err OutOfBounds).
Proof.
  intros Hx. split; intros Hb.
  - pose proof (slabclass_of_bounds x). pose proof (proj2 (slabclass_of_fits x) Hb).
    destruct (slabclass_size (slabclass_of x)) as (sz & E & _ & Hs); [lia|]. exists (slabclass_of x), sz.
    split_and!; [by apply find_slabclass_ok; lia|done|specialize (Hs x); lia|]. intros id' sz' Hid' E'.
    destruct (slabclass_size id') as (sz'' & E'' & _ & Hs''); [lia|]. rewrite E'' in E'. injection E' as <-. apply Hs''. lia.
  - unfold find_slabclass_id. rewrite u32_small by lia.
    by rewrite (find_slabclass_loop_large x) by (unfold N_SLABCLASS in *; simpl; lia).
Qed.

Lemma find_slabclass_id_spec_witness : 0 <= 100 < 2 ^ 32 /\
  ((100 <= 3906250 -> exists id sz, find_slabclass_id 100 = Ok id /\ arr_get SLABCLASS_SIZES id = Ok sz /\ 100 <= sz /\
     forall id' sz', 0 <= id' < id -> arr_get SLABCLASS_SIZES id' = Ok sz' -> sz' < 100) /\
   (3906250 < 100 -> find_slabclass_id 100 = Err OutOfBounds)).
Proof. split; [lia|]. apply (find_slabclass_id_spec 100). lia. Defined.

(** ** The abstract slab cache *)

Record aslab := mk_aslab { a_class : Z; a_items : list entry }.

(** how many chunks of a class a slab of [ssize] bytes has *)
Definition slots (ssize c : Z) : Z := ssize / nth (Z.to_nat c) SLABCLASS_SIZES 1.

Definition all_items (a : list aslab) : list entry := a ≫= a_items.

(** a slab of class [c] with room *)
Definition opened (ssize c : Z) (s : aslab) : Prop :=
  a_class s = c /\ Z.of_nat (length (a_items s)) < slots ssize c.

#[export] Instance opened_dec ssize c s : Decision (opened ssize c s).
Proof. unfold opened. apply _. Defined.

Definition add_item (e : entry) (s : aslab) : aslab := mk_aslab (a_class s) (a_items s ++ [e]).

(** the entry goes to the first slab of its class with room *)
Fixpoint place (ssize c : Z) (e : entry) (a : list aslab) : option (list aslab) :=
  match a with
  | [] => None
  | s :: a => if decide (opened ssize c s) then Some (add_item e s :: a)
              else (fun a => s :: a) <$> place ssize c e a
  end.

(** without room, a new slab; it replaces the first slab when there are already [n_total] *)
Definition insert_slab (ssize n_total : Z) (e : entry) (a : list aslab) : list aslab :=
  let c := slabclass_of e.2 in
  match place ssize c e a with
  | Some a => a
  | None => (if Z.of_nat (length a) <? n_total then a else tail a) ++ [mk_aslab c [e]]
  end.

Definition holds_id (id : Z) (s : aslab) : Prop := id ∈ (a_items s).*1.

#[export] Instance holds_id_dec id s : Decision (holds_id id s).
Proof. unfold holds_id. apply _. Defined.

(** the slab of the id becomes the last *)
Definition touch_slab (id : Z) (a : list aslab) : list aslab :=
  filter (fun s => ~ holds_id id s) a ++ filter (holds_id id) a.

(** a request to slabLRC and to slabLRU *)
Definition lrc_step (ssize n_total : Z) (e : entry) (a : list aslab) : list aslab :=
  if cached e.1 (all_items a) then a else insert_slab ssize n_total e a.
Definition lru_step (ssize n_total : Z) (e : entry) (a : list aslab) : list aslab :=
  if cached e.1 (all_items a) then touch_slab e.1 a else insert_slab ssize n_total e a.

Fixpoint aslab_run (step : entry -> list aslab -> list aslab) (trace : list entry) (a : list aslab)
    : list cache_ck_res_e * list aslab :=
  match trace with
  | [] => ([], a)
  | e :: trace =>
      let '(res, a') := aslab_run step trace (step e a) in
      ((if cached e.1 (all_items a) then cache_ck_hit else cache_ck_miss) :: res, a')
  end.

(** an object that a slab can hold *)
Definition storable (ssize sz : Z) : Prop := 0 < sz <= 3906250 /\ 0 < slots ssize (slabclass_of sz).

Definition storable_trace (ssize : Z) (reqs : list request) : Prop := Forall (fun r => storable ssize (req_obj_size r)) reqs.

Lemma nth_arr_get {A} (l : list A) d i x : arr_get l i = Ok x -> nth (Z.to_nat i) l d = x.
Proof.
  unfold arr_get. destruct (i <? 0); [done|]. destruct (l !! Z.to_nat i) as [y|] eqn:E; [|done]. intros [= ->].
  by apply nth_lookup_Some with (d := d) in E.
Qed.

Lemma slots_spec ssize c sz : arr_get SLABCLASS_SIZES c = Ok sz -> slots ssize c = ssize / sz.
Proof. intros E. unfold slots. by rewrite (nth_arr_get _ 1 _ _ E). Qed.

Lemma chunk_pos c sz : arr_get SLABCLASS_SIZES c = Ok sz -> 96 <= sz.
Proof.
  unfold arr_get. destruct (c <? 0); [done|]. destruct (SLABCLASS_SIZES !! Z.to_nat c) as [y|] eqn:E; [|done]. intros [= ->].
  apply list_elem_of_lookup_2 in E. revert E. apply Forall_forall with (P := fun sz => 96 <= sz).
  apply (bool_decide_unpack _). by vm_compute.
Qed.

Lemma slots_bounds ssize c : 0 <= c < N_SLABCLASS -> 0 <= ssize < 2 ^ 32 -> 0 <= slots ssize c < 2 ^ 31.
Proof.
  intros Hc Hs. destruct (slabclass_size c Hc) as (sz & E & _ & _). rewrite (slots_spec _ _ _ E).
  pose proof (chunk_pos c sz E). split; [apply Z.div_pos; lia|]. apply Z.div_lt_upper_bound; lia.
Qed.

(** ** Lists of slabs *)

Lemma place_none ssize c e a : Forall (fun s => ~ opened ssize c s) a -> place ssize c e a = None.
Proof. induction 1 as [|s a Hs _ IH]; simpl; [done|]. rewrite decide_False by done. by rewrite IH. Qed.

Lemma place_at ssize c e a1 s a2 : Forall (fun s => ~ opened ssize c s) a1 -> opened ssize c s ->
  place ssize c e (a1 ++ s :: a2) = Some (a1 ++ add_item e s :: a2).
Proof.
  intros H Hs. induction H as [|s' a1 Hs' _ IH]; simpl; [by rewrite decide_True|].
  rewrite decide_False by done. by rewrite IH.
Qed.

Lemma all_items_cons s a : all_items (s :: a) = a_items s ++ all_items a.
Proof. done. Qed.

Lemma all_items_app a b : all_items (a ++ b) = all_items a ++ all_items b.
Proof. apply bind_app. Qed.

Lemma all_items_add a1 s a2 e : all_items (a1 ++ add_item e s :: a2) ≡ₚ e :: all_items (a1 ++ s :: a2).
Proof.
  rewrite !all_items_app. cbn [all_items mbind list_bind add_item a_items].
  rewrite <- app_assoc, Permutation_middle. apply Permutation_app_head. cbn [app]. symmetry. apply Permutation_middle.
Qed.

(** how many objects the slabs of a class hold *)
Definition stored (c : Z) (a : list aslab) : Z :=
  foldr (fun s n => (if a_class s =? c then Z.of_nat (length (a_items s)) else 0) + n) 0 a.

Lemma stored_app c a b : stored c (a ++ b) = stored c a + stored c b.
Proof. induction a as [|s a IH]; simpl; [lia|]. rewrite IH. lia. Qed.

Lemma stored_add c a1 s a2 e :
  stored c (a1 ++ add_item e s :: a2) = stored c (a1 ++ s :: a2) + (if a_class s =? c then 1 else 0).
Proof. rewrite !stored_app. cbn. rewrite length_app. cbn. case_bool; lia. Qed.

(** at most one element satisfies a predicate *)
Lemma filter_one {A} (P : A -> Prop) `{forall x, Decision (P x)} l1 x l2 :
  (length (filter P (l1 ++ x :: l2)) <= 1)%nat -> P x -> filter P l1 = [] /\ filter P l2 = [].
Proof.
  rewrite filter_app, length_app. intros Hl Hx. rewrite filter_cons_True in Hl by done. simpl in Hl.
  destruct (filter P l1); [|simpl in Hl; lia]. destruct (filter P l2); [done|simpl in Hl; lia].
Qed.

Lemma filter_none {A} (P : A -> Prop) `{forall x, Decision (P x)} l : filter P l = [] <-> Forall (fun x => ~ P x) l.
Proof.
  split.
  - intros E. apply Forall_forall. intros x Hx Px. assert (x ∈ filter P l) by (by apply list_elem_of_filter). rewrite E in *. by apply not_elem_of_nil in H0.
  - induction 1; [done|]. by rewrite filter_cons_False.
Qed.

Lemma filter_all {A} (P : A -> Prop) `{forall x, Decision (P x)} l : Forall P l -> filter P l = l.
Proof. induction 1; [done|]. rewrite filter_cons_True by done. by f_equal. Qed.

Lemma Permutation_short {A} (l l' : list A) : l ≡ₚ l' -> (length l' <= 1)%nat -> l = l'.
Proof.
  intros HP Hl. destruct l' as [|x [|y l']]; [by apply Permutation_nil_r|by apply Permutation_singleton_r|simpl in Hl; lia].
Qed.

Lemma stored_perm c a b : a ≡ₚ b -> stored c a = stored c b.
Proof. induction 1; simpl; lia. Qed.

(** an element of a list is known by its key *)
Lemma fmap_nodup_inj {A B} (f : A -> B) l x y : NoDup (f <$> l) -> x ∈ l -> y ∈ l -> f x = f y -> x = y.
Proof.
  intros Hnd (i & Hi)%list_elem_of_lookup (j & Hj)%list_elem_of_lookup E.
  assert (i = j); [|congruence]. apply (NoDup_lookup _ i j (f x) Hnd); rewrite list_lookup_fmap.
  - by rewrite Hi.
  - by rewrite Hj, E.
Qed.

Lemma nodup_snoc {A} (l : list A) x : NoDup l -> x ∉ l -> NoDup (l ++ [x]).
Proof.
  intros Hl Hx. apply NoDup_app. split_and!; [done| |apply NoDup_singleton]. intros y Hy Hy'%list_elem_of_singleton. by subst.
Qed.

Lemma in_all_items id s (a : list aslab) : s ∈ a -> id ∈ (a_items s).*1 -> id ∈ (all_items a).*1.
Proof.
  intros Hs (e & -> & He)%list_elem_of_fmap. apply list_elem_of_fmap_2. apply list_elem_of_bind. by exists s.
Qed.

(** what a key of the first element is not *)
Lemma fmap_nodup_ne {A B} (f : A -> B) x l y : NoDup (f <$> x :: l) -> y ∈ l -> f y <> f x.
Proof. intros [Hn _]%NoDup_cons Hy E. apply Hn. rewrite <- E. by apply list_elem_of_fmap_2. Qed.

