(* ===== verification/SlabRel.v ===== *)
(** * The memory of a slab cache as a list of slabs

    The relation [slabs_rel] between a state of a slab cache and a list of slabs, and the
    changes of state the policies are made of: a slab is allocated, a slab goes away
    ([dropped]), an object enters a slab ([entered]), nothing the relation sees changes
    ([similar]).  The policies index their objects differently: [idx] is the address of the
    object of an id, 0 when there is none. *)

From S2P Require Import Prelude Store HashTable Cache CacheSpec Glib SlabCommon SlabPolicies SlabSpec.

(** a link of the global queue, its slab, and the objects stored in it *)
Record row := mk_row { r_node : Z; r_slab : Z; r_objs : list Z; r_abs : aslab }.

Lemma u64_sub x y : u64 (u64 x - y) = u64 (x - y).
Proof. unfold u64, wrap. by rewrite Zminus_mod_idemp_l. Qed.
Lemma u64_add x y : u64 (u64 x + y) = u64 (x + y).
Proof. unfold u64, wrap. by rewrite Zplus_mod_idemp_l. Qed.
Lemma u32_sub x y : u32 (u32 x - y) = u32 (x - y).
Proof. unfold u32, wrap. by rewrite Zminus_mod_idemp_l. Qed.
Lemma u32_add x y : u32 (u32 x + y) = u32 (x + y).
Proof. unfold u32, wrap. by rewrite Zplus_mod_idemp_l. Qed.

Lemma slab_at_some {A} (m : gmap Z A) p x : 0 < p -> m !! p = Some x -> slab_at m p = Ok x.
Proof. intros Hp E. unfold slab_at. destruct (Z.eqb_spec p 0); [lia|]. by rewrite E. Qed.

(** a slab with room *)
#[local] Abbreviation has_room ssize c := (fun r => opened ssize c (r_abs r)).

Section rel.
  Context {T Q D : Type} {GT : GHashTable T} {GQ : GQueue Q} {GD : GDataQueue D}.
  #[local] Abbreviation slab_state := (SlabCommon.slab_state T Q D).
  (* the size of a slab, the number of slabs, the size of the cache, and what
     cache_struct_init leaves *)
  Context (idx : slab_state -> Z -> Z) (ssize n_total csize : Z) (s0 : store) (ht0 : hashtable).

(** the object at [o] is the entry [e] *)
Definition is_obj (st : slab_state) (o : Z) (e : entry) : Prop :=
  exists t slab i, ss_objs st !! o = Some (mk_slab_obj e.1 e.2 t slab i).

(** the [i]-th item of a slab *)
Definition holds_item (st : slab_state) (slab i o : Z) (e : entry) : Prop :=
  0 < o < ss_fresh st /\ idx st e.1 = o /\ exists t, ss_objs st !! o = Some (mk_slab_obj e.1 e.2 t slab i).

(** the items of a slab in memory: the ids stored, then zeros *)
Definition slab_array (s : aslab) : list Z :=
  (a_items s).*1 ++ repeat 0 (Z.to_nat (slots ssize (a_class s)) - length (a_items s)).

Definition slab_of (node : Z) (s : aslab) : slab_t :=
  mk_slab (a_class s) (slots ssize (a_class s)) (Z.of_nat (length (a_items s))) node (slab_array s).

Record row_ok (st : slab_state) (r : row) : Prop := {
  ro_node : 0 < r_node r < ss_fresh st;
  ro_slab : 0 < r_slab r < ss_fresh st;
  ro_class : 0 <= a_class (r_abs r) < N_SLABCLASS;
  ro_len : length (r_objs r) = length (a_items (r_abs r));
  ro_room : Z.of_nat (length (a_items (r_abs r))) <= slots ssize (a_class (r_abs r));
  ro_link : ss_links st !! r_node r = Some (r_slab r);
  ro_slab_t : ss_slabs st !! r_slab r = Some (slab_of (r_node r) (r_abs r));
  ro_items : forall i o e, r_objs r !! i = Some o -> a_items (r_abs r) !! i = Some e ->
    holds_item st (r_slab r) (Z.of_nat i) o e
}.

(** the structure of a class for the slabs [R] *)
Definition class_ok (c : Z) (R : list row) (cls : slabclass_t Q D) : Prop :=
  gd_data (sc_free_slab_q cls) = r_slab <$> filter (has_room ssize c) R /\
  (length (filter (has_room ssize c) R) <= 1)%nat /\
  sc_n_stored_items cls = u32 (stored c (r_abs <$> R)).

Definition classes_ok (st : slab_state) (R : list row) : Prop :=
  length (sp_slabclasses (ss_params st)) = 48%nat /\
  forall c, 0 <= c < N_SLABCLASS -> exists cls, sp_slabclasses (ss_params st) !! Z.to_nat c = Some cls /\ class_ok c R cls.

(** what is fixed at the creation of the cache *)
Record constants (st : slab_state) : Prop := {
  cn_total : sp_n_total_slabs (ss_params st) = n_total;
  cn_size : sp_slab_size (ss_params st) = ssize;
  cn_csize : cache_size (st_cache (ss_cache st)) = csize;
  cn_store : st_store (ss_cache st) = s0;
  cn_table : c_hashtable (st_cache (ss_cache st)) = ht0;
  cn_blocks : ss_blocks st = init_blocks
}.

Definition occupied (st : slab_state) : Z := occupied_size (st_cache (ss_cache st)).

(** [P]: the object that is being inserted, not yet in a slab *)
Record slabs_rel (P : list (Z * entry)) (st : slab_state) (R : list row) : Prop := {
  sr_links : queue_links (sp_global_slab_q (ss_params st)) = r_node <$> R;
  sr_nodes : NoDup (r_node <$> R);
  sr_slabs : NoDup (r_slab <$> R);
  sr_objs : NoDup (P.*1 ++ (R ≫= r_objs));
  sr_ids : NoDup (all_items (r_abs <$> R)).*1;
  sr_rows : Forall (row_ok st) R;
  sr_pending : Forall (fun x => 0 < x.1 < ss_fresh st /\ is_obj st x.1 x.2) P;
  sr_absent : forall id, id ∉ (all_items (r_abs <$> R)).*1 -> idx st id = 0;
  sr_dom_objs : forall o, is_Some (ss_objs st !! o) <-> o ∈ P.*1 ++ (R ≫= r_objs);
  sr_dom_slabs : forall s, is_Some (ss_slabs st !! s) <-> s ∈ r_slab <$> R;
  sr_fresh : 0 < ss_fresh st;
  sr_classes : classes_ok st R;
  sr_alloc : sp_n_allocated_slabs (ss_params st) = Z.of_nat (length R);
  sr_max : Z.of_nat (length R) <= n_total;
  sr_occupied : occupied st = u64 (total P.*2 + total (all_items (r_abs <$> R)));
  sr_constants : constants st
}.

(** ** What the relation depends on *)

Lemma row_frame st st' r : row_ok st r -> ss_fresh st <= ss_fresh st' ->
  ss_links st' !! r_node r = ss_links st !! r_node r -> ss_slabs st' !! r_slab r = ss_slabs st !! r_slab r ->
  (forall o, o ∈ r_objs r -> ss_objs st' !! o = ss_objs st !! o) ->
  (forall id, id ∈ (a_items (r_abs r)).*1 -> idx st' id = idx st id) -> row_ok st' r.
Proof.
  intros [H1 H2 H3 H4 H5 H6 H7 H8] Hf El Es Eo Eh. split; try done; [lia|lia|by rewrite El|by rewrite Es|].
  intros i o e Ho He. destruct (H8 i o e Ho He) as (Hp & Hl & t & Ht). split; [lia|]. split.
  - rewrite Eh; [done|]. apply list_elem_of_fmap_2. by eapply list_elem_of_lookup_2.
  - exists t. rewrite Eo; [done|]. by eapply list_elem_of_lookup_2.
Qed.

(** a change of the classes that is [f] for the class [c] and not seen in the others *)
Definition cls_same (cls cls' : slabclass_t Q D) : Prop :=
  gd_data (sc_free_slab_q cls') = gd_data (sc_free_slab_q cls) /\ sc_n_stored_items cls' = sc_n_stored_items cls.

Definition classes_rel (c : Z) (f : slabclass_t Q D -> slabclass_t Q D -> Prop) (st st' : slab_state) : Prop :=
  length (sp_slabclasses (ss_params st')) = length (sp_slabclasses (ss_params st)) /\
  forall c' cls, 0 <= c' -> sp_slabclasses (ss_params st) !! Z.to_nat c' = Some cls ->
    exists cls', sp_slabclasses (ss_params st') !! Z.to_nat c' = Some cls' /\
      if decide (c' = c) then f cls cls' else cls_same cls cls'.

(** from one list of slabs to another, by the change of each class *)
Lemma classes_ok_rel c f st st' R R' : classes_ok st R -> classes_rel c f st st' ->
  (forall cls cls', class_ok c R cls -> f cls cls' -> class_ok c R' cls') ->
  (forall c', c' <> c -> filter (has_room ssize c') R' = filter (has_room ssize c') R /\
     stored c' (r_abs <$> R') = stored c' (r_abs <$> R)) ->
  classes_ok st' R'.
Proof.
  intros [Hlen Hcls] [Hlen' Hrel] Hf Hoth. split; [by rewrite Hlen'|]. intros c' Hc'.
  destruct (Hcls c' Hc') as (cls & El & Hok). destruct (Hrel c' cls (proj1 Hc') El) as (cls' & El' & Hd). exists cls'. split; [done|].
  destruct (decide (c' = c)) as [->|Hne]; [by apply (Hf cls)|].
  destruct (Hoth c' Hne) as [Ef Es], Hd as [E1 E2], Hok as (O1 & O2 & O3). unfold class_ok. rewrite Ef, Es, E1, E2. done.
Qed.

Definition ageless (o : slab_cache_obj_t) : slab_cache_obj_t :=
  mk_slab_obj (so_obj_id_int o) (so_obj_size o) 0 (so_slab o) (so_item_pos_in_slab o).

Record same_cache (st st' : slab_state) : Prop := {
  sc_csize : cache_size (st_cache (ss_cache st')) = cache_size (st_cache (ss_cache st));
  sc_store : st_store (ss_cache st') = st_store (ss_cache st);
  sc_table : c_hashtable (st_cache (ss_cache st')) = c_hashtable (st_cache (ss_cache st));
  sc_total : sp_n_total_slabs (ss_params st') = sp_n_total_slabs (ss_params st);
  sc_size : sp_slab_size (ss_params st') = sp_slab_size (ss_params st);
  sc_blocks : ss_blocks st' = ss_blocks st
}.

Lemma constants_same st st' : constants st -> same_cache st st' -> constants st'.
Proof. intros [] []. split; congruence. Qed.

(** nothing changes but the access times, the order of the slabs and what the relation
    does not speak of *)
Record similar (R : list row) (st st' : slab_state) : Prop := {
  sm_fresh : ss_fresh st <= ss_fresh st';
  sm_links : forall r, r ∈ R -> ss_links st' !! r_node r = ss_links st !! r_node r;
  sm_slabs : ss_slabs st' = ss_slabs st;
  sm_objs : forall o, ageless <$> ss_objs st' !! o = ageless <$> ss_objs st !! o;
  sm_idx : forall id, idx st' id = idx st id;
  sm_classes : classes_rel (-1) (fun _ _ => True) st st';
  sm_alloc : sp_n_allocated_slabs (ss_params st') = sp_n_allocated_slabs (ss_params st);
  sm_occupied : occupied st' = occupied st;
  sm_cache : same_cache st st'
}.

Lemma similar_obj R st st' o x : similar R st st' -> ss_objs st !! o = Some x ->
  exists t, ss_objs st' !! o = Some (mk_slab_obj (so_obj_id_int x) (so_obj_size x) t (so_slab x) (so_item_pos_in_slab x)).
Proof.
  intros H Hx. pose proof (sm_objs _ _ _ H o) as E. rewrite Hx in E. destruct (ss_objs st' !! o) as [y|]; [|done].
  injection E as E1 E2 E3 E4. exists (so_access_time y). destruct y; cbn in *. by subst.
Qed.

Lemma rel_similar P st R st' R' : slabs_rel P st R -> R' ≡ₚ R -> queue_links (sp_global_slab_q (ss_params st')) = r_node <$> R' ->
  similar R st st' -> slabs_rel P st' R'.
Proof.
  intros [R1 R2 R3 R4 R5 R6 R7 R8 R9 R10 R11 R12 R13 R14 R15 R16] HP Hq H. pose proof H as [S1 S2 S3 S4 S5 S6 S7 S8 S9].
  assert (HA : all_items (r_abs <$> R') ≡ₚ all_items (r_abs <$> R)) by (unfold all_items; by rewrite HP).
  assert (Hrow : forall r, r ∈ R -> row_ok st' r).
  { intros r Hr. pose proof (proj1 (Forall_forall _ _) R6 r Hr) as [H1 H2 H3 H4 H5 H6 H7 H8].
    split; try done; [lia|lia|by rewrite S2|by rewrite S3|]. intros i o e Ho He. destruct (H8 i o e Ho He) as (Hp & Hl & t & Ht).
    split; [lia|]. rewrite S5. split; [done|]. by destruct (similar_obj _ _ _ _ _ H Ht) as [t' Ht']; exists t'. }
  split.
  - done.
  - by rewrite HP.
  - by rewrite HP.
  - by rewrite HP.
  - by rewrite HA.
  - rewrite HP. apply Forall_forall. exact Hrow.
  - eapply Forall_impl; [exact R7|]. intros x (Hp & t & s & i & Hx). split; [lia|].
    destruct (similar_obj _ _ _ _ _ H Hx) as [t' Ht']. by exists t', s, i.
  - intros id. rewrite HA, S5. apply R8.
  - intros o. rewrite HP, <- R9, <- (fmap_is_Some ageless (ss_objs st' !! o)), S4. apply fmap_is_Some.
  - intros s. by rewrite HP, S3.
  - lia.
  - destruct R12 as [Hlen Hcls], S6 as [Hlen' Hrel]. split; [by rewrite Hlen'|]. intros c Hc.
    destruct (Hcls c Hc) as (cls & El & O1 & O2 & O3). destruct (Hrel c cls (proj1 Hc) El) as (cls' & El' & Hd). exists cls'. split; [done|].
    rewrite decide_False in Hd by lia. destruct Hd as [E1 E2].
    assert (HF : filter (has_room ssize c) R' = filter (has_room ssize c) R) by (apply Permutation_short; [by rewrite HP|done]).
    unfold class_ok. rewrite HF, E1, E2. split_and!; [done|done|]. rewrite O3. f_equal. apply stored_perm. by rewrite HP.
  - by rewrite S7, HP.
  - by rewrite HP.
  - by rewrite S8, (total_perm _ _ HA).
  - by apply (constants_same st).
Qed.

(** ** A slab goes away *)

Context {GDL : GDataQueueLaws D} {GQL : GQueueLaws Q}.

(** the first slab of the global queue is gone, with its objects *)
Record dropped (r : row) (R : list row) (st st' : slab_state) : Prop := {
  dp_queue : queue_links (sp_global_slab_q (ss_params st')) = r_node <$> R;
  dp_alloc : sp_n_allocated_slabs (ss_params st') = u64 (sp_n_allocated_slabs (ss_params st) - 1);
  dp_classes : classes_rel (a_class (r_abs r)) (fun cls cls' =>
    gd_data (sc_free_slab_q cls') = gd_data (gd_remove (sc_free_slab_q cls) (r_slab r)) /\
    sc_n_stored_items cls' = u32 (sc_n_stored_items cls - Z.of_nat (length (a_items (r_abs r))))) st st';
  dp_slabs : ss_slabs st' = delete (r_slab r) (ss_slabs st);
  dp_links : forall r', r' ∈ R -> ss_links st' !! r_node r' = ss_links st !! r_node r';
  dp_objs_gone : forall o, o ∈ r_objs r -> ss_objs st' !! o = None;
  dp_objs : forall o, o ∉ r_objs r -> ss_objs st' !! o = ss_objs st !! o;
  dp_idx_gone : forall id, id ∈ (a_items (r_abs r)).*1 -> idx st' id = 0;
  dp_idx : forall id, id ∉ (a_items (r_abs r)).*1 -> idx st' id = idx st id;
  dp_occupied : forall x, occupied st = u64 x -> occupied st' = u64 (x - total (a_items (r_abs r)));
  dp_fresh : ss_fresh st' = ss_fresh st;
  dp_cache : same_cache st st'
}.

(** the queue of slabs with room, once a slab of the class is gone *)
Lemma free_q_remove (q : D) c r R :
  NoDup (r_slab <$> r :: R) -> gd_data q = r_slab <$> filter (has_room ssize c) (r :: R) ->
  gd_data (gd_remove q (r_slab r)) = r_slab <$> filter (has_room ssize c) R.
Proof using GDL.
  intros Hnd Hq. rewrite filter_cons in Hq. case_decide.
  - by rewrite (gd_remove_data q [] (r_slab r) _ Hq) by apply not_elem_of_nil.
  - rewrite gd_remove_other; [done|]. rewrite Hq. intros (y & Ey & Hy)%list_elem_of_fmap.
    apply list_elem_of_filter in Hy as [_ Hy]. by apply (fmap_nodup_ne _ _ _ _ Hnd Hy).
Qed.

(** the parts of a row that differ from those of the first *)
Lemma rows_apart (P : list (Z * entry)) r R : NoDup (P.*1 ++ ((r :: R) ≫= r_objs)) -> NoDup (all_items (r_abs <$> r :: R)).*1 ->
  (NoDup (r_objs r) /\ (forall o, o ∈ r_objs r -> o ∉ P.*1 ++ (R ≫= r_objs)) /\ NoDup (P.*1 ++ (R ≫= r_objs))) /\
  (NoDup (a_items (r_abs r)).*1 /\ (forall id, id ∈ (a_items (r_abs r)).*1 -> id ∉ (all_items (r_abs <$> R)).*1) /\
   NoDup (all_items (r_abs <$> R)).*1).
Proof.
  intros Ho Hi. split.
  - rewrite bind_cons, app_assoc, (Permutation_app_comm P.*1 (r_objs r)), <- app_assoc in Ho. by apply NoDup_app in Ho.
  - rewrite fmap_cons, all_items_cons, fmap_app in Hi. by apply NoDup_app in Hi.
Qed.

Lemma rel_dropped P st r R st' : n_total < 2 ^ 64 -> slabs_rel P st (r :: R) -> dropped r R st st' -> slabs_rel P st' R.
Proof using GDL.
  intros Hmax [R1 R2 R3 R4 R5 R6 R7 R8 R9 R10 R11 R12 R13 R14 R15 R16] [D1 D2 D3 D4 D5 D6 D7 D8 D9 D10 D11 D12].
  destruct (rows_apart _ _ _ R4 R5) as [(Ho & Ho' & Hond) (Hid & Hid' & Hidnd)]. apply Forall_cons in R6 as [Hr R6].
  pose proof R3 as R3'. rewrite fmap_cons in R2, R3. apply NoDup_cons in R2 as [Hn2 R2]. apply NoDup_cons in R3 as [Hn3 R3].
  cbn [length] in R13, R14. split; try done.
  - apply Forall_forall. intros r' Hr'. apply (row_frame st); [by apply (proj1 (Forall_forall _ _) R6)|lia|by apply D5| | |].
    + rewrite D4, lookup_delete_ne; [done|]. intros E. apply Hn3. rewrite E. by apply list_elem_of_fmap_2.
    + intros o Hor. apply D7. intros Hor'. apply (Ho' o Hor'). apply elem_of_app. right. apply list_elem_of_bind. by exists r'.
    + intros id Hin. apply D9. intros Hin'. apply (Hid' id Hin'). apply (in_all_items id (r_abs r')); [by apply list_elem_of_fmap_2|done].
  - apply Forall_forall. intros x Hx. destruct (proj1 (Forall_forall _ _) R7 x Hx) as (Hp & t & sl & i & Hob). split; [by rewrite D11|].
    exists t, sl, i. rewrite D7; [exact Hob|]. intros Hor. apply (Ho' _ Hor), elem_of_app. left. by apply list_elem_of_fmap_2.
  - intros id Hin. destruct (decide (id ∈ (a_items (r_abs r)).*1)) as [Hi|Hi]; [by apply D8|]. rewrite D9 by done. apply R8.
    rewrite fmap_cons, all_items_cons, fmap_app, not_elem_of_app. by split.
  - intros o. rewrite bind_cons in R9. destruct (decide (o ∈ r_objs r)) as [Hor|Hor].
    + rewrite D6 by done. split; [by intros [? ?]|]. intros Hin. by destruct (Ho' o Hor).
    + rewrite D7 by done. rewrite R9, !elem_of_app. tauto.
  - intros s. rewrite D4. destruct (decide (s = r_slab r)) as [->|Hne].
    + rewrite lookup_delete_eq. split; [by intros [? ?]|done].
    + rewrite lookup_delete_ne by congruence. rewrite R10, fmap_cons, elem_of_cons. naive_solver.
  - by rewrite D11.
  - apply (classes_ok_rel _ _ _ _ _ R R12 D3).
    + intros cls cls' (O1 & O2 & O3) [E1 E2]. split_and!.
      * rewrite E1. by apply free_q_remove.
      * rewrite filter_cons in O2. case_decide; simpl in O2; lia.
      * rewrite E2, O3, u32_sub. f_equal. rewrite fmap_cons. cbn [stored foldr]. rewrite Z.eqb_refl. unfold stored. lia.
    + intros c' Hne. split.
      * rewrite filter_cons_False; [done|]. intros [E _]. congruence.
      * rewrite fmap_cons. cbn [stored foldr]. by rewrite (proj2 (Z.eqb_neq _ _)) by congruence.
  - rewrite D2, R13, u64_small by lia. lia.
  - lia.
  - rewrite (D10 _ R15). f_equal. rewrite fmap_cons, all_items_cons, total_app. lia.
  - by apply (constants_same st).
Qed.

(** ** A new object and a new slab *)

Lemma fresh_obj P st R : slabs_rel P st R ->
  ss_objs st !! ss_fresh st = None /\ forall o, o ∈ P.*1 ++ (R ≫= r_objs) -> 0 < o < ss_fresh st.
Proof.
  intros H. assert (Hlt : forall o, o ∈ P.*1 ++ (R ≫= r_objs) -> 0 < o < ss_fresh st).
  { intros o [(x & -> & Hx)%list_elem_of_fmap|(r & Ho & Hr)%list_elem_of_bind]%elem_of_app.
    - by apply (proj1 (Forall_forall _ _) (sr_pending _ _ _ H) x Hx).
    - pose proof (proj1 (Forall_forall _ _) (sr_rows _ _ _ H) r Hr) as Hok.
      apply list_elem_of_lookup in Ho as [i Hi]. destruct (lookup_lt_is_Some_2 (a_items (r_abs r)) i) as [e He].
      { rewrite <- (ro_len _ _ Hok). by eapply lookup_lt_Some. }
      by apply (ro_items _ _ Hok i o e Hi He). }
  split; [|done]. apply eq_None_not_Some. intros Hs%(sr_dom_objs _ _ _ H). apply Hlt in Hs. lia.
Qed.

(** the object of a request is allocated and its bytes are counted *)
Lemma create_rel st R (req : request) : slabs_rel [] st R -> 0 < req_obj_size req < 2 ^ 32 ->
  let '(o, st') := create_slab_cache_obj_from_req (add_occupied (req_obj_size req) st) req in
  (forall id, idx st' id = idx st id) -> slabs_rel [(o, (req_obj_id_int req, req_obj_size req))] st' R.
Proof.
  intros H Hsz. destruct (fresh_obj _ _ _ H) as [Hno Hlt]. cbn [create_slab_cache_obj_from_req]. intros Hidx.
  destruct H as [R1 R2 R3 R4 R5 R6 R7 R8 R9 R10 R11 R12 R13 R14 R15 R16].
  split; try done.
  - cbn. apply NoDup_cons. split; [|exact R4]. intros Ho. specialize (Hlt _ Ho). lia.
  - apply Forall_forall. intros r Hr. apply (row_frame st); [by apply (proj1 (Forall_forall _ _) R6)|cbn; lia|done|done| |by intros id _; apply Hidx].
    intros o Ho. cbn. rewrite lookup_insert_ne; [done|]. intros E. specialize (Hlt o ltac:(cbn; apply list_elem_of_bind; by exists r)). lia.
  - constructor; [|done]. cbn. split; [lia|]. exists (u32 (req_real_time req)), 0, 0. cbn. by rewrite lookup_insert_eq, u32_small by lia.
  - intros id Hin. rewrite Hidx. by apply R8.
  - intros o. cbn. destruct (decide (o = ss_fresh st)) as [->|Hne].
    + rewrite lookup_insert_eq. split; [intros _; by left|by eexists].
    + rewrite lookup_insert_ne by done. rewrite R9. cbn. rewrite elem_of_cons. naive_solver.
  - cbn. lia.
  - unfold occupied in *. cbn. rewrite R15, u64_add. f_equal. cbn. lia.
  - by destruct R16.
Qed.

(** upd_class as a change of the classes *)
Lemma upd_class_eq f (st : slab_state) c cls : 0 <= c -> sp_slabclasses (ss_params st) !! Z.to_nat c = Some cls ->
  upd_class f st c = Ok (set_ss_params (set_sp_slabclasses (<[Z.to_nat c := f cls]> (sp_slabclasses (ss_params st)))
    (ss_params st)) st).
Proof. intros Hc E. unfold upd_class, arr_upd, arr_get. destruct (Z.ltb_spec c 0); [lia|]. by rewrite E. Qed.

Lemma classes_rel_insert c (f : slabclass_t Q D -> slabclass_t Q D -> Prop) st st' cls cls1 : 0 <= c ->
  sp_slabclasses (ss_params st) !! Z.to_nat c = Some cls ->
  sp_slabclasses (ss_params st') = <[Z.to_nat c := cls1]> (sp_slabclasses (ss_params st)) -> f cls cls1 -> classes_rel c f st st'.
Proof.
  intros Hc Hcls E Hf. split; [by rewrite E, length_insert|]. intros c' cls' Hc' El. rewrite E. destruct (decide (c' = c)) as [->|Hne].
  - exists cls1. rewrite list_lookup_insert_eq by (by eapply lookup_lt_Some). split; [done|]. congruence.
  - exists cls'. rewrite list_lookup_insert_ne by lia. done.
Qed.

(** a change of one class that the relation does not see *)
Lemma classes_rel_quiet c st st' cls cls1 : sp_slabclasses (ss_params st) !! Z.to_nat c = Some cls ->
  sp_slabclasses (ss_params st') = <[Z.to_nat c := cls1]> (sp_slabclasses (ss_params st)) -> cls_same cls cls1 ->
  classes_rel (-1) (fun _ _ => True) st st'.
Proof.
  intros Hcls E Hs. split; [by rewrite E, length_insert|]. intros c' cls' Hc' El. rewrite E.
  destruct (decide (Z.to_nat c' = Z.to_nat c)) as [Ec|Hne].
  - exists cls1. rewrite Ec in *. rewrite list_lookup_insert_eq by (by eapply lookup_lt_Some). split; [done|].
    rewrite decide_False by lia. by assert (cls' = cls) as -> by congruence.
  - exists cls'. rewrite list_lookup_insert_ne by congruence. by rewrite decide_False by lia.
Qed.

(** the object queues of the classes *)
Definition obj_queues (st : slab_state) : list Q := sc_obj_q <$> sp_slabclasses (ss_params st).

Lemma obj_queues_insert (l : list (slabclass_t Q D)) i cls1 cls : l !! i = Some cls -> sc_obj_q cls1 = sc_obj_q cls ->
  sc_obj_q <$> <[i := cls1]> l = sc_obj_q <$> l.
Proof. intros El E. rewrite list_fmap_insert, list_insert_id; [done|]. by rewrite list_lookup_fmap, El, E. Qed.

(** a new slab of a class that has no slab with room *)
Lemma allocate_rel P st R c : slabs_rel P st R -> 0 <= ssize < 2 ^ 32 -> n_total < 2 ^ 64 -> 0 <= c < N_SLABCLASS ->
  0 < slots ssize c -> Z.of_nat (length R) < n_total -> Forall (fun r => ~ opened ssize c (r_abs r)) R ->
  exists st', allocate_slab st c = Ok (ss_fresh st, st') /\ ss_hashtable st' = ss_hashtable st /\ ss_fresh st' = ss_fresh st + 2 /\
    ss_objs st' = ss_objs st /\ ss_links st' = <[ss_fresh st + 1 := ss_fresh st]> (ss_links st) /\
    obj_queues st' = obj_queues st /\ sp_slab_move_strategy (ss_params st') = sp_slab_move_strategy (ss_params st) /\
    ((forall id, idx st' id = idx st id) -> slabs_rel P st' (R ++ [mk_row (ss_fresh st + 1) (ss_fresh st) [] (mk_aslab c [])])).
Proof using GDL GQL.
  intros [R1 R2 R3 R4 R5 R6 R7 R8 R9 R10 R11 R12 R13 R14 R15 R16] Hssize Hmax Hc Hslots HR Hnone.
  destruct (slabclass_size c Hc) as (sz & Esz & _ & _). destruct R12 as [Rlen Rcls]. destruct (Rcls c Hc) as (cls & Hcls & Hok).
  pose proof (slots_bounds ssize c Hc Hssize) as Hb. pose proof (cn_size _ R16) as Hsize.
  unfold allocate_slab. rewrite Esz. cbn [rbind]. rewrite Hsize, <- (slots_spec ssize c sz Esz), u32_small by lia.
  erewrite upd_class_eq; [|lia|exact Hcls]. cbn [rbind]. eexists. split; [reflexivity|].
  split_and!; try done; [by apply (obj_queues_insert _ _ _ cls)|]. intros Hidx.
  match type of Hidx with forall id, idx ?s id = _ => set (st' := s) in * end.
  set (nr := mk_row (ss_fresh st + 1) (ss_fresh st) [] (mk_aslab c [])).
  assert (Hrows : forall r, r ∈ R -> r_node r < ss_fresh st /\ r_slab r < ss_fresh st).
  { intros r Hr. pose proof (proj1 (Forall_forall _ _) R6 r Hr) as Hrok. split; apply Hrok. }
  assert (Hbo : (R ++ [nr]) ≫= r_objs = R ≫= r_objs) by (rewrite bind_app; cbn; apply app_nil_r).
  assert (Hab : all_items (r_abs <$> R ++ [nr]) = all_items (r_abs <$> R)).
  { rewrite fmap_app, all_items_app. cbn. by rewrite app_nil_r. }
  split; try done.
  - cbn. by rewrite g_push_links, R1, fmap_app.
  - rewrite fmap_app. apply nodup_snoc; [done|]. intros (r & E & Hr)%list_elem_of_fmap. specialize (Hrows r Hr). cbn in E. lia.
  - rewrite fmap_app. apply nodup_snoc; [done|]. intros (r & E & Hr)%list_elem_of_fmap. specialize (Hrows r Hr). cbn in E. lia.
  - by rewrite Hbo.
  - by rewrite Hab.
  - apply Forall_app. split; [|constructor; [|done]].
    + apply Forall_forall. intros r Hr. specialize (Hrows r Hr).
      apply (row_frame st); [by apply (proj1 (Forall_forall _ _) R6)|cbn; lia|..|done|by intros id _; apply Hidx];
        cbn; rewrite lookup_insert_ne; [done|lia|done|lia].
    + split; cbn; try done; try lia; rewrite ?lookup_insert_eq; [done|]. unfold slab_of, slab_array. cbn. by rewrite Nat.sub_0_r.
  - eapply Forall_impl; [exact R7|]. intros x [Hx Hob]. split; [cbn; lia|exact Hob].
  - intros id. rewrite Hab, Hidx. apply R8.
  - intros o. rewrite Hbo. apply R9.
  - intros s. rewrite fmap_app, elem_of_app, <- R10. cbn. destruct (decide (s = ss_fresh st)) as [->|Hne].
    + rewrite lookup_insert_eq. split; [|by eexists]. intros _. right. by left.
    + rewrite lookup_insert_ne by done. split; [by left|]. intros [Hs|Hs%list_elem_of_singleton]; [done|by destruct Hne].
  - cbn. lia.
  - assert (Hop : opened ssize c (r_abs nr)) by (split; [done|cbn; lia]). destruct Hok as (O1 & O2 & O3).
    eapply (classes_ok_rel c (fun _ cls' => gd_data (sc_free_slab_q cls') = gd_data (sc_free_slab_q cls) ++ [ss_fresh st] /\
      sc_n_stored_items cls' = sc_n_stored_items cls) st st' R); [by split|eapply classes_rel_insert; [lia|exact Hcls|reflexivity|]|..].
    + cbn. by rewrite gd_push_data.
    + intros _ cls' _ [E1 E2].
      assert (Hf : filter (has_room ssize c) (R ++ [nr]) = [nr]).
      { rewrite filter_app, (proj2 (filter_none _ R) Hnone). by rewrite filter_cons_True. }
      unfold class_ok. rewrite Hf, E1, E2, O1, O3, (proj2 (filter_none _ R) Hnone). split_and!; [done|done|].
      f_equal. rewrite fmap_app, stored_app. cbn. case_bool; lia.
    + intros c' Hne. split.
      * rewrite filter_app, filter_cons_False; [by rewrite app_nil_r|]. intros [E _]. by apply Hne.
      * rewrite fmap_app, stored_app. cbn. rewrite (proj2 (Z.eqb_neq _ _)) by congruence. lia.
  - cbn. rewrite R13, length_app, u64_small by lia. cbn. lia.
  - rewrite length_app. cbn. lia.
  - rewrite <- Hab in R15. exact R15.
  - by destruct R16.
Qed.

(** ** An object enters a slab *)

(** the row of a slab that takes an object *)
Definition row_add (o : Z) (e : entry) (r : row) : row :=
  mk_row (r_node r) (r_slab r) (r_objs r ++ [o]) (add_item e (r_abs r)).

(** the class of that slab: it leaves the queue of slabs with room when it is full *)
Definition class_add (c : Z) (e : entry) (s : aslab) (cls cls' : slabclass_t Q D) : Prop :=
  sc_n_stored_items cls' = u32 (sc_n_stored_items cls + 1) /\
  gd_data (sc_free_slab_q cls') = if decide (opened ssize c (add_item e s))
                                  then gd_data (sc_free_slab_q cls) else tail (gd_data (sc_free_slab_q cls)).

Record entered (c o : Z) (e : entry) (r : row) (R : list row) (st st' : slab_state) : Prop := {
  en_fresh : ss_fresh st <= ss_fresh st';
  en_queue : sp_global_slab_q (ss_params st') = sp_global_slab_q (ss_params st);
  en_alloc : sp_n_allocated_slabs (ss_params st') = sp_n_allocated_slabs (ss_params st);
  en_classes : classes_rel c (class_add c e (r_abs r)) st st';
  en_slabs : ss_slabs st' = <[r_slab r := slab_of (r_node r) (add_item e (r_abs r))]> (ss_slabs st);
  en_objs : exists t, ss_objs st' =
    <[o := mk_slab_obj e.1 e.2 t (r_slab r) (Z.of_nat (length (a_items (r_abs r))))]> (ss_objs st);
  en_links : forall r', r' ∈ r :: R -> ss_links st' !! r_node r' = ss_links st !! r_node r';
  en_idx_new : idx st' e.1 = o;
  en_idx : forall id, id <> e.1 -> idx st' id = idx st id;
  en_occupied : occupied st' = occupied st;
  en_cache : same_cache st st'
}.

Lemma row_add_ok c o e r R st st' : entered c o e r R st st' -> row_ok st r -> opened ssize c (r_abs r) ->
  0 < o < ss_fresh st -> o ∉ r_objs r -> e.1 ∉ (a_items (r_abs r)).*1 -> row_ok st' (row_add o e r).
Proof.
  intros [E1 E2 E3 E4 E5 (t & E6) E7 E8 E9 E10 E11] [H1 H2 H3 H4 H5 H6 H7 H8] [Hc Hroom] Ho Hno Hni.
  assert (Hlen : length (a_items (add_item e (r_abs r))) = S (length (a_items (r_abs r)))) by (cbn; rewrite length_app; simpl; lia).
  split; try done; cbn [r_node r_slab r_objs r_abs row_add]; rewrite ?Hlen; try done; try lia.
  - rewrite length_app, H4. simpl. lia.
  - cbn. rewrite Hc. lia.
  - rewrite E7; [done|by left].
  - by rewrite E5, lookup_insert_eq.
  - intros i o' e' Ho' He'. cbn in He'. unfold holds_item. rewrite E6.
    apply lookup_snoc_Some in Ho' as [[Hi Ho']|[Hi <-]].
    + apply lookup_snoc_Some in He' as [[_ He']|[Hi' _]]; [|lia]. destruct (H8 i o' e' Ho' He') as (Hp & Hl & t' & Ht').
      split; [lia|]. split.
      * rewrite E9; [done|]. intros E. apply Hni. rewrite <- E. apply list_elem_of_fmap_2. by eapply list_elem_of_lookup_2.
      * exists t'. rewrite lookup_insert_ne; [done|]. intros E. apply Hno. rewrite E. by eapply list_elem_of_lookup_2.
    + apply lookup_snoc_Some in He' as [[Hi' _]|[Hi' <-]]; [lia|]. split; [lia|]. split; [done|].
      exists t. by rewrite lookup_insert_eq, Hi, H4.
Qed.

(** the class of that slab *)
Lemma class_add_ok c o e R1 r R2 cls cls' : class_ok c (R1 ++ r :: R2) cls -> opened ssize c (r_abs r) ->
  class_add c e (r_abs r) cls cls' -> class_ok c (R1 ++ row_add o e r :: R2) cls'.
Proof.
  intros (O1 & O2 & O3) Hop [E1 E2]. destruct (filter_one (has_room ssize c) R1 r R2 O2 Hop) as [F1 F2].
  rewrite O1, filter_app, F1, filter_cons_True, F2 in E2 by done. split_and!.
  - rewrite E2, filter_app, F1, filter_cons, F2. cbn [r_abs row_add]. by case_decide.
  - rewrite filter_app, F1, filter_cons, F2. cbn [r_abs row_add]. case_decide; simpl; lia.
  - rewrite E1, O3, u32_add. f_equal. rewrite !fmap_app, !fmap_cons. cbn [r_abs row_add]. rewrite stored_add.
    by rewrite (proj2 (Z.eqb_eq _ _) (proj1 Hop)).
Qed.

(** what separates the row in the middle, and a pending object, from the other rows *)
Lemma rows_other P st R1 r R2 : slabs_rel P st (R1 ++ r :: R2) -> forall x, x ∈ R1 ++ R2 ->
  row_ok st x /\ r_slab x <> r_slab r /\ r_node x <> r_node r /\
  (forall o, o ∈ P.*1 ++ r_objs r -> o ∉ r_objs x) /\ (forall id, id ∈ (a_items (r_abs r)).*1 -> id ∉ (a_items (r_abs x)).*1).
Proof.
  intros H x Hx. assert (Hx' : x ∈ R1 ++ r :: R2) by (rewrite elem_of_app, elem_of_cons; apply elem_of_app in Hx; tauto).
  pose proof (sr_slabs _ _ _ H) as Hs. pose proof (sr_nodes _ _ _ H) as Hn. pose proof (sr_objs _ _ _ H) as Ho. pose proof (sr_ids _ _ _ H) as Hi.
  unfold all_items in Hi. rewrite <- (Permutation_middle R1 R2 r) in Hs, Hn, Ho, Hi. split_and!.
  - by apply (proj1 (Forall_forall _ _) (sr_rows _ _ _ H)).
  - by apply (fmap_nodup_ne r_slab r (R1 ++ R2) x Hs).
  - by apply (fmap_nodup_ne r_node r (R1 ++ R2) x Hn).
  - rewrite bind_cons, app_assoc in Ho. apply NoDup_app in Ho as (_ & Hd & _). intros o Hin Hin'. apply (Hd o Hin).
    apply list_elem_of_bind. by exists x.
  - rewrite fmap_cons, bind_cons, fmap_app in Hi. apply NoDup_app in Hi as (_ & Hd & _). intros id Hin Hin'. apply (Hd id Hin).
    apply (in_all_items id (r_abs x)); [by apply list_elem_of_fmap_2|done].
Qed.

Lemma rel_entered st R1 r R2 c o e st' : slabs_rel [(o, e)] st (R1 ++ r :: R2) -> opened ssize c (r_abs r) ->
  e.1 ∉ (all_items (r_abs <$> R1 ++ r :: R2)).*1 -> entered c o e r (R1 ++ R2) st st' ->
  slabs_rel [] st' (R1 ++ row_add o e r :: R2).
Proof.
  intros H Hop Hid He. pose proof (rows_other _ _ _ _ _ H) as Hoth.
  destruct H as [R_1 R_2 R_3 R_4 R_5 R_6 R_7 R_8 R_9 R_10 R_11 R_12 R_13 R_14 R_15 R_16].
  pose proof He as [E1 E2 E3 E4 E5 (t & E6) E7 E8 E9 E10 E11].
  pose proof (proj1 (Forall_forall _ _) R_6 r ltac:(apply elem_of_app; right; by left)) as Hr.
  apply Forall_cons in R_7 as [[Hop0 _] _]. cbn [fst] in Hop0. set (r' := row_add o e r).
  assert (Hn : forall {A} (f : row -> A), f r' = f r -> f <$> R1 ++ r' :: R2 = f <$> R1 ++ r :: R2).
  { intros A f Ef'. by rewrite !fmap_app, !fmap_cons, Ef'. }
  assert (Hobjs : (R1 ++ r' :: R2) ≫= r_objs ≡ₚ o :: ((R1 ++ r :: R2) ≫= r_objs)).
  { rewrite !bind_app, !bind_cons. cbn [r_objs r' row_add]. rewrite <- app_assoc. cbn [app]. rewrite !Permutation_middle. done. }
  assert (Hitems : all_items (r_abs <$> R1 ++ r' :: R2) ≡ₚ e :: all_items (r_abs <$> R1 ++ r :: R2)).
  { rewrite !fmap_app, !fmap_cons. apply all_items_add. }
  assert (Hin : forall x, x ∈ R1 ++ r :: R2 -> e.1 ∉ (a_items (r_abs x)).*1).
  { intros x Hx Hi. apply Hid. apply (in_all_items e.1 (r_abs x)); [by apply list_elem_of_fmap_2|done]. }
  assert (Hfr : forall x, x ∈ R1 ++ R2 -> row_ok st' x).
  { intros x Hx. destruct (Hoth x Hx) as (Hok & Hne & _ & Hno & _). apply (row_frame st); [done|done|apply E7; by right|..].
    - by rewrite E5, lookup_insert_ne by congruence.
    - intros o' Ho'. rewrite E6, lookup_insert_ne; [done|]. intros ->. by apply (Hno o'); [left|].
    - intros id Hi. apply E9. intros ->. by apply (Hin x); [rewrite elem_of_app, elem_of_cons; apply elem_of_app in Hx; tauto|]. }
  cbn [fmap list_fmap fst app] in R_4, R_9. pose proof R_4 as [Hno Hnd]%NoDup_cons. split; try done.
  - by rewrite E2, (Hn _ r_node eq_refl).
  - by rewrite (Hn _ r_node eq_refl).
  - by rewrite (Hn _ r_slab eq_refl).
  - by rewrite Hobjs.
  - rewrite Hitems. cbn. by apply NoDup_cons.
  - apply Forall_app. split; [|constructor].
    + apply Forall_forall. intros x Hx. apply Hfr, elem_of_app. by left.
    + apply (row_add_ok _ _ _ _ _ _ _ He); [done|done|done| |apply Hin, elem_of_app; right; by left].
      intros Ho. apply Hno. apply list_elem_of_bind. exists r. split; [done|]. apply elem_of_app. right. by left.
    + apply Forall_forall. intros x Hx. apply Hfr, elem_of_app. by right.
  - intros id. rewrite Hitems. cbn. intros [Hne Hi]%not_elem_of_cons. rewrite E9 by done. by apply R_8.
  - intros o'. rewrite E6. cbn. rewrite Hobjs, elem_of_cons. destruct (decide (o' = o)) as [->|Hne].
    + rewrite lookup_insert_eq. split; [by left|by eexists].
    + rewrite lookup_insert_ne by done. rewrite R_9, elem_of_cons. tauto.
  - intros s. rewrite E5, (Hn _ r_slab eq_refl), <- R_10. destruct (decide (s = r_slab r)) as [->|Hne].
    + rewrite lookup_insert_eq, (ro_slab_t _ _ Hr). split; by eexists.
    + by rewrite lookup_insert_ne.
  - lia.
  - apply (classes_ok_rel _ _ _ _ _ (R1 ++ r' :: R2) R_12 E4).
    + intros cls cls' Hok Hadd. by apply (class_add_ok c o e R1 r R2 cls).
    + intros c' Hne. assert (Hnop : ~ opened ssize c' (r_abs r)) by (intros [Ec _]; destruct Hop as [Ec' _]; congruence).
      assert (Hnop' : ~ opened ssize c' (r_abs r')) by (intros [Ec _]; destruct Hop as [Ec' _]; cbn in Ec; congruence). split.
      * by rewrite !filter_app, !filter_cons_False.
      * rewrite !fmap_app, !fmap_cons. cbn [r_abs r' row_add]. rewrite stored_add.
        rewrite (proj2 (Z.eqb_neq _ _)) by (destruct Hop as [Ec' _]; congruence). lia.
  - rewrite E3, R_13, !length_app. done.
  - rewrite !length_app in *. done.
  - rewrite E10, R_15. f_equal. rewrite (total_perm _ _ Hitems).
    set (l := all_items _). change (e.2 + 0 + total l = 0 + (e.2 + total l)). lia.
  - by apply (constants_same st).
Qed.

(** ** store_in_slab *)

(** what storing an object does to the state *)
Record stored_state (c o : Z) (e : entry) (r : row) (st st1 : slab_state) : Prop := {
  st_fresh : ss_fresh st1 = ss_fresh st;
  st_links : ss_links st1 = ss_links st;
  st_table : ss_hashtable st1 = ss_hashtable st;
  st_cache_eq : ss_cache st1 = ss_cache st;
  st_blocks : ss_blocks st1 = ss_blocks st;
  st_class : exists cls cls1, sp_slabclasses (ss_params st) !! Z.to_nat c = Some cls /\
    ss_params st1 = set_sp_slabclasses (<[Z.to_nat c := cls1]> (sp_slabclasses (ss_params st))) (ss_params st) /\
    class_add c e (r_abs r) cls cls1 /\ sc_obj_q cls1 = sc_obj_q cls;
  st_objs : exists t, ss_objs st1 =
    <[o := mk_slab_obj e.1 e.2 t (r_slab r) (Z.of_nat (length (a_items (r_abs r))))]> (ss_objs st);
  st_slabs : ss_slabs st1 = <[r_slab r := slab_of (r_node r) (add_item e (r_abs r))]> (ss_slabs st)
}.

Lemma arr_upd_next (l : list Z) k x : (length l < k)%nat ->
  arr_upd (fun _ => x) (l ++ repeat 0 (k - length l)) (Z.of_nat (length l)) = Ok ((l ++ [x]) ++ repeat 0 (k - length (l ++ [x]))).
Proof.
  intros Hk. unfold arr_upd, arr_get. destruct (Z.ltb_spec (Z.of_nat (length l)) 0); [lia|]. rewrite Nat2Z.id.
  replace (k - length l)%nat with (S (k - length (l ++ [x]))) by (rewrite length_app; simpl; lia). cbn [repeat].
  rewrite list_lookup_middle by done. cbn [rbind]. f_equal. rewrite insert_app_r_alt, Nat.sub_diag by lia. by rewrite <- app_assoc.
Qed.

(** the item that enters, in memory *)
Lemma slab_array_add e s : Z.of_nat (length (a_items s)) < slots ssize (a_class s) ->
  arr_upd (fun _ => e.1) (slab_array s) (Z.of_nat (length (a_items s))) = Ok (slab_array (add_item e s)).
Proof.
  intros Hroom. pose proof (arr_upd_next (a_items s).*1 (Z.to_nat (slots ssize (a_class s))) e.1) as E.
  rewrite length_app, length_fmap in E. unfold slab_array. rewrite E by lia. cbn [add_item a_items a_class].
  by rewrite fmap_app, length_app.
Qed.

Lemma store_in_slab_eq P st R1 r R2 c o e : slabs_rel ((o, e) :: P) st (R1 ++ r :: R2) -> opened ssize c (r_abs r) ->
  0 <= ssize < 2 ^ 32 -> exists st1, store_in_slab st c o (r_slab r) = Ok st1 /\ stored_state c o e r st st1.
Proof using GDL.
  intros H [Hc Hroom] Hssize.
  pose proof (proj1 (Forall_forall _ _) (sr_rows _ _ _ H) r ltac:(apply elem_of_app; right; by left)) as Hr.
  pose proof (sr_pending _ _ _ H) as [[Ho (t & sl & i & Hobj)] _]%Forall_cons. cbn [fst snd] in *.
  pose proof (ro_class _ _ Hr) as Hcr. rewrite Hc in Hcr. destruct (sr_classes _ _ _ H) as [Hlen Hcls0].
  destruct (Hcls0 c Hcr) as (cls & Hcls & _). pose proof (slots_bounds ssize c Hcr Hssize) as Hb.
  pose proof (ro_slab_t _ _ Hr) as Hsl. pose proof (proj1 (ro_slab _ _ Hr)) as Hps.
  pose proof (slab_array_add e (r_abs r)) as Harr. rewrite Hc in Harr. specialize (Harr Hroom).
  unfold store_in_slab. erewrite upd_class_eq; [|lia|exact Hcls]. cbn [rbind ss_slabs set_ss_params].
  rewrite (slab_at_some _ _ _ Hps Hsl). cbn [rbind slab_of sl_n_stored_items sl_slab_items sl_n_total_items].
  unfold upd_obj. cbn [ss_objs set_ss_params]. rewrite (slab_at_some _ _ _ (proj1 Ho) Hobj). cbn [rbind ss_objs set_ss_objs].
  rewrite (slab_at_some _ o _ (proj1 Ho) (lookup_insert_eq _ _ _)). cbn [rbind so_obj_id_int so_obj_size so_access_time].
  rewrite Harr. cbn [rbind]. unfold upd_slab. cbn [ss_slabs set_ss_objs set_ss_params].
  rewrite (slab_at_some _ _ _ Hps Hsl). cbn [rbind slab_of sl_slabclass_id sl_n_total_items sl_q_node].
  rewrite u32_small, (swrap_small 32), Hc by lia.
  assert (Hslab : mk_slab c (slots ssize c) (Z.of_nat (length (a_items (r_abs r))) + 1) (r_node r) (slab_array (add_item e (r_abs r))) =
    slab_of (r_node r) (add_item e (r_abs r))).
  { unfold slab_of. cbn [add_item a_class a_items]. rewrite Hc, length_app. f_equal. cbn. lia. }
  rewrite Hslab.
  assert (Hfull : (slots ssize c =? Z.of_nat (length (a_items (r_abs r))) + 1) = negb (bool_decide (opened ssize c (add_item e (r_abs r))))).
  { assert (Hn : Z.of_nat (length (a_items (add_item e (r_abs r)))) = Z.of_nat (length (a_items (r_abs r))) + 1)
      by (cbn; rewrite length_app; cbn; lia).
    destruct (Z.eqb_spec (slots ssize c) (Z.of_nat (length (a_items (r_abs r))) + 1)) as [E|E]; symmetry.
    - apply negb_true_iff, bool_decide_false. intros [_ Hlt]. rewrite Hn in Hlt. lia.
    - apply negb_false_iff, bool_decide_true. split; [done|]. rewrite Hn. lia. }
  rewrite Hfull. case_bool_decide as Hop; cbn [negb].
  - eexists. split; [reflexivity|]. split; try done; [|by exists t].
    eexists cls, _. split; [done|]. split; [reflexivity|]. split; [|done]. split; [done|]. by rewrite decide_True.
  - erewrite upd_class_eq; [|lia|cbn; apply list_lookup_insert_eq; rewrite Hlen; unfold N_SLABCLASS in *; lia].
    eexists. split; [reflexivity|]. split; try done; [|by exists t].
    eexists cls, _. split; [done|]. split; [cbn; rewrite list_insert_insert_eq; reflexivity|]. split; [|done].
    split; [done|]. rewrite decide_False by done. apply gd_pop_snd.
Qed.

Lemma classes_rel_then c f st st1 st' : classes_rel c f st st1 -> classes_rel (-1) (fun _ _ => True) st1 st' ->
  (forall cls cls1 cls', f cls cls1 -> cls_same cls1 cls' -> f cls cls') -> classes_rel c f st st'.
Proof.
  intros [L1 H1] [L2 H2] Hf. split; [congruence|]. intros c' cls Hc' E. destruct (H1 c' cls Hc' E) as (cls1 & E1 & Hd1).
  destruct (H2 c' cls1 Hc' E1) as (cls' & E' & Hd2). rewrite decide_False in Hd2 by lia. exists cls'. split; [done|].
  destruct (decide (c' = c)); [by apply (Hf cls cls1)|]. destruct Hd1, Hd2. split; congruence.
Qed.

(** from the state after store_in_slab to one in which the object is known *)
Lemma stored_entered c o e r R st st1 st' : 0 <= c -> stored_state c o e r st st1 ->
  ss_fresh st1 <= ss_fresh st' -> sp_global_slab_q (ss_params st') = sp_global_slab_q (ss_params st1) ->
  sp_n_allocated_slabs (ss_params st') = sp_n_allocated_slabs (ss_params st1) -> classes_rel (-1) (fun _ _ => True) st1 st' ->
  ss_slabs st' = ss_slabs st1 -> ss_objs st' = ss_objs st1 ->
  (forall r', r' ∈ r :: R -> ss_links st' !! r_node r' = ss_links st1 !! r_node r') ->
  idx st' e.1 = o -> (forall id, id <> e.1 -> idx st' id = idx st id) -> occupied st' = occupied st1 -> same_cache st1 st' ->
  entered c o e r R st st'.
Proof.
  intros Hc [S1 S2 S3 S4 S5 (cls & cls1 & Hcls & Ep & Hadd & _) S6 S7] F1 F2 F3 F4 F5 F6 F7 F8 F9 F10 [G1 G2 G3 G4 G5 G6].
  split; try done.
  - lia.
  - by rewrite F2, Ep.
  - by rewrite F3, Ep.
  - eapply classes_rel_then; [|exact F4|].
    + eapply classes_rel_insert; [done|exact Hcls|by rewrite Ep|exact Hadd].
    + intros k k1 k2 [A1 A2] [B1 B2]. split; [by rewrite B2, A1|by rewrite B1, A2].
  - by rewrite F5, S7.
  - destruct S6 as [t S6]. exists t. by rewrite F6, S6.
  - intros r' Hr'. by rewrite F7, S2.
  - unfold occupied in *. by rewrite F10, S4.
  - rewrite S4, S5, Ep in *. by split.
Qed.

(** ** add_to_slabclass, with room *)

(** find_slabclass_id on an object that can be stored, and its class *)
Lemma storable_class sz : storable ssize sz ->
  find_slabclass_id sz = Ok (slabclass_of sz) /\ 0 <= slabclass_of sz < N_SLABCLASS.
Proof.
  intros [Hsz _]. split; [apply find_slabclass_ok; lia|]. pose proof (slabclass_of_bounds sz).
  pose proof (proj2 (slabclass_of_fits sz)). lia.
Qed.

(** at most a slab is allocated *)
Record prepared (st st0 : slab_state) : Prop := {
  pp_table : ss_hashtable st0 = ss_hashtable st;
  pp_fresh : ss_fresh st <= ss_fresh st0;
  pp_links : forall n, n < ss_fresh st -> ss_links st0 !! n = ss_links st !! n;
  pp_objs : ss_objs st0 = ss_objs st;
  pp_queues : obj_queues st0 = obj_queues st;
  pp_strategy : sp_slab_move_strategy (ss_params st0) = sp_slab_move_strategy (ss_params st)
}.

(** how the call begins: the class, and the first slab of its queue *)
Lemma add_start P st R (req : request) o fuel ev : let c := slabclass_of (req_obj_size req) in
  slabs_rel P st R -> storable ssize (req_obj_size req) ->
  add_to_slabclass (S fuel) ev None st req o =
    (let free := match filter (has_room ssize c) R with [] => 0 | r :: _ => r_slab r end in
     let! '(slab, st) := (if negb (free =? 0) then Ok (free, st)
       else if Z.of_nat (length R) <? n_total then allocate_slab st c else Ok (0, st)) in
     if negb (slab =? 0) then let! st := store_in_slab st c o slab in Ok (c, st)
     else let! st := ev st req in add_to_slabclass fuel ev None st req o).
Proof using GDL.
  intros c H Hst. destruct (storable_class _ Hst) as [Hfind Hc]. fold c in Hfind, Hc.
  destruct (sr_classes _ _ _ H) as [_ Hcls]. destruct (Hcls c Hc) as (cls & Hl & Hfree & _).
  cbn [add_to_slabclass]. rewrite Hfind. cbn [rbind]. unfold arr_get. destruct (Z.ltb_spec c 0); [lia|]. rewrite Hl. cbn [rbind].
  rewrite gd_peek_data, Hfree, (sr_alloc _ _ _ H), (cn_total _ (sr_constants _ _ _ H)). by destruct (filter (has_room ssize c) R).
Qed.

Lemma add_room st R (req : request) o fuel ev : let e := (req_obj_id_int req, req_obj_size req) in let c := slabclass_of e.2 in
  slabs_rel [(o, e)] st R -> 0 <= ssize < 2 ^ 32 -> n_total < 2 ^ 64 -> storable ssize e.2 ->
  (forall st0, prepared st st0 -> forall id, idx st0 id = idx st id) ->
  Exists (has_room ssize c) R \/ Z.of_nat (length R) < n_total ->
  exists st0 st1 R1 r R2, add_to_slabclass (S fuel) ev None st req o = Ok (c, st1) /\ prepared st st0 /\
    slabs_rel [(o, e)] st0 (R1 ++ r :: R2) /\ opened ssize c (r_abs r) /\ stored_state c o e r st0 st1 /\
    (R1 ++ r :: R2 = R \/ exists nr, R1 ++ r :: R2 = R ++ [nr] /\ a_items (r_abs nr) = [] /\ ss_fresh st <= r_node nr) /\
    all_items (r_abs <$> R1 ++ r :: R2) = all_items (r_abs <$> R) /\
    r_abs <$> R1 ++ row_add o e r :: R2 = insert_slab ssize n_total e (r_abs <$> R).
Proof using GDL GQL.
  intros e c H Hssize Hmax Hst Hidx Hroom. destruct (storable_class _ Hst) as [_ Hc]. fold c in Hc.
  rewrite (add_start _ _ _ _ _ _ _ H Hst). fold c. change (slabclass_of (req_obj_size req)) with c.
  destruct (sr_classes _ _ _ H) as [_ Hcls]. destruct (Hcls c Hc) as (cls & _ & _ & Hone & _).
  destruct (filter (has_room ssize c) R) as [|r l] eqn:Ef; cbv zeta.
  - pose proof (proj1 (filter_none _ R) Ef) as Hnone. destruct Hroom as [Hex|Hlt].
    { apply Exists_exists in Hex as (r & Hr & Hop). by destruct (proj1 (Forall_forall _ _) Hnone r Hr). }
    change (negb (0 =? 0)) with false. cbv iota. rewrite (proj2 (Z.ltb_lt _ _) Hlt).
    destruct (allocate_rel _ _ _ c H Hssize Hmax Hc (proj2 Hst) Hlt Hnone) as (st0 & -> & A1 & A2 & A3 & A4 & A5 & A6 & H0). cbn [rbind].
    set (nr := mk_row (ss_fresh st + 1) (ss_fresh st) [] (mk_aslab c [])) in *.
    assert (Hprep : prepared st st0).
    { split; [done|lia| |done|done|done]. intros n Hn. rewrite A4, lookup_insert_ne; [done|lia]. }
    specialize (H0 (Hidx st0 Hprep)). assert (Hop : opened ssize c (r_abs nr)) by (split; [done|cbn; apply Hst]).
    destruct (store_in_slab_eq [] st0 R nr [] c o e H0 Hop Hssize) as (st1 & E1 & Hst1).
    rewrite (proj2 (Z.eqb_neq (ss_fresh st) 0)) by (pose proof (sr_fresh _ _ _ H); lia). cbn [negb].
    cbn [r_slab nr] in E1. rewrite E1. cbn [rbind]. exists st0, st1, R, nr, [].
    split_and!; try done; [right; exists nr; split_and!; [done|done|cbn; lia]|..]; rewrite !fmap_app, !fmap_cons.
    + rewrite all_items_app. cbn. by rewrite app_nil_r.
    + unfold insert_slab. fold c. rewrite place_none by (apply Forall_fmap; exact Hnone).
      by rewrite length_fmap, (proj2 (Z.ltb_lt _ _) Hlt).
  - assert (Hr : r ∈ filter (has_room ssize c) R) by (rewrite Ef; by left).
    apply list_elem_of_filter in Hr as [Hop Hr]. apply list_elem_of_split in Hr as (R1 & R2 & ->).
    rewrite <- Ef in Hone. destruct (filter_one _ R1 r R2 Hone Hop) as [F1 _].
    destruct (store_in_slab_eq [] st R1 r R2 c o e H Hop Hssize) as (st1 & E1 & Hst1).
    pose proof (proj1 (Forall_forall _ _) (sr_rows _ _ _ H) r ltac:(apply elem_of_app; right; by left)) as Hok.
    rewrite (proj2 (Z.eqb_neq (r_slab r) 0)) by (pose proof (ro_slab _ _ Hok); lia). cbn [negb rbind].
    rewrite (proj2 (Z.eqb_neq (r_slab r) 0)) by (pose proof (ro_slab _ _ Hok); lia). cbn [negb rbind].
    rewrite E1. cbn [rbind]. exists st, st1, R1, r, R2. split_and!; try done; [by left|].
    rewrite !fmap_app, !fmap_cons. unfold insert_slab. fold c.
    by rewrite place_at by (first [apply Forall_fmap; exact (proj1 (filter_none _ R1) F1)|done]).
Qed.

(** ** An object leaves a slab *)

(** the row without an object *)
Record row_less (o : Z) (e : entry) (r r' : row) : Prop := {
  rl_node : r_node r' = r_node r;
  rl_slab : r_slab r' = r_slab r;
  rl_class : a_class (r_abs r') = a_class (r_abs r);
  rl_objs : r_objs r ≡ₚ o :: r_objs r';
  rl_items : a_items (r_abs r) ≡ₚ e :: a_items (r_abs r')
}.

(** the slab, full before, enters the queue of slabs with room *)
Record left_slab (o : Z) (e : entry) (r r' : row) (R : list row) (st st' : slab_state) : Prop := {
  lv_fresh : ss_fresh st' = ss_fresh st;
  lv_queue : sp_global_slab_q (ss_params st') = sp_global_slab_q (ss_params st);
  lv_alloc : sp_n_allocated_slabs (ss_params st') = sp_n_allocated_slabs (ss_params st);
  lv_classes : classes_rel (a_class (r_abs r)) (fun cls cls' => sc_n_stored_items cls' = u32 (sc_n_stored_items cls - 1) /\
    gd_data (sc_free_slab_q cls') = gd_data (sc_free_slab_q cls) ++ [r_slab r]) st st';
  lv_slabs : ss_slabs st' = <[r_slab r := slab_of (r_node r) (r_abs r')]> (ss_slabs st);
  lv_objs_gone : ss_objs st' !! o = None;
  lv_objs : forall o', o' ∉ r_objs r -> ss_objs st' !! o' = ss_objs st !! o';
  lv_links : forall r', r' ∈ r :: R -> ss_links st' !! r_node r' = ss_links st !! r_node r';
  lv_idx_gone : idx st' e.1 = 0;
  lv_idx : forall id, id <> e.1 -> idx st' id = idx st id;
  lv_occupied : forall x, occupied st = u64 x -> occupied st' = u64 (x - e.2);
  lv_cache : same_cache st st'
}.

Lemma row_less_lists o e (R1 R2 : list row) r r' : row_less o e r r' ->
  r_node <$> R1 ++ r' :: R2 = r_node <$> R1 ++ r :: R2 /\ r_slab <$> R1 ++ r' :: R2 = r_slab <$> R1 ++ r :: R2 /\
  (R1 ++ r :: R2) ≫= r_objs ≡ₚ o :: ((R1 ++ r' :: R2) ≫= r_objs) /\
  all_items (r_abs <$> R1 ++ r :: R2) ≡ₚ e :: all_items (r_abs <$> R1 ++ r' :: R2).
Proof.
  intros [E1 E2 E3 E4 E5]. rewrite !fmap_app, !fmap_cons, E1, E2, !bind_app, !bind_cons, E4, !all_items_app, !all_items_cons, E5.
  cbn [app].
  split_and!; [done|done|by rewrite <- Permutation_middle|by rewrite <- Permutation_middle].
Qed.

(** the classes then *)
Lemma class_left_ok o e R1 r r' R2 st st' : row_less o e r r' -> Z.of_nat (length (a_items (r_abs r))) <= slots ssize (a_class (r_abs r)) ->
  filter (has_room ssize (a_class (r_abs r))) (R1 ++ r :: R2) = [] -> classes_ok st (R1 ++ r :: R2) ->
  classes_rel (a_class (r_abs r)) (fun cls cls' => sc_n_stored_items cls' = u32 (sc_n_stored_items cls - 1) /\
    gd_data (sc_free_slab_q cls') = gd_data (sc_free_slab_q cls) ++ [r_slab r]) st st' -> classes_ok st' (R1 ++ r' :: R2).
Proof.
  intros [E1 E2 E3 E4 E5] Hroom Hfull Hok Hrel. set (c := a_class (r_abs r)) in *.
  assert (Hlen : length (a_items (r_abs r)) = S (length (a_items (r_abs r')))) by (by rewrite E5).
  assert (Hst : forall c', stored c' (r_abs <$> R1 ++ r :: R2) = stored c' (r_abs <$> R1 ++ r' :: R2) + if c =? c' then 1 else 0).
  { intros c'. rewrite !fmap_app, !fmap_cons, !stored_app. cbn [stored foldr]. rewrite E3, Hlen. fold c. case_bool; lia. }
  assert (Hop : opened ssize c (r_abs r')) by (split; [done|lia]).
  apply (classes_ok_rel _ _ _ _ _ _ Hok Hrel).
  - intros cls cls' (O1 & O2 & O3) [A1 A2]. pose proof Hfull as Hf. rewrite filter_app, filter_cons in Hf.
    apply app_nil in Hf as [F1 F2]. case_decide; [done|]. unfold class_ok. rewrite filter_app, F1, filter_cons_True, F2 by done.
    rewrite A1, A2, O1, O3, Hfull, u32_sub, Hst, Z.eqb_refl. split_and!; [by cbn; rewrite E2|cbn; lia|f_equal; lia].
  - intros c' Hne. rewrite Hst, (proj2 (Z.eqb_neq c c')) by congruence. split; [|lia].
    rewrite !filter_app, !filter_cons_False; [done|intros [? _]; subst c; congruence..].
Qed.

Lemma rel_left P st R1 r r' R2 o e st' : slabs_rel P st (R1 ++ r :: R2) -> row_less o e r r' -> row_ok st' r' ->
  filter (has_room ssize (a_class (r_abs r))) (R1 ++ r :: R2) = [] -> left_slab o e r r' (R1 ++ R2) st st' ->
  slabs_rel P st' (R1 ++ r' :: R2).
Proof.
  intros H Hless Hr' Hfull HL. pose proof (rows_other _ _ _ _ _ H) as Hoth.
  destruct (row_less_lists _ _ R1 R2 _ _ Hless) as (En & Esl & Eo & Ei).
  destruct H as [R_1 R_2 R_3 R_4 R_5 R_6 R_7 R_8 R_9 R_10 R_11 R_12 R_13 R_14 R_15 R_16].
  destruct HL as [V1 V2 V3 V4 V5 V6 V7 V8 V9 V10 V11 V12]. pose proof Hless as [E1 E2 E3 E4 E5].
  pose proof (proj1 (Forall_forall _ _) R_6 r ltac:(apply elem_of_app; right; by left)) as Hr.
  pose proof R_4 as (_ & Hpend & _)%NoDup_app. rewrite Eo, <- Permutation_middle in R_4. apply NoDup_cons in R_4 as [Hno R_4].
  rewrite Ei in R_5. cbn [fmap list_fmap] in R_5. apply NoDup_cons in R_5 as [Hni R_5].
  assert (Hfr : forall x, x ∈ R1 ++ R2 -> row_ok st' x).
  { intros x Hx. destruct (Hoth x Hx) as (Hok & Hne & _ & Hox & Hix). apply (row_frame st); [done|lia|apply V8; by right|..].
    - by rewrite V5, lookup_insert_ne by congruence.
    - intros o' Ho'. apply V7. intros Hin. apply (Hox o'); [apply elem_of_app; by right|done].
    - intros id Hid. apply V10. intros ->. apply (Hix e.1); [|done]. rewrite E5. by left. }
  split; try done.
  - by rewrite V2, R_1.
  - by rewrite En.
  - by rewrite Esl.
  - apply Forall_app. split; [|constructor; [done|]]; apply Forall_forall; intros x Hx; apply Hfr, elem_of_app; [by left|by right].
  - apply Forall_forall. intros x Hx. destruct (proj1 (Forall_forall _ _) R_7 x Hx) as (Hp & t & sl & i & Hob). split; [by rewrite V1|].
    exists t, sl, i. rewrite V7; [exact Hob|]. intros Hin. apply (Hpend x.1 (list_elem_of_fmap_2 _ _ _ Hx)).
    apply list_elem_of_bind. exists r. split; [done|]. apply elem_of_app. right. by left.
  - intros id Hid. destruct (decide (id = e.1)) as [->|Hne]; [done|]. rewrite V10 by done. apply R_8.
    rewrite Ei. cbn. by rewrite not_elem_of_cons.
  - intros o'. destruct (decide (o' = o)) as [->|Hne]; [rewrite V6; split; [by intros [? ?]|done]|].
    destruct (decide (o' ∈ r_objs r)) as [Hin|Hin].
    + assert (Hin' : o' ∈ r_objs r') by (rewrite E4, elem_of_cons in Hin; by destruct Hin). split; intros _.
      * apply elem_of_app. right. apply list_elem_of_bind. exists r'. split; [done|]. apply elem_of_app. right. by left.
      * apply list_elem_of_lookup in Hin' as [i Hi]. destruct (lookup_lt_is_Some_2 (a_items (r_abs r')) i) as [e' He'].
        { rewrite <- (ro_len _ _ Hr'). by eapply lookup_lt_Some. }
        destruct (ro_items _ _ Hr' i o' e' Hi He') as (_ & _ & t & Ht). by eexists.
    + rewrite V7, R_9, Eo, <- Permutation_middle, elem_of_cons by done. tauto.
  - intros s. rewrite V5, Esl, <- R_10. destruct (decide (s = r_slab r)) as [->|Hne].
    + rewrite lookup_insert_eq, (ro_slab_t _ _ Hr). split; by eexists.
    + by rewrite lookup_insert_ne.
  - by rewrite V1.
  - exact (class_left_ok o e R1 r r' R2 st st' Hless (ro_room _ _ Hr) Hfull R_12 V4).
  - rewrite V3, R_13, !length_app. done.
  - rewrite !length_app in *. done.
  - rewrite (V11 _ R_15). f_equal. rewrite (total_perm _ _ Ei). cbn [total foldr]. fold (total (all_items (r_abs <$> R1 ++ r' :: R2))). lia.
  - by apply (constants_same st).
Qed.

(** ** The row and the object of an id *)

Lemma find_row P st R id : slabs_rel P st R -> id ∈ (all_items (r_abs <$> R)).*1 ->
  exists R1 r R2 i o e t, R = R1 ++ r :: R2 /\ row_ok st r /\ r_objs r !! i = Some o /\ a_items (r_abs r) !! i = Some e /\
    e.1 = id /\ holds_id id (r_abs r) /\ idx st id = o /\ 0 < o /\
    ss_objs st !! o = Some (mk_slab_obj id e.2 t (r_slab r) (Z.of_nat i)).
Proof.
  intros H Hin. apply list_elem_of_fmap in Hin as (e & -> & (s & He & (r & -> & Hr)%list_elem_of_fmap)%list_elem_of_bind).
  pose proof (proj1 (Forall_forall _ _) (sr_rows _ _ _ H) r Hr) as Hok.
  apply list_elem_of_split in Hr as (R1 & R2 & ->). pose proof He as He'. apply list_elem_of_lookup in He as [i Hi].
  destruct (lookup_lt_is_Some_2 (r_objs r) i) as [o Ho]; [rewrite (ro_len _ _ Hok); by eapply lookup_lt_Some|].
  destruct (ro_items _ _ Hok i o e Ho Hi) as (Hp & Hl & t & Ht). exists R1, r, R2, i, o, e, t.
  split_and!; try done; [by apply list_elem_of_fmap_2|lia].
Qed.

Lemma idx_cached P st R id : slabs_rel P st R -> (idx st id =? 0) = negb (cached id (all_items (r_abs <$> R))).
Proof.
  intros H. destruct (cached id (all_items (r_abs <$> R))) eqn:E; cbn [negb].
  - apply cached_spec in E. destruct (find_row _ _ _ _ H E) as (R1 & r & R2 & i & o & e & t & _ & _ & _ & _ & _ & _ & -> & Ho & _).
    apply Z.eqb_neq. lia.
  - apply cached_false in E. apply Z.eqb_eq. by apply (sr_absent _ _ _ H).
Qed.

End rel.
