(* ===== verification/SlabThms.v ===== *)
(** * slabLRC and slabLRU refine lists of slabs

    Their hash table holds the addresses of the objects.  Eviction, insertion and requests
    as changes of the relation of SlabRel; runs on traces, and the destruction of the
    cache. *)

From S2P Require Import Prelude Store HashTable Buckets HashTableSpec Cache CacheSpec Policies CacheThms.
From S2P Require Import Glib SlabCommon SlabPolicies SlabSpec SlabRel.

(** a counting loop over an array is a loop over its elements *)
Lemma rfold_arr {B} (f : B -> Z -> result B) (l1 l2 : list Z) b : forall pre,
  rfold (fun b i => let! x := arr_get (pre ++ l1 ++ l2) i in f b x) (seqZ (Z.of_nat (length pre)) (Z.of_nat (length l1))) b =
  rfold f l1 b.
Proof.
  revert b. induction l1 as [|x l1 IH]; intros b pre; [done|].
  cbn [length]. rewrite Nat2Z.inj_succ, seqZ_cons by lia. cbn [rfold].
  unfold arr_get at 1. destruct (Z.ltb_spec (Z.of_nat (length pre)) 0); [lia|].
  rewrite Nat2Z.id. replace ((pre ++ (x :: l1) ++ l2) !! length pre) with (Some x) by (symmetry; by apply list_lookup_middle).
  cbn [rbind]. destruct (f b x) as [b'|e]; [|done]. cbn [rbind].
  specialize (IH b' (pre ++ [x])). rewrite length_app, <- app_assoc in IH. cbn [length app] in IH.
  replace (Z.succ (Z.of_nat (length pre))) with (Z.of_nat (length pre + 1)) by lia.
  replace (Z.pred (Z.succ (Z.of_nat (length l1)))) with (Z.of_nat (length l1)) by lia. exact IH.
Qed.

Lemma touch_rows (R1 R2 : list row) r id : NoDup (all_items (r_abs <$> R1 ++ r :: R2)).*1 -> holds_id id (r_abs r) ->
  touch_slab id (r_abs <$> R1 ++ r :: R2) = r_abs <$> R1 ++ R2 ++ [r].
Proof.
  rewrite fmap_app, fmap_cons, all_items_app. cbn [all_items mbind list_bind]. rewrite !fmap_app. intros Hnd Hid.
  apply NoDup_app in Hnd as (_ & Hd1 & Hnd). apply NoDup_app in Hnd as (_ & Hd2 & _).
  assert (H1 : Forall (fun s => ~ holds_id id s) (r_abs <$> R1)).
  { apply Forall_forall. intros s Hs Hin. apply (Hd1 id (in_all_items _ _ _ Hs Hin)). apply elem_of_app. by left. }
  assert (H2 : Forall (fun s => ~ holds_id id s) (r_abs <$> R2)).
  { apply Forall_forall. intros s Hs Hin. exact (Hd2 id Hid (in_all_items _ _ _ Hs Hin)). }
  unfold touch_slab. rewrite !filter_app, !filter_cons, (decide_True _ _ Hid), (decide_False (P := ~ holds_id id (r_abs r))) by tauto.
  rewrite (proj2 (filter_none (holds_id id) _) H1), (proj2 (filter_none (holds_id id) _) H2).
  rewrite (filter_all _ _ H1), (filter_all _ _ H2). by rewrite <- app_assoc.
Qed.

Section slabs.
  Context {T Q D : Type} {GT : GHashTable T} {GK : GHashTableKeys T} {GQ : GQueue Q} {GD : GDataQueue D}.
  Context {GTL : GHashTableLaws T} {GQL : GQueueLaws Q} {GDL : GDataQueueLaws D}.
  Context (ssize n_total csize : Z) (s0 : store) (ht0 : hashtable).
  Context (Hmax : 0 < n_total < 2 ^ 64) (Hssize : 0 <= ssize < 2 ^ 32).
  #[local] Abbreviation slab_state := (SlabCommon.slab_state T Q D).
  #[local] Set Default Proof Using "Type*".

(** the object of an id, by the hash table *)
Definition table_idx (st : slab_state) (id : Z) : Z := g_hash_table_lookup (ss_hashtable st) id.

  #[local] Abbreviation rel := (slabs_rel table_idx ssize n_total csize s0 ht0).

(** nothing but the objects, the table and the bytes counted *)
Record same_slabs (st st' : slab_state) : Prop := {
  ss_same_params : ss_params st' = ss_params st;
  ss_same_slabs : ss_slabs st' = ss_slabs st;
  ss_same_links : ss_links st' = ss_links st;
  ss_same_fresh : ss_fresh st' = ss_fresh st;
  ss_same_cache : same_cache st st'
}.

Lemma evict_items_spec items : forall (st : slab_state) objs,
  Forall2 (fun o e => 0 < o /\ g_hash_table_lookup (ss_hashtable st) e.1 = o /\ is_obj st o e) objs items ->
  NoDup objs -> NoDup items.*1 ->
  exists st', rfold evict_item items.*1 st = Ok st' /\ same_slabs st st' /\
    (forall x, occupied st = u64 x -> occupied st' = u64 (x - total items)) /\
    (forall o, o ∈ objs -> ss_objs st' !! o = None) /\ (forall o, o ∉ objs -> ss_objs st' !! o = ss_objs st !! o) /\
    (forall id, id ∈ items.*1 -> g_hash_table_lookup (ss_hashtable st') id = 0) /\
    (forall id, id ∉ items.*1 -> g_hash_table_lookup (ss_hashtable st') id = g_hash_table_lookup (ss_hashtable st) id).
Proof.
  clear Hmax Hssize.
  induction items as [|e items IH]; intros st objs H Ho Hi.
  - apply Forall2_nil_inv_r in H as ->. exists st. split_and!; try done.
    + intros x. cbn [total foldr]. by rewrite Z.sub_0_r.
    + by intros o ?%not_elem_of_nil.
    + by intros id ?%not_elem_of_nil.
  - apply Forall2_cons_inv_r in H as (o & objs' & (Hpos & Hlk & t & slab & i & Hobj) & H & ->).
    apply NoDup_cons in Ho as [Hn Ho]. cbn [fmap list_fmap] in Hi. apply NoDup_cons in Hi as [Hni Hi]. cbn [fmap list_fmap rfold].
    unfold evict_item at 1. rewrite Hlk, (slab_at_some _ _ _ Hpos Hobj). cbn [rbind so_obj_size so_obj_id_int].
    unfold table_remove. cbn [ss_hashtable add_occupied set_ss_cache]. rewrite Hlk. destruct (Z.eqb_spec o 0); [lia|].
    unfold free_slab_cache_obj. cbn [ss_objs set_ss_hashtable add_occupied set_ss_cache]. rewrite (slab_at_some _ _ _ Hpos Hobj). cbn [rbind].
    match goal with |- context [rfold evict_item items.*1 ?s] => set (st1 := s) end.
    destruct (IH st1 objs') as (st' & -> & Hs & Eocc & Eo & Eo' & Eh & Eh'); [|done|done|].
    + assert (Hids : forall e', e' ∈ items -> e'.1 <> e.1).
      { intros e' He' Heq. apply Hni. rewrite <- Heq. by apply list_elem_of_fmap_2. }
      apply Forall2_same_length_lookup. apply Forall2_same_length_lookup in H as [Hlen H]. split; [done|].
      intros j o' e' Ho' He'. destruct (H j o' e' Ho' He') as (Hp' & Hl' & t' & slab' & i' & Hb'). split; [done|].
      assert (o' <> o) by (intros ->; apply Hn; by eapply list_elem_of_lookup_2). split.
      * unfold st1. cbn. rewrite g_lookup_remove_ne; [done|]. intros Heq. apply (Hids e'); [by eapply list_elem_of_lookup_2|done].
      * exists t', slab', i'. unfold st1. cbn. by rewrite lookup_delete_ne by congruence.
    + exists st'. split; [done|]. destruct Hs as [S1 S2 S3 S4 [C1 C2 C3 C4 C5 C6]]. split_and!; try done.
      * intros x Hx. rewrite (Eocc (x - e.2)); [f_equal; cbn [total foldr]; fold (total items); lia|].
        unfold st1, occupied in *. cbn. rewrite Hx. replace (u64 x + - e.2) with (u64 x - e.2) by lia. apply u64_sub.
      * intros o' [->|Ho']%elem_of_cons; [|by apply Eo]. rewrite Eo' by done. unfold st1. cbn. by rewrite lookup_delete_eq.
      * intros o' [Hne Ho']%not_elem_of_cons. rewrite Eo' by done. unfold st1. cbn. by rewrite lookup_delete_ne by congruence.
      * intros id [->|Hid]%elem_of_cons; [|by apply Eh]. rewrite Eh' by done. unfold st1. cbn. apply g_lookup_remove.
      * intros id [Hne Hid]%not_elem_of_cons. rewrite Eh' by done. unfold st1. cbn. by rewrite g_lookup_remove_ne by congruence.
Qed.


Lemma row_items (st : slab_state) r : row_ok table_idx ssize st r ->
  Forall2 (fun o e => 0 < o /\ g_hash_table_lookup (ss_hashtable st) e.1 = o /\ is_obj st o e) (r_objs r) (a_items (r_abs r)).
Proof.
  intros H. apply Forall2_same_length_lookup. split; [apply H|]. intros i o e Ho He.
  destruct (ro_items _ _ _ _ H i o e Ho He) as ([Hp _] & Hl & t & Ht). split_and!; [done|done|]. by eexists _, _, _.
Qed.

Lemma slab_evict_dropped P (st : slab_state) r R req :
  rel P st (r :: R) -> exists st', slabLRC_evict st req = Ok st' /\ dropped table_idx r R st st'.
Proof.
  intros H. pose proof (proj1 (proj1 (Forall_cons _ _ _) (sr_rows _ _ _ _ _ _ _ _ _ H))) as Hr. pose proof (row_items _ _ Hr) as Hitems.
  destruct (rows_apart _ _ _ (sr_objs _ _ _ _ _ _ _ _ _ H) (sr_ids _ _ _ _ _ _ _ _ _ H)) as [(Ho & _) (Hid & _)].
  pose proof (sr_nodes _ _ _ _ _ _ _ _ _ H) as Hnodes. destruct Hr as [H1 H2 H3 H4 H5 H6 H7 H8].
  destruct (sr_classes _ _ _ _ _ _ _ _ _ H) as [_ Hclasses]. destruct (Hclasses _ H3) as (cls & Hcls & _).
  unfold slabLRC_evict. cbn [sp_global_slab_q set_sp_n_allocated].
  destruct (g_pop_links _ _ _ (sr_links _ _ _ _ _ _ _ _ _ H)) as [Epop Elinks].
  destruct (g_queue_pop_head (sp_global_slab_q (ss_params st))) as [node q]. cbn [fst snd] in *. subst node.
  rewrite (proj2 (Z.eqb_neq (r_node r) 0)), (slab_at_some _ _ _ (proj1 H1) H6) by lia. cbn [rbind].
  cbn [ss_slabs set_ss_links set_ss_params]. rewrite (slab_at_some _ _ _ (proj1 H2) H7).
  cbn [rbind slab_of sl_slabclass_id sl_n_stored_items sl_slab_items].
  erewrite upd_class_eq; [|lia|exact Hcls]. cbn [rbind].
  match goal with |- context [rfold _ _ ?s] => set (st1 := s) end.
  pose proof (rfold_arr evict_item (a_items (r_abs r)).*1
    (repeat 0 (Z.to_nat (slots ssize (a_class (r_abs r))) - length (a_items (r_abs r)))) st1 []) as Hfold.
  rewrite length_fmap in Hfold. cbn [length app] in Hfold. change (Z.of_nat 0) with 0 in Hfold.
  unfold slab_array. rewrite Hfold. clear Hfold.
  destruct (evict_items_spec (a_items (r_abs r)) st1 (r_objs r) Hitems Ho Hid) as (st2 & -> & HS & Eocc & Eo & Eo' & Eh & Eh').
  cbn [rbind]. destruct HS as [S1 S2 S3 S4 S5]. unfold _slab_destroyer. rewrite S2. unfold st1 at 1. cbn [ss_slabs set_ss_links set_ss_params].
  rewrite (slab_at_some _ _ _ (proj1 H2) H7). cbn [rbind]. eexists. split; [reflexivity|].
  rewrite fmap_cons in Hnodes. apply NoDup_cons in Hnodes as [Hn _].
  split; cbn [ss_params ss_slabs ss_links ss_objs ss_hashtable ss_fresh ss_cache set_ss_slabs]; try done.
  - by rewrite S1.
  - by rewrite S1.
  - eapply classes_rel_insert; [lia|exact Hcls|cbn; by rewrite S1|]. done.
  - intros r' Hr'. rewrite S3. cbn. rewrite lookup_delete_ne; [done|]. intros E. apply Hn. rewrite E. by apply list_elem_of_fmap_2.
  - destruct S5 as [C1 C2 C3 C4 C5]. by split.
Qed.

(** *** Insertion *)

(** the object is in its slab and enters the table *)
Lemma enter_table (st0 st1 : slab_state) R1 r R2 c o e : rel [(o, e)] st0 (R1 ++ r :: R2) -> opened ssize c (r_abs r) ->
  e.1 ∉ (all_items (r_abs <$> R1 ++ r :: R2)).*1 -> stored_state ssize c o e r st0 st1 ->
  exists st2, table_insert st1 e.1 o = Ok st2 /\ rel [] st2 (R1 ++ row_add o e r :: R2).
Proof.
  intros H Hop Hid Hst. unfold table_insert. rewrite (st_table _ _ _ _ _ _ _ Hst).
  pose proof (sr_absent _ _ _ _ _ _ _ _ _ H e.1 Hid) as Habs. unfold table_idx in Habs. rewrite Habs. cbn [Z.eqb rbind].
  eexists. split; [reflexivity|]. apply (rel_entered _ _ _ _ _ _ st0 R1 r R2 c o e); [done|done|done|].
  pose proof (proj1 (Forall_forall _ _) (sr_rows _ _ _ _ _ _ _ _ _ H) r ltac:(apply elem_of_app; right; by left)) as Hok.
  apply (stored_entered _ _ c o e r _ st0 st1); try done; [by destruct Hop as [<- _]; apply Hok|..].
  - split; [done|]. intros c' cls Hc' Hl. exists cls. split; [done|]. rewrite decide_False by lia. done.
  - apply g_lookup_insert.
  - intros id Hne. unfold table_idx. cbn. rewrite g_lookup_insert_ne by congruence. by rewrite (st_table _ _ _ _ _ _ _ Hst).
Qed.

(** what an insertion that finds room does *)
Definition inserted (st : slab_state) (req : request) (o : Z) (fuel : nat) (st1 st2 : slab_state) : Prop :=
  add_to_slabclass fuel slabLRC_evict None st req o = Ok (slabclass_of (req_obj_size req), st1) /\
  table_insert st1 (req_obj_id_int req) o = Ok st2.

Lemma insert_room (st : slab_state) R (req : request) o fuel : let e := (req_obj_id_int req, req_obj_size req) in
  rel [(o, e)] st R -> storable ssize e.2 -> e.1 ∉ (all_items (r_abs <$> R)).*1 ->
  Exists (fun r => opened ssize (slabclass_of e.2) (r_abs r)) R \/ Z.of_nat (length R) < n_total ->
  exists st1 st2 R', inserted st req o (S fuel) st1 st2 /\ rel [] st2 R' /\
    r_abs <$> R' = insert_slab ssize n_total e (r_abs <$> R).
Proof.
  intros e H Hst Hid Hroom.
  destruct (add_room _ _ _ _ _ _ st R req o fuel slabLRC_evict H Hssize (proj2 Hmax) Hst) as
    (st0 & st1 & R1 & r & R2 & E & Hp & H0 & Hop & Hs & _ & Ei & Ea); [|done|].
  { intros st0 Hp id. unfold table_idx. by rewrite (pp_table _ _ Hp). }
  fold e in H0, Hop, Hs, Ea. rewrite <- Ei in Hid. destruct (enter_table _ _ _ _ _ _ _ _ H0 Hop Hid Hs) as (st2 & E2 & H2).
  exists st1, st2. eexists. split; [by split|]. by split.
Qed.

(** a new object goes where the abstract cache puts it, whether a slab is evicted or not *)
Lemma slab_insert_rel (st : slab_state) R (req : request) : let e := (req_obj_id_int req, req_obj_size req) in
  rel [] st R -> storable ssize e.2 -> e.1 ∉ (all_items (r_abs <$> R)).*1 ->
  exists st' R', slabLRC_insert st req = Ok st' /\ rel [] st' R' /\ r_abs <$> R' = insert_slab ssize n_total e (r_abs <$> R).
Proof.
  intros e H Hst Hid. set (c := slabclass_of e.2). pose proof (create_rel _ _ _ _ _ _ st R req H) as H1.
  assert (Hsz : 0 < req_obj_size req < 2 ^ 32) by (destruct Hst as [Hs _]; cbn in Hs; lia). specialize (H1 Hsz).
  unfold slabLRC_insert. cbn [create_slab_cache_obj_from_req] in *. set (o := ss_fresh (add_occupied (req_obj_size req) st)) in *.
  match goal with |- context [add_fuel ?s] => set (st1 := s) in * end. specialize (H1 (fun id => eq_refl)). fold e in H1.
  assert (Hins : exists fuel st2 st3 R', inserted st1 req o (S (S fuel)) st2 st3 /\ add_fuel st1 = S (S fuel) /\ rel [] st3 R' /\
    r_abs <$> R' = insert_slab ssize n_total e (r_abs <$> R)).
  { unfold add_fuel. set (n := length (queue_links (sp_global_slab_q (ss_params st1)))). exists n.
    destruct (decide (Exists (fun r => opened ssize c (r_abs r)) R \/ Z.of_nat (length R) < n_total)) as [Hroom|Hfull].
    - destruct (insert_room st1 R req o (S n) H1 Hst Hid Hroom) as (st2 & st3 & R' & Hi & H3 & Ea). by exists st2, st3, R'.
    - assert (Hnone : Forall (fun r => ~ opened ssize c (r_abs r)) R) by (apply Forall_Exists_neg; intros Hex; apply Hfull; by left).
      assert (Hge : ~ Z.of_nat (length R) < n_total) by (intros Hlt; apply Hfull; by right).
      pose proof (sr_max _ _ _ _ _ _ _ _ _ H). destruct R as [|r R]; [cbn in Hge; lia|]. cbn [length] in *.
      destruct (slab_evict_dropped _ st1 r R req H1) as (st2 & Eev & Hd).
      pose proof (rel_dropped _ _ _ _ _ _ _ _ _ _ _ (proj2 Hmax) H1 Hd) as H2.
      rewrite fmap_cons, all_items_cons, fmap_app, not_elem_of_app in Hid. destruct Hid as [_ Hid].
      destruct (insert_room st2 R req o n H2 Hst Hid) as (st3 & st4 & R' & [E3 E4] & H4 & Ea); [right; lia|].
      exists st3, st4, R'. split; [split; [|done]|split; [done|split; [done|]]].
      + rewrite (add_start _ _ _ _ _ _ _ _ _ _ _ _ _ H1 Hst). change (slabclass_of (req_obj_size req)) with c.
        rewrite (proj2 (filter_none _ (r :: R)) Hnone). cbv zeta. cbn [length]. rewrite (proj2 (Z.ltb_ge _ _)) by lia.
        change (negb (0 =? 0)) with false. cbv iota. cbn [rbind]. change (negb (0 =? 0)) with false. cbv iota. by rewrite Eev.
      + rewrite Ea. unfold insert_slab. fold c. rewrite !place_none by (apply Forall_fmap; first [exact Hnone|exact (Forall_inv_tail Hnone)]).
        rewrite !length_fmap, fmap_cons. cbn [length tail]. by rewrite (proj2 (Z.ltb_lt _ _)), (proj2 (Z.ltb_ge _ _)) by lia. }
  destruct Hins as (fuel & st2 & st3 & R' & [E2 E3] & Ef & H3 & Ea). rewrite Ef, E2. cbn [rbind]. by exists st3, R'.
Qed.

(** *** Requests *)

Lemma count_rel (idx : slab_state -> Z -> Z) P (st : slab_state) R : (forall id, idx (count_request st) id = idx st id) ->
  slabs_rel idx ssize n_total csize s0 ht0 P st R -> slabs_rel idx ssize n_total csize s0 ht0 P (count_request st) R.
Proof.
  intros Hidx H. apply (rel_similar _ _ _ _ _ _ _ st R); [done|done|apply (sr_links _ _ _ _ _ _ _ _ _ H)|]. split; try done.
  split; [done|]. intros c cls Hc Hl. exists cls. by rewrite decide_False by lia.
Qed.

(** a request to slabLRC *)
Lemma lrc_get_rel (st : slab_state) R (req : request) : csize / MiB = n_total ->
  let e := (req_obj_id_int req, req_obj_size req) in rel [] st R -> storable ssize e.2 ->
  exists st' R', slabLRC_get st req = Ok (if cached e.1 (all_items (r_abs <$> R)) then cache_ck_hit else cache_ck_miss, st') /\
    rel [] st' R' /\ r_abs <$> R' = lrc_step ssize n_total e (r_abs <$> R).
Proof.
  intros Hcs e H Hst. unfold slabLRC_get, assert_total, slabLRC_check, lrc_step.
  assert (Ha : forall st R, rel [] st R -> (sp_n_total_slabs (ss_params st) =? cache_size (st_cache (ss_cache st)) / MiB) = true).
  { intros st1 R1 H1. destruct (sr_constants _ _ _ _ _ _ _ _ _ H1) as [-> _ -> _ _ _]. rewrite Hcs. apply Z.eqb_refl. }
  rewrite (Ha st R H). pose proof (idx_cached _ _ _ _ _ _ _ _ _ (req_obj_id_int req) H) as Hlk. unfold table_idx in Hlk. rewrite Hlk.
  cbn [cassert rbind]. fold e. change (req_obj_id_int req) with e.1.
  destruct (cached e.1 (all_items (r_abs <$> R))) eqn:E; cbn [negb rbind].
  - rewrite (Ha st R H). cbn [cassert rbind]. exists (count_request st), R. split_and!; [done|by apply count_rel|done].
  - apply cached_false in E. destruct (slab_insert_rel st R req H Hst E) as (st' & R' & -> & H' & Ea). cbn [rbind].
    rewrite (Ha st' R' H'). cbn [cassert rbind]. exists (count_request st'), R'. split_and!; [done|by apply count_rel|done].
Qed.

(** a slab becomes the last of the global queue *)
Lemma move_rel P (st : slab_state) R1 r R2 : rel P st (R1 ++ r :: R2) -> rel P (move_to_tail (r_node r) st) (R1 ++ R2 ++ [r]).
Proof.
  intros H. apply (rel_similar _ _ _ _ _ _ _ st (R1 ++ r :: R2)); [done|by rewrite (Permutation_cons_append R2 r)|..].
  - pose proof (sr_nodes _ _ _ _ _ _ _ _ _ H) as Hnd. rewrite fmap_app, fmap_cons in Hnd. cbn.
    rewrite g_push_links, (g_unlink_links _ (r_node <$> R1) (r_node r) (r_node <$> R2)); [by rewrite !fmap_app, <- app_assoc| |done].
    by rewrite (sr_links _ _ _ _ _ _ _ _ _ H), fmap_app, fmap_cons.
  - split; try done. split; [done|]. intros c cls Hc Hl. exists cls. by rewrite decide_False by lia.
Qed.

(** a request to slabLRU *)
Lemma lru_get_rel (st : slab_state) R (req : request) :
  let e := (req_obj_id_int req, req_obj_size req) in rel [] st R -> storable ssize e.2 ->
  exists st' R', slabLRU_get st req = Ok (if cached e.1 (all_items (r_abs <$> R)) then cache_ck_hit else cache_ck_miss, st') /\
    rel [] st' R' /\ r_abs <$> R' = lru_step ssize n_total e (r_abs <$> R).
Proof.
  intros e H Hst. unfold slabLRU_get, slabLRU_check, lru_step.
  pose proof (idx_cached _ _ _ _ _ _ _ _ _ (req_obj_id_int req) H) as Hlk. unfold table_idx in Hlk. rewrite Hlk. change (req_obj_id_int req) with e.1.
  destruct (cached e.1 (all_items (r_abs <$> R))) eqn:E; cbn [negb rbind].
  - apply cached_spec in E. destruct (find_row _ _ _ _ _ _ _ _ _ _ H E) as (R1 & r & R2 & i & o & e' & t & -> & Hok & _ & _ & _ & Hid & Hl & Ho & Hx).
    unfold table_idx in Hl. pose proof (ro_slab_t _ _ _ _ Hok) as Hsl. pose proof (proj1 (ro_slab _ _ _ _ Hok)) as Hps.
    rewrite Hl, (slab_at_some _ _ _ Ho Hx). cbn [rbind so_slab]. rewrite (slab_at_some _ _ _ Hps Hsl). cbn [rbind slab_of sl_q_node].
    unfold slabLRU_update. cbn [ss_objs ss_slabs ss_hashtable move_to_tail set_ss_params]. change (req_obj_id_int req) with e.1.
    rewrite Hl, (slab_at_some _ _ _ Ho Hx). cbn [rbind so_slab]. rewrite (slab_at_some _ _ _ Hps Hsl). cbn [rbind slab_of sl_q_node].
    eexists _, (R1 ++ R2 ++ [r]). split; [reflexivity|]. split; [|symmetry; apply touch_rows; [apply H|done]].
    apply count_rel; [done|]. pose proof (move_rel _ _ _ _ _ H) as H1. rewrite app_assoc in H1.
    apply move_rel in H1. cbn [app] in H1. by rewrite <- app_assoc in H1.
  - apply cached_false in E. destruct (slab_insert_rel st R req H Hst E) as (st' & R' & E1 & H' & Ea).
    change (slabLRU_insert st req) with (slabLRC_insert st req). rewrite E1. cbn [rbind].
    exists (count_request st'), R'. split_and!; [done|by apply count_rel|done].
Qed.

(** ** Runs *)

(** what a step on one request gives for a whole trace *)
Lemma slab_run_rel (get : slab_state -> request -> result (cache_ck_res_e * slab_state)) (step : entry -> list aslab -> list aslab) :
  (forall st R req, let e := (req_obj_id_int req, req_obj_size req) in rel [] st R -> storable ssize e.2 ->
     exists st' R', get st req = Ok (if cached e.1 (all_items (r_abs <$> R)) then cache_ck_hit else cache_ck_miss, st') /\
       rel [] st' R' /\ r_abs <$> R' = step e (r_abs <$> R)) ->
  forall reqs st R, rel [] st R -> storable_trace ssize reqs ->
  exists st' R', slab_run get st reqs = Ok ((aslab_run step (trace_of reqs) (r_abs <$> R)).1, st') /\
    rel [] st' R' /\ r_abs <$> R' = (aslab_run step (trace_of reqs) (r_abs <$> R)).2.
Proof.
  intros Hstep. induction reqs as [|req reqs IH]; intros st R H Hreqs.
  - exists st, R. by split_and!.
  - apply Forall_cons in Hreqs as [Hreq Hreqs]. destruct (Hstep st R req H Hreq) as (st1 & R1 & E & H1 & Ea).
    destruct (IH st1 R1 H1 Hreqs) as (st2 & R2 & E2 & H2 & Ea2). cbn [slab_run]. rewrite E. cbn [rbind]. rewrite E2. cbn [rbind].
    exists st2, R2. rewrite Ea in *. cbn [trace_of fmap list_fmap aslab_run]. fold (trace_of reqs).
    destruct (aslab_run step (trace_of reqs) _) as [res a']. by split_and!.
Qed.


(** ** Destruction *)

(** What is left of the blocks of the creation: the cache_params and the slab_q of every class. *)
Definition leaked_blocks : list slab_block := SB_params :: (SB_slab_q <$> seqZ 0 N_SLABCLASS).

(** the queues of the classes [ids] that are freed *)
Definition free_queues (ids : list Z) (bs : list slab_block) : result (list slab_block) :=
  rfold (fun bs id => let! bs := free_block (SB_free_slab_q id) bs in free_block (SB_obj_q id) bs) ids bs.

Lemma blocks_freed : exists b1 b2 b3, free_block SB_global_slab_q init_blocks = Ok b1 /\
  free_queues (seqZ 0 N_SLABCLASS) b1 = Ok b2 /\ free_block SB_hashtable b2 = Ok b3 /\ free_block SB_cache_t b3 = Ok leaked_blocks.
Proof. clear. do 3 eexists. split_and!; vm_compute; reflexivity. Qed.

Lemma release_ok b (st : slab_state) bs : free_block b (ss_blocks st) = Ok bs -> release b st = Ok (set_ss_blocks bs st).
Proof. clear. unfold release. by intros ->. Qed.

(** the global queue is freed with its slabs *)
Lemma free_slabs_ok R (st : slab_state) b : queue_links (sp_global_slab_q (ss_params st)) = r_node <$> R ->
  NoDup (r_slab <$> R) -> (forall s, is_Some (ss_slabs st !! s) <-> s ∈ r_slab <$> R) ->
  Forall (fun r => 0 < r_node r /\ 0 < r_slab r /\ ss_links st !! r_node r = Some (r_slab r)) R ->
  free_block SB_global_slab_q (ss_blocks st) = Ok b ->
  free_slabs st = Ok (set_ss_blocks b (free_links (r_node <$> R) (set_ss_slabs ∅ st))).
Proof.
  clear Hmax Hssize. intros Hq Hnd Hdom Hl Hb. unfold free_slabs. rewrite Hq.
  enough (E : rfold (fun st node => let! slab := slab_at (ss_links st) node in _slab_destroyer st slab) (r_node <$> R) st =
    Ok (set_ss_slabs ∅ st)) by (rewrite E; cbn [rbind]; by apply release_ok).
  clear Hq Hb. revert st Hdom Hl. induction R as [|r R IH]; intros st Hdom Hl.
  - assert (E : ss_slabs st = ∅).
    { apply map_empty. intros s. apply eq_None_not_Some. rewrite Hdom. by apply not_elem_of_nil. }
    destruct st. cbn in *. by subst.
  - apply Forall_cons in Hl as [(Hn & Hs & Hlk) Hl]. rewrite fmap_cons in *. apply NoDup_cons in Hnd as [Hni Hnd]. cbn [rfold].
    rewrite (slab_at_some _ _ _ Hn Hlk). cbn [rbind]. unfold _slab_destroyer at 1.
    destruct (proj2 (Hdom (r_slab r)) ltac:(by left)) as [s Es]. rewrite (slab_at_some _ _ _ Hs Es). cbn [rbind].
    rewrite (IH Hnd (set_ss_slabs (delete (r_slab r) (ss_slabs st)) st)); [done| |exact Hl].
    intros s'. cbn [ss_slabs set_ss_slabs]. destruct (decide (s' = r_slab r)) as [->|Hne].
    + rewrite lookup_delete_eq. split; [by intros [? ?]|done].
    + rewrite lookup_delete_ne by done. rewrite Hdom, elem_of_cons. naive_solver.
Qed.

Lemma free_slabs_spec (idx : slab_state -> Z -> Z) R (st : slab_state) P b : slabs_rel idx ssize n_total csize s0 ht0 P st R ->
  free_block SB_global_slab_q init_blocks = Ok b ->
  free_slabs st = Ok (set_ss_blocks b (free_links (r_node <$> R) (set_ss_slabs ∅ st))).
Proof.
  intros H Hb. apply free_slabs_ok; [apply H..| |by rewrite (cn_blocks _ _ _ _ _ _ (sr_constants _ _ _ _ _ _ _ _ _ H))].
  eapply Forall_impl; [apply H|]. intros r Hr. split_and!; apply Hr.
Qed.

(** the queues of the classes, which hold no object of their own *)
Lemma free_class_queues ids : forall (st : slab_state) bs, Forall (fun id => 0 <= id < 48) ids ->
  length (sp_slabclasses (ss_params st)) = 48%nat -> free_queues ids (ss_blocks st) = Ok bs ->
  exists lk, rfold (fun st id =>
    let! st := release (SB_free_slab_q id) st in
    let! c := arr_get (sp_slabclasses (ss_params st)) id in
    release (SB_obj_q id) (free_links (queue_links (sc_obj_q c)) st)) ids st = Ok (set_ss_blocks bs (set_ss_links lk st)).
Proof.
  clear Hmax Hssize. induction ids as [|id ids IH]; intros st bs Hids Hlen Hbs.
  - injection Hbs as <-. exists (ss_links st). by destruct st.
  - apply Forall_cons in Hids as [Hid Hids]. unfold free_queues in Hbs. cbn [rfold] in Hbs.
    apply rbind_Ok in Hbs as (b2 & (b1 & E1 & E2)%rbind_Ok & Hbs). cbn [rfold].
    rewrite (release_ok _ _ _ E1). cbn [rbind]. cbn [ss_params set_ss_blocks].
    unfold arr_get at 1. rewrite (proj2 (Z.ltb_ge id 0)) by lia.
    destruct (lookup_lt_is_Some_2 (sp_slabclasses (ss_params st)) (Z.to_nat id)) as [c ->]; [lia|]. cbn [rbind].
    rewrite (release_ok _ _ b2) by exact E2. cbn [rbind].
    destruct (IH (set_ss_blocks b2 (free_links (queue_links (sc_obj_q c)) (set_ss_blocks b1 st))) bs) as (lk & ->); [done|done|done|].
    by exists lk.
Qed.

(** the table: a freed object in it is freed again *)
Lemma free_values_dangling (t : T) id : 0 < g_hash_table_lookup t id -> forall keys (st : slab_state),
  Forall (fun k => g_hash_table_lookup t k <> 0) keys -> id ∈ keys -> ss_hashtable st = t ->
  ss_objs st !! g_hash_table_lookup t id = None ->
  rfold (fun st k => free_slab_cache_obj st (g_hash_table_lookup (ss_hashtable st) k)) keys st = Err BadAccess.
Proof.
  clear Hmax Hssize. intros Hp. induction keys as [|k keys IH]; intros st Hk Hin Ht Hn; [by apply not_elem_of_nil in Hin|].
  apply Forall_cons in Hk as [Hk0 Hk]. cbn [rfold]. unfold free_slab_cache_obj at 1, slab_at. rewrite Ht, (proj2 (Z.eqb_neq _ 0)) by done.
  destruct (ss_objs st !! g_hash_table_lookup t k) as [o|] eqn:E; [|done]. cbn [rbind].
  apply elem_of_cons in Hin as [->|Hin]; [congruence|]. apply IH; [done|done|done|]. cbn [ss_objs set_ss_objs].
  apply lookup_delete_None. by right.
Qed.

(** the objects found at [keys] are freed, once each *)
Lemma free_all_spec (addr : slab_state -> Z -> result Z) : (forall m st k, addr (set_ss_objs m st) k = addr st k) ->
  forall keys st os, Forall2 (fun k o => addr st k = Ok o /\ 0 < o /\ is_Some (ss_objs st !! o)) keys os -> NoDup os ->
  exists m, rfold (fun st k => let! o := addr st k in free_slab_cache_obj st o) keys st = Ok (set_ss_objs m st) /\
    forall o, is_Some (m !! o) <-> is_Some (ss_objs st !! o) /\ o ∉ os.
Proof.
  clear Hmax Hssize. intros Haddr. induction keys as [|k keys IH]; intros st os H Hnd.
  - apply Forall2_nil_inv_l in H as ->. exists (ss_objs st). split; [by destruct st|]. intros o. rewrite elem_of_nil. tauto.
  - apply Forall2_cons_inv_l in H as (o & os' & (Ea & Hp & x & Hx) & H & ->). apply NoDup_cons in Hnd as [Hno Hnd].
    cbn [rfold]. rewrite Ea. cbn [rbind]. unfold free_slab_cache_obj at 1. rewrite (slab_at_some _ _ _ Hp Hx). cbn [rbind].
    destruct (IH (set_ss_objs (delete o (ss_objs st)) st) os') as (m & -> & Hm); [|done|].
    + apply Forall2_same_length_lookup. apply Forall2_same_length_lookup in H as [Hlen H]. split; [done|].
      intros i k' o' Hk Ho'. rewrite Haddr. destruct (H i k' o' Hk Ho') as (A1 & A2 & A3). split_and!; [done|done|]. cbn.
      rewrite lookup_delete_ne; [done|]. intros ->. apply Hno. by eapply list_elem_of_lookup_2.
    + exists m. split; [done|]. intros o'. rewrite Hm. cbn [ss_objs set_ss_objs]. rewrite elem_of_cons.
      destruct (decide (o' = o)) as [->|Hne]; [rewrite lookup_delete_eq|rewrite lookup_delete_ne by done]; [|tauto].
      split; [by intros [[? ?] _]|tauto].
Qed.

(** when they are all the objects, none is left, and the cache is freed *)
Lemma cache_freed (idx : slab_state -> Z -> Z) (st : slab_state) R (os : list Z) (m : gmap Z slab_cache_obj_t) s : slabs_rel idx ssize n_total csize s0 ht0 [] st R ->
  (forall o, is_Some (m !! o) <-> is_Some (ss_objs st !! o) /\ o ∉ os) ->
  (forall e, e ∈ all_items (r_abs <$> R) -> idx st e.1 ∈ os) -> free_chained_hashtable s0 ht0 = Ok s ->
  m = ∅ /\ cache_struct_free (ss_cache st) = Ok s.
Proof.
  intros H Hm Hos Hs. split.
  - apply map_empty. intros o. apply eq_None_not_Some. rewrite Hm. intros [Hdom Hn]. apply Hn.
    apply (sr_dom_objs _ _ _ _ _ _ _ _ _ H) in Hdom. cbn in Hdom. apply list_elem_of_bind in Hdom as (r & Hor & Hr).
    pose proof (proj1 (Forall_forall _ _) (sr_rows _ _ _ _ _ _ _ _ _ H) r Hr) as Hok.
    apply list_elem_of_lookup in Hor as [i Hi]. destruct (lookup_lt_is_Some_2 (a_items (r_abs r)) i) as [e He].
    { rewrite <- (ro_len _ _ _ _ Hok). by eapply lookup_lt_Some. }
    destruct (ro_items _ _ _ _ Hok i o e Hi He) as (_ & <- & _). apply Hos. apply list_elem_of_bind. exists (r_abs r).
    split; [by eapply list_elem_of_lookup_2|by apply list_elem_of_fmap_2].
  - unfold cache_struct_free. destruct (sr_constants _ _ _ _ _ _ _ _ _ H) as [_ _ _ -> -> _]. exact Hs.
Qed.

Context {GKL : GHashTableKeysLaws T}.

(** every object and slab is freed once, and all the blocks but the leaked ones *)
Lemma slab_free_rel (st : slab_state) R : rel [] st R -> (exists s, free_chained_hashtable s0 ht0 = Ok s /\ objs s = ∅) ->
  exists st' s, slabLRC_free st = Ok (st', s) /\ ss_objs st' = ∅ /\ ss_slabs st' = ∅ /\ objs s = ∅ /\ ss_blocks st' = leaked_blocks.
Proof.
  intros H (s & Es & Hs). destruct blocks_freed as (b1 & b2 & b3 & B1 & B2 & B3 & B4).
  unfold slabLRC_free. rewrite (free_slabs_spec _ _ _ _ _ H B1). cbn [rbind].
  destruct (free_class_queues (seqZ 0 N_SLABCLASS) (set_ss_blocks b1 (free_links (r_node <$> R) (set_ss_slabs ∅ st))) b2)
    as (lk & E1); [| |exact B2|].
  { apply Forall_forall. intros id Hid%elem_of_seqZ. unfold N_SLABCLASS in Hid. lia. }
  { apply (sr_classes _ _ _ _ _ _ _ _ _ H). }
  rewrite E1. cbn [rbind]. clear E1. set (st1 := set_ss_blocks b2 _).
  change (ss_hashtable st1) with (ss_hashtable st). set (keys := g_hash_table_get_keys (ss_hashtable st)).
  assert (Hk : forall k, k ∈ keys -> exists x, 0 < table_idx st k /\ ss_objs st !! table_idx st k = Some x /\ so_obj_id_int x = k).
  { intros k Hk%g_keys_spec. destruct (decide (k ∈ (all_items (r_abs <$> R)).*1)) as [Hin|Hin].
    - destruct (find_row _ _ _ _ _ _ _ _ _ _ H Hin) as (R1 & r & R2 & i & o & e & t & _ & _ & _ & _ & _ & _ & -> & Hp & Hx). by eexists.
    - destruct Hk. by apply (sr_absent _ _ _ _ _ _ _ _ _ H). }
  destruct (free_all_spec (fun st k => Ok (table_idx st k)) (fun m st k => eq_refl) keys st1 (table_idx st <$> keys)) as (m & E & Hm).
  - apply Forall2_fmap_r, Forall_Forall2_diag, Forall_forall. intros k Hin. destruct (Hk k Hin) as (x & Hp & Hx & _). split_and!; [done|done|by eexists].
  - apply NoDup_fmap_2_strong; [|apply g_keys_nodup]. intros k k' (x & _ & Hx & <-)%Hk (x' & _ & Hx' & <-)%Hk E. congruence.
  - unfold table_idx in E. cbn [rbind] in E. rewrite E. cbn [rbind]. destruct (cache_freed _ st R _ m s H Hm) as [-> Ef]; [|done|].
    { intros e He. apply list_elem_of_fmap_2, g_keys_spec. assert (Hin : e.1 ∈ (all_items (r_abs <$> R)).*1) by (by apply list_elem_of_fmap_2).
      destruct (find_row _ _ _ _ _ _ _ _ _ _ H Hin) as (R1 & r & R2 & i & o & e' & t & _ & _ & _ & _ & _ & _ & Hi & Hp & _).
      unfold table_idx in Hi. lia. }
    rewrite (release_ok _ _ b3) by exact B3. cbn [rbind]. unfold free_cache_t.
    cbn [ss_cache set_ss_blocks set_ss_objs set_ss_slabs set_ss_links free_links st1]. rewrite Ef. cbn [rbind].
    rewrite (release_ok _ _ leaked_blocks) by exact B4. cbn [rbind]. eexists _, s. by split_and!.
Qed.

(** a table that holds the address of a freed object: the destruction of the cache frees it again *)
Lemma slab_free_dangling (st : slab_state) R id : queue_links (sp_global_slab_q (ss_params st)) = r_node <$> R ->
  NoDup (r_slab <$> R) -> (forall s, is_Some (ss_slabs st !! s) <-> s ∈ r_slab <$> R) ->
  Forall (fun r => 0 < r_node r /\ 0 < r_slab r /\ ss_links st !! r_node r = Some (r_slab r)) R ->
  ss_blocks st = init_blocks -> length (sp_slabclasses (ss_params st)) = 48%nat ->
  0 < g_hash_table_lookup (ss_hashtable st) id -> ss_objs st !! g_hash_table_lookup (ss_hashtable st) id = None ->
  slabLRC_free st = Err BadAccess.
Proof.
  intros Hq Hnd Hdom Hl Hb Hlen Hp Hn. destruct blocks_freed as (b1 & b2 & b3 & B1 & B2 & B3 & B4). rewrite <- Hb in B1.
  unfold slabLRC_free. rewrite (free_slabs_ok R st b1) by done. cbn [rbind].
  destruct (free_class_queues (seqZ 0 N_SLABCLASS) (set_ss_blocks b1 (free_links (r_node <$> R) (set_ss_slabs ∅ st))) b2)
    as (lk & E1); [| |exact B2|].
  { apply Forall_forall. intros id' Hid%elem_of_seqZ. unfold N_SLABCLASS in Hid. lia. }
  { exact Hlen. }
  rewrite E1. cbn [rbind]. clear E1.
  rewrite (free_values_dangling (ss_hashtable st) id Hp); [done| |apply g_keys_spec; cbn; lia|done|done].
  apply Forall_forall. intros k Hk%g_keys_spec. exact Hk.
Qed.

End slabs.
