(* ===== verification/SlabObjSpec.v ===== *)
(** * What slabObjLRU promises

    slabObjLRU evicts the least recently used object of the slab class that needs room, and
    takes a whole slab only when the class has no object.  The abstract cache is the list of
    its slabs, by recency, and the list of its entries, by recency.  The order of the entries
    in a slab does not matter, since eviction fills the place of an object with the last one:
    slabs are compared up to it. *)

From S2P Require Import Prelude Store HashTable Buckets HashTableSpec Cache CacheSpec Policies CacheThms.
From S2P Require Import Glib SlabCommon SlabPolicies SlabSpec.

(** ** The abstract cache *)

Record ocache := mk_ocache { oc_slabs : list aslab; oc_lru : list entry }.

(** the entries of a class, the least recently used first *)
Definition of_class (c : Z) (l : list entry) : list entry := filter (fun e => slabclass_of e.2 = c) l.

Definition drop_entry (id : Z) (s : aslab) : aslab := mk_aslab (a_class s) (without id (a_items s)).

(** an eviction for an object of class [c] *)
Definition obj_evict (c : Z) (a : ocache) : ocache :=
  match of_class c (oc_lru a) with
  | e :: _ => mk_ocache (drop_entry e.1 <$> oc_slabs a) (without e.1 (oc_lru a))
  | [] => mk_ocache (tail (oc_slabs a))
      (filter (fun e => e.1 ∈ (all_items (tail (oc_slabs a))).*1) (oc_lru a))
  end.

(** there is a slab of the class with room, or another slab can be allocated *)
Definition room_for (ssize n_total c : Z) (a : list aslab) : Prop :=
  Exists (opened ssize c) a \/ Z.of_nat (length a) < n_total.

#[export] Instance room_for_dec ssize n_total c a : Decision (room_for ssize n_total c a).
Proof. unfold room_for. apply _. Defined.

Definition obj_insert (ssize n_total : Z) (e : entry) (a : ocache) : ocache :=
  let a := if decide (room_for ssize n_total (slabclass_of e.2) (oc_slabs a)) then a
           else obj_evict (slabclass_of e.2) a in
  mk_ocache (insert_slab ssize n_total e (oc_slabs a)) (oc_lru a ++ [e]).

(** a request *)
Definition obj_step (ssize n_total : Z) (e : entry) (a : ocache) : ocache :=
  if cached e.1 (oc_lru a)
  then mk_ocache (touch_slab e.1 (oc_slabs a)) (without e.1 (oc_lru a) ++ filter (fun x => x.1 = e.1) (oc_lru a))
  else obj_insert ssize n_total e a.

Fixpoint ocache_run (ssize n_total : Z) (trace : list entry) (a : ocache) : list cache_ck_res_e * ocache :=
  match trace with
  | [] => ([], a)
  | e :: trace =>
      let '(res, a') := ocache_run ssize n_total trace (obj_step ssize n_total e a) in
      ((if cached e.1 (oc_lru a) then cache_ck_hit else cache_ck_miss) :: res, a')
  end.

(** ** Slabs up to the order of their entries *)

#[export] Instance aslab_equiv : Equiv aslab := fun s s' => a_class s = a_class s' /\ a_items s ≡ₚ a_items s'.

#[export] Instance aslab_equivalence : Equivalence (≡@{aslab}).
Proof.
  split.
  - by intros s.
  - intros s s' [H1 H2]. by split.
  - intros s s' s'' [H1 H2] [H3 H4]. split; [congruence|by rewrite H2].
Qed.

#[export] Instance opened_proper ssize c : Proper ((≡) ==> iff) (opened ssize c).
Proof. intros s s' [H1 H2]. unfold opened. by rewrite H1, H2. Qed.

#[export] Instance holds_id_proper id : Proper ((≡) ==> iff) (holds_id id).
Proof. intros s s' [H1 H2]. unfold holds_id. by rewrite H2. Qed.

#[export] Instance add_item_proper e : Proper ((≡) ==> (≡)) (add_item e).
Proof. intros s s' [H1 H2]. split; [done|]. cbn. by rewrite H2. Qed.

#[export] Instance drop_entry_proper id : Proper ((≡) ==> (≡)) (drop_entry id).
Proof. intros s s' [H1 H2]. split; [done|]. cbn. unfold without. by rewrite H2. Qed.

Lemma place_equiv ssize c e (a a' : list aslab) : a ≡ a' -> place ssize c e a ≡ place ssize c e a'.
Proof.
  induction 1 as [|s s' a a' Hs Ha IH]; simpl; [done|].
  destruct (decide (opened ssize c s)) as [Ho|Ho].
  - rewrite decide_True by (by rewrite <- Hs). constructor. constructor; [by rewrite Hs|done].
  - rewrite decide_False by (by rewrite <- Hs). inversion IH; simpl; constructor. by constructor.
Qed.

#[export] Instance insert_slab_proper ssize n_total e : Proper ((≡) ==> (≡)) (insert_slab ssize n_total e).
Proof.
  intros a a' Ha. unfold insert_slab. pose proof (place_equiv ssize (slabclass_of e.2) e a a' Ha) as Hp.
  inversion Hp as [x y Hxy|]; [done|]. assert (length a = length a') as -> by (by rewrite Ha).
  assert (Ht : (if Z.of_nat (length a') <? n_total then a else tail a) ≡ (if Z.of_nat (length a') <? n_total then a' else tail a'))
    by (destruct (_ <? _); [done|by destruct Ha]). by rewrite Ht.
Qed.

Lemma filter_equiv (P : aslab -> Prop) `{forall s, Decision (P s)} (a a' : list aslab) : Proper ((≡) ==> iff) P -> a ≡ a' -> filter P a ≡ filter P a'.
Proof.
  intros HP. induction 1 as [|s s' a a' Hs Ha IH]; [done|]. rewrite !filter_cons. destruct (decide (P s)) as [Hd|Hd].
  - rewrite decide_True by (by rewrite <- Hs). by constructor.
  - by rewrite decide_False by (by rewrite <- Hs).
Qed.

#[export] Instance touch_slab_proper id : Proper ((≡) ==> (≡)) (touch_slab id).
Proof.
  intros a a' Ha. unfold touch_slab. rewrite (filter_equiv (holds_id id) a a') by (done || apply _).
  rewrite (filter_equiv (fun s => ~ holds_id id s) a a'); [done| |done]. intros s s' Hs. by rewrite Hs.
Qed.

Lemma all_items_equiv (a a' : list aslab) : a ≡ a' -> all_items a ≡ₚ all_items a'.
Proof. induction 1 as [|s s' a a' [_ Hs] Ha IH]; [done|]. by rewrite !all_items_cons, Hs, IH. Qed.

Lemma room_for_equiv ssize n_total c (a a' : list aslab) : a ≡ a' -> room_for ssize n_total c a <-> room_for ssize n_total c a'.
Proof.
  intros Ha. unfold room_for. assert (length a = length a') as -> by (by rewrite Ha). apply or_iff_compat_r.
  induction Ha as [|s s' a a' Hs Ha IH]; [done|]. by rewrite !Exists_cons, IH, Hs.
Qed.

(** the abstract cache, up to the order of the entries in its slabs *)
Definition ocache_eqv (a a' : ocache) : Prop := oc_slabs a ≡ oc_slabs a' /\ oc_lru a = oc_lru a'.

Lemma obj_evict_eqv c a a' : ocache_eqv a a' -> ocache_eqv (obj_evict c a) (obj_evict c a').
Proof.
  intros [Hs Hl]. unfold obj_evict. rewrite Hl. destruct (of_class c (oc_lru a')) as [|e l].
  - assert (Ht : tail (oc_slabs a) ≡ tail (oc_slabs a')) by (by destruct Hs). split; [done|]. cbn [oc_lru].
    apply list_filter_iff. intros e. by rewrite (all_items_equiv _ _ Ht).
  - split; [|done]. cbn [oc_slabs]. induction Hs as [|s s' b b' Hss Hb IH]; [done|]. constructor; [by rewrite Hss|exact IH].
Qed.

Lemma obj_step_eqv ssize n_total e a a' : ocache_eqv a a' -> ocache_eqv (obj_step ssize n_total e a) (obj_step ssize n_total e a').
Proof.
  intros H. pose proof H as [Hs Hl]. unfold obj_step. rewrite Hl. destruct (cached e.1 (oc_lru a')).
  - split; [cbn; by rewrite Hs|done].
  - unfold obj_insert. pose proof (room_for_equiv ssize n_total (slabclass_of e.2) _ _ Hs) as Hr.
    destruct (decide (room_for ssize n_total _ (oc_slabs a))) as [Hd|Hd].
    + rewrite decide_True by (by apply Hr). split; cbn; [by rewrite Hs|by rewrite Hl].
    + rewrite decide_False by (by rewrite <- Hr). destruct (obj_evict_eqv (slabclass_of e.2) _ _ H) as [Hs' Hl'].
      split; cbn; [by rewrite Hs'|by rewrite Hl'].
Qed.
