(* ===== verification/SlabObjThms.v ===== *)
(** * slabObjLRU refines its abstract cache

    The hash table holds links of the object queues, whose data are the objects.  Hits,
    insertions, the eviction of a slab and that of an object, as changes of the relation of
    SlabRel and of the queues of the classes. *)

From S2P Require Import Prelude Store HashTable Buckets HashTableSpec Cache CacheSpec Policies CacheThms.
From S2P Require Import Glib SlabCommon SlabPolicies SlabSpec SlabRel SlabThms SlabObjSpec.

(** ** The relation *)

Section objs.
  Context {T Q D : Type} {GT : GHashTable T} {GK : GHashTableKeys T} {GQ : GQueue Q} {GD : GDataQueue D}.
  Context {GTL : GHashTableLaws T} {GQL : GQueueLaws Q} {GDL : GDataQueueLaws D}.
  Context (ssize n_total csize : Z) (s0 : store) (ht0 : hashtable).
  Context (Hmax : 0 < n_total < 2 ^ 64) (Hssize : 0 <= ssize < 2 ^ 32).
  #[local] Abbreviation slab_state := (SlabCommon.slab_state T Q D).
  #[local] Set Default Proof Using "Type*".

(** the object of an id: the data of the link in the hash table *)
Definition node_idx (st : slab_state) (id : Z) : Z :=
  let node := g_hash_table_lookup (ss_hashtable st) id in
  if node =? 0 then 0 else default 0 (ss_links st !! node).

  #[local] Abbreviation rel := (slabs_rel node_idx ssize n_total csize s0 ht0).

(** the links of a class, of all links with their entries by recency *)
Definition class_links (c : Z) (L : list (Z * entry)) : list Z := (filter (fun x => slabclass_of x.2.2 = c) L).*1.

(** the object queues hold the links [L] *)
Definition queues_ok (st : slab_state) (L : list (Z * entry)) : Prop := forall c, 0 <= c < N_SLABCLASS ->
  exists q, obj_queues st !! Z.to_nat c = Some q /\ queue_links q = class_links c L.

(** the entries of a slab have its class *)
Definition classed (s : aslab) : Prop := Forall (fun e => slabclass_of e.2 = a_class s) (a_items s).

(** a link in the hash table; it is not one of the global queue *)
Definition link_ok (st : slab_state) (R : list row) (x : Z * entry) : Prop :=
  g_hash_table_lookup (ss_hashtable st) x.2.1 = x.1 /\ 0 < x.1 < ss_fresh st /\ x.1 ∉ r_node <$> R.

Record obj_rel (P : list (Z * entry)) (st : slab_state) (R : list row) (L : list (Z * entry)) : Prop := {
  or_rel : rel P st R;
  or_perm : L.*2 ≡ₚ all_items (r_abs <$> R);
  or_nodup : NoDup L.*1;
  or_links : Forall (link_ok st R) L;
  or_queues : queues_ok st L;
  or_absent : forall id, id ∉ (all_items (r_abs <$> R)).*1 -> g_hash_table_lookup (ss_hashtable st) id = 0;
  or_classed : Forall classed (r_abs <$> R);
  or_strategy : sp_slab_move_strategy (ss_params st) = no_automove
}.

(** the abstract cache of the rows and links *)
Definition ocache_of (R : list row) (L : list (Z * entry)) : ocache := mk_ocache (r_abs <$> R) L.*2.

Lemma or_ids P st R L : obj_rel P st R L -> NoDup L.*2.*1.
Proof. intros H. rewrite (or_perm _ _ _ _ H). apply (or_rel _ _ _ _ H). Qed.

Lemma or_cached P st R L id : obj_rel P st R L -> cached id L.*2 = cached id (all_items (r_abs <$> R)).
Proof.
  intros H. destruct (cached id (all_items _)) eqn:E.
  - apply cached_spec in E. apply cached_spec. by rewrite (or_perm _ _ _ _ H).
  - apply cached_false in E. apply cached_false. by rewrite (or_perm _ _ _ _ H).
Qed.

(** the object and the slab of a link *)
Lemma link_row P st R L x : obj_rel P st R L -> x ∈ L -> link_ok st R x /\
    exists R1 r R2 i o t, R = R1 ++ r :: R2 /\ row_ok node_idx ssize st r /\ r_objs r !! i = Some o /\
      a_items (r_abs r) !! i = Some x.2 /\ holds_id x.2.1 (r_abs r) /\ a_class (r_abs r) = slabclass_of x.2.2 /\
      ss_links st !! x.1 = Some o /\ 0 < o /\
      ss_objs st !! o = Some (mk_slab_obj x.2.1 x.2.2 t (r_slab r) (Z.of_nat i)).
Proof.
  intros H Hx. pose proof (proj1 (Forall_forall _ _) (or_links _ _ _ _ H) x Hx) as Hlk. split; [done|].
  assert (Hi : x.2 ∈ all_items (r_abs <$> R)) by (rewrite <- (or_perm _ _ _ _ H); by apply list_elem_of_fmap_2).
  assert (Hin : x.2.1 ∈ (all_items (r_abs <$> R)).*1) by (by apply list_elem_of_fmap_2).
  destruct (find_row _ _ _ _ _ _ _ _ _ _ (or_rel _ _ _ _ H) Hin) as (R1 & r & R2 & i & o & e & t & -> & Hok & Ho & He & Eid & Hh & Hidx & Hp & Hobj).
  assert (Hr : r_abs r ∈ r_abs <$> R1 ++ r :: R2) by (apply list_elem_of_fmap_2, elem_of_app; right; by left).
  assert (He' : e ∈ a_items (r_abs r)) by (by eapply list_elem_of_lookup_2).
  assert (Hre : e ∈ all_items (r_abs <$> R1 ++ r :: R2)) by (apply list_elem_of_bind; by exists (r_abs r)).
  assert (Ee : e = x.2) by (by apply (fmap_nodup_inj fst (all_items (r_abs <$> R1 ++ r :: R2)) e x.2 (sr_ids _ _ _ _ _ _ _ _ _ (or_rel _ _ _ _ H)))).
  subst e. exists R1, r, R2, i, o, t. destruct Hlk as (Hl & Hpos & _).
  pose proof (proj1 (Forall_forall _ _) (proj1 (Forall_forall _ _) (or_classed _ _ _ _ H) _ Hr) x.2 He') as Hc. cbn beta in Hc.
  unfold node_idx in Hidx. rewrite Hl in Hidx. destruct (Z.eqb_spec x.1 0); [lia|].
  destruct (ss_links st !! x.1) as [o'|]; cbn in Hidx; [|lia]. subst o'. by split_and!.
Qed.

(** the link of a cached id *)
Lemma find_link (L : list (Z * entry)) id : id ∈ L.*2.*1 -> exists L1 x L2, L = L1 ++ x :: L2 /\ x.2.1 = id /\ x ∈ L.
Proof.
  clear. intros Hin. apply list_elem_of_fmap in Hin as (e & -> & (x & -> & Hx)%list_elem_of_fmap).
  pose proof Hx as Hx'. apply list_elem_of_split in Hx' as (L1 & L2 & ->). by exists L1, x, L2.
Qed.

(** *** Links *)

Lemma class_links_app c L1 L2 : class_links c (L1 ++ L2) = class_links c L1 ++ class_links c L2.
Proof. clear. unfold class_links. by rewrite filter_app, fmap_app. Qed.

Lemma class_links_cons c x L : class_links c (x :: L) = (if decide (slabclass_of x.2.2 = c) then [x.1] else []) ++ class_links c L.
Proof. clear. unfold class_links. rewrite filter_cons. by case_decide. Qed.

Lemma class_links_nodup c L : NoDup L.*1 -> NoDup (class_links c L).
Proof.
  clear. intros H. unfold class_links. eapply sublist_NoDup; [exact H|]. apply fmap_sublist, sublist_filter.
Qed.

(** the queue of one class changes *)
Lemma queues_change (st st' : slab_state) L L' c q' : queues_ok st L -> 0 <= c < N_SLABCLASS ->
  obj_queues st' = <[Z.to_nat c := q']> (obj_queues st) -> queue_links q' = class_links c L' ->
  (forall c', c' <> c -> class_links c' L' = class_links c' L) -> queues_ok st' L'.
Proof.
  clear. intros H Hc E Hq Hoth c' Hc'. rewrite E. destruct (decide (c' = c)) as [->|Hne].
  - exists q'. destruct (H c Hc) as (q & Hl & _). split; [|done]. apply list_lookup_insert_eq. by eapply lookup_lt_Some.
  - destruct (H c' Hc') as (q & Hl & Hlk). exists q. rewrite list_lookup_insert_ne by lia. split; [done|]. by rewrite Hlk, Hoth.
Qed.

(** upd_class on the object queue *)
Lemma obj_queues_upd (f : Q -> Q) (st : slab_state) L c q : queues_ok st L -> 0 <= c < N_SLABCLASS ->
  obj_queues st !! Z.to_nat c = Some q ->
  exists l', upd_class (fun cl => set_sc_obj_q (f (sc_obj_q cl)) cl) st c = Ok (set_ss_params (set_sp_slabclasses l' (ss_params st)) st) /\
    sc_obj_q <$> l' = <[Z.to_nat c := f q]> (obj_queues st) /\
    classes_rel (-1) (fun _ _ => True) st (set_ss_params (set_sp_slabclasses l' (ss_params st)) st).
Proof.
  clear. intros H Hc Hq. unfold obj_queues in Hq. apply list_lookup_fmap_Some_1 in Hq as (cls & -> & Hcls).
  eexists. split; [rewrite (upd_class_eq _ _ _ _ (proj1 Hc) Hcls); reflexivity|]. split; [by rewrite list_fmap_insert|].
  by apply (classes_rel_quiet c _ _ cls (set_sc_obj_q (f (sc_obj_q cls)) cls)).
Qed.

(** the entries of [L1 ++ x :: L2] but [x], and [x] *)
Lemma lru_split (L1 : list (Z * entry)) x L2 id : NoDup (L1 ++ x :: L2).*2.*1 -> x.2.1 = id ->
  without id (L1 ++ x :: L2).*2 = (L1 ++ L2).*2 /\ filter (fun e => e.1 = id) (L1 ++ x :: L2).*2 = [x.2].
Proof.
  clear. intros Hnd <-. rewrite !fmap_app, !fmap_cons in *. apply NoDup_app in Hnd as (_ & Hd & [Hn _]%NoDup_cons).
  assert (F1 : Forall (fun e : entry => e.1 <> x.2.1) L1.*2).
  { apply Forall_forall. intros e He E. apply (Hd e.1 ltac:(by apply list_elem_of_fmap_2)). rewrite E. by left. }
  assert (F2 : Forall (fun e : entry => e.1 <> x.2.1) L2.*2).
  { apply Forall_forall. intros e He E. apply Hn. rewrite <- E. by apply list_elem_of_fmap_2. }
  unfold without. rewrite !filter_app, filter_cons_False, filter_cons_True by tauto.
  rewrite (filter_all _ _ F1), (filter_all _ _ F2).
  rewrite (proj2 (filter_none (fun e : entry => e.1 = x.2.1) _) F1), (proj2 (filter_none (fun e : entry => e.1 = x.2.1) _) F2). done.
Qed.

(** *** Hits *)

Lemma obj_check_hit (st : slab_state) R L (req : request) : obj_rel [] st R L -> req_obj_id_int req ∈ L.*2.*1 ->
  exists st' R' L', slabObjLRU_check st req true = Ok (cache_ck_hit, st') /\ obj_rel [] st' R' L' /\
    ocache_of R' L' = mk_ocache (touch_slab (req_obj_id_int req) (r_abs <$> R))
      (without (req_obj_id_int req) L.*2 ++ filter (fun x => x.1 = req_obj_id_int req) L.*2).
Proof.
  intros H Hin. pose proof (or_ids _ _ _ _ H) as Hids. unfold slabObjLRU_check, slabObjLRU_update.
  destruct (find_link _ _ Hin) as (L1 & x & L2 & -> & Eid & Hx).
  destruct (link_row _ _ _ _ _ H Hx) as ((Hl & Hpos & Hnn) & R1 & r & R2 & i & o & t & -> & Hok & Ho & Hi & Hh & Hcl & Hlk & Hp & Hobj).
  rewrite <- Eid in *. destruct (lru_split L1 x L2 x.2.1 Hids eq_refl) as [Hw Hf]. rewrite Hw, Hf, Hl.
  rewrite (proj2 (Z.eqb_neq x.1 0)) by lia. rewrite (slab_at_some _ _ _ (proj1 Hpos) Hlk). cbn [rbind]. unfold node_obj.
  rewrite (slab_at_some _ _ _ (proj1 Hpos) Hlk). cbn [rbind]. rewrite (slab_at_some _ _ _ Hp Hobj). cbn [rbind].
  unfold upd_obj. rewrite (slab_at_some _ _ _ Hp Hobj). cbn [rbind so_slab ss_slabs set_ss_objs].
  rewrite (slab_at_some _ _ _ (proj1 (ro_slab _ _ _ _ Hok)) (ro_slab_t _ _ _ _ Hok)). cbn [rbind slab_of sl_slabclass_id sl_q_node].
  match goal with |- context [upd_class _ ?s _] => set (st1 := s) end.
  pose proof (ro_class _ _ _ _ Hok) as Hc. set (c := a_class (r_abs r)) in *.
  destruct (or_queues _ _ _ _ H c Hc) as (q & Hq & Hqlk).
  destruct (obj_queues_upd (fun q => g_queue_push_tail_link (g_queue_unlink q x.1) x.1) st1 _ c q (or_queues _ _ _ _ H) Hc Hq)
    as (l' & -> & Hl' & Hcr). cbn [rbind].
  match goal with |- context [move_to_tail _ ?s] => set (st2 := s) in * end.
  eexists (move_to_tail (r_node r) st2), (R1 ++ R2 ++ [r]), (L1 ++ L2 ++ [x]). split; [reflexivity|].
  assert (HPR : R1 ++ R2 ++ [r] ≡ₚ R1 ++ r :: R2) by (by rewrite (Permutation_cons_append R2 r)).
  assert (HPL : L1 ++ L2 ++ [x] ≡ₚ L1 ++ x :: L2) by (by rewrite (Permutation_cons_append L2 x)).
  pose proof (or_nodup _ _ _ _ H) as HndL. pose proof (or_rel _ _ _ _ H) as HR. pose proof (sr_nodes _ _ _ _ _ _ _ _ _ HR) as HndR.
  rewrite fmap_app, fmap_cons in HndR. split.
  - split.
    + apply (rel_similar _ _ _ _ _ _ _ st (R1 ++ r :: R2)); [done|done|..].
      * cbn. rewrite g_push_links, (g_unlink_links _ (r_node <$> R1) (r_node r) (r_node <$> R2)); [by rewrite !fmap_app, <- app_assoc| |done].
        by rewrite (sr_links _ _ _ _ _ _ _ _ _ HR), fmap_app, fmap_cons.
      * split; try done. intros o'. cbn. destruct (decide (o' = o)) as [->|Hne]; [by rewrite lookup_insert_eq, Hobj|by rewrite lookup_insert_ne].
    + rewrite HPL. rewrite (or_perm _ _ _ _ H). unfold all_items. by rewrite HPR.
    + by rewrite HPL.
    + rewrite HPL. eapply Forall_impl; [apply (or_links _ _ _ _ H)|]. intros y (Y1 & Y2 & Y3). split_and!; [done|cbn; lia|cbn; lia|by rewrite HPR].
    + eapply (queues_change st _ (L1 ++ x :: L2) _ c _ (or_queues _ _ _ _ H) Hc); [exact Hl'|..].
      * rewrite g_push_links, (g_unlink_links _ (class_links c L1) x.1 (class_links c L2)).
        -- rewrite !class_links_app, class_links_cons, decide_True by done. by rewrite <- app_assoc.
        -- by rewrite Hqlk, class_links_app, class_links_cons, decide_True.
        -- pose proof (class_links_nodup c _ HndL) as Hnd. by rewrite class_links_app, class_links_cons, decide_True in Hnd.
      * intros c' Hne. rewrite !class_links_app, !class_links_cons, decide_False by congruence. by rewrite app_nil_r.
    + intros id. unfold all_items. rewrite HPR. apply (or_absent _ _ _ _ H).
    + rewrite HPR. apply (or_classed _ _ _ _ H).
    + apply (or_strategy _ _ _ _ H).
  - unfold ocache_of. rewrite touch_rows; [|apply HR|done]. f_equal. by rewrite app_assoc, (fmap_app snd (L1 ++ L2)).
Qed.

(** *** Insertion, with room *)

Lemma obj_create (st : slab_state) R L (req : request) : obj_rel [] st R L -> 0 < req_obj_size req < 2 ^ 32 ->
  let '(o, st') := create_slab_cache_obj_from_req (add_occupied (req_obj_size req) st) req in
  obj_rel [(o, (req_obj_id_int req, req_obj_size req))] st' R L.
Proof.
  intros H Hsz. pose proof (create_rel _ _ _ _ _ _ st R req (or_rel _ _ _ _ H) Hsz) as H1.
  cbn [create_slab_cache_obj_from_req] in *. specialize (H1 (fun id => eq_refl)). destruct H as [O1 O2 O3 O4 O5 O6 O7 O8].
  split; try done. eapply Forall_impl; [exact O4|]. intros x (X1 & X2 & X3). split_and!; [done|cbn; lia|cbn; lia|done].
Qed.

(** the link of a cached id is known, that of another is NULL *)
Lemma lookup_link P (st : slab_state) R L id : obj_rel P st R L ->
  (exists x, x ∈ L /\ x.2.1 = id /\ g_hash_table_lookup (ss_hashtable st) id = x.1 /\ 0 < x.1 < ss_fresh st) \/
  (id ∉ L.*2.*1 /\ g_hash_table_lookup (ss_hashtable st) id = 0).
Proof.
  intros H. destruct (decide (id ∈ L.*2.*1)) as [Hin|Hin].
  - left. apply list_elem_of_fmap in Hin as (e & -> & (x & -> & Hx)%list_elem_of_fmap). exists x.
    destruct (proj1 (Forall_forall _ _) (or_links _ _ _ _ H) x Hx) as (Hl & Hp & _). done.
  - right. split; [done|]. apply (or_absent _ _ _ _ H). by rewrite <- (or_perm _ _ _ _ H).
Qed.

Lemma node_idx_prepared P (st : slab_state) R L st0 : obj_rel P st R L -> prepared st st0 ->
  forall id, node_idx st0 id = node_idx st id.
Proof.
  intros H Hp id. unfold node_idx. rewrite (pp_table _ _ Hp).
  destruct (lookup_link _ _ _ _ id H) as [(x & _ & _ & -> & Hx)|[_ ->]]; [|done]. by rewrite (pp_links _ _ Hp) by lia.
Qed.

(** a slab may have been allocated *)
Lemma obj_prepared P (st st0 : slab_state) R R' L : obj_rel P st R L -> prepared st st0 -> rel P st0 R' ->
  (R' = R \/ exists nr, R' = R ++ [nr] /\ a_items (r_abs nr) = [] /\ ss_fresh st <= r_node nr) -> obj_rel P st0 R' L.
Proof.
  intros [O1 O2 O3 O4 O5 O6 O7 O8] [P1 P2 P3 P4 P5 P6] H0 HR.
  assert (HA : all_items (r_abs <$> R') = all_items (r_abs <$> R) /\ Forall classed (r_abs <$> R') /\
    forall n, n < ss_fresh st -> n ∉ r_node <$> R -> n ∉ r_node <$> R').
  { destruct HR as [->|(nr & -> & Hi & Hn)]; [done|]. rewrite !fmap_app, all_items_app. cbn. rewrite Hi, app_nil_r. split_and!; [done|..].
    - apply Forall_app. split; [done|]. constructor; [|done]. unfold classed. rewrite Hi. constructor.
    - intros n Hlt Hnn. rewrite not_elem_of_app. split; [done|]. intros E%list_elem_of_singleton. lia. }
  destruct HA as (HA & HC & HN). split; try done.
  - by rewrite HA.
  - eapply Forall_impl; [exact O4|]. intros x (X1 & X2 & X3). split_and!; [by rewrite P1|lia|lia|]. apply HN; [lia|done].
  - unfold queues_ok. by rewrite P5.
  - intros id. rewrite HA, P1. apply O6.
  - by rewrite P6.
Qed.

(** what slabObjLRU_insert does once the object is in its slab *)
Definition obj_enqueue (slab_id cache_obj : Z) (st : slab_state) : result slab_state :=
  let q_node := ss_fresh st in
  let! st := upd_class (fun c => set_sc_obj_q (g_queue_push_tail_link (sc_obj_q c) q_node) c) st slab_id in
  let! o := slab_at (ss_objs st) cache_obj in
  Ok (mk_slab_state (ss_cache st) (g_hash_table_insert (ss_hashtable st) (so_obj_id_int o) q_node) (ss_params st)
    (ss_objs st) (ss_slabs st) (<[q_node := cache_obj]> (ss_links st)) (q_node + 1) (ss_blocks st)).

Lemma obj_enqueue_rel (st0 st1 : slab_state) R1 r R2 L c o e : obj_rel [(o, e)] st0 (R1 ++ r :: R2) L ->
  opened ssize c (r_abs r) -> c = slabclass_of e.2 -> e.1 ∉ L.*2.*1 -> stored_state ssize c o e r st0 st1 ->
  exists st2, obj_enqueue c o st1 = Ok st2 /\ obj_rel [] st2 (R1 ++ row_add o e r :: R2) (L ++ [(ss_fresh st1, e)]).
Proof.
  intros H Hop Hce Hid Hst. pose proof (or_rel _ _ _ _ H) as H0.
  assert (Hr : r ∈ R1 ++ r :: R2) by (apply elem_of_app; right; by left).
  pose proof (proj1 (Forall_forall _ _) (sr_rows _ _ _ _ _ _ _ _ _ H0) r Hr) as Hok.
  assert (Hc : 0 <= c < N_SLABCLASS) by (destruct Hop as [<- _]; apply Hok).
  pose proof Hst as [S1 S2 S3 S4 S4b (cls & cls1 & Hcls & Ep & Hadd & Hq) (t & S6) S7].
  pose proof (sr_pending _ _ _ _ _ _ _ _ _ H0) as [[Ho _] _]%Forall_cons. cbn [fst] in Ho.
  pose proof (sr_fresh _ _ _ _ _ _ _ _ _ H0) as Hfr.
  assert (Eq0 : obj_queues st1 = obj_queues st0).
  { unfold obj_queues. rewrite Ep. cbn. by apply (obj_queues_insert _ _ _ cls). }
  assert (HQ1 : queues_ok st1 L) by (unfold queues_ok; rewrite Eq0; apply H).
  destruct (HQ1 c Hc) as (q & Hql & Hqlk).
  destruct (obj_queues_upd (fun q => g_queue_push_tail_link q (ss_fresh st1)) st1 L c q HQ1 Hc Hql) as (l' & E & Hl' & Hcr).
  unfold obj_enqueue. rewrite E. cbn [rbind ss_objs set_ss_params].
  rewrite S6, (slab_at_some _ _ _ (proj1 Ho) (lookup_insert_eq _ _ _)). cbn [rbind so_obj_id_int]. eexists. split; [reflexivity|].
  match goal with |- obj_rel [] ?s _ _ => set (st2 := s) end.
  assert (Hidx : forall id, id <> e.1 -> node_idx st2 id = node_idx st0 id).
  { intros id Hne. unfold node_idx. cbn. rewrite g_lookup_insert_ne, S3, S2 by congruence.
    destruct (lookup_link _ _ _ _ id H) as [(x & _ & _ & -> & Hx)|[_ ->]]; [|done]. by rewrite lookup_insert_ne by lia. }
  assert (Hen : entered node_idx ssize c o e r (R1 ++ R2) st0 st2).
  { apply (stored_entered _ _ c o e r _ st0 st1); try done; cbn; [lia|lia|..].
    - intros r' Hr'. rewrite lookup_insert_ne; [done|]. assert (Hr'' : r' ∈ R1 ++ r :: R2).
      { rewrite elem_of_cons, elem_of_app in Hr'. rewrite elem_of_app, elem_of_cons. tauto. }
      pose proof (ro_node _ _ _ _ (proj1 (Forall_forall _ _) (sr_rows _ _ _ _ _ _ _ _ _ H0) r' Hr'')). lia.
    - unfold node_idx. cbn. rewrite g_lookup_insert. destruct (Z.eqb_spec (ss_fresh st1) 0); [lia|]. by rewrite lookup_insert_eq. }
  assert (Hid' : e.1 ∉ (all_items (r_abs <$> R1 ++ r :: R2)).*1) by (by rewrite <- (or_perm _ _ _ _ H)).
  assert (HA : all_items (r_abs <$> R1 ++ row_add o e r :: R2) ≡ₚ e :: all_items (r_abs <$> R1 ++ r :: R2)).
  { rewrite !fmap_app, !fmap_cons. apply all_items_add. }
  assert (HN : r_node <$> R1 ++ row_add o e r :: R2 = r_node <$> R1 ++ r :: R2) by (by rewrite !fmap_app, !fmap_cons).
  split.
  - by apply (rel_entered _ _ _ _ _ _ st0 R1 r R2 c o e).
  - rewrite HA, fmap_app, (or_perm _ _ _ _ H). cbn. by rewrite Permutation_app_comm.
  - rewrite fmap_app. apply nodup_snoc; [apply H|]. intros (x & E' & Hx)%list_elem_of_fmap. cbn in E'.
    destruct (proj1 (Forall_forall _ _) (or_links _ _ _ _ H) x Hx) as (_ & Hp & _). lia.
  - apply Forall_app. split.
    + apply Forall_forall. intros x Hx. destruct (proj1 (Forall_forall _ _) (or_links _ _ _ _ H) x Hx) as (X1 & X2 & X3).
      split_and!; [|cbn; lia|cbn; lia|by rewrite HN]. cbn. rewrite g_lookup_insert_ne, S3; [done|].
      intros E'. apply Hid. rewrite E'. by do 2 apply list_elem_of_fmap_2.
    + constructor; [|done]. split_and!; cbn; [apply g_lookup_insert|lia|lia|]. rewrite HN.
      intros (r' & E' & Hr')%list_elem_of_fmap. pose proof (ro_node _ _ _ _ (proj1 (Forall_forall _ _) (sr_rows _ _ _ _ _ _ _ _ _ H0) r' Hr')). lia.
  - eapply (queues_change st1 _ L _ c _ HQ1 Hc); [exact Hl'|..].
    + rewrite g_push_links, Hqlk, class_links_app, class_links_cons. cbn [snd fst]. by rewrite decide_True.
    + intros c' Hne. rewrite class_links_app, class_links_cons. cbn [snd]. rewrite decide_False by congruence. apply app_nil_r.
  - intros id. rewrite HA. cbn. intros [Hne Hi]%not_elem_of_cons. rewrite g_lookup_insert_ne, S3 by congruence. by apply (or_absent _ _ _ _ H).
  - pose proof (or_classed _ _ _ _ H) as HC. rewrite !fmap_app, !fmap_cons in *. apply Forall_app in HC as [HC1 [HCr HC2]%Forall_cons].
    apply Forall_app. split; [done|]. constructor; [|done]. unfold classed in *. cbn. apply Forall_app. split; [done|].
    constructor; [|done]. destruct Hop as [E' _]. congruence.
  - cbn. rewrite Ep. apply (or_strategy _ _ _ _ H).
Qed.

(** the insertion of an object that finds room *)
Lemma obj_insert_room (st : slab_state) R L (req : request) o fuel ev : let e := (req_obj_id_int req, req_obj_size req) in
  let c := slabclass_of e.2 in
  obj_rel [(o, e)] st R L -> storable ssize e.2 -> e.1 ∉ L.*2.*1 -> room_for ssize n_total c (r_abs <$> R) ->
  exists st1 st2 R' n, add_to_slabclass (S fuel) ev None st req o = Ok (c, st1) /\ obj_enqueue c o st1 = Ok st2 /\
    obj_rel [] st2 R' (L ++ [(n, e)]) /\ r_abs <$> R' = insert_slab ssize n_total e (r_abs <$> R).
Proof.
  intros e c H Hst Hid Hroom.
  destruct (add_room _ _ _ _ _ _ st R req o fuel ev (or_rel _ _ _ _ H) Hssize (proj2 Hmax) Hst) as
    (st0 & st1 & R1 & r & R2 & E & Hp & H0 & Hop & Hs & HR & Ei & Ea).
  - intros st0 Hp. by apply (node_idx_prepared _ _ _ _ _ H).
  - destruct Hroom as [Hex|Hlt]; [left|right; by rewrite length_fmap in Hlt]. apply Exists_exists in Hex as (s & (r & -> & Hr)%list_elem_of_fmap & Hop).
    apply Exists_exists. by exists r.
  - fold e in H0, Hop, Hs, Ea, E. fold c in Hop, Hs, E. pose proof (obj_prepared _ _ _ _ _ _ H Hp H0 HR) as H1.
    destruct (obj_enqueue_rel _ _ _ _ _ _ _ _ _ H1 Hop eq_refl Hid Hs) as (st2 & E2 & H2).
    exists st1, st2. eexists _, _. split_and!; [exact E|exact E2|exact H2|exact Ea].
Qed.

(** *** Eviction of a slab *)

Lemma g_delete_filter q n : NoDup (queue_links q) -> n ∈ queue_links q ->
  queue_links (g_queue_delete_link q n) = filter (fun m => m <> n) (queue_links q).
Proof.
  clear -GQL. intros Hnd (l1 & l2 & E)%list_elem_of_split. rewrite (g_delete_links q l1 n l2 E) by (by rewrite <- E).
  rewrite E. symmetry. apply filter_others. by rewrite <- E.
Qed.

(** what the removal of the entries [items], with objects [os], from the class [c] leaves *)
Record dropped_items (c : Z) (os : list Z) (items : list entry) (st st' : slab_state) : Prop := {
  di_params : exists cls q, sp_slabclasses (ss_params st) !! Z.to_nat c = Some cls /\
    ss_params st' = set_sp_slabclasses (<[Z.to_nat c := set_sc_obj_q q cls]> (sp_slabclasses (ss_params st))) (ss_params st) /\
    queue_links q = filter (fun n => n ∉ (fun e => g_hash_table_lookup (ss_hashtable st) e.1) <$> items) (queue_links (sc_obj_q cls));
  di_slabs : ss_slabs st' = ss_slabs st;
  di_fresh : ss_fresh st' = ss_fresh st;
  di_links : forall n, n ∉ (fun e => g_hash_table_lookup (ss_hashtable st) e.1) <$> items -> ss_links st' !! n = ss_links st !! n;
  di_objs_gone : forall o, o ∈ os -> ss_objs st' !! o = None;
  di_objs : forall o, o ∉ os -> ss_objs st' !! o = ss_objs st !! o;
  di_table_gone : forall id, id ∈ items.*1 -> g_hash_table_lookup (ss_hashtable st') id = 0;
  di_table : forall id, id ∉ items.*1 -> g_hash_table_lookup (ss_hashtable st') id = g_hash_table_lookup (ss_hashtable st) id;
  di_occupied : forall x, occupied st = u64 x -> occupied st' = u64 (x - total items);
  di_cache : same_cache st st'
}.

Definition linked (st : slab_state) (o : Z) (e : entry) : Prop :=
  let n := g_hash_table_lookup (ss_hashtable st) e.1 in
  0 < n /\ 0 < o /\ ss_links st !! n = Some o /\ is_obj st o e.

Lemma drop_items_spec c cls items : 0 <= c -> forall (st : slab_state) os, Forall2 (linked st) os items -> NoDup os -> NoDup items.*1 ->
  sp_slabclasses (ss_params st) !! Z.to_nat c = Some cls -> NoDup (queue_links (sc_obj_q cls)) ->
  (forall e, e ∈ items -> g_hash_table_lookup (ss_hashtable st) e.1 ∈ queue_links (sc_obj_q cls)) ->
  exists st', rfold (drop_item (fun o => add_occupied (- so_obj_size o)) c) items.*1 st = Ok st' /\ dropped_items c os items st st'.
Proof.
  clear Hmax Hssize. intros Hc. revert cls. induction items as [|e items IH]; intros cls st os H Hos Hids Hcls Hq Hin.
  - apply Forall2_nil_inv_r in H as ->. exists st. split; [done|]. split; try done.
    + exists cls, (sc_obj_q cls). split_and!; [done| |symmetry; apply filter_all, Forall_forall; intros n _; apply not_elem_of_nil].
      rewrite list_insert_id; [by destruct (ss_params st)|]. rewrite Hcls. by destruct cls.
    + by intros o ?%not_elem_of_nil.
    + by intros id ?%not_elem_of_nil.
    + intros x. cbn [total foldr]. by rewrite Z.sub_0_r.
  - apply Forall2_cons_inv_r in H as (o & os' & (Hn & Hp & Hlk & t & slab & i & Hobj) & H & ->).
    apply NoDup_cons in Hos as [Hno Hos]. rewrite fmap_cons in Hids. apply NoDup_cons in Hids as [Hni Hids].
    rewrite fmap_cons. cbn [rfold]. unfold drop_item at 1. set (n := g_hash_table_lookup (ss_hashtable st) e.1) in *.
    rewrite (proj2 (Z.eqb_neq n 0)) by lia. unfold node_obj. rewrite (slab_at_some _ _ _ Hn Hlk). cbn [rbind].
    rewrite (slab_at_some _ _ _ Hp Hobj). cbn [rbind so_obj_id_int so_obj_size ss_hashtable add_occupied set_ss_cache].
    erewrite upd_class_eq; [|lia|exact Hcls]. cbn [rbind]. unfold free_slab_cache_obj.
    cbn [ss_objs set_ss_links set_ss_params set_ss_hashtable add_occupied set_ss_cache ss_links]. rewrite (slab_at_some _ _ _ Hp Hobj). cbn [rbind].
    match goal with |- context [rfold _ items.*1 ?s] => set (st1 := s) end.
    assert (Hoth : forall e', e' ∈ items -> e'.1 <> e.1).
    { intros e' He' Heq. apply Hni. rewrite <- Heq. by apply list_elem_of_fmap_2. }
    assert (Hlk1 : forall e', e' ∈ items -> g_hash_table_lookup (ss_hashtable st1) e'.1 = g_hash_table_lookup (ss_hashtable st) e'.1).
    { intros e' He'. cbn. rewrite g_lookup_remove_ne; [done|]. intros Heq. by apply (Hoth e'). }
    assert (Hnn : forall e', e' ∈ items -> g_hash_table_lookup (ss_hashtable st) e'.1 <> n).
    { intros e' He' Heq. apply list_elem_of_lookup in He' as [j Hj]. destruct (Forall2_lookup_r _ _ _ _ _ H Hj) as (o' & Ho' & _ & _ & Hlk' & _).
      rewrite Heq, Hlk in Hlk'. injection Hlk' as <-. apply Hno. by eapply list_elem_of_lookup_2. }
    destruct (IH (set_sc_obj_q (g_queue_delete_link (sc_obj_q cls) n) cls) st1 os') as (st' & -> & HD); [|done|done|..].
    + apply Forall2_same_length_lookup. apply Forall2_same_length_lookup in H as [Hlen H]. split; [done|].
      intros j o' e' Ho' He'. destruct (H j o' e' Ho' He') as (A1 & A2 & A3 & t' & slab' & i' & A4).
      pose proof (list_elem_of_lookup_2 _ _ _ He') as He''. unfold linked. rewrite (Hlk1 e' He''). split_and!; [done|done|..].
      * cbn. rewrite lookup_delete_ne; [done|]. intros E. by apply (Hnn e').
      * exists t', slab', i'. cbn. rewrite lookup_delete_ne; [done|]. intros ->. apply Hno. by eapply list_elem_of_lookup_2.
    + cbn. apply list_lookup_insert_eq. by eapply lookup_lt_Some.
    + cbn [sc_obj_q set_sc_obj_q]. rewrite g_delete_filter by (done || apply Hin; by left). by apply NoDup_filter.
    + intros e' He'. rewrite (Hlk1 e' He'). cbn [sc_obj_q set_sc_obj_q]. rewrite g_delete_filter by (done || apply Hin; by left).
      apply list_elem_of_filter. split; [by apply Hnn|apply Hin; by right].
    + exists st'. split; [done|].
      destruct HD as [(cls1 & q & D1 & D2 & D3) D4 D5 D6 D7 D8 D9 D10 D11 [C1 C2 C3 C4 C5]].
      assert (Hdead : (fun e => g_hash_table_lookup (ss_hashtable st1) e.1) <$> items = (fun e => g_hash_table_lookup (ss_hashtable st) e.1) <$> items).
      { apply list_fmap_ext. intros j e' He'. apply Hlk1. by eapply list_elem_of_lookup_2. }
      rewrite Hdead in D3, D6. cbn in D1. rewrite list_lookup_insert_eq in D1 by (by eapply lookup_lt_Some). injection D1 as <-.
      split; try done.
      * exists cls, q. split; [done|]. split.
        -- rewrite D2. cbn. by rewrite list_insert_insert_eq.
        -- rewrite D3. cbn [sc_obj_q set_sc_obj_q]. rewrite g_delete_filter by (done || apply Hin; by left).
           rewrite list_filter_filter. apply list_filter_iff. intros m. rewrite fmap_cons, not_elem_of_cons. fold n. tauto.
      * intros m. rewrite fmap_cons, not_elem_of_cons. fold n. intros [Hm Hm']. rewrite D6 by done. cbn. by rewrite lookup_delete_ne by congruence.
      * intros o' [->|Ho']%elem_of_cons; [|by apply D7]. rewrite D8 by done. cbn. by rewrite lookup_delete_eq.
      * intros o' [Hne Ho']%not_elem_of_cons. rewrite D8 by done. cbn. by rewrite lookup_delete_ne by congruence.
      * intros id. rewrite fmap_cons. intros [->|Hid]%elem_of_cons; [|by apply D9]. rewrite D10 by done. cbn. apply g_lookup_remove.
      * intros id. rewrite fmap_cons. intros [Hne Hid]%not_elem_of_cons. rewrite D10 by done. cbn. by rewrite g_lookup_remove_ne by congruence.
      * intros x Hx. rewrite (D11 (x - e.2)); [f_equal; cbn [total foldr]; fold (total items); lia|].
        unfold occupied in *. cbn. rewrite Hx. replace (u64 x + - e.2) with (u64 x - e.2) by lia. apply u64_sub.
Qed.

Lemma filter_in {A} (P P' : A -> Prop) `{forall x, Decision (P x)} `{forall x, Decision (P' x)} (l : list A) :
  (forall x, x ∈ l -> P x <-> P' x) -> filter P l = filter P' l.
Proof.
  clear. intros H1. induction l as [|x l IH]; [done|]. rewrite !filter_cons, (IH (fun y Hy => H1 y (list_elem_of_further _ _ _ Hy))).
  pose proof (H1 x (list_elem_of_here _ _)). repeat case_decide; tauto.
Qed.

Lemma filter_snd (P : entry -> Prop) `{forall e, Decision (P e)} (L : list (Z * entry)) : (filter (fun x => P x.2) L).*2 = filter P L.*2.
Proof. clear. induction L as [|x L IH]; [done|]. rewrite fmap_cons, !filter_cons. case_decide; [by rewrite fmap_cons, IH|done]. Qed.

(** the links of a slab's entries are those of the entries *)
Lemma link_of_entry P (st : slab_state) R L x e : obj_rel P st R L -> x ∈ L -> e ∈ all_items (r_abs <$> R) ->
  x.1 = g_hash_table_lookup (ss_hashtable st) e.1 <-> x.2.1 = e.1.
Proof.
  intros H Hx He. pose proof (proj1 (Forall_forall _ _) (or_links _ _ _ _ H)) as Hlk. split; intros E.
  - rewrite <- (or_perm _ _ _ _ H) in He. apply list_elem_of_fmap in He as (y & -> & Hy). destruct (Hlk y Hy) as (Ey & _).
    rewrite Ey in E. by rewrite (fmap_nodup_inj fst L x y (or_nodup _ _ _ _ H) Hx Hy E).
  - rewrite <- E. symmetry. apply (Hlk x Hx).
Qed.

(** the links but those of the first slab *)
Definition other_links (s : aslab) (L : list (Z * entry)) : list (Z * entry) := filter (fun x => x.2.1 ∉ (a_items s).*1) L.

Lemma other_links_entries s L : (other_links s L).*2 = filter (fun e => e.1 ∉ (a_items s).*1) L.*2.
Proof. exact (filter_snd (fun e => e.1 ∉ (a_items s).*1) L). Qed.

Lemma dead_link P (st : slab_state) r R L x : obj_rel P st (r :: R) L -> x ∈ L ->
  x.1 ∈ ((fun e : entry => g_hash_table_lookup (ss_hashtable st) e.1) <$> a_items (r_abs r)) <-> x.2.1 ∈ (a_items (r_abs r)).*1.
Proof.
  intros H Hx. rewrite !list_elem_of_fmap. split; intros (e & E & He); exists e; (split; [|done]);
    apply (link_of_entry _ _ _ _ _ e H Hx); try done; rewrite fmap_cons, all_items_cons; apply elem_of_app; by left.
Qed.

(** the class queues once the links of the slab are gone *)
Lemma other_links_queue P (st : slab_state) r R L c : obj_rel P st (r :: R) L ->
  class_links c (other_links (r_abs r) L) =
    filter (fun n => n ∉ ((fun e : entry => g_hash_table_lookup (ss_hashtable st) e.1) <$> a_items (r_abs r))) (class_links c L) /\
  (c <> a_class (r_abs r) -> class_links c (other_links (r_abs r) L) = class_links c L).
Proof.
  intros H. pose proof (fun x => dead_link _ _ _ _ _ x H) as Hd. pose proof (or_classed _ _ _ _ H) as [Hc _]%Forall_cons.
  assert (Hcl : forall x, x ∈ L -> x.2.1 ∈ (a_items (r_abs r)).*1 -> slabclass_of x.2.2 = a_class (r_abs r)).
  { intros x Hx (e & E & He)%list_elem_of_fmap. assert (x.2 = e) as ->; [|exact (proj1 (Forall_forall _ _) Hc e He)].
    apply (fmap_nodup_inj fst L.*2); [by eapply or_ids|by apply list_elem_of_fmap_2| |done].
    rewrite (or_perm _ _ _ _ H), fmap_cons, all_items_cons. apply elem_of_app. by left. }
  clear -Hd Hcl. unfold class_links, other_links. induction L as [|x L IH]; [done|].
  destruct IH as [IH1 IH2]; [intros; apply Hd; by right|intros; apply Hcl; [by right|done]|].
  pose proof (Hd x (list_elem_of_here _ _)) as Hdx. pose proof (Hcl x (list_elem_of_here _ _)) as Hcx. split; [|intros Hne; specialize (IH2 Hne)].
  - rewrite !filter_cons. destruct (decide (slabclass_of x.2.2 = c)) as [E|E]; case_decide as Ex; rewrite ?filter_cons.
    + rewrite decide_True by done. rewrite !fmap_cons, filter_cons, decide_True by tauto. by rewrite IH1.
    + rewrite fmap_cons, filter_cons, decide_False by tauto. done.
    + by rewrite decide_False.
    + done.
  - rewrite !filter_cons. destruct (decide (x.2.1 ∉ (a_items (r_abs r)).*1)) as [Ex|Ex]; rewrite ?filter_cons.
    + case_decide; [rewrite !fmap_cons; by rewrite IH2|done].
    + rewrite decide_False; [done|]. intros E. apply Ex. intros Hin. apply Hne. rewrite <- E. auto.
Qed.

Lemma row_linked P (st : slab_state) r R L : obj_rel P st (r :: R) L -> Forall2 (linked st) (r_objs r) (a_items (r_abs r)).
Proof.
  intros H. pose proof (sr_rows _ _ _ _ _ _ _ _ _ (or_rel _ _ _ _ H)) as [Hr _]%Forall_cons.
  apply Forall2_same_length_lookup. split; [apply Hr|]. intros i o e Ho He.
  destruct (ro_items _ _ _ _ Hr i o e Ho He) as ([Hp _] & Hl & t & Ht).
  assert (Hin : e.1 ∈ L.*2.*1).
  { apply list_elem_of_fmap_2. rewrite (or_perm _ _ _ _ H), fmap_cons, all_items_cons. apply elem_of_app. left. by eapply list_elem_of_lookup_2. }
  unfold linked. destruct (lookup_link _ _ _ _ e.1 H) as [(x & _ & _ & Ex & Hx)|[? _]]; [|done]. unfold node_idx in Hl. rewrite Ex in *.
  rewrite (proj2 (Z.eqb_neq x.1 0)) in Hl by lia. destruct (ss_links st !! x.1) as [o'|]; cbn in Hl; [subst o'|lia].
  split_and!; [lia|done|done|]. by eexists _, _, _.
Qed.

(** the link of an entry of the first slab *)
Lemma item_link P (st : slab_state) r R L e : obj_rel P st (r :: R) L -> e ∈ a_items (r_abs r) ->
  exists x, x ∈ L /\ x.2 = e /\ g_hash_table_lookup (ss_hashtable st) e.1 = x.1 /\ x.1 <> r_node r /\ slabclass_of e.2 = a_class (r_abs r).
Proof.
  intros H He. assert (He' : e ∈ L.*2) by (rewrite (or_perm _ _ _ _ H), fmap_cons, all_items_cons; apply elem_of_app; by left).
  apply list_elem_of_fmap in He' as (x & -> & Hx). exists x. destruct (proj1 (Forall_forall _ _) (or_links _ _ _ _ H) x Hx) as (Hl & _ & Hn).
  split_and!; [done|done|done| |].
  - intros E. apply Hn. rewrite E, fmap_cons. by left.
  - exact (proj1 (Forall_forall _ _) (proj1 (proj1 (Forall_cons _ _ _) (or_classed _ _ _ _ H))) x.2 He).
Qed.

(** what the loop over the items of the first slab does, once its link [r_node r] is freed *)
Lemma slab_items_drop P (st st1 : slab_state) r R L cls : obj_rel P st (r :: R) L -> let c := a_class (r_abs r) in
  sp_slabclasses (ss_params st) !! Z.to_nat c = Some cls -> ss_hashtable st1 = ss_hashtable st -> ss_objs st1 = ss_objs st ->
  ss_links st1 = delete (r_node r) (ss_links st) -> sp_slabclasses (ss_params st1) = sp_slabclasses (ss_params st) ->
  exists st2, rfold (fun st i => let! item := arr_get (slab_array ssize (r_abs r)) i in drop_item (fun o => add_occupied (- so_obj_size o)) c st item)
      (seqZ 0 (Z.of_nat (length (a_items (r_abs r))))) st1 = Ok st2 /\ dropped_items c (r_objs r) (a_items (r_abs r)) st1 st2.
Proof.
  intros H c Hcls E1 E2 E3 E4. pose proof (or_rel _ _ _ _ H) as H0. pose proof (row_linked _ _ _ _ _ H) as Hl.
  destruct (rows_apart _ _ _ (sr_objs _ _ _ _ _ _ _ _ _ H0) (sr_ids _ _ _ _ _ _ _ _ _ H0)) as [(Ho & _) (Hid & _)].
  pose proof (ro_class _ _ _ _ (proj1 (proj1 (Forall_cons _ _ _) (sr_rows _ _ _ _ _ _ _ _ _ H0)))) as Hc. fold c in Hc.
  pose proof (rfold_arr (drop_item (fun o => add_occupied (- so_obj_size o)) c) (a_items (r_abs r)).*1
    (repeat 0 (Z.to_nat (slots ssize c) - length (a_items (r_abs r)))) st1 []) as Hfold.
  rewrite length_fmap in Hfold. unfold slab_array. fold c. setoid_rewrite Hfold. clear Hfold.
  destruct (or_queues _ _ _ _ H c Hc) as (q & Hq & Hql). unfold obj_queues in Hq. rewrite list_lookup_fmap, Hcls in Hq. injection Hq as <-.
  apply (drop_items_spec c cls); [lia| |done|done|by rewrite E4|rewrite Hql; apply class_links_nodup, H|].
  - apply Forall2_same_length_lookup. apply Forall2_same_length_lookup in Hl as [Hlen Hl]. split; [done|].
    intros i o e Hio Hie. destruct (Hl i o e Hio Hie) as (A1 & A2 & A3 & A4). unfold linked, is_obj. rewrite E1, E2, E3. split_and!; try done.
    destruct (item_link _ _ _ _ _ e H ltac:(by eapply list_elem_of_lookup_2)) as (x & _ & _ & Ex & Hne & _). by rewrite Ex in *; rewrite lookup_delete_ne.
  - intros e He. destruct (item_link _ _ _ _ _ e H He) as (x & Hx & <- & Ex & _ & Hcx). rewrite E1, Hql, Ex.
    apply list_elem_of_fmap_2, list_elem_of_filter. by split.
Qed.

(** what becomes of the links of a slab that goes away *)
Record links_dropped (r : row) (st st' : slab_state) : Prop := {
  ld_table_gone : forall id, id ∈ (a_items (r_abs r)).*1 -> g_hash_table_lookup (ss_hashtable st') id = 0;
  ld_table : forall id, id ∉ (a_items (r_abs r)).*1 -> g_hash_table_lookup (ss_hashtable st') id = g_hash_table_lookup (ss_hashtable st) id;
  ld_queues : exists q q', obj_queues st !! Z.to_nat (a_class (r_abs r)) = Some q /\
    obj_queues st' = <[Z.to_nat (a_class (r_abs r)) := q']> (obj_queues st) /\
    queue_links q' = filter (fun n => n ∉ (fun e : entry => g_hash_table_lookup (ss_hashtable st) e.1) <$> a_items (r_abs r)) (queue_links q);
  ld_strategy : sp_slab_move_strategy (ss_params st') = sp_slab_move_strategy (ss_params st)
}.

Lemma obj_evict_slab_spec P (st : slab_state) r R L : obj_rel P st (r :: R) L ->
  exists st', _slabObjLRU_evict_slab st = Ok st' /\ dropped node_idx r R st st' /\ links_dropped r st st'.
Proof.
  intros H. pose proof (or_rel _ _ _ _ H) as H0. pose proof (proj1 (proj1 (Forall_cons _ _ _) (sr_rows _ _ _ _ _ _ _ _ _ H0))) as Hr.
  pose proof (sr_nodes _ _ _ _ _ _ _ _ _ H0) as Hnodes. pose proof Hr as [H1 H2 H3 H4 H5 H6 H7 H8].
  destruct (proj2 (sr_classes _ _ _ _ _ _ _ _ _ H0) _ H3) as (cls & Hcls & _).
  unfold _slabObjLRU_evict_slab. cbn [sp_global_slab_q set_sp_n_allocated].
  destruct (g_pop_links _ _ _ (sr_links _ _ _ _ _ _ _ _ _ H0)) as [Epop Elinks].
  destruct (g_queue_pop_head (sp_global_slab_q (ss_params st))) as [node q]. cbn [fst snd] in *. subst node.
  rewrite (proj2 (Z.eqb_neq (r_node r) 0)), (slab_at_some _ _ _ (proj1 H1) H6) by lia. cbn [rbind].
  cbn [ss_slabs set_ss_links set_ss_params]. rewrite (slab_at_some _ _ _ (proj1 H2) H7).
  cbn [rbind slab_of sl_slabclass_id sl_n_stored_items sl_slab_items].
  match goal with |- context [rfold _ _ ?s] => set (st1 := s) end.
  destruct (slab_items_drop _ st st1 r R L cls H Hcls eq_refl eq_refl eq_refl eq_refl) as (st2 & -> & HD). cbn [rbind].
  destruct HD as [(cls1 & q' & D1 & D2 & D3) D4 D5 D6 D7 D8 D9 D10 D11 [C1 C2 C3 C4 C5]].
  cbn [st1 ss_params set_ss_links set_ss_params sp_slabclasses set_sp_global_slab_q set_sp_n_allocated] in D1. rewrite Hcls in D1. injection D1 as <-.
  assert (Hcls2 : sp_slabclasses (ss_params st2) !! Z.to_nat (a_class (r_abs r)) = Some (set_sc_obj_q q' cls)).
  { rewrite D2. cbn. apply list_lookup_insert_eq. by eapply lookup_lt_Some. }
  erewrite upd_class_eq; [|lia|exact Hcls2]. cbn [rbind]. unfold _slab_destroyer. cbn [ss_slabs set_ss_params]. rewrite D4.
  cbn [st1 ss_slabs set_ss_params set_ss_links]. rewrite (slab_at_some _ _ _ (proj1 H2) H7). cbn [rbind]. eexists. split; [reflexivity|].
  rewrite fmap_cons in Hnodes. apply NoDup_cons in Hnodes as [Hn _].
  split; split; try done.
  - cbn. by rewrite D2.
  - cbn. by rewrite D2.
  - eapply classes_rel_insert; [lia|exact Hcls|cbn; rewrite D2; cbn; by rewrite list_insert_insert_eq|done].
  - intros r' Hr'. cbn. rewrite D6.
    + cbn. rewrite lookup_delete_ne; [done|]. intros E. apply Hn. rewrite E. by apply list_elem_of_fmap_2.
    + cbn. intros (e & E & He)%list_elem_of_fmap. destruct (item_link _ _ _ _ _ e H He) as (x & Hx & _ & Ex & _).
      destruct (proj1 (Forall_forall _ _) (or_links _ _ _ _ H) x Hx) as (_ & _ & Hnn). apply Hnn. rewrite <- Ex, <- E.
      rewrite fmap_cons. right. by apply list_elem_of_fmap_2.
  - intros id Hid. unfold node_idx. cbn. by rewrite D9.
  - intros id Hid. unfold node_idx. cbn. rewrite D10 by done. cbn.
    destruct (lookup_link _ _ _ _ id H) as [(x & Hx & Eid & -> & Hpos)|[_ ->]]; [|done]. rewrite D6; cbn.
    + rewrite lookup_delete_ne; [done|]. intros E. destruct (proj1 (Forall_forall _ _) (or_links _ _ _ _ H) x Hx) as (_ & _ & Hnn).
      apply Hnn. rewrite <- E, fmap_cons. by left.
    + rewrite (dead_link _ _ _ _ _ _ H Hx). by rewrite Eid.
  - exists (sc_obj_q cls), q'. unfold obj_queues. split_and!; [by rewrite list_lookup_fmap, Hcls| |exact D3].
    cbn. rewrite D2. cbn. by rewrite list_insert_insert_eq, list_fmap_insert.
  - cbn. by rewrite D2.
Qed.

Lemma obj_rel_slab_gone P (st st' : slab_state) r R L : obj_rel P st (r :: R) L -> dropped node_idx r R st st' ->
  links_dropped r st st' -> obj_rel P st' R (other_links (r_abs r) L).
Proof.
  intros H HD [L1 L2 (q & q' & L3 & L4 & L5) L6]. pose proof (or_rel _ _ _ _ H) as H0.
  assert (Hsub : forall x, x ∈ other_links (r_abs r) L -> x ∈ L /\ x.2.1 ∉ (a_items (r_abs r)).*1) by (intros x [? ?]%list_elem_of_filter; done).
  destruct (rows_apart _ _ _ (sr_objs _ _ _ _ _ _ _ _ _ H0) (sr_ids _ _ _ _ _ _ _ _ _ H0)) as [_ (_ & Hd & _)].
  pose proof (or_classed _ _ _ _ H) as [_ Hcl]%Forall_cons. split.
  - exact (rel_dropped _ _ _ _ _ _ _ st r R st' (proj2 Hmax) H0 HD).
  - rewrite other_links_entries, (or_perm _ _ _ _ H), fmap_cons, all_items_cons, filter_app.
    rewrite (proj2 (filter_none _ (a_items (r_abs r)))) by (apply Forall_forall; intros e He Hn; by apply Hn, list_elem_of_fmap_2).
    rewrite filter_all; [done|]. apply Forall_forall. intros e He Hin. apply (Hd e.1 Hin). by apply list_elem_of_fmap_2.
  - eapply sublist_NoDup; [apply (or_nodup _ _ _ _ H)|]. apply fmap_sublist, sublist_filter.
  - apply Forall_forall. intros x Hx. apply Hsub in Hx as [Hx Hni]. destruct (proj1 (Forall_forall _ _) (or_links _ _ _ _ H) x Hx) as (X1 & X2 & X3).
    rewrite fmap_cons in X3. apply not_elem_of_cons in X3 as [_ X3]. split_and!; [by rewrite L2|lia|by rewrite (dp_fresh _ _ _ _ _ HD); lia|done].
  - pose proof (ro_class _ _ _ _ (proj1 (proj1 (Forall_cons _ _ _) (sr_rows _ _ _ _ _ _ _ _ _ H0)))) as Hc.
    apply (queues_change st st' L _ _ q' (or_queues _ _ _ _ H) Hc L4).
    + destruct (other_links_queue _ _ _ _ _ (a_class (r_abs r)) H) as [-> _]. rewrite L5.
      destruct (or_queues _ _ _ _ H _ Hc) as (q1 & Hq1 & E). rewrite L3 in Hq1. injection Hq1 as <-. by rewrite E.
    + intros c' Hne. by apply (other_links_queue _ _ _ _ _ c' H).
  - intros id Hid. destruct (decide (id ∈ (a_items (r_abs r)).*1)) as [Hin|Hin]; [by apply L1|]. rewrite L2 by done.
    apply (or_absent _ _ _ _ H). rewrite fmap_cons, all_items_cons, fmap_app, not_elem_of_app. by split.
  - done.
  - rewrite L6. apply (or_strategy _ _ _ _ H).
Qed.

(** *** Eviction of an object *)

(** the last element takes the place of the [i]-th *)
Lemma swap_perm {A} (l : list A) y i x : (l ++ [y]) !! i = Some x -> l ++ [y] ≡ₚ x :: <[i := y]> l.
Proof.
  clear. intros [[Hi E]|[Hi E]]%lookup_snoc_Some.
  - rewrite (insert_take_drop l i y Hi). rewrite <- (take_drop_middle l i x E) at 1. rewrite <- Permutation_cons_append.
    by rewrite <- !Permutation_middle, Permutation_swap.
  - subst y. rewrite list_insert_ge by lia. by rewrite <- Permutation_cons_append.
Qed.

Lemma arr_upd_at {A} (f : A -> A) l (i : nat) x : l !! i = Some x -> arr_upd f l (Z.of_nat i) = Ok (<[i := f x]> l).
Proof. clear. intros E. unfold arr_upd, arr_get. destruct (Z.ltb_spec (Z.of_nat i) 0); [lia|]. by rewrite Nat2Z.id, E. Qed.

(** the items in memory then *)
Lemma slab_array_swap c li el i : Z.of_nat (length (li ++ [el])) <= slots ssize c -> (i <= length li)%nat ->
  let l := slab_array ssize (mk_aslab c (li ++ [el])) in
  (forall j (x : entry), (li ++ [el]) !! j = Some x -> arr_get l (Z.of_nat j) = Ok x.1) /\
  (let! items := (if decide (i = length li) then Ok l else arr_upd (fun _ => el.1) l (Z.of_nat i)) in
   arr_upd (fun _ => 0) items (Z.of_nat (length li))) = Ok (slab_array ssize (mk_aslab c (<[i := el]> li))).
Proof.
  clear. intros Hroom Hi l. set (k := (Z.to_nat (slots ssize c) - length (li ++ [el]))%nat).
  assert (El : l = li.*1 ++ el.1 :: repeat 0 k).
  { unfold l, slab_array. cbn [a_items a_class]. fold k. rewrite fmap_app, <- app_assoc. done. }
  assert (Er : slab_array ssize (mk_aslab c (<[i := el]> li)) = <[i := el.1]> li.*1 ++ 0 :: repeat 0 k).
  { unfold slab_array. cbn [a_items a_class]. rewrite list_fmap_insert, length_insert. f_equal. rewrite length_app in Hroom. cbn in Hroom.
    replace (Z.to_nat (slots ssize c) - length li)%nat with (S k) by (unfold k; rewrite length_app; cbn; lia). done. }
  split.
  - intros j x Hx. unfold arr_get. destruct (Z.ltb_spec (Z.of_nat j) 0); [lia|]. rewrite Nat2Z.id. unfold l, slab_array. cbn [a_items].
    rewrite lookup_app_l by (rewrite length_fmap; by eapply lookup_lt_Some). by rewrite list_lookup_fmap, Hx.
  - rewrite Er, El. assert (Hl : forall l1 : list Z, length l1 = length li ->
      arr_upd (fun _ => 0) (l1 ++ el.1 :: repeat 0 k) (Z.of_nat (length li)) = Ok (l1 ++ 0 :: repeat 0 k)).
    { intros l1 <-. rewrite (arr_upd_at _ _ _ el.1) by (by apply list_lookup_middle). by rewrite insert_app_r_alt, Nat.sub_diag by done. }
    case_decide as Ei.
    + cbn [rbind]. rewrite list_insert_ge by (rewrite length_fmap; lia). apply Hl, length_fmap.
    + destruct (lookup_lt_is_Some_2 (li.*1) i) as [x Hx]; [rewrite length_fmap; lia|].
      rewrite (arr_upd_at _ _ _ x) by (by apply lookup_app_l_Some). cbn [rbind]. rewrite insert_app_l by (rewrite length_fmap; lia).
      apply Hl. by rewrite length_insert, length_fmap.
Qed.

(** what [evict_from_slab] does to the slab [r], whose last object is [ol] with entry [el] *)
Record item_gone (c : Z) (cls : slabclass_t Q D) (o ol : Z) (e el : entry) (i : nat) (r r' : row) (st st' : slab_state) : Prop := {
  ig_params : ss_params st' = set_sp_slabclasses (<[Z.to_nat c := set_sc_n_stored (u32 (sc_n_stored_items cls - 1))
    (set_sc_free_slab_q (gd_push_tail (sc_free_slab_q cls) (r_slab r)) cls)]> (sp_slabclasses (ss_params st))) (ss_params st);
  ig_slabs : ss_slabs st' = <[r_slab r := slab_of ssize (r_node r) (r_abs r')]> (ss_slabs st);
  ig_table : ss_hashtable st' = g_hash_table_remove (ss_hashtable st) e.1;
  ig_links : ss_links st' = ss_links st;
  ig_fresh : ss_fresh st' = ss_fresh st;
  ig_blocks : ss_blocks st' = ss_blocks st;
  ig_cache : ss_cache st' = ss_cache (add_occupied (- e.2) st);
  ig_gone : ss_objs st' !! o = None;
  ig_objs : forall o', o' <> o -> o' <> ol -> ss_objs st' !! o' = ss_objs st !! o';
  ig_last : ol <> o -> exists t, ss_objs st' !! ol = Some (mk_slab_obj el.1 el.2 t (r_slab r) (Z.of_nat i))
}.

(** the last object is moved to the place of the one that leaves *)
Lemma move_last_spec (st : slab_state) c li el ol i o slab tl : let l := slab_array ssize (mk_aslab c (li ++ [el])) in
  Z.of_nat (length (li ++ [el])) <= slots ssize c -> (i <= length li)%nat -> (ol = o <-> i = length li) -> 0 < ol ->
  is_Some (ss_objs st !! o) -> ss_objs st !! ol = Some (mk_slab_obj el.1 el.2 tl slab (Z.of_nat (length li))) ->
  (ol <> o -> slab_at (ss_links st) (g_hash_table_lookup (ss_hashtable st) el.1) = Ok ol) ->
  exists m items, (if negb (Z.of_nat i =? Z.of_nat (length li)) then
       let! last := arr_get l (Z.of_nat (length li)) in
       let! last_obj := slab_at (ss_links st) (g_hash_table_lookup (ss_hashtable st) last) in
       if last_obj =? 0 then Err Aborted
       else
         let! st := upd_obj (fun l => mk_slab_obj (so_obj_id_int l) (so_obj_size l) (so_access_time l) (so_slab l) (Z.of_nat i)) st last_obj in
         let! items := arr_upd (fun _ => last) l (Z.of_nat i) in
         Ok (st, items)
     else Ok (st, l)) = Ok (set_ss_objs m st, items) /\
     arr_upd (fun _ => 0) items (Z.of_nat (length li)) = Ok (slab_array ssize (mk_aslab c (<[i := el]> li))) /\
     is_Some (m !! o) /\ (forall o', o' <> ol -> m !! o' = ss_objs st !! o') /\
     exists t, m !! ol = Some (mk_slab_obj el.1 el.2 t slab (Z.of_nat i)).
Proof.
  clear -Hssize GDL GQL. intros l Hroom Hi Hol Hpl Hobj Hobjl Hlast. destruct (slab_array_swap c li el i Hroom Hi) as [Hget Hitems]. fold l in Hget, Hitems.
  destruct (decide (i = length li)) as [Ei|Ei].
  - exists (ss_objs st), l. rewrite (proj2 (Z.eqb_eq _ _)) by lia. split_and!; [by destruct st|exact Hitems|done|done|].
    exists tl. rewrite Ei. exact Hobjl.
  - rewrite (proj2 (Z.eqb_neq _ _)) by lia. cbn [negb]. rewrite (Hget (length li) el) by (by apply list_lookup_middle). cbn [rbind].
    rewrite Hlast by (rewrite Hol; done). cbn [rbind]. rewrite (proj2 (Z.eqb_neq ol 0)) by lia. unfold upd_obj.
    rewrite (slab_at_some _ _ _ Hpl Hobjl). cbn [rbind].
    destruct (arr_upd (fun _ => el.1) l (Z.of_nat i)) as [items|]; [|done]. cbn [rbind] in *. eexists _, items. split; [reflexivity|].
    split; [done|]. split_and!.
    + by rewrite lookup_insert_ne by (rewrite Hol; done).
    + intros o' Hne. by rewrite lookup_insert_ne by congruence.
    + exists tl. by rewrite lookup_insert_eq.
Qed.

Lemma evict_from_slab_spec (st : slab_state) c cls li el lo ol i o e node slab t tl :
  let r := mk_row node slab (lo ++ [ol]) (mk_aslab c (li ++ [el])) in
  let r' := mk_row node slab (<[i := ol]> lo) (mk_aslab c (<[i := el]> li)) in
  0 <= c -> sp_slabclasses (ss_params st) !! Z.to_nat c = Some cls -> length lo = length li ->
  Z.of_nat (length (li ++ [el])) <= slots ssize c < 2 ^ 31 ->
  (lo ++ [ol]) !! i = Some o -> (li ++ [el]) !! i = Some e -> NoDup (lo ++ [ol]) ->
  0 < slab -> ss_slabs st !! slab = Some (slab_of ssize node (r_abs r)) -> 0 < o -> 0 < ol ->
  ss_objs st !! o = Some (mk_slab_obj e.1 e.2 t slab (Z.of_nat i)) ->
  ss_objs st !! ol = Some (mk_slab_obj el.1 el.2 tl slab (Z.of_nat (length li))) ->
  (ol <> o -> slab_at (ss_links st) (g_hash_table_lookup (ss_hashtable st) el.1) = Ok ol) ->
  exists st', evict_from_slab st c o = Ok st' /\ item_gone c cls o ol e el i r r' st st'.
Proof.
  clear Hmax. intros r r' Hc Hcls Hlen Hroom Ho He Hnd Hslab Hs Hp Hpl Hobj Hobjl Hlast.
  assert (Hi : (i <= length li)%nat) by (apply lookup_lt_Some in He; rewrite length_app in He; cbn in He; lia).
  destruct (slab_array_swap c li el i (proj1 Hroom) Hi) as [Hget Hitems]. set (l := slab_array ssize (mk_aslab c (li ++ [el]))) in *.
  assert (Hn : Z.of_nat (length (li ++ [el])) = Z.of_nat (length li) + 1) by (rewrite length_app; cbn; lia).
  assert (Hol : ol = o <-> i = length li).
  { split; [intros ->|intros ->].
    - apply (NoDup_lookup _ _ _ o Hnd Ho). rewrite <- Hlen. by apply list_lookup_middle.
    - rewrite <- Hlen, list_lookup_middle in Ho by done. congruence. }
  unfold evict_from_slab. rewrite (slab_at_some _ _ _ Hp Hobj). cbn [rbind so_slab so_item_pos_in_slab so_obj_size so_obj_id_int ss_slabs add_occupied set_ss_cache].
  rewrite (slab_at_some _ _ _ Hslab Hs). cbn [rbind slab_of sl_slab_items sl_n_stored_items r_abs a_items r]. fold l.
  rewrite (Hget i e He). cbn [rbind]. rewrite Z.eqb_refl. cbn [negb]. rewrite Hn, (u32_small (Z.of_nat i)), (u32_small (_ - 1)) by lia.
  replace (Z.of_nat (length li) + 1 - 1) with (Z.of_nat (length li)) by lia.
  set (st1 := add_occupied (- e.2) st).
  destruct (move_last_spec st1 c li el ol i o slab tl (proj1 Hroom) Hi Hol Hpl ltac:(by eexists) Hobjl Hlast) as (m & items & Em & Ei & Hmo & Hmoth & tm & Hml).
  fold l in Em. rewrite Em. cbn [rbind]. rewrite Ei. cbn [rbind]. unfold upd_slab. cbn [ss_slabs set_ss_objs st1 add_occupied set_ss_cache].
  rewrite (slab_at_some _ _ _ Hslab Hs). cbn [rbind]. erewrite upd_class_eq; [|exact Hc|exact Hcls]. cbn [rbind].
  unfold free_slab_cache_obj. cbn [ss_objs set_ss_hashtable set_ss_params set_ss_slabs set_ss_objs]. destruct Hmo as [x Hmo].
  rewrite (slab_at_some _ _ _ Hp Hmo). cbn [rbind]. eexists. split; [reflexivity|].
  split; try done; cbn [ss_slabs ss_objs set_ss_objs set_ss_hashtable set_ss_params set_ss_slabs ss_params sp_slabclasses].
  - f_equal. unfold slab_of. cbn [sl_slabclass_id sl_n_total_items sl_n_stored_items sl_q_node sl_slab_items r_abs a_class a_items r r' r_slab r_node].
    rewrite Hn, length_insert, u32_small by lia. f_equal. lia.
  - by rewrite lookup_delete_eq.
  - intros o' Hne Hne'. rewrite lookup_delete_ne by done. by rewrite Hmoth.
  - intros Hne. exists tm. by rewrite lookup_delete_ne by done.
Qed.

(** the slab after an eviction *)
Lemma row_swap_ok (st0 st st' : slab_state) c cls li el lo ol i o e node slab :
  let r := mk_row node slab (lo ++ [ol]) (mk_aslab c (li ++ [el])) in
  let r' := mk_row node slab (<[i := ol]> lo) (mk_aslab c (<[i := el]> li)) in
  row_ok node_idx ssize st0 r -> (lo ++ [ol]) !! i = Some o -> (li ++ [el]) !! i = Some e -> NoDup (lo ++ [ol]) ->
  NoDup (li ++ [el]).*1 -> item_gone c cls o ol e el i r r' st st' -> ss_objs st = ss_objs st0 -> ss_fresh st = ss_fresh st0 ->
  ss_links st !! node = ss_links st0 !! node -> (forall id, id <> e.1 -> node_idx st' id = node_idx st0 id) ->
  row_ok node_idx ssize st' r'.
Proof.
  clear Hmax Hssize. intros r r' [H1 H2 H3 H4 H5 H6 H7 H8] Ho He Hnd Hids [I1 I2 I3 I4 I5 I5b I6 I7 I8 I9] Eo Ef El Hidx. cbn [r r_node r_slab r_objs r_abs a_items a_class] in *.
  rewrite !length_app in H4. rewrite length_app in H5. cbn [length] in H4, H5.
  split; cbn [r' r_node r_slab r_objs r_abs a_items a_class]; rewrite ?length_insert; try done; try lia.
  - by rewrite I4, El.
  - by rewrite I2, lookup_insert_eq.
  - assert (Hne : forall j x (y : entry), (lo ++ [ol]) !! j = Some x -> (li ++ [el]) !! j = Some y -> j <> i -> x <> o /\ y.1 <> e.1).
    { intros j x y Hx Hy Hj. split; [intros ->; apply Hj; by apply (NoDup_lookup _ _ _ o Hnd)|]. intros E. apply Hj.
      apply (NoDup_lookup _ _ _ e.1 Hids); rewrite list_lookup_fmap; [by rewrite Hy, <- E|by rewrite He]. }
    intros j x y Hx Hy. destruct (decide (j = i)) as [->|Hj].
    + assert (Hi : (i < length lo)%nat) by (apply lookup_lt_Some in Hx; by rewrite length_insert in Hx).
      rewrite list_lookup_insert_eq in Hx by lia. rewrite list_lookup_insert_eq in Hy by lia. injection Hx as <-. injection Hy as <-.
      assert (Hol : (lo ++ [ol]) !! length lo = Some ol) by (by apply list_lookup_middle).
      assert (Hel : (li ++ [el]) !! length lo = Some el) by (apply list_lookup_middle; lia).
      destruct (Hne _ _ _ Hol Hel ltac:(lia)) as [N1 N2]. destruct (H8 _ _ _ Hol Hel) as (Hp & Hl & _).
      split; [lia|]. split; [by rewrite Hidx|]. by apply I9.
    + rewrite list_lookup_insert_ne in Hx by congruence. rewrite list_lookup_insert_ne in Hy by congruence. pose proof (lookup_lt_Some _ _ _ Hx) as Hlt.
      assert (Hx' : (lo ++ [ol]) !! j = Some x) by (by apply lookup_app_l_Some).
      assert (Hy' : (li ++ [el]) !! j = Some y) by (by apply lookup_app_l_Some).
      destruct (Hne _ _ _ Hx' Hy' Hj) as [N1 N2]. destruct (H8 _ _ _ Hx' Hy') as (Hp & Hl & t & Ht). split; [lia|]. split; [by rewrite Hidx|].
      exists t. rewrite I8, Eo; [done|done|]. intros ->. assert (j = length lo); [|lia].
      apply (NoDup_lookup _ _ _ ol Hnd Hx'). by apply list_lookup_middle.
Qed.

(** the head of a class's queue is the link of its least recent entry *)
Lemma class_head c L : match class_links c L with
  | [] => of_class c L.*2 = []
  | n :: l => exists L1 x L2, L = L1 ++ x :: L2 /\ x.1 = n /\ slabclass_of x.2.2 = c /\ class_links c L1 = [] /\ class_links c L2 = l /\
      exists l', of_class c L.*2 = x.2 :: l'
  end.
Proof.
  clear. induction L as [|y L IH]; [done|]. rewrite class_links_cons. unfold of_class in *. rewrite fmap_cons, filter_cons.
  destruct (decide (slabclass_of y.2.2 = c)) as [E|E]; cbn [app].
  - exists [], y, L. split_and!; try done. by eexists.
  - destruct (class_links c L) as [|n l]; [done|]. destruct IH as (L1 & x & L2 & -> & E1 & E2 & E3 & E4 & E5).
    exists (y :: L1), x, L2. rewrite class_links_cons, decide_False by done. split_and!; done.
Qed.

(** what the eviction of the link [x] leaves, its object [o] in the slab [r] *)
Record evicted (x : Z * entry) (l : list Z) (R1 : list row) (r r' : row) (R2 : list row) (o : Z) (st st' : slab_state) : Prop := {
  ev_less : row_less o x.2 r r';
  ev_row : row_ok node_idx ssize st' r';
  ev_class : a_class (r_abs r) = slabclass_of x.2.2;
  ev_left : left_slab node_idx ssize o x.2 r r' (R1 ++ R2) st st';
  ev_table : ss_hashtable st' = g_hash_table_remove (ss_hashtable st) x.2.1;
  ev_queue : exists q, obj_queues st' = <[Z.to_nat (slabclass_of x.2.2) := q]> (obj_queues st) /\ queue_links q = l;
  ev_strategy : sp_slab_move_strategy (ss_params st') = sp_slab_move_strategy (ss_params st)
}.

(** the states between the two *)
Lemma obj_evict_start (st : slab_state) R L (req : request) P n l : let c := slabclass_of (req_obj_size req) in
  obj_rel P st R L -> storable ssize (req_obj_size req) -> class_links c L = n :: l ->
  exists cls ne q, sp_slabclasses (ss_params st) !! Z.to_nat c = Some cls /\ queue_links q = l /\
    slabObjLRU_evict st req = let! obj_to_evict := slab_at (ss_links st) n in
      evict_from_slab (set_ss_links (delete n (ss_links st)) (set_ss_params (set_sp_slabclasses
        (<[Z.to_nat c := set_sc_obj_q q (set_sc_n_evictions ne cls)]> (sp_slabclasses (ss_params st))) (ss_params st)) st)) c obj_to_evict.
Proof.
  intros c H Hst Hn. destruct (storable_class _ _ Hst) as [Hf Hc]. fold c in Hf, Hc.
  destruct (or_queues _ _ _ _ H c Hc) as (q & Hq & Hql). unfold obj_queues in Hq. apply list_lookup_fmap_Some_1 in Hq as (cls & -> & Hcls).
  rewrite Hn in Hql. destruct (g_pop_links _ _ _ Hql) as [Ep Eq]. exists cls, (i32 (sc_n_evictions cls + 1)), (g_queue_pop_head (sc_obj_q cls)).2.
  split; [done|]. split; [done|]. pose proof (lookup_lt_Some _ _ _ Hcls) as Hlt.
  unfold slabObjLRU_evict. rewrite Hf. cbn [rbind]. erewrite upd_class_eq; [|exact (proj1 Hc)|exact Hcls]. cbn [rbind].
  unfold arr_get. destruct (Z.ltb_spec c 0); [lia|]. cbn [ss_params set_ss_params sp_slabclasses set_sp_slabclasses].
  rewrite list_lookup_insert_eq by done. cbn [rbind sc_obj_q set_sc_n_evictions]. rewrite Hql.
  destruct (g_queue_pop_head (sc_obj_q cls)) as [node q]. cbn [fst snd] in *. subst node.
  erewrite upd_class_eq; [|exact (proj1 Hc)|cbn; by apply list_lookup_insert_eq]. cbn [rbind ss_links set_ss_params].
  cbn [ss_params set_ss_params sp_slabclasses set_sp_slabclasses]. rewrite list_insert_insert_eq. done.
Qed.

Lemma row_nodup P (st : slab_state) R1 r R2 : rel P st (R1 ++ r :: R2) -> NoDup (r_objs r) /\ NoDup (a_items (r_abs r)).*1.
Proof.
  intros H. pose proof (sr_objs _ _ _ _ _ _ _ _ _ H) as Hnd. pose proof (sr_ids _ _ _ _ _ _ _ _ _ H) as Hids. split.
  - apply NoDup_app in Hnd as (_ & _ & Hnd). rewrite bind_app, bind_cons in Hnd. apply NoDup_app in Hnd as (_ & _ & Hnd). by apply NoDup_app in Hnd as [Hnd _].
  - rewrite fmap_app, fmap_cons, all_items_app, all_items_cons, !fmap_app in Hids. apply NoDup_app in Hids as (_ & _ & Hids).
    by apply NoDup_app in Hids as [Hids _].
Qed.

(** the last object of a slab, and its link unless it is [o] *)
Lemma last_link P (st : slab_state) R1 r R2 L lo li ol el : obj_rel P st (R1 ++ r :: R2) L -> r_objs r = lo ++ [ol] ->
  a_items (r_abs r) = li ++ [el] -> length lo = length li /\ 0 < ol /\ node_idx st el.1 = ol /\
  (exists t, ss_objs st !! ol = Some (mk_slab_obj el.1 el.2 t (r_slab r) (Z.of_nat (length li)))) /\
  exists y, y ∈ L /\ y.2 = el /\ g_hash_table_lookup (ss_hashtable st) el.1 = y.1 /\ 0 < y.1 /\ ss_links st !! y.1 = Some ol.
Proof.
  intros H Eo Ei. pose proof (or_rel _ _ _ _ H) as H0.
  pose proof (proj1 (Forall_forall _ _) (sr_rows _ _ _ _ _ _ _ _ _ H0) r ltac:(apply elem_of_app; right; by left)) as Hok.
  pose proof (ro_len _ _ _ _ Hok) as Hlen. rewrite Eo, Ei, !length_app in Hlen. cbn [length] in Hlen. assert (Hl : length lo = length li) by lia.
  assert (Ho : r_objs r !! length li = Some ol) by (rewrite Eo, <- Hl; by apply list_lookup_middle).
  assert (He : a_items (r_abs r) !! length li = Some el) by (rewrite Ei; by apply list_lookup_middle).
  destruct (ro_items _ _ _ _ Hok _ _ _ Ho He) as ([Hp _] & Hi & Ht). split_and!; try done.
  assert (Hin : el ∈ L.*2).
  { rewrite (or_perm _ _ _ _ H). apply list_elem_of_bind. exists (r_abs r). split; [by eapply list_elem_of_lookup_2|].
    apply list_elem_of_fmap_2, elem_of_app. right. by left. }
  apply list_elem_of_fmap in Hin as (y & -> & Hy). exists y. destruct (proj1 (Forall_forall _ _) (or_links _ _ _ _ H) y Hy) as (Hly & [Hpy _] & _).
  split_and!; try done. unfold node_idx in Hi. rewrite Hly, (proj2 (Z.eqb_neq y.1 0)) in Hi by lia.
  destruct (ss_links st !! y.1) as [o'|]; cbn in Hi; [by subst|lia].
Qed.

(** the state [st1] in which evict_from_slab starts, and what it ends in *)
Lemma item_gone_evicted P (st st' : slab_state) R1 R2 L1 x L2 cls ne q i o node slab lo ol li el :
  let c := slabclass_of x.2.2 in
  let r := mk_row node slab (lo ++ [ol]) (mk_aslab c (li ++ [el])) in
  let r' := mk_row node slab (<[i := ol]> lo) (mk_aslab c (<[i := el]> li)) in
  let st1 := set_ss_links (delete x.1 (ss_links st)) (set_ss_params (set_sp_slabclasses
    (<[Z.to_nat c := set_sc_obj_q q (set_sc_n_evictions ne cls)]> (sp_slabclasses (ss_params st))) (ss_params st)) st) in
  obj_rel P st (R1 ++ r :: R2) (L1 ++ x :: L2) -> sp_slabclasses (ss_params st) !! Z.to_nat c = Some cls ->
  (lo ++ [ol]) !! i = Some o -> (li ++ [el]) !! i = Some x.2 ->
  item_gone c (set_sc_obj_q q (set_sc_n_evictions ne cls)) o ol x.2 el i r r' st1 st' ->
  evicted x (queue_links q) R1 r r' R2 o st st'.
Proof.
  intros c r r' st1 H Hcls Ho Hi HG. pose proof (or_rel _ _ _ _ H) as H0. pose proof (row_nodup _ _ _ _ _ H0) as [Hndo Hndi].
  pose proof (proj1 (Forall_forall _ _) (sr_rows _ _ _ _ _ _ _ _ _ H0)) as Hrows.
  assert (Hr : r ∈ R1 ++ r :: R2) by (apply elem_of_app; right; by left). pose proof (Hrows r Hr) as Hok.
  assert (Hx : x ∈ L1 ++ x :: L2) by (apply elem_of_app; right; by left).
  pose proof (proj1 (Forall_forall _ _) (or_links _ _ _ _ H)) as Hlks. destruct (Hlks x Hx) as (Hl & Hpos & Hnn).
  pose proof HG as [I1 I2 I3 I4 I5 I5b I6 I7 I8 I9].
  assert (Hlinks : forall r', r' ∈ R1 ++ r :: R2 -> ss_links st' !! r_node r' = ss_links st !! r_node r').
  { intros r2 Hr2. rewrite I4. cbn. rewrite lookup_delete_ne; [done|]. intros E. apply Hnn. rewrite E. by apply list_elem_of_fmap_2. }
  assert (Hidx : forall id, id <> x.2.1 -> node_idx st' id = node_idx st id).
  { intros id Hne. unfold node_idx. rewrite I3. cbn. rewrite g_lookup_remove_ne by congruence.
    destruct (lookup_link _ _ _ _ id H) as [(y & Hy & <- & -> & Hpy)|[_ ->]]; [|done]. rewrite I4. cbn. rewrite lookup_delete_ne; [done|].
    intros E. apply Hne. by rewrite (fmap_nodup_inj fst _ x y (or_nodup _ _ _ _ H) Hx Hy E). }
  assert (Hpar : sp_slabclasses (ss_params st') = <[Z.to_nat c := set_sc_n_stored (u32 (sc_n_stored_items cls - 1))
    (set_sc_free_slab_q (gd_push_tail (sc_free_slab_q cls) slab) (set_sc_obj_q q (set_sc_n_evictions ne cls)))]> (sp_slabclasses (ss_params st))).
  { rewrite I1. cbn. by rewrite list_insert_insert_eq. }
  split; try done.
  - split; try done; cbn [r r' r_objs r_abs a_items]; by apply swap_perm.
  - apply (row_swap_ok st st1 st' c _ li el lo ol i o x.2 node slab Hok Ho Hi Hndo Hndi HG); try done.
    cbn. rewrite lookup_delete_ne; [done|]. intros E. apply Hnn. rewrite E. by apply (list_elem_of_fmap_2 r_node _ r).
  - split; try done.
    + by rewrite I1.
    + by rewrite I1.
    + eapply (classes_rel_insert c); [apply (ro_class _ _ _ _ Hok)|exact Hcls|exact Hpar|]. split; [done|]. cbn. by rewrite gd_push_data.
    + intros o' Ho'. cbn [r_objs r] in Ho'. rewrite I8; [done|..]; intros ->; apply Ho'; [by eapply list_elem_of_lookup_2|].
      apply elem_of_app. right. by left.
    + intros r2 Hr2. apply Hlinks. rewrite elem_of_cons, elem_of_app in Hr2. rewrite elem_of_app, elem_of_cons. tauto.
    + unfold node_idx. rewrite I3, g_lookup_remove. done.
    + intros y Hy. unfold occupied in *. rewrite I6. cbn. rewrite Hy. replace (u64 y + - x.2.2) with (u64 y - x.2.2) by lia. apply u64_sub.
    + split; rewrite ?I6, ?I1, ?I5b; done.
  - exists q. split; [|done]. unfold obj_queues. by rewrite Hpar, list_fmap_insert.
  - by rewrite I1.
Qed.

Lemma obj_evict_one_spec P (st : slab_state) R L L1 x L2 (req : request) : obj_rel P st R L -> L = L1 ++ x :: L2 ->
  storable ssize (req_obj_size req) -> slabclass_of x.2.2 = slabclass_of (req_obj_size req) -> class_links (slabclass_of x.2.2) L1 = [] ->
  exists R1 r r' R2 o st', R = R1 ++ r :: R2 /\ slabObjLRU_evict st req = Ok st' /\
    evicted x (class_links (slabclass_of x.2.2) L2) R1 r r' R2 o st st'.
Proof.
  intros H -> Hst Hxc HL1. assert (Hx : x ∈ L1 ++ x :: L2) by (apply elem_of_app; right; by left).
  destruct (obj_evict_start st R (L1 ++ x :: L2) req P x.1 (class_links (slabclass_of x.2.2) L2) H Hst) as (cls & ne & q & Hcls & Hq & ->).
  { by rewrite class_links_app, class_links_cons, <- Hxc, HL1, decide_True. }
  rewrite <- Hxc in *. set (c := slabclass_of x.2.2) in *.
  destruct (link_row _ _ _ _ _ H Hx) as ((Hl & Hpos & Hnn) & R1 & r & R2 & i & o & t & -> & Hok & Ho & Hi & Hh & Hcl & Hlk & Hp & Hobj).
  rewrite (slab_at_some _ _ _ (proj1 Hpos) Hlk). cbn [rbind]. fold c in Hcl.
  pose proof (row_nodup _ _ _ _ _ (or_rel _ _ _ _ H)) as [Hndo Hndi].
  destruct r as [node slab objs [c' items]]. cbn [r_node r_slab r_objs r_abs a_class a_items] in *. subst c'.
  destruct items as [|el li _] using rev_ind; [done|]. destruct objs as [|ol lo _] using rev_ind; [done|].
  set (r := mk_row node slab (lo ++ [ol]) (mk_aslab c (li ++ [el]))) in *.
  destruct (last_link _ _ R1 r R2 _ lo li ol el H eq_refl eq_refl) as (Hlen & Hpl & Hil & (tl & Htl) & y & Hy & Ey & Hly & Hpy & Hlky).
  pose proof (slots_bounds ssize c (ro_class _ _ _ _ Hok) Hssize) as Hb. pose proof (ro_room _ _ _ _ Hok) as Hroom.
  match goal with |- context [evict_from_slab ?s _ _] => set (st1 := s) end.
  destruct (evict_from_slab_spec st1 c (set_sc_obj_q q (set_sc_n_evictions ne cls)) li el lo ol i o x.2 node slab t tl) as (st' & E & HG); try done.
  { apply (proj1 (ro_class _ _ _ _ Hok)). }
  { cbn. apply list_lookup_insert_eq. by eapply lookup_lt_Some. }
  { split; [exact Hroom|lia]. }
  { apply (proj1 (ro_slab _ _ _ _ Hok)). }
  { apply (ro_slab_t _ _ _ _ Hok). }
  { intros Hne. cbn. rewrite Hly. apply slab_at_some; [done|]. rewrite lookup_delete_ne; [done|].
    intros E. rewrite <- E, Hlk in Hlky. congruence. }
  fold c in E. rewrite E. set (r' := mk_row node slab (<[i := ol]> lo) (mk_aslab c (<[i := el]> li))) in *.
  exists R1, r, r', R2, o, st'. split; [done|]. split; [done|]. rewrite <- Hq.
  by apply (item_gone_evicted _ _ _ _ _ L1 x L2 cls ne q i o node slab lo ol li el H).
Qed.

Lemma obj_rel_evicted P (st st' : slab_state) R1 r r' R2 L1 x L2 o : let c := slabclass_of x.2.2 in
  obj_rel P st (R1 ++ r :: R2) (L1 ++ x :: L2) -> filter (fun r => opened ssize c (r_abs r)) (R1 ++ r :: R2) = [] ->
  class_links c L1 = [] -> evicted x (class_links c L2) R1 r r' R2 o st st' -> obj_rel P st' (R1 ++ r' :: R2) (L1 ++ L2).
Proof.
  intros c H Hfull HL1 [V1 V2 V3 V4 V5 (q & V6 & V6') V7]. fold c in V3, V6. pose proof (or_rel _ _ _ _ H) as H0.
  destruct (row_less_lists _ _ R1 R2 _ _ V1) as (En & _ & _ & Ei).
  assert (HL : L1 ++ x :: L2 ≡ₚ x :: (L1 ++ L2)) by (symmetry; apply Permutation_middle).
  assert (HA : (L1 ++ L2).*2 ≡ₚ all_items (r_abs <$> R1 ++ r' :: R2)).
  { apply (Permutation_cons_inv (a := x.2)). rewrite <- Ei, <- (or_perm _ _ _ _ H), HL. done. }
  pose proof (or_nodup _ _ _ _ H) as Hnd. rewrite HL, fmap_cons in Hnd. apply NoDup_cons in Hnd as [_ Hnd].
  pose proof (or_ids _ _ _ _ H) as Hids. rewrite HL, !fmap_cons in Hids. apply NoDup_cons in Hids as [Hni _].
  assert (Hne : forall y, y ∈ L1 ++ L2 -> y.2.1 <> x.2.1).
  { intros y Hy E. apply Hni. rewrite <- E. by do 2 apply list_elem_of_fmap_2. }
  assert (Hc : 0 <= c < N_SLABCLASS).
  { rewrite <- V3. apply (ro_class _ _ _ _ (proj1 (Forall_forall _ _) (sr_rows _ _ _ _ _ _ _ _ _ H0) r ltac:(apply elem_of_app; right; by left))). }
  split; try done.
  - apply (rel_left _ _ _ _ _ _ P st R1 r r' R2 o x.2 st' H0 V1 V2); [by rewrite V3|done].
  - apply Forall_forall. intros y Hy. destruct (proj1 (Forall_forall _ _) (or_links _ _ _ _ H) y) as (Y1 & Y2 & Y3).
    { rewrite HL. by right. }
    split_and!; [|lia|rewrite (lv_fresh _ _ _ _ _ _ _ _ _ V4); lia|by rewrite En].
    rewrite V5, g_lookup_remove_ne; [done|]. intros E. by apply (Hne y Hy).
  - apply (queues_change st st' (L1 ++ x :: L2) _ c q (or_queues _ _ _ _ H) Hc V6).
    + by rewrite V6', class_links_app, HL1.
    + intros c' Hc'. rewrite !class_links_app, class_links_cons, decide_False by (intros E; by apply Hc'). done.
  - intros id Hid. rewrite V5. destruct (decide (id = x.2.1)) as [->|Hd]; [apply g_lookup_remove|].
    rewrite g_lookup_remove_ne by congruence. apply (or_absent _ _ _ _ H). rewrite Ei. cbn. by rewrite not_elem_of_cons.
  - pose proof (or_classed _ _ _ _ H) as HC. rewrite !fmap_app, !fmap_cons in *. apply Forall_app in HC as [HC1 [HCr HC2]%Forall_cons].
    apply Forall_app. split; [done|]. constructor; [|done]. unfold classed in *. rewrite (rl_items _ _ _ _ V1) in HCr.
    rewrite (rl_class _ _ _ _ V1). by apply Forall_cons in HCr as [_ HCr].
  - rewrite V7. apply (or_strategy _ _ _ _ H).
Qed.

(** the slabs then, up to the order of the entries *)
Lemma drop_entry_rows (R1 R2 : list row) r r' o (e : entry) : NoDup (all_items (r_abs <$> R1 ++ r :: R2)).*1 -> row_less o e r r' ->
  r_abs <$> R1 ++ r' :: R2 ≡ drop_entry e.1 <$> (r_abs <$> R1 ++ r :: R2).
Proof.
  clear. intros Hnd [E1 E2 E3 E4 E5].
  assert (Hw : forall l : list entry, e.1 ∉ l.*1 -> without e.1 l = l).
  { intros l Hl. apply filter_all, Forall_forall. intros y Hy E. apply Hl. rewrite <- E. by apply list_elem_of_fmap_2. }
  assert (Hin : e.1 ∈ (a_items (r_abs r)).*1) by (rewrite E5; by left).
  rewrite !fmap_app, !fmap_cons, all_items_app, all_items_cons, !fmap_app in *.
  apply NoDup_app in Hnd as (_ & Hd1 & Hnd). apply NoDup_app in Hnd as (Hr & Hd2 & _).
  assert (Hs : forall R : list row, (forall s, s ∈ r_abs <$> R -> e.1 ∉ (a_items s).*1) -> drop_entry e.1 <$> (r_abs <$> R) = r_abs <$> R).
  { intros R HR. rewrite <- (list_fmap_id (r_abs <$> R)) at 2. apply list_fmap_ext. intros i s Hs. unfold drop_entry.
    rewrite Hw; [by destruct s|]. apply HR. by eapply list_elem_of_lookup_2. }
  rewrite !Hs.
  - f_equiv. constructor; [|done]. split; [done|]. cbn [drop_entry a_items]. unfold without. rewrite E5, filter_cons, decide_False by tauto.
    fold (without e.1 (a_items (r_abs r'))). rewrite Hw; [done|]. rewrite E5 in Hr. by apply NoDup_cons in Hr as [Hr _].
  - intros s Hs' Hin'. exact (Hd2 _ Hin (in_all_items _ _ _ Hs' Hin')).
  - intros s Hs' Hin'. apply (Hd1 _ (in_all_items _ _ _ Hs' Hin')). apply elem_of_app. by left.
Qed.

(** an eviction is counted, the queue of the class is empty *)
Lemma obj_evict_empty P (st : slab_state) R L (req : request) : let c := slabclass_of (req_obj_size req) in
  obj_rel P st R L -> storable ssize (req_obj_size req) -> class_links c L = [] ->
  exists st1, slabObjLRU_evict st req = _slabObjLRU_evict_slab st1 /\ obj_rel P st1 R L.
Proof.
  intros c H Hst Hn. destruct (storable_class _ _ Hst) as [Hf Hc]. fold c in Hf, Hc.
  destruct (or_queues _ _ _ _ H c Hc) as (q & Hq & Hql). unfold obj_queues in Hq. apply list_lookup_fmap_Some_1 in Hq as (cls & -> & Hcls).
  rewrite Hn in Hql. unfold slabObjLRU_evict. rewrite Hf. cbn [rbind]. erewrite upd_class_eq; [|exact (proj1 Hc)|exact Hcls]. cbn [rbind].
  unfold arr_get. destruct (Z.ltb_spec c 0); [lia|]. cbn [ss_params set_ss_params sp_slabclasses set_sp_slabclasses].
  rewrite list_lookup_insert_eq by (by eapply lookup_lt_Some). cbn [rbind sc_obj_q set_sc_n_evictions]. rewrite Hql.
  eexists. split; [reflexivity|]. destruct H as [O1 O2 O3 O4 O5 O6 O7 O8]. split; try done.
  - apply (rel_similar _ _ _ _ _ _ _ st R); [done|done|apply (sr_links _ _ _ _ _ _ _ _ _ O1)|]. split; try done.
    by apply (classes_rel_quiet c _ _ cls (set_sc_n_evictions (i32 (sc_n_evictions cls + 1)) cls)).
  - unfold queues_ok, obj_queues in *. cbn. by rewrite (obj_queues_insert _ _ _ cls).
Qed.

(** an eviction is that of the abstract cache, and makes room *)
Lemma obj_evict_rel P (st : slab_state) R L (req : request) : let c := slabclass_of (req_obj_size req) in
  obj_rel P st R L -> storable ssize (req_obj_size req) -> ~ room_for ssize n_total c (r_abs <$> R) ->
  exists st' R' L', slabObjLRU_evict st req = Ok st' /\ obj_rel P st' R' L' /\
    ocache_eqv (ocache_of R' L') (obj_evict c (ocache_of R L)) /\ room_for ssize n_total c (r_abs <$> R').
Proof.
  intros c H Hst Hroom. pose proof (class_head c L) as Hh. unfold obj_evict, ocache_of. cbn [oc_lru oc_slabs].
  pose proof (sr_max _ _ _ _ _ _ _ _ _ (or_rel _ _ _ _ H)) as Hle.
  assert (Hfull : filter (fun r => opened ssize c (r_abs r)) R = []).
  { apply filter_none, Forall_forall. intros r Hr Hop. apply Hroom. left. apply Exists_exists. exists (r_abs r). split; [by apply list_elem_of_fmap_2|done]. }
  destruct (class_links c L) as [|n l] eqn:El.
  - rewrite Hh. destruct (obj_evict_empty P st R L req H Hst El) as (st1 & -> & H1). destruct R as [|r R].
    { destruct Hroom. right. cbn. lia. }
    destruct (obj_evict_slab_spec _ _ _ _ _ H1) as (st' & -> & Hd & Hl). exists st', R, (other_links (r_abs r) L).
    pose proof (obj_rel_slab_gone _ _ _ _ _ _ H1 Hd Hl) as H'. split_and!; [done|done| |right; rewrite length_fmap; cbn in Hle; lia].
    split; [done|]. cbn [oc_lru fmap list_fmap tail]. rewrite other_links_entries. apply filter_in. intros e He.
    rewrite (or_perm _ _ _ _ H), fmap_cons, all_items_cons in He.
    destruct (rows_apart _ _ _ (sr_objs _ _ _ _ _ _ _ _ _ (or_rel _ _ _ _ H)) (sr_ids _ _ _ _ _ _ _ _ _ (or_rel _ _ _ _ H))) as [_ (_ & Hdis & _)].
    split; [intros Hni|intros Hin Hin'; exact (Hdis _ Hin' Hin)]. apply elem_of_app in He as [He|He]; [|by apply list_elem_of_fmap_2].
    destruct Hni. by apply list_elem_of_fmap_2.
  - destruct Hh as (L1 & x & L2 & -> & _ & Hxc & HL1 & HL2 & l' & ->).
    destruct (obj_evict_one_spec P st R _ L1 x L2 req H eq_refl Hst Hxc) as (R1 & r & r' & R2 & o & st' & -> & -> & Hev); [by rewrite Hxc|].
    exists st', (R1 ++ r' :: R2), (L1 ++ L2). pose proof Hev as [V1 V2 V3 _ _ _ _]. split_and!; [done|..].
    + apply (obj_rel_evicted P st st' R1 r r' R2 L1 x L2 o H); [by rewrite Hxc|by rewrite Hxc|exact Hev].
    + split; [|by cbn; rewrite (proj1 (lru_split L1 x L2 x.2.1 (or_ids _ _ _ _ H) eq_refl))].
      apply (drop_entry_rows R1 R2 r r' o x.2); [apply H|done].
    + left. apply Exists_exists. exists (r_abs r'). split; [apply list_elem_of_fmap_2, elem_of_app; right; by left|].
      split; [rewrite (rl_class _ _ _ _ V1); congruence|].
      pose proof (ro_room _ _ _ _ (proj1 (Forall_forall _ _) (sr_rows _ _ _ _ _ _ _ _ _ (or_rel _ _ _ _ H)) r ltac:(apply elem_of_app; right; by left))) as Hr.
      rewrite (rl_items _ _ _ _ V1), V3, Hxc in Hr. cbn [length] in Hr. lia.
Qed.

(** *** Requests *)

Lemma obj_evict_lru c (a : ocache) id : id ∉ (oc_lru a).*1 -> id ∉ (oc_lru (obj_evict c a)).*1.
Proof.
  clear. intros Hid (e & -> & He)%list_elem_of_fmap. apply Hid, list_elem_of_fmap_2. revert He. unfold obj_evict.
  destruct (of_class c (oc_lru a)); cbn [oc_lru]; intros He; by apply list_elem_of_filter in He as [_ He].
Qed.

(** add_to_slabclass, evicting when there is no room *)
Lemma obj_add_rel (st : slab_state) R L (req : request) o fuel : let e := (req_obj_id_int req, req_obj_size req) in
  let c := slabclass_of e.2 in
  obj_rel [(o, e)] st R L -> storable ssize e.2 -> e.1 ∉ L.*2.*1 ->
  exists st1 st2 R' L', add_to_slabclass (S (S fuel)) slabObjLRU_evict None st req o = Ok (c, st1) /\ obj_enqueue c o st1 = Ok st2 /\
    obj_rel [] st2 R' L' /\ ocache_eqv (ocache_of R' L') (obj_insert ssize n_total e (ocache_of R L)).
Proof.
  intros e c H Hst Hid. unfold obj_insert, ocache_of. cbn [oc_slabs oc_lru]. fold c.
  destruct (decide (room_for ssize n_total c (r_abs <$> R))) as [Hroom|Hroom].
  - destruct (obj_insert_room st R L req o (S fuel) slabObjLRU_evict H Hst Hid Hroom) as (st1 & st2 & R' & n & E1 & E2 & H2 & Ea).
    eexists st1, st2, R', _. split_and!; [exact E1|exact E2|exact H2|]. split; cbn; [by rewrite Ea|by rewrite fmap_app].
  - destruct (obj_evict_rel _ st R L req H Hst Hroom) as (st0 & R0 & L0 & E0 & H0 & Ha & Hroom0).
    assert (Hid0 : e.1 ∉ L0.*2.*1).
    { destruct Ha as [_ Hl]. change L0.*2 with (oc_lru (ocache_of R0 L0)). rewrite Hl. by apply obj_evict_lru. }
    destruct (obj_insert_room st0 R0 L0 req o fuel slabObjLRU_evict H0 Hst Hid0 Hroom0) as (st1 & st2 & R' & n & E1 & E2 & H2 & Ea).
    eexists st1, st2, R', _. split_and!; [|exact E2|exact H2|].
    + rewrite (add_start _ _ _ _ _ _ _ _ _ _ _ _ _ (or_rel _ _ _ _ H) Hst). change (slabclass_of (req_obj_size req)) with c.
      rewrite (proj2 (filter_none _ R)).
      * cbv zeta. rewrite (proj2 (Z.ltb_ge _ _)) by (apply Z.nlt_ge; intros Hlt; apply Hroom; right; by rewrite length_fmap).
        change (negb (0 =? 0)) with false. cbv iota. cbn [rbind]. change (negb (0 =? 0)) with false. cbv iota. rewrite E0. exact E1.
      * apply Forall_forall. intros r Hr Hop. apply Hroom. left. apply Exists_exists. exists (r_abs r). split; [by apply list_elem_of_fmap_2|done].
    + destruct Ha as [Hs Hl]. split; cbn [ocache_of oc_slabs oc_lru] in *.
      * rewrite Ea. apply insert_slab_proper, Hs.
      * by rewrite fmap_app, Hl.
Qed.

Lemma obj_count_rel P (st : slab_state) R L : obj_rel P st R L -> obj_rel P (count_request st) R L.
Proof.
  intros [O1 O2 O3 O4 O5 O6 O7 O8]. split; try done. by apply count_rel.
Qed.

Lemma obj_get_rel last (st : slab_state) R L (req : request) : let e := (req_obj_id_int req, req_obj_size req) in
  obj_rel [] st R L -> storable ssize e.2 ->
  exists st' R' L', slabObjLRU_get last st req = Ok (if cached e.1 L.*2 then cache_ck_hit else cache_ck_miss, last, st') /\
    obj_rel [] st' R' L' /\ ocache_eqv (ocache_of R' L') (obj_step ssize n_total e (ocache_of R L)).
Proof.
  intros e H Hst. unfold slabObjLRU_get, obj_step. cbn [oc_lru ocache_of].
  assert (Hc : exists res st' R' L', slabObjLRU_check st req true = Ok (if cached e.1 L.*2 then cache_ck_hit else cache_ck_miss, res) /\
    (match (if cached e.1 L.*2 then cache_ck_hit else cache_ck_miss) with cache_ck_miss => slabObjLRU_insert res req | _ => Ok res end) = Ok st' /\
    obj_rel [] st' R' L' /\ ocache_eqv (ocache_of R' L') (if cached e.1 L.*2
      then mk_ocache (touch_slab e.1 (r_abs <$> R)) (without e.1 L.*2 ++ filter (fun x => x.1 = e.1) L.*2)
      else obj_insert ssize n_total e (ocache_of R L))).
  { destruct (cached e.1 L.*2) eqn:E.
    - apply cached_spec in E. destruct (obj_check_hit st R L req H E) as (st' & R' & L' & -> & H' & Ea).
      exists st', st', R', L'. split_and!; [done|done|done|]. rewrite Ea. by split.
    - apply cached_false in E. exists st. unfold slabObjLRU_check.
      destruct (lookup_link _ _ _ _ (req_obj_id_int req) H) as [(x & Hx & Ex & _)|[_ ->]].
      { destruct E. change e.1 with (req_obj_id_int req). rewrite <- Ex. by do 2 apply list_elem_of_fmap_2. }
      assert (Hsz : 0 < req_obj_size req < 2 ^ 32) by (destruct Hst as [Hs _]; cbn in Hs; lia).
      pose proof (obj_create st R L req H Hsz) as H1. unfold slabObjLRU_insert. cbn [create_slab_cache_obj_from_req] in *.
      destruct (obj_add_rel _ R L req _ (length (queue_links (sp_global_slab_q (ss_params st)))) H1 Hst E) as (st1 & st2 & R' & L' & E1 & E2 & H2 & Ea).
      exists st2, R', L'. split_and!; [done| |done|done]. unfold add_fuel. cbn in E1 |- *. rewrite E1. cbn [rbind]. exact E2. }
  destruct Hc as (st1 & st' & R' & L' & E1 & E2 & H' & Ea). rewrite E1. cbn [rbind]. rewrite E2. cbn [rbind].
  rewrite (or_strategy _ _ _ _ H'). cbn. exists (count_request st'), R', L'. split_and!; [done|by apply obj_count_rel|exact Ea].
Qed.

End objs.
