(* ===== verification/SlabRunThms.v ===== *)
(** * Runs of the slab caches

    From the creation of a slabLRC or slabLRU cache through a trace to its destruction, the
    bound on the bytes cached, and what goes wrong: removal of an object, objects larger
    than a slab, caches smaller than a slab, init_params. *)

From S2P Require Import Prelude Store HashTable Buckets HashTableSpec Cache CacheSpec Policies CacheThms.
From S2P Require Import Glib SlabCommon SlabPolicies SlabSpec SlabRel SlabThms.

(** the size of a slab that init sets *)
Definition slab_bytes (ip : option slab_init_params_t) : Z :=
  match ip with Some i => u64 (in_slab_size i) | None => MiB end.

(** the strategy that slabObjLRU_init takes *)
Definition init_strategy (ip : option slab_init_params_t) : slab_automove_t :=
  match ip with Some i => in_slab_move_strategy i | None => no_automove end.

(** ** The bytes cached *)

(** the entries of a slab have its class, and there are at most as many as chunks *)
Definition aslab_wf (ssize : Z) (s : aslab) : Prop :=
  Forall (fun e => 0 < e.2 <= 3906250 /\ slabclass_of e.2 = a_class s) (a_items s) /\
  Z.of_nat (length (a_items s)) <= slots ssize (a_class s).

Definition aslabs_wf (ssize n_total : Z) (a : list aslab) : Prop :=
  Forall (aslab_wf ssize) a /\ Z.of_nat (length a) <= n_total.

Lemma place_wf ssize e a a' : 0 < e.2 <= 3906250 -> Forall (aslab_wf ssize) a -> place ssize (slabclass_of e.2) e a = Some a' ->
  Forall (aslab_wf ssize) a' /\ length a' = length a.
Proof.
  intros Hs. revert a'. induction a as [|s a IH]; intros a' Hwf E; [done|]. apply Forall_cons in Hwf as [Hw Hwf]. simpl in E.
  case_decide as Hop.
  - injection E as <-. split; [|done]. constructor; [|done]. destruct Hop as [Hc Hroom]. destruct Hw as [Hw Hn]. split; cbn.
    + apply Forall_app. split; [done|]. by constructor.
    + rewrite length_app. cbn. rewrite Hc. lia.
  - destruct (place ssize _ e a) as [a1|]; [|done]. injection E as <-. destruct (IH a1 Hwf eq_refl). split; [by constructor|simpl; lia].
Qed.

Lemma insert_slab_wf ssize n_total e a : 0 < n_total -> storable ssize e.2 -> aslabs_wf ssize n_total a ->
  aslabs_wf ssize n_total (insert_slab ssize n_total e a).
Proof.
  intros Hn [Hs Hslot] [Hwf Hlen]. unfold insert_slab. destruct (place ssize (slabclass_of e.2) e a) as [a'|] eqn:E.
  - apply place_wf in E as [H1 H2]; [|lia|done]. split; [done|lia].
  - assert (Hnew : aslab_wf ssize (mk_aslab (slabclass_of e.2) [e])).
    { split; [constructor; [|done]; split; [lia|done]|]. cbn. lia. }
    destruct (Z.ltb_spec (Z.of_nat (length a)) n_total); (split; [apply Forall_app; split; [|by constructor]|rewrite length_app; cbn]).
    + done.
    + lia.
    + by destruct a; [|apply Forall_inv_tail in Hwf].
    + destruct a; cbn in *; lia.
Qed.

Lemma touch_slab_perm id a : touch_slab id a ≡ₚ a.
Proof.
  unfold touch_slab. induction a as [|s a IH]; [done|]. rewrite !filter_cons. destruct (decide (holds_id id s)) as [H|H].
  - rewrite decide_False by tauto. by rewrite <- Permutation_middle, IH.
  - rewrite decide_True by tauto. cbn [app]. by rewrite IH.
Qed.

(** a step of slabLRC or slabLRU *)
Definition slab_step (touch : bool) := if touch then lru_step else lrc_step.

Lemma slab_step_wf touch ssize n_total e a : 0 < n_total -> storable ssize e.2 -> aslabs_wf ssize n_total a ->
  aslabs_wf ssize n_total (slab_step touch ssize n_total e a).
Proof.
  intros Hn Hs Ha. unfold slab_step, lru_step, lrc_step.
  destruct touch, (cached e.1 (all_items a)); try by apply insert_slab_wf; [..|done].
  - unfold aslabs_wf. by rewrite touch_slab_perm.
  - done.
Qed.

Lemma slab_run_wf touch ssize n_total reqs : 0 < n_total -> forall a, storable_trace ssize reqs -> aslabs_wf ssize n_total a ->
  aslabs_wf ssize n_total (aslab_run (slab_step touch ssize n_total) (trace_of reqs) a).2.
Proof.
  intros Hn. induction reqs as [|r reqs IH]; intros a Hreqs Ha; [done|]. apply Forall_cons in Hreqs as [Hr Hreqs].
  cbn [trace_of fmap list_fmap aslab_run]. fold (trace_of reqs).
  specialize (IH _ Hreqs (slab_step_wf touch ssize n_total (req_obj_id_int r, req_obj_size r) a Hn Hr Ha)).
  by destruct (aslab_run _ (trace_of reqs) _).
Qed.

Lemma aslab_total ssize s : 0 <= ssize -> aslab_wf ssize s -> total (a_items s) <= ssize.
Proof.
  intros Hs [Hw Hn]. destruct (a_items s) as [|e0 l] eqn:El; [done|].
  assert (Hc : 0 <= a_class s < N_SLABCLASS).
  { apply Forall_cons in Hw as [[He <-] _]. pose proof (slabclass_of_bounds e0.2). pose proof (proj2 (slabclass_of_fits e0.2) (proj2 He)). lia. }
  destruct (slabclass_size _ Hc) as (sz & E & _ & Hlt). pose proof (chunk_pos _ _ E). rewrite (slots_spec _ _ _ E) in Hn.
  assert (Hle : total (e0 :: l) <= Z.of_nat (length (e0 :: l)) * sz).
  { clear Hn El. induction Hw as [|e l' [_ He] _ IH]; [cbn; lia|]. cbn [total foldr length]. fold (total l').
    rewrite Nat2Z.inj_succ, Z.mul_succ_l. specialize (Hlt e.2). rewrite He in Hlt. lia. }
  pose proof (Z.mul_div_le ssize sz). nia.
Qed.

Lemma aslabs_total ssize n_total a : 0 <= ssize -> aslabs_wf ssize n_total a -> total (all_items a) <= n_total * ssize.
Proof.
  intros Hs [Hw Hn]. assert (Ht : total (all_items a) <= Z.of_nat (length a) * ssize); [|nia]. clear Hn.
  induction Hw as [|s a Hs' _ IH]; [cbn; lia|]. cbn [length].
  change (all_items (s :: a)) with (a_items s ++ all_items a). rewrite total_app.
  pose proof (aslab_total ssize s Hs Hs'). rewrite Nat2Z.inj_succ, Z.mul_succ_l. lia.
Qed.

(** ** From creation to destruction *)

Lemma n_slabs_bounds params : MiB <= p_cache_size params < 2 ^ 63 -> 0 < p_cache_size params / MiB < 2 ^ 64.
Proof. unfold MiB. intros Hc. split; [apply Z.div_str_pos; lia|]. apply Z.div_lt_upper_bound; lia. Qed.

Lemma slab_bytes_bounds ip : slab_bytes ip < 2 ^ 32 -> 0 <= slab_bytes ip < 2 ^ 32.
Proof. intros Hs. split; [|done]. unfold slab_bytes. destruct ip; [apply u64_range|done]. Qed.

Section runs.
  Context {T Q D : Type} {GT : GHashTable T} {GK : GHashTableKeys T} {GQ : GQueue Q} {GD : GDataQueue D}.
  Context {GTL : GHashTableLaws T} {GKL : GHashTableKeysLaws T} {GQL : GQueueLaws Q} {GDL : GDataQueueLaws D}.
  #[local] Abbreviation slab_state := (SlabCommon.slab_state T Q D).
  #[local] Set Default Proof Using "Type*".

Lemma init_classes_eq : rfold (fun (cs : list (slabclass_t Q D)) i => let! c := init_slabclass i in Ok (cs ++ [c])) (seqZ 0 N_SLABCLASS) [] =
  Ok ((fun sz => mk_slabclass sz 0 gd_new gd_new g_queue_new 0) <$> SLABCLASS_SIZES).
Proof. reflexivity. Qed.

Lemma slab_init_rel b params ip seed : MiB <= p_cache_size params < 2 ^ 63 ->
  let c := cache_struct_init empty_store params seed in
  exists st, slab_init (T := T) (Q := Q) (D := D) b empty_store params ip seed = Ok st /\
    (forall idx, (forall id, idx st id = 0) ->
       slabs_rel idx (slab_bytes ip) (p_cache_size params / MiB) (p_cache_size params) (st_store c) (c_hashtable (st_cache c)) [] st []) /\
    (forall id, g_hash_table_lookup (ss_hashtable st) id = 0) /\
    (forall c, 0 <= c < N_SLABCLASS -> obj_queues st !! Z.to_nat c = Some g_queue_new) /\
    sp_slab_move_strategy (ss_params st) = (if b then init_strategy ip else no_automove) /\
    exists s, free_chained_hashtable (st_store c) (c_hashtable (st_cache c)) = Ok s /\ objs s = ∅.
Proof.
  intros Hc c. unfold MiB in Hc. destruct (cache_struct_init_spec (fun x => x) params seed ltac:(lia)) as (HB & _). fold c in HB.
  destruct (HB (fun _ => 0)) as [B1 B2 B3 B4 B5 B6]. unfold slab_init. rewrite init_classes_eq, (u64_small (p_cache_size params)) by lia.
  assert (Hn : 1 <= p_cache_size params / MiB) by (apply Z.div_le_lower_bound; unfold MiB; lia).
  destruct (match ip with Some i => _ | None => _ end) as [[size meta] strategy] eqn:Eip. cbn [rbind]. eexists. split; [reflexivity|].
  assert (Hip : size = slab_bytes ip /\ strategy = if b then init_strategy ip else no_automove).
  { unfold slab_bytes, init_strategy. destruct ip; injection Eip; intros; subst; [done|by destruct b]. }
  destruct Hip as [Hsize Hstr].
  assert (Hcls : forall k, 0 <= k < N_SLABCLASS -> exists sz, (fun sz => mk_slabclass (Q := Q) (D := D) sz 0 gd_new gd_new g_queue_new 0) <$> SLABCLASS_SIZES !! Z.to_nat k =
    Some (mk_slabclass sz 0 gd_new gd_new g_queue_new 0)).
  { intros k Hk. destruct (slabclass_size k Hk) as (sz & _ & Hsz & _). exists sz. by rewrite Hsz. }
  split_and!; [|apply g_lookup_new| |exact Hstr|by apply (free_chained_hashtable_spec (fun x => x) _ _ [])].
  - intros idx Hidx. split; try done.
    + cbn. apply g_new_links.
    + constructor.
    + constructor.
    + constructor.
    + constructor.
    + intros o. cbn [ss_objs]. rewrite lookup_empty. split; [by intros [? ?]|]. intros Ho. by apply not_elem_of_nil in Ho.
    + intros o. cbn [ss_slabs]. rewrite lookup_empty. split; [by intros [? ?]|]. intros Ho. by apply not_elem_of_nil in Ho.
    + split; [done|]. intros k Hk. destruct (Hcls k Hk) as (sz & Hsz). eexists.
      cbn [sp_slabclasses ss_params]. rewrite list_lookup_fmap, Hsz. split; [reflexivity|]. split; [apply gd_new_data|]. split; [cbn; lia|done].
    + cbn. lia.
  - intros k Hk. destruct (Hcls k Hk) as (sz & Hsz). unfold obj_queues. cbn [sp_slabclasses ss_params]. by rewrite !list_lookup_fmap, Hsz.
Qed.

Definition slab_get (touch : bool) := if touch then slabLRU_get (T := T) (Q := Q) (D := D) else slabLRC_get.

(** a run from creation, by the abstract cache it ends in *)
Lemma slab_run_ok touch params ip seed reqs :
  let ssize := slab_bytes ip in let n := p_cache_size params / MiB in
  let c := cache_struct_init empty_store params seed in let a := aslab_run (slab_step touch ssize n) (trace_of reqs) [] in
  MiB <= p_cache_size params < 2 ^ 63 -> ssize < 2 ^ 32 -> storable_trace ssize reqs ->
  exists st0 st R, slabLRC_init empty_store params ip seed = Ok st0 /\ slab_run (slab_get touch) st0 reqs = Ok (a.1, st) /\
    slabs_rel table_idx ssize n (p_cache_size params) (st_store c) (c_hashtable (st_cache c)) [] st R /\ r_abs <$> R = a.2 /\
    aslabs_wf ssize n a.2 /\ exists s, free_chained_hashtable (st_store c) (c_hashtable (st_cache c)) = Ok s /\ objs s = ∅.
Proof.
  intros ssize n c a Hc Hs Hreqs. destruct (slab_init_rel false params ip seed Hc) as (st0 & E0 & H0 & Hnew & _ & _ & Hfree). specialize (H0 table_idx Hnew). fold ssize n in H0. fold c in H0, Hfree.
  pose proof (n_slabs_bounds params Hc : 0 < n < 2 ^ 64) as Hn. pose proof (slab_bytes_bounds ip Hs : 0 <= ssize < 2 ^ 32) as Hs0.
  destruct (slab_run_rel ssize n (p_cache_size params) (st_store c) (c_hashtable (st_cache c)) Hn Hs0 (slab_get touch) (slab_step touch ssize n))
    with (reqs := reqs) (st := st0) (R := @nil row) as (st & R & E & HR & Ea); [|done|done|].
  { intros st R req e H Hst. destruct touch; [by apply lru_get_rel|by apply lrc_get_rel]. }
  exists st0, st, R. split_and!; [done|exact E|done|exact Ea| |done]. apply slab_run_wf; [lia|done|]. split; [constructor|cbn; lia].
Qed.

(** C22.  slabLRC and slabLRU implement the abstract caches of slabs. On every trace of objects that
    fit in a slab, with any containers that obey the laws of GLib, every request ends (the recursion
    of add_to_slabclass within its fuel), no assert fails and no dangling pointer is followed; the
    answers are those of the list of slabs in which the first slab is dropped when there is no room
    (the least recently created one, for slabLRU the least recently accessed one: a hit moves its
    slab to the end); the bytes counted are those of its entries. The destruction of the cache frees
    every object and every slab, once, and of what was allocated at its creation all but the
    cache_params and the slab_q of the 48 classes, which are leaked. The cache has at least 1 MiB
    and fewer than 2^63 bytes, a slab fewer than 2^32. *)
Theorem slab_run_refines touch params ip seed reqs :
  let ssize := slab_bytes ip in let n := p_cache_size params / MiB in
  let a := aslab_run (slab_step touch ssize n) (trace_of reqs) [] in
  MiB <= p_cache_size params < 2 ^ 63 -> ssize < 2 ^ 32 -> storable_trace ssize reqs ->
  exists st0 st st' s, slabLRC_init empty_store params ip seed = Ok st0 /\ slab_run (slab_get touch) st0 reqs = Ok (a.1, st) /\
    occupied_size (st_cache (ss_cache st)) = u64 (total (all_items a.2)) /\
    slabLRC_free st = Ok (st', s) /\ ss_objs st' = ∅ /\ ss_slabs st' = ∅ /\ objs s = ∅ /\
    ss_blocks st' = leaked_blocks.
Proof.
  intros ssize n a Hc Hs Hreqs. destruct (slab_run_ok touch params ip seed reqs Hc Hs Hreqs) as (st0 & st & R & E0 & E & H & Ea & _ & Hfree).
  destruct (slab_free_rel _ _ _ _ _ (n_slabs_bounds params Hc) (slab_bytes_bounds ip Hs) st R H Hfree) as (st' & s & Ef & Ho & Hsl & Hs' & Hb).
  exists st0, st, st', s. split_and!; try done. pose proof (sr_occupied _ _ _ _ _ _ _ _ _ H) as Hocc. unfold occupied in Hocc.
  rewrite Hocc. cbn [total fmap list_fmap foldr]. by rewrite Ea.
Qed.

(** C24.  The bytes cached never exceed the size of the cache, although no operation compares
    the two: for a slabLRC or slabLRU cache of at least 1 MiB with slabs of the default size, on
    every trace of objects that fit in a slab. *)
Theorem slab_capacity touch params seed reqs :
  MiB <= p_cache_size params < 2 ^ 63 -> storable_trace MiB reqs ->
  exists st0 res st, slabLRC_init empty_store params None seed = Ok st0 /\ slab_run (slab_get touch) st0 reqs = Ok (res, st) /\
    occupied_size (st_cache (ss_cache st)) <= cache_size (st_cache (ss_cache st)).
Proof.
  intros Hc Hreqs. destruct (slab_run_ok touch params None seed reqs Hc eq_refl Hreqs) as (st0 & st & R & E0 & E & H & Ea & Hwf & _).
  exists st0. eexists _, st. split_and!; [done|exact E|]. pose proof (sr_occupied _ _ _ _ _ _ _ _ _ H) as Hocc. unfold occupied in Hocc.
  rewrite Hocc, (cn_csize _ _ _ _ _ _ (sr_constants _ _ _ _ _ _ _ _ _ H)), Ea.
  cbn [fmap list_fmap total foldr]. rewrite Z.add_0_l. fold (total (all_items (aslab_run (slab_step touch (slab_bytes None) (p_cache_size params / MiB)) (trace_of reqs) []).2)).
  change (slab_bytes None) with MiB in *.
  set (a := (aslab_run (slab_step touch MiB (p_cache_size params / MiB)) (trace_of reqs) []).2) in *.
  assert (Hub : total (all_items a) <= p_cache_size params / MiB * MiB) by (apply aslabs_total; done).
  pose proof (Z.mul_div_le (p_cache_size params) MiB ltac:(done)). etransitivity; [|transitivity (total (all_items a)); [reflexivity|lia]].
  apply Z.mod_le; [|lia]. apply total_nonneg, Forall_forall. intros e (s & He & Hs)%list_elem_of_bind.
  destruct (proj1 (Forall_forall _ _) (proj1 Hwf) s Hs) as [Hw _]. pose proof (proj1 (Forall_forall _ _) Hw e He). cbn in *. lia.
Qed.

(** ** Removal *)

(** remove_obj frees the object and leaves alone the table, the queue and the memory of the slabs *)
Lemma remove_obj_rel ssize n_total csize s0 ht0 (st : slab_state) R id :
  slabs_rel table_idx ssize n_total csize s0 ht0 [] st R -> Forall (fun e => 0 < e.2 <= 3906250) (all_items (r_abs <$> R)) ->
  0 <= ssize < 2 ^ 32 -> id ∈ (all_items (r_abs <$> R)).*1 ->
  exists st', slabLRC_remove_obj st id = Ok st' /\ ss_hashtable st' = ss_hashtable st /\
    0 < g_hash_table_lookup (ss_hashtable st) id /\ ss_objs st' !! g_hash_table_lookup (ss_hashtable st) id = None /\
    slabLRC_free st' = Err BadAccess.
Proof.
  intros H Hsizes Hs Hin. apply list_elem_of_fmap in Hin as (e & -> & He).
  pose proof (proj1 (Forall_forall _ _) Hsizes e He) as Hsz. cbn beta in Hsz.
  apply list_elem_of_bind in He as (s & Hes & (r & -> & Hr)%list_elem_of_fmap).
  pose proof (proj1 (Forall_forall _ _) (sr_rows _ _ _ _ _ _ _ _ _ H) r Hr) as Hok.
  apply list_elem_of_lookup in Hes as [i Hi]. pose proof (lookup_lt_Some _ _ _ Hi) as Hlt.
  destruct (lookup_lt_is_Some_2 (r_objs r) i) as [o Ho]; [rewrite (ro_len _ _ _ _ Hok); lia|].
  destruct (ro_items _ _ _ _ Hok i o e Ho Hi) as (Hp & Hl & t & Ht).
  set (n := length (a_items (r_abs r))) in *.
  destruct (lookup_lt_is_Some_2 (a_items (r_abs r)) (n - 1)) as [el Hel]; [lia|].
  destruct (lookup_lt_is_Some_2 (r_objs r) (n - 1)) as [ol Hol]; [rewrite (ro_len _ _ _ _ Hok); lia|].
  destruct (ro_items _ _ _ _ Hok _ ol el Hol Hel) as (Hpl & Hll & tl & Htl). unfold table_idx in Hl, Hll.
  pose proof (ro_slab_t _ _ _ _ Hok) as Hsl. unfold slab_of, slab_array in Hsl. fold n in Hsl. pose proof (ro_room _ _ _ _ Hok) as Hroom. fold n in Hroom.
  pose proof (slots_bounds ssize _ (ro_class _ _ _ _ Hok) Hs) as Hb. pose proof (proj1 (ro_slab _ _ _ _ Hok)) as Hps.
  unfold slabLRC_remove_obj. rewrite Hl. rewrite (proj2 (Z.eqb_neq o 0)), (slab_at_some _ _ _ (proj1 Hp) Ht) by lia. cbn [rbind].
  cbn [so_slab so_item_pos_in_slab ss_slabs add_occupied set_ss_cache]. rewrite (slab_at_some _ _ _ Hps Hsl). cbn [rbind sl_n_stored_items sl_slab_items].
  rewrite u32_small by lia. set (ids := (a_items (r_abs r)).*1 ++ repeat 0 (Z.to_nat (slots ssize (a_class (r_abs r))) - n)) in *.
  assert (Hget : forall j x, a_items (r_abs r) !! j = Some x -> arr_get ids (Z.of_nat j) = Ok x.1).
  { intros j x Hj. unfold arr_get. destruct (Z.ltb_spec (Z.of_nat j) 0); [lia|]. rewrite Nat2Z.id. unfold ids.
    rewrite lookup_app_l by (rewrite length_fmap; by eapply lookup_lt_Some). by rewrite list_lookup_fmap, Hj. }
  replace (Z.of_nat n - 1) with (Z.of_nat (n - 1)) by lia. rewrite (Hget _ _ Hel). cbn [rbind].
  unfold arr_upd at 1. rewrite (Hget _ _ Hi). cbn [rbind]. unfold upd_slab at 1. cbn [ss_slabs add_occupied set_ss_cache].
  rewrite (slab_at_some _ _ _ Hps Hsl). cbn [rbind ss_hashtable set_ss_slabs add_occupied set_ss_cache].
  rewrite Hll. unfold upd_obj. cbn [ss_objs set_ss_slabs add_occupied set_ss_cache]. rewrite (slab_at_some _ _ _ (proj1 Hpl) Htl). cbn [rbind].
  unfold upd_slab. cbn [ss_slabs set_ss_objs set_ss_slabs add_occupied set_ss_cache].
  rewrite (slab_at_some _ _ _ Hps (lookup_insert_eq _ _ _)). cbn [rbind so_obj_size].
  rewrite find_slabclass_ok by lia. cbn [rbind]. pose proof (slabclass_of_bounds e.2). pose proof (proj2 (slabclass_of_fits e.2) (proj2 Hsz)).
  destruct (proj2 (sr_classes _ _ _ _ _ _ _ _ _ H) (slabclass_of e.2)) as (cls & Hcls & _); [lia|].
  erewrite upd_class_eq; [|lia|exact Hcls]. cbn [rbind]. unfold free_slab_cache_obj.
  cbn [ss_objs set_ss_params set_ss_slabs set_ss_objs add_occupied set_ss_cache].
  assert (Hst : exists x, <[ol := mk_slab_obj el.1 el.2 tl (r_slab r) (Z.of_nat i)]> (ss_objs st) !! o = Some x).
  { destruct (decide (ol = o)) as [<-|Hne]; [rewrite lookup_insert_eq|rewrite lookup_insert_ne by done]; by eexists. }
  destruct Hst as [x Hx]. cbn [so_obj_id_int so_access_time so_slab]. rewrite (slab_at_some _ _ _ (proj1 Hp) Hx). cbn [rbind].
  eexists. split; [reflexivity|]. split; [done|]. split; [lia|].
  match goal with |- ?A = None /\ _ => assert (Hgone : A = None) by (cbn [ss_objs set_ss_objs]; by rewrite lookup_delete_eq) end.
  split; [exact Hgone|]. apply (slab_free_dangling _ R e.1); try done.
  - apply H.
  - apply H.
  - intros s. cbn. destruct (decide (s = r_slab r)) as [->|Hne].
    + rewrite lookup_insert_eq. split; [intros _; by apply list_elem_of_fmap_2|by eexists].
    + rewrite !lookup_insert_ne by done. apply H.
  - eapply Forall_impl; [apply H|]. intros r' Hr'. split_and!; apply Hr'.
  - cbn. by rewrite (cn_blocks _ _ _ _ _ _ (sr_constants _ _ _ _ _ _ _ _ _ H)).
  - cbn. rewrite length_insert. apply (sr_classes _ _ _ _ _ _ _ _ _ H).
  - cbn. rewrite Hl. lia.
  - cbn. rewrite Hl. by rewrite lookup_delete_eq.
Qed.

(** C26.  Removing a cached object of a slabLRC or slabLRU cache frees it but leaves its address in
    the hash table: the next slabLRC_check of it is a hit, the next slabLRU_get follows the dangling
    address, and the destruction of the cache frees the object again. The cache is one that
    slab_run_refines describes. *)
Theorem slab_remove_obj_dangles touch params ip seed reqs req :
  let ssize := slab_bytes ip in let n := p_cache_size params / MiB in
  let a := aslab_run (slab_step touch ssize n) (trace_of reqs) [] in
  MiB <= p_cache_size params < 2 ^ 63 -> ssize < 2 ^ 32 -> storable_trace ssize reqs ->
  cached (req_obj_id_int req) (all_items a.2) = true ->
  exists st0 st st', slabLRC_init empty_store params ip seed = Ok st0 /\ slab_run (slab_get touch) st0 reqs = Ok (a.1, st) /\
    slabLRC_remove_obj st (req_obj_id_int req) = Ok st' /\ slabLRC_check st' req = cache_ck_hit /\
    slabLRU_get st' req = Err BadAccess /\ slabLRC_free st' = Err BadAccess.
Proof.
  intros ssize n a Hc Hs Hreqs Hid%cached_spec.
  destruct (slab_run_ok touch params ip seed reqs Hc Hs Hreqs) as (st0 & st & R & E0 & E & H & Ea & Hwf & _).
  fold ssize n in Ea, Hwf, H. fold a in Ea, Hwf. rewrite <- Ea in Hid.
  destruct (remove_obj_rel _ _ _ _ _ st R (req_obj_id_int req) H) as (st' & Er & Hh & Hp & Hn & Hf); [|by apply slab_bytes_bounds|done|].
  { rewrite Ea. apply Forall_forall. intros e (s & He & Hsl)%list_elem_of_bind.
    destruct (proj1 (Forall_forall _ _) (proj1 Hwf) s Hsl) as [Hw _]. by apply (proj1 (Forall_forall _ _) Hw e He). }
  exists st0, st, st'. split_and!; [done|exact E|done|..].
  - unfold slabLRC_check. rewrite Hh. by rewrite (proj2 (Z.eqb_neq _ 0)) by lia.
  - unfold slabLRU_get, slabLRU_check. rewrite Hh, (proj2 (Z.eqb_neq _ 0)) by lia. unfold slab_at at 1.
    rewrite (proj2 (Z.eqb_neq _ 0)), Hn by lia. done.
  - exact Hf.
Qed.

End runs.

(** ** Concrete caches *)

Abbreviation sstate := (slab_state (gmap Z Z) (list Z) (list Z)).

Definition slab_params_of (size : Z) : common_cache_params_t := mk_params size 0 4.
Definition slab_req (t id sz : Z) : request := mk_request t id sz 0 0 None 0 0 0 true.

(** two slabs; objects of two classes, the third slab replaces the first *)
Definition slab_demo : list request :=
  [slab_req 1 1 600000; slab_req 2 2 500000; slab_req 3 3 500000; slab_req 4 1 600000; slab_req 5 4 1048576; slab_req 6 1 600000].

Lemma slab_demo_storable : storable_trace MiB slab_demo.
Proof. repeat (constructor; [split; [cbn; lia|by vm_compute]|]). constructor. Defined.

Lemma slab_run_refines_witness :
  let a := aslab_run (slab_step true MiB 2) (trace_of slab_demo) [] in
  a.1 = [cache_ck_miss; cache_ck_miss; cache_ck_miss; cache_ck_hit; cache_ck_miss; cache_ck_hit] /\
  exists (st0 st st' : sstate) s, slabLRC_init empty_store (slab_params_of 2500000) None 0 = Ok st0 /\
    slab_run (slab_get true) st0 slab_demo = Ok (a.1, st) /\
    occupied_size (st_cache (ss_cache st)) = u64 (total (all_items a.2)) /\
    slabLRC_free st = Ok (st', s) /\ ss_objs st' = ∅ /\ ss_slabs st' = ∅ /\ objs s = ∅ /\
    ss_blocks st' = leaked_blocks.
Proof.
  split; [by vm_compute|].
  exact (slab_run_refines (T := gmap Z Z) (Q := list Z) (D := list Z) true (slab_params_of 2500000) None 0 slab_demo
    ltac:(cbn; unfold MiB; lia) eq_refl slab_demo_storable).
Defined.

Lemma slab_capacity_witness :
  exists (st0 : sstate) res st, slabLRC_init empty_store (slab_params_of 2500000) None 0 = Ok st0 /\
    slab_run (slab_get false) st0 slab_demo = Ok (res, st) /\
    occupied_size (st_cache (ss_cache st)) <= cache_size (st_cache (ss_cache st)).
Proof.
  exact (slab_capacity (T := gmap Z Z) (Q := list Z) (D := list Z) false (slab_params_of 2500000) 0 slab_demo
    ltac:(cbn; unfold MiB; lia) slab_demo_storable).
Defined.

Lemma slab_remove_obj_dangles_witness :
  let a := aslab_run (slab_step true MiB 2) (trace_of slab_demo) [] in
  exists (st0 st st' : sstate), slabLRC_init empty_store (slab_params_of 2500000) None 0 = Ok st0 /\
    slab_run (slab_get true) st0 slab_demo = Ok (a.1, st) /\
    slabLRC_remove_obj st 1 = Ok st' /\ slabLRC_check st' (slab_req 7 1 600000) = cache_ck_hit /\
    slabLRU_get st' (slab_req 7 1 600000) = Err BadAccess /\ slabLRC_free st' = Err BadAccess.
Proof.
  exact (slab_remove_obj_dangles (T := gmap Z Z) (Q := list Z) (D := list Z) true (slab_params_of 2500000) None 0 slab_demo
    (slab_req 7 1 600000) ltac:(cbn; unfold MiB; lia) eq_refl slab_demo_storable ltac:(by vm_compute)).
Defined.

Definition slab_start (size : Z) (ip : option slab_init_params_t) : result sstate :=
  slab_init true empty_store (slab_params_of size) ip 0.

(** an object larger than the default slab is written behind a slab without chunks *)
Example large_object : (let! st := slab_start 4000000 None in slabLRC_get st (slab_req 1 1 1048577)) = Err OutOfBounds.
Proof. by vm_compute. Qed.

(** a cache smaller than a slab evicts from an empty queue *)
Example small_cache : (let! st := slab_start 1000000 None in slabLRU_get st (slab_req 1 1 100)) = Err NullDeref.
Proof. by vm_compute. Qed.

(** the number of slabs does not follow init_params: with slabs of 2 MiB a cache of 1 MiB
    holds two objects of 1 MiB *)
Example large_slabs :
  (let! st := slab_start 1048576 (Some (mk_slab_init 2097152 no_automove 0)) in
   let! '(_, st) := slab_run slabLRC_get st [slab_req 1 1 1048576; slab_req 2 2 1048576] in
   Ok (occupied_size (st_cache (ss_cache st)), cache_size (st_cache (ss_cache st)))) = Ok (2097152, 1048576).
Proof. by vm_compute. Qed.

(** slabObjLRU_remove_obj takes the link in its table for an object *)
Example obj_remove : (let! st := slab_start 4000000 None in
   let! '(_, _, st) := slabObjLRU_run 0 st [slab_req 1 1 100] in slabObjLRU_remove_obj st 1) = Err BadAccess.
Proof. by vm_compute. Qed.
