(* ===== verification/SlabObjRunThms.v ===== *)
(** * Runs of slabObjLRU

    From the creation of a slabObjLRU cache that does not move slabs between classes,
    through a trace, to its destruction. *)

From S2P Require Import Prelude Store HashTable Buckets HashTableSpec Cache CacheSpec Policies CacheThms.
From S2P Require Import Glib SlabCommon SlabPolicies SlabSpec SlabRel SlabThms SlabRunThms SlabObjSpec SlabObjThms.

(** ** The bytes cached *)

Lemma drop_entry_wf ssize id a : Forall (aslab_wf ssize) a -> Forall (aslab_wf ssize) (drop_entry id <$> a).
Proof.
  intros H. apply Forall_fmap. eapply Forall_impl; [exact H|]. intros s [Hs Hn]. split; cbn.
  - unfold without. apply Forall_forall. intros e [_ He]%list_elem_of_filter. exact (proj1 (Forall_forall _ _) Hs e He).
  - unfold without. pose proof (length_filter (fun e : entry => e.1 <> id) (a_items s)). lia.
Qed.

Lemma obj_evict_wf ssize n_total c a : aslabs_wf ssize n_total (oc_slabs a) -> aslabs_wf ssize n_total (oc_slabs (obj_evict c a)).
Proof.
  intros [Hw Hn]. unfold obj_evict. destruct (of_class c (oc_lru a)) as [|e l]; cbn [oc_slabs]; split.
  - by destruct (oc_slabs a); [|apply Forall_inv_tail in Hw].
  - destruct (oc_slabs a); cbn in *; lia.
  - by apply drop_entry_wf.
  - by rewrite length_fmap.
Qed.

Lemma obj_step_wf ssize n_total e a : 0 < n_total -> storable ssize e.2 -> aslabs_wf ssize n_total (oc_slabs a) ->
  aslabs_wf ssize n_total (oc_slabs (obj_step ssize n_total e a)).
Proof.
  intros Hn Hs Ha. unfold obj_step, obj_insert. destruct (cached e.1 (oc_lru a)); cbn [oc_slabs].
  - unfold aslabs_wf. by rewrite touch_slab_perm.
  - apply insert_slab_wf; [done|done|]. case_decide; [done|by apply obj_evict_wf].
Qed.

Lemma ocache_run_wf ssize n_total reqs : 0 < n_total -> forall a, storable_trace ssize reqs -> aslabs_wf ssize n_total (oc_slabs a) ->
  aslabs_wf ssize n_total (oc_slabs (ocache_run ssize n_total (trace_of reqs) a).2).
Proof.
  intros Hn. induction reqs as [|r reqs IH]; intros a Hreqs Ha; [done|]. apply Forall_cons in Hreqs as [Hr Hreqs].
  cbn [trace_of fmap list_fmap ocache_run]. fold (trace_of reqs).
  specialize (IH _ Hreqs (obj_step_wf ssize n_total (req_obj_id_int r, req_obj_size r) a Hn Hr Ha)).
  by destruct (ocache_run _ _ (trace_of reqs) _).
Qed.

(** ** Destruction *)

Lemma rfold_bind {A B C} (f : A -> C -> result A) (g : B -> list C) l : forall a,
  rfold (fun a x => rfold f (g x) a) l a = rfold f (l ≫= g) a.
Proof.
  assert (Happ : forall l1 l2 a, rfold f (l1 ++ l2) a = let! a := rfold f l1 a in rfold f l2 a).
  { induction l1 as [|c l1 IH]; intros l2 a; [done|]. cbn [app rfold]. destruct (f a c); [apply IH|done]. }
  induction l as [|x l IH]; intros a; [done|]. cbn [rfold]. rewrite bind_cons, Happ. destruct (rfold f (g x) a); [apply IH|done].
Qed.

Lemma bind_fmap_eq {A B C} (g : A -> list C) (h : B -> list C) l : forall k, g <$> l = h <$> k -> l ≫= g = k ≫= h.
Proof.
  induction l as [|x l IH]; intros [|y k] E; try done. rewrite !fmap_cons in E. injection E as E1 E2. rewrite !bind_cons, E1. f_equal. by apply IH.
Qed.

Section runs.
  Context {T Q D : Type} {GT : GHashTable T} {GK : GHashTableKeys T} {GQ : GQueue Q} {GD : GDataQueue D}.
  Context {GTL : GHashTableLaws T} {GKL : GHashTableKeysLaws T} {GQL : GQueueLaws Q} {GDL : GDataQueueLaws D}.
  #[local] Abbreviation slab_state := (SlabCommon.slab_state T Q D).
  #[local] Set Default Proof Using "Type*".

Section destruction.
  Context (ssize n_total csize : Z) (s0 : store) (ht0 : hashtable) (Hmax : 0 < n_total < 2 ^ 64) (Hssize : 0 <= ssize < 2 ^ 32).

(** the links of the object queues of the classes *)
Definition class_nodes (st : slab_state) (id : Z) : list Z :=
  match sp_slabclasses (ss_params st) !! Z.to_nat id with Some c => queue_links (sc_obj_q c) | None => [] end.
Definition all_nodes (st : slab_state) : list Z := seqZ 0 N_SLABCLASS ≫= class_nodes st.

(** the object of a link *)
Definition node_data (st : slab_state) (n : Z) : Z := default 0 (ss_links st !! n).

Lemma all_nodes_links (st : slab_state) R L : obj_rel ssize n_total csize s0 ht0 [] st R L ->
  all_nodes st = seqZ 0 N_SLABCLASS ≫= (fun c => class_links c L).
Proof.
  intros H. apply bind_fmap_eq, list_fmap_ext. intros _ c Hc%list_elem_of_lookup_2%elem_of_seqZ.
  destruct (or_queues _ _ _ _ _ _ _ _ _ H c ltac:(lia)) as (q & Hq & Hql). unfold class_nodes.
  unfold obj_queues in Hq. rewrite list_lookup_fmap in Hq. destruct (sp_slabclasses _ !! Z.to_nat c) as [cls|]; [|done].
  injection Hq as <-. exact Hql.
Qed.

Lemma all_nodes_spec (st : slab_state) R L : obj_rel ssize n_total csize s0 ht0 [] st R L ->
  NoDup (all_nodes st) /\ forall n, n ∈ all_nodes st <-> n ∈ L.*1.
Proof.
  intros H. rewrite (all_nodes_links _ _ _ H). split.
  - apply NoDup_bind; [|intros c _; apply class_links_nodup, H|apply NoDup_seqZ].
    intros c c' n _ _ (x & -> & [<- Hx]%list_elem_of_filter)%list_elem_of_fmap (y & E & [<- Hy]%list_elem_of_filter)%list_elem_of_fmap.
    by rewrite (fmap_nodup_inj fst L x y (or_nodup _ _ _ _ _ _ _ _ _ H) Hx Hy E).
  - intros n. rewrite list_elem_of_bind. split.
    + intros (c & (x & -> & [_ Hx]%list_elem_of_filter)%list_elem_of_fmap & _). by apply list_elem_of_fmap_2.
    + intros (x & -> & Hx)%list_elem_of_fmap. exists (slabclass_of x.2.2). split.
      * apply list_elem_of_fmap_2, list_elem_of_filter. by split.
      * destruct (link_row _ _ _ _ _ Hmax Hssize _ _ _ _ _ H Hx) as (_ & R1 & r & R2 & i & o & t & _ & Hok & _ & _ & _ & <- & _).
        apply elem_of_seqZ. pose proof (ro_class _ _ _ _ Hok). lia.
Qed.

(** a link and its object, which is allocated *)
Definition node_ok (addr : Z -> Z) (st : slab_state) (n : Z) : Prop :=
  0 < n /\ ss_links st !! n = Some (addr n) /\ 0 < addr n /\ is_Some (ss_objs st !! addr n).

(** the object queues of the classes [ids] are freed with their objects *)
Lemma free_obj_queues (addr : Z -> Z) ids : forall (st : slab_state) bs, Forall (fun id => 0 <= id < 48) ids ->
  length (sp_slabclasses (ss_params st)) = 48%nat -> free_queues ids (ss_blocks st) = Ok bs ->
  let nodes := ids ≫= class_nodes st in
  NoDup nodes -> NoDup (addr <$> nodes) -> Forall (node_ok addr st) nodes ->
  exists m lk, rfold (fun st id =>
      let! st := release (SB_free_slab_q id) st in
      let! c := arr_get (sp_slabclasses (ss_params st)) id in
      let nodes := queue_links (sc_obj_q c) in
      let! st := rfold (fun st node =>
        let! cache_obj := slab_at (ss_links st) node in free_slab_cache_obj st cache_obj) nodes st in
      release (SB_obj_q id) (free_links nodes st)) ids st = Ok (set_ss_objs m (set_ss_links lk (set_ss_blocks bs st))) /\
    forall o, is_Some (m !! o) <-> is_Some (ss_objs st !! o) /\ o ∉ addr <$> nodes.
Proof.
  clear Hmax Hssize. cbv zeta. induction ids as [|id ids IH]; intros st bs Hids Hlen Hbs Hnd Hno Hok.
  - injection Hbs as <-. exists (ss_objs st), (ss_links st). split; [by destruct st|]. intros o. cbn. rewrite elem_of_nil. tauto.
  - apply Forall_cons in Hids as [Hid Hids]. unfold free_queues in Hbs. cbn [rfold] in Hbs.
    apply rbind_Ok in Hbs as (b2 & (b1 & E1 & E2)%rbind_Ok & Hbs). cbn [rfold].
    rewrite (release_ok _ _ _ E1). cbn [rbind ss_params set_ss_blocks]. unfold arr_get at 1. rewrite (proj2 (Z.ltb_ge id 0)) by lia.
    rewrite bind_cons in Hnd, Hno, Hok |- *. rewrite fmap_app in Hno |- *.
    destruct (lookup_lt_is_Some_2 (sp_slabclasses (ss_params st)) (Z.to_nat id)) as [c Ec]; [lia|].
    assert (Hc : class_nodes st id = queue_links (sc_obj_q c)) by (unfold class_nodes; by rewrite Ec).
    rewrite Ec. cbn [rbind]. rewrite Hc in Hnd, Hno, Hok |- *. set (nodes := queue_links (sc_obj_q c)) in *.
    apply NoDup_app in Hnd as (Hnd1 & Hnd12 & Hnd2). apply NoDup_app in Hno as (Hno1 & Hno12 & Hno2). apply Forall_app in Hok as [Hok1 Hok2].
    destruct (free_all_spec (fun (st : slab_state) n => slab_at (ss_links st) n) (fun m st k => eq_refl) nodes (set_ss_blocks b1 st)
      (addr <$> nodes)) as (m & -> & Hm); [|done|].
    { apply Forall2_fmap_r, Forall_Forall2_diag. eapply Forall_impl; [exact Hok1|]. intros n (Hn & Hl & Ha & Ho).
      split_and!; [by apply slab_at_some|done|exact Ho]. }
    cbn [rbind]. rewrite (release_ok _ _ b2) by exact E2. cbn [rbind]. set (st1 := set_ss_blocks b2 _).
    destruct (IH st1 bs Hids Hlen Hbs) as (m' & lk & E & Hm'); [exact Hnd2|exact Hno2| |].
    { apply Forall_forall. intros n Hn. destruct (proj1 (Forall_forall _ _) Hok2 n Hn) as (Hp & Hl & Ha & Ho).
      split_and!; [done| |done|].
      - cbn. rewrite lookup_foldr_delete_not_elem_of; [exact Hl|]. intros Hin. by apply (Hnd12 n).
      - cbn. apply Hm. split; [exact Ho|]. intros Hin. apply (Hno12 _ Hin). by apply list_elem_of_fmap_2. }
    exists m', lk. split; [exact E|]. intros o. rewrite Hm'. cbn. rewrite Hm, elem_of_app. cbn. tauto.
Qed.

Lemma slab_obj_free_rel (st : slab_state) R L : obj_rel ssize n_total csize s0 ht0 [] st R L ->
  (exists s, free_chained_hashtable s0 ht0 = Ok s /\ objs s = ∅) ->
  exists st' s, slabObjLRU_free st = Ok (st', s) /\ ss_objs st' = ∅ /\ ss_slabs st' = ∅ /\ objs s = ∅ /\ ss_blocks st' = leaked_blocks.
Proof.
  intros H (s & Es & Hs). pose proof (or_rel _ _ _ _ _ _ _ _ _ H) as H0. destruct (all_nodes_spec _ _ _ H) as [Hnd Hin].
  destruct blocks_freed as (b1 & b2 & b3 & B1 & B2 & B3 & B4).
  assert (Hn : forall n, n ∈ all_nodes st -> exists x t sl i, x ∈ L /\ x.1 = n /\ 0 < n /\ n ∉ r_node <$> R /\
    ss_links st !! n = Some (node_data st n) /\
    0 < node_data st n /\ ss_objs st !! node_data st n = Some (mk_slab_obj x.2.1 x.2.2 t sl i)).
  { intros n (x & -> & Hx)%Hin%list_elem_of_fmap.
    destruct (link_row _ _ _ _ _ Hmax Hssize _ _ _ _ _ H Hx) as ((_ & Hp & Hnr) & R1 & r & R2 & i & o & t & _ & _ & _ & _ & _ & _ & Hl & Ho & Hobj).
    unfold node_data. rewrite Hl. cbn. eexists x, t, _, _. split_and!; [done|done|lia|exact Hnr|done|done|exact Hobj]. }
  unfold slabObjLRU_free. rewrite (free_slabs_spec _ _ _ _ _ Hmax Hssize _ _ _ _ _ H0 B1). cbn [rbind].
  destruct (free_obj_queues (node_data st) (seqZ 0 N_SLABCLASS) (set_ss_blocks b1 (free_links (r_node <$> R) (set_ss_slabs ∅ st))) b2)
    as (m & lk & E & Hm).
  - apply Forall_forall. intros id Hid%elem_of_seqZ. unfold N_SLABCLASS in Hid. lia.
  - apply (sr_classes _ _ _ _ _ _ _ _ _ H0).
  - exact B2.
  - exact Hnd.
  - apply (NoDup_fmap_2_strong (node_data st) (all_nodes st)); [|done].
    intros n n' (x & t & sl & i & Hx & <- & _ & _ & _ & _ & E1)%Hn (y & t' & sl' & i' & Hy & <- & _ & _ & _ & _ & E2)%Hn E.
    rewrite E, E2 in E1. injection E1 as E1 _ _ _ _. f_equal.
    apply (fmap_nodup_inj (fun x => x.2.1) L); [|done|done|done]. pose proof (or_ids _ _ _ _ _ Hmax Hssize _ _ _ _ H) as Hids.
    by rewrite <- list_fmap_compose in Hids.
  - apply Forall_forall. intros n Hn'. destruct (Hn n Hn') as (x & t & sl & i & _ & _ & Hp & Hnr & Hl & Ho & Hobj).
    split_and!; [done| |done|by eexists]. cbn. by rewrite lookup_foldr_delete_not_elem_of.
  - cbv zeta in E. rewrite E. cbn [rbind]. destruct (cache_freed _ _ _ _ _ Hmax Hssize _ st R _ m s H0 Hm) as [-> Ef]; [|done|].
    { intros e He. rewrite <- (or_perm _ _ _ _ _ _ _ _ _ H) in He. apply list_elem_of_fmap in He as (x & -> & Hx).
      destruct (proj1 (Forall_forall _ _) (or_links _ _ _ _ _ _ _ _ _ H) x Hx) as (Hl & Hp & _).
      unfold node_idx. rewrite Hl, (proj2 (Z.eqb_neq x.1 0)) by lia. apply (list_elem_of_fmap_2 (node_data st)), Hin. by apply list_elem_of_fmap_2. }
    rewrite (release_ok _ _ b3) by exact B3. cbn [rbind]. unfold free_cache_t.
    cbn [ss_cache set_ss_blocks set_ss_objs set_ss_slabs set_ss_links free_links]. rewrite Ef. cbn [rbind].
    rewrite (release_ok _ _ leaked_blocks) by exact B4. cbn [rbind]. eexists _, s. by split_and!.
Qed.

End destruction.

(** ** Runs *)

Lemma slab_obj_run_rel ssize n_total csize s0 ht0 last reqs : 0 < n_total < 2 ^ 64 -> 0 <= ssize < 2 ^ 32 ->
  forall (st : slab_state) R L a, obj_rel ssize n_total csize s0 ht0 [] st R L -> ocache_eqv (ocache_of R L) a -> storable_trace ssize reqs ->
  exists st' R' L', slabObjLRU_run last st reqs = Ok ((ocache_run ssize n_total (trace_of reqs) a).1, last, st') /\
    obj_rel ssize n_total csize s0 ht0 [] st' R' L' /\ ocache_eqv (ocache_of R' L') (ocache_run ssize n_total (trace_of reqs) a).2.
Proof.
  intros Hmax Hssize. induction reqs as [|req reqs IH]; intros st R L a H Ha Hreqs.
  - exists st, R, L. by split_and!.
  - apply Forall_cons in Hreqs as [Hreq Hreqs].
    destruct (obj_get_rel _ _ _ _ _ Hmax Hssize last st R L req H Hreq) as (st1 & R1 & L1 & E & H1 & Ha1).
    pose proof (obj_step_eqv ssize n_total (req_obj_id_int req, req_obj_size req) _ _ Ha) as Hs.
    destruct (IH st1 R1 L1 (obj_step ssize n_total (req_obj_id_int req, req_obj_size req) a) H1) as (st2 & R2 & L2 & E2 & H2 & Ha2); [|done|].
    { destruct Ha1 as [A1 A2], Hs as [B1 B2]. split; [by rewrite A1|by rewrite A2]. }
    cbn [slabObjLRU_run]. rewrite E. cbn [rbind]. rewrite E2. cbn [rbind]. exists st2, R2, L2.
    cbn [trace_of fmap list_fmap ocache_run]. fold (trace_of reqs). destruct Ha as [_ Hl]. cbn in Hl. rewrite Hl. cbn [fst].
    destruct (ocache_run ssize n_total (trace_of reqs) _) as [res a']. by split_and!.
Qed.

(** C23.  slabObjLRU, without moves of slabs between classes, implements its abstract cache. On
    every trace of objects that fit in a slab every request ends and no dangling pointer is
    followed; a miss that finds no room evicts the least recently used object of its slab class, or
    the least recently used slab when the class has no object. The bytes counted are those of the
    entries, at most those of the slabs. The destruction of the cache frees every object and every
    slab, once, and of what was allocated at its creation all but the cache_params and the slab_q of
    the 48 classes, which are leaked. The cache has at least 1 MiB and fewer than 2^63 bytes, a slab
    fewer than 2^32. *)
Theorem slab_obj_run_refines params ip seed last reqs :
  let ssize := slab_bytes ip in let n := p_cache_size params / MiB in
  let a := ocache_run ssize n (trace_of reqs) (mk_ocache [] []) in
  MiB <= p_cache_size params < 2 ^ 63 -> ssize < 2 ^ 32 -> init_strategy ip = no_automove -> storable_trace ssize reqs ->
  exists (st0 st st' : slab_state) s, slabObjLRU_init empty_store params ip seed = Ok st0 /\
    slabObjLRU_run last st0 reqs = Ok (a.1, last, st) /\
    occupied_size (st_cache (ss_cache st)) = u64 (total (oc_lru a.2)) /\ total (oc_lru a.2) <= n * ssize /\
    slabObjLRU_free st = Ok (st', s) /\ ss_objs st' = ∅ /\ ss_slabs st' = ∅ /\ objs s = ∅ /\
    ss_blocks st' = leaked_blocks.
Proof.
  intros ssize n a Hc Hs Hip Hreqs. pose proof (n_slabs_bounds params Hc : 0 < n < 2 ^ 64) as Hn.
  pose proof (slab_bytes_bounds ip Hs : 0 <= ssize < 2 ^ 32) as Hs0.
  destruct (slab_init_rel true params ip seed Hc) as (st0 & E0 & H0 & Hnew & Hq & Hstr & Hfree). fold ssize n in H0. rewrite Hip in Hstr.
  set (c0 := cache_struct_init empty_store params seed) in *.
  assert (H : obj_rel ssize n (p_cache_size params) (st_store c0) (c_hashtable (st_cache c0)) [] st0 [] []).
  { split; [apply H0|..]; try done; try constructor; [intros id; unfold node_idx; by rewrite Hnew|].
    intros c Hcl. exists g_queue_new. split; [by apply Hq|apply g_new_links]. }
  destruct (slab_obj_run_rel _ _ _ _ _ last reqs Hn Hs0 st0 [] [] (mk_ocache [] []) H) as (st & R & L & E & H' & [Ha Hl]); [by split|done|].
  destruct (slab_obj_free_rel _ _ _ _ _ Hn Hs0 st R L H' Hfree) as (st' & s & Ef & F1 & F2 & F3 & F4).
  assert (Ht : total (oc_lru a.2) = total (all_items (r_abs <$> R))).
  { apply total_perm. fold a in Hl. cbn in Hl. by rewrite <- Hl, (or_perm _ _ _ _ _ _ _ _ _ H'). }
  exists st0, st, st', s. split_and!; try done.
  - pose proof (sr_occupied _ _ _ _ _ _ _ _ _ (or_rel _ _ _ _ _ _ _ _ _ H')) as Hocc. unfold occupied in Hocc.
    rewrite Hocc, Ht. done.
  - rewrite Ht. cbn [oc_slabs ocache_of] in Ha. rewrite (total_perm _ _ (all_items_equiv _ _ Ha)). apply aslabs_total; [lia|]. apply ocache_run_wf; [lia|done|]. split; [constructor|cbn; lia].
Qed.

End runs.

(** ** A concrete cache *)

(** two slabs; an object is evicted for another of its class, then a slab for a new class *)
Definition obj_demo : list request :=
  [slab_req 1 1 600000; slab_req 2 2 500000; slab_req 3 3 500000; slab_req 4 2 500000; slab_req 5 4 500000; slab_req 6 3 500000;
   slab_req 7 5 100; slab_req 8 1 600000].

Lemma obj_demo_storable : storable_trace MiB obj_demo.
Proof. repeat (constructor; [split; [cbn; lia|by vm_compute]|]). constructor. Defined.

Lemma slab_obj_run_refines_witness :
  let a := ocache_run MiB 2 (trace_of obj_demo) (mk_ocache [] []) in
  a.1 = [cache_ck_miss; cache_ck_miss; cache_ck_miss; cache_ck_hit; cache_ck_miss; cache_ck_miss; cache_ck_miss; cache_ck_miss] /\
  exists (st0 st st' : sstate) s, slabObjLRU_init empty_store (slab_params_of 2500000) None 0 = Ok st0 /\
    slabObjLRU_run 0 st0 obj_demo = Ok (a.1, 0, st) /\
    occupied_size (st_cache (ss_cache st)) = u64 (total (oc_lru a.2)) /\ total (oc_lru a.2) <= 2 * MiB /\
    slabObjLRU_free st = Ok (st', s) /\ ss_objs st' = ∅ /\ ss_slabs st' = ∅ /\ objs s = ∅ /\
    ss_blocks st' = leaked_blocks.
Proof.
  split; [by vm_compute|].
  exact (slab_obj_run_refines (T := gmap Z Z) (Q := list Z) (D := list Z) (slab_params_of 2500000) None 0 0 obj_demo
    ltac:(cbn; unfold MiB; lia) eq_refl eq_refl obj_demo_storable).
Defined.
