(* ===== verification/HashTableThms.v ===== *)
(** * The chained hash table as a map

    A client that looks up, inserts an object that is absent and deletes one that is
    present, on the modelled table, against the same client on a finite map from object
    ids to sizes. *)

From S2P Require Import Prelude.
From S2P Require Import Store.
From S2P Require Import HashTable.
From S2P Require Import Reloc.
From S2P Require Import Buckets.
From S2P Require Import HashTableSpec.
From S2P Require Import Expand.
From S2P Require Import Policies.

Inductive table_op :=
  | OpFind (id : Z)
  | OpInsert (id size : Z)
  | OpDelete (id : Z).

Definition op_id (op : table_op) : Z := match op with OpFind id | OpInsert id _ | OpDelete id => id end.
Definition op_ok (op : table_op) : Prop := match op with OpInsert _ sz => 0 < sz < 2 ^ 32 | _ => True end.

Definition op_req (id size : Z) : request := mk_request 0 id size 0 0 None 0 0 OP_INVALID_int true.

(** the client on a map: the answer is the size of the object found *)
Definition map_step (m : gmap Z Z) (op : table_op) : option Z * gmap Z Z :=
  (m !! op_id op,
   match op with
   | OpFind _ => m
   | OpInsert id sz => if decide (m !! id = None) then <[id := sz]> m else m
   | OpDelete id => delete id m
   end).

Fixpoint map_run (m : gmap Z Z) (ops : list table_op) : list (option Z) * gmap Z Z :=
  match ops with
  | [] => ([], m)
  | op :: ops =>
      let '(r, m) := map_step m op in
      let '(rs, m) := map_run m ops in (r :: rs, m)
  end.

Section client.
  Variable hash : Z -> Z.

(** the client on the modelled table *)
Definition table_step (s : store) (ht : hashtable) (op : table_op) : result (option Z * hashtable * store) :=
  let req := op_req (op_id op) (match op with OpInsert _ sz => sz | _ => 1 end) in
  let! '(found, ht, req) := chained_hashtable_find hash s ht req in
  match found, op with
  | Some l, OpDelete _ =>
      let! o := deref s (Some l) in
      let! '(ht, s) := chained_hashtable_delete hash s ht l in
      Ok (Some (obj_size o), ht, s)
  | Some l, _ => let! o := deref s (Some l) in Ok (Some (obj_size o), ht, s)
  | None, OpInsert _ _ =>
      let! '(_, ht, s) := chained_hashtable_insert hash s ht req in Ok (None, ht, s)
  | None, _ => Ok (None, ht, s)
  end.

Fixpoint table_run (s : store) (ht : hashtable) (ops : list table_op)
    : result (list (option Z) * hashtable * store) :=
  match ops with
  | [] => Ok ([], ht, s)
  | op :: ops =>
      let! '(r, ht, s) := table_step s ht op in
      let! '(rs, ht, s) := table_run s ht ops in
      Ok (r :: rs, ht, s)
  end.

(** the objects [L] of the store, none of which is on a list, are the entries of the map *)
Record entries (s : store) (m : gmap Z Z) (L : list loc) : Prop := {
  en_live : forall l, l ∈ L -> exists o, objs s !! l = Some o /\ links o = (None, None);
  en_map : forall id sz, m !! id = Some sz <->
    exists l o, l ∈ L /\ objs s !! l = Some o /\ obj_id_int o = id /\ obj_size o = sz
}.

Lemma entries_linked s m L : entries s m L -> linked (objs s) L.
Proof.
  intros [Hlive _] l Hl. destruct (Hlive l Hl) as (o & Ho & E). exists o. injection E as E1 E2.
  split_and!; [done|by rewrite E1|by rewrite E2].
Qed.

Lemma held_relocated ht f s s' m L :
  entries s m L -> relocated ht f s s' L -> entries s' m (f <$> L).
Proof.
  intros [Hlive Hmap] [_ Ro _ _].
  assert (Hto : forall l o, l ∈ L -> objs s !! l = Some o -> exists o', objs s' !! f l = Some o' /\
    obj_id_int o' = obj_id_int o /\ obj_size o' = obj_size o /\ links o' = (None, None)).
  { intros l o Hl Ho. destruct (Ro l o Hl Ho) as (o' & Ho' & Hc & Hn & Hp). injection Hc as E1 E2 _.
    destruct (Hlive l Hl) as (o2 & Ho2 & E). assert (o2 = o) as -> by congruence. injection E as E3 E4.
    exists o'. unfold links. by rewrite Hn, Hp, E3, E4. }
  split.
  - intros l' (l & -> & Hl)%list_elem_of_fmap. destruct (Hlive l Hl) as (o & Ho & _).
    destruct (Hto l o Hl Ho) as (o' & Ho' & _ & _ & Hlk). eauto.
  - intros id sz. rewrite Hmap. split.
    + intros (l & o & Hl & Ho & <- & <-). destruct (Hto l o Hl Ho) as (o' & Ho' & E1 & E2 & _).
      exists (f l), o'. split_and!; [by apply list_elem_of_fmap_2|done..].
    + intros (l' & o' & (l & -> & Hl)%list_elem_of_fmap & Ho' & <- & <-). destruct (Hlive l Hl) as (o & Ho & _).
      destruct (Hto l o Hl Ho) as (o2 & Ho2 & E1 & E2 & _). assert (o2 = o') as -> by congruence. by exists l, o.
Qed.

(** the table holds the map *)
Record holds (s : store) (ht : hashtable) (m : gmap Z Z) (L : list loc) : Prop := {
  ho_ht : HT hash s ht L;
  ho_mon : monitored_ptrs ht = [];
  ho_entries : entries s m L
}.

Lemma holds_find s ht m L id sz :
  holds s ht m L -> 0 <= n_lookup ht < 2 ^ 64 - 1 ->
  exists r ht', chained_hashtable_find hash s ht (op_req id sz) = Ok (r, ht', set_req_hv (hash id) (op_req id sz)) /\
    holds s ht' m L /\ 0 <= n_lookup ht' <= n_lookup ht + 1 /\
    match r with
    | Some l => l ∈ L /\ exists o, objs s !! l = Some o /\ obj_id_int o = id /\ m !! id = Some (obj_size o)
    | None => m !! id = None
    end.
Proof.
  intros [HHT Hmon [Hlive Hmap]] Hn.
  assert (Hhv : req_hv (op_req id sz) = 0 \/ req_hv (op_req id sz) = hash (req_obj_id_int (op_req id sz))) by (by left).
  destruct (chained_hashtable_find_spec hash s ht L (op_req id sz) HHT Hhv Hn) as (r & ht' & req' & E & Hst & Hn' & Hq & Hr).
  exists r, ht'. rewrite E, Hq. split; [done|]. split; [split; [by eapply HT_same|by rewrite (st_mon _ _ Hst)|done]|].
  split; [done|]. destruct r as [l|].
  - destruct Hr as (Hl & o & Ho & Hid). split; [done|]. exists o. split_and!; [done..|]. apply Hmap. by exists l, o.
  - apply eq_None_not_Some. intros [sz' Hs]. apply Hmap in Hs as (l & o & Hl & Ho & Hid & _). by apply (Hr l o Hl Ho).
Qed.

Lemma holds_insert s ht m L req :
  holds s ht m L -> Z.of_nat (length L) < 2 ^ 60 -> 0 < req_obj_size req < 2 ^ 32 ->
  m !! req_obj_id_int req = None ->
  exists l ht' s' L', chained_hashtable_insert hash s ht req = Ok (l, ht', s') /\
    holds s' ht' (<[req_obj_id_int req := req_obj_size req]> m) L' /\ length L' = S (length L) /\
    n_lookup ht' = n_lookup ht.
Proof.
  intros [HHT Hmon He] Hlen Hsz Hm. pose proof (entries_linked _ _ _ He) as Hlk.
  assert (Hnew : forall l o, l ∈ L -> objs s !! l = Some o -> obj_id_int o <> req_obj_id_int req).
  { intros l o Hl Ho Hid. assert (m !! req_obj_id_int req = Some (obj_size o)) by (apply He; by exists l, o). congruence. }
  destruct (chained_hashtable_insert_spec hash s ht L req HHT Hlk Hlen Hsz Hnew) as (l & ht' & s' & f & E & HHT' & Hrel & Ho & Hfr & Hmon' & Hn).
  exists l, ht', s', (l :: (f <$> L)). split; [done|]. split; [|split; [simpl; by rewrite length_fmap|done]].
  destruct (held_relocated _ _ _ _ _ _ He Hrel) as [Hlive' Hmap']. split; [done|congruence|split].
  - intros x [->|Hx]%elem_of_cons; [by exists (new_obj_of req)|auto].
  - intros id sz. rewrite lookup_insert_Some, Hmap'. split.
    + intros [[<- <-]|[Hne (x & o & Hx & Hr)]]; [exists l, (new_obj_of req); split; [by left|done]|].
      exists x, o. split; [by right|done].
    + intros (x & o & [->|Hx]%elem_of_cons & Hox & <- & <-).
      * assert (o = new_obj_of req) as -> by congruence. by left.
      * right. split; [|by exists x, o]. intros Hid.
        assert (m !! obj_id_int o = Some (obj_size o)) by (apply Hmap'; by exists x, o). congruence.
Qed.

Lemma entries_remove s m l o L :
  entries s m (l :: L) -> ids_unique (objs s) (l :: L) -> l ∉ L -> objs s !! l = Some o ->
  entries s (delete (obj_id_int o) m) L.
Proof.
  intros [Hlive Hmap] Hids Hl Ho. split; [intros x Hx; apply Hlive; by right|].
  intros id sz. rewrite lookup_delete_Some, Hmap. split.
  - intros (Hne & x & ox & [->|Hx]%elem_of_cons & Hox & <- & <-); [congruence|by exists x, ox].
  - intros (x & ox & Hx & Hox & <- & <-). split; [|exists x, ox; split; [by right|done]]. intros Hid.
    assert (l = x) as -> by (eapply Hids; [by left|by right|done..]). done.
Qed.

Lemma holds_delete s ht m L l o :
  holds s ht m L -> Z.of_nat (length L) < 2 ^ 60 -> l ∈ L -> objs s !! l = Some o ->
  exists ht' s' L', chained_hashtable_delete hash s ht l = Ok (ht', s') /\
    holds s' ht' (delete (obj_id_int o) m) L' /\ (length L' <= length L)%nat /\ n_lookup ht' = n_lookup ht.
Proof.
  intros [HHT Hmon He] Hlen Hl Ho. apply elem_of_Permutation in Hl as [L0 HL].
  apply (HT_perm hash s ht L (l :: L0) HL) in HHT.
  assert (He0 : entries s m (l :: L0)) by (destruct He as [H1 H2]; split; setoid_rewrite HL in H1; setoid_rewrite HL in H2; done).
  assert (Hnd : NoDup (l :: L0) /\ ids_unique (objs s) (l :: L0)) by (destruct HHT as (B & []); done).
  destruct Hnd as [[Hl0 _]%NoDup_cons Hids]. pose proof (entries_remove _ _ _ _ _ He0 Hids Hl0 Ho) as He1.
  destruct (en_live _ _ _ He0 l) as (o' & Ho' & Hlk); [by left|]. assert (o' = o) as -> by congruence. injection Hlk as E1 E2.
  assert (Hdet : detached ht s l).
  { split; [intros o' a Ho2 ?; congruence..|]. rewrite Hmon. by intros c ?%not_elem_of_nil. }
  assert (HlenL : length L = S (length L0)) by (by rewrite HL).
  destruct (chained_hashtable_delete_spec hash s ht L0 l HHT (entries_linked _ _ _ He1) Hdet) as (ht' & s' & f & E & HHT' & Hrel & Hmon' & Hn); [lia|].
  exists ht', s', (f <$> L0). split; [done|]. split; [|split; [rewrite length_fmap; lia|done]].
  split; [done|congruence|by eapply held_relocated].
Qed.

Lemma table_step_spec s ht m L op n :
  holds s ht m L -> op_ok op -> 0 <= n_lookup ht <= n -> Z.of_nat (length L) <= n -> n < 2 ^ 60 ->
  exists ht' s' L', table_step s ht op = Ok ((map_step m op).1, ht', s') /\
    holds s' ht' (map_step m op).2 L' /\ 0 <= n_lookup ht' <= n + 1 /\ Z.of_nat (length L') <= n + 1.
Proof.
  intros H Hok Hn HL Hb. unfold table_step.
  destruct (holds_find s ht m L (op_id op) (match op with OpInsert _ sz => sz | _ => 1 end) H) as (r & ht1 & -> & H1 & Hn1 & Hr); [lia|].
  cbn [rbind map_step fst snd]. destruct r as [l|].
  - destruct Hr as (Hl & o & Ho & Hid & Hm). rewrite (deref_Some _ _ _ Ho). cbn [rbind]. rewrite Hm.
    destruct op as [id|id sz|id]; cbn [op_id] in *.
    + exists ht1, s, L. split_and!; (done || lia).
    + rewrite decide_False by (by rewrite Hm). exists ht1, s, L. split_and!; (done || lia).
    + destruct (holds_delete s ht1 m L l o H1) as (ht2 & s2 & L2 & -> & H2 & Hlen & Hn2); [lia|done|done|].
      cbn [rbind]. rewrite <- Hid. exists ht2, s2, L2. split_and!; (done || lia).
  - rewrite Hr. destruct op as [id|id sz|id]; cbn [op_id] in *.
    + exists ht1, s, L. split_and!; (done || lia).
    + rewrite decide_True by done.
      destruct (holds_insert s ht1 m L (set_req_hv (hash id) (op_req id sz)) H1) as (l & ht2 & s2 & L2 & -> & H2 & Hlen & Hn2);
        [lia|done|done|]. cbn [rbind]. exists ht2, s2, L2. split_and!; (done || lia).
    + rewrite delete_id by done. exists ht1, s, L. split_and!; (done || lia).
Qed.

Lemma table_run_spec ops : forall s ht m L n,
  holds s ht m L -> Forall op_ok ops -> 0 <= n_lookup ht <= n -> Z.of_nat (length L) <= n ->
  n + Z.of_nat (length ops) < 2 ^ 60 ->
  exists ht' s' L', table_run s ht ops = Ok ((map_run m ops).1, ht', s') /\ holds s' ht' (map_run m ops).2 L'.
Proof.
  induction ops as [|op ops IH]; intros s ht m L n H Hok Hn HL Hb; cbn [table_run map_run].
  - by exists ht, s, L.
  - apply Forall_cons in Hok as [Hop Hok]. cbn [length] in Hb.
    destruct (table_step_spec s ht m L op n H Hop Hn HL) as (ht1 & s1 & L1 & E & H1 & Hn1 & HL1); [lia|].
    rewrite E. cbn [rbind]. destruct (map_step m op) as [r m1]. cbn [fst snd] in *.
    destruct (IH s1 ht1 m1 L1 (n + 1) H1 Hok Hn1 HL1) as (ht2 & s2 & L2 & E2 & H2); [lia|]. rewrite E2.
    cbn [rbind]. destruct (map_run m1 ops) as [rs m2]. by exists ht2, s2, L2.
Qed.

(** the identifier and the size of an object *)
Definition entry_at (s : store) (l : loc) (e : Z * Z) : Prop :=
  exists o, objs s !! l = Some o /\ e = (obj_id_int o, obj_size o).

Lemma holds_elements s ht m L L' : holds s ht m L -> L' ≡ₚ L ->
  exists es, Forall2 (entry_at s) L' es /\ es ≡ₚ map_to_list m.
Proof.
  intros [HHT _ [Hlive Hmap]] HP. pose (g := fun l => let o := default zero_obj (objs s !! l) in (obj_id_int o, obj_size o)).
  assert (Hg : forall l, l ∈ L' -> entry_at s l (g l)).
  { intros l Hl. rewrite HP in Hl. destruct (Hlive l Hl) as (o & Ho & _). exists o. unfold g. by rewrite Ho. }
  exists (g <$> L'). split.
  { apply Forall2_fmap_r, Forall_Forall2_diag, Forall_forall. exact Hg. }
  assert (Hnd : NoDup L /\ ids_unique (objs s) L) by (destruct HHT as (B & []); done). destruct Hnd as [Hnd Hids].
  apply NoDup_Permutation.
  - apply NoDup_fmap_2_strong; [|by rewrite HP]. intros x y Hx Hy E.
    destruct (Hg x Hx) as (ox & Hox & Ex). destruct (Hg y Hy) as (oy & Hoy & Ey). rewrite HP in Hx, Hy.
    rewrite Ex, Ey in E. injection E as E _. by eapply Hids.
  - apply NoDup_map_to_list.
  - intros [id sz]. rewrite elem_of_map_to_list, Hmap, list_elem_of_fmap. split.
    + intros (l & E & Hl). destruct (Hg l Hl) as (o & Ho & Eg). rewrite Eg in E. injection E as -> ->.
      exists l, o. by rewrite <- HP.
    + intros (l & o & Hl & Ho & <- & <-). exists l. rewrite HP. split; [|done]. unfold g. by rewrite Ho.
Qed.

(** C10.  A table that starts empty answers every sequence of lookups, insertions and deletions as a
    finite map does, for every hash function, through every growth of the table and every move of
    its objects. Afterwards its count is the number of entries, its integrity check passes, the
    iteration visits each entry once, and freeing it leaves no memory allocated. The table starts
    with at most 2^40 buckets, the objects have sizes from 1 to 2^32 - 1, and there are fewer than
    2^60 operations. *)
Theorem hashtable_refines_map p ops :
  0 <= p <= 40 -> Forall op_ok ops -> Z.of_nat (length ops) < 2 ^ 60 ->
  exists ht s,
    table_run (create_chained_hashtable empty_store p).2 (create_chained_hashtable empty_store p).1 ops =
      Ok ((map_run ∅ ops).1, ht, s) /\
    n_cur_item ht = Z.of_nat (size (map_run ∅ ops).2) /\
    check_chained_hashtable_integrity hash s ht = Ok tt /\
    (exists L es, chained_hashtable_foreach s ht = Ok L /\ Forall2 (entry_at s) L es /\
       es ≡ₚ map_to_list (map_run ∅ ops).2) /\
    (exists s', free_chained_hashtable s ht = Ok s' /\ objs s' = ∅).
Proof.
  intros Hp Hok Hlen. pose proof (new_table_HT hash empty_store p Hp eq_refl) as H0.
  destruct (create_chained_hashtable empty_store p) as [ht0 s0]. destruct H0 as (H0 & _ & Hm & Hn). cbn [fst snd].
  destruct (table_run_spec ops s0 ht0 ∅ [] 0) as (ht & s & L & E & H).
  { split; [done|done|]. split; [by intros l ?%not_elem_of_nil|]. intros id sz. rewrite lookup_empty. split; [done|].
    by intros (l & o & ?%not_elem_of_nil & _). }
  { done. } { lia. } { simpl; lia. } { lia. }
  set (m := (map_run ∅ ops).2) in *. pose proof (ho_ht _ _ _ _ H) as HHT.
  destruct (chained_hashtable_foreach_spec hash s ht L HHT) as (L' & EL & HP).
  destruct (holds_elements s ht m L L' H HP) as (es & Hes & Hm2).
  exists ht, s. split; [done|]. split; [|split; [by eapply check_chained_hashtable_integrity_spec|split; [by exists L', es|]]].
  - assert (n_cur_item ht = Z.of_nat (length L)) as -> by (destruct HHT as (B & []); done).
    rewrite <- length_map_to_list, <- Hm2, <- (Forall2_length _ _ _ Hes). by rewrite HP.
  - by eapply free_chained_hashtable_spec.
Qed.

End client.

(** every object in one bucket, and enough objects to make the table grow *)
Definition demo_ops : list table_op :=
  [OpInsert 1 10; OpInsert 2 20; OpInsert 3 30; OpFind 2; OpInsert 4 40; OpInsert 5 50; OpDelete 1;
   OpFind 1; OpInsert 1 11; OpInsert 6 60; OpDelete 7; OpFind 6; OpInsert 2 99; OpFind 2].

Lemma hashtable_refines_map_witness :
  exists ht s, table_run (fun _ => 0) (create_chained_hashtable empty_store 1).2 (create_chained_hashtable empty_store 1).1 demo_ops =
    Ok ([None; None; None; Some 20; None; None; Some 10; None; None; None; None; Some 60; Some 20; Some 20], ht, s) /\
    n_cur_item ht = 6.
Proof.
  destruct (hashtable_refines_map (fun _ => 0) 1 demo_ops) as (ht & s & E & Hn & _).
  - lia.
  - repeat constructor.
  - reflexivity.
  - exists ht, s. split; [exact E|]. rewrite Hn. vm_compute. reflexivity.
Defined.
