(* ===== verification/SplayThms.v ===== *)
(** * The splay tree as a sorted set with ranks, and its two splaying routines

    A client of insert, splay_delete and splay against the same client on a finite set;
    the sizes stored in the nodes give the rank of a key; and sedgewickized_splay builds
    the tree that splay builds, sizes apart. *)

From S2P Require Import Prelude.
From S2P Require Import Splay.

(** ** splay against sedgewickized_splay *)

(** the tree without its sizes *)
Fixpoint shape (t : sTree) : sTree :=
  match t with Leaf => Leaf | Node l k _ r => Node (shape l) k 0 (shape r) end.

Definition same_left (a : sTree * Z) (b : sTree * Z * Z) : Prop := shape a.1 = shape b.1.1 /\ a.2 = b.1.2.
Definition same_right (a : Z * sTree) (b : Z * Z * sTree) : Prop := a.1 = b.1.1 /\ shape a.2 = shape b.2.

(** results that are related, or the same error *)
Definition result_rel {A B} (R : A -> B -> Prop) (x : result A) (y : result B) : Prop :=
  match x, y with Ok a, Ok b => R a b | Err e, Err e' => e = e' | _, _ => False end.

Definition same_loop (x : splay_state * sTree) (y : list (sTree * Z * Z) * list (Z * Z * sTree) * sTree) : Prop :=
  let '(st, t) := x in let '(ls, rs, t') := y in
  Forall2 same_left (sp_l st) ls /\ Forall2 same_right (sp_r st) rs /\ shape t = shape t'.

Lemma loops_agree fuel i : forall t t' st ls rs,
  near i t -> shape t = shape t' -> Forall2 same_left (sp_l st) ls -> Forall2 same_right (sp_r st) rs ->
  result_rel same_loop (splay_loop fuel i t st) (sedgewick_loop fuel i t' ls rs).
Proof.
  induction fuel as [|fuel IH]; intros t t' st ls rs Hn Ht Hl Hr; [done|].
  destruct t as [|lf k v rg], t' as [|lf' k' v' rg']; simpl in Ht; try done.
  injection Ht as Hlf -> Hrg. cbn [splay_loop sedgewick_loop].
  apply near_node in Hn as (Hnk & Hnl & Hnr). rewrite (key_cmp_comparable i k') by done.
  replace (i - k' <? 0) with (i <? k') by (destruct (Z.ltb_spec i k'), (Z.ltb_spec (i - k') 0); lia).
  replace (i - k' >? 0) with (i >? k') by (rewrite !Z.gtb_ltb; destruct (Z.ltb_spec k' i), (Z.ltb_spec 0 (i - k')); lia).
  destruct (i <? k').
  - destruct lf as [|yl yk yv yr], lf' as [|yl' yk' yv' yr']; simpl in Hlf; try done.
    + cbn. split_and!; [done|done|]. by rewrite Hrg.
    + injection Hlf as Hyl -> Hyr. pose proof Hnl as (Hny & Hnyl & Hnyr)%near_node.
      rewrite (key_cmp_comparable i yk') by done.
      replace (i - yk' <? 0) with (i <? yk') by (destruct (Z.ltb_spec i yk'), (Z.ltb_spec (i - yk') 0); lia).
      destruct (i <? yk').
      * destruct yl as [|yll ylk ylv ylr], yl' as [|yll' ylk' ylv' ylr']; simpl in Hyl; try done.
        -- cbn. by rewrite Hyr, Hrg.
        -- apply IH; [done|done|done|]. cbn [sp_r]. apply Forall2_app; [done|]. constructor; [|done]. split; [done|]. cbn. by rewrite Hyr, Hrg.
      * apply IH; [done|simpl; by rewrite Hyl, Hyr|done|]. cbn [sp_r]. apply Forall2_app; [done|]. by constructor.
  - destruct (i >? k'); [|cbn; by rewrite Hlf, Hrg].
    destruct rg as [|yl yk yv yr], rg' as [|yl' yk' yv' yr']; simpl in Hrg; try done.
    + cbn. split_and!; [done|done|]. by rewrite Hlf.
    + injection Hrg as Hyl -> Hyr. pose proof Hnr as (Hny & Hnyl & Hnyr)%near_node.
      rewrite (key_cmp_comparable i yk') by done.
      replace (i - yk' >? 0) with (i >? yk') by (rewrite !Z.gtb_ltb; destruct (Z.ltb_spec yk' i), (Z.ltb_spec 0 (i - yk')); lia).
      destruct (i >? yk').
      * destruct yr as [|yll ylk ylv ylr], yr' as [|yll' ylk' ylv' ylr']; simpl in Hyr; try done.
        -- cbn. by rewrite Hyl, Hlf.
        -- apply IH; [done|done| |done]. cbn [sp_l]. apply Forall2_app; [done|]. constructor; [|done]. split; [|done]. cbn. by rewrite Hyl, Hlf.
      * apply IH; [done|simpl; by rewrite Hyl, Hyr| |done]. cbn [sp_l]. apply Forall2_app; [done|]. by constructor.
Qed.

Lemma assemble_l_shape l ls : Forall2 same_left l ls -> forall n t t', shape t = shape t' ->
  shape (assemble_l l n t) = shape (foldr (fun '(l, k, v) t => Node l k v t) t' ls).
Proof.
  induction 1 as [|[lf k] [[lf' k'] v'] l ls [Hlf Hk] Hl IH]; intros n t t' Ht; cbn [assemble_l foldr]; [done|].
  cbn in Hlf, Hk. cbn [shape]. by rewrite Hlf, Hk, (IH _ _ t').
Qed.

Lemma assemble_r_shape r rs : Forall2 same_right r rs -> forall n t t', shape t = shape t' ->
  shape (assemble_r r n t) = shape (foldr (fun '(k, v, r) t => Node t k v r) t' rs).
Proof.
  induction 1 as [|[k rg] [[k' v'] rg'] r rs [Hk Hrg] Hl IH]; intros n t t' Ht; cbn [assemble_r foldr]; [done|].
  cbn in Hrg, Hk. cbn [shape]. by rewrite Hrg, Hk, (IH _ _ t').
Qed.

(** C37.  The comment above sedgewickized_splay says that it does the same thing as splay.  For a
    key that fits its int parameter, and a tree whose keys are less than 2^63 away from it
    (so that key_cmp does not overflow in splay), the two routines build the same tree,
    except for the sizes in the nodes, which sedgewickized_splay leaves as they were. *)
Theorem sedgewickized_splay_agrees i t :
  sized t -> - 2 ^ 31 <= i < 2 ^ 31 -> near i t ->
  exists t1 t2, splay i t = Ok t1 /\ sedgewickized_splay i t = Ok t2 /\ shape t1 = shape t2.
Proof.
  intros Ht Hint Hn. destruct t as [|lf k v rg] eqn:Et; [by exists Leaf, Leaf|]. rewrite <- Et in *.
  destruct (splay_spec i t Ht) as (l & k' & v' & r & E & _); [by rewrite Et|done|].
  assert (H : result_rel (fun a b => shape a = shape b) (splay i t) (sedgewickized_splay i t)).
  { pose proof (loops_agree (S (size t)) i t t (mk_sp [] [] 0 0) [] [] Hn eq_refl (Forall2_nil_2 _ _ _) (Forall2_nil_2 _ _ _)) as H.
    rewrite Et in *. unfold splay, sedgewickized_splay, i32. rewrite (swrap_small 32 i) by lia.
    destruct (splay_loop _ _ _ _) as [[st a]|], (sedgewick_loop _ _ _ _ _) as [[[ls rs] b]|]; try done.
    destruct H as (Hl & Hr & Hab). cbn [rbind].
    destruct a as [|al ak av ar], b as [|bl bk bv br]; simpl in Hab; try done. injection Hab as H1 -> H2.
    cbn [result_rel shape]. f_equal; [by apply assemble_l_shape|by apply assemble_r_shape]. }
  rewrite E in *. destruct (sedgewickized_splay i t) as [t2|]; [|done]. eauto.
Qed.

(** ** The tree as a sorted set *)

Inductive tree_op := TInsert (i : Z) | TDelete (i : Z) | TSplay (i : Z).

Definition tree_step (t : sTree) (op : tree_op) : result sTree :=
  match op with TInsert i => insert i t | TDelete i => splay_delete i t | TSplay i => splay i t end.

Definition tree_run (t : sTree) (ops : list tree_op) : result sTree := rfold tree_step ops t.

Definition set_step (X : gset Z) (op : tree_op) : gset Z :=
  match op with TInsert i => {[i]} ∪ X | TDelete i => X ∖ {[i]} | TSplay _ => X end.

Definition op_key (op : tree_op) : Z := match op with TInsert i | TDelete i | TSplay i => i end.

(** the tree is sized and its keys are the elements of the set, in order *)
Record tree_of (X : gset Z) (t : sTree) : Prop := {
  to_sized : sized t;
  to_sorted : sorted (keys t);
  to_keys : forall x, x ∈ keys t <-> x ∈ X
}.

Lemma sorted_split i (l : list Z) : i ∈ l -> exists a b, l = a ++ i :: b.
Proof. intros H. by apply list_elem_of_split. Qed.

(** the elements of the set are in the window *)
Definition set_in_window (lo : Z) (X : gset Z) : Prop := forall x, x ∈ X -> in_window lo x.

Lemma tree_of_near lo X t i : tree_of X t -> set_in_window lo X -> in_window lo i -> near i t.
Proof.
  intros [_ _ Hk] HX Hi. apply (in_window_near lo); [done|]. apply Forall_forall. intros x Hx. by apply HX, Hk.
Qed.

Lemma set_step_window lo X op :
  set_in_window lo X -> in_window lo (op_key op) -> set_in_window lo (set_step X op).
Proof. unfold set_in_window. intros HX Hi x. destruct op; cbn in *; set_solver. Qed.

Lemma tree_step_spec X t op : tree_of X t -> near (op_key op) t -> exists t', tree_step t op = Ok t' /\ tree_of (set_step X op) t'.
Proof.
  intros [Hz Hs Hk] Hn. destruct op as [i|i|i]; cbn [tree_step set_step op_key] in *.
  - destruct (insert_spec i t Hz Hs Hn) as (t' & a & b & E & Hz' & Hk' & Hor & Hs'). exists t'. split; [done|]. split; [done|done|].
    intros x. rewrite Hk'. rewrite elem_of_union, elem_of_singleton, <- Hk. destruct Hor as [-> | ->]; set_solver.
  - destruct (splay_delete_spec i t Hz Hs Hn) as (t' & E & Hz' & Hout & Hin). exists t'. split; [done|].
    destruct (decide (i ∈ keys t)) as [Hi|Hi].
    + destruct (sorted_split _ _ Hi) as (a & b & Eab). rewrite (Hin a b Eab) in *. rewrite Eab in Hs.
      pose proof (sorted_mid _ _ _ Hs) as [Ha Hb]. split; [done| |].
      * rewrite (Hin a b Eab). apply sorted_app in Hs as (S1 & S2 & S3). apply sorted_app. split; [done|].
        apply StronglySorted_inv in S2 as [S2 _]. split; [done|]. intros x y Hx Hy. apply S3; [done|by right].
      * intros x. rewrite (Hin a b Eab), elem_of_difference, elem_of_singleton, <- Hk, Eab, !elem_of_app, elem_of_cons.
        split; [|naive_solver]. intros [Hx|Hx]; [specialize (Ha x Hx)|specialize (Hb x Hx)]; (split; [tauto|lia]).
    + rewrite Hout in * by done. split; [done|by rewrite Hout|]. intros x. rewrite Hout, Hk by done. set_solver.
  - destruct t as [|l k v r] eqn:Et; [by exists Leaf|]. rewrite <- Et in *.
    destruct (splay_spec i t Hz) as (l' & k' & v' & r' & E & Ek & Hz' & _); [by rewrite Et|done|].
    exists (Node l' k' v' r'). split; [done|]. split; [done|cbn [keys]; by rewrite Ek|]. intros x. cbn [keys]. by rewrite Ek.
Qed.

Lemma tree_run_spec lo ops : forall X t, tree_of X t -> set_in_window lo X ->
  Forall (fun op => in_window lo (op_key op)) ops ->
  exists t', tree_run t ops = Ok t' /\ tree_of (fold_left set_step ops X) t'.
Proof.
  induction ops as [|op ops IH]; intros X t H HX Hops; [by exists t|].
  apply Forall_cons in Hops as [Hop Hops].
  destruct (tree_step_spec X t op H) as (t1 & E & H1); [by eapply tree_of_near|].
  destruct (IH _ _ H1) as (t2 & E2 & H2); [by apply set_step_window|done|].
  exists t2. split; [|done]. unfold tree_run in *. cbn [rfold]. by rewrite E.
Qed.

Lemma sorted_nodup l : sorted l -> NoDup l.
Proof.
  induction 1 as [|x l Hs IH Hx]; [constructor|]. constructor; [|done]. intros Hin.
  rewrite Forall_forall in Hx. specialize (Hx x Hin). lia.
Qed.

Lemma keys_size X t : tree_of X t -> node_value t = Z.of_nat (base.size X).
Proof.
  intros [Hz Hs Hk]. rewrite sized_value by done. unfold len. f_equal.
  rewrite <- (size_list_to_set (C := gset Z) (keys t)) by (by apply sorted_nodup). f_equal.
  apply set_eq. intros x. by rewrite elem_of_list_to_set.
Qed.

(** C36.  Insertions, deletions and splays from the empty tree never fail, and the tree is the
    set of the keys inserted and not deleted: its keys are in order, the size in its root
    is the number of elements, and check_sTree accepts every node.  The keys are long longs
    of a window of 2^63 consecutive values, as the timestamps of the profiler are: two keys
    further apart make the difference in key_cmp overflow. *)
Theorem splay_tree_is_sorted_set lo ops :
  Forall (fun op => in_window lo (op_key op)) ops ->
  let X := fold_left set_step ops ∅ in
  exists t, tree_run Leaf ops = Ok t /\ sorted (keys t) /\ (forall x, x ∈ keys t <-> x ∈ X) /\
    node_value t = Z.of_nat (base.size X) /\ check_sTree t = true.
Proof.
  cbv zeta. intros Hops. destruct (tree_run_spec lo ops ∅ Leaf) as (t & E & H); [|by intros x ?%not_elem_of_empty|done|].
  { split; [done|constructor|]. intros x. split; [by intros ?%not_elem_of_nil|set_solver]. }
  exists t. pose proof (keys_size _ _ H) as Hn. destruct H as [Hz Hs Hk]. split_and!; try done. by apply check_sTree_spec.
Qed.

(** Beyond the window the difference wraps around and the tree is out of order: the largest
    key goes to the left of the smallest one. *)
Example key_cmp_overflows :
  key_cmp (2 ^ 63 - 1) (- 2 ^ 63) = -1 /\
  tree_run Leaf [TInsert (- 2 ^ 63); TInsert (2 ^ 63 - 1)]
    = Ok (Node Leaf (2 ^ 63 - 1) 2 (Node Leaf (- 2 ^ 63) 1 Leaf)).
Proof. split; vm_compute; reflexivity. Qed.

(** A key that is no int: splay brings it to the root, sedgewickized_splay looks for its low
    32 bits. *)
Example sedgewickized_splay_truncates :
  let t := Node (Node Leaf 7 1 Leaf) (2 ^ 32 + 7) 2 Leaf in
  splay (2 ^ 32 + 7) t = Ok t /\
  sedgewickized_splay (2 ^ 32 + 7) t = Ok (Node Leaf 7 1 (Node Leaf (2 ^ 32 + 7) 2 Leaf)).
Proof. split; vm_compute; reflexivity. Qed.

(** Splaying for a key of the tree gives its rank: the key is at the root, the size stored
    in the right child counts the larger keys and the one in the left child the smaller
    ones, and the keys are the same. *)
Theorem splay_rank X t i :
  tree_of X t -> near i t -> i ∈ X ->
  exists l r, splay i t = Ok (Node l i (Z.of_nat (base.size X)) r) /\
    keys (Node l i (Z.of_nat (base.size X)) r) = keys t /\
    node_value r = Z.of_nat (base.size (filter (fun x => i < x) X)) /\
    node_value l = Z.of_nat (base.size (filter (fun x => x < i) X)).
Proof.
  intros H Hn Hi. pose proof H as [Hz Hs Hk].
  assert (Hne : t <> Leaf) by (intros ->; apply Hk in Hi; by apply not_elem_of_nil in Hi).
  destruct (splay_spec i t Hz Hne Hn) as (l & k & v & r & E & Ek & Hz' & Hsp).
  destruct (Hsp Hs) as (Hroot & Hl & Hr). rewrite Hroot in * by (by apply Hk).
  destruct Hz' as (Hv & Hzl & Hzr). pose proof Hs as Hs2. rewrite <- Ek in Hs2.
  apply sorted_app in Hs2 as (Sl & Sr & _). apply StronglySorted_inv in Sr as [Sr _].
  assert (Hkeys : forall x, x ∈ X <-> x ∈ keys l \/ x = i \/ x ∈ keys r).
  { intros x. rewrite <- Hk, <- Ek, elem_of_app, elem_of_cons. tauto. }
  assert (Hsize : v = Z.of_nat (base.size X)).
  { rewrite <- (keys_size _ _ H), sized_value by done. rewrite <- Ek, Hv. unfold len. rewrite length_app. simpl. lia. }
  exists l, r. rewrite <- Hsize. split_and!; [done|done| |].
  - apply (keys_size (filter (fun x => i < x) X) r). split; [done|done|]. intros x. rewrite elem_of_filter, Hkeys.
    split; [by auto|]. intros [Hx [Hl'|[->|Hr']]]; [specialize (Hl x Hl'); lia|lia|done].
  - apply (keys_size (filter (fun x => x < i) X) l). split; [done|done|]. intros x. rewrite elem_of_filter, Hkeys.
    split; [by auto|]. intros [Hx [Hl'|[->|Hr']]]; [done|lia|specialize (Hr x Hr'); lia].
Qed.

Definition demo_tree : sTree :=
  match tree_run Leaf [TInsert 5; TInsert 2; TInsert 9; TInsert 7; TDelete 2; TInsert 1] with Ok t => t | Err _ => Leaf end.

Lemma demo_tree_of : tree_of {[1; 5; 7; 9]} demo_tree.
Proof.
  split; [by vm_compute|vm_compute; repeat constructor|]. intros x. vm_compute keys. set_solver.
Qed.

Lemma splay_rank_witness :
  exists l r, splay 7 demo_tree = Ok (Node l 7 4 r) /\ node_value r = 1 /\ node_value l = 2.
Proof.
  destruct (splay_rank {[1; 5; 7; 9]} demo_tree 7) as (l & r & E & _ & Hr & Hl); [apply demo_tree_of|by apply (bool_decide_unpack (near 7 demo_tree)); vm_compute|set_solver|].
  exists l, r. split; [exact E|]. split; [exact Hr|exact Hl].
Defined.

Lemma sedgewickized_splay_agrees_witness :
  exists t1 t2, splay 5 demo_tree = Ok t1 /\ sedgewickized_splay 5 demo_tree = Ok t2 /\ shape t1 = shape t2.
Proof.
  apply (sedgewickized_splay_agrees 5 demo_tree);
    [vm_compute; repeat constructor|lia|by apply (bool_decide_unpack (near 5 demo_tree)); vm_compute].
Defined.

Lemma splay_tree_is_sorted_set_witness :
  exists t, tree_run Leaf [TInsert 5; TInsert (- 2 ^ 62); TInsert 9; TDelete 5; TSplay 7] = Ok t /\
    sorted (keys t) /\ node_value t = 2.
Proof.
  destruct (splay_tree_is_sorted_set (- 2 ^ 62) [TInsert 5; TInsert (- 2 ^ 62); TInsert 9; TDelete 5; TSplay 7])
    as (t & E & Hs & _ & Hn & _).
  - unfold in_window. repeat (apply Forall_cons; split; [cbn; lia|]). by apply Forall_nil.
  - exists t. split_and!; [exact E|exact Hs|]. rewrite Hn. by vm_compute.
Defined.
