(* ===== verification/TextReaderSpec.v ===== *)
(** * Correctness of the text trace readers *)

From Stdlib Require Import Ascii.
From S2P Require Import Prelude.
From S2P Require Import Store.
From S2P Require Import LibCsv.
From S2P Require Import ReaderBase.
From S2P Require Import BinReader.
From S2P Require Import Reader.

Abbreviation len l := (Z.of_nat (length l)).

(** ** The bytes of the mapping *)

Lemma mapping_from_at r pre rest :
  mapped_file r = pre ++ rest -> exists pad, mapping_from r (len pre) = rest ++ pad.
Proof.
  intros Hf. unfold mapping_from, file_size. rewrite Hf.
  exists (replicate (Z.to_nat (- len (pre ++ rest) mod PAGE_SIZE)) 0).
  rewrite length_app. unfold PAGE_SIZE. destruct (Z.leb_spec (len pre) (Z.of_nat (length pre + length rest) + 4096)); [|lia].
  rewrite Nat2Z.id, <- app_assoc. by rewrite drop_app_length.
Qed.

Lemma read_bytes_at r pre b rest off n :
  mapped_file r = pre ++ b ++ rest -> off = len pre -> n = len b -> read_bytes r off n = Ok b.
Proof.
  intros Hf -> ->. destruct (mapping_from_at r pre (b ++ rest) Hf) as [pad Hm].
  unfold read_bytes. rewrite Hm, Nat2Z.id, <- app_assoc, take_app_length.
  by rewrite Z.eqb_refl, !(proj2 (Z.leb_le 0 _)) by lia.
Qed.

Lemma memchr_found t c rest n : c ∉ t -> (length t < n)%nat -> memchr (t ++ c :: rest) c n = Ok (Some (len t)).
Proof.
  revert n. induction t as [|b t IH]; intros [|n] Hc Hn; try (simpl in Hn; lia).
  - cbn [memchr app]. by rewrite Z.eqb_refl.
  - apply not_elem_of_cons in Hc as [Hb Hc]. cbn [memchr app]. rewrite (proj2 (Z.eqb_neq b c)) by congruence.
    rewrite IH by (done || (simpl in Hn; lia)). cbn [rbind length]. do 2 f_equal. lia.
Qed.

Lemma memchr_absent t c rest : c ∉ t -> memchr (t ++ rest) c (length t) = Ok None.
Proof.
  induction t as [|b t IH]; intros Hc; [by destruct rest|]. apply not_elem_of_cons in Hc as [Hb Hc].
  cbn [memchr app length]. rewrite (proj2 (Z.eqb_neq b c)) by congruence. by rewrite IH.
Qed.

(** ** find_line_ending *)

(** a line that ends with a line feed, followed by a byte that is not white space or by
    nothing *)
Lemma find_line_lf r pre t rest :
  mapped_file r = pre ++ t ++ CSV_LF :: rest -> mmap_offset r = len pre -> len (mapped_file r) < 2 ^ 62 ->
  CSV_LF ∉ t -> len t < MAX_LINE_LEN -> (forall c, head rest = Some c -> blank c = false) ->
  find_line_ending r =
    Ok (match rest with [] => true | _ => false end, set_item_size (len t) r,
        len pre + len t + (match rest with [] => 0 | _ => 1 end), len t).
Proof.
  intros Hf Ho Hl Ht Hlen Hrest. unfold find_line_ending, find_line_fuel. cbn [find_line_loop].
  assert (Hfs : file_size r = len pre + len t + 1 + len rest).
  { unfold file_size. rewrite Hf, !length_app. cbn [length]. lia. }
  unfold file_size in Hfs at 1. rewrite u64_small by (unfold file_size; lia). fold (file_size r) in Hfs.
  set (size := if MAX_LINE_LEN >? file_size r - mmap_offset r then _ else _).
  assert (Hsize : len t < size).
  { unfold size. rewrite Z.gtb_ltb. destruct (Z.ltb_spec (file_size r - mmap_offset r) MAX_LINE_LEN); lia. }
  destruct (mapping_from_at r pre (t ++ CSV_LF :: rest) Hf) as [pad Hm]. rewrite Ho, Hm, <- app_assoc. cbn [app].
  rewrite memchr_found by (done || lia). cbn [rbind].
  rewrite (proj2 (Z.ltb_lt _ _)) by lia.
  replace (len pre + len t - len pre) with (len t) by lia.
  assert (Hd : drop (Z.to_nat (len pre + len t + 1)) (mapped_file r) = rest).
  { rewrite Hf. replace (pre ++ t ++ CSV_LF :: rest) with ((pre ++ t ++ [CSV_LF]) ++ rest) by (by rewrite <- !app_assoc).
    replace (Z.to_nat (len pre + len t + 1)) with (length (pre ++ t ++ [CSV_LF])) by (rewrite !length_app; simpl; lia).
    apply drop_app_length. }
  rewrite Hd. destruct rest as [|c rest]; cbn [skip_blank]; [by rewrite Z.add_0_r|]. rewrite (Hrest c) by done. done.
Qed.

(** the last line, without line end *)
Lemma find_line_last r pre t :
  mapped_file r = pre ++ t -> mmap_offset r = len pre -> len (mapped_file r) < 2 ^ 62 ->
  CSV_LF ∉ t -> CSV_CR ∉ t -> len t < MAX_LINE_LEN ->
  find_line_ending r = Ok (true, set_item_size (len t) r, file_size r, len t).
Proof.
  intros Hf Ho Hl Hlf Hcr Hlen. unfold find_line_ending, find_line_fuel. cbn [find_line_loop].
  assert (Hfs : file_size r = len pre + len t) by (unfold file_size; rewrite Hf, length_app; lia).
  unfold file_size in Hfs at 1. rewrite u64_small by (unfold file_size; lia). fold (file_size r) in Hfs.
  replace (file_size r - mmap_offset r) with (len t) by lia.
  rewrite Z.gtb_ltb, (proj2 (Z.ltb_lt _ _)) by done.
  destruct (mapping_from_at r pre t Hf) as [pad Hm]. rewrite Ho, Hm, Nat2Z.id.
  rewrite !memchr_absent by done. cbn [rbind]. rewrite (proj2 (Z.eqb_neq _ _)) by lia. done.
Qed.

(** ** A last line of exactly MAX_LINE_LEN bytes *)

(** C40.  With exactly MAX_LINE_LEN bytes left and no line end among them, the size that is
    doubled is cut back to MAX_LINE_LEN in the next round: the loop of find_line_ending
    never ends, whatever the number of rounds. *)
Theorem find_line_ending_diverges r pre t fuel :
  mapped_file r = pre ++ t -> mmap_offset r = len pre -> len (mapped_file r) < 2 ^ 62 ->
  CSV_LF ∉ t -> CSV_CR ∉ t -> len t = MAX_LINE_LEN ->
  find_line_loop fuel r MAX_LINE_LEN = Err OutOfFuel.
Proof.
  intros Hf Ho Hl Hlf Hcr Hlen.
  assert (Hfs : file_size r = len pre + len t) by (unfold file_size; rewrite Hf, length_app; lia).
  assert (Hleft : u64 (file_size r - mmap_offset r) = MAX_LINE_LEN) by (rewrite u64_small; [lia|unfold MAX_LINE_LEN in Hlen; lia]).
  destruct (mapping_from_at r pre t Hf) as [pad Hm].
  assert (H : forall fuel size, size = MAX_LINE_LEN \/ size = MAX_LINE_LEN * 2 -> find_line_loop fuel r size = Err OutOfFuel).
  { clear fuel. induction fuel as [|fuel IH]; intros size Hs; [done|]. cbn [find_line_loop]. rewrite Hleft.
    assert (Hsz : (if size >? MAX_LINE_LEN then MAX_LINE_LEN else size) = MAX_LINE_LEN) by (by destruct Hs as [-> | ->]).
    rewrite Hsz, Ho, Hm.
    replace (Z.to_nat MAX_LINE_LEN) with (length t) by lia. rewrite !memchr_absent by done. cbn [rbind].
    rewrite Z.eqb_refl. apply IH. by right. }
  apply H. by left.
Qed.

(** ** Plain text traces *)

(** a line: not empty, not starting with white space, shorter than MAX_LINE_LEN *)
Definition line_ok (t : list Z) : Prop :=
  CSV_LF ∉ t /\ 0 < len t < MAX_LINE_LEN /\ (forall c, head t = Some c -> blank c = false).

Definition lf_lines (texts : list (list Z)) : list Z := flat_map (fun t => t ++ [CSV_LF]) texts.

(** what follows the last line feed: nothing, or a line *)
Definition tail_ok (last : list Z) : Prop := last = [] \/ (line_ok last /\ CSV_CR ∉ last).

(** the request of a line whose identifier is [v] *)
Definition plain_req (q : request) (v : Z) : request := set_req_obj_id v (set_req_valid true (set_req_hv 0 q)).

(** the lines that are read: a last line of one character without line end is not *)
Definition lines_read (texts : list (list Z)) (last : list Z) : list (list Z) :=
  texts ++ match last with _ :: _ :: _ => [last] | _ => [] end.

Lemma lines_head texts last c : Forall line_ok texts -> tail_ok last ->
  head (lf_lines texts ++ last) = Some c -> blank c = false.
Proof.
  intros Ht Hl Hc. destruct texts as [|t texts].
  - destruct Hl as [->|[(_ & _ & Hb) _]]; [done|auto].
  - apply Forall_inv in Ht as (_ & Hlen & Hb). destruct t as [|b t]; [simpl in Hlen; lia|]. simpl in Hc. auto.
Qed.

Section plain.
  Variable g_quark_from_string atof_u64 : list Z -> Z.
  #[local] Set Default Proof Using "All".
  #[local] Abbreviation read := (read_one_req g_quark_from_string atof_u64).

Definition plain_inv (r : reader_t) : Prop :=
  trace_type r = PLAIN_TXT_TRACE /\ obj_id_type r = OBJ_ID_NUM /\ len (mapped_file r) < 2 ^ 62.

Lemma read_plain_line r q pre t rest :
  plain_inv r -> mapped_file r = pre ++ t ++ CSV_LF :: rest -> mmap_offset r = len pre -> line_ok t ->
  (forall c, head rest = Some c -> blank c = false) ->
  exists r', read r q = Ok (true, r', plain_req q (str_to_obj_id t)) /\ plain_inv r' /\
    mapped_file r' = mapped_file r /\ mmap_offset r' = len pre + len t + (match rest with [] => 0 | _ => 1 end).
Proof.
  intros (Hty & Hid & Hl) Hf Ho (Hlf & Hlen & _) Hrest. unfold read_one_req. cbn [trace_type set_n_read]. rewrite Hty.
  set (r1 := set_n_read _ r). unfold plain_read_one_req.
  assert (Hfs : file_size r1 = len pre + len t + 1 + len rest) by (unfold file_size; cbn; rewrite Hf, !length_app; cbn [length]; lia).
  assert (Hl1 : file_size r1 < 2 ^ 62) by done.
  rewrite u64_small by lia. change (mmap_offset r1) with (mmap_offset r). rewrite Ho, Z.geb_leb, (proj2 (Z.leb_gt _ _)) by lia.
  rewrite (find_line_lf r1 pre t rest) by (done || lia). cbn [rbind].
  change (obj_id_type (set_item_size (len t) r1)) with (obj_id_type r). rewrite Hid.
  rewrite (read_bytes_at _ pre t (CSV_LF :: rest)) by done. cbn [rbind]. eexists. split; [reflexivity|]. done.
Qed.

Lemma read_plain_last r q pre t :
  plain_inv r -> mapped_file r = pre ++ t -> mmap_offset r = len pre -> line_ok t -> CSV_CR ∉ t -> 1 < len t ->
  exists r', read r q = Ok (true, r', plain_req q (str_to_obj_id t)) /\ plain_inv r' /\
    mapped_file r' = mapped_file r /\ mmap_offset r' = file_size r.
Proof.
  intros (Hty & Hid & Hl) Hf Ho (Hlf & Hlen & _) Hcr H1. unfold read_one_req. cbn [trace_type set_n_read]. rewrite Hty.
  set (r1 := set_n_read _ r). unfold plain_read_one_req.
  assert (Hfs : file_size r1 = len pre + len t) by (unfold file_size; cbn; rewrite Hf, !length_app; cbn [length]; lia).
  assert (Hl1 : file_size r1 < 2 ^ 62) by done.
  rewrite u64_small by lia. change (mmap_offset r1) with (mmap_offset r). rewrite Ho, Z.geb_leb, (proj2 (Z.leb_gt _ _)) by lia.
  rewrite (find_line_last r1 pre t) by (done || lia). cbn [rbind].
  change (obj_id_type (set_item_size (len t) r1)) with (obj_id_type r). rewrite Hid.
  rewrite (read_bytes_at _ pre t []) by (done || by rewrite app_nil_r). cbn [rbind]. eexists. split; [reflexivity|]. done.
Qed.

Lemma read_plain_end r q : plain_inv r -> 0 < file_size r -> file_size r - 1 <= mmap_offset r ->
  exists r' q', read r q = Ok (false, r', q') /\ req_valid q' = false.
Proof.
  intros (Hty & Hid & Hl) H0 Ho. unfold read_one_req. cbn [trace_type set_n_read]. rewrite Hty. unfold plain_read_one_req.
  cbn [mmap_offset set_n_read]. change (file_size (set_n_read _ r)) with (file_size r). unfold file_size in *.
  rewrite u64_small by lia. rewrite Z.geb_leb, (proj2 (Z.leb_le _ _)) by lia. eauto.
Qed.

Lemma plain_req_idem q v w : plain_req (plain_req q v) w = plain_req q w.
Proof. done. Qed.

Lemma read_all_plain texts : forall r q pre last n,
  plain_inv r -> mapped_file r = pre ++ lf_lines texts ++ last -> 0 < file_size r ->
  mmap_offset r = len pre - (if bool_decide (texts = [] /\ last = []) then 1 else 0) ->
  Forall line_ok texts -> tail_ok last -> (length texts + 1 < n)%nat ->
  exists r', read_all g_quark_from_string atof_u64 n r q =
    Ok ((fun t => plain_req q (str_to_obj_id t)) <$> lines_read texts last, r').
Proof.
  induction texts as [|t texts IH]; intros r q pre last n Hinv Hf H0 Ho Hok Hlast Hn; (destruct n as [|n]; [simpl in Hn; lia|]).
  - cbn [lf_lines flat_map app] in Hf.
    assert (Hfs : file_size r = len pre + len last) by (unfold file_size; rewrite Hf, length_app; lia).
    assert (Hshort : len last <= 1 -> exists r', read_all g_quark_from_string atof_u64 (S n) r q = Ok ([], r')).
    { intros Hs. cbn [read_all]. destruct (read_plain_end r q Hinv H0) as (r' & q' & E & Hv); [|rewrite E; cbn [rbind]; rewrite Hv; eauto].
      rewrite Hfs, Ho. case_bool_decide as Hc; [destruct Hc as [_ ->]; simpl; lia|lia]. }
    destruct last as [|b1 [|b2 last]]; [by apply Hshort|by apply Hshort; simpl; lia|].
    destruct Hlast as [?|[Hlok Hcr]]; [done|]. cbn [lines_read app read_all].
    destruct (read_plain_last r q pre (b1 :: b2 :: last) Hinv Hf) as (r1 & E & Hinv1 & Hf1 & Ho1); [|done|done|simpl; lia|].
    { rewrite Ho, bool_decide_eq_false_2; [lia|by intros []]. }
    rewrite E. cbn [rbind]. destruct n as [|n]; [simpl in Hn; lia|]. cbn [read_all].
    change (req_valid (plain_req q _)) with true. cbv iota.
    destruct (read_plain_end r1 (plain_req q (str_to_obj_id (b1 :: b2 :: last))) Hinv1) as (r2 & q2 & E2 & Hv).
    { unfold file_size in *. by rewrite Hf1. } { rewrite Ho1. unfold file_size. rewrite Hf1. lia. }
    rewrite E2. cbn [rbind]. rewrite Hv. cbn [rbind]. by exists r2.
  - rewrite bool_decide_eq_false_2 in Ho by (by intros []). apply Forall_cons in Hok as [Ht Hok].
    assert (Hf' : mapped_file r = pre ++ t ++ CSV_LF :: (lf_lines texts ++ last)).
    { rewrite Hf. cbn [lf_lines flat_map]. by rewrite <- !app_assoc. }
    cbn [read_all]. destruct (read_plain_line r q pre t (lf_lines texts ++ last) Hinv Hf') as (r1 & E & Hinv1 & Hf1 & Ho1);
      [lia|done|by intros c; apply lines_head|].
    rewrite E. cbn [rbind]. change (req_valid (plain_req q _)) with true. cbv iota.
    destruct (IH r1 (plain_req q (str_to_obj_id t)) (pre ++ t ++ [CSV_LF]) last n Hinv1) as (r2 & E2); try done.
    + rewrite Hf1, Hf'. by rewrite <- !app_assoc.
    + unfold file_size in *. by rewrite Hf1.
    + rewrite Ho1, !length_app. cbn [length].
      assert (Hnil : lf_lines texts ++ last = [] <-> texts = [] /\ last = []).
      { split; [|by intros [-> ->]]. destruct texts as [|[|b t'] texts]; simpl; [by intros ->|done..]. }
      destruct (lf_lines texts ++ last) as [|b l] eqn:Eb.
      * rewrite bool_decide_eq_true_2 by (by apply Hnil). lia.
      * rewrite bool_decide_eq_false_2; [lia|]. intros Hc. by apply Hnil in Hc.
    + simpl in Hn. lia.
    + rewrite E2. cbn [rbind]. by exists r2.
Qed.

(** counting lines only moves the reader *)
Lemma count_lines_same fuel : forall r n r' n', count_lines fuel r n = Ok (n', r') ->
  exists o i, r' = set_offset o (set_item_size i r).
Proof using Type.
  induction fuel as [|fuel IH]; intros r n r' n' E; [done|]. cbn [count_lines] in E.
  destruct (find_line_ending r) as [[[[b r1] le] ll]|] eqn:E1; [|done]. cbn [rbind] in E.
  assert (exists i, r1 = set_item_size i r) as [i ->].
  { unfold find_line_ending in E1. destruct (find_line_loop _ _ _) as [[?|?]|]; [|injection E1 as _ <-; by eexists|done].
    cbn [rbind] in E1. destruct (if _ <? _ then _ else _). injection E1 as _ <-. by eexists. }
  destruct b; [injection E as _ <-|apply IH in E as (o & j & ->)].
  - by exists (mmap_offset r), i; destruct r.
  - by exists o, j.
Qed.

Lemma count_lines_spec texts : forall r pre last n fuel,
  mapped_file r = pre ++ lf_lines texts ++ last -> len (mapped_file r) < 2 ^ 62 -> mmap_offset r = len pre ->
  Forall line_ok texts -> tail_ok last -> (texts <> [] \/ last <> []) -> (length texts < fuel)%nat ->
  exists r', count_lines fuel r n = Ok (n + len texts - (match last with [] => 1 | _ => 0 end), r') /\
    mapped_file r' = mapped_file r.
Proof using Type.
  induction texts as [|t texts IH]; intros r pre last n fuel Hf Hl Ho Hok Hlast Hne Hn; (destruct fuel as [|fuel]; [simpl in Hn; lia|]).
  - destruct Hne as [?|Hne]; [done|]. destruct Hlast as [?|[(Hlf & Hlen & _) Hcr]]; [done|]. cbn [count_lines].
    rewrite (find_line_last r pre last) by (done || lia). cbn [rbind]. destruct last; [done|].
    eexists. split; [do 2 f_equal; simpl; lia|done].
  - apply Forall_cons in Hok as [Ht Hok].
    assert (Hf' : mapped_file r = pre ++ t ++ CSV_LF :: (lf_lines texts ++ last)).
    { rewrite Hf. cbn [lf_lines flat_map]. by rewrite <- !app_assoc. }
    destruct Ht as (Hlf & Hlen & _). cbn [count_lines].
    rewrite (find_line_lf r pre t (lf_lines texts ++ last)) by (done || lia || by intros c; apply lines_head).
    cbn [rbind]. destruct (lf_lines texts ++ last) as [|b l] eqn:Eb.
    + destruct texts as [|[|b t'] texts]; [|done..]. simpl in Eb. subst last. eexists. split; [do 2 f_equal; simpl; lia|done].
    + destruct (IH (set_offset (len pre + len t + 1) (set_item_size (len t) r)) (pre ++ t ++ [CSV_LF]) last (n + 1) fuel) as (r' & E & Hf2); try done.
      * cbn [mapped_file set_offset set_item_size]. rewrite Hf', <- Eb. by rewrite <- !app_assoc.
      * cbn [mmap_offset set_offset]. rewrite !length_app. simpl. lia.
      * destruct texts; [right; by intros ->|by left].
      * simpl in Hn. lia.
      * rewrite E. exists r'. split; [do 2 f_equal; simpl; lia|done].
Qed.

Lemma plain_read_lines texts last ip n :
  Forall line_ok texts -> tail_ok last -> (texts <> [] \/ last <> []) ->
  len (lf_lines texts ++ last) < 2 ^ 62 -> (length texts + 1 < n)%nat ->
  exists r r' r2, setup_reader (lf_lines texts ++ last) PLAIN_TXT_TRACE OBJ_ID_NUM ip = Ok r /\
    read_all g_quark_from_string atof_u64 n r new_request =
      Ok ((fun t => plain_req new_request (str_to_obj_id t)) <$> lines_read texts last, r') /\
    get_num_of_req r = Ok (len texts + (match last with [] => 0 | _ => 1 end), r2).
Proof.
  intros Hok Hlast Hne Hl Hn.
  set (r := mk_reader (lf_lines texts ++ last) 0 PLAIN_TXT_TRACE OBJ_ID_NUM 0 0 0 ip NoParams false).
  assert (Hlen : len texts <= len (lf_lines texts)).
  { clear. unfold lf_lines. induction texts as [|t texts IH]; [done|]. cbn [flat_map length]. rewrite !length_app. cbn [length]. lia. }
  assert (H0 : 0 < file_size r).
  { unfold file_size. cbn [mapped_file r]. rewrite length_app. destruct Hne as [Hne|Hne].
    - destruct texts; [done|cbn [length] in Hlen; lia].
    - destruct last; [done|simpl; lia]. }
  assert (Hfile : setup_reader (lf_lines texts ++ last) PLAIN_TXT_TRACE OBJ_ID_NUM ip = Ok r).
  { unfold setup_reader. destruct (lf_lines texts ++ last) as [|b l] eqn:E; [|done].
    unfold file_size, r in H0. cbn [mapped_file] in H0. simpl in H0. done. }
  destruct (read_all_plain texts r new_request [] last n) as (r' & E); try done.
  { cbn [mmap_offset r]. rewrite bool_decide_eq_false_2; [done|]. intros [-> ->]. by destruct Hne. }
  destruct (count_lines_spec texts (set_offset 0 r) [] last 0 (S (length (mapped_file r)))) as (r2 & E2 & _); try done.
  { cbn [mapped_file r]. rewrite length_app. lia. }
  exists r, r', (set_offset 0 (set_n_total (u64 (len texts + (match last with [] => 0 | _ => 1 end))) r2)).
  split; [done|]. split; [exact E|]. unfold get_num_of_req. cbn [n_total_req r]. change (0 >? 0) with false. cbv iota.
  cbn [trace_type set_offset r mapped_file] in *. rewrite E2. cbn [rbind].
  destruct (count_lines_same _ _ _ _ _ E2) as (o2 & i2 & Hr2).
  assert (Hty : trace_type r2 = PLAIN_TXT_TRACE) by (by rewrite Hr2).
  rewrite Hty. cbn [rbind]. rewrite length_app in Hl.
  assert (Hc : 0 + len texts - (match last with [] => 1 | _ => 0 end) + 1 = len texts + (match last with [] => 0 | _ => 1 end))
    by (destruct last; lia).
  rewrite Hc, u64_small by (destruct last; simpl in *; lia). done.
Qed.

(** *** Decimal identifiers *)

#[local] Set Default Proof Using "Type".

Definition id_step (n c : Z) : Z := u64 (n * 10 + schar c - 48).

Lemma id_step_digit n d : 0 <= d < 10 -> 0 <= n * 10 + d < 2 ^ 64 -> id_step n (48 + d) = n * 10 + d.
Proof.
  intros Hd Hn. unfold id_step, schar. rewrite swrap_small by lia. rewrite u64_small by lia. lia.
Qed.

Lemma dec_loop_value fuel : forall v acc, 0 <= v < 2 ^ 64 -> v < 10 ^ Z.of_nat fuel -> (0 < fuel)%nat ->
  fold_left id_step (dec_loop fuel v acc) 0 = fold_left id_step acc v.
Proof.
  induction fuel as [|fuel IH]; intros v acc Hv Hf H0; [lia|]. cbn [dec_loop]. destruct (Z.ltb_spec v 10).
  - cbn [fold_left]. rewrite id_step_digit by lia. done.
  - pose proof (Z.div_mod v 10 ltac:(lia)). pose proof (Z.mod_pos_bound v 10 ltac:(lia)).
    rewrite Nat2Z.inj_succ, Z.pow_succ_r in Hf by lia.
    assert (0 < fuel)%nat by (destruct fuel; [simpl in Hf; lia|lia]).
    rewrite IH; [|lia|apply Z.div_lt_upper_bound; lia|done].
    cbn [fold_left]. rewrite id_step_digit by lia. f_equal. lia.
Qed.

Lemma dec_loop_digits fuel : forall v acc, 0 <= v -> Forall (fun c => 48 <= c < 58) acc ->
  Forall (fun c => 48 <= c < 58) (dec_loop fuel v acc) /\ len (dec_loop fuel v acc) <= len acc + Z.of_nat fuel.
Proof.
  induction fuel as [|fuel IH]; intros v acc Hv Ha; cbn [dec_loop]; [split; [done|lia]|]. destruct (Z.ltb_spec v 10).
  - split; [constructor; [lia|done]|simpl; lia].
  - pose proof (Z.mod_pos_bound v 10 ltac:(lia)). destruct (IH (v / 10) (48 + v mod 10 :: acc)) as [H1 H2].
    + apply Z.div_pos; lia. + constructor; [lia|done]. + split; [done|]. simpl in H2. lia.
Qed.

Lemma dec_loop_nonempty fuel : forall v acc, (0 < fuel)%nat -> dec_loop fuel v acc <> [].
Proof.
  induction fuel as [|fuel IH]; intros v acc Hf; [lia|]. cbn [dec_loop]. destruct (v <? 10); [done|].
  destruct fuel; [done|]. apply IH. lia.
Qed.

Lemma decimal_value v : 0 <= v < 2 ^ 64 -> fold_left id_step (decimal v) 0 = v.
Proof. intros Hv. unfold decimal. rewrite dec_loop_value by lia. done. Qed.

Lemma digits_not_blank s c : Forall (fun c => 48 <= c < 58) s -> c ∈ s -> blank c = false /\ c <> CSV_LF.
Proof.
  intros H Hc. rewrite Forall_forall in H. specialize (H c Hc). unfold blank, CSV_CR, CSV_LF, CSV_TAB, CSV_SPACE.
  rewrite !(proj2 (Z.eqb_neq _ _)) by lia. split; [done|lia].
Qed.

(** the digits of a number, and what may follow them on the line *)
Lemma decimal_line v eol : 0 <= v -> CSV_LF ∉ eol -> len eol < 100 -> line_ok (decimal v ++ eol).
Proof.
  intros Hv He Hl. destruct (dec_loop_digits 20 v [] Hv (Forall_nil_2 _)) as [Hd Hlen].
  fold (decimal v) in Hd, Hlen. pose proof (dec_loop_nonempty 20 v [] ltac:(lia)) as Hne. fold (decimal v) in Hne.
  split_and!.
  - rewrite elem_of_app. intros [Hc|Hc]; [|done]. by destruct (digits_not_blank _ _ Hd Hc) as [_ ?].
  - rewrite length_app. destruct (decimal v); [done|simpl; lia].
  - rewrite length_app. unfold MAX_LINE_LEN. simpl in Hlen. lia.
  - intros c Hc. destruct (decimal v) as [|b s]; [done|]. injection Hc as <-.
    destruct (digits_not_blank _ b Hd) as [? _]; [by left|done].
Qed.

#[local] Set Default Proof Using "All".

(** A plain text trace whose lines end with line feeds, but for the last one, which may
    have no line end: each line gives a request with its identifier, in order, except a
    last line of one character without line end, which is dropped.  get_num_of_req counts
    every line, that one too. *)
Theorem plain_trace_read texts last ip n :
  Forall line_ok texts -> tail_ok last -> (texts <> [] \/ last <> []) ->
  len (lf_lines texts ++ last) < 2 ^ 62 -> (length texts + 1 < n)%nat ->
  exists r r' r2, setup_reader (lf_lines texts ++ last) PLAIN_TXT_TRACE OBJ_ID_NUM ip = Ok r /\
    read_all g_quark_from_string atof_u64 n r new_request =
      Ok ((fun t => plain_req new_request (str_to_obj_id t)) <$> lines_read texts last, r') /\
    get_num_of_req r = Ok (len texts + (match last with [] => 0 | _ => 1 end), r2).
Proof. apply plain_read_lines. Qed.

Lemma fmap_lines (eol : list Z) ids : Forall (fun v => 0 <= v) ids -> CSV_LF ∉ eol -> len eol < 100 ->
  Forall line_ok ((fun v => decimal v ++ eol) <$> ids).
Proof.
  intros Hv He Hl. apply Forall_fmap. eapply Forall_impl; [exact Hv|]. intros v H. by apply decimal_line.
Qed.

(** C33.  Reading a trace of numbers gives the numbers back. The file is the decimal numbers below
    2^64, at least one, each on a line that ends in a line feed; get_num_of_req counts them. *)
Theorem plain_roundtrip ids ip n :
  ids <> [] -> Forall (fun v => 0 <= v < 2 ^ 64) ids -> len (lf_lines (decimal <$> ids)) < 2 ^ 62 -> (length ids + 1 < n)%nat ->
  exists r r' r2, setup_reader (lf_lines (decimal <$> ids)) PLAIN_TXT_TRACE OBJ_ID_NUM ip = Ok r /\
    read_all g_quark_from_string atof_u64 n r new_request = Ok (plain_req new_request <$> ids, r') /\
    get_num_of_req r = Ok (len ids, r2).
Proof.
  intros Hne Hv Hl Hn. assert (Hok : Forall line_ok (decimal <$> ids)).
  { replace (decimal <$> ids) with ((fun v => decimal v ++ []) <$> ids) by (apply list_fmap_ext; intros; by rewrite app_nil_r).
    apply fmap_lines; [eapply Forall_impl; [exact Hv|simpl; lia]|by intros ?%not_elem_of_nil|simpl; lia]. }
  destruct (plain_read_lines (decimal <$> ids) [] ip n) as (r & r' & r2 & Hs & E & En); try done.
  - by left.
  - left. by destruct ids.
  - by rewrite app_nil_r.
  - by rewrite length_fmap.
  - rewrite app_nil_r in Hs. exists r, r', r2. split; [done|]. rewrite length_fmap, Z.add_0_r in En. split; [|done].
    rewrite E. unfold lines_read. rewrite app_nil_r, <- list_fmap_compose. do 2 f_equal.
    apply list_fmap_ext. intros i v Hi. simpl. f_equal. apply decimal_value.
    rewrite Forall_forall in Hv. apply Hv. by eapply list_elem_of_lookup_2.
Qed.

(** The line length that find_line_ending gives is said not to count CRLF, but it counts
    the carriage return: in a trace whose lines end with CR LF, the carriage return is
    taken for a digit, and an object [v] is read as object [10 v - 35] modulo 2^64. *)
Theorem plain_crlf_ids ids ip n :
  let texts := (fun v => decimal v ++ [CSV_CR]) <$> ids in
  ids <> [] -> Forall (fun v => 0 <= v < 2 ^ 64) ids -> len (lf_lines texts) < 2 ^ 62 -> (length ids + 1 < n)%nat ->
  exists r r', setup_reader (lf_lines texts) PLAIN_TXT_TRACE OBJ_ID_NUM ip = Ok r /\
    read_all g_quark_from_string atof_u64 n r new_request =
      Ok ((fun v => plain_req new_request ((10 * v - 35) mod 2 ^ 64)) <$> ids, r').
Proof.
  intros texts Hne Hv Hl Hn. assert (Hok : Forall line_ok texts).
  { apply fmap_lines; [eapply Forall_impl; [exact Hv|simpl; lia]| |simpl; lia]. by intros ?%list_elem_of_singleton. }
  destruct (plain_read_lines texts [] ip n) as (r & r' & r2 & Hs & E & En); try done.
  - by left.
  - left. by destruct ids.
  - by rewrite app_nil_r.
  - unfold texts. by rewrite length_fmap.
  - rewrite app_nil_r in Hs. exists r, r'. split; [done|].
    rewrite E. unfold lines_read, texts. rewrite app_nil_r, <- list_fmap_compose. do 2 f_equal.
    apply list_fmap_ext. intros i v Hi. simpl. f_equal. unfold str_to_obj_id. rewrite fold_left_app.
    fold id_step. rewrite Forall_forall in Hv. rewrite decimal_value by (apply Hv; by eapply list_elem_of_lookup_2).
    cbn [fold_left]. unfold id_step, u64, wrap. f_equal. change (schar CSV_CR) with 13. lia.
Qed.

End plain.

(** ** Concrete traces *)

Definition no_quark_id (s : list Z) : Z := 0.
Definition plain_ip : reader_init_param_t := mk_init_params 0 0 0 0 0 0 0 false 0 [].

Lemma plain_trace_read_witness :
  exists r r' r2, setup_reader [49; 50; 10; 51; 10; 52] PLAIN_TXT_TRACE OBJ_ID_NUM plain_ip = Ok r /\
    read_all no_quark_id no_quark_id 4 r new_request = Ok ([plain_req new_request 12; plain_req new_request 3], r') /\
    get_num_of_req r = Ok (3, r2).
Proof.
  destruct (plain_trace_read no_quark_id no_quark_id [[49; 50]; [51]] [52] plain_ip 4) as (r & r' & r2 & Hs & E & En).
  - repeat (constructor || split); try (vm_compute; congruence); try (intros c [= <-]; reflexivity);
      rewrite ?elem_of_cons; intros H; repeat (destruct H as [H|H]; [done|]); by apply not_elem_of_nil in H.
  - right. split; [|by intros ?%list_elem_of_singleton]. split; [by intros ?%list_elem_of_singleton|].
    split; [by vm_compute|by intros c [= <-]].
  - by left.
  - vm_compute. reflexivity.
  - simpl. lia.
  - exists r, r', r2. split; [exact Hs|]. split; [exact E|exact En].
Defined.

Lemma plain_roundtrip_witness :
  exists r r' r2, setup_reader (lf_lines (decimal <$> [7; 18446744073709551615; 0; 7])) PLAIN_TXT_TRACE OBJ_ID_NUM plain_ip = Ok r /\
    read_all no_quark_id no_quark_id 6 r new_request = Ok (plain_req new_request <$> [7; 18446744073709551615; 0; 7], r') /\
    get_num_of_req r = Ok (4, r2).
Proof.
  apply (plain_roundtrip no_quark_id no_quark_id [7; 18446744073709551615; 0; 7] plain_ip 6).
  - discriminate.
  - repeat constructor; vm_compute; congruence.
  - vm_compute. reflexivity.
  - simpl. lia.
Defined.

Lemma plain_crlf_ids_witness :
  exists r r', setup_reader [49; 13; 10; 52; 50; 13; 10] PLAIN_TXT_TRACE OBJ_ID_NUM plain_ip = Ok r /\
    read_all no_quark_id no_quark_id 4 r new_request =
      Ok ([plain_req new_request 18446744073709551591; plain_req new_request 385], r').
Proof.
  destruct (plain_crlf_ids no_quark_id no_quark_id [1; 42] plain_ip 4) as (r & r' & Hs & E).
  - discriminate.
  - repeat constructor; vm_compute; congruence.
  - vm_compute. reflexivity.
  - simpl. lia.
  - exists r, r'. split; [exact Hs|exact E].
Defined.

Definition long_line : list Z := replicate (Z.to_nat MAX_LINE_LEN) 65.

Lemma find_line_ending_diverges_witness :
  find_line_loop 100 (mk_reader long_line 0 PLAIN_TXT_TRACE OBJ_ID_NUM 0 0 0 plain_ip NoParams false) MAX_LINE_LEN = Err OutOfFuel.
Proof.
  apply (find_line_ending_diverges _ [] long_line).
  - reflexivity.
  - reflexivity.
  - cbn [mapped_file]. unfold long_line. rewrite length_replicate. vm_compute. reflexivity.
  - intros [H _]%elem_of_replicate. discriminate.
  - intros [H _]%elem_of_replicate. discriminate.
  - unfold long_line. rewrite length_replicate. vm_compute. reflexivity.
Defined.
