(* ===== verification/CsvTraceSpec.v ===== *)
(** * Correctness of the CSV trace reader *)

From Stdlib Require Import Ascii.
From S2P Require Import Prelude.
From S2P Require Import Store.
From S2P Require Import LibCsv.
From S2P Require Import LibCsvSpec.
From S2P Require Import ReaderBase.
From S2P Require Import BinReader.
From S2P Require Import Reader.
From S2P Require Import TextReaderSpec.

(** ** Lines of unquoted fields through the abstract parser *)

(** characters that are neither white space, a line end, the quote nor the delimiter *)
Definition plain_char (d c : Z) : Prop :=
  c <> d /\ c <> CSV_QUOTE /\ c <> CSV_SPACE /\ c <> CSV_TAB /\ c <> CSV_CR /\ c <> CSV_LF.

Definition plain_field (d : Z) (f : list Z) : Prop := f <> [] /\ Forall (plain_char d) f.

(** a row has a first field and others *)
Abbreviation row := (list Z * list (list Z))%type.
Definition fields (w : row) : list (list Z) := w.1 :: w.2.

(** the text of a row, without its line end *)
Definition row_line (d : Z) (w : row) : list Z := w.1 ++ flat_map (cons d) w.2.

(** the configuration of the reader's parser *)
Record reader_parser (d : Z) (p : csv_parser) : Prop := {
  rp_ok : parser_ok p;
  rp_state : pstate p = ROW_NOT_BEGUN;
  rp_options : options p = CSV_APPEND_NULL;
  rp_quote : quote_char p = CSV_QUOTE;
  rp_delim : delim_char p = d;
  rp_space : is_space p = None;
  rp_term : is_term p = None;
  rp_blk : 0 < blk_size p;
  rp_realloc : forall m s, realloc_func p m s = true
}.

Definition delim_ok (d : Z) : Prop :=
  d <> CSV_QUOTE /\ d <> CSV_CR /\ d <> CSV_LF.

Definition csv_conf (d : Z) : conf :=
  mk_conf false false false CSV_QUOTE d
    (fun c => (c =? CSV_SPACE) || (c =? CSV_TAB)) (fun c => (c =? CSV_CR) || (c =? CSV_LF)) csv_callbacks.

Lemma a_run_conf k k' s : forall a,
  (forall a c, a_step k a c = a_step k' a c) -> a_run k s a = a_run k' s a.
Proof.
  induction s as [|c s IH]; intros a H; [done|]. cbn [a_run]. rewrite H. destruct (a_step k' a c) as [[a' e]|]; [|done].
  by rewrite IH.
Qed.

Section line.
  Variable d : Z.
  Hypothesis Hd : delim_ok d.
  #[local] Abbreviation k := (csv_conf d).
  #[local] Set Default Proof Using "Hd".

Lemma csv_conf_sep : separable k CSV_LF.
Proof. destruct Hd as (H1 & H2 & H3). split; cbn; congruence. Qed.

Lemma plain_tests c : plain_char d c ->
  k_space k c = false /\ k_term k c = false /\ (c =? k_delim k) = false /\ (c =? k_quote k) = false.
Proof.
  intros (H1 & H2 & H3 & H4 & H5 & H6). cbn. rewrite !(proj2 (Z.eqb_neq c _)) by done. done.
Qed.

Lemma steps_plain f : forall w, Forall (plain_char d) f ->
  a_steps k (mk_astate FIELD_BEGUN false 0 w) f (mk_astate FIELD_BEGUN false 0 (w ++ f)) [].
Proof.
  induction f as [|c f IH]; intros w Hf; [by rewrite app_nil_r|]. apply Forall_cons in Hf as [Hc Hf].
  destruct (plain_tests c Hc) as (H1 & H2 & H3 & H4).
  replace (w ++ c :: f) with ((w ++ [c]) ++ f) by (by rewrite <- app_assoc).
  refine (a_steps_one k CSV_LF csv_conf_sep _ _ _ [] _ _ [] _ (IH _ Hf)).
  unfold a_step, a_append. cbn -[csv_conf]. by rewrite H4, H3, H2, H1.
Qed.

Lemma steps_field a f : (a = a_start \/ a = a_next) -> plain_field d f ->
  a_steps k a f (mk_astate FIELD_BEGUN false 0 f) [].
Proof.
  intros Ha [Hne Hf]. destruct f as [|c f]; [done|]. apply Forall_cons in Hf as [Hc Hf].
  destruct (plain_tests c Hc) as (H1 & H2 & H3 & H4).
  refine (a_steps_one k CSV_LF csv_conf_sep _ _ _ [] _ _ [] _ (steps_plain f [c] Hf)).
  unfold a_step. destruct Ha as [-> | ->]; cbn -[csv_conf]; by rewrite H1, H2, H3, H4.
Qed.

Definition field_event (f : list Z) : event := Field (Some f) (Z.of_nat (length f)).

Lemma steps_fields_nl fs : forall f, Forall (plain_field d) fs ->
  a_steps k (mk_astate FIELD_BEGUN false 0 f) (flat_map (cons d) fs ++ [CSV_LF]) a_start
    (field_event f :: (field_event <$> fs) ++ [Row CSV_LF]).
Proof.
  induction fs as [|g fs IH]; intros f Hfs; cbn [flat_map app].
  - unfold a_steps. cbn [a_run]. unfold a_step. cbn -[cut CSV_LF CSV_QUOTE].
    destruct Hd as (H1 & H2 & H3). rewrite (proj2 (Z.eqb_neq CSV_LF CSV_QUOTE)), (proj2 (Z.eqb_neq CSV_LF d)) by (done || congruence).
    change ((CSV_LF =? CSV_CR) || (CSV_LF =? CSV_LF)) with true. cbv iota. unfold cut, field_event.
    cbn. rewrite Nat.sub_0_r, take_ge by lia. done.
  - apply Forall_cons in Hfs as [Hg Hfs].
    change (field_event f :: (field_event <$> g :: fs) ++ [Row CSV_LF])
      with ([field_event f] ++ ([] ++ (field_event g :: (field_event <$> fs) ++ [Row CSV_LF]))).
    apply (a_steps_one k CSV_LF csv_conf_sep _ _ a_next [field_event f]).
    + unfold a_step. cbn -[cut CSV_QUOTE]. destruct Hd as (H1 & H2 & H3).
      rewrite (proj2 (Z.eqb_neq d CSV_QUOTE)), Z.eqb_refl by done. unfold cut, a_submit, field_event. cbn.
      rewrite Nat.sub_0_r, take_ge by lia. done.
    + rewrite <- app_assoc. eapply (a_steps_app k CSV_LF csv_conf_sep); [apply steps_field; [by right|done]|by apply IH].
Qed.

Lemma steps_row w : Forall (plain_field d) (fields w) ->
  a_steps k a_start (row_line d w ++ [CSV_LF]) a_start ((field_event <$> fields w) ++ [Row CSV_LF]).
Proof.
  intros [Hf Hfs]%Forall_cons. unfold row_line. rewrite <- app_assoc.
  change ((field_event <$> fields w) ++ [Row CSV_LF]) with ([] ++ (field_event w.1 :: (field_event <$> w.2) ++ [Row CSV_LF])).
  eapply (a_steps_app k CSV_LF csv_conf_sep); [apply steps_field; [by left|done]|by apply steps_fields_nl].
Qed.

(** the reader's parser on the text of a row *)
Lemma csv_parse_row p w :
  reader_parser d p -> Forall (plain_field d) (fields w) -> len (row_line d w) < 2 ^ 32 ->
  exists p', csv_parse csv_callbacks p (row_line d w ++ [CSV_LF]) =
      Ok (len (row_line d w ++ [CSV_LF]), p', (field_event <$> fields w) ++ [Row CSV_LF]) /\ reader_parser d p'.
Proof.
  intros [Hok Hst Ho Hq Hdl Hsp Htm Hb Hre] Hw Hlen. set (text := row_line d w ++ [CSV_LF]).
  assert (Hview : view p = a_start).
  { destruct Hok as [_ Ha _]. unfold a_ok in Ha. cbn in Ha. rewrite Hst in Ha. destruct Ha as (Hqd & Hss & Hc).
    unfold view, a_start. by rewrite Hst, Hqd, Hss, Hc. }
  assert (Htl : len text = len (row_line d w) + 1) by (unfold text; rewrite length_app; simpl; lia).
  assert (Hroomy : roomy p (len text)).
  { split_and!; [done|done|]. unfold view in Hview. injection Hview as _ _ _ ->. unfold SIZE_MAX. simpl length. lia. }
  assert (Hconf : a_run (conf_of csv_callbacks p) text (view p) = a_run k text a_start).
  { rewrite Hview. apply a_run_conf. intros a c. unfold conf_of, opt, space_char, term_char. by rewrite Ho, Hq, Hdl, Hsp, Htm. }
  pose proof (steps_row w Hw) as Hrun. unfold a_steps in Hrun. fold text in Hrun.
  destruct (csv_parse_spec csv_callbacks p text Hok) as [(n & p' & evs & E & D)|[[E Ht]|(st & calls & _ & _ & _ & Hno)]]; [| |done].
  - pose proof (pd_run _ _ _ _ _ _ D Hroomy) as Hrun'. rewrite Hconf, Hrun in Hrun'. injection Hrun' as Hn Hv1 Hv2 Hv3 Hv4 He _.
    exists p'. rewrite E, Hn, <- He. split; [done|].
    destruct (pd_same _ _ _ _ _ _ D) as (S1 & S2 & S3 & S4 & S5 & S6 & S7).
    destruct D as [D1 D2 D3 D4 D5 D6]. split; try congruence.
    split; [by left|done|]. rewrite S6. by destruct Hok.
  - unfold text in Ht. by destruct (row_line d w).
Qed.

End line.

(** ** The fields of a row as a request *)

Section fields.
  Variable g_quark_from_string atof_u64 : list Z -> Z.
  Variable ip : reader_init_param_t.
  #[local] Set Default Proof Using "Type".

(** what the field [s] of column [i] sets *)
Definition csv_field (i : Z) (s : list Z) (q : request) : request :=
  if i =? obj_id_field ip then set_req_obj_id (str_to_obj_id s) q
  else if i =? real_time_field ip then set_req_real_time (atof_u64 (cstr s)) q
  else if i =? op_field ip then q
  else if i =? obj_size_field ip then set_req_obj_size (u64 (atoll (cstr s))) q
  else q.

Fixpoint csv_fields (i : Z) (fs : list (list Z)) (q : request) : request :=
  match fs with
  | [] => q
  | f :: fs => csv_fields (i + 1) fs (csv_field i f q)
  end.

(** the field of column [c], for fields that start at column [i] *)
Definition column (i : Z) (fs : list (list Z)) (c : Z) : option (list Z) :=
  if i <=? c then fs !! Z.to_nat (c - i) else None.

Lemma column_cons i f fs c :
  column i (f :: fs) c = if i =? c then Some f else column (i + 1) fs c.
Proof.
  unfold column. destruct (Z.eqb_spec i c) as [->|Hne].
  - by rewrite Z.leb_refl, Z.sub_diag.
  - destruct (Z.leb_spec i c), (Z.leb_spec (i + 1) c); try lia; [|done].
    by replace (Z.to_nat (c - i)) with (S (Z.to_nat (c - (i + 1)))) by lia.
Qed.

Definition in_reach (fs : list (list Z)) (i c : Z) : bool := (i <=? c) && (c <? i + Z.of_nat (length fs)).

Lemma in_reach_nil i c : in_reach [] i c = false.
Proof. unfold in_reach. cbn [length]. destruct (Z.leb_spec i c), (Z.ltb_spec c (i + Z.of_nat 0)); try done; lia. Qed.

Lemma in_reach_cons f fs i c : in_reach (f :: fs) i c = (i =? c) || in_reach fs (i + 1) c.
Proof.
  unfold in_reach. cbn [length].
  destruct (Z.eqb_spec i c), (Z.leb_spec i c), (Z.leb_spec (i + 1) c), (Z.ltb_spec c (i + Z.of_nat (S (length fs)))),
    (Z.ltb_spec c (i + 1 + Z.of_nat (length fs))); cbn; try done; lia.
Qed.

Definition time_ok (f : list Z) : Prop := atof_u64 (cstr f) < UINT32_MAX.

Lemma row_events fs : forall i params q,
  current_field_counter params = i -> 1 <= i -> i + Z.of_nat (length fs) < 2 ^ 31 ->
  (forall f, column i fs (real_time_field ip) = Some f -> time_ok f) ->
  rfold (csv_event g_quark_from_string atof_u64 OBJ_ID_NUM ip) ((field_event <$> fs) ++ [Row CSV_LF]) (params, q) =
    Ok (set_field_counter 1 (set_got (already_got_req params || in_reach fs i (obj_id_field ip)) params),
        csv_fields i fs q).
Proof.
  induction fs as [|f fs IH]; intros i params q Hi H1 Hlen Hts; cbn [fmap list_fmap app rfold].
  - cbn [csv_event rbind]. rewrite in_reach_nil. do 2 f_equal. unfold csv_cb2, set_got, set_field_counter. cbn. f_equal.
    by rewrite orb_false_r.
  - cbn [length] in Hlen. cbn [csv_event]. unfold csv_cb1. rewrite Hi.
    assert (Hts' : forall g, column (i + 1) fs (real_time_field ip) = Some g -> time_ok g).
    { intros g Hg. apply Hts. rewrite column_cons. destruct (Z.eqb_spec i (real_time_field ip)) as [->|]; [|done].
      unfold column in Hg. destruct (Z.leb_spec (real_time_field ip + 1) (real_time_field ip)); [lia|done]. }
    assert (Hi32 : i32 (i + 1) = i + 1) by (unfold i32; rewrite swrap_small; lia).
    cbn [csv_fields]. unfold csv_field at 1. rewrite in_reach_cons. unfold field_event at 1. cbv iota.
    destruct (Z.eqb_spec i (obj_id_field ip)) as [_|_]; [|destruct (Z.eqb_spec i (real_time_field ip)) as [Ei|_];
      [|destruct (i =? op_field ip); [|destruct (i =? obj_size_field ip)]]].
    2: { assert (Ht : time_ok f) by (apply Hts; by rewrite column_cons, (proj2 (Z.eqb_eq _ _) Ei)).
      unfold time_ok in Ht. cbv zeta. rewrite (proj2 (Z.ltb_lt _ _) Ht). cbn [cassert rbind].
      rewrite Hi32. rewrite (IH (i + 1)) by (done || lia). by destruct params. }
    all: cbn [rbind]; rewrite Hi32; rewrite (IH (i + 1)) by (done || lia); try by destruct params.
    destruct params; cbn. by destruct already_got_req.
Qed.

(** the columns that are read are distinct *)
Definition columns_ok : Prop :=
  obj_id_field ip <> real_time_field ip /\ obj_id_field ip <> op_field ip /\ obj_id_field ip <> obj_size_field ip /\
  real_time_field ip <> op_field ip /\ real_time_field ip <> obj_size_field ip /\ op_field ip <> obj_size_field ip.

Definition set_from {A} (set : A -> request -> request) (v : option A) (q : request) : request :=
  match v with Some s => set s q | None => q end.

Definition set_id (s : list Z) := set_req_obj_id (str_to_obj_id s).
Definition set_time (s : list Z) := set_req_real_time (atof_u64 (cstr s)).
Definition set_size (s : list Z) := set_req_obj_size (u64 (atoll (cstr s))).

Lemma column_past i fs c : c < i -> column i fs c = None.
Proof. intros H. unfold column. by rewrite (proj2 (Z.leb_gt _ _)). Qed.

Lemma csv_fields_columns fs : columns_ok -> forall i q,
  csv_fields i fs q = set_from set_id (column i fs (obj_id_field ip))
    (set_from set_time (column i fs (real_time_field ip)) (set_from set_size (column i fs (obj_size_field ip)) q)).
Proof.
  intros (C1 & C2 & C3 & C4 & C5 & C6). induction fs as [|f fs IH]; intros i q.
  - unfold column. rewrite !lookup_nil. by destruct (i <=? _), (i <=? _), (i <=? _).
  - cbn [csv_fields]. rewrite IH, !column_cons. unfold csv_field.
    destruct (Z.eqb_spec i (obj_id_field ip)) as [E1|E1]; [|destruct (Z.eqb_spec i (real_time_field ip)) as [E2|E2];
      [|destruct (Z.eqb_spec i (op_field ip)) as [E3|E3]]].
    + rewrite !(proj2 (Z.eqb_neq i _)) by congruence. rewrite (column_past (i + 1) fs (obj_id_field ip)) by lia.
      by destruct (column (i + 1) fs (real_time_field ip)), (column (i + 1) fs (obj_size_field ip)).
    + rewrite !(proj2 (Z.eqb_neq i _)) by congruence. rewrite (column_past (i + 1) fs (real_time_field ip)) by lia.
      by destruct (column (i + 1) fs (obj_size_field ip)).
    + by rewrite !(proj2 (Z.eqb_neq i _)) by congruence.
    + destruct (Z.eqb_spec i (obj_size_field ip)) as [E4|E4]; [|done].
      by rewrite (column_past (i + 1) fs (obj_size_field ip)) by lia.
Qed.

End fields.

(** ** Reading a CSV trace *)

Section csv.
  Variable g_quark_from_string atof_u64 : list Z -> Z.
  Variable ip : reader_init_param_t.
  #[local] Set Default Proof Using "All".
  #[local] Abbreviation read := (read_one_req g_quark_from_string atof_u64).

(** the delimiter: a comma when none is given *)
Definition csv_delim : Z := if delimiter ip =? 0 then CSV_COMMA else u8 (delimiter ip).
  Hypothesis Hd : delim_ok csv_delim.
  #[local] Abbreviation d := csv_delim.

Record row_ok (w : row) : Prop := {
  row_plain : Forall (plain_field d) (fields w);
  row_len : len (row_line d w) < MAX_LINE_LEN;
  row_id : in_reach (fields w) 1 (obj_id_field ip) = true;
  row_time : forall f, column 1 (fields w) (real_time_field ip) = Some f -> time_ok atof_u64 f
}.

Definition row_req (w : row) (q : request) : request :=
  csv_fields atof_u64 ip 1 (fields w) (set_req_valid true (set_req_hv 0 q)).

Record csv_inv (r : reader_t) (at_end : bool) : Prop := {
  ci_type : trace_type r = CSV_TRACE;
  ci_id : obj_id_type r = OBJ_ID_NUM;
  ci_ip : init_params r = ip;
  ci_len : len (mapped_file r) < 2 ^ 62;
  ci_params : exists params, reader_params r = CsvParams params /\ reader_parser d (cp_parser params) /\
    current_field_counter params = 1 /\ reader_end params = at_end
}.

Lemma plain_not_lf f : plain_field d f -> CSV_LF ∉ f.
Proof. intros [_ H] Hc. rewrite Forall_forall in H. apply H in Hc. unfold plain_char in Hc. tauto. Qed.

Lemma row_line_ok w : row_ok w -> line_ok (row_line d w).
Proof.
  intros [Hp Hl _ _]. apply Forall_cons in Hp as [Hf Hfs]. destruct Hf as [Hne Hf]. split_and!.
  - unfold row_line. rewrite elem_of_app. intros [Hc|Hc]; [by apply (plain_not_lf w.1)|].
    revert Hfs Hc. generalize w.2. induction l as [|g l IH]; intros Hfs Hc; cbn [flat_map] in Hc; [by apply elem_of_nil in Hc|].
    apply Forall_cons in Hfs as [Hg Hfs]. apply elem_of_app in Hc as [Hc|Hc]; [|by apply IH].
    apply elem_of_cons in Hc as [Hc|Hc]; [|by apply (plain_not_lf g)]. destruct Hd as (_ & _ & H). congruence.
  - unfold row_line. rewrite length_app. destruct w as [[|c f] fs]; [done|]. cbn [fst length]. lia.
  - done.
  - intros c Hc. unfold row_line in Hc. destruct w as [[|b f] fs]; [done|]. injection Hc as <-.
    apply Forall_inv in Hf as (_ & _ & H1 & H2 & H3 & H4). unfold blank. by rewrite !(proj2 (Z.eqb_neq _ _)).
Qed.

Lemma flat_map_length fs : (length fs <= length (flat_map (cons d) fs))%nat.
Proof. induction fs as [|f fs IH]; cbn [flat_map length app]; [done|]. rewrite length_app. lia. Qed.

Lemma read_csv_row r q pre w rest :
  csv_inv r false -> mapped_file r = pre ++ row_line d w ++ CSV_LF :: rest -> mmap_offset r = len pre -> row_ok w ->
  (forall c, head rest = Some c -> blank c = false) ->
  exists r', read r q = Ok (true, r', row_req w q) /\
    csv_inv r' (match rest with [] => true | _ => false end) /\
    mapped_file r' = mapped_file r /\ mmap_offset r' = len pre + len (row_line d w) + (match rest with [] => 0 | _ => 1 end).
Proof.
  intros [Hty Hid Hip Hl (params & Hps & Hpar & Hcnt & Hend)] Hf Ho Hw Hrest.
  pose proof (row_line_ok w Hw) as (Hlf & Hlen & _). destruct Hw as [Hpl Hrl Hri Hrt].
  unfold read_one_req. cbn [trace_type set_n_read]. rewrite Hty. set (r1 := set_n_read _ r).
  unfold csv_read_one_element, csv_of. change (reader_params r1) with (reader_params r). rewrite Hps. cbn [rbind].
  change (reader_end (set_got false params)) with (reader_end params). rewrite Hend.
  rewrite (find_line_lf r1 pre (row_line d w) rest) by (done || lia). cbn [rbind].
  rewrite (read_bytes_at _ pre (row_line d w ++ [CSV_LF]) rest).
  2: { cbn [mapped_file set_item_size r1 set_n_read]. rewrite Hf. by rewrite <- !app_assoc. }
  2: done. 2: { rewrite length_app. cbn [length]. lia. }
  cbn [rbind]. change (cp_parser (set_got false params)) with (cp_parser params).
  destruct (csv_parse_row d Hd (cp_parser params) w Hpar Hpl) as (p' & E & Hpar'); [unfold MAX_LINE_LEN in Hrl; lia|].
  rewrite E. cbn [rbind]. cbn [obj_id_type init_params set_item_size r1 set_n_read]. rewrite Hid, Hip.
  assert (Hfl : 1 + Z.of_nat (length (fields w)) < 2 ^ 31).
  { pose proof (flat_map_length w.2). unfold fields. cbn [length]. unfold row_line in Hrl. rewrite length_app in Hrl.
    unfold MAX_LINE_LEN in Hrl. lia. }
  rewrite (row_events _ _ _ _ 1) by (done || lia). cbn [rbind].
  set (params' := set_field_counter 1 _).
  assert (Hgot : already_got_req params' = true) by (unfold params'; cbn; by rewrite Hri).
  exists (set_params (CsvParams (if match rest with [] => true | _ => false end then set_reader_end true params' else params'))
    (set_offset (len pre + len (row_line d w) + match rest with [] => 0 | _ => 1 end) (set_item_size (len (row_line d w)) r1))).
  split; [destruct rest; cbn [already_got_req set_reader_end]; by rewrite Hgot|].
  split; [|done]. split; try done. destruct rest; eexists; split_and!; try reflexivity; try done.
Qed.

Lemma read_csv_end r q : csv_inv r true -> exists r' q', read r q = Ok (false, r', q') /\ req_valid q' = false.
Proof.
  intros [Hty Hid Hip Hl (params & Hps & Hpar & Hcnt & Hend)]. unfold read_one_req. cbn [trace_type set_n_read]. rewrite Hty.
  unfold csv_read_one_element, csv_of. cbn [reader_params set_n_read]. rewrite Hps. cbn [rbind reader_end set_got]. rewrite Hend. eauto.
Qed.

(** each row updates the request of the row before *)
Fixpoint row_reqs (ws : list row) (q : request) : list request :=
  match ws with
  | [] => []
  | w :: ws => row_req w q :: row_reqs ws (row_req w q)
  end.

Definition csv_rows (ws : list row) : list Z := lf_lines (row_line d <$> ws).

Lemma rows_head ws c : Forall row_ok ws -> head (csv_rows ws) = Some c -> blank c = false.
Proof.
  intros Hws Hc. apply (lines_head (row_line d <$> ws) [] c); [|by left|by rewrite app_nil_r].
  apply Forall_fmap. eapply Forall_impl; [exact Hws|]. intros w Hw. by apply row_line_ok.
Qed.

Lemma row_req_valid w q : req_valid (row_req w q) = true.
Proof.
  assert (H : forall fs i q, req_valid (csv_fields atof_u64 ip i fs q) = req_valid q).
  { induction fs as [|f fs IH]; intros i p; [done|]. cbn [csv_fields]. rewrite IH. unfold csv_field.
    by repeat case_match. }
  unfold row_req. by rewrite H.
Qed.

Lemma read_all_csv ws : forall r q pre n,
  csv_inv r false -> mapped_file r = pre ++ csv_rows ws -> mmap_offset r = len pre -> ws <> [] ->
  Forall row_ok ws -> (length ws < n)%nat ->
  exists r', read_all g_quark_from_string atof_u64 n r q = Ok (row_reqs ws q, r').
Proof.
  induction ws as [|w ws IH]; intros r q pre n Hinv Hf Ho Hne Hok Hn; [done|]. destruct n as [|n]; [lia|].
  apply Forall_cons in Hok as [Hw Hok].
  assert (Hf' : mapped_file r = pre ++ row_line d w ++ CSV_LF :: csv_rows ws).
  { rewrite Hf. unfold csv_rows. cbn [fmap list_fmap lf_lines flat_map]. by rewrite <- !app_assoc. }
  destruct (read_csv_row r q pre w (csv_rows ws) Hinv Hf' Ho Hw) as (r1 & E & Hinv1 & Hf1 & Ho1); [intros c; by apply rows_head|].
  cbn [read_all row_reqs]. rewrite E. cbn [rbind]. rewrite row_req_valid. destruct ws as [|w2 ws].
  - cbn in Hinv1. destruct n as [|n]; [simpl in Hn; lia|]. cbn [read_all].
    destruct (read_csv_end r1 (row_req w q) Hinv1) as (r2 & q2 & E2 & Hv). rewrite E2. cbn [rbind]. rewrite Hv. cbn [rbind]. by exists r2.
  - assert (Hsome : exists c l, csv_rows (w2 :: ws) = c :: l).
    { unfold csv_rows. cbn [fmap list_fmap lf_lines flat_map]. apply Forall_inv in Hok. apply row_line_ok in Hok as (_ & H0 & _).
      destruct (row_line d w2); [simpl in H0; lia|]. cbn [app]. eauto. }
    destruct Hsome as (c & l & Hcl). rewrite Hcl in Hinv1, Ho1.
    destruct (IH r1 (row_req w q) (pre ++ row_line d w ++ [CSV_LF]) n Hinv1) as (r2 & E2); try done.
    + rewrite Hf1, Hf'. by rewrite <- !app_assoc.
    + rewrite Ho1, !length_app. cbn [length]. lia.
    + simpl in Hn. simpl. lia.
    + rewrite E2. cbn [rbind]. by exists r2.
Qed.

(** the header line, if there is one *)
Definition header_ok (header : list (list Z)) : Prop :=
  match header with
  | [] => has_header ip = false
  | [h] => has_header ip = true /\ line_ok h
  | _ => False
  end.

Lemma new_parser_ok : reader_parser d (if negb (delimiter ip =? 0) then csv_set_delim (delimiter ip) new_csv_parser else new_csv_parser).
Proof.
  unfold csv_delim. destruct (Z.eqb_spec (delimiter ip) 0); cbn [negb]; split; try done; split; try (by right); done.
Qed.

Lemma csv_setup header ws :
  header_ok header -> Forall row_ok ws -> ws <> [] -> len (lf_lines header ++ csv_rows ws) < 2 ^ 62 ->
  exists r, setup_reader (lf_lines header ++ csv_rows ws) CSV_TRACE OBJ_ID_NUM ip = Ok r /\
    csv_inv r false /\ mapped_file r = lf_lines header ++ csv_rows ws /\ mmap_offset r = len (lf_lines header) /\
    n_total_req r = 0 /\ (exists p, reader_params r = CsvParams p /\ cp_has_header p = has_header ip).
Proof.
  intros Hh Hws Hne Hl. pose proof new_parser_ok as Hp. unfold setup_reader.
  destruct ws as [|w ws]; [done|]. assert (Hrow : exists c l, csv_rows (w :: ws) = c :: l).
  { unfold csv_rows. cbn [fmap list_fmap lf_lines flat_map]. apply Forall_inv in Hws. apply row_line_ok in Hws as (_ & H0 & _).
    destruct (row_line d w); [simpl in H0; lia|]. cbn [app]. eauto. }
  destruct Hrow as (c & l & Hcl). set (file := lf_lines header ++ csv_rows (w :: ws)) in *.
  set (r := mk_reader file 0 CSV_TRACE OBJ_ID_NUM 0 0 0 ip NoParams false).
  assert (Hfile : csv_setup_reader r = match file with [] => Err Aborted | _ => csv_setup_reader r end).
  { unfold file. rewrite Hcl. by destruct (lf_lines header). }
  rewrite <- Hfile. clear Hfile. unfold csv_setup_reader. cbn [init_params r].
  destruct header as [|h [|]]; [| |done].
  - cbn [header_ok] in Hh. rewrite Hh. eexists. split; [reflexivity|]. split; [|split_and!; try done; by eexists].
    split; try done. eexists. by split_and!.
  - destruct Hh as [Hh (Hlf & Hlen & _)]. rewrite Hh.
    assert (Hf : mapped_file r = [] ++ h ++ CSV_LF :: csv_rows (w :: ws)).
    { cbn [mapped_file r]. unfold file. cbn [lf_lines flat_map]. by rewrite app_nil_r, <- app_assoc. }
    rewrite (find_line_lf r [] h (csv_rows (w :: ws))) by (done || lia || by intros ?; apply rows_head).
    rewrite Hcl. cbn [rbind]. eexists. split; [reflexivity|]. split; [|split_and!].
    + split; try done. eexists. by split_and!.
    + done.
    + cbn. rewrite app_nil_r, length_app. simpl. lia.
    + done.
    + by eexists.
Qed.

End csv.

(** ** Numbers in the fields *)

Lemma dec_loop_digits_val fuel : forall v acc, 0 <= v -> v < 10 ^ Z.of_nat fuel -> (0 < fuel)%nat ->
  digits_val (dec_loop fuel v acc) 0 = digits_val acc v.
Proof.
  assert (Hstep : forall n e acc, 0 <= e < 10 -> digits_val (48 + e :: acc) n = digits_val acc (n * 10 + e)).
  { intros n e acc He. cbn [digits_val].
    assert (is_digit (48 + e) = true) as ->.
    { unfold is_digit. change (ch _) with 48 at 1. change (ch _) with 57. rewrite (proj2 (Z.leb_le 48 (48 + e))), (proj2 (Z.leb_le (48 + e) 57)) by lia. done. }
    f_equal. lia. }
  induction fuel as [|fuel IH]; intros v acc Hv Hf H0; [lia|]. cbn [dec_loop]. destruct (Z.ltb_spec v 10).
  - rewrite Hstep by lia. done.
  - pose proof (Z.div_mod v 10 ltac:(lia)). pose proof (Z.mod_pos_bound v 10 ltac:(lia)).
    rewrite Nat2Z.inj_succ, Z.pow_succ_r in Hf by lia. assert (0 < fuel)%nat by (destruct fuel; [simpl in Hf; lia|lia]).
    rewrite IH; [|apply Z.div_pos; lia|apply Z.div_lt_upper_bound; lia|done]. rewrite Hstep by lia. f_equal. lia.
Qed.

Lemma decimal_shape v : 0 <= v -> Forall (fun c => 48 <= c < 58) (decimal v) /\ decimal v <> [].
Proof. intros Hv. split; [by apply (dec_loop_digits 20 v [])|by apply dec_loop_nonempty; lia]. Qed.

Lemma cstr_digits s : Forall (fun c => 48 <= c < 58) s -> cstr s = s.
Proof.
  induction s as [|c s IH]; intros H; [done|]. apply Forall_cons in H as [Hc H]. cbn [cstr].
  rewrite (proj2 (Z.eqb_neq c 0)) by lia. by rewrite IH.
Qed.

Lemma atoll_decimal v : 0 <= v < 2 ^ 63 -> atoll (decimal v) = v.
Proof.
  intros Hv. destruct (decimal_shape v ltac:(lia)) as [Hd Hne].
  assert (Hval : digits_val (decimal v) 0 = v) by (unfold decimal; rewrite dec_loop_digits_val by lia; done).
  unfold atoll. destruct (decimal v) as [|c s] eqn:E; [done|]. apply Forall_inv in Hd. cbn beta in Hd. cbn [skip_white].
  rewrite (proj2 (Z.eqb_neq c 32)), (proj2 (Z.leb_gt c 13)), andb_false_r by lia. cbn [orb].
  rewrite !(proj2 (Z.eqb_neq c _)) by lia. rewrite Hval. unfold clamp64. lia.
Qed.

(** ** The round trip *)

Record csv_rec := mk_csv_rec { cr_time : Z; cr_id : Z; cr_size : Z }.

Section roundtrip.
  Variable g_quark_from_string atof_u64 : list Z -> Z.
  Variable ip : reader_init_param_t.
  (** atof is exact on the decimal digits of an integer that a double represents *)
  Hypothesis atof_exact : forall v, 0 <= v < 2 ^ 53 -> atof_u64 (decimal v) = v.
  Hypothesis Hd : delim_ok (csv_delim ip).
  Hypothesis Hcols : columns_ok ip.
  #[local] Set Default Proof Using "All".

(** the row [w] shows the record [x] in the columns of the parameters, among others *)
Record row_holds (w : row) (x : csv_rec) : Prop := {
  rh_plain : Forall (plain_field (csv_delim ip)) (fields w);
  rh_len : len (row_line (csv_delim ip) w) < MAX_LINE_LEN;
  rh_id : column 1 (fields w) (obj_id_field ip) = Some (decimal (cr_id x)) /\ 0 <= cr_id x < 2 ^ 64;
  rh_time : column 1 (fields w) (real_time_field ip) = Some (decimal (cr_time x)) /\ 0 <= cr_time x < UINT32_MAX;
  rh_size : column 1 (fields w) (obj_size_field ip) = Some (decimal (cr_size x)) /\ 0 <= cr_size x < 2 ^ 63
}.

Definition csv_req (q : request) (x : csv_rec) : request :=
  set_req_obj_id (cr_id x) (set_req_real_time (cr_time x)
    (set_req_obj_size (cr_size x) (set_req_valid true (set_req_hv 0 q)))).

Lemma column_reach fs i c f : column i fs c = Some f -> in_reach fs i c = true.
Proof.
  unfold column, in_reach. destruct (Z.leb_spec i c); [|done]. intros Hf. apply lookup_lt_Some in Hf.
  cbn. apply Z.ltb_lt. lia.
Qed.

Lemma holds_ok w x : row_holds w x -> row_ok atof_u64 ip w.
Proof.
  intros [Hp Hl [Hi _] [Ht Htr] _]. split; try done.
  - by eapply column_reach.
  - intros f Hf. assert (f = decimal (cr_time x)) as -> by congruence. unfold time_ok.
    destruct (decimal_shape (cr_time x) ltac:(lia)) as [Hdg _]. rewrite cstr_digits by done.
    unfold UINT32_MAX in *. rewrite atof_exact by lia. lia.
Qed.

Lemma holds_req w x q : row_holds w x -> row_req atof_u64 ip w q = csv_req q x.
Proof.
  intros [_ _ [Hi Hir] [Ht Htr] [Hs Hsr]]. unfold row_req. rewrite csv_fields_columns by done. rewrite Hi, Ht, Hs.
  cbn [set_from]. unfold set_id, set_time, set_size, csv_req. unfold UINT32_MAX in *.
  rewrite !cstr_digits by (apply decimal_shape; lia). rewrite atof_exact, atoll_decimal, u64_small by lia.
  do 2 f_equal. apply (decimal_value (cr_id x)). lia.
Qed.

Lemma holds_reqs ws xs : Forall2 row_holds ws xs -> forall q, row_reqs atof_u64 ip ws q = csv_req q <$> xs.
Proof.
  induction 1 as [|w x ws xs Hwx _ IH]; intros q; [done|]. cbn [row_reqs fmap list_fmap].
  rewrite (holds_req w x q Hwx), IH. done.
Qed.

(** the reader set up on a trace, and after get_num_of_req *)
Lemma csv_trace_setup header ws xs :
  header_ok ip header -> ws <> [] -> Forall2 row_holds ws xs ->
  len (lf_lines header ++ csv_rows ip ws) < 2 ^ 62 ->
  exists r o i, setup_reader (lf_lines header ++ csv_rows ip ws) CSV_TRACE OBJ_ID_NUM ip = Ok r /\
    csv_inv ip r false /\ mapped_file r = lf_lines header ++ csv_rows ip ws /\ mmap_offset r = len (lf_lines header) /\
    get_num_of_req r = Ok (len xs, set_offset (mmap_offset r) (set_n_total (len xs) (set_offset o (set_item_size i r)))) /\
    len ws <= len (lf_lines header ++ csv_rows ip ws).
Proof.
  intros Hh Hne Hws Hl. assert (Hok : Forall (row_ok atof_u64 ip) ws).
  { clear -Hws atof_exact Hd Hcols g_quark_from_string. induction Hws; [done|]. constructor; [by eapply holds_ok|done]. }
  destruct (csv_setup g_quark_from_string atof_u64 ip Hd header ws Hh Hok Hne Hl) as (r & E & Hinv & Hf & Ho & Hn0 & p & Hp & Hhd).
  set (texts := header ++ (row_line (csv_delim ip) <$> ws)).
  assert (Hf2 : mapped_file (set_offset 0 r) = [] ++ lf_lines texts ++ []).
  { cbn [mapped_file set_offset app]. rewrite Hf, app_nil_r. unfold csv_rows, texts, lf_lines. by rewrite flat_map_app. }
  destruct (count_lines_spec texts (set_offset 0 r) [] [] 0 (S (length (mapped_file r)))) as (r2 & E2 & _); try done.
  { cbn [mapped_file set_offset]. by rewrite Hf. }
  { unfold texts. apply Forall_app. split.
    - destruct header as [|h [|]]; [done| |done]. destruct Hh as [_ Hh]. by constructor.
    - apply Forall_fmap. eapply Forall_impl; [exact Hok|]. intros w Hw. by apply (row_line_ok g_quark_from_string atof_u64 ip Hd). }
  { by left. } { left. unfold texts. by destruct header, ws. }
  { cbn [mapped_file set_offset] in Hf2. rewrite Hf2, app_nil_r. cbn [app]. clear. unfold lf_lines.
    induction texts as [|t texts IH]; [simpl; lia|]. cbn [flat_map length]. rewrite !length_app. cbn [length]. lia. }
  destruct (count_lines_same _ _ _ _ _ E2) as (o2 & i2 & Hr2).
  assert (Hty : trace_type r2 = trace_type r) by (by rewrite Hr2).
  assert (Hps : reader_params r2 = reader_params r) by (by rewrite Hr2).
  exists r, o2, i2. unfold get_num_of_req. rewrite Hn0. change (0 >? 0) with false. cbv iota.
  change (trace_type (set_offset 0 r)) with (trace_type r). rewrite (ci_type _ _ _ Hinv). change (mapped_file (set_offset 0 r)) with (mapped_file r).
  rewrite E2. cbn [rbind]. unfold csv_of. rewrite Hty, (ci_type _ _ _ Hinv), Hps, Hp. cbn [rbind]. rewrite Hhd.
  apply Forall2_length in Hws.
  assert (Hc : (if has_header ip then 0 + len texts - 1 + 1 - 1 else 0 + len texts - 1 + 1) = len xs).
  { unfold texts. rewrite length_app, length_fmap, Hws. destruct header as [|h [|]]; [|destruct Hh as [Hh _]|done];
      cbn [header_ok] in Hh; rewrite Hh; simpl; lia. }
  assert (Hb : len ws <= len (lf_lines header ++ csv_rows ip ws)).
  { clear. rewrite length_app. unfold csv_rows, lf_lines. induction ws as [|w ws IH]; [simpl; lia|].
    rewrite fmap_cons. cbn [flat_map length]. rewrite !length_app in *. cbn [length]. lia. }
  split_and!; try done. destruct (has_header ip); cbn [rbind]; rewrite Hc, u64_small, Hr2 by lia; reflexivity.
Qed.

(** reading the rows *)
Lemma csv_trace_read r header ws xs q n :
  csv_inv ip r false -> mapped_file r = lf_lines header ++ csv_rows ip ws -> mmap_offset r = len (lf_lines header) ->
  ws <> [] -> Forall2 row_holds ws xs -> (length ws < n)%nat ->
  exists r', read_all g_quark_from_string atof_u64 n r q = Ok (csv_req q <$> xs, r').
Proof.
  intros Hinv Hf Ho Hne Hws Hn. assert (Hok : Forall (row_ok atof_u64 ip) ws).
  { clear -Hws atof_exact Hd Hcols g_quark_from_string. induction Hws; [done|]. constructor; [by eapply holds_ok|done]. }
  destruct (read_all_csv g_quark_from_string atof_u64 ip Hd ws r q (lf_lines header) n) as (r1 & E1); try done.
  rewrite (holds_reqs ws xs Hws) in E1. by exists r1.
Qed.

(** C31.  Reading a CSV trace, with or without a header line, gives the records back: numbers of
    requests, identifiers, sizes and times are exactly those written (also the times, of which a
    comment in csv.c says that reading them does not work). The trace has fewer than 2^62 bytes, its
    rows end in a line feed and are shorter than MAX_LINE_LEN, their fields are unquoted and without
    delimiter, and the three columns the parameters name hold decimal numbers: the identifier below
    2^64, the time below 2^32 - 1, the size below 2^63. *)
Theorem csv_trace_roundtrip header ws xs n :
  header_ok ip header -> ws <> [] -> Forall2 row_holds ws xs ->
  len (lf_lines header ++ csv_rows ip ws) < 2 ^ 62 -> (length ws < n)%nat ->
  exists r r' r2, setup_reader (lf_lines header ++ csv_rows ip ws) CSV_TRACE OBJ_ID_NUM ip = Ok r /\
    read_all g_quark_from_string atof_u64 n r new_request = Ok (csv_req new_request <$> xs, r') /\
    get_num_of_req r = Ok (len xs, r2).
Proof.
  intros Hh Hne Hws Hl Hn. destruct (csv_trace_setup header ws xs Hh Hne Hws Hl) as (r & o & i & E & Hinv & Hf & Ho & En & _).
  destruct (csv_trace_read r header ws xs new_request n Hinv Hf Ho Hne Hws Hn) as (r' & E'). eexists r, r', _. by split_and!.
Qed.

(** a clone of the reader reads the same records *)
Lemma csv_trace_clone header ws xs q :
  header_ok ip header -> ws <> [] -> Forall2 row_holds ws xs ->
  len (lf_lines header ++ csv_rows ip ws) < 2 ^ 62 ->
  exists r r2 c r', setup_reader (lf_lines header ++ csv_rows ip ws) CSV_TRACE OBJ_ID_NUM ip = Ok r /\
    get_num_of_req r = Ok (len xs, r2) /\ clone_reader r2 = Ok c /\
    mapped_file c = lf_lines header ++ csv_rows ip ws /\ len ws <= len (mapped_file c) /\
    read_all g_quark_from_string atof_u64 (S (length ws)) c q = Ok (csv_req q <$> xs, r').
Proof.
  intros Hh Hne Hws Hl. destruct (csv_trace_setup header ws xs Hh Hne Hws Hl) as (r & o & i & E & Hinv & Hf & Ho & En & Hlen).
  set (r2 := set_offset _ _) in En. set (c := set_cloned true (set_n_total (len xs) r)).
  assert (Hc : clone_reader r2 = Ok c).
  { unfold clone_reader. change (mapped_file r2) with (mapped_file r). change (trace_type r2) with (trace_type r).
    change (obj_id_type r2) with (obj_id_type r). change (init_params r2) with (init_params r).
    rewrite Hf, (ci_type _ _ _ Hinv), (ci_id _ _ _ Hinv), (ci_ip _ _ _ Hinv), E. done. }
  assert (Hinv' : csv_inv ip c false) by (destruct Hinv; by split).
  destruct (csv_trace_read c header ws xs q (S (length ws)) Hinv' Hf Ho Hne Hws) as (r' & E'); [lia|].
  exists r, r2, c, r'. split_and!; try done. change (mapped_file c) with (mapped_file r). by rewrite Hf.
Qed.

End roundtrip.

(** ** Witnesses *)

Definition int_atof (s : list Z) : Z := digits_val s 0.
Definition no_quark (s : list Z) : Z := 0.

Lemma int_atof_exact v : 0 <= v < 2 ^ 53 -> int_atof (decimal v) = v.
Proof. intros Hv. unfold int_atof, decimal. by rewrite dec_loop_digits_val by lia. Qed.

(** time;id;note;size, with a header *)
Definition demo_csv_ip : reader_init_param_t := mk_init_params 1 2 4 0 0 0 0 true 59 [].
Definition demo_csv_row (t id sz : Z) : row := (decimal t, [decimal id; [120]; decimal sz]).
Definition demo_csv_rows : list row :=
  [demo_csv_row 10 7 512; demo_csv_row 12 18446744073709551615 1; demo_csv_row 12 7 4294967296].

Ltac plain_fields :=
  vm_compute; repeat match goal with |- Forall _ _ => constructor | |- _ /\ _ => split end; congruence.

Lemma csv_trace_roundtrip_witness :
  exists r r' r2, setup_reader (lf_lines [[116; 59; 105]] ++ csv_rows demo_csv_ip demo_csv_rows) CSV_TRACE OBJ_ID_NUM demo_csv_ip = Ok r /\
    read_all no_quark int_atof 4 r new_request =
      Ok (csv_req new_request <$> [mk_csv_rec 10 7 512; mk_csv_rec 12 18446744073709551615 1; mk_csv_rec 12 7 4294967296], r') /\
    get_num_of_req r = Ok (3, r2).
Proof.
  apply (csv_trace_roundtrip no_quark int_atof demo_csv_ip int_atof_exact).
  - repeat split; vm_compute; congruence.
  - repeat split; vm_compute; congruence.
  - split; [reflexivity|]. split_and!; [|vm_compute; reflexivity..|].
    + intros H. vm_compute in H. repeat (apply elem_of_cons in H as [H|H]; [congruence|]). by apply elem_of_nil in H.
    + intros c Hc. injection Hc as <-. reflexivity.
  - discriminate.
  - repeat (constructor; [split; [plain_fields|vm_compute; reflexivity|repeat split; vm_compute; congruence..]|]). constructor.
  - vm_compute. reflexivity.
  - vm_compute. lia.
Defined.

(** When the last line has no line end, csv_read_one_element still passes one byte more
    than the line to the parser.  If the identifier is the last field, that byte (0 in the
    mapping, past the end of the file) becomes its last digit: the trace
    [3,7 LF 4,8] is read as the objects 7 and 32. *)
Theorem csv_last_line_id :
  let ip := mk_init_params 1 2 0 0 0 0 0 false 44 [] in
  exists r r', setup_reader [51; 44; 55; 10; 52; 44; 56] CSV_TRACE OBJ_ID_NUM ip = Ok r /\
    read_all no_quark int_atof 4 r new_request =
      Ok ([set_req_obj_id 7 (set_req_real_time 3 new_request); set_req_obj_id 32 (set_req_real_time 4 new_request)], r').
Proof. do 2 eexists. split; [vm_compute; reflexivity|]. vm_compute. reflexivity. Qed.
