(* ===== verification/SimulatorThms.v ===== *)
(** * Correctness of the miss-ratio-curve simulator

    A job gives the counts that the reference LRU gives on the trace its reader holds, the
    warm-up requests left out; with the theorems on the readers, this is a statement from
    the bytes of the trace file to the miss counts.  The order in which the pool runs the
    jobs does not matter. *)

From S2P Require Import Prelude.
From S2P Require Import Store.
From S2P Require Import HashTable.
From S2P Require Import HashTableSpec.
From S2P Require Import Cache.
From S2P Require Import CacheSpec.
From S2P Require Import Policies.
From S2P Require Import CacheThms.
From S2P Require Import ReaderBase.
From S2P Require Import Reader.
From S2P Require Import TextReaderSpec.
From S2P Require Import CsvTraceSpec.
From S2P Require Import Simulator.

(** ** Runs of the abstract cache *)

Lemma run_rel_app touch victim cap l1 l2 a res1 a1 res2 a2 :
  run_rel touch victim cap l1 a res1 a1 -> run_rel touch victim cap l2 a1 res2 a2 ->
  run_rel touch victim cap (l1 ++ l2) a (res1 ++ res2) a2.
Proof. intros H1 H2. induction H1; [done|]. cbn [app]. eapply run_cons; [done|auto]. Qed.

Lemma run_rel_length touch victim cap l a res a' :
  run_rel touch victim cap l a res a' -> length res = length l.
Proof. induction 1; simpl; congruence. Qed.

(** what the main loop counts *)
Definition measured (k : counters) (l : list (cache_ck_res_e * entry)) : counters :=
  foldl (fun k x => mk_counters (k_req_cnt k + 1) (k_req_byte k + x.2.2)
    (if bool_decide (x.1 = cache_ck_hit) then k_miss_cnt k else k_miss_cnt k + 1)
    (if bool_decide (x.1 = cache_ck_hit) then k_miss_byte k else k_miss_byte k + x.2.2)) k l.

Section sim.
  Variable hash : Z -> Z.
  Variable g_quark_from_string atof_u64 : list Z -> Z.
  #[local] Abbreviation read := (read_one_req g_quark_from_string atof_u64).
  #[local] Set Default Proof Using "Type".

(** ** What a reader holds *)

(** reading with the request [q] gives the requests [reqs], then leaves the invalid [qe] *)
Inductive reads : reader_t -> request -> list request -> request -> Prop :=
  | reads_end r q b r' q' : read r q = Ok (b, r', q') -> req_valid q' = false -> reads r q [] q'
  | reads_more r q b r' q' reqs qe :
      read r q = Ok (b, r', q') -> req_valid q' = true -> reads r' q' reqs qe -> reads r q (q' :: reqs) qe.

Lemma reads_read_all n : forall r q reqs r',
  read_all g_quark_from_string atof_u64 n r q = Ok (reqs, r') -> exists qe, reads r q reqs qe /\ (length reqs < n)%nat.
Proof.
  induction n as [|n IH]; intros r q reqs r' E; [done|]. cbn [read_all] in E.
  destruct (read r q) as [[[b r1] q1]|] eqn:E1; [|done]. cbn [rbind] in E. destruct (req_valid q1) eqn:Hv.
  - destruct (read_all _ _ n r1 q1) as [[reqs1 r2]|] eqn:E2; [|done]. cbn [rbind] in E. injection E as <- <-.
    destruct (IH _ _ _ _ E2) as (qe & H & Hl). exists qe. split; [by eapply reads_more|simpl; lia].
  - injection E as <- <-. exists q1. split; [by eapply reads_end|simpl; lia].
Qed.

(** the hash value that cache_get leaves in the request is reset *)
Lemma read_set_hv r q h : read r (set_req_hv h q) = read r q.
Proof. done. Qed.

Lemma reads_set_hv r q h reqs qe : reads r (set_req_hv h q) reqs qe <-> reads r q reqs qe.
Proof.
  split; (intros H; inversion H; subst; [eapply reads_end|eapply reads_more]; try done);
    by rewrite <- ?(read_set_hv r q h), ?read_set_hv.
Qed.

(** the request in hand and what follows it *)
Definition pending (r : reader_t) (q : request) (reqs : list request) (qe : request) : Prop :=
  match reqs with
  | [] => req_valid q = false /\ qe = q
  | q' :: reqs => q' = q /\ req_valid q = true /\ reads r q reqs qe
  end.

Lemma reads_pending r q reqs qe : reads r q reqs qe ->
  exists b r' q', read r q = Ok (b, r', q') /\ pending r' q' reqs qe.
Proof. destruct 1; do 3 eexists; (split; [done|]); by split_and!. Qed.

(** ** The loops of a job *)

Section loops.
  Context {ops rel touch victim evictable pre safe accept}
    {P : Policy hash ops rel touch victim evictable pre safe accept}.
  Variable cap : Z.
  Hypothesis Hcap : 0 <= cap.
  #[local] Set Default Proof Using "Type*".

Definition served (r : request) : Prop := req_ok hash r /\ accept cap (req_obj_size r).

Record ready (n : Z) (st : state) (a : list entry) : Prop := {
  rd_rel : rel cap st a;
  rd_pre : pre cap a;
  rd_room : room n st a
}.

(** one request served and the next one read *)
Lemma sim_step n st a r q reqs qe :
  ready (n + 1) st a -> 0 <= n -> served q -> reads r q reqs qe ->
  exists st1 q1 a1 b r2 q2,
    cache_get ops st q = Ok (if cached (req_obj_id_int q) a then cache_ck_hit else cache_ck_miss, st1, q1) /\
    req_obj_size q1 = req_obj_size q /\
    get_rel touch victim cap (req_obj_id_int q) (req_obj_size q) a a1 /\ ready n st1 a1 /\
    read r q1 = Ok (b, r2, q2) /\ pending r2 q2 reqs qe.
Proof.
  intros [HR Hpre Hroom] Hn [Hq Hacc] Hrd.
  destruct (cache_get_spec hash cap st a q n Hcap Hn HR Hpre Hroom Hq)
    as (st1 & q1 & a1 & E & Hg & HR1 & Hroom1 & Hq1).
  apply (reads_set_hv r q (hash (req_obj_id_int q))) in Hrd. rewrite <- Hq1 in Hrd.
  destruct (reads_pending _ _ _ _ Hrd) as (b & r2 & q2 & E2 & Hp).
  exists st1, q1, a1, b, r2, q2. split_and!; try done; [by subst q1|].
  split; [done| |done]. eapply (get_rel_pre hash (P := P)); [done| |exact Hacc|exact Hpre|exact Hg]. apply Hq.
Qed.

(** how many of the pending requests a warm-up loop takes *)
Definition warm (limit : option Z) (n_warmup : Z) (reqs : list request) : nat :=
  match limit with Some n => Nat.min (Z.to_nat (n - n_warmup)) (length reqs) | None => length reqs end.

Lemma warmup_loop_spec limit m reqs : forall fuel n_warmup st r q qe a,
  pending r q reqs qe -> ready (len reqs + m) st a -> 0 <= m -> Forall served reqs ->
  (length reqs < fuel)%nat -> 0 <= n_warmup -> n_warmup + len reqs < 2 ^ 64 ->
  let k := warm limit n_warmup reqs in
  exists st' r' q' res a', warmup_loop g_quark_from_string atof_u64 ops fuel limit n_warmup st r q = Ok (st', r', q') /\
    run_rel touch victim cap (trace_of (take k reqs)) a res a' /\ ready (len (drop k reqs) + m) st' a' /\
    pending r' q' (drop k reqs) qe.
Proof.
  induction reqs as [|q0 reqs IH]; intros fuel n_warmup st r q qe a Hp Hrd Hm Hs Hf H0 Hn k;
    (destruct fuel as [|fuel]; [simpl in Hf; lia|]); cbn [warmup_loop].
  - destruct Hp as [Hv ->]. rewrite Hv. cbn [andb]. exists st, r, q, [], a.
    unfold k. rewrite take_nil, drop_nil. split_and!; [done|apply run_nil|done|done].
  - destruct Hp as (-> & Hv & Hp). rewrite Hv. cbn [andb]. apply Forall_cons in Hs as [Hq Hs]. cbn [length] in Hf, Hn.
    assert (Hk : (if match limit with Some n => n_warmup <? n | None => true end then k = S (warm limit (n_warmup + 1) reqs) else k = 0%nat)).
    { unfold k, warm. destruct limit as [n|]; [|done]. cbn [length]. destruct (Z.ltb_spec n_warmup n); lia. }
    destruct (match limit with Some n => n_warmup <? n | None => true end).
    + assert (Hrd' : ready (len reqs + m + 1) st a) by (replace (len reqs + m + 1) with (len (q :: reqs) + m) by (simpl; lia); done).
      destruct (sim_step _ st a r q reqs qe Hrd' ltac:(lia) Hq Hp) as (st1 & q1 & a1 & b & r2 & q2 & E1 & _ & Hg & Hrd1 & E2 & Hp2).
      rewrite E1. cbn [rbind]. rewrite E2. cbn [rbind]. rewrite u64_small by lia.
      destruct (IH fuel (n_warmup + 1) st1 r2 q2 qe a1 Hp2 Hrd1 Hm Hs) as (st' & r' & q' & res & a' & E & Hrun & Hrd2 & Hp'); [lia..|].
      rewrite Hk. cbn [take drop]. eexists st', r', q', _, a'. split_and!; [exact E| |done|done].
      cbn [trace_of fmap list_fmap]. by eapply run_cons.
    + rewrite Hk. cbn [take drop]. exists st, r, q, [], a. split_and!; [done|apply run_nil|done|done].
Qed.

Definition no_wrap (k : counters) (n : Z) : Prop :=
  0 <= k_req_cnt k /\ 0 <= k_miss_cnt k /\ 0 <= k_req_byte k /\ 0 <= k_miss_byte k /\
  k_req_cnt k + n < 2 ^ 31 /\ k_miss_cnt k + n < 2 ^ 31 /\
  k_req_byte k + n * 2 ^ 32 < 2 ^ 64 /\ k_miss_byte k + n * 2 ^ 32 < 2 ^ 64.

Lemma sim_loop_spec reqs : forall fuel k st r q qe a,
  pending r q reqs qe -> ready (len reqs) st a -> Forall served reqs ->
  (length reqs < fuel)%nat -> no_wrap k (len reqs) ->
  exists st' res a', sim_loop g_quark_from_string atof_u64 ops fuel k st r q =
      Ok (measured k (zip res (trace_of reqs)), st', qe) /\
    run_rel touch victim cap (trace_of reqs) a res a' /\ ready 0 st' a'.
Proof.
  induction reqs as [|q0 reqs IH]; intros fuel k st r q qe a Hp Hrd Hs Hf Hk;
    (destruct fuel as [|fuel]; [simpl in Hf; lia|]); cbn [sim_loop].
  - destruct Hp as [Hv ->]. rewrite Hv. exists st, [], a. split_and!; [done|apply run_nil|done].
  - destruct Hp as (-> & Hv & Hp). rewrite Hv. apply Forall_cons in Hs as [Hq Hs]. cbn [length] in Hf.
    assert (Hrd' : ready (len reqs + 1) st a) by (replace (len reqs + 1) with (len (q :: reqs)) by (simpl; lia); done).
    destruct (sim_step _ st a r q reqs qe Hrd' ltac:(lia) Hq Hp) as (st1 & q1 & a1 & b & r2 & q2 & E1 & Esz & Hg & Hrd1 & E2 & Hp2).
    rewrite E1. cbn [rbind]. rewrite E2. cbn [rbind]. destruct Hq as [[_ Hsz] _].
    unfold no_wrap in Hk. cbn [length] in Hk.
    set (hit := cached (req_obj_id_int q) a) in *.
    set (x := ((if hit then cache_ck_hit else cache_ck_miss), (req_obj_id_int q, req_obj_size q))).
    assert (Hc : count_req q1 (bool_decide ((if hit then cache_ck_hit else cache_ck_miss) = cache_ck_hit)) k = measured k [x]).
    { unfold count_req, measured, x. cbn [foldl fst snd]. rewrite Esz.
      destruct hit; rewrite ?bool_decide_eq_true_2, ?bool_decide_eq_false_2 by done; rewrite !u64_small by lia; done. }
    rewrite Hc. destruct (IH fuel (measured k [x]) st1 r2 q2 qe a1 Hp2 Hrd1 Hs) as (st' & res & a' & E & Hrun & Hrd2); [lia| |].
    { unfold no_wrap, measured, x. cbn [foldl fst snd k_req_cnt k_req_byte k_miss_cnt k_miss_byte].
      destruct (bool_decide _); lia. }
    exists st', ((if hit then cache_ck_hit else cache_ck_miss) :: res), a'. rewrite E.
    split_and!; [reflexivity| |done]. cbn [trace_of fmap list_fmap]. by eapply run_cons.
Qed.

End loops.

(** ** The state of the cache *)

Definition obj_sizes (m : gmap loc cache_obj) (L : list loc) : Z :=
  foldr (fun l n => match m !! l with Some o => obj_size o | None => 0 end + n) 0 L.

Lemma obj_sizes_perm m L L' : L ≡ₚ L' -> obj_sizes m L = obj_sizes m L'.
Proof. induction 1; simpl; lia. Qed.

Lemma obj_sizes_total M m L a : entries M m L a -> obj_sizes m L = total a.
Proof. induction 1 as [|l e L a (o & Ho & Hid & Hsz & _) _ IH]; simpl; [done|]. rewrite Ho, IH. lia. Qed.

Lemma get_cache_state_fold s L : forall cs,
  (forall l, l ∈ L -> exists o, objs s !! l = Some o /\ 0 <= obj_size o < 2 ^ 32) ->
  0 <= stored_obj_cnt cs -> stored_obj_cnt cs + len L < 2 ^ 31 -> 0 <= used_bytes cs ->
  used_bytes cs + len L * 2 ^ 32 < 2 ^ 64 ->
  rfold (get_cache_state_ht_iter s) L cs =
    Ok (mk_cache_state (stored_obj_cnt cs + len L) (used_bytes cs + obj_sizes (objs s) L) (cs_cache_size cs) (cur_time cs)).
Proof.
  induction L as [|l L IH]; intros cs Hlive H1 H2 H3 H4; cbn [rfold].
  - destruct cs. cbn. do 2 f_equal; lia.
  - destruct (Hlive l ltac:(by left)) as (o & Ho & Hsz). cbn [length] in H2, H4. unfold get_cache_state_ht_iter at 1.
    unfold deref. rewrite Ho. cbn [rbind]. rewrite !u64_small by lia. rewrite IH; cbn [stored_obj_cnt used_bytes]; [| |lia..].
    + assert (obj_sizes (objs s) (l :: L) = obj_size o + obj_sizes (objs s) L) as -> by (cbn; by rewrite Ho).
      cbn [length]. do 2 f_equal; lia.
    + intros l' Hl'. apply Hlive. by right.
Qed.

Lemma get_cache_state_spec cap st a size t :
  list_rel hash true cap st a -> Z.of_nat (length a) < 2 ^ 31 ->
  get_cache_state st (mk_cache_state 0 0 size t) = Ok (mk_cache_state (len a) (total a) size t).
Proof.
  intros (M & L & HB & _) Hlen. destruct HB as [HT He Hs _ _ _]. unfold get_cache_state.
  destruct (chained_hashtable_foreach_spec hash _ _ _ HT) as (L' & -> & HP). cbn [rbind].
  pose proof (entries_length _ _ _ _ He) as Hl. pose proof (Permutation_length HP) as Hl'.
  rewrite get_cache_state_fold; cbn [stored_obj_cnt used_bytes cs_cache_size cur_time]; [|intros l|lia..].
  - rewrite (obj_sizes_perm _ _ _ HP), (obj_sizes_total _ _ _ _ He). do 2 f_equal; lia.
  - rewrite HP. intros Hin. apply list_elem_of_lookup in Hin as [i Hi].
    destruct (Forall2_lookup_l _ _ _ _ _ He Hi) as (e & Hei & o & Ho & _ & Hsz & _). exists o. split; [done|].
    rewrite Forall_lookup in Hs. specialize (Hs i e Hei). unfold small_entry in Hs. lia.
Qed.

(** ** The default TTL never changes *)

(** splits the successful binds and tests of [H] *)
Ltac ok_binds H :=
  repeat match type of H with
  | rbind ?x _ = Ok _ => let E := fresh "E" in destruct x eqn:E; cbn [rbind] in H; [|discriminate]
  | (let '(_, _) := ?x in _) = Ok _ => destruct x
  | match ?x with _ => _ end = Ok _ => let E := fresh "E" in destruct x eqn:E; try discriminate
  end.

Definition ttl (st : state) : Z := default_ttl (st_cache st).

Lemma cache_check_ttl st r u res o st' r' :
  cache_check hash st r u = Ok (res, o, st', r') -> ttl st' = ttl st.
Proof.
  unfold cache_check, ttl. intros H. ok_binds H; injection H as <- <- <- <-; done.
Qed.

Lemma LRU_check_ttl st r u res st' r' : LRU_check hash st r u = Ok (res, st', r') -> ttl st' = ttl st.
Proof.
  unfold LRU_check. intros H. ok_binds H; injection H as <- <- <-; by apply cache_check_ttl in E.
Qed.

Lemma LRU_insert_ttl st r st' : LRU_insert hash st r = Ok st' -> ttl st' = ttl st.
Proof.
  unfold LRU_insert, cache_insert_LRU. intros H. ok_binds H; injection H as <-; ok_binds E; by injection E as <- <-.
Qed.

Lemma cache_evict_ttl st r o st' : cache_evict hash st r = Ok (o, st') -> ttl st' = ttl st.
Proof. unfold cache_evict, ttl. intros H. ok_binds H; by injection H as <- <-. Qed.

Lemma evict_loop_ttl fuel : forall st r st', evict_loop (LRU_ops hash) fuel st r = Ok st' -> ttl st' = ttl st.
Proof.
  induction fuel as [|fuel IH]; intros st r st' H; cbn [evict_loop] in H; [done|].
  destruct (_ >? _); [|by injection H as <-]. ok_binds H. apply IH in H. apply (cache_evict_ttl _ r) in E. congruence.
Qed.

Lemma LRU_get_ttl st r res st' r' : cache_get (LRU_ops hash) st r = Ok (res, st', r') -> ttl st' = ttl st.
Proof.
  unfold cache_get. intros H. ok_binds H. injection H as <- <- <-. cbn in E. apply LRU_check_ttl in E.
  change (ttl a = ttl st). rewrite <- E. destruct (req_obj_size r0 <=? cache_size (st_cache s)); [|by injection E0 as <-]. ok_binds E0. apply evict_loop_ttl in E0.
  rewrite E0. destruct c; try (by injection E1 as <-). exact (LRU_insert_ttl _ _ _ E1).
Qed.

Lemma warmup_loop_ttl fuel : forall limit n st r q st' r' q',
  warmup_loop g_quark_from_string atof_u64 (LRU_ops hash) fuel limit n st r q = Ok (st', r', q') -> ttl st' = ttl st.
Proof.
  induction fuel as [|fuel IH]; intros limit n st r q st' r' q' H; cbn [warmup_loop] in H; [done|].
  destruct (_ && _); [|by injection H as <- <- <-]. ok_binds H. apply IH in H. apply LRU_get_ttl in E. congruence.
Qed.

Lemma sim_loop_ttl fuel : forall k st r q k' st' q',
  sim_loop g_quark_from_string atof_u64 (LRU_ops hash) fuel k st r q = Ok (k', st', q') -> ttl st' = ttl st.
Proof.
  induction fuel as [|fuel IH]; intros k st r q k' st' q' H; cbn [sim_loop] in H; [done|].
  destruct (req_valid q); [|by injection H as <- <- <-]. ok_binds H. apply IH in H. apply LRU_get_ttl in E. congruence.
Qed.

(** ** A job *)

(** what the warm-up reader holds: its requests, and the request it leaves behind *)
Definition warmup_reads (warmup_reader : option reader_t) (wreqs : list request) (q : request) : Prop :=
  match warmup_reader with
  | Some w => exists wc, clone_reader w = Ok wc /\ reads wc new_request wreqs q /\ (length wreqs < read_fuel wc)%nat
  | None => wreqs = [] /\ q = new_request
  end.

Lemma init_ready params seed n :
  n < 2 ^ 31 - 1 -> 0 <= p_cache_size params < 2 ^ 63 ->
  ready (rel := list_rel hash true) (pre := no_condition) (p_cache_size params) n (init params seed) [].
Proof. intros Hn Hc. split; [by apply init_list_rel|done|by apply init_room]. Qed.

#[local] Abbreviation lru_ready := (ready (rel := list_rel hash true) (pre := no_condition)).
#[local] Abbreviation lru_rel := (run_rel lru_touch drop_first).

(** the part of a job before its own trace *)
Lemma warmup_run warmup_reader wreqs q m cap st :
  warmup_reads warmup_reader wreqs q -> 0 <= cap -> lru_ready cap (len wreqs + m) st [] -> 0 <= m ->
  Forall (req_ok hash) wreqs -> len wreqs < 2 ^ 31 ->
  exists st' res a,
    (match warmup_reader with
     | Some w =>
         let! w := clone_reader w in
         let fuel := read_fuel w in
         let! '(_, w, req) := read w new_request in
         let! '(st, _, req) := warmup_loop g_quark_from_string atof_u64 (LRU_ops hash) fuel None 0 st w req in
         Ok (st, req)
     | None => Ok (st, new_request)
     end) = Ok (st', q) /\
    lru_rel cap (trace_of wreqs) [] res a /\ lru_ready cap m st' a /\ ttl st' = ttl st.
Proof.
  intros Hw Hcap Hrd Hm Hok Hlen. destruct warmup_reader as [w|].
  - destruct Hw as (wc & -> & Hreads & Hfuel). cbn [rbind].
    destruct (reads_pending _ _ _ _ Hreads) as (b & r2 & q2 & -> & Hp). cbn [rbind].
    destruct (warmup_loop_spec cap Hcap None m wreqs (read_fuel wc) 0 st r2 q2 q [] Hp Hrd Hm)
      as (st' & r' & q' & res & a & E & Hrun & Hrd' & Hp'); [|done|lia|lia|].
    { eapply Forall_impl; [exact Hok|]. by split. }
    unfold warm in *. rewrite firstn_all in Hrun. rewrite skipn_all in Hrd', Hp'. destruct Hp' as [_ ->].
    rewrite E. cbn [rbind]. exists st', res, a. split_and!; [done|done|done|by eapply warmup_loop_ttl].
  - destruct Hw as [-> ->]. exists st, [], []. split_and!; [done|apply run_nil|done|done].
Qed.

(** the part of a job from its own trace on *)
Lemma trace_run c q reqs qe n_warmup_req cap st a :
  reads c q reqs qe -> 0 <= cap -> lru_ready cap (len reqs) st a -> Forall (req_ok hash) reqs ->
  (length reqs < read_fuel c)%nat -> len reqs < 2 ^ 31 - 1 -> 0 <= n_warmup_req ->
  exists st' res a',
    (let fuel := read_fuel c in
     let! '(_, r, req) := read c q in
     let! '(st, r, req) :=
       (if n_warmup_req >? 0
        then warmup_loop g_quark_from_string atof_u64 (LRU_ops hash) fuel (Some n_warmup_req) 0 st r req
        else Ok (st, r, req)) in
     sim_loop g_quark_from_string atof_u64 (LRU_ops hash) fuel (mk_counters 0 0 0 0) st r req) =
    Ok (measured (mk_counters 0 0 0 0)
          (drop (Nat.min (Z.to_nat n_warmup_req) (length reqs)) (zip res (trace_of reqs))), st', qe) /\
    lru_rel cap (trace_of reqs) a res a' /\ lru_ready cap 0 st' a' /\ ttl st' = ttl st.
Proof.
  intros Hrd Hcap Hready Hok Hfuel Hlen Hn. destruct (reads_pending _ _ _ _ Hrd) as (b & r2 & q2 & -> & Hp).
  cbn [rbind]. set (k := Nat.min (Z.to_nat n_warmup_req) (length reqs)).
  assert (Hserved : Forall (served (accept := any_size) cap) reqs).
  { eapply Forall_impl; [exact Hok|]. by split. }
  assert (Hw : exists st1 r1 q1 res1 a1,
    (if n_warmup_req >? 0
     then warmup_loop g_quark_from_string atof_u64 (LRU_ops hash) (read_fuel c) (Some n_warmup_req) 0 st r2 q2
     else Ok (st, r2, q2)) = Ok (st1, r1, q1) /\
    lru_rel cap (trace_of (take k reqs)) a res1 a1 /\ lru_ready cap (len (drop k reqs)) st1 a1 /\
    pending r1 q1 (drop k reqs) qe /\ ttl st1 = ttl st).
  { destruct (Z.gtb_spec n_warmup_req 0).
    - assert (Hready0 : lru_ready cap (len reqs + 0) st a) by (by rewrite Z.add_0_r).
      destruct (warmup_loop_spec cap Hcap (Some n_warmup_req) 0 reqs (read_fuel c) 0 st r2 q2 qe a Hp Hready0)
        as (st1 & r1 & q1 & res1 & a1 & E & Hrun & Hrd1 & Hp1); [lia|done|lia|lia|lia|].
      unfold warm in *. rewrite Z.sub_0_r in *. fold k in Hrun, Hrd1, Hp1. rewrite Z.add_0_r in Hrd1.
      exists st1, r1, q1, res1, a1. split_and!; try done. by eapply warmup_loop_ttl.
    - assert (k = 0%nat) as -> by (unfold k; lia). exists st, r2, q2, [], a. split_and!; try done. apply run_nil. }
  destruct Hw as (st1 & r1 & q1 & res1 & a1 & -> & Hrun1 & Hrd1 & Hp1 & Ht1). cbn [rbind].
  destruct (sim_loop_spec cap Hcap (drop k reqs) (read_fuel c) (mk_counters 0 0 0 0) st1 r1 q1 qe a1 Hp1 Hrd1)
    as (st2 & res2 & a2 & E & Hrun2 & Hrd2).
  - by apply Forall_drop.
  - rewrite length_drop. lia.
  - unfold no_wrap. cbn. rewrite length_drop. lia.
  - exists st2, (res1 ++ res2), a2. rewrite E.
    assert (Htr : trace_of (take k reqs) ++ trace_of (drop k reqs) = trace_of reqs).
    { unfold trace_of. by rewrite <- fmap_app, take_drop. }
    pose proof (run_rel_length _ _ _ _ _ _ _ Hrun1) as Hl1.
    assert (Hlk : length (trace_of (take k reqs)) = k).
    { unfold trace_of. rewrite length_fmap, length_take. unfold k. lia. }
    split_and!.
    + do 3 f_equal. rewrite <- Htr, zip_with_app by done. rewrite drop_app_length'; [done|].
      rewrite length_zip_with. lia.
    + rewrite <- Htr. by eapply run_rel_app.
    + done.
    + rewrite <- Ht1. by eapply sim_loop_ttl.
Qed.

(** A job of the simulator on LRU, with any warm-up *)
Lemma get_mrc_thread_run reader c warmup_reader wreqs q cache n_warmup_req seed size reqs qe :
  0 <= size < 2 ^ 63 -> 0 <= default_ttl cache < 2 ^ 63 -> 0 <= n_warmup_req ->
  clone_reader reader = Ok c -> warmup_reads warmup_reader wreqs q -> reads c q reqs qe ->
  (length reqs < read_fuel c)%nat -> good_trace hash size (wreqs ++ reqs) ->
  let run := lru_run size (trace_of (wreqs ++ reqs)) [] in
  let w := (length wreqs + Nat.min (Z.to_nat n_warmup_req) (length reqs))%nat in
  let k := measured (mk_counters 0 0 0 0) (drop w (zip run.1 (trace_of (wreqs ++ reqs)))) in
  get_mrc_thread g_quark_from_string atof_u64 (LRU_ops hash) reader warmup_reader cache n_warmup_req seed (new_sim_res size) =
    Ok (mk_sim_res (k_req_cnt k) (k_req_byte k) (k_miss_cnt k) (k_miss_byte k) size
          (if default_ttl cache =? 0 then mk_cache_state 0 0 0 0
           else mk_cache_state (len run.2) (total run.2) size (req_real_time qe))).
Proof.
  intros Hsz Httl Hnw Hclone Hwarm Hrd Hfuel [Hgood Hlen] run w k.
  apply Forall_app in Hgood as [Hgw Hgr]. rewrite length_app in Hlen.
  unfold get_mrc_thread. rewrite Hclone. cbn [rbind sr_cache_size new_sim_res].
  assert (Hi : forall x, 0 <= x < 2 ^ 63 -> i64 x = x) by (intros x Hx; unfold i64; rewrite swrap_small; lia).
  rewrite (Hi size) by done. set (params := mk_params size (i64 (default_ttl cache)) 0).
  change (create_cache_with_new_size empty_store cache size seed) with (init params seed).
  destruct (warmup_run warmup_reader wreqs q (len reqs) size (init params seed) Hwarm)
    as (st1 & res1 & a1 & E1 & Hrun1 & Hrd1 & Ht1); [lia|by apply (init_ready params); [lia|]|lia|done|lia|].
  cbv zeta in E1 |- *. rewrite E1. cbn [rbind].
  destruct (trace_run c q reqs qe n_warmup_req size st1 a1 Hrd) as (st2 & res2 & a2 & E2 & Hrun2 & Hrd2 & Ht2); [lia|done|done|lia|lia|lia|].
  cbv zeta in E2. destruct (read_one_req g_quark_from_string atof_u64 c q) as [[[b r] req]|]; [|done]. cbn [rbind] in E2 |- *.
  match type of E2 with rbind ?X _ = _ => destruct X as [[[st r'] req']|]; [|done] end. cbn [rbind] in E2 |- *.
  rewrite E2. cbn [rbind].
  assert (Hrun : run = (res1 ++ res2, a2)).
  { symmetry. eapply run_rel_ref; [apply evictions_oldest|]. unfold trace_of. rewrite fmap_app. by eapply run_rel_app. }
  assert (Hk : k = measured (mk_counters 0 0 0 0) (drop (Nat.min (Z.to_nat n_warmup_req) (length reqs)) (zip res2 (trace_of reqs)))).
  { unfold k. rewrite Hrun. cbn [fst]. unfold trace_of at 1. rewrite fmap_app. fold (trace_of wreqs) (trace_of reqs).
    pose proof (run_rel_length _ _ _ _ _ _ _ Hrun1) as Hl1. rewrite zip_with_app by done. unfold w. rewrite <- drop_drop.
    rewrite drop_app_length'; [done|]. rewrite length_zip_with, Hl1. unfold trace_of. rewrite length_fmap. lia. }
  rewrite Hrun. cbn [snd]. rewrite <- Hk. destruct Hrd2 as [HR _ [Hroom _]].
  assert (Hd : default_ttl (st_cache st2) = default_ttl cache).
  { unfold ttl in Ht1, Ht2. rewrite Ht2, Ht1. change (u64 (i64 (default_ttl cache)) = default_ttl cache).
    rewrite Hi, u64_small by lia. done. }
  rewrite Hd. pose proof (pl_cap hash _ _ _ HR) as Hcs. pose proof (pl_occupied hash _ _ _ HR) as Hocc.
  assert (Hfree : exists s, cache_struct_free st2 = Ok s).
  { destruct HR as (M & L & [HT _ _ _ _ _] & _). destruct (free_chained_hashtable_spec hash _ _ _ HT) as (s & Es & _). by exists s. }
  destruct Hfree as [s Es]. destruct (Z.eqb_spec (default_ttl cache) 0) as [_|_]; cbn [negb].
  - cbn [rbind]. rewrite Es. done.
  - cbn [sr_cache_state new_sim_res stored_obj_cnt used_bytes]. rewrite Hcs.
    rewrite (get_cache_state_spec size st2 a2 size (req_real_time qe) HR) by lia. cbn [rbind used_bytes].
    rewrite Hocc, Z.eqb_refl. cbn [cassert rbind]. rewrite Es. done.
Qed.

End sim.

(** ** The thread pool *)

Lemma sum_list_insert (f : job_state -> nat) js i j j' :
  js !! i = Some j -> (sum_list_with f (<[i := j']> js) + f j = sum_list_with f js + f j')%nat.
Proof.
  revert i. induction js as [|x js IH]; intros [|i] H; try done.
  - injection H as ->. simpl. lia.
  - simpl in H. specialize (IH i H). simpl. lia.
Qed.

Lemma sum_list_bound (f : job_state -> nat) n js : (forall j, f j <= n)%nat -> (sum_list_with f js <= n * length js)%nat.
Proof. intros Hf. induction js as [|j js IH]; simpl; [lia|]. specialize (Hf j). lia. Qed.

Section pool.
  Variable job : nat -> sim_res_t -> result sim_res_t.
  Variable sizes : list Z.
  Variable out : list sim_res_t.
  Hypothesis Hlen : length out = length sizes.
  Hypothesis Hmax : len sizes < 2 ^ 31.
  (** what the jobs compute *)
  Hypothesis Hjob : forall i sz res, sizes !! i = Some sz -> out !! i = Some res -> job i (new_sim_res sz) = Ok res.
  #[local] Set Default Proof Using "All".

Definition steps_of (j : job_state) : nat := match j with Waiting => 0 | Written => 1 | Finished => 2 end.
Definition ticks_of (j : job_state) : nat := match j with Finished => 1 | _ => 0 end.

(** the result of a job, given how far it is *)
Definition result_of (j : job_state) (sz : Z) (res : sim_res_t) : sim_res_t :=
  match j with Waiting => new_sim_res sz | _ => res end.

Record pool_inv (p : pool) : Prop := {
  pi_jobs : length (jobs p) = length sizes;
  pi_results : length (results p) = length sizes;
  pi_result : forall i j sz res, jobs p !! i = Some j -> sizes !! i = Some sz -> out !! i = Some res ->
    results p !! i = Some (result_of j sz res);
  pi_progress : progress p = Z.of_nat (sum_list_with ticks_of (jobs p))
}.

Lemma start_pool_inv : pool_inv (start_pool sizes).
Proof.
  split; cbn.
  - by rewrite length_replicate.
  - by rewrite length_fmap.
  - intros i j sz res Hj Hsz _. apply lookup_replicate in Hj as [-> _]. by rewrite list_lookup_fmap, Hsz.
  - generalize (length sizes). induction n as [|n IH]; [done|]. cbn. by rewrite <- IH.
Qed.

Lemma pool_step_inv p p' : pool_inv p -> pool_step job p p' ->
  pool_inv p' /\ sum_list_with steps_of (jobs p') = S (sum_list_with steps_of (jobs p)).
Proof.
  intros [H1 H2 H3 H4] Hstep. destruct Hstep as [i js rs pr res res' Hj Hr Hok|i js rs pr Hj]; cbn [jobs results progress] in *.
  - assert (Hi : (i < length sizes)%nat) by (rewrite <- H1; by eapply lookup_lt_Some).
    destruct (lookup_lt_is_Some_2 sizes i Hi) as [sz Hsz]. destruct (lookup_lt_is_Some_2 out i ltac:(lia)) as [o Ho].
    pose proof (H3 i Waiting sz o Hj Hsz Ho) as Hres. assert (res = new_sim_res sz) as -> by (simpl in Hres; congruence).
    assert (res' = o) as -> by (rewrite (Hjob i sz o Hsz Ho) in Hok; congruence).
    pose proof (sum_list_insert ticks_of js i Waiting Written Hj) as Ht. pose proof (sum_list_insert steps_of js i Waiting Written Hj) as Hs.
    split; [|cbn [steps_of] in Hs; lia]. split; cbn [jobs results progress].
    + by rewrite length_insert.
    + by rewrite length_insert.
    + intros i' j sz' o' Hj' Hsz' Ho'. destruct (decide (i = i')) as [<-|Hne].
      * rewrite list_lookup_insert_eq in Hj' by lia. rewrite list_lookup_insert_eq by lia. injection Hj' as <-. simpl. congruence.
      * rewrite list_lookup_insert_ne in Hj' by done. rewrite list_lookup_insert_ne by done. by eapply H3.
    + rewrite H4. cbn [ticks_of] in Ht. lia.
  - pose proof (sum_list_insert ticks_of js i Written Finished Hj) as Ht. pose proof (sum_list_insert steps_of js i Written Finished Hj) as Hs.
    assert (Hi : (i < length js)%nat) by (by eapply lookup_lt_Some).
    split; [|cbn [steps_of] in Hs; lia]. split; cbn [jobs results progress].
    + by rewrite length_insert.
    + done.
    + intros i' j sz o Hj' Hsz Ho. destruct (decide (i = i')) as [<-|Hne].
      * rewrite list_lookup_insert_eq in Hj' by lia. injection Hj' as <-. exact (H3 i Written sz o Hj Hsz Ho).
      * rewrite list_lookup_insert_ne in Hj' by done. by eapply H3.
    + pose proof (sum_list_bound ticks_of 1 (<[i := Finished]> js) ltac:(by intros []; simpl; lia)) as Hb.
      rewrite length_insert, H1 in Hb. cbn [ticks_of] in Ht. unfold i32. rewrite H4, swrap_small; lia.
Qed.

Lemma pool_run_inv n : forall p p', pool_inv p -> nsteps (pool_step job) n p p' ->
  pool_inv p' /\ sum_list_with steps_of (jobs p') = (n + sum_list_with steps_of (jobs p))%nat.
Proof.
  induction n as [|n IH]; intros p p' Hp Hn; inversion Hn as [|? ? p1 ? Hs Hn']; subst; [done|].
  destruct (pool_step_inv p p1 Hp Hs) as [Hp1 E1]. destruct (IH p1 p' Hp1 Hn') as [Hp' E']. split; [done|lia].
Qed.

(** a pool that cannot go on is finished *)
Lemma pool_stuck p : pool_inv p -> (forall p', ~ pool_step job p p') ->
  jobs p = replicate (length sizes) Finished /\ results p = out /\ progress p = len sizes.
Proof.
  intros [H1 H2 H3 H4] Hstuck. destruct p as [js rs pr]. cbn [jobs results progress] in *.
  assert (Hfin : forall i j, js !! i = Some j -> j = Finished).
  { intros i j Hj. destruct j; [| |done]; exfalso.
    - assert (Hi : (i < length sizes)%nat) by (rewrite <- H1; by eapply lookup_lt_Some).
      destruct (lookup_lt_is_Some_2 sizes i Hi) as [sz Hsz]. destruct (lookup_lt_is_Some_2 out i ltac:(lia)) as [o Ho].
      eapply Hstuck, step_write; [done|by apply (H3 i Waiting sz o)|by apply Hjob].
    - by eapply Hstuck, step_progress. }
  assert (Hjs : js = replicate (length sizes) Finished).
  { symmetry. apply replicate_as_elem_of. split; [done|]. intros j Hj. apply list_elem_of_lookup in Hj as [i Hi]. by eapply Hfin. }
  split_and!; [done| |].
  - apply list_eq_same_length with (length sizes); [lia|lia|]. intros i res o Hi Hr Ho.
    destruct (lookup_lt_is_Some_2 sizes i Hi) as [sz Hsz]. destruct (lookup_lt_is_Some_2 js i ltac:(lia)) as [j Hj].
    pose proof (H3 i j sz o Hj Hsz Ho) as E. rewrite (Hfin i j Hj) in E. simpl in E. congruence.
  - rewrite H4, Hjs. generalize (length sizes). induction n as [|n IH]; [done|]. cbn. lia.
Qed.

End pool.

(** ** The simulator on LRU *)

(** the point of the curve for a cache of a given size: the trace run by the reference LRU,
    counted from the end of the warm-up on *)
Definition curve_point (trace : list entry) (n_warmup : nat) (size : Z) : sim_res_t :=
  let k := measured (mk_counters 0 0 0 0) (drop n_warmup (zip (lru_run size trace []).1 trace)) in
  mk_sim_res (k_req_cnt k) (k_req_byte k) (k_miss_cnt k) (k_miss_byte k) size (mk_cache_state 0 0 0 0).

Section curve.
  Variable hash : Z -> Z.
  Variable g_quark_from_string atof_u64 : list Z -> Z.
  #[local] Set Default Proof Using "All".

(** A job of the simulator on LRU, with any warm-up: it ends without an error, its counts
    are those of the reference LRU on the requests of its trace that follow the warm-up,
    and, when the cache has a default TTL, so that the state of the cache is recorded, the
    assertion that the bytes found in the cache are those accounted for holds. *)
Theorem get_mrc_thread_LRU reader c warmup_reader wreqs q cache n_warmup_req seed size reqs qe :
  0 <= size < 2 ^ 63 -> 0 <= default_ttl cache < 2 ^ 63 -> 0 <= n_warmup_req ->
  clone_reader reader = Ok c -> warmup_reads g_quark_from_string atof_u64 warmup_reader wreqs q ->
  reads g_quark_from_string atof_u64 c q reqs qe ->
  (length reqs < read_fuel c)%nat -> good_trace hash size (wreqs ++ reqs) ->
  let run := lru_run size (trace_of (wreqs ++ reqs)) [] in
  let w := (length wreqs + Nat.min (Z.to_nat n_warmup_req) (length reqs))%nat in
  let k := measured (mk_counters 0 0 0 0) (drop w (zip run.1 (trace_of (wreqs ++ reqs)))) in
  get_mrc_thread g_quark_from_string atof_u64 (LRU_ops hash) reader warmup_reader cache n_warmup_req seed (new_sim_res size) =
    Ok (mk_sim_res (k_req_cnt k) (k_req_byte k) (k_miss_cnt k) (k_miss_byte k) size
          (if default_ttl cache =? 0 then mk_cache_state 0 0 0 0
           else mk_cache_state (len run.2) (total run.2) size (req_real_time qe))).
Proof. apply get_mrc_thread_run. Qed.

(** the trace of the records of a CSV file *)
Definition csv_trace (xs : list csv_rec) : list entry := (fun x => (cr_id x, cr_size x)) <$> xs.

(** C11.  From the bytes of a CSV trace to the miss-ratio curve of LRU, by the thread pool: in
    whatever order the threads write their results and report their progress, the run ends, after at
    most two steps per cache size, and then every point of the curve has the counts of the reference
    LRU on the records of the trace, less the warm-up. The trace is as in csv_trace_roundtrip, with
    fewer than 2^31 - 1 requests of sizes from 1 to 2^32 - 1, and there is no default TTL. *)
Theorem csv_miss_ratio_curve_LRU ip header ws xs cache n_warmup_req (seed : nat -> Z) sizes :
  (forall v, 0 <= v < 2 ^ 53 -> atof_u64 (decimal v) = v) ->
  delim_ok (csv_delim ip) -> columns_ok ip -> header_ok ip header -> ws <> [] -> Forall2 (row_holds ip) ws xs ->
  len (lf_lines header ++ csv_rows ip ws) < 2 ^ 62 -> len xs < 2 ^ 31 - 1 ->
  Forall (fun x => 0 < cr_size x < 2 ^ 32) xs ->
  default_ttl cache = 0 -> 0 <= n_warmup_req -> Forall (fun size => 0 <= size < 2 ^ 63) sizes -> len sizes < 2 ^ 31 ->
  exists r r2, setup_reader (lf_lines header ++ csv_rows ip ws) CSV_TRACE OBJ_ID_NUM ip = Ok r /\
    get_num_of_req r = Ok (len xs, r2) /\
    let job i := get_mrc_thread g_quark_from_string atof_u64 (LRU_ops hash) r2 None cache n_warmup_req (seed i) in
    forall n p, nsteps (pool_step job) n (start_pool sizes) p ->
      (n <= 2 * length sizes)%nat /\
      ((forall p', ~ pool_step job p p') ->
        progress p = len sizes /\
        results p = curve_point (csv_trace xs) (Nat.min (Z.to_nat n_warmup_req) (length xs)) <$> sizes).
Proof.
  intros Hatof Hd Hcols Hh Hne Hws Hl Hxs Hsz Httl Hnw Hsizes Hns.
  destruct (csv_trace_clone g_quark_from_string atof_u64 ip Hatof Hd Hcols header ws xs new_request Hh Hne Hws Hl)
    as (r & r2 & c & r' & E & En & Hc & Hf & Hlen & Hread).
  exists r, r2. split; [done|]. split; [done|]. intros job.
  apply reads_read_all in Hread as (qe & Hreads & _). pose proof (Forall2_length _ _ _ Hws) as Hlw.
  set (reqs := csv_req new_request <$> xs) in *.
  assert (Htr : trace_of reqs = csv_trace xs).
  { unfold trace_of, reqs, csv_trace. rewrite <- list_fmap_compose. by apply list_fmap_ext. }
  assert (Hgood : forall size, good_trace hash size reqs).
  { intros size. split; [|unfold reqs; rewrite length_fmap; lia]. unfold reqs. apply Forall_fmap.
    eapply Forall_impl; [exact Hsz|]. intros x Hx. split; [by left|done]. }
  set (out := curve_point (csv_trace xs) (Nat.min (Z.to_nat n_warmup_req) (length xs)) <$> sizes).
  assert (Hout : length out = length sizes) by apply length_fmap.
  assert (Hjob : forall i sz res, sizes !! i = Some sz -> out !! i = Some res -> job i (new_sim_res sz) = Ok res).
  { intros i sz res Hi Ho. unfold out in Ho. rewrite list_lookup_fmap, Hi in Ho. injection Ho as <-.
    rewrite Forall_lookup in Hsizes. unfold job.
    rewrite (get_mrc_thread_run hash g_quark_from_string atof_u64 r2 c None [] new_request cache n_warmup_req (seed i) sz reqs qe);
      [|by eapply Hsizes|lia|done|done|done|done| |apply Hgood].
    - cbn [app length]. rewrite Htr, Httl. unfold reqs. by rewrite length_fmap.
    - unfold read_fuel, reqs. rewrite length_fmap. lia. }
  intros n p Hn.
  destruct (pool_run_inv job sizes out Hout Hns Hjob n (start_pool sizes) p) as [Hp Hs]; [exact (start_pool_inv job sizes out Hout Hns Hjob)|done|].
  pose proof (sum_list_bound steps_of 2 (jobs p) ltac:(by intros []; simpl; lia)) as Hb.
  rewrite (pi_jobs _ _ _ Hp) in Hb. split; [lia|]. intros Hstuck.
  destruct (pool_stuck job sizes out Hout Hns Hjob p Hp Hstuck) as (_ & Hr & Hpr). done.
Qed.

End curve.

(** ** Witnesses *)

(** a trace for the warm-up and one for the curve, as the CSV reader reads them *)
Definition demo_sim_ip : reader_init_param_t := mk_init_params 1 2 3 0 0 0 0 false 44 [].
Definition demo_sim_row (x : csv_rec) : row := (decimal (cr_time x), [decimal (cr_id x); decimal (cr_size x)]).
Definition demo_sim_recs : list csv_rec :=
  [mk_csv_rec 1 1 4; mk_csv_rec 2 2 5; mk_csv_rec 3 1 4; mk_csv_rec 4 3 7; mk_csv_rec 5 2 5].
Definition demo_sim_cache (ttl : Z) : cache_t := mk_cache (mk_hashtable 0 0 0 0 0 [] 0) 0 0 0 0 0 0 ttl.

Lemma csv_miss_ratio_curve_LRU_witness :
  exists r r2, setup_reader (csv_rows demo_sim_ip (demo_sim_row <$> demo_sim_recs)) CSV_TRACE OBJ_ID_NUM demo_sim_ip = Ok r /\
    get_num_of_req r = Ok (5, r2) /\
    forall n p, nsteps (pool_step (fun i => get_mrc_thread no_quark int_atof (LRU_ops id_hash) r2 None (demo_sim_cache 0) 1 0)) n
        (start_pool [9; 16]) p ->
      (n <= 4)%nat /\
      ((forall p', ~ pool_step (fun i => get_mrc_thread no_quark int_atof (LRU_ops id_hash) r2 None (demo_sim_cache 0) 1 0) p p') ->
        progress p = 2 /\
        (fun x => (sr_req_cnt x, sr_miss_cnt x, sr_miss_bytes x)) <$> results p = [(4, 3, 17); (4, 2, 12)]).
Proof.
  destruct (csv_miss_ratio_curve_LRU id_hash no_quark int_atof demo_sim_ip [] (demo_sim_row <$> demo_sim_recs) demo_sim_recs
    (demo_sim_cache 0) 1 (fun _ => 0) [9; 16]) as (r & r2 & E & En & H).
  - exact int_atof_exact.
  - repeat split; vm_compute; congruence.
  - repeat split; vm_compute; congruence.
  - reflexivity.
  - discriminate.
  - repeat (constructor; [split; [plain_fields|vm_compute; reflexivity|repeat split; vm_compute; congruence..]|]). constructor.
  - vm_compute. reflexivity.
  - vm_compute. reflexivity.
  - repeat constructor; vm_compute; reflexivity.
  - reflexivity.
  - lia.
  - repeat constructor; vm_compute; congruence.
  - vm_compute. reflexivity.
  - exists r, r2. split; [exact E|]. split; [exact En|]. intros n p Hn. destruct (H n p Hn) as [H1 H2].
    split; [exact H1|]. intros Hstuck. destruct (H2 Hstuck) as [-> ->]. split; [reflexivity|]. vm_compute. reflexivity.
Defined.

Definition plain_of (text : list Z) : reader_t :=
  mk_reader text 0 PLAIN_TXT_TRACE OBJ_ID_NUM 0 0 0 demo_sim_ip NoParams false.

(** the trace 1 2 1 3 after the warm-up trace 7 1, with one more request of warm-up *)
Lemma get_mrc_thread_LRU_witness :
  get_mrc_thread no_quark int_atof (LRU_ops id_hash) (plain_of [49; 10; 50; 10; 49; 10; 51; 10]) (Some (plain_of [55; 10; 49; 10]))
    (demo_sim_cache 300) 1 0 (new_sim_res 2) =
  Ok (mk_sim_res 3 3 2 2 2 (mk_cache_state 2 2 2 0)).
Proof.
  assert (Hw : exists q, warmup_reads no_quark int_atof (Some (plain_of [55; 10; 49; 10]))
      [plain_req new_request 7; plain_req new_request 1] q /\
    exists qe, reads no_quark int_atof (set_cloned true (plain_of [49; 10; 50; 10; 49; 10; 51; 10])) q
      (plain_req new_request <$> [1; 2; 1; 3]) qe /\ req_real_time qe = 0).
  { eexists. split.
    - eexists. split; [vm_compute; reflexivity|]. split; [|vm_compute; lia].
      repeat (eapply reads_more; [vm_compute; reflexivity|reflexivity|]). eapply reads_end; [vm_compute; reflexivity|reflexivity].
    - eexists. split; [|]; [repeat (eapply reads_more; [vm_compute; reflexivity|reflexivity|]);
        eapply reads_end; [vm_compute; reflexivity|reflexivity]|reflexivity]. }
  destruct Hw as (q & Hw & qe & Hr & Ht).
  etrans; [apply (get_mrc_thread_LRU id_hash no_quark int_atof (plain_of [49; 10; 50; 10; 49; 10; 51; 10])
    (set_cloned true (plain_of [49; 10; 50; 10; 49; 10; 51; 10])) (Some (plain_of [55; 10; 49; 10]))
    [plain_req new_request 7; plain_req new_request 1] q (demo_sim_cache 300) 1 0 2 (plain_req new_request <$> [1; 2; 1; 3]) qe);
    try exact Hw; try exact Hr|].
  - lia.
  - vm_compute. split; [discriminate|reflexivity].
  - lia.
  - reflexivity.
  - vm_compute. lia.
  - split; [repeat constructor|vm_compute; reflexivity].
  - rewrite Ht. vm_compute. reflexivity.
Defined.
